(* ===== verification/_CoqProject ===== *)
-Q . S2P
Prelude.v
Safe.v
Bytes.v
Ring.v
Params.v
CString.v
Ulib.v
Printf.v
Grep.v
Utext.v
ShParse.v
ShSpec.v
ShHist.v
ShRun.v
Umalloc.v
UmallocSpec.v
Disk.v
Virtio.v
VirtioSpec.v
VirtioDev.v
Sleeplock.v
Bio.v
LogTx.v
Log.v
LogSpec.v
Tx.v
LogCrash.v
Fs.v
FsBlocks.v
FsInode.v
FsFile.v
FsDir.v
FsName.v
Mkfs.v
MkfsSpec.v
MkfsImage.v
FsBoot.v
FsDemo.v
BootDemo.v
Balance.v
LogBal.v
Riscv.v
Kalloc.v
Vm.v
VmPt.v
VmUser.v
VmCopy.v
VmFree.v
VmKernel.v
VmBytes.v
VmDemo.v
Spinlock.v
Proc.v
ProcMem.v
ProcOps.v
ProcIso.v
ProcDemo.v
Sched.v
SchedSpec.v
Pipe.v
PipeSpec.v
ProcCaller.v
Console.v
ConsoleSpec.v
PipeDemo.v
File.v
Syscall.v
Sysfile.v
Sysproc.v
Trap.v
ProcView.v
KBalance.v
KProcs.v
KCalls.v
KTrap.v
Boot.v
KDemo.v
