(* ===== verification/Prelude.v ===== *)
(** * Verification of the xv6 operating system

    A model of the xv6 kernel for RISC-V, of its disk driver down to the descriptor rings, and of the larger user programs, with the theorems that
    make each part correct.  The C sources are under src/kernel, src/user and src/mkfs; the doc comment before a definition names the file and the
    lines it translates.

    ** How the code is modelled

    Prelude.v holds the monad [M St A]: a computation takes a state and ends in an [outcome]: [Ok] with a value and a state, [Panic] (the kernel's
    [panic], or a program that gives up), [Sleep] on a channel, [Undef] (an access the C code must not make), or [NoFuel].  [wp m Q s] says that [m]
    run from [s] returns with [Q]; it rules out every other outcome, so a [wp] theorem includes termination and the absence of panics.  Safe.v adds
    [safe F m Q s], which allows the outcomes [F] names, for code that may sleep or panic where it means to.  Integers are [Z] with the
    wrap-around of their C type written out ([u8], [u16], [u32], [u64], [s16], [s32]); records are updated with [r <| f := v |>]; [zoom] runs code on a part of
    the state.  A loop that is not structurally recursive has fuel, and its theorem says how much is enough, so that [NoFuel] never hides a result.
    Bytes.v has byte arrays and the little-endian fields inside disk blocks and pages; Ring.v doubly linked rings; Params.v the constants of
    kernel/param.h, fs.h, fcntl.h and stat.h; CString.v and Ulib.v the string functions of kernel/string.c and user/ulib.c.

    ** The disk, the log and the file system

    - Disk.v: the block device as an interface, class [BlockDev] with its laws [BlockDevSpec], and a RAM disk that meets them.
    - Virtio.v, VirtioSpec.v, VirtioDev.v: kernel/virtio_disk.c against any device that keeps to the VIRTIO specification ([VirtioDevice]).  With
      requests in flight in any number and order the driver is safe and completes what it started; used for one request at a time it implements [BlockDev].
    - Sleeplock.v, Bio.v: kernel/sleeplock.c and the buffer cache kernel/bio.c with its LRU ring.
    - LogTx.v, Log.v, LogSpec.v, LogCrash.v: kernel/log.c.  A crash may happen between any two writes to the disk; after recovery a transaction
      has happened completely or not at all, and recovery that is itself interrupted changes nothing about that.
    - Tx.v: what the file system needs of the log, classes [TxOps] and [TxSpec]; the log is an instance.
    - Fs.v, FsBlocks.v, FsInode.v, FsFile.v, FsDir.v, FsName.v: kernel/fs.c over [TxSpec]: block allocation, the inode table, file contents as one
      sequence of bytes, directories and path names.  FsDemo.v evaluates the theorems on a small disk.
    - Mkfs.v, MkfsSpec.v, MkfsImage.v: the program mkfs/mkfs.c that builds the first image, and that the image is a file system in the sense of the
      kernel, with the files of the command line in it.
    - FsBoot.v, BootDemo.v: the kernel started on that image: [fsinit], [namei] and [readi] give every file back.

    ** Memory and processes

    - Riscv.v, Kalloc.v: page arithmetic of kernel/riscv.h and memlayout.h, and the page allocator kernel/kalloc.c, whose free list lives in the pages.
    - Vm.v, VmPt.v, VmUser.v, VmCopy.v, VmFree.v, VmBytes.v, VmKernel.v: kernel/vm.c, over page tables stored in memory: mapping, growing, copying
      and freeing an address space, copying bytes in and out of it with pages allocated on first use, and the page table of the kernel itself.  VmDemo.v has the examples.
    - Spinlock.v: kernel/spinlock.c, with the steps of the CPUs interleaved.
    - Proc.v, ProcMem.v, ProcOps.v, ProcIso.v: the process table of kernel/proc.c and its memory: fork, exit, wait, kill, sbrk.  Whatever sequence of
      operations the processes make, they stay isolated from each other.  ProcDemo.v has the examples.
    - Sched.v, SchedSpec.v: the scheduler, [sleep], [wakeup], [yield], [exit] and [kill] of kernel/proc.c as a step relation in which all CPUs
      interleave at their accesses to locks and context switches.

    ** Pipes, the console and system calls

    - Pipe.v and Console.v: kernel/pipe.c, console.c and uart.c, over an interface [Caller] to the process that calls, implemented in ProcCaller.v.
      PipeSpec.v and ConsoleSpec.v refine them to a bounded queue and a line editor.  PipeDemo.v has the examples.
    - File.v, Syscall.v, Sysfile.v, Sysproc.v, Trap.v: the whole kernel as one state [kern] (file system, processes, open files, pipes, console,
      clock): kernel/file.c, the arguments of system calls (syscall.c), exec.c, sysfile.c, sysproc.c, trap.c and plic.c.
    - Balance.v, LogBal.v, ProcView.v, KBalance.v, KProcs.v, KCalls.v, KTrap.v: the books of the kernel.  Every reference to a file or an inode, every
      inode lock, every buffer and every log operation is accounted for: each function is proved to change the accounts in a fixed way on all of
      its paths ([moved], [kmoved]), and so every system call and every trap leaves them balanced.  KDemo.v evaluates a call on a small machine.
    - Boot.v: kernel/main.c and [forkret], from power-on to the first process, and the steps the machine makes from there on.

    ** Formatting and user programs

    - Printf.v: kernel/printf.c and user/printf.c.  Grep.v: the matcher and the loop of user/grep.c.
    - Utext.v: user/cat.c, wc.c, echo.c and ls.c: what they print ([cat_correct], [wc_correct], [ls_correct]), however their input arrives.
    - Umalloc.v, UmallocSpec.v: the allocator user/umalloc.c, over the bytes of the process.
    - ShParse.v, ShSpec.v, ShHist.v, ShRun.v: the shell user/sh.c: its parser, its command history, and the processes and descriptors of a command.

    ** What the theorems show

    - Crash safety: [commit_atomic], [recovery_idempotent], [end_op_durable].
    - The file system as data: [writei_correct], [readi_correct], [write_then_read], [balloc_correct], [iget_correct], [dirlookup_correct], [mkfs_correct],
      [boot_reads_image].
    - Devices: [virtio_safe], [virtio_implements_blockdev], [console_refines].
    - Memory: [kalloc_safe], [kvmmake_correct], [mappages_correct], [uvmalloc_correct], [uvmcopy_correct], [proc_freepagetable_correct], [copyout_correct], [copyin_correct].
    - Processes: [processes_isolated], [fork_correct], [exit_correct], [wait_correct], [sched_safe], [no_lost_wakeup], [spinlock_mutex].
    - Communication: [pipe_stream], [pipe_no_lost_wakeup].
    - The kernel as a whole: [kernel_books], [syscall_balanced], [usertrap_correct].
    - User code: [malloc_free_correct], [parse_total], [parse_print], [runcmd_wires], [history_refines], [match_correct], [grep_correct], [printint_correct], [printf_agree].

    ** Bounds and fuel

    The theorems about loops with fuel name the fuel: one more than the length of the line for the parser, the input for [grep], the ring for the
    console; three times the length of the free list and six for [malloc].  Page tables have three levels by construction.  Where a bound of the machine is a hypothesis
    it is one the code relies on: sizes below [MAXVA] for address spaces, files below [MAXFILE] blocks, process numbers and history numbers below 2^31.

    ** What is not modelled

    Assembly (entry.S, swtch.S, kernelvec.S, trampoline.S) and the machine-mode start (start.c) are register moves; the context switch is a step of Sched.v.
    The registers of the PLIC and the negotiation in [virtio_disk_init] are writes to devices and are left out.  Inside one system call the model of
    the whole kernel is sequential: interleaving is modelled where it matters, in Spinlock.v, Sched.v and Virtio.v, and for pipes by the resumption of
    a sleeping writer.  Messages printed by the kernel are left out.  The test programs and the user programs that make only a few system calls are not modelled. *)

From Stdlib Require Export ZArith Lia.
From stdpp Require Export base numbers tactics strings gmap list.
#[global] Open Scope Z_scope.

Declare Scope xv6_scope.
Delimit Scope xv6_scope with xv6.
#[global] Open Scope xv6_scope.

(** [lia] understands [Z.div] and [Z.modulo] by constants. *)
Ltac Zify.zify_post_hook ::= Z.div_mod_to_equations.

(** ** Functional record update

    [r <| f := v |>] is the C assignment [r.f = v] on a record value.  A
    record declares its eta expansion once and gets every setter from it. *)
Class Eta (R : Type) := eta : R -> R.
Class Setter {R T : Type} (proj : R -> T) := upd : (T -> T) -> R -> R.
Arguments upd {R T} proj {_} f r /.

Ltac solve_setter :=
  match goal with
  | |- @Setter ?R ?T ?proj =>
      let i := constr:(_ : Eta R) in
      let e := eval cbv [eta] in (@eta R i) in
      let e := eval hnf in e in
      match eval pattern proj in e with
      | ?g _ =>
          let t := eval cbv beta in
            (fun (f : T -> T) (r : R) => g (fun x => f (proj x)) r) in
          exact t
      end
  end.
#[export] Hint Extern 1 (Setter _) => solve_setter : typeclass_instances.

Notation "r <| p := v |>" := (upd p (fun _ => v) r)
  (at level 12, left associativity, p at level 9, v at level 200,
   format "r  <|  p  :=  v  |>") : xv6_scope.

(** ** Machine integers

    A C integer of width [w] is a [Z]; unsigned arithmetic wraps with
    [u8], [u16], [u32], [u64], a conversion to [int] or [short] is [s32], [s16]. *)
Definition u8 (x : Z) : Z := x mod 2 ^ 8.
Definition u16 (x : Z) : Z := x mod 2 ^ 16.
Definition u32 (x : Z) : Z := x mod 2 ^ 32.
Definition u64 (x : Z) : Z := x mod 2 ^ 64.
Definition s16 (x : Z) : Z := (x + 2 ^ 15) mod 2 ^ 16 - 2 ^ 15.
Definition s32 (x : Z) : Z := (x + 2 ^ 31) mod 2 ^ 32 - 2 ^ 31.

Lemma u32_id x : 0 <= x < 2 ^ 32 -> u32 x = x.
Proof. intros. unfold u32. by apply Z.mod_small. Qed.

Lemma u64_id x : 0 <= x < 2 ^ 64 -> u64 x = x.
Proof. intros. unfold u64. by apply Z.mod_small. Qed.

Lemma u32_range x : 0 <= u32 x < 2 ^ 32.
Proof. unfold u32. lia. Qed.

Lemma u64_range x : 0 <= u64 x < 2 ^ 64.
Proof. unfold u64. lia. Qed.

Lemma s32_id x : - 2 ^ 31 <= x < 2 ^ 31 -> s32 x = x.
Proof. unfold s32. intros. lia. Qed.

(** ** The kernel monad

    A kernel function runs on a state [St].  It returns ([Ok]), calls
    [panic] ([Panic]), blocks in [sleep] on a wait channel ([Sleep], with the
    state it leaves behind), performs an access C leaves undefined ([Undef]),
    or exhausts the fuel that stands for an unbounded loop ([NoFuel]). *)
Inductive chan :=
  | ChAddr (a : Z)            (** a kernel address used as a channel *)
  | ChSleeplock (i : Z)       (** a sleep-lock *)
  | ChLog                     (** [&log] *)
  | ChTicks                   (** [&ticks] *)
  | ChPipeRead (pi : Z)       (** [&pi->nread] *)
  | ChPipeWrite (pi : Z)      (** [&pi->nwrite] *)
  | ChDiskFree                (** [&disk.free[0]] *)
  | ChProc (p : nat)          (** a [struct proc *] *)
  | ChCons                    (** [&cons.r] *)
  | ChUart.                   (** [&tx_chan] *)

#[export] Instance chan_eq_dec : EqDecision chan.
Proof. solve_decision. Defined.

Inductive outcome (St A : Type) : Type :=
  | Ok (a : A) (s : St)
  | Panic (msg : string)
  | Sleep (c : chan) (s : St)
  | Undef (what : string)
  | NoFuel.
Arguments Ok {St A} a s.
Arguments Panic {St A} msg.
Arguments Sleep {St A} c s.
Arguments Undef {St A} what.
Arguments NoFuel {St A}.

Definition M (St A : Type) : Type := St -> outcome St A.

Section Monad.
Context {St : Type}.

Definition ret {A} (a : A) : M St A := fun s => Ok a s.
Definition bind {A B} (m : M St A) (f : A -> M St B) : M St B := fun s =>
  match m s with
  | Ok a s' => f a s'
  | Panic e => Panic e
  | Sleep c s' => Sleep c s'
  | Undef e => Undef e
  | NoFuel => NoFuel
  end.
Definition panic {A} (msg : string) : M St A := fun _ => Panic msg.
Definition undef {A} (what : string) : M St A := fun _ => Undef what.
Definition sleepon {A} (c : chan) : M St A := fun s => Sleep c s.
Definition nofuel {A} : M St A := fun _ => NoFuel.
Definition get : M St St := fun s => Ok s s.
Definition gets {A} (f : St -> A) : M St A := fun s => Ok (f s) s.
Definition modify (f : St -> St) : M St unit := fun s => Ok tt (f s).

(** [for(i = lo; i < lo+n; i++) body], where the body either falls through
    ([None]) or leaves the loop with a value ([Some]). *)
Fixpoint floop {B} (body : Z -> M St (option B)) (i : Z) (n : nat) : M St (option B) :=
  match n with
  | O => ret None
  | S n' =>
      bind (body i) (fun r =>
        match r with
        | Some b => ret (Some b)
        | None => floop body (i + 1) n'
        end)
  end.

(** A counted loop whose body always falls through. *)
Fixpoint each (body : Z -> M St unit) (i : Z) (n : nat) : M St unit :=
  match n with
  | O => ret tt
  | S n' => bind (body i) (fun _ => each body (i + 1) n')
  end.
End Monad.

Notation "'let*' x ':=' m 'in' k" := (bind m (fun x => k))
  (at level 10, x name, m at level 100, k at level 200,
   format "'[v' 'let*'  x  ':='  m  'in' '//' k ']'") : xv6_scope.
Notation "'let*' ' p ':=' m 'in' k" := (bind m (fun x => match x with p => k end))
  (at level 10, p pattern, m at level 100, k at level 200,
   format "'[v' 'let*'  ' p  ':='  m  'in' '//' k ']'") : xv6_scope.
Notation "m1 ';;;' m2" := (bind m1 (fun _ => m2))
  (at level 199, right associativity, format "'[v' m1 ';;;' '//' m2 ']'") : xv6_scope.

(** Running an operation of a component on the component's part of a larger
    state. *)
Definition zoom {St T A} (g : St -> T) (p : T -> St -> St) (m : M T A) : M St A := fun s =>
  match m (g s) with
  | Ok a t => Ok a (p t s)
  | Panic e => Panic e
  | Sleep c t => Sleep c (p t s)
  | Undef e => Undef e
  | NoFuel => NoFuel
  end.

(** ** Total correctness

    [wp m Q s]: run from [s], [m] returns, and its result satisfies [Q]. *)
Definition wp {St A} (m : M St A) (Q : A -> St -> Prop) (s : St) : Prop :=
  match m s with Ok a s' => Q a s' | _ => False end.

Section WP.
Context {St : Type}.
Implicit Types s : St.

Lemma wp_returns {A} (m : M St A) (Q : A -> St -> Prop) s :
  wp m Q s <-> exists a s', m s = Ok a s' /\ Q a s'.
Proof.
  unfold wp. split.
  - destruct (m s) eqn:E; try done. eauto.
  - by intros (a & s' & -> & ?).
Qed.

Lemma wp_conseq {A} (m : M St A) (Q R : A -> St -> Prop) s :
  wp m Q s -> (forall a s', Q a s' -> R a s') -> wp m R s.
Proof. unfold wp. destruct (m s); naive_solver. Qed.

Lemma bind_ok {A B} (m : M St A) (f : A -> M St B) a s s' : m s = Ok a s' -> bind m f s = f a s'.
Proof. unfold bind. by intros ->. Qed.

Lemma wp_ret {A} (a : A) (Q : A -> St -> Prop) s : Q a s -> wp (ret a) Q s.
Proof. done. Qed.

Lemma wp_bind {A B} (m : M St A) (f : A -> M St B) Q s :
  wp m (fun a => wp (f a) Q) s -> wp (bind m f) Q s.
Proof. unfold wp, bind. by destruct (m s). Qed.

Lemma wp_bind_inv {A B} (m : M St A) (f : A -> M St B) Q s :
  wp (bind m f) Q s -> wp m (fun a => wp (f a) Q) s.
Proof. unfold wp, bind. by destruct (m s). Qed.

Lemma wp_run {A} (m : M St A) a s s' (Q : A -> St -> Prop) : m s = Ok a s' -> Q a s' -> wp m Q s.
Proof. unfold wp. by intros ->. Qed.

(** The run ends in [panic(msg)]. *)
Definition panics {A} (m : M St A) (msg : string) (s : St) : Prop := m s = Panic msg.

Lemma panics_bind {A B} (m : M St A) (f : A -> M St B) Q msg s :
  wp m Q s -> (forall a s', Q a s' -> panics (f a) msg s') -> panics (bind m f) msg s.
Proof. unfold wp, panics, bind. destruct (m s); naive_solver. Qed.

(** The state a run ends in. *)
Definition final {A} (m : M St A) (s : St) : St := match m s with Ok _ s' => s' | _ => s end.

Lemma wp_final {A} (m : M St A) (P : St -> Prop) s : wp m (fun _ => P) s -> P (final m s).
Proof. unfold wp, final. by destruct (m s). Qed.

(** The value a run returns. *)
Definition result {A} (m : M St A) (s : St) : option A := match m s with Ok a _ => Some a | _ => None end.

Lemma wp_result {A} (m : M St A) (Q : A -> St -> Prop) a s : wp m Q s -> result m s = Some a -> Q a (final m s).
Proof. unfold wp, result, final. destruct (m s); naive_solver. Qed.

Lemma result_final {A} (m : M St A) a s : result m s = Some a -> m s = Ok a (final m s).
Proof. unfold result, final. destruct (m s); naive_solver. Qed.

Lemma wp_get Q s : Q s s -> wp get Q s.
Proof. done. Qed.

Lemma wp_gets {A} (f : St -> A) Q s : Q (f s) s -> wp (gets f) Q s.
Proof. done. Qed.

Lemma wp_modify (f : St -> St) Q s : Q tt (f s) -> wp (modify f) Q s.
Proof. done. Qed.

Lemma wp_seq {A B} (m : M St A) (f : A -> M St B) Q R s :
  wp m Q s -> (forall a s', Q a s' -> wp (f a) R s') -> wp (bind m f) R s.
Proof. intros H1 H2. apply wp_bind. eapply wp_conseq; eauto. Qed.

Lemma wp_zoom {T A} (g : St -> T) p (m : M T A) Q s :
  wp m (fun a t => Q a (p t s)) (g s) -> wp (zoom g p m) Q s.
Proof. unfold wp, zoom. by destruct (m (g s)). Qed.

(** The loop rules: an invariant indexed by the loop variable. *)
Lemma wp_each (body : Z -> M St unit) (I : Z -> St -> Prop) i n s (Q : unit -> St -> Prop) :
  I i s ->
  (forall j s', i <= j < i + Z.of_nat n -> I j s' -> wp (body j) (fun _ => I (j + 1)) s') ->
  (forall s', I (i + Z.of_nat n) s' -> Q tt s') ->
  wp (each body i n) Q s.
Proof.
  revert i s. induction n as [|n IH]; intros i s HI Hb HQ; simpl.
  - apply wp_ret. apply HQ. by rewrite Z.add_0_r.
  - eapply wp_seq; [apply Hb; [lia|done]|]. intros [] s' HI'.
    apply IH; [done| |].
    + intros j s'' Hj. apply Hb. lia.
    + intros s'' H. apply HQ. by replace (i + Z.of_nat (S n)) with (i + 1 + Z.of_nat n) by lia.
Qed.

Lemma wp_floop {B} (body : Z -> M St (option B)) (I : Z -> St -> Prop)
    (R : B -> St -> Prop) i n s (Q : option B -> St -> Prop) :
  I i s ->
  (forall j s', i <= j < i + Z.of_nat n -> I j s' ->
     wp (body j) (fun r s'' => match r with Some b => R b s'' | None => I (j + 1) s'' end) s') ->
  (forall s', I (i + Z.of_nat n) s' -> Q None s') ->
  (forall b s', R b s' -> Q (Some b) s') ->
  wp (floop body i n) Q s.
Proof.
  revert i s. induction n as [|n IH]; intros i s HI Hb HQ HR; simpl.
  - apply wp_ret, HQ. by rewrite Z.add_0_r.
  - eapply wp_seq; [apply Hb; [lia|done]|]. intros [b|] s' HI'.
    + apply wp_ret. by apply HR.
    + apply IH; [done| | |done].
      * intros j s'' Hj. apply Hb. lia.
      * intros s'' H. apply HQ.
        by replace (i + Z.of_nat (S n)) with (i + 1 + Z.of_nat n) by lia.
Qed.
End WP.

(** One symbolic-execution step of a goal [wp m Q s]. *)
Ltac wp_step :=
  lazymatch goal with
  | |- wp (bind _ _) _ _ => apply wp_bind
  | |- wp (ret _) _ _ => apply wp_ret
  | |- wp get _ _ => apply wp_get
  | |- wp (gets _) _ _ => apply wp_gets
  | |- wp (modify _) _ _ => apply wp_modify
  | |- wp (zoom _ _ _) _ _ => apply wp_zoom
  end.
Ltac wp_steps := repeat (wp_step; cbn beta).

Create HintDb xv6.
