(* ===== verification/Safe.v ===== *)
(** Invariants of code that may sleep: [safe F m Q s] says that [m] run from [s] either returns with [Q], or
    does not return, in one of the ways [F] allows. *)

From S2P Require Import Prelude.

(** The ways a computation does not return. *)
Inductive fault := FPanic (msg : string) | FUndef (what : string) | FNoFuel | FSleep.

(** It may sleep, and nothing else. *)
Definition nofault : fault -> Prop := fun f => match f with FSleep => True | _ => False end.

Definition safe {St A} (F : fault -> Prop) (m : M St A) (Q : A -> St -> Prop) (s : St) : Prop :=
  match m s with
  | Ok a s' => Q a s'
  | Sleep _ _ => F FSleep
  | Panic msg => F (FPanic msg)
  | Undef w => F (FUndef w)
  | NoFuel => F FNoFuel
  end.

Section Safe.
Context {St : Type} {F : fault -> Prop}.
Implicit Types s : St.

Lemma safe_conseq {A} (m : M St A) (Q R : A -> St -> Prop) s :
  safe F m Q s -> (forall a s', Q a s' -> R a s') -> safe F m R s.
Proof. unfold safe. destruct (m s); auto. Qed.

Lemma safe_and {A} (m : M St A) (Q R : A -> St -> Prop) s : safe F m Q s -> safe F m R s -> safe F m (fun a s' => Q a s' /\ R a s') s.
Proof. unfold safe. destruct (m s); auto. Qed.

Lemma safe_wp {A} (m : M St A) Q s : wp m Q s -> safe F m Q s.
Proof. unfold wp, safe. by destruct (m s). Qed.

Lemma wp_meet {A} (m : M St A) (P Q : A -> St -> Prop) s : wp m P s -> safe F m Q s -> wp m (fun a s' => P a s' /\ Q a s') s.
Proof. unfold wp, safe. by destruct (m s). Qed.

Lemma safe_ok {A} (m : M St A) Q s a s' : safe F m Q s -> m s = Ok a s' -> Q a s'.
Proof. unfold safe. intros H E. by rewrite E in H. Qed.

Lemma safe_ret {A} (a : A) (Q : A -> St -> Prop) s : Q a s -> safe F (ret a) Q s.
Proof. done. Qed.

Lemma safe_bind {A B} (m : M St A) (f : A -> M St B) Q s :
  safe F m (fun a s' => safe F (f a) Q s') s -> safe F (bind m f) Q s.
Proof. unfold safe, bind. destruct (m s); auto. Qed.

Lemma safe_seq {A B} (m : M St A) (f : A -> M St B) Q R s :
  safe F m R s -> (forall a s', R a s' -> safe F (f a) Q s') -> safe F (bind m f) Q s.
Proof. intros. apply safe_bind. by eapply safe_conseq. Qed.

Lemma safe_get Q s : Q s s -> safe F get Q s.
Proof. done. Qed.
Lemma safe_gets {A} (f : St -> A) Q s : Q (f s) s -> safe F (gets f) Q s.
Proof. done. Qed.
Lemma safe_modify (f : St -> St) Q s : Q tt (f s) -> safe F (modify f) Q s.
Proof. done. Qed.
Lemma safe_sleep {A} c (Q : A -> St -> Prop) s : F FSleep -> safe F (sleepon c) Q s.
Proof. done. Qed.
Lemma safe_panic {A} msg (Q : A -> St -> Prop) s : F (FPanic msg) -> safe F (panic msg) Q s.
Proof. done. Qed.
Lemma safe_undef {A} w (Q : A -> St -> Prop) s : F (FUndef w) -> safe F (undef w) Q s.
Proof. done. Qed.
Lemma safe_nofuel {A} (Q : A -> St -> Prop) s : F FNoFuel -> safe F nofuel Q s.
Proof. done. Qed.

Lemma safe_zoom {T A} (g : St -> T) p (m : M T A) Q s :
  safe F m (fun a t => Q a (p t s)) (g s) -> safe F (zoom g p m) Q s.
Proof. unfold safe, zoom. destruct (m (g s)); auto. Qed.

Lemma safe_floop {B} (body : Z -> M St (option B)) (I : St -> Prop) (Q : option B -> St -> Prop) i n s :
  I s ->
  (forall j s', I s' -> safe F (body j) (fun r s'' => match r with Some b => Q (Some b) s'' | None => I s'' end) s') ->
  (forall s', I s' -> Q None s') -> safe F (floop body i n) Q s.
Proof.
  intros Hi Hb HQ. revert i s Hi. induction n as [|n IH]; intros i s Hi; simpl; [apply safe_ret; auto|].
  eapply safe_seq; [by apply Hb|]. intros [b|] s' H; [by apply safe_ret|by apply IH].
Qed.

Lemma safe_each (body : Z -> M St unit) (I : St -> Prop) i n s :
  I s -> (forall j s', I s' -> safe F (body j) (fun _ => I) s') -> safe F (each body i n) (fun _ => I) s.
Proof.
  intros Hi Hb. revert i s Hi. induction n as [|n IH]; intros i s Hi; simpl; [by apply safe_ret|].
  eapply safe_seq; [by apply Hb|]. intros [] s' H. by apply IH.
Qed.

(** The same with an invariant that depends on the index. *)
Lemma safe_each_n (body : Z -> M St unit) (I : Z -> St -> Prop) i n s :
  I i s -> (forall j s', i <= j < i + Z.of_nat n -> I j s' -> safe F (body j) (fun _ => I (j + 1)) s') ->
  safe F (each body i n) (fun _ => I (i + Z.of_nat n)) s.
Proof.
  revert i s. induction n as [|n IH]; intros i s Hi Hb; simpl; [apply safe_ret; by rewrite Z.add_0_r|].
  eapply safe_seq; [apply Hb; [lia|done]|]. intros [] s' H. replace (i + Z.of_nat (S n)) with (i + 1 + Z.of_nat n) by lia.
  apply IH; [done|]. intros j s1 Hj. apply Hb. lia.
Qed.
End Safe.

(** One symbolic-execution step of a goal [safe F m Q s]. *)
Ltac safe_step :=
  lazymatch goal with
  | |- safe _ (bind _ _) _ _ => apply safe_bind
  | |- safe _ (ret _) _ _ => apply safe_ret
  | |- safe _ get _ _ => apply safe_get
  | |- safe _ (gets _) _ _ => apply safe_gets
  | |- safe _ (modify _) _ _ => apply safe_modify
  | |- safe _ (sleepon _) _ _ => apply safe_sleep
  | |- safe _ (zoom _ _ _) _ _ => apply safe_zoom
  end.
Ltac safe_steps := repeat (safe_step; cbn beta).
