(* ===== verification/Bytes.v ===== *)
(** Byte arrays: the [char]/[uchar] buffers of the C code as lists of [Z],
    array access, copying into and out of a buffer, and the little-endian
    layout of the integers that live inside disk blocks and pages. *)

From S2P Require Import Prelude.

(** ** Arrays *)

(** [a[i]] for an index the code keeps in range; [a[i] = v]. *)
Definition aget (l : list Z) (i : Z) : Z := nth (Z.to_nat i) l 0.
Definition aset (l : list Z) (i v : Z) : list Z := <[Z.to_nat i := v]> l.

Lemma length_aset l i v : length (aset l i v) = length l.
Proof. apply length_insert. Qed.

Lemma nth_list_insert_eq {A} (l : list A) i v d :
  (i < length l)%nat -> nth i (<[i:=v]> l) d = v.
Proof.
  intros. apply nth_lookup_Some. by apply list_lookup_insert_eq.
Qed.

Lemma nth_list_insert_ne {A} (l : list A) i j v d :
  i <> j -> nth j (<[i:=v]> l) d = nth j l d.
Proof. intros. rewrite !nth_lookup. by rewrite list_lookup_insert_ne. Qed.

Lemma aget_aset_eq l i v :
  0 <= i < Z.of_nat (length l) -> aget (aset l i v) i = v.
Proof. intros. apply nth_list_insert_eq. lia. Qed.

Lemma aget_aset_ne l i j v :
  0 <= i -> 0 <= j -> i <> j -> aget (aset l i v) j = aget l j.
Proof. intros. apply nth_list_insert_ne. lia. Qed.

(** ** Sub-ranges *)
Lemma lookup_nth {A} (l : list A) i d : (i < length l)%nat -> l !! i = Some (nth i l d).
Proof.
  intros Hi. destruct (lookup_lt_is_Some_2 l i Hi) as [x Hx]. by rewrite (nth_lookup_Some _ _ _ _ Hx).
Qed.

Definition slice (l : list Z) (off n : Z) : list Z :=
  take (Z.to_nat n) (drop (Z.to_nat off) l).

(** [memmove(l + off, l', length l')]. *)
Definition splice (l : list Z) (off : Z) (l' : list Z) : list Z :=
  take (Z.to_nat off) l ++ l' ++ drop (Z.to_nat off + length l') l.

Lemma length_slice l off n :
  0 <= off -> 0 <= n -> off + n <= Z.of_nat (length l) -> length (slice l off n) = Z.to_nat n.
Proof. intros. unfold slice. rewrite length_take, length_drop. lia. Qed.

Lemma length_splice l off l' :
  0 <= off -> off + Z.of_nat (length l') <= Z.of_nat (length l) ->
  length (splice l off l') = length l.
Proof.
  intros. unfold splice. rewrite !length_app, length_take, length_drop. lia.
Qed.

Lemma lookup_splice l off l' i :
  0 <= off -> off + Z.of_nat (length l') <= Z.of_nat (length l) ->
  splice l off l' !! i =
    if decide (off <= Z.of_nat i < off + Z.of_nat (length l'))
    then l' !! (i - Z.to_nat off)%nat else l !! i.
Proof.
  intros. unfold splice.
  assert (Hl : length (take (Z.to_nat off) l) = Z.to_nat off) by (rewrite length_take; lia).
  case_decide.
  - rewrite lookup_app_r by lia. rewrite Hl, lookup_app_l by lia. done.
  - destruct (decide (Z.of_nat i < off)).
    + rewrite lookup_app_l by lia. by rewrite lookup_take_lt by lia.
    + rewrite lookup_app_r by lia. rewrite lookup_app_r by lia.
      rewrite Hl, lookup_drop. f_equal. lia.
Qed.

Lemma lookup_slice l off n i :
  slice l off n !! i = if decide (i < Z.to_nat n)%nat then l !! (Z.to_nat off + i)%nat else None.
Proof.
  unfold slice. case_decide.
  - rewrite lookup_take_lt by done. by rewrite lookup_drop.
  - by rewrite lookup_take_ge by lia.
Qed.

Lemma slice_app l off n m :
  0 <= off -> 0 <= n -> 0 <= m -> slice l off n ++ slice l (off + n) m = slice l off (n + m).
Proof.
  intros. unfold slice. rewrite !Z2Nat.inj_add by done. rewrite <-drop_drop.
  by rewrite take_take_drop.
Qed.

Lemma slice_splice_same l off l' :
  0 <= off -> off + Z.of_nat (length l') <= Z.of_nat (length l) ->
  slice (splice l off l') off (Z.of_nat (length l')) = l'.
Proof.
  intros. apply list_eq. intros i. rewrite lookup_slice.
  case_decide as Hi.
  - rewrite lookup_splice by done. rewrite decide_True by lia. f_equal. lia.
  - symmetry. apply lookup_ge_None. lia.
Qed.

Lemma slice_splice_other l off l' off' n :
  0 <= off -> off + Z.of_nat (length l') <= Z.of_nat (length l) -> 0 <= off' -> 0 <= n ->
  off' + n <= off \/ off + Z.of_nat (length l') <= off' ->
  slice (splice l off l') off' n = slice l off' n.
Proof.
  intros. apply list_eq. intros i. rewrite !lookup_slice.
  case_decide; [|done]. rewrite lookup_splice by done. by rewrite decide_False by lia.
Qed.

Lemma nth_splice l off l' i d :
  0 <= off -> off + Z.of_nat (length l') <= Z.of_nat (length l) ->
  nth i (splice l off l') d =
    if decide (off <= Z.of_nat i < off + Z.of_nat (length l'))
    then nth (i - Z.to_nat off) l' d else nth i l d.
Proof.
  intros. rewrite !nth_lookup, lookup_splice by done. by case_decide.
Qed.

Lemma splice_splice_same l off a b :
  0 <= off -> off + Z.of_nat (length a) <= Z.of_nat (length l) -> length a = length b ->
  splice (splice l off a) off b = splice l off b.
Proof.
  intros. apply list_eq. intros i.
  rewrite lookup_splice by (rewrite ?length_splice; lia).
  rewrite !lookup_splice by lia. repeat case_decide; try lia; done.
Qed.

(** ** Bytes *)
Definition is_byte (b : Z) : Prop := 0 <= b < 256.
Abbreviation bytes_ok := (Forall is_byte).

Lemma bytes_ok_slice l off n : bytes_ok l -> bytes_ok (slice l off n).
Proof. intros. unfold slice. by apply Forall_take, Forall_drop. Qed.

Lemma bytes_ok_splice l off l' : bytes_ok l -> bytes_ok l' -> bytes_ok (splice l off l').
Proof.
  intros. unfold splice. rewrite !Forall_app. split; [by apply Forall_take|].
  split; [done|by apply Forall_drop].
Qed.

Lemma bytes_ok_replicate n b : is_byte b -> bytes_ok (replicate n b).
Proof. intros. by apply Forall_replicate. Qed.

(** ** Little-endian integers *)
Fixpoint le_bytes (n : nat) (v : Z) : list Z :=
  match n with O => [] | S n' => v mod 256 :: le_bytes n' (v / 256) end.
Fixpoint le_val (l : list Z) : Z :=
  match l with [] => 0 | b :: l' => b + 256 * le_val l' end.

Lemma length_le_bytes n v : length (le_bytes n v) = n.
Proof. revert v. induction n; intros; simpl; auto. Qed.

Lemma le_bytes_ok n v : bytes_ok (le_bytes n v).
Proof.
  revert v. induction n; intros; simpl; constructor; auto. unfold is_byte. lia.
Qed.

Lemma le_val_bytes n v : le_val (le_bytes n v) = v mod 256 ^ Z.of_nat n.
Proof.
  revert v. induction n as [|n IH]; intros v.
  - simpl. by rewrite Z.mod_1_r.
  - cbn [le_bytes le_val]. rewrite IH, Nat2Z.inj_succ, Z.pow_succ_r by lia.
    rewrite Z.rem_mul_r by lia. done.
Qed.

Lemma le_val_range l : bytes_ok l -> 0 <= le_val l < 256 ^ Z.of_nat (length l).
Proof.
  induction 1 as [|b l Hb _ IH]; [simpl; lia|].
  cbn [le_val length]. rewrite Nat2Z.inj_succ, Z.pow_succ_r by lia.
  unfold is_byte in Hb. lia.
Qed.

Lemma le_bytes_val l : bytes_ok l -> le_bytes (length l) (le_val l) = l.
Proof.
  induction 1 as [|b l Hb Hl IH]; [done|]. cbn [le_val length le_bytes].
  unfold is_byte in Hb. f_equal; [lia|]. by replace ((b + 256 * le_val l) / 256) with (le_val l) by lia.
Qed.

(** The integer fields of an on-disk or in-page structure. *)
Definition get16 (l : list Z) (off : Z) : Z := le_val (slice l off 2).
Definition put16 (l : list Z) (off v : Z) : list Z := splice l off (le_bytes 2 v).
Definition get32 (l : list Z) (off : Z) : Z := le_val (slice l off 4).
Definition put32 (l : list Z) (off v : Z) : list Z := splice l off (le_bytes 4 v).
Definition get64 (l : list Z) (off : Z) : Z := le_val (slice l off 8).
Definition put64 (l : list Z) (off v : Z) : list Z := splice l off (le_bytes 8 v).

Section Fields.
Implicit Types (l : list Z) (off v n : Z).

Lemma get_put_le l off k v :
  0 <= off -> off + Z.of_nat k <= Z.of_nat (length l) ->
  le_val (slice (splice l off (le_bytes k v)) off (Z.of_nat k)) = v mod 256 ^ Z.of_nat k.
Proof.
  intros. pose proof (slice_splice_same l off (le_bytes k v)) as Hs.
  rewrite length_le_bytes in Hs. rewrite Hs by lia. apply le_val_bytes.
Qed.

Lemma get16_put16 l off v :
  0 <= off -> off + 2 <= Z.of_nat (length l) -> get16 (put16 l off v) off = u16 v.
Proof. intros. apply (get_put_le l off 2); lia. Qed.

Lemma get32_put32 l off v :
  0 <= off -> off + 4 <= Z.of_nat (length l) -> get32 (put32 l off v) off = u32 v.
Proof. intros. apply (get_put_le l off 4); lia. Qed.

Lemma get64_put64 l off v :
  0 <= off -> off + 8 <= Z.of_nat (length l) -> get64 (put64 l off v) off = u64 v.
Proof. intros. apply (get_put_le l off 8); lia. Qed.

Lemma length_put16 l off v :
  0 <= off -> off + 2 <= Z.of_nat (length l) -> length (put16 l off v) = length l.
Proof. intros. apply length_splice; rewrite ?length_le_bytes; lia. Qed.

Lemma length_put32 l off v :
  0 <= off -> off + 4 <= Z.of_nat (length l) -> length (put32 l off v) = length l.
Proof. intros. apply length_splice; rewrite ?length_le_bytes; lia. Qed.

Lemma length_put64 l off v :
  0 <= off -> off + 8 <= Z.of_nat (length l) -> length (put64 l off v) = length l.
Proof. intros. apply length_splice; rewrite ?length_le_bytes; lia. Qed.

Lemma slice_put32_other l off v off' n :
  0 <= off -> off + 4 <= Z.of_nat (length l) -> 0 <= off' -> 0 <= n ->
  off' + n <= off \/ off + 4 <= off' ->
  slice (put32 l off v) off' n = slice l off' n.
Proof. intros. apply slice_splice_other; rewrite ?length_le_bytes; lia. Qed.

Lemma slice_put16_other l off v off' n :
  0 <= off -> off + 2 <= Z.of_nat (length l) -> 0 <= off' -> 0 <= n ->
  off' + n <= off \/ off + 2 <= off' ->
  slice (put16 l off v) off' n = slice l off' n.
Proof. intros. apply slice_splice_other; rewrite ?length_le_bytes; lia. Qed.

Lemma get32_put32_other l off v off' :
  0 <= off -> off + 4 <= Z.of_nat (length l) -> 0 <= off' ->
  off' + 4 <= off \/ off + 4 <= off' ->
  get32 (put32 l off v) off' = get32 l off'.
Proof. intros. unfold get32 at 1. rewrite slice_put32_other by lia. done. Qed.

Lemma get32_range l off : bytes_ok l -> 0 <= get32 l off < 2 ^ 32.
Proof.
  intros. unfold get32. pose proof (le_val_range (slice l off 4) (bytes_ok_slice _ _ _ H)).
  assert (length (slice l off 4) <= 4)%nat by (unfold slice; rewrite length_take; lia).
  split; [lia|]. eapply Z.lt_le_trans; [apply H0|].
  change (2 ^ 32) with (256 ^ 4). apply Z.pow_le_mono_r; lia.
Qed.

Lemma get16_range l off : bytes_ok l -> 0 <= get16 l off < 2 ^ 16.
Proof.
  intros. unfold get16. pose proof (le_val_range (slice l off 2) (bytes_ok_slice _ _ _ H)).
  assert (length (slice l off 2) <= 2)%nat by (unfold slice; rewrite length_take; lia).
  split; [lia|]. eapply Z.lt_le_trans; [apply H0|].
  change (2 ^ 16) with (256 ^ 2). apply Z.pow_le_mono_r; lia.
Qed.

Lemma bytes_ok_put16 l off v : bytes_ok l -> bytes_ok (put16 l off v).
Proof. intros. apply bytes_ok_splice; [done|apply le_bytes_ok]. Qed.
Lemma bytes_ok_put32 l off v : bytes_ok l -> bytes_ok (put32 l off v).
Proof. intros. apply bytes_ok_splice; [done|apply le_bytes_ok]. Qed.
Lemma bytes_ok_put64 l off v : bytes_ok l -> bytes_ok (put64 l off v).
Proof. intros. apply bytes_ok_splice; [done|apply le_bytes_ok]. Qed.
End Fields.

#[export] Hint Resolve bytes_ok_slice bytes_ok_splice bytes_ok_replicate le_bytes_ok
  bytes_ok_put16 bytes_ok_put32 bytes_ok_put64 : xv6.
