(* ===== verification/Ring.v ===== *)
(** Doubly linked lists threaded through [next]/[prev] fields: the LRU list of
    [kernel/bio.c] and the history list of [user/sh.c].  The heap is seen as
    two functions [nx] and [pv] from node to node; [linked nx pv a l b] says
    that following [nx] from [a] passes through exactly [l] before [b], and
    that [pv] leads back. *)

From S2P Require Import Prelude.

Definition fupd (f : nat -> nat) (i v : nat) : nat -> nat :=
  fun j => if decide (j = i) then v else f j.

Lemma fupd_eq f i v : fupd f i v i = v.
Proof. unfold fupd. by rewrite decide_True. Qed.

Lemma fupd_ne f i v j : j <> i -> fupd f i v j = f j.
Proof. intros. unfold fupd. by rewrite decide_False. Qed.

Fixpoint linked (nx pv : nat -> nat) (a : nat) (l : list nat) (b : nat) : Prop :=
  match l with
  | [] => nx a = b /\ pv b = a
  | x :: l' => nx a = x /\ pv x = a /\ linked nx pv x l' b
  end.

Lemma list_snoc_cases {A} (l : list A) : l = [] \/ exists l' x, l = l' ++ [x].
Proof. induction l using rev_ind; eauto. Qed.

(** Splits a [NoDup] hypothesis into non-membership facts. *)
Ltac nodup :=
  repeat match goal with
  | H : NoDup (_ :: _) |- _ => apply NoDup_cons in H as [? H]
  | H : NoDup (_ ++ _) |- _ => apply NoDup_app in H as (? & ? & H)
  end.

Section Linked.
Implicit Types (nx pv : nat -> nat) (l : list nat).

Lemma linked_app nx pv a l1 x l2 b :
  linked nx pv a (l1 ++ x :: l2) b <-> linked nx pv a l1 x /\ linked nx pv x l2 b.
Proof. revert a. induction l1; intros; simpl; [tauto|]. rewrite IHl1. tauto. Qed.

Lemma linked_ext nx pv nx' pv' a l b :
  (forall i, i ∈ a :: l -> nx' i = nx i) -> (forall i, i ∈ l ++ [b] -> pv' i = pv i) ->
  linked nx pv a l b -> linked nx' pv' a l b.
Proof.
  revert a. induction l as [|x l IH]; intros a Hn Hp; simpl.
  - rewrite (Hn a), (Hp b) by set_solver. done.
  - intros (H1 & H2 & H3). rewrite (Hn a), (Hp x) by set_solver.
    split_and!; [done|done|]. apply IH; [set_solver|set_solver|done].
Qed.

Lemma linked_next nx pv a l b : linked nx pv a l b -> nx a = hd b l.
Proof. destruct l; simpl; tauto. Qed.

Lemma linked_prev nx pv a l b : linked nx pv a l b -> pv b = List.last l a.
Proof.
  revert a. induction l as [|x l IH]; intros a; simpl; [tauto|].
  intros (_ & _ & H). rewrite (IH _ H). destruct l; [done|]. simpl.
  clear. revert n. induction l; [done|]. intros. simpl. destruct l; auto.
Qed.

(** [b->next->prev = b->prev; b->prev->next = b->next], inside a ring with
    sentinel [h]. *)
Lemma linked_remove nx pv h l1 x l2 :
  NoDup (h :: l1 ++ x :: l2) -> linked nx pv h (l1 ++ x :: l2) h ->
  linked (fupd nx (pv x) (nx x)) (fupd pv (nx x) (pv x)) h (l1 ++ l2) h.
Proof.
  intros Hnd Hl. apply linked_app in Hl as [Ha Hb].
  pose proof (linked_prev _ _ _ _ _ Ha) as Hp.
  pose proof (linked_next _ _ _ _ _ Hb) as Hn.
  assert (Hsuf : forall p, p ∉ l2 -> linked (fupd nx p (nx x)) (fupd pv (nx x) p) p l2 h).
  { intros p Hpl. destruct l2 as [|n l2]; simpl in *; rewrite Hn, !fupd_eq; [done|].
    destruct Hb as (_ & _ & Hb). split_and!; [done..|]. revert Hb.
    apply linked_ext; intros i Hi; apply fupd_ne; intros ->; nodup; set_solver. }
  destruct (list_snoc_cases l1) as [->|(l1' & p & ->)].
  - rewrite Hp. apply Hsuf. simpl. nodup. set_solver.
  - rewrite last_last in Hp. rewrite <-app_assoc in *. simpl in *.
    apply linked_app in Ha as [Ha Hpx]. apply linked_app. rewrite Hp. split.
    + revert Ha. apply linked_ext; intros i Hi; apply fupd_ne; rewrite ?Hn; intros ->;
        destruct l2; simpl in *; nodup; set_solver.
    + apply Hsuf. nodup. set_solver.
Qed.

(** [b->next = h.next; b->prev = &h; h.next->prev = b; h.next = b]. *)
Lemma linked_push_front nx pv h l t x :
  x ∉ h :: l -> x <> t -> NoDup (h :: l) -> t ∉ l ->
  linked nx pv h l t ->
  linked (fupd (fupd nx x (nx h)) h x) (fupd (fupd pv x h) (nx h) x) h (x :: l) t.
Proof.
  intros Hx Hxt Hnd Ht Hl. pose proof (linked_next _ _ _ _ _ Hl) as Hn.
  simpl. rewrite fupd_eq. split; [done|].
  assert (Hxn : x <> nx h) by (rewrite Hn; destruct l; set_solver).
  rewrite (fupd_ne _ (nx h)) by done. rewrite fupd_eq. split; [done|].
  apply NoDup_cons in Hnd as [Hh Hnd]. destruct l as [|n l]; simpl in *.
  - rewrite (fupd_ne _ h) by set_solver. rewrite fupd_eq, Hn, fupd_eq. done.
  - destruct Hl as (_ & Hpn & Hl). rewrite (fupd_ne _ h) by set_solver.
    rewrite fupd_eq, Hn, fupd_eq. split_and!; [done..|].
    revert Hl. apply linked_ext.
    + intros i Hi. rewrite !fupd_ne by set_solver. done.
    + intros i Hi. apply NoDup_cons in Hnd as [Hn' _]. rewrite !fupd_ne by set_solver. done.
Qed.

(** [e->prev = t.prev; e->next = &t; t.prev->next = e; t.prev = e]. *)
Lemma linked_push_back nx pv h l t x :
  x ∉ h :: l -> x <> t -> t ∉ h :: l -> h ∉ l -> NoDup l ->
  linked nx pv h l t ->
  linked (fupd (fupd nx x t) (pv t) x) (fupd (fupd pv x (pv t)) t x) h (l ++ [x]) t.
Proof.
  intros Hx Hxt Ht Hh Hnd Hl. pose proof (linked_prev _ _ _ _ _ Hl) as Hp.
  apply linked_app. destruct (list_snoc_cases l) as [->|(l' & p & ->)].
  - simpl in *. destruct Hl as [Hl1 Hl2]. rewrite Hp.
    rewrite !fupd_eq. rewrite (fupd_ne _ t x) by done. rewrite fupd_eq.
    rewrite (fupd_ne _ h x) by set_solver. rewrite fupd_eq. done.
  - rewrite last_last in Hp. apply linked_app in Hl as [Hl1 Hl2]. simpl in Hl2.
    assert (Hpn : (p ∉ l') /\ p <> h /\ p <> t /\ x <> p).
    { apply NoDup_app in Hnd as (_ & Hd & _). set_solver. }
    split.
    + apply linked_app. split.
      * revert Hl1. apply linked_ext; intros i Hi; rewrite Hp, !fupd_ne by set_solver; done.
      * simpl. rewrite Hp, fupd_eq. rewrite (fupd_ne _ t x) by done. by rewrite fupd_eq.
    + simpl. rewrite Hp. rewrite (fupd_ne _ p x) by set_solver.
      by rewrite !fupd_eq.
Qed.

(** [h.next = e->next; e->next->prev = &h], for the first element [e]. *)
Lemma linked_pop_front nx pv h l t x :
  NoDup (h :: x :: l) -> t ∉ x :: l -> linked nx pv h (x :: l) t ->
  linked (fupd nx h (nx x)) (fupd pv (nx x) h) h l t.
Proof.
  intros Hnd Ht (Hx & Hpx & Hl). pose proof (linked_next _ _ _ _ _ Hl) as Hn.
  destruct l as [|n l]; simpl in *.
  - rewrite fupd_eq, Hn, fupd_eq. done.
  - destruct Hl as (_ & Hpn & Hl). rewrite fupd_eq, Hn, fupd_eq.
    split_and!; [done..|].
    apply NoDup_cons in Hnd as [Hh Hnd]. apply NoDup_cons in Hnd as [_ Hnd].
    apply NoDup_cons in Hnd as [Hnn _].
    revert Hl. apply linked_ext; intros i Hi; apply fupd_ne; set_solver.
Qed.

(** Following [nx] from [i] until [stop]. *)
Fixpoint follow (nx : nat -> nat) (fuel : nat) (i stop : nat) : option (list nat) :=
  match fuel with
  | O => None
  | S fuel' => if decide (i = stop) then Some []
               else option_map (cons i) (follow nx fuel' (nx i) stop)
  end.

Lemma follow_linked nx pv a l b fuel :
  linked nx pv a l b -> b ∉ l -> (length l < fuel)%nat -> follow nx fuel (nx a) b = Some l.
Proof.
  revert a fuel. induction l as [|x l IH]; intros a fuel Hl Hb Hf; simpl in *.
  - destruct fuel; [lia|]. simpl. destruct Hl as [-> _]. by rewrite decide_True.
  - destruct fuel; [lia|]. destruct Hl as (-> & _ & Hl). simpl.
    rewrite decide_False by set_solver. rewrite (IH x fuel Hl) by (set_solver || lia). done.
Qed.
End Linked.

Lemma linked_rev nx pv a l b : linked nx pv a l b -> linked pv nx b (rev l) a.
Proof.
  revert a. induction l as [|x l IH]; intros a; simpl; [tauto|].
  intros (H1 & H2 & H3). apply linked_app. split; [by apply IH|]. done.
Qed.
