(* ===== verification/Params.v ===== *)
(** The constants and address macros the kernel headers fix: [param.h],
    [fs.h], [stat.h] and [fcntl.h]. *)

From S2P Require Import Prelude.

(** kernel/param.h:1 *)
Definition NPROC : Z := 64.
(** kernel/param.h:2 *)
Definition NCPU : Z := 8.
(** kernel/param.h:3 *)
Definition NOFILE : Z := 16.
(** kernel/param.h:4 *)
Definition NFILE : Z := 100.
(** kernel/param.h:5 *)
Definition NINODE : Z := 50.
(** kernel/param.h:6 *)
Definition NDEV : Z := 10.
(** kernel/param.h:7 *)
Definition ROOTDEV : Z := 1.
(** kernel/param.h:8 *)
Definition MAXARG : Z := 32.
(** kernel/param.h:9 *)
Definition MAXOPBLOCKS : Z := 10.
(** kernel/param.h:10 *)
Definition LOGBLOCKS : Z := MAXOPBLOCKS * 3.
(** kernel/param.h:11 *)
Definition NBUF : Z := MAXOPBLOCKS * 3.
(** kernel/param.h:12 *)
Definition FSSIZE : Z := 2000.
(** kernel/param.h:13 *)
Definition MAXPATH : Z := 128.
(** kernel/param.h:14 *)
Definition USERSTACK : Z := 1.

(** kernel/fs.h:5 *)
Definition ROOTINO : Z := 1.
(** kernel/fs.h:6 *)
Definition BSIZE : Z := 1024.
(** kernel/fs.h:25 *)
Definition FSMAGIC : Z := 0x10203040.
(** kernel/fs.h:27 *)
Definition NDIRECT : Z := 12.
(** kernel/fs.h:28 *)
Definition NINDIRECT : Z := BSIZE / 4.
(** kernel/fs.h:29 *)
Definition MAXFILE : Z := NDIRECT + NINDIRECT.
(** [sizeof(struct dinode)], kernel/fs.h:32-39 *)
Definition DINODE_SIZE : Z := 64.
(** kernel/fs.h:42 *)
Definition IPB : Z := BSIZE / DINODE_SIZE.
(** kernel/fs.h:48 *)
Definition BPB : Z := BSIZE * 8.
(** kernel/fs.h:54 *)
Definition DIRSIZ : Z := 14.
(** [sizeof(struct dirent)], kernel/fs.h:58-61 *)
Definition DIRENT_SIZE : Z := 16.

(** kernel/stat.h:1 *)
Definition T_DIR : Z := 1.
(** kernel/stat.h:2 *)
Definition T_FILE : Z := 2.
(** kernel/stat.h:3 *)
Definition T_DEVICE : Z := 3.

(** kernel/fcntl.h:1 *)
Definition O_RDONLY : Z := 0x000.
(** kernel/fcntl.h:2 *)
Definition O_WRONLY : Z := 0x001.
(** kernel/fcntl.h:3 *)
Definition O_RDWR : Z := 0x002.
(** kernel/fcntl.h:4 *)
Definition O_CREATE : Z := 0x200.
(** kernel/fcntl.h:5 *)
Definition O_TRUNC : Z := 0x400.

(** The on-disk super block, kernel/fs.h:14-23 *)
Record superblock := Superblock {
  sb_magic : Z;
  sb_size : Z;
  sb_nblocks : Z;
  sb_ninodes : Z;
  sb_nlog : Z;
  sb_logstart : Z;
  sb_inodestart : Z;
  sb_bmapstart : Z }.

(** [IBLOCK(i, sb)], kernel/fs.h:45 *)
Definition IBLOCK (i : Z) (sb : superblock) : Z := u32 (i / IPB + sb_inodestart sb).
(** [BBLOCK(b, sb)], kernel/fs.h:51 *)
Definition BBLOCK (b : Z) (sb : superblock) : Z := u32 (b / BPB + sb_bmapstart sb).
