(* ===== verification/CString.v ===== *)
(** The byte and string routines of kernel/string.c.

    Memory is a function from addresses to bytes; a pointer that is only read
    through is the function from offsets to the bytes behind it.  [char] is
    unsigned on RISC-V, so a byte is a [Z] in [0, 256) in both directions. *)

From Stdlib Require Import ZifyBool.
From S2P Require Import Prelude Bytes.

Definition bmem : Type := Z -> Z.
Definition mset (m : bmem) (a v : Z) : bmem := fun x => if x =? a then v else m x.

(** The bytes from address [p] on. *)
Definition ptr (m : bmem) (p : Z) : Z -> Z := fun i => m (p + i).
(** An array whose end reads as NUL. *)
Definition arr (l : list Z) : Z -> Z := aget l.

(** kernel/string.c:3-12 *)
Fixpoint memset_from (m : bmem) (dst c i : Z) (n : nat) : bmem :=
  match n with
  | O => m
  | S n' => memset_from (mset m (dst + i) (u8 c)) dst c (i + 1) n'
  end.
Definition memset (m : bmem) (dst c n : Z) : bmem := memset_from m dst c 0 (Z.to_nat n).

(** kernel/string.c:14-28 *)
Fixpoint memcmp (s1 s2 : Z -> Z) (i : Z) (n : nat) : Z :=
  match n with
  | O => 0
  | S n' => if s1 i =? s2 i then memcmp s1 s2 (i + 1) n' else s1 i - s2 i
  end.

(** [while(n-- > 0) *--d = *--s], from the end. *)
Fixpoint copy_down (m : bmem) (d s : Z) (n : nat) : bmem :=
  match n with
  | O => m
  | S n' => copy_down (mset m (d + Z.of_nat n') (m (s + Z.of_nat n'))) d s n'
  end.

(** [while(n-- > 0) *d++ = *s++] *)
Fixpoint copy_up (m : bmem) (d s : Z) (n : nat) : bmem :=
  match n with
  | O => m
  | S n' => copy_up (mset m d (m s)) (d + 1) (s + 1) n'
  end.

(** kernel/string.c:30-51 *)
Definition memmove (m : bmem) (dst src n : Z) : bmem :=
  if n =? 0 then m
  else if (src <? dst) && (dst <? src + n) then copy_down m dst src (Z.to_nat n)
  else copy_up m dst src (Z.to_nat n).

(** kernel/string.c:53-58 *)
Definition memcpy (m : bmem) (dst src n : Z) : bmem := memmove m dst src n.

(** kernel/string.c:60-68 *)
Fixpoint strncmp_from (p q : Z -> Z) (i : Z) (n : nat) : Z :=
  match n with
  | O => 0
  | S n' =>
      if negb (p i =? 0) && (p i =? q i) then strncmp_from p q (i + 1) n'
      else p i - q i
  end.
Definition strncmp (p q : Z -> Z) (n : Z) : Z := strncmp_from p q 0 (Z.to_nat n).

(** [while(n-- > 0) *s++ = 0], kernel/string.c:78-79. *)
Fixpoint zero_up (m : bmem) (s : Z) (n : nat) : bmem :=
  match n with
  | O => m
  | S n' => zero_up (mset m s 0) (s + 1) n'
  end.

(** kernel/string.c:70-81 *)
Fixpoint strncpy (m : bmem) (s t : Z) (n : nat) : bmem :=
  match n with
  | O => m
  | S n' =>
      let c := m t in
      if c =? 0 then zero_up (mset m s c) (s + 1) n'
      else strncpy (mset m s c) (s + 1) (t + 1) n'
  end.

(** The loop of [safestrcpy], kernel/string.c:92-94, with [k] the value of [n - 1]. *)
Fixpoint safecpy (m : bmem) (s t : Z) (k : nat) : bmem :=
  match k with
  | O => mset m s 0
  | S k' =>
      let c := m t in
      if c =? 0 then mset (mset m s c) (s + 1) 0
      else safecpy (mset m s c) (s + 1) (t + 1) k'
  end.

(** kernel/string.c:84-96 *)
Definition safestrcpy (m : bmem) (s t n : Z) : bmem :=
  if n <=? 0 then m else safecpy m s t (Z.to_nat (n - 1)).

(** kernel/string.c:98-106 *)
Fixpoint strlen (s : Z -> Z) (i : Z) (fuel : nat) : option Z :=
  match fuel with
  | O => None
  | S f => if s i =? 0 then Some i else strlen s (i + 1) f
  end.

(** ** Copying *)

Definition copied (m : bmem) (dst src n : Z) : bmem :=
  fun a => if (dst <=? a) && (a <? dst + n) then m (src + (a - dst)) else m a.

Lemma mset_eq m a v : mset m a v a = v.
Proof. unfold mset. by rewrite Z.eqb_refl. Qed.
Lemma mset_ne m a v x : x <> a -> mset m a v x = m x.
Proof. unfold mset. intros. by rewrite (proj2 (Z.eqb_neq x a)). Qed.

Lemma copied_in m dst src n a : dst <= a < dst + n -> copied m dst src n a = m (src + (a - dst)).
Proof. intros. unfold copied. by replace ((dst <=? a) && (a <? dst + n)) with true by lia. Qed.
Lemma copied_out m dst src n a : ~ (dst <= a < dst + n) -> copied m dst src n a = m a.
Proof. intros. unfold copied. by replace ((dst <=? a) && (a <? dst + n)) with false by lia. Qed.

(** Going down is right when the destination does not start before the source. *)
Lemma copy_down_spec m d s n a :
  s <= d \/ d + Z.of_nat n <= s ->
  copy_down m d s n a = copied m d s (Z.of_nat n) a.
Proof.
  revert m. induction n as [|n IH]; intros m Hds; [unfold copied; simpl; case_match; [lia|done]|].
  cbn [copy_down]. rewrite IH by lia.
  destruct (decide (d <= a < d + Z.of_nat n)).
  - rewrite !copied_in by lia. apply mset_ne. lia.
  - rewrite copied_out by lia. destruct (decide (a = d + Z.of_nat n)) as [->|].
    + rewrite mset_eq, copied_in by lia. f_equal. lia.
    + by rewrite mset_ne, copied_out by lia.
Qed.

(** Going up is right when the source does not start before the destination. *)
Lemma copy_up_spec m d s n a :
  d <= s \/ s + Z.of_nat n <= d ->
  copy_up m d s n a = copied m d s (Z.of_nat n) a.
Proof.
  revert m d s. induction n as [|n IH]; intros m d s Hds; [unfold copied; simpl; case_match; [lia|done]|].
  cbn [copy_up]. rewrite IH by lia.
  destruct (decide (d < a < d + 1 + Z.of_nat n)).
  - rewrite !copied_in by lia. rewrite mset_ne by lia. f_equal. lia.
  - rewrite copied_out by lia. destruct (decide (a = d)) as [->|].
    + rewrite mset_eq, copied_in by lia. f_equal. lia.
    + by rewrite mset_ne, copied_out by lia.
Qed.

Lemma memmove_kernel m dst src n a : memmove m dst src n a = copied m dst src n a.
Proof.
  unfold memmove. destruct (Z.eqb_spec n 0) as [->|].
  { rewrite copied_out by lia. done. }
  destruct (Z.le_gt_cases n 0).
  { replace (Z.to_nat n) with 0%nat by lia. rewrite copied_out by lia. by case_match. }
  case_match; [rewrite copy_down_spec by lia|rewrite copy_up_spec by lia]; by rewrite Z2Nat.id by lia.
Qed.

(** ** Filling *)

Lemma memset_from_spec m dst c i n a :
  memset_from m dst c i n a =
    if (dst + i <=? a) && (a <? dst + i + Z.of_nat n) then u8 c else m a.
Proof.
  revert m i. induction n as [|n IH]; intros m i; cbn [memset_from].
  - by replace ((dst + i <=? a) && (a <? dst + i + Z.of_nat 0)) with false by lia.
  - rewrite IH. unfold mset. repeat case_match; try done; lia.
Qed.

Lemma zero_up_spec m s n a :
  zero_up m s n a = if (s <=? a) && (a <? s + Z.of_nat n) then 0 else m a.
Proof.
  revert m s. induction n as [|n IH]; intros m s; cbn [zero_up].
  - by replace ((s <=? a) && (a <? s + Z.of_nat 0)) with false by lia.
  - rewrite IH. unfold mset. repeat case_match; try done; lia.
Qed.

(** ** Comparing *)

(** [p] and [q] agree on their first [n] bytes, or up to and including a common NUL. *)
Definition agree (p q : Z -> Z) (n : Z) : Prop :=
  forall i, 0 <= i < n -> (forall j, 0 <= j < i -> p j <> 0) -> p i = q i.

Lemma strncmp_from_spec p q i n :
  strncmp_from p q i n = 0 <->
  forall j, i <= j < i + Z.of_nat n -> (forall k, i <= k < j -> p k <> 0) -> p j = q j.
Proof.
  revert i. induction n as [|n IH]; intros i; cbn [strncmp_from]; [split; [lia|done]|].
  destruct (Z.eqb_spec (p i) (q i)) as [E|E].
  - destruct (Z.eqb_spec (p i) 0) as [Z0|NZ]; simpl.
    + split; [|lia]. intros _ j Hj Hk. destruct (decide (j = i)) as [->|]; [done|].
      exfalso. apply (Hk i); [lia|done].
    + rewrite IH. split; intros Hall j Hj Hk.
      * destruct (decide (j = i)) as [->|]; [done|]. apply Hall; [lia|]. intros. apply Hk. lia.
      * apply Hall; [lia|]. intros k Hk'. destruct (decide (k = i)) as [->|]; [done|]. apply Hk. lia.
  - rewrite andb_false_r. split; [lia|]. intros Hall. exfalso. apply E, Hall; lia.
Qed.

Lemma strncmp_agree p q n : 0 <= n -> strncmp p q n = 0 <-> agree p q n.
Proof.
  intros Hn. unfold strncmp, agree. rewrite strncmp_from_spec. rewrite Z2Nat.id by done. done.
Qed.

(** ** Copying strings *)

(** The length of the string at [t], but at most [n]. *)
Fixpoint cstrlen (t : Z -> Z) (i : Z) (n : nat) : Z :=
  match n with
  | O => i
  | S n' => if t i =? 0 then i else cstrlen t (i + 1) n'
  end.

Lemma cstrlen_range t i n : i <= cstrlen t i n <= i + Z.of_nat n.
Proof. revert i. induction n as [|n IH]; intros i; simpl; [lia|]. case_match; [lia|]. specialize (IH (i + 1)). lia. Qed.

Lemma cstrlen_shift f g i j n :
  (forall k, 0 <= k < Z.of_nat n -> f (i + k) = g (j + k)) -> cstrlen f i n - i = cstrlen g j n - j.
Proof.
  revert i j. induction n as [|n IH]; intros i j E; simpl; [lia|].
  pose proof (E 0 ltac:(lia)) as E0. rewrite !Z.add_0_r in E0. rewrite E0. case_match; [lia|].
  specialize (IH (i + 1) (j + 1)).
  assert (cstrlen f (i + 1) n - (i + 1) = cstrlen g (j + 1) n - (j + 1)).
  { apply IH. intros k Hk. replace (i + 1 + k) with (i + (k + 1)) by lia.
    replace (j + 1 + k) with (j + (k + 1)) by lia. apply E. lia. }
  lia.
Qed.

(** What lies at [t] is not overwritten by storing below [t]'s bytes. *)
Lemma cstrlen_mset m s t v n :
  (s < t \/ t + Z.of_nat n <= s) -> cstrlen (ptr (mset m s v) t) 0 n = cstrlen (ptr m t) 0 n.
Proof.
  intros Hd. pose proof (cstrlen_shift (ptr (mset m s v) t) (ptr m t) 0 0 n) as E.
  assert (cstrlen (ptr (mset m s v) t) 0 n - 0 = cstrlen (ptr m t) 0 n - 0); [|lia].
  apply E. intros k Hk. unfold ptr. apply mset_ne. lia.
Qed.

Lemma cstrlen_step m t n :
  m t <> 0 -> cstrlen (ptr m t) 0 (S n) = 1 + cstrlen (ptr m (t + 1)) 0 n.
Proof.
  intros Hm. cbn [cstrlen]. unfold ptr at 1. rewrite Z.add_0_r, (proj2 (Z.eqb_neq _ _) Hm).
  change (0 + 1) with 1.
  pose proof (cstrlen_shift (ptr m t) (ptr m (t + 1)) 1 0 n) as E.
  assert (cstrlen (ptr m t) 1 n - 1 = cstrlen (ptr m (t + 1)) 0 n - 0); [|lia].
  apply E. intros k Hk. unfold ptr. f_equal. lia.
Qed.

Lemma cstrlen_stop m t n : m t = 0 -> cstrlen (ptr m t) 0 (S n) = 0.
Proof. intros Hm. cbn [cstrlen]. unfold ptr. by rewrite Z.add_0_r, Hm. Qed.

Lemma strncpy_spec m s t n a :
  (s + Z.of_nat n <= t \/ t + Z.of_nat n <= s) ->
  strncpy m s t n a =
    if (s <=? a) && (a <? s + Z.of_nat n)
    then if a - s <? cstrlen (ptr m t) 0 n then m (t + (a - s)) else 0
    else m a.
Proof.
  revert m s t. induction n as [|n IH]; intros m s t Hd.
  { cbn [strncpy]. by replace ((s <=? a) && (a <? s + Z.of_nat 0)) with false by lia. }
  cbn [strncpy]. destruct (Z.eqb_spec (m t) 0) as [E|E].
  - rewrite zero_up_spec, cstrlen_stop by done. rewrite E. unfold mset. repeat case_match; try done; lia.
  - rewrite IH by lia. rewrite (cstrlen_step m t n E), cstrlen_mset by lia.
    pose proof (cstrlen_range (ptr m (t + 1)) 0 n) as Hr.
    set (len := cstrlen (ptr m (t + 1)) 0 n) in *. unfold mset.
    repeat case_match; try done; try lia; f_equal; lia.
Qed.

Lemma safecpy_spec m s t k a :
  (s + Z.of_nat k < t \/ t + Z.of_nat k <= s) ->
  let len := cstrlen (ptr m t) 0 k in
  safecpy m s t k a =
    if (s <=? a) && (a <? s + len) then m (t + (a - s))
    else if (a =? s + len) || ((a =? s + len + 1) && (len <? Z.of_nat k)) then 0 else m a.
Proof.
  revert m s t. induction k as [|k IH]; intros m s t Hd.
  { cbn [safecpy cstrlen]. cbv zeta. unfold mset. repeat case_match; try done; lia. }
  cbn [safecpy]. destruct (Z.eqb_spec (m t) 0) as [E|E].
  - rewrite cstrlen_stop by done. cbv zeta. rewrite E. unfold mset. repeat case_match; try done; lia.
  - cbv zeta in *. rewrite IH by lia. rewrite (cstrlen_step m t k E), cstrlen_mset by lia.
    pose proof (cstrlen_range (ptr m (t + 1)) 0 k) as Hr.
    set (len := cstrlen (ptr m (t + 1)) 0 k) in *. unfold mset.
    repeat case_match; try done; try lia; f_equal; lia.
Qed.

(** [safestrcpy] into a buffer of [n > 0] bytes that does not overlap the source copies the longest
    prefix of the string that leaves room for a NUL, terminates it, and writes only inside the buffer. *)
Theorem safestrcpy_correct m s t n :
  0 < n -> (s + n <= t \/ t + n <= s) ->
  let len := cstrlen (ptr m t) 0 (Z.to_nat (n - 1)) in
  let m' := safestrcpy m s t n in
  0 <= len < n /\ (forall i, 0 <= i < len -> m' (s + i) = m (t + i)) /\ m' (s + len) = 0 /\
  (forall a, ~ (s <= a < s + n) -> m' a = m a).
Proof.
  intros Hn Hd len m'. pose proof (cstrlen_range (ptr m t) 0 (Z.to_nat (n - 1))) as Hr. fold len in Hr.
  assert (E : forall a, m' a = if (s <=? a) && (a <? s + len) then m (t + (a - s))
    else if (a =? s + len) || ((a =? s + len + 1) && (len <? n - 1)) then 0 else m a).
  { intros a. unfold m', safestrcpy. replace (n <=? 0) with false by lia.
    pose proof (safecpy_spec m s t (Z.to_nat (n - 1)) a) as Es. cbv zeta in Es. fold len in Es.
    rewrite Z2Nat.id in Es by lia. apply Es. lia. }
  split_and!; [lia|lia| | |].
  - intros i Hi. rewrite E. replace ((s <=? s + i) && (s + i <? s + len)) with true by lia. f_equal. lia.
  - rewrite E. repeat case_match; try done; lia.
  - intros a Ha. rewrite E. repeat case_match; try done; lia.
Qed.

Lemma safestrcpy_correct_witness :
  let m := fun a => if (100 <=? a) && (a <? 105) then 65 else 0 in
  let m' := safestrcpy m 0 100 4 in
  (forall i, 0 <= i < 3 -> m' i = 65) /\ m' 3 = 0.
Proof.
  intros m m'. destruct (safestrcpy_correct m 0 100 4) as (_ & H1 & H2 & _); [lia|lia|].
  split; [|exact H2]. intros i Hi. rewrite <-(Z.add_0_l i). unfold m'. rewrite H1 by exact Hi.
  unfold m. by replace ((100 <=? 100 + i) && (100 + i <? 105)) with true by lia.
Defined.
