(* ===== verification/Ulib.v ===== *)
(** The byte and string routines user programs use, user/ulib.c.

    Unlike the kernel's, the loops over strings have no bound of their own:
    they take fuel, and the theorems give an amount that suffices. *)

From Stdlib Require Import ZifyBool.
From S2P Require Import Prelude Bytes CString.

(** user/ulib.c:20-29 *)
Fixpoint strcpy (m : bmem) (s t : Z) (fuel : nat) : option bmem :=
  match fuel with
  | O => None
  | S f => let c := m t in
           if c =? 0 then Some (mset m s c) else strcpy (mset m s c) (s + 1) (t + 1) f
  end.

(** user/ulib.c:31-37 *)
Fixpoint strcmp (p q : Z -> Z) (i : Z) (fuel : nat) : option Z :=
  match fuel with
  | O => None
  | S f => if negb (p i =? 0) && (p i =? q i) then strcmp p q (i + 1) f else Some (p i - q i)
  end.

(** user/ulib.c:39-47 *)
Fixpoint strlen (s : Z -> Z) (i : Z) (fuel : nat) : option Z :=
  match fuel with
  | O => None
  | S f => if s i =? 0 then Some (u32 i) else strlen s (i + 1) f
  end.

(** user/ulib.c:49-58 *)
Fixpoint memset_from (m : bmem) (dst c i : Z) (n : nat) : bmem :=
  match n with
  | O => m
  | S n' => memset_from (mset m (dst + i) (u8 c)) dst c (i + 1) n'
  end.
Definition memset (m : bmem) (dst c n : Z) : bmem := memset_from m dst c 0 (Z.to_nat n).

(** user/ulib.c:60-67: the offset of the character, if it occurs. *)
Fixpoint strchr (s : Z -> Z) (c i : Z) (fuel : nat) : option (option Z) :=
  match fuel with
  | O => None
  | S f => if s i =? 0 then Some None
           else if s i =? c then Some (Some i) else strchr s c (i + 1) f
  end.

(** user/ulib.c:101-110 *)
Fixpoint atoi_from (s : Z -> Z) (i n : Z) (fuel : nat) : option Z :=
  match fuel with
  | O => None
  | S f => if (48 <=? s i) && (s i <=? 57) then atoi_from s (i + 1) (s32 (n * 10 + s i - 48)) f
           else Some n
  end.
Definition atoi (s : Z -> Z) (fuel : nat) : option Z := atoi_from s 0 0 fuel.

(** user/ulib.c:112-130 *)
Definition memmove (m : bmem) (dst src n : Z) : bmem :=
  if dst <? src then copy_up m dst src (Z.to_nat n)
  else copy_down m dst src (Z.to_nat n).

(** user/ulib.c:132-144 *)
Fixpoint memcmp (p1 p2 : Z -> Z) (i : Z) (n : nat) : Z :=
  match n with
  | O => 0
  | S n' => if negb (p1 i =? p2 i) then p1 i - p2 i else memcmp p1 p2 (i + 1) n'
  end.

(** user/ulib.c:146-150 *)
Definition memcpy (m : bmem) (dst src n : Z) : bmem := memmove m dst src n.

(** user/ulib.c:69-85: [input] is what successive one-byte [read]s return. *)
Fixpoint gets_from (buf : list Z) (max i : Z) (input : list Z) : list Z * list Z :=
  match input with
  | c :: input' =>
      if i + 1 <? max then
        let buf' := aset buf i c in
        if (c =? 10) || (c =? 13) then (aset buf' (i + 1) 0, input')
        else gets_from buf' max (i + 1) input'
      else (aset buf i 0, input)
  | [] => (aset buf i 0, [])
  end.
Definition gets (buf : list Z) (max : Z) (input : list Z) : list Z * list Z :=
  gets_from buf max 0 input.

(** ** The user library's [memmove] chooses its direction differently and computes the same *)

Lemma memmove_user m dst src n a : memmove m dst src n a = copied m dst src n a.
Proof.
  unfold memmove. destruct (Z.le_gt_cases n 0).
  { replace (Z.to_nat n) with 0%nat by lia. rewrite copied_out by lia. by case_match. }
  case_match; [rewrite copy_up_spec by lia|rewrite copy_down_spec by lia]; by rewrite Z2Nat.id by lia.
Qed.

(** Both [memmove]s copy [n] bytes as if through a temporary buffer, whatever the overlap of source
    and destination, and change nothing else: the kernel's, which copies downwards exactly when the
    destination starts inside the source, and the user library's, which copies upwards exactly when the
    source lies above the destination. *)
Theorem memmove_equiv m dst src n a :
  CString.memmove m dst src n a = copied m dst src n a /\ memmove m dst src n a = copied m dst src n a.
Proof. split; [apply memmove_kernel|apply memmove_user]. Qed.
