(* ===== verification/Printf.v ===== *)
(** Formatted output: kernel/printf.c and user/printf.c.

    The state is what has been printed and the arguments [va_arg] has yet to give.  A character is the value passed to
    [consputc] in the kernel; the [putc] of user programs takes a [char]. *)

From S2P Require Import CString Prelude Bytes.

(** A conversion to [long long]. *)
Definition s64 (x : Z) : Z := (x + 2 ^ 63) mod 2 ^ 64 - 2 ^ 63.

(** An argument: an integer or pointer value, or a string, which may be null. *)
Inductive arg := AVal (v : Z) | AStr (s : option (list Z)).

Record prt := Prt { pr_out : list Z; pr_args : list arg }.
#[export] Instance eta_prt : Eta prt := fun p => Prt (pr_out p) (pr_args p).

Definition emit (l : list Z) : M prt unit := modify (fun p => p <| pr_out := pr_out p ++ l |>).

(** [va_arg]; what it gives for a missing argument, or for one of another type, is undefined. *)
Definition va_val : M prt Z :=
  let* p := get in
  match pr_args p with
  | AVal v :: rest => modify (fun p => p <| pr_args := rest |>) ;;; ret v
  | _ => undef "va_arg"
  end.
Definition va_str : M prt (option (list Z)) :=
  let* p := get in
  match pr_args p with
  | AStr s :: rest => modify (fun p => p <| pr_args := rest |>) ;;; ret s
  | _ => undef "va_arg"
  end.

Definition NULLSTR : list Z := [40; 110; 117; 108; 108; 41].

Definition lowercase : list Z := [48; 49; 50; 51; 52; 53; 54; 55; 56; 57; 97; 98; 99; 100; 101; 102].
Definition uppercase : list Z := [48; 49; 50; 51; 52; 53; 54; 55; 56; 57; 65; 66; 67; 68; 69; 70].

(** [buf[i++] = c] for a local [char buf[20]] with [i] characters. *)
Definition store (buf : list Z) (c : Z) : M prt (list Z) :=
  if 20 <=? Z.of_nat (length buf) then undef "buf" else ret (buf ++ [c]).

Section Printf.
(** The array [digits], kernel/printf.c:26 and user/printf.c:7. *)
Variable digits : list Z.

(** The loop over the digits, kernel/printf.c:40-43. *)
Fixpoint digit_loop (fuel : nat) (base x : Z) (buf : list Z) : M prt (list Z) :=
  match fuel with
  | O => nofuel
  | S fuel' =>
      let* buf := store buf (aget digits (x mod base)) in
      if x / base =? 0 then ret buf else digit_loop fuel' base (x / base) buf
  end.

(** kernel/printf.c:28-50 *)
Definition printint (xx base : Z) (sign : bool) : M prt unit :=
  let sign := sign && (xx <? 0) in
  let x := if sign then u64 (- xx) else u64 xx in
  let* buf := digit_loop 65 base x [] in
  let* buf := (if sign then store buf 45 else ret buf) in
  emit (rev buf).

(** The loop of [printptr], kernel/printf.c:58-59. *)
Fixpoint ptr_loop (n : nat) (x : Z) : list Z :=
  match n with
  | O => []
  | S n' => aget digits (Z.shiftr x 60) :: ptr_loop n' (u64 (Z.shiftl x 4))
  end.

(** kernel/printf.c:52-60 *)
Definition printptr (x : Z) : M prt unit := emit [48] ;;; emit [120] ;;; emit (ptr_loop 16 x).

(** The conversions of [printf], kernel/printf.c:84-125: how many more characters of the format belong to it. *)
Definition conversion (c0 c1 c2 : Z) : M prt Z :=
  if c0 =? 100 then (let* v := va_val in printint (s32 v) 10 true) ;;; ret 0
  else if (c0 =? 108) && (c1 =? 100) then (let* v := va_val in printint (s64 v) 10 true) ;;; ret 1
  else if (c0 =? 108) && (c1 =? 108) && (c2 =? 100) then (let* v := va_val in printint (s64 v) 10 true) ;;; ret 2
  else if c0 =? 117 then (let* v := va_val in printint (u32 v) 10 false) ;;; ret 0
  else if (c0 =? 108) && (c1 =? 117) then (let* v := va_val in printint (s64 v) 10 false) ;;; ret 1
  else if (c0 =? 108) && (c1 =? 108) && (c2 =? 117) then (let* v := va_val in printint (s64 v) 10 false) ;;; ret 2
  else if c0 =? 120 then (let* v := va_val in printint (u32 v) 16 false) ;;; ret 0
  else if (c0 =? 108) && (c1 =? 120) then (let* v := va_val in printint (s64 v) 16 false) ;;; ret 1
  else if (c0 =? 108) && (c1 =? 108) && (c2 =? 120) then (let* v := va_val in printint (s64 v) 16 false) ;;; ret 2
  else if c0 =? 112 then (let* v := va_val in printptr (u64 v)) ;;; ret 0
  else if c0 =? 99 then (let* v := va_val in emit [u32 v]) ;;; ret 0
  else if c0 =? 115 then (let* s := va_str in emit (match s with Some s => s | None => NULLSTR end)) ;;; ret 0
  else if c0 =? 37 then emit [37] ;;; ret 0
  else emit [37] ;;; emit [c0] ;;; ret 0.

(** The loop of [printf], kernel/printf.c:74-127. *)
Fixpoint printf_loop (fuel : nat) (fmt : list Z) (i : Z) : M prt unit :=
  match fuel with
  | O => nofuel
  | S fuel' =>
      let cx := aget fmt i in
      if cx =? 0 then ret tt
      else if negb (cx =? 37) then emit [cx] ;;; printf_loop fuel' fmt (i + 1)
      else
        let i := i + 1 in
        let c0 := aget fmt i in
        let c1 := if negb (c0 =? 0) then aget fmt (i + 1) else 0 in
        let c2 := if negb (c1 =? 0) then aget fmt (i + 2) else 0 in
        if c0 =? 0 then ret tt
        else
          let* k := conversion c0 c1 c2 in
          printf_loop fuel' fmt (i + k + 1)
  end.

(** kernel/printf.c:63-134 *)
Definition printf (fmt : list Z) : M prt unit := printf_loop (S (length fmt)) fmt 0.

(** ** user/printf.c *)

(** [putc], user/printf.c:9-13, for each character. *)
Definition uemit (l : list Z) : M prt unit := emit (map u8 l).

(** user/printf.c:15-39 *)
Definition uprintint (xx base : Z) (sgn : bool) : M prt unit :=
  let neg := sgn && (xx <? 0) in
  let x := if neg then u64 (- xx) else u64 xx in
  let* buf := digit_loop 65 base x [] in
  let* buf := (if neg then store buf 45 else ret buf) in
  uemit (rev buf).

(** user/printf.c:41-48 *)
Definition uprintptr (x : Z) : M prt unit := uemit [48] ;;; uemit [120] ;;; uemit (ptr_loop 16 x).

(** The conversions of [vprintf], user/printf.c:70-109. *)
Definition uconversion (c0 c1 c2 : Z) : M prt Z :=
  if c0 =? 100 then (let* v := va_val in uprintint (s32 v) 10 true) ;;; ret 0
  else if (c0 =? 108) && (c1 =? 100) then (let* v := va_val in uprintint (s64 v) 10 true) ;;; ret 1
  else if (c0 =? 108) && (c1 =? 108) && (c2 =? 100) then (let* v := va_val in uprintint (s64 v) 10 true) ;;; ret 2
  else if c0 =? 117 then (let* v := va_val in uprintint (u32 v) 10 false) ;;; ret 0
  else if (c0 =? 108) && (c1 =? 117) then (let* v := va_val in uprintint (s64 v) 10 false) ;;; ret 1
  else if (c0 =? 108) && (c1 =? 108) && (c2 =? 117) then (let* v := va_val in uprintint (s64 v) 10 false) ;;; ret 2
  else if c0 =? 120 then (let* v := va_val in uprintint (u32 v) 16 false) ;;; ret 0
  else if (c0 =? 108) && (c1 =? 120) then (let* v := va_val in uprintint (s64 v) 16 false) ;;; ret 1
  else if (c0 =? 108) && (c1 =? 108) && (c2 =? 120) then (let* v := va_val in uprintint (s64 v) 16 false) ;;; ret 2
  else if c0 =? 112 then (let* v := va_val in uprintptr (u64 v)) ;;; ret 0
  else if c0 =? 99 then (let* v := va_val in uemit [u32 v]) ;;; ret 0
  else if c0 =? 115 then (let* s := va_str in uemit (match s with Some s => s | None => NULLSTR end)) ;;; ret 0
  else if c0 =? 37 then uemit [37] ;;; ret 0
  else uemit [37] ;;; uemit [c0] ;;; ret 0.

(** The loop of [vprintf], user/printf.c:58-113, with [pct] for [state == '%']. *)
Fixpoint vprintf_loop (fuel : nat) (fmt : list Z) (i : Z) (pct : bool) : M prt unit :=
  match fuel with
  | O => nofuel
  | S fuel' =>
      let c0 := aget fmt i in
      if c0 =? 0 then ret tt
      else if negb pct then
        if c0 =? 37 then vprintf_loop fuel' fmt (i + 1) true
        else uemit [c0] ;;; vprintf_loop fuel' fmt (i + 1) false
      else
        let c1 := if negb (c0 =? 0) then aget fmt (i + 1) else 0 in
        let c2 := if negb (c1 =? 0) then aget fmt (i + 2) else 0 in
        let* k := uconversion c0 c1 c2 in
        vprintf_loop fuel' fmt (i + k + 1) false
  end.

(** user/printf.c:51-114 *)
Definition vprintf (fmt : list Z) : M prt unit := vprintf_loop (S (length fmt)) fmt 0 false.

(** ** The two agree *)

(** What a user program prints where the kernel prints [pr_out p]. *)
Definition bytes_out (p : prt) : prt := p <| pr_out := map u8 (pr_out p) |>.

Definition odown {A} (o : outcome prt A) : outcome prt A :=
  match o with
  | Ok a p => Ok a (bytes_out p)
  | Sleep c p => Sleep c (bytes_out p)
  | Panic e => Panic e
  | Undef e => Undef e
  | NoFuel => NoFuel
  end.

Definition sim {A} (m1 m2 : M prt A) : Prop := forall p, m2 (bytes_out p) = odown (m1 p).

Lemma sim_ret {A} (a : A) : sim (ret a) (ret a).
Proof. done. Qed.
Lemma sim_undef {A} w : @sim A (undef w) (undef w).
Proof. done. Qed.
Lemma sim_bind {A B} (m1 m2 : M prt A) (f1 f2 : A -> M prt B) : sim m1 m2 -> (forall a, sim (f1 a) (f2 a)) -> sim (bind m1 f1) (bind m2 f2).
Proof. intros H Hf p. unfold bind. rewrite H. destruct (m1 p); simpl; [apply Hf|done..]. Qed.
Lemma sim_emit l : sim (emit l) (uemit l).
Proof. intros p. unfold uemit, emit, modify, odown, bytes_out. cbn. by rewrite map_app. Qed.
Lemma sim_val : sim va_val va_val.
Proof. intros p. unfold va_val, bind, get. simpl. by destruct (pr_args p) as [|[] ?]. Qed.
Lemma sim_str : sim va_str va_str.
Proof. intros p. unfold va_str, bind, get. simpl. by destruct (pr_args p) as [|[] ?]. Qed.
Lemma sim_store buf c : sim (store buf c) (store buf c).
Proof. unfold store. by destruct (20 <=? _). Qed.

Lemma sim_digits fuel base x buf : sim (digit_loop fuel base x buf) (digit_loop fuel base x buf).
Proof.
  revert x buf. induction fuel as [|fuel IH]; intros x buf; [done|]. cbn [digit_loop]. apply sim_bind; [apply sim_store|]. intros b. destruct (x / base =? 0); [done|apply IH].
Qed.

Lemma sim_printint xx base sign : sim (printint xx base sign) (uprintint xx base sign).
Proof.
  unfold printint, uprintint. cbn zeta. apply sim_bind; [apply sim_digits|]. intros buf. apply sim_bind; [|intros; apply sim_emit].
  destruct (sign && (xx <? 0)); [apply sim_store|done].
Qed.

Lemma sim_printptr x : sim (printptr x) (uprintptr x).
Proof. unfold printptr, uprintptr. repeat (apply sim_bind; [apply sim_emit|intros ?]). apply sim_emit. Qed.

Lemma sim_conversion c0 c1 c2 : sim (conversion c0 c1 c2) (uconversion c0 c1 c2).
Proof.
  unfold conversion, uconversion.
  repeat (match goal with |- sim (if ?b then _ else _) _ => destruct b end;
    [repeat (apply sim_bind; [first [apply sim_emit | apply sim_bind; [first [apply sim_val | apply sim_str]|intros ?; first [apply sim_printint | apply sim_printptr | apply sim_emit]]]|intros ?]); apply sim_ret|]).
  repeat (apply sim_bind; [apply sim_emit|intros ?]). apply sim_ret.
Qed.

Lemma sim_bind_post {A B} (R : A -> Prop) (m1 m2 : M prt A) (f1 f2 : A -> M prt B) :
  sim m1 m2 -> (forall p, match m1 p with Ok a _ => R a | _ => True end) -> (forall a, R a -> sim (f1 a) (f2 a)) -> sim (bind m1 f1) (bind m2 f2).
Proof. intros H HR Hf p. unfold bind. rewrite H. specialize (HR p). destruct (m1 p); simpl; [by apply Hf|done..]. Qed.

Lemma conversion_skip c0 c1 c2 p : match conversion c0 c1 c2 p with Ok k _ => 0 <= k | _ => True end.
Proof.
  assert (H : forall (m : M prt unit) k, 0 <= k -> match (m ;;; ret k) p with Ok k _ => 0 <= k | _ => True end).
  { intros m k Hk. unfold bind. by destruct (m p). }
  unfold conversion.
  repeat (match goal with |- match (if ?b then _ else _) p with _ => _ end => destruct b end; [by apply H|]).
  by apply (H (emit [37] ;;; emit [c0])).
Qed.

Lemma aget_nonzero l i : 0 <= i -> aget l i <> 0 -> i < Z.of_nat (length l).
Proof. intros Hi H. destruct (decide (i < Z.of_nat (length l))); [done|]. destruct H. unfold aget. apply nth_overflow. lia. Qed.

Lemma sim_loops f1 f2 fmt i :
  0 <= i -> Z.max 0 (Z.of_nat (length fmt) - i) < Z.of_nat f1 -> Z.max 0 (Z.of_nat (length fmt) - i) < Z.of_nat f2 ->
  sim (printf_loop f1 fmt i) (vprintf_loop f2 fmt i false).
Proof.
  revert f2 i. induction f1 as [|f1 IH]; intros f2 i Hi H1 H2; [lia|]. destruct f2 as [|f2]; [lia|]. cbn [printf_loop vprintf_loop negb].
  destruct (Z.eqb_spec (aget fmt i) 0) as [|Hc]; [done|]. pose proof (aget_nonzero fmt i Hi Hc).
  destruct (Z.eqb_spec (aget fmt i) 37); cbn [negb].
  - destruct f2 as [|f2]; [lia|]. cbn [vprintf_loop negb]. destruct (Z.eqb_spec (aget fmt (i + 1)) 0) as [|Hc1]; [done|].
    pose proof (aget_nonzero fmt (i + 1) ltac:(lia) Hc1). apply (sim_bind_post (fun k => 0 <= k)); [apply sim_conversion|apply conversion_skip|]. intros k Hk. apply IH; lia.
  - apply sim_bind; [apply sim_emit|]. intros _. apply IH; lia.
Qed.


(** ** Integers *)

(** The value of a numeral. *)
Definition dval (c : Z) : Z := if c <=? 57 then c - 48 else if c <=? 70 then c - 55 else c - 87.
Definition numval (base : Z) (l : list Z) : Z := foldl (fun n c => n * base + dval c) 0 l.

Lemma numval_snoc base l c : numval base (l ++ [c]) = numval base l * base + dval c.
Proof. unfold numval. by rewrite foldl_app. Qed.

(** The canonical numeral of [x]: its digits, the first not a zero unless it is the only one. *)
Definition numeral (base x : Z) (l : list Z) : Prop :=
  l <> [] /\ numval base l = x /\ Forall (fun c => 0 <= dval c < base) l /\ (dval (nth 0 l 0) = 0 -> x = 0 /\ length l = 1%nat).
End Printf.

Section Int.
Variable digits : list Z.
Hypothesis Hdigits : digits = lowercase \/ digits = uppercase.

Lemma dval_digit k : 0 <= k < 16 -> dval (aget digits k) = k.
Proof.
  intros Hk. assert (Hall : forallb (fun i => dval (aget digits (Z.of_nat i)) =? Z.of_nat i) (seq 0 16) = true) by (by destruct Hdigits as [-> | ->]).
  rewrite forallb_forall in Hall. specialize (Hall (Z.to_nat k)). rewrite Z2Nat.id in Hall by lia. apply Z.eqb_eq, Hall, in_seq. lia.
Qed.

(** [k] more digits suffice for an [x] below [base ^ k]. *)
Lemma digit_loop_spec fuel k base x buf s :
  2 <= base <= 16 -> 0 <= x < base ^ Z.of_nat (S k) -> (k < fuel)%nat -> (length buf + S k <= 20)%nat ->
  wp (digit_loop digits fuel base x buf) (fun r s' => s' = s /\ exists l, r = buf ++ l /\ numeral base x (rev l) /\ (length l <= S k)%nat) s.
Proof.
  intros Hb. revert k x buf. induction fuel as [|fuel IH]; intros k x buf Hx Hk Hl; [lia|]. cbn [digit_loop]. unfold store.
  destruct (Z.leb_spec 20 (Z.of_nat (length buf))); [lia|]. wp_steps. pose proof (Z.mod_pos_bound x base ltac:(lia)) as Hm.
  pose proof (dval_digit (x mod base) ltac:(lia)) as Hd. pose proof (Z.div_mod x base ltac:(lia)) as Hdm.
  destruct (Z.eqb_spec (x / base) 0) as [E|E].
  - apply wp_ret. split; [done|]. exists [aget digits (x mod base)]. split_and!; [done| |simpl; lia]. unfold numeral, numval. simpl. rewrite Hd, E in *. split_and!.
    + done.
    + lia.
    + by apply Forall_singleton; rewrite Hd.
    + intros; split; [lia|done].
  - destruct k as [|k].
    { change (Z.of_nat 1) with 1 in Hx. rewrite Z.pow_1_r in Hx. destruct E. by apply Z.div_small. }
    assert (Hx' : 0 <= x / base < base ^ Z.of_nat (S k)).
    { split; [apply Z.div_pos; lia|]. apply Z.div_lt_upper_bound; [lia|]. rewrite Nat2Z.inj_succ, Z.pow_succ_r in Hx by lia. lia. }
    eapply wp_conseq; [apply (IH k (x / base)); [done|lia|rewrite length_app; simpl; lia]|].
    intros r s' (-> & l & -> & (Hn & Hv & Hf & Hz) & Hlen). split; [done|]. exists (aget digits (x mod base) :: l). rewrite <-app_assoc. split_and!; [done| |simpl; lia].
    unfold numeral. cbn [rev]. rewrite numval_snoc, Hv, Hd. split_and!.
    + intros Hnil. by apply app_nil in Hnil as [_ ?].
    + lia.
    + apply Forall_app. split; [done|]. apply Forall_singleton. by rewrite Hd.
    + rewrite app_nth1 by (destruct (rev l); [done|simpl; lia]). intros Hz0. destruct (Hz Hz0) as [? _]. lia.
Qed.

(** Enough digits for what [printint] is called with. *)
Lemma digits_enough base x k : (base = 10 \/ base = 16) -> 0 <= x < 2 ^ 64 -> (19 <= k)%nat -> x < base ^ Z.of_nat (S k).
Proof.
  intros Hb Hx Hk. apply Z.lt_le_trans with (10 ^ 20); [change (10 ^ 20) with 100000000000000000000; lia|].
  transitivity (10 ^ Z.of_nat (S k)); [apply Z.pow_le_mono_r; lia|apply Z.pow_le_mono_l; lia].
Qed.

(** C36. Bounds and result of [printint]: for every [long long], in base 10 or 16, the digits and the sign fit in [char buf[20]], no index is
    out of range, and what is printed is the canonical numeral of the value, with a minus sign in front of a negative one when [sign]
    is set and of the value taken as unsigned otherwise. *)
Theorem printint_correct xx base sign s :
  - 2 ^ 63 <= xx < 2 ^ 63 -> base = 10 \/ base = 16 ->
  wp (printint digits xx base sign) (fun _ s' => exists l, s' = s <| pr_out := pr_out s ++ l |> /\ (length l <= 20)%nat /\
    if sign && (xx <? 0) then exists d, l = 45 :: d /\ numeral base (- xx) d else numeral base (u64 xx) l) s.
Proof.
  intros Hx Hb. unfold printint. cbn zeta. destruct (sign && (xx <? 0)) eqn:Es.
  - apply andb_prop in Es as [_ Hneg%Z.ltb_lt]. rewrite u64_id by lia. apply wp_bind.
    eapply wp_conseq; [apply (digit_loop_spec 65 18); [lia| |lia|simpl; lia]|].
    { split; [lia|]. apply Z.lt_le_trans with (10 ^ 19); [change (10 ^ 19) with 10000000000000000000; lia|]. apply Z.pow_le_mono_l. lia. }
    intros r s' (-> & l & -> & Hn & Hl). unfold store. simpl app. destruct (Z.leb_spec 20 (Z.of_nat (length l))); [lia|]. wp_steps.
    exists (45 :: rev l). rewrite rev_app_distr. split_and!; [done|simpl; rewrite length_rev; lia|]. by exists (rev l).
  - apply wp_bind. eapply wp_conseq; [apply (digit_loop_spec 65 19); [lia| |lia|simpl; lia]|].
    { split; [apply u64_range|]. apply digits_enough; [done|apply u64_range|lia]. }
    intros r s' (-> & l & -> & Hn & Hl). simpl app. wp_steps. exists (rev l). split_and!; [done|rewrite length_rev; lia|done].
Qed.
End Int.

Lemma printint_correct_witness :
  wp (printint lowercase (- 2 ^ 63) 10 true) (fun _ s' => (length (pr_out s') <= 20)%nat /\ exists d, pr_out s' = 45 :: d /\ numval 10 d = 9223372036854775808) (Prt [] []).
Proof.
  eapply wp_conseq; [apply (printint_correct lowercase (or_introl eq_refl) (- 2 ^ 63) 10 true (Prt [] [])); [lia|left; reflexivity]|].
  intros [] s' (l & -> & Hl & d & -> & _ & Hd & _). split; [exact Hl|]. exists d. split; [reflexivity|exact Hd].
Defined.
