(* ===== verification/Grep.v ===== *)
(** user/grep.c: the regular-expression matcher and the loop over the lines of the input.

    A string is the list of its characters before the NUL. *)

From S2P Require Import CString Prelude Bytes.

(** user/grep.c:99-107; [mh text] is [matchhere(re, text)]. *)
Fixpoint matchstar (mh : list Z -> bool) (c : Z) (text : list Z) : bool :=
  if mh text then true
  else match text with
  | t :: text' => if (t =? c) || (c =? 46) then matchstar mh c text' else false
  | [] => false
  end.

(** user/grep.c:85-96 *)
Fixpoint matchhere (re : list Z) (text : list Z) : bool :=
  match re with
  | [] => true
  | c :: re1 =>
      match re1 with
      | 42 :: re2 => matchstar (matchhere re2) c text
      | _ =>
          if (c =? 36) && bool_decide (re1 = []) then bool_decide (text = [])
          else match text with
          | t :: text' => if (c =? 46) || (c =? t) then matchhere re1 text' else false
          | [] => false
          end
      end
  end.

(** The loop of [match], user/grep.c:77-80. *)
Fixpoint match_loop (re text : list Z) : bool :=
  if matchhere re text then true
  else match text with
  | _ :: text' => match_loop re text'
  | [] => false
  end.

(** user/grep.c:72-82 *)
Definition match_ (re text : list Z) : bool :=
  match re with
  | 94 :: re1 => matchhere re1 text
  | _ => match_loop re text
  end.

(** ** What a pattern means *)

(** A pattern is a sequence of characters, each plain or starred, perhaps tied to the end of the text. *)
Fixpoint items (re : list Z) : list (Z * bool) * bool :=
  match re with
  | [] => ([], false)
  | c :: re1 =>
      match re1 with
      | 42 :: re2 => let '(l, e) := items re2 in ((c, true) :: l, e)
      | _ => if (c =? 36) && bool_decide (re1 = []) then ([], true) else let '(l, e) := items re1 in ((c, false) :: l, e)
      end
  end.

Definition fits (c t : Z) : Prop := c = 46 \/ c = t.

(** [lang l w]: the text [w] is described by [l]. *)
Inductive lang : list (Z * bool) -> list Z -> Prop :=
  | lang_nil : lang [] []
  | lang_one c t l w : fits c t -> lang l w -> lang ((c, false) :: l) (t :: w)
  | lang_star c l w1 w2 : Forall (fits c) w1 -> lang l w2 -> lang ((c, true) :: l) (w1 ++ w2).

(** A prefix of the text is described by the pattern, and all of it if the pattern is tied to the end. *)
Definition here (p : list (Z * bool) * bool) (text : list Z) : Prop :=
  exists w rest, text = w ++ rest /\ lang (fst p) w /\ (snd p = true -> rest = []).

Lemma matchstar_here mh c p text :
  (forall t, mh t = true <-> here p t) -> matchstar mh c text = true <-> here ((c, true) :: fst p, snd p) text.
Proof.
  intros Hm. induction text as [|t text IH]; cbn [matchstar].
  - destruct (mh []) eqn:E.
    + apply Hm in E as (w & rest & Ht & Hl & He). split; [intros _|done]. exists w, rest. split_and!; [done| |done]. by apply (lang_star c (fst p) [] w).
    + split; [done|]. intros (w & rest & Ht & Hl & He). inversion Hl; subst. symmetry in Ht. apply app_nil in Ht as [[-> ->]%app_nil ->]. rewrite <-E. apply Hm. by exists [], [].
  - destruct (mh (t :: text)) eqn:E.
    + apply Hm in E as (w & rest & Ht & Hl & He). split; [intros _|done]. exists w, rest. split_and!; [done| |done]. by apply (lang_star c (fst p) [] w).
    + destruct ((t =? c) || (c =? 46)) eqn:Ec.
      * rewrite IH. split.
        -- intros (w & rest & -> & Hl & He). exists (t :: w), rest. split_and!; [done| |done]. inversion Hl; subst.
           apply (lang_star c (fst p) (t :: w1) w2); [|done]. constructor; [unfold fits; lia|done].
        -- intros (w & rest & Ht & Hl & He). inversion Hl as [| |? ? w1 w2 Hw1 Hw2]; subst. destruct w1 as [|t' w1].
           ++ exfalso. assert (mh (t :: text) = true) by (apply Hm; by exists w2, rest). congruence.
           ++ injection Ht as -> ->. exists (w1 ++ w2), rest. split_and!; [done| |done]. constructor; [by inversion Hw1|done].
      * split; [done|]. intros (w & rest & Ht & Hl & He). inversion Hl as [| |? ? w1 w2 Hw1 Hw2]; subst. destruct w1 as [|t' w1].
        -- rewrite <-E. apply Hm. by exists w2, rest.
        -- injection Ht as -> ->. inversion Hw1; subst. unfold fits in *. lia.
Qed.

(** A first character that is neither starred nor the end mark. *)
Lemma one_here c p text : here ((c, false) :: fst p, snd p) text <-> exists t text', text = t :: text' /\ fits c t /\ here p text'.
Proof.
  split.
  - intros (w & rest & -> & Hl & He). inversion Hl; subst. eexists _, _. split; [done|]. split; [done|]. by exists w0, rest.
  - intros (t & text' & -> & Hf & w & rest & -> & Hl & He). exists (t :: w), rest. split_and!; [done| |done]. by constructor.
Qed.

Lemma matchhere_plain c re1 text :
  (forall re2, re1 <> 42 :: re2) -> (forall t, matchhere re1 t = true <-> here (items re1) t) ->
  matchhere (c :: re1) text = true <-> here (items (c :: re1)) text.
Proof.
  intros Hne IH.
  assert (E1 : matchhere (c :: re1) text = if (c =? 36) && bool_decide (re1 = []) then bool_decide (text = [])
    else match text with t :: text' => if (c =? 46) || (c =? t) then matchhere re1 text' else false | [] => false end).
  { cbn [matchhere]. destruct re1 as [|x re2]; [done|]. destruct (decide (x = 42)) as [->|]; [by destruct (Hne re2)|]. destruct x; try done. repeat (match goal with p : positive |- _ => destruct p; try done end). }
  assert (E2 : items (c :: re1) = if (c =? 36) && bool_decide (re1 = []) then ([], true) else let '(l, e) := items re1 in ((c, false) :: l, e)).
  { cbn [items]. destruct re1 as [|x re2]; [done|]. destruct (decide (x = 42)) as [->|]; [by destruct (Hne re2)|]. destruct x; try done. repeat (match goal with p : positive |- _ => destruct p; try done end). }
  rewrite E1, E2. destruct ((c =? 36) && _).
  - rewrite bool_decide_eq_true. split.
    + intros ->. exists [], []. split_and!; [done|constructor|done].
    + intros (w & rest & -> & Hl & He). inversion Hl; subst. by rewrite (He eq_refl).
  - destruct (items re1) as [l e] eqn:Ei. rewrite (one_here c (l, e)). destruct text as [|t text']; [split; [done|intros (? & ? & ? & _); done]|].
    destruct ((c =? 46) || (c =? t)) eqn:Ec.
    + rewrite IH. split; [intros H; exists t, text'; split_and!; [done|unfold fits; lia|done]|]. by intros (? & ? & [= <- <-] & _ & H).
    + split; [done|]. intros (? & ? & [= <- <-] & Hf & _). unfold fits in Hf. lia.
Qed.

Lemma matchhere_here_n n re : (length re <= n)%nat -> forall text, matchhere re text = true <-> here (items re) text.
Proof.
  revert re. induction n as [|n IH]; intros [|c re1] Hn text; simpl in Hn; try lia.
  1,2: cbn; split; [intros _; exists [], text; split_and!; [done|constructor|done]|done].
  assert (Hc : (exists re2, re1 = 42 :: re2) \/ forall re2, re1 <> 42 :: re2).
  { destruct re1 as [|x re2]; [by right|]. destruct (decide (x = 42)) as [->|]; [left; by exists re2|right; congruence]. }
  destruct Hc as [[re2 ->]|Hne].
  - cbn [matchhere items]. destruct (items re2) as [l e] eqn:Ei. apply (matchstar_here _ c (l, e)). intros t. rewrite <-Ei. apply IH. simpl in Hn. lia.
  - apply matchhere_plain; [done|]. apply IH. lia.
Qed.

Definition caret (re : list Z) : bool := match re with c :: _ => c =? 94 | [] => false end.
Definition body (re : list Z) : list (Z * bool) * bool := items (if caret re then tail re else re).

(** A part of the text is described by the pattern. *)
Definition occurs (re text : list Z) : Prop :=
  exists pre p post, text = pre ++ p ++ post /\ lang (fst (body re)) p /\ (caret re = true -> pre = []) /\ (snd (body re) = true -> post = []).

Lemma match_loop_occurs re text :
  match_loop re text = true <-> exists pre p post, text = pre ++ p ++ post /\ lang (fst (items re)) p /\ (snd (items re) = true -> post = []).
Proof.
  induction text as [|t text IH]; cbn [match_loop]; destruct (matchhere re _) eqn:E.
  1,3: apply (matchhere_here_n (length re)) in E as (w & rest & Ht & Hw & He); [|done]; split; [intros _; by exists [], w, rest|done].
  - split; [done|]. intros (pre & p & post & Ht & Hl & He). symmetry in Ht. apply app_nil in Ht as [-> [-> ->]%app_nil].
    rewrite <-E. apply (matchhere_here_n (length re)); [done|]. by exists [], [].
  - rewrite IH. split; [intros (pre & p & post & -> & H); by exists (t :: pre), p, post|]. intros (pre & p & post & Ht & Hl & He). destruct pre as [|t' pre].
    + exfalso. rewrite Ht in E. assert (matchhere re (p ++ post) = true) by (apply (matchhere_here_n (length re)); [done|by exists p, post]). simpl in E. congruence.
    + injection Ht as -> ->. by exists pre, p, post.
Qed.

Lemma match_eq re text : match_ re text = if caret re then matchhere (tail re) text else match_loop re text.
Proof.
  destruct re as [|c re]; [done|]. cbn [caret tail]. destruct (Z.eqb_spec c 94) as [->|]; [done|]. cbn [match_]. destruct c; try done.
  repeat (match goal with p : positive |- _ => destruct p; try done end).
Qed.

(** C29. The matcher of [grep] finds exactly what the pattern describes: [match] succeeds if and only if some part of the text is described by
    the pattern's sequence of plain and starred characters, with the dot for any character, that part being at the beginning of the text after
    a caret and at its end before a dollar sign. *)
Theorem match_correct re text : match_ re text = true <-> occurs re text.
Proof.
  rewrite match_eq. unfold occurs, body. destruct (caret re).
  - rewrite (matchhere_here_n (length (tail re))) by done. split.
    + intros (w & rest & -> & Hl & He). by exists [], w, rest.
    + intros (pre & p & post & -> & Hl & Hp & He). rewrite (Hp eq_refl). by exists p, post.
  - rewrite match_loop_occurs. split; intros (pre & p & post & -> & H); exists pre, p, post; naive_solver.
Qed.

(** ** The loop over the input *)

(** [strchr(p, '\n')] in the buffer from [p] on: the text before the newline and what follows it. *)
Fixpoint line (l : list Z) : option (list Z * list Z) :=
  match l with
  | [] => None
  | c :: l' =>
      if c =? 0 then None
      else if c =? 10 then Some ([], l')
      else match line l' with Some (t, r) => Some (c :: t, r) | None => None end
  end.

(** The loop over the lines in the buffer, user/grep.c:22-29: what is left of the buffer, and what is written. *)
Fixpoint grep_lines (fuel : nat) (pattern p out : list Z) : option (list Z * list Z) :=
  match fuel with
  | O => None
  | S fuel' =>
      match line p with
      | None => Some (p, out)
      | Some (t, p') => grep_lines fuel' pattern p' (if match_ pattern t then out ++ t ++ [10] else out)
      end
  end.

(** user/grep.c:11-35: [buf] holds the [m] characters read but not yet done with; a read gives at most [k] characters for the [k]s of [reads],
    which say how the input arrives. *)
Fixpoint grep (fuel : nat) (pattern : list Z) (reads : list nat) (input buf out : list Z) : option (list Z) :=
  match fuel with
  | O => None
  | S fuel' =>
      let n := ((S (hd 0 reads) `min` length input) `min` (1024 - length buf - 1))%nat in
      if (n =? 0)%nat then Some out
      else
        let buf := buf ++ take n input in
        match grep_lines (S (length buf)) pattern buf out with
        | None => None
        | Some (p, out) => grep fuel' pattern (tl reads) (drop n input) p out
        end
  end.

(** The lines of a text that end in a newline. *)
Fixpoint lines (l acc : list Z) : list (list Z) :=
  match l with
  | [] => []
  | c :: l' => if c =? 10 then acc :: lines l' [] else lines l' (acc ++ [c])
  end.
Definition selected (pattern : list Z) (ls : list (list Z)) : list Z := concat (map (fun t => if match_ pattern t then t ++ [10] else []) ls).

Lemma line_some l t r : line l = Some (t, r) -> l = t ++ 10 :: r /\ (10 ∉ t) /\ (0 ∉ t).
Proof.
  revert t r. induction l as [|c l IH]; intros t r; cbn [line]; [done|]. destruct (Z.eqb_spec c 0); [done|]. destruct (Z.eqb_spec c 10) as [->|].
  - intros [= <- <-]. split_and!; [done|set_solver..].
  - destruct (line l) as [[t' r']|] eqn:E; [|done]. intros [= <- <-]. destruct (IH _ _ eq_refl) as (-> & H1 & H2). split_and!; [done|set_solver..].
Qed.

Lemma line_none l : 0 ∉ l -> line l = None -> 10 ∉ l.
Proof.
  induction l as [|c l IH]; cbn [line]; [set_solver|]. intros H0. destruct (Z.eqb_spec c 0) as [->|]; [set_solver|]. destruct (Z.eqb_spec c 10); [done|].
  destruct (line l) as [[]|]; [done|]. intros _. specialize (IH ltac:(set_solver) eq_refl). set_solver.
Qed.

Lemma lines_app t l acc : 10 ∉ t -> lines (t ++ l) acc = lines l (acc ++ t).
Proof.
  revert acc. induction t as [|c t IH]; intros acc H; simpl; [by rewrite app_nil_r|]. destruct (Z.eqb_spec c 10) as [->|]; [set_solver|].
  rewrite IH by set_solver. by rewrite <-app_assoc.
Qed.

Lemma grep_lines_spec fuel pattern p out l :
  0 ∉ p -> (length p < fuel)%nat ->
  exists p' out', grep_lines fuel pattern p out = Some (p', out') /\ (10 ∉ p') /\ (0 ∉ p') /\ (length p' <= length p)%nat /\
    out' ++ selected pattern (lines (p' ++ l) []) = out ++ selected pattern (lines (p ++ l) []) /\ lines (p' ++ l) [] `suffix_of` lines (p ++ l) [].
Proof.
  revert p out. induction fuel as [|fuel IH]; intros p out H0 Hf; [lia|]. cbn [grep_lines]. destruct (line p) as [[t r]|] eqn:E.
  - apply line_some in E as (-> & H1 & H2). rewrite length_app in Hf. simpl in Hf. destruct (IH r (if match_ pattern t then out ++ t ++ [10] else out)) as (p' & out' & Hg & Hn & Hz & Hl & Ho & Hs); [set_solver|lia|].
    exists p', out'. split_and!; [done|done|done|rewrite length_app; simpl; lia|..]; rewrite <-(app_assoc t), (lines_app t _ []) by done; cbn [app lines]; rewrite Z.eqb_refl.
    + rewrite Ho. unfold selected. cbn [map concat]. destruct (match_ pattern t); [by rewrite <-!app_assoc|done].
    + by apply suffix_cons_r.
  - exists p, out. split_and!; try done. by apply line_none.
Qed.

Lemma lines_none l acc : 10 ∉ l -> lines l acc = [].
Proof. intros H. rewrite <-(app_nil_r l), lines_app by done. done. Qed.

Lemma lines_first b l : 10 ∉ b -> 10 ∈ l -> exists t ls, lines (b ++ l) [] = (b ++ t) :: ls.
Proof.
  intros Hb Hl. rewrite lines_app by done. cbn [app]. revert b Hb. induction l as [|c l IH]; intros b Hb; [set_solver|]. cbn [lines]. destruct (Z.eqb_spec c 10) as [->|].
  - exists [], (lines l []). by rewrite app_nil_r.
  - destruct (IH ltac:(set_solver) (b ++ [c]) ltac:(set_solver)) as (t & ls & E). exists (c :: t), ls. by rewrite E, <-app_assoc.
Qed.

Lemma grep_spec fuel pattern reads input buf out :
  10 ∉ buf -> 0 ∉ buf -> 0 ∉ input -> (length buf <= 1023)%nat -> (length input < fuel)%nat ->
  Forall (fun t => (length t <= 1022)%nat) (lines (buf ++ input) []) ->
  grep fuel pattern reads input buf out = Some (out ++ selected pattern (lines (buf ++ input) [])).
Proof.
  revert reads input buf out. induction fuel as [|fuel IH]; intros reads input buf out Hn H0 H1 Hl Hf Hls; [lia|]. cbn [grep].
  set (n := ((S (hd 0 reads) `min` length input) `min` (1024 - length buf - 1))%nat). destruct (Nat.eqb_spec n 0) as [En|En].
  - f_equal. destruct (decide (10 ∈ input)) as [Hin|Hin].
    + destruct (lines_first buf input Hn Hin) as (t & ls & E). rewrite E in Hls. inversion Hls as [|? ? Ht _]; subst. rewrite length_app in Ht.
      assert (length input = 0%nat) as Ei%nil_length_inv by lia. subst input. set_solver.
    + rewrite lines_none by set_solver. by rewrite app_nil_r.
  - destruct (grep_lines_spec (S (length (buf ++ take n input))) pattern (buf ++ take n input) out (drop n input)) as (p' & out' & -> & Hn' & H0' & Hlen & Ho & Hs).
    + rewrite not_elem_of_app. split; [done|]. intros Hx. apply H1. rewrite <-(take_drop n input). set_solver.
    + lia.
    + rewrite length_app, length_take in Hlen. rewrite IH.
      * rewrite Ho, <-app_assoc, take_drop. done.
      * done.
      * done.
      * intros Hx. apply H1. rewrite <-(take_drop n input). set_solver.
      * lia.
      * rewrite length_drop. lia.
      * rewrite <-app_assoc, take_drop in Hs. destruct Hs as [k Ek]. rewrite Ek in Hls. by apply Forall_app in Hls as [_ ?].
Qed.

(** C38. However the input arrives, [grep] writes the lines that match and nothing else, in their order, if the input has no NUL and no line
    of more than 1022 characters; the loops end. *)
Theorem grep_correct pattern reads input :
  0 ∉ input -> Forall (fun t => (length t <= 1022)%nat) (lines input []) ->
  grep (S (length input)) pattern reads input [] [] = Some (selected pattern (lines input [])).
Proof. intros H0 Hl. by rewrite grep_spec; try set_solver; simpl; try lia. Qed.

(** The two lines "ab" and "b", in reads of two and three characters, with the pattern "^a". *)
Lemma grep_correct_witness : grep 6 [94; 97] [1; 2]%nat [97; 98; 10; 98; 10] [] [] = Some [97; 98; 10].
Proof.
  assert (H0 : 0 ∉ [97; 98; 10; 98; 10]) by (vm_compute; set_solver || (intros H; repeat (apply elem_of_cons in H as [H|H]; [discriminate H|]); apply elem_of_nil in H; exact H)).
  assert (Hl : Forall (fun t => (length t <= 1022)%nat) (lines [97; 98; 10; 98; 10] [])) by (repeat constructor; simpl; lia).
  exact (grep_correct [94; 97] [1; 2]%nat _ H0 Hl).
Defined.

(** A line of 1023 characters fills the buffer: the read for 0 characters gives 0 as at the end of the file, and the lines behind it are not looked at. *)
Lemma grep_long_line pattern reads t input :
  10 ∉ t -> 0 ∉ t -> length t = 1023%nat -> grep (S (S (length input))) pattern (1022%nat :: reads) (t ++ input) [] [] = Some [].
Proof.
  intros H1 H0 Hl. cbn [grep hd tl]. rewrite length_app, Hl. change (length []) with 0%nat.
  replace ((S 1022 `min` (1023 + length input)) `min` (1024 - 0 - 1))%nat with 1023%nat by lia. cbn [Nat.eqb app]. rewrite take_app_length', drop_app_length' by done.
  cbn [grep_lines]. destruct (line t) as [[a b]|] eqn:E; [apply line_some in E as (-> & _ & _); set_solver|]. cbn [grep]. rewrite Hl.
  replace ((S (hd 0 reads) `min` length input) `min` (1024 - 1023 - 1))%nat with 0%nat by lia. done.
Qed.
