(* ===== verification/Utext.v ===== *)
(** The user programs that read files and print: user/cat.c, wc.c, echo.c and ls.c.

    A program runs in a [world]: what its system calls find and do.  How much a read gives, and whether a read or a write fails, is
    fixed in advance by lists the theorems quantify over.  A program ends with its exit status. *)

From S2P Require Import Prelude Bytes Params CString Ulib Printf Grep.

(** The files that can be opened, what is left to read of the open descriptors, what was written to descriptors 1 and 2, how the next reads go
    ([None]: an error; [Some k]: at most [k + 1] bytes; at the end of the list: as many as there are), and which of the next writes fail. *)
Record world := World {
  w_files : gmap (list Z) (list Z);
  w_fd : gmap Z (list Z);
  w_out : list Z;
  w_err : list Z;
  w_reads : list (option nat);
  w_fails : list bool }.
#[export] Instance eta_world : Eta world := fun w => World (w_files w) (w_fd w) (w_out w) (w_err w) (w_reads w) (w_fails w).

(** ** System calls *)

Definition sys_read (fd n : Z) : M world (Z * list Z) :=
  let* w := get in
  modify (fun w => w <| w_reads := tl (w_reads w) |>) ;;;
  match w_fd w !! fd, hd_error (w_reads w) with
  | None, _ | _, Some None => ret (-1, [])
  | Some l, k =>
      let k := match k with Some (Some k) => S k | _ => length l end in
      let b := take (k `min` Z.to_nat n) l in
      modify (fun w => w <| w_fd := <[fd := drop (k `min` Z.to_nat n) l]> (w_fd w) |>) ;;;
      ret (Z.of_nat (length b), b)
  end.

Definition sys_write (l : list Z) : M world Z :=
  let* w := get in
  modify (fun w => w <| w_fails := tl (w_fails w) |>) ;;;
  if hd false (w_fails w) then ret (-1)
  else modify (fun w => w <| w_out := w_out w ++ l |>) ;;; ret (Z.of_nat (length l)).

(** The lowest descriptor above the standard ones that is free. *)
Definition sys_open (path : list Z) : M world Z :=
  let* w := get in
  match w_files w !! path, list_find (fun fd => w_fd w !! fd = None) (seqZ 3 13) with
  | Some l, Some (_, fd) => modify (fun w => w <| w_fd := <[fd := l]> (w_fd w) |>) ;;; ret fd
  | _, _ => ret (-1)
  end.

Definition sys_close (fd : Z) : M world unit := modify (fun w => w <| w_fd := delete fd (w_fd w) |>).

(** [printf(fmt, ...)] and [fprintf(2, fmt, ...)], whose writes are not checked. *)
Definition str (s : string) : list Z := map (fun c => Z.of_nat (Ascii.nat_of_ascii c)) (String.list_ascii_of_string s).
Arguments str : simpl never.
Definition printed (fmt : list Z) (args : list arg) : list Z := pr_out (final (vprintf uppercase fmt) (Prt [] args)).
Definition uprintf (fmt : list Z) (args : list arg) : M world unit := modify (fun w => w <| w_out := w_out w ++ printed fmt args |>).
Definition eprintf (fmt : list Z) (args : list arg) : M world unit := modify (fun w => w <| w_err := w_err w ++ printed fmt args |>).

(** A loop over the arguments that ends early with an exit status. *)
Fixpoint over {A} (l : list A) (body : A -> M world (option Z)) : M world Z :=
  match l with
  | [] => ret 0
  | a :: l' => let* r := body a in match r with Some e => ret e | None => over l' body end
  end.

(** ** cat *)

(** user/cat.c:7-22: [Some e] is [exit(e)]. *)
Fixpoint cat (fuel : nat) (fd : Z) : M world (option Z) :=
  match fuel with
  | O => nofuel
  | S fuel' =>
      let* ' (n, buf) := sys_read fd 512 in
      if 0 <? n then
        let* r := sys_write buf in
        if negb (r =? n) then eprintf (str "cat: write error" ++ [10]) [] ;;; ret (Some 1)
        else cat fuel' fd
      else if n <? 0 then eprintf (str "cat: read error" ++ [10]) [] ;;; ret (Some 1)
      else ret None
  end.

(** user/cat.c:24-43 *)
Definition cat_main (fuel : nat) (args : list (list Z)) : M world Z :=
  match args with
  | [] => let* r := cat fuel 0 in ret (default 0 r)
  | _ =>
      over args (fun a =>
        let* fd := sys_open a in
        if fd <? 0 then eprintf (str "cat: cannot open %s" ++ [10]) [AStr (Some a)] ;;; ret (Some 1)
        else
          let* r := cat fuel fd in
          match r with Some e => ret (Some e) | None => sys_close fd ;;; ret None end)
  end.

(** ** wc *)

(** The counters and the flag of [wc]. *)
Record wcst := Wcst { wc_l : Z; wc_w : Z; wc_c : Z; wc_inword : bool }.

(** [strchr] on blank, carriage return, tab, newline and vertical tab. *)
Definition wc_blanks : list Z := [32; 13; 9; 10; 11].
Definition wc_blank (c : Z) : bool := match strchr (aget wc_blanks) c 0 6 with Some (Some _) => true | _ => false end.

(** The body of the loop over a buffer, user/wc.c:17-27. *)
Definition wc_char (s : wcst) (ch : Z) : wcst :=
  let c := s32 (wc_c s + 1) in
  let l := if ch =? 10 then s32 (wc_l s + 1) else wc_l s in
  if wc_blank ch then Wcst l (wc_w s) c false
  else if negb (wc_inword s) then Wcst l (s32 (wc_w s + 1)) c true
  else Wcst l (wc_w s) c (wc_inword s).

(** The loop of [wc], user/wc.c:16-32. *)
Fixpoint wc_loop (fuel : nat) (fd : Z) (s : wcst) : M world (wcst + Z) :=
  match fuel with
  | O => nofuel
  | S fuel' =>
      let* ' (n, buf) := sys_read fd 512 in
      if 0 <? n then wc_loop fuel' fd (foldl wc_char s buf)
      else if n <? 0 then uprintf (str "wc: read error" ++ [10]) [] ;;; ret (inr 1)
      else ret (inl s)
  end.

(** user/wc.c:8-34 *)
Definition wc (fuel : nat) (fd : Z) (name : list Z) : M world (option Z) :=
  let* r := wc_loop fuel fd (Wcst 0 0 0 false) in
  match r with
  | inr e => ret (Some e)
  | inl s => uprintf (str "%d %d %d %s" ++ [10]) [AVal (wc_l s); AVal (wc_w s); AVal (wc_c s); AStr (Some name)] ;;; ret None
  end.

(** user/wc.c:36-55 *)
Definition wc_main (fuel : nat) (args : list (list Z)) : M world Z :=
  match args with
  | [] => let* r := wc fuel 0 [] in ret (default 0 r)
  | _ =>
      over args (fun a =>
        let* fd := sys_open a in
        if fd <? 0 then uprintf (str "wc: cannot open %s" ++ [10]) [AStr (Some a)] ;;; ret (Some 1)
        else
          let* r := wc fuel fd a in
          match r with Some e => ret (Some e) | None => sys_close fd ;;; ret None end)
  end.

(** ** echo *)

(** user/echo.c:10-17 *)
Fixpoint echo (args : list (list Z)) : M world unit :=
  match args with
  | [] => ret tt
  | a :: rest =>
      let* _ := sys_write a in
      let* _ := sys_write (match rest with [] => [10] | _ => [32] end) in
      echo rest
  end.

(** ** ls *)

(** The loop of [fmtname], user/ls.c:14-16, from offset [k] down: the offset behind the last slash. *)
Fixpoint after_slash (path : list Z) (k : nat) : nat :=
  if aget path (Z.of_nat k) =? 47 then S k
  else match k with O => O | S k' => after_slash path k' end.

(** user/ls.c:7-25 *)
Definition fmtname (path : list Z) : list Z :=
  let p := drop (after_slash path (length path)) path in
  if DIRSIZ <=? Z.of_nat (length p) then p
  else p ++ replicate (Z.to_nat (DIRSIZ - Z.of_nat (length p))) 32.

(** A string in an array, up to its end. *)
Fixpoint cstring (l : list Z) : list Z :=
  match l with
  | [] => []
  | c :: l' => if c =? 0 then [] else c :: cstring l'
  end.

Section Ls.
(** Type, inode number and size of the file a path leads to, or none where [fstat] fails. *)
Variable stats : list Z -> option (Z * Z * Z).

(** user/ulib.c:87-99 *)
Definition stat (n : list Z) : M world (option (Z * Z * Z)) :=
  let* fd := sys_open n in
  if fd <? 0 then ret None
  else sys_close fd ;;; ret (stats n).

(** The line for a file, user/ls.c:69-69, and the same at 49. *)
Definition ls_line (path : list Z) (st : Z * Z * Z) : M world unit :=
  let '(type, ino, size) := st in
  uprintf (str "%s %d %d %d" ++ [10]) [AStr (Some (fmtname path)); AVal type; AVal ino; AVal (s32 size)].

(** The loop over the entries, user/ls.c:57-70. *)
Fixpoint ls_loop (fuel : nat) (fd : Z) (path : list Z) : M world unit :=
  match fuel with
  | O => nofuel
  | S fuel' =>
      let* ' (n, de) := sys_read fd 16 in
      if negb (n =? 16) then ret tt
      else if get16 de 0 =? 0 then ls_loop fuel' fd path
      else
        let buf := path ++ [47] ++ cstring (take 14 (drop 2 de)) in
        let* st := stat buf in
        (match st with
         | None => uprintf (str "ls: cannot stat %s" ++ [10]) [AStr (Some buf)]
         | Some st => ls_line buf st
         end) ;;;
        ls_loop fuel' fd path
  end.

(** user/ls.c:27-74 *)
Definition ls (fuel : nat) (path : list Z) : M world unit :=
  let* fd := sys_open path in
  if fd <? 0 then eprintf (str "ls: cannot open %s" ++ [10]) [AStr (Some path)]
  else
    match stats path with
    | None => eprintf (str "ls: cannot stat %s" ++ [10]) [AStr (Some path)] ;;; sys_close fd
    | Some (type, ino, size) =>
        (if (type =? T_DEVICE) || (type =? T_FILE) then ls_line path (type, ino, size)
         else if type =? T_DIR then
           if 512 <? Z.of_nat (length path) + 1 + DIRSIZ + 1 then uprintf (str "ls: path too long" ++ [10]) []
           else ls_loop fuel fd path
         else ret tt) ;;;
        sys_close fd
    end.

(** user/ls.c:76-88 *)
Definition ls_main (fuel : nat) (args : list (list Z)) : M world Z :=
  match args with
  | [] => ls fuel [46] ;;; ret 0
  | _ => over args (fun a => ls fuel a ;;; ret None)
  end.
End Ls.

(** ** What the programs do *)

(** No read and no write fails. *)
Definition smooth (w : world) : Prop := Forall is_Some (w_reads w) /\ Forall (eq false) (w_fails w).

(** Only the standard descriptors are open. *)
Definition std_only (w : world) : Prop := forall fd, 3 <= fd -> w_fd w !! fd = None.

Lemma smooth_reads w : smooth w -> smooth (w <| w_reads := tl (w_reads w) |>).
Proof. intros [H1 H2]. split; [|done]. simpl. destruct (w_reads w); [done|]. by inversion H1. Qed.
Lemma smooth_fails w : smooth w -> smooth (w <| w_fails := tl (w_fails w) |>).
Proof. intros [H1 H2]. split; [done|]. simpl. destruct (w_fails w); [done|]. by inversion H2. Qed.

(** A read takes a piece off the front, or fails. *)
Lemma sys_read_spec w fd n l :
  w_fd w !! fd = Some l -> 0 < n ->
  wp (sys_read fd n) (fun r w' => exists k, w' = w <| w_reads := tl (w_reads w) |> <| w_fd := <[fd := drop k l]> (w_fd w) |> /\
    (r = (Z.of_nat (length (take k l)), take k l) /\ (l <> [] -> take k l <> []) \/ r = (-1, []) /\ k = 0%nat /\ ~ smooth w)) w.
Proof.
  intros Hl Hn. unfold sys_read. wp_steps. rewrite Hl. destruct (w_reads w) as [|[k|] r] eqn:E; simpl.
  - wp_steps. exists (length l `min` Z.to_nat n)%nat. split; [done|]. left. split; [done|]. destruct l; [done|]. simpl. destruct (Z.to_nat n) eqn:En; [lia|done].
  - wp_steps. exists (S k `min` Z.to_nat n)%nat. split; [done|]. left. split; [done|]. destruct l; [done|]. destruct (Z.to_nat n) eqn:En; [lia|]. simpl. done.
  - wp_steps. exists 0%nat. split; [simpl; rewrite insert_id by done; by destruct w|]. right. split_and!; try done.
    intros [H _]. rewrite E in H. by inversion H as [|? ? [? ?]].
Qed.

Lemma sys_write_spec w l :
  wp (sys_write l) (fun r w' => r = Z.of_nat (length l) /\ w' = w <| w_fails := tl (w_fails w) |> <| w_out := w_out w ++ l |> \/
    r = -1 /\ w' = w <| w_fails := tl (w_fails w) |> /\ ~ smooth w) w.
Proof.
  unfold sys_write. wp_steps. destruct (hd false (w_fails w)) eqn:E; wp_steps; [right|by left]. split_and!; try done.
  intros [_ H]. destruct (w_fails w); simpl in E; [done|]. subst. by inversion H.
Qed.

(** [cat] copies the rest of a file, or stops early with status 1 when a read or a write fails. *)
Definition cat_post (w : world) (fd : Z) (l : list Z) (r : option Z) (w' : world) : Prop := exists d rest,
  w_out w' = w_out w ++ d /\ d `prefix_of` l /\ w_fd w' = <[fd := rest]> (w_fd w) /\ w_files w' = w_files w /\
  (r = None /\ d = l \/ r = Some 1 /\ ~ smooth w) /\ (smooth w -> smooth w').

Lemma cat_spec fuel w fd l : w_fd w !! fd = Some l -> (length l < fuel)%nat -> wp (cat fuel fd) (cat_post w fd l) w.
Proof.
  revert w l. induction fuel as [|fuel IH]; intros w l Hl Hf; [lia|]. cbn [cat]. wp_step. eapply wp_conseq; [by apply (sys_read_spec w fd 512 l)|].
  intros r w1 (k & E1 & Hr). assert (S1 : smooth w -> smooth w1) by (intros Hs; rewrite E1; by apply smooth_reads in Hs).
  destruct Hr as [[-> Hne]|(-> & -> & Hs)].
  - set (b := take k l) in *. destruct (Z.ltb_spec 0 (Z.of_nat (length b))) as [Hb|Hb].
    + wp_step. eapply wp_conseq; [apply (sys_write_spec w1 b)|]. intros r w2 [(-> & E2)|(-> & E2 & Hs)].
      * rewrite Z.eqb_refl. cbn [negb]. assert (S2 : smooth w1 -> smooth w2) by (intros Hs; rewrite E2; by apply smooth_fails in Hs).
        eapply wp_conseq; [apply (IH w2 (drop k l))|].
        { rewrite E2, E1. simpl. apply lookup_insert_eq. }
        { rewrite length_drop. unfold b in Hb. rewrite length_take in Hb. lia. }
        intros r w3 (d & rest & O & Hd & F & Fl & Hr & S3). exists (b ++ d), rest. rewrite O, F, Fl. split_and!.
        -- by rewrite E2, E1, app_assoc.
        -- rewrite <-(take_drop k l). by apply prefix_app.
        -- rewrite E2, E1. simpl. by rewrite insert_insert_eq.
        -- by rewrite E2, E1.
        -- destruct Hr as [[-> ->]|[? ?]]; [left; split; [done|apply take_drop]|right]. tauto.
        -- tauto.
      * rewrite (proj2 (Z.eqb_neq _ _)) by lia. cbn [negb]. wp_steps. exists [], (drop k l). split_and!; [by rewrite E2, E1, app_nil_r|apply prefix_nil|by rewrite E2, E1..|right; tauto|tauto].
    + assert (El : l = []). { destruct l; [done|]. exfalso. destruct b; [by apply Hne|simpl in Hb; lia]. }
      rewrite (proj2 (Z.ltb_ge _ 0)) by lia. wp_steps. exists [], (drop k l). split_and!; [by rewrite E1, app_nil_r|apply prefix_nil|by rewrite E1..|by left|done].
  - simpl. wp_steps. exists [], l. split_and!; [by rewrite E1, app_nil_r|apply prefix_nil|by rewrite E1..|by right|done].
Qed.

Lemma sys_open_spec w path k :
  3 <= k < 16 -> (forall i, 3 <= i < k -> w_fd w !! i <> None) -> w_fd w !! k = None ->
  wp (sys_open path) (fun r w' => match w_files w !! path with
    | Some l => r = k /\ w' = w <| w_fd := <[k := l]> (w_fd w) |>
    | None => r = -1 /\ w' = w
    end) w.
Proof.
  intros Hk Hlow Hnone. unfold sys_open. wp_steps. assert (E : list_find (fun fd => w_fd w !! fd = None) (seqZ 3 13) = Some (Z.to_nat (k - 3), k)).
  { apply list_find_Some. split_and!; [apply lookup_seqZ; lia|done|]. intros j y Hj Hlt. apply lookup_seqZ in Hj. apply Hlow. lia. }
  rewrite E. destruct (w_files w !! path); by wp_steps.
Qed.

(** The contents of the files with the given names. *)
Definition contents (w : world) (args : list (list Z)) : list Z := concat (map (fun a => default [] (w_files w !! a)) args).

(** [cat] on files.  It ends with status 0 or 1.  What it has written is a beginning of the contents of the files, one after the other;
    with status 0 it is all of that, and all of the files could be opened; and if no read or write fails and the files can be opened, the status is 0. *)
Theorem cat_correct fuel w args :
  std_only w -> args <> [] -> Forall (fun a => (length (default [] (w_files w !! a)) < fuel)%nat) args ->
  wp (cat_main fuel args) (fun st w' => exists d, w_out w' = w_out w ++ d /\ d `prefix_of` contents w args /\
    (st = 0 /\ d = contents w args /\ Forall (fun a => is_Some (w_files w !! a)) args \/
     st = 1 /\ ~ (smooth w /\ Forall (fun a => is_Some (w_files w !! a)) args))) w.
Proof.
  intros Hstd Hne Hf. unfold cat_main. destruct args as [|a0 args0]; [done|]. clear Hne. revert Hf. generalize (a0 :: args0). clear a0 args0.
  intros args. revert w Hstd. induction args as [|a args IH]; intros w Hstd Hf; cbn [over].
  - wp_steps. exists []. rewrite app_nil_r. split_and!; [done|done|by left].
  - inversion Hf as [|? ? Ha Hf']; subst. do 2 wp_step. eapply wp_conseq; [apply (sys_open_spec w a 3); [lia|intros; lia|by apply Hstd]|].
    intros r w1 Hr. unfold contents. cbn [map concat]. destruct (w_files w !! a) as [l|] eqn:El; simpl in Ha.
    + destruct Hr as [-> E1]. change (3 <? 0) with false. cbv iota. wp_step. eapply wp_conseq; [apply (cat_spec fuel w1 3 l); [rewrite E1; apply lookup_insert_eq|done]|].
      intros r w2 (d & rest & O2 & P2 & F2 & L2 & Hr & S2). assert (Sw : smooth w <-> smooth w1) by (by rewrite E1).
      change (default [] (Some l)) with l. destruct Hr as [[-> ->]|[-> Hs]].
      * unfold sys_close. wp_steps. set (w3 := upd w_fd _ w2). assert (L3 : w_files w3 = w_files w) by (simpl; by rewrite L2, E1).
        eapply wp_conseq; [apply (IH w3)|].
        { intros i Hi. simpl. rewrite F2, E1. simpl. rewrite insert_insert_eq, delete_insert_eq, lookup_delete. case_decide; [done|by apply Hstd]. }
        { by rewrite L3. }
        intros st w4 (d' & O4 & P4 & Hst). rewrite L3 in *. unfold contents in *. rewrite L3 in *. exists (l ++ d'). split_and!.
        -- rewrite O4. simpl. by rewrite O2, E1, app_assoc.
        -- by apply prefix_app.
        -- destruct Hst as [(-> & -> & Hall)|[-> Hs]]; [left; split_and!; [done|done|by constructor]|right; split; [done|]]. intros [Hs1 Hall]. apply Hs. inversion Hall. split; [|done].
           assert (Hs2 : smooth w2) by tauto. exact Hs2.
      * wp_steps. exists d. split_and!; [by rewrite O2, E1|by apply prefix_app_r|right; split; [done|tauto]].
    + destruct Hr as [-> ->]. change (-1 <? 0) with true. cbv iota. wp_steps. exists []. split_and!; [by rewrite app_nil_r|apply prefix_nil|right; split; [done|]].
      intros [_ Hall]. inversion Hall as [|? ? [? ?]]. congruence.
Qed.

(** *** wc *)

(** The pieces of a text between blanks. *)
Fixpoint pieces (l acc : list Z) : list (list Z) :=
  match l with
  | [] => [acc]
  | c :: l' => if decide (c ∈ wc_blanks) then acc :: pieces l' [] else pieces l' (acc ++ [c])
  end.
Definition nwords (l : list Z) : Z := Z.of_nat (length (filter (fun p => p <> []) (pieces l []))).
Definition nlines (l : list Z) : Z := Z.of_nat (length (filter (fun c => c = 10) l)).

Lemma wc_blank_spec c : wc_blank c = bool_decide (c ∈ wc_blanks).
Proof.
  unfold wc_blank, wc_blanks. destruct (bool_decide _) eqn:E.
  - apply bool_decide_eq_true in E. repeat (apply elem_of_cons in E as [->|E]; [done|]). by apply elem_of_nil in E.
  - apply bool_decide_eq_false in E. rewrite !not_elem_of_cons in E. cbn. destruct_and!. by repeat rewrite (proj2 (Z.eqb_neq _ c)) by done.
Qed.

Lemma wc_char_spec s c :
  0 <= wc_l s <= wc_c s -> 0 <= wc_w s <= wc_c s -> wc_c s + 1 < 2 ^ 31 ->
  wc_char s c = Wcst (wc_l s + (if c =? 10 then 1 else 0)) (wc_w s + (if bool_decide (c ∈ wc_blanks) || wc_inword s then 0 else 1)) (wc_c s + 1)
    (negb (bool_decide (c ∈ wc_blanks))).
Proof.
  intros Hl Hw Hc. unfold wc_char. rewrite wc_blank_spec. assert (E1 : s32 (wc_c s + 1) = wc_c s + 1) by (apply s32_id; lia).
  assert (E2 : s32 (wc_l s + 1) = wc_l s + 1) by (apply s32_id; lia). assert (E3 : s32 (wc_w s + 1) = wc_w s + 1) by (apply s32_id; lia).
  rewrite E1, E2, E3. destruct (bool_decide _), (wc_inword s), (c =? 10); cbn [negb orb]; by rewrite ?Z.add_0_r.
Qed.

(** [wc] counts whatever it has read, with [acc] the beginning of the word it is in. *)
Lemma wc_count l s acc :
  wc_inword s = bool_decide (acc <> []) -> 0 <= wc_l s <= wc_c s -> 0 <= wc_w s <= wc_c s -> wc_c s + Z.of_nat (length l) < 2 ^ 31 ->
  let s' := foldl wc_char s l in
  wc_l s' = wc_l s + nlines l /\ wc_c s' = wc_c s + Z.of_nat (length l) /\
  wc_w s' + (if wc_inword s then 1 else 0) = wc_w s + Z.of_nat (length (filter (fun p => p <> []) (pieces l acc))).
Proof.
  revert s acc. induction l as [|c l IH]; intros s acc Hin Hl Hw Hc; cbn [foldl pieces].
  - unfold nlines. simpl. rewrite Hin. split_and!; [lia|lia|]. rewrite filter_cons. destruct (decide (acc <> [])); [rewrite bool_decide_true by done|rewrite bool_decide_false by done]; simpl; lia.
  - assert (Hlen : Z.of_nat (length (c :: l)) = 1 + Z.of_nat (length l)) by (simpl; lia). rewrite Hlen in *.
    assert (El : nlines (c :: l) = (if c =? 10 then 1 else 0) + nlines l).
    { unfold nlines. rewrite filter_cons. destruct (decide (c = 10)) as [->|]; [simpl; lia|]. rewrite (proj2 (Z.eqb_neq c 10)) by done. lia. }
    rewrite El, wc_char_spec by lia. set (s1 := Wcst _ _ _ _). cbv zeta.
    set (acc' := if decide (c ∈ wc_blanks) then [] else acc ++ [c]).
    assert (Hin1 : wc_inword s1 = bool_decide (acc' <> [])).
    { unfold s1, acc'. simpl. destruct (decide (c ∈ wc_blanks)); [by rewrite bool_decide_true|]. rewrite bool_decide_false by done. symmetry. apply bool_decide_true. by destruct acc. }
    assert (B1 : 0 <= wc_l s1 <= wc_c s1 /\ 0 <= wc_w s1 <= wc_c s1 /\ wc_c s1 = wc_c s + 1) by (unfold s1; simpl; destruct (c =? 10), (bool_decide _ || _); lia).
    destruct (IH s1 acc' Hin1) as (H1 & H2 & H3); [lia..|]. rewrite H1, H2. split_and!; [unfold s1; simpl; lia|lia|].
    assert (Ew : wc_w s1 + (if wc_inword s then 1 else 0) = wc_w s + (if wc_inword s1 then 1 else 0) + (if decide (c ∈ wc_blanks) then if wc_inword s then 1 else 0 else 0)).
    { unfold s1. simpl. destruct (decide (c ∈ wc_blanks)); [rewrite bool_decide_true by done|rewrite bool_decide_false by done]; destruct (wc_inword s); simpl; lia. }
    assert (Ep : Z.of_nat (length (filter (fun p => p <> []) (if decide (c ∈ wc_blanks) then acc :: pieces l [] else pieces l (acc ++ [c])))) =
      (if decide (c ∈ wc_blanks) then if wc_inword s then 1 else 0 else 0) + Z.of_nat (length (filter (fun p => p <> []) (pieces l acc')))).
    { unfold acc'. destruct (decide (c ∈ wc_blanks)); [|lia]. rewrite filter_cons, Hin. destruct (decide (acc <> [])); [rewrite bool_decide_true by done|rewrite bool_decide_false by done]; cbn [length]; lia. }
    rewrite Ep. lia.
Qed.

(** [wc] prints the number of lines, words and characters of a file, however its contents arrive, if no read fails. *)
Lemma wc_loop_spec fuel w fd l s :
  w_fd w !! fd = Some l -> (length l < fuel)%nat ->
  wp (wc_loop fuel fd s) (fun r w' => (r = inl (foldl wc_char s l) /\ w_out w' = w_out w \/ r = inr 1 /\ ~ smooth w) /\ w_files w' = w_files w /\
    (exists rest, w_fd w' = <[fd := rest]> (w_fd w)) /\ (smooth w -> smooth w')) w.
Proof.
  revert w l s. induction fuel as [|fuel IH]; intros w l s Hl Hf; [lia|]. cbn [wc_loop]. wp_step. eapply wp_conseq; [by apply (sys_read_spec w fd 512 l)|].
  intros r w1 (k & E1 & Hr). assert (S1 : smooth w -> smooth w1) by (intros Hs; rewrite E1; by apply smooth_reads in Hs).
  destruct Hr as [[-> Hne]|(-> & -> & Hs)].
  - destruct (Z.ltb_spec 0 (Z.of_nat (length (take k l)))) as [Hb|Hb].
    + eapply wp_conseq; [apply (IH w1 (drop k l))|].
      { rewrite E1. apply lookup_insert_eq. }
      { rewrite length_drop. rewrite length_take in Hb. lia. }
      intros r w2 (Hr & Fl & [rest F] & S2). split_and!.
      * rewrite <-(take_drop k l), foldl_app. destruct Hr as [[-> O]|[-> Hs]]; [left; split; [done|by rewrite O, E1]|right; tauto].
      * by rewrite Fl, E1.
      * exists rest. rewrite F, E1. simpl. by rewrite insert_insert_eq.
      * tauto.
    + assert (El : l = []). { destruct l; [done|]. exfalso. destruct (take k (z :: l)); [by apply Hne|simpl in Hb; lia]. }
      rewrite (proj2 (Z.ltb_ge _ 0)) by lia. wp_steps. split_and!; [left; by rewrite E1, El|by rewrite E1|by exists (drop k l); rewrite E1|done].
  - change (-1 <? 0) with true. change (0 <? -1) with false. cbv iota. unfold uprintf. wp_steps. split_and!; [by right|by rewrite E1|exists l; by rewrite E1|done].
Qed.

Theorem wc_correct fuel w fd l name :
  w_fd w !! fd = Some l -> (length l < fuel)%nat -> Z.of_nat (length l) < 2 ^ 31 -> smooth w ->
  wp (wc fuel fd name) (fun r w' => r = None /\
    w_out w' = w_out w ++ printed (str "%d %d %d %s" ++ [10]) [AVal (nlines l); AVal (nwords l); AVal (Z.of_nat (length l)); AStr (Some name)]) w.
Proof.
  intros Hl Hf Hlen Hs. unfold wc. wp_step. eapply wp_conseq; [by apply (wc_loop_spec fuel w fd l)|]. intros r w1 ([[-> O]|[_ Hn]] & _); [|done].
  unfold uprintf. wp_steps. split; [done|]. destruct (wc_count l (Wcst 0 0 0 false) []) as (H1 & H2 & H3); [done|simpl; lia..|].
  cbn [wc_l wc_w wc_c wc_inword] in H1, H2, H3. unfold nwords. change (w_out (upd w_out ?f w1)) with (f (w_out w1)). rewrite O. do 2 f_equal. repeat f_equal; lia.
Qed.

(** *** ls *)

Lemma after_slash_spec dir name k :
  (47 ∉ name) -> dir = [] \/ last dir = Some 47 -> (length dir <= S k)%nat -> after_slash (dir ++ name) k = length dir.
Proof.
  intros Hn Hd. induction k as [|k IH]; intros Hk; cbn [after_slash].
  - destruct dir as [|x [|y dir]]; simpl in Hk; [|by (destruct Hd as [Hd|Hd]; [discriminate Hd|injection Hd as ->])|lia]. destruct name as [|c name]; [done|].
    change (aget ([] ++ c :: name) (Z.of_nat 0)) with c. destruct (Z.eqb_spec c 47) as [->|]; [|done]. exfalso. apply Hn. by left.
  - destruct (decide (length dir = S (S k))) as [E|E].
    + destruct Hd as [->|Hd]; [done|]. rewrite last_lookup, E in Hd. simpl in Hd.
      assert (Ea : aget (dir ++ name) (Z.of_nat (S k)) = 47) by (unfold aget; rewrite Nat2Z.id; apply nth_lookup_Some; by apply lookup_app_l_Some).
      rewrite Ea. by rewrite E.
    + destruct (Z.eqb_spec (aget (dir ++ name) (Z.of_nat (S k))) 47) as [Ea|]; [|apply IH; lia]. exfalso. unfold aget in Ea. rewrite Nat2Z.id, app_nth2 in Ea by lia.
      apply Hn. rewrite nth_lookup in Ea. destruct (name !! _) as [x|] eqn:Ex; [|done]. simpl in Ea. subst. by eapply list_elem_of_lookup_2.
Qed.

(** [fmtname] gives the last element of a path, filled up with blanks to 14 characters. *)
Lemma fmtname_spec dir name :
  (47 ∉ name) -> dir = [] \/ last dir = Some 47 -> fmtname (dir ++ name) = name ++ replicate (14 - length name) 32.
Proof.
  intros Hn Hd. unfold fmtname. rewrite after_slash_spec, drop_app_length by (done || rewrite length_app; lia). unfold DIRSIZ.
  destruct (Z.leb_spec 14 (Z.of_nat (length name))).
  - replace (14 - length name)%nat with 0%nat by lia. by rewrite app_nil_r.
  - do 2 f_equal. lia.
Qed.

Section LsSpec.
Variable stats : list Z -> option (Z * Z * Z).

(** What [ls] prints for an entry of a directory. *)
Definition ls_entry (w : world) (path de : list Z) : list Z :=
  let buf := path ++ [47] ++ cstring (take 14 (drop 2 de)) in
  if get16 de 0 =? 0 then []
  else match w_files w !! buf, stats buf with
       | Some _, Some (type, ino, size) =>
           printed (str "%s %d %d %d" ++ [10]) [AStr (Some (fmtname buf)); AVal type; AVal ino; AVal (s32 size)]
       | _, _ => printed (str "ls: cannot stat %s" ++ [10]) [AStr (Some buf)]
       end.

Lemma ls_loop_spec fuel w path des :
  w_reads w = [] -> w_fd w !! 3 = Some (concat des) -> (forall fd, 3 < fd -> w_fd w !! fd = None) -> Forall (fun de => length de = 16%nat) des -> (length des < fuel)%nat ->
  wp (ls_loop stats fuel 3 path) (fun _ w' => w_out w' = w_out w ++ concat (map (ls_entry w path) des) /\ w_files w' = w_files w /\ (forall fd, 3 < fd -> w_fd w' !! fd = None)) w.
Proof.
  revert w des. induction fuel as [|fuel IH]; intros w des Hr Hfd Hup Hde Hf; [lia|]. cbn [ls_loop]. unfold sys_read. wp_steps. rewrite Hfd, Hr. cbn [hd_error tl].
  assert (Ew : w <| w_reads := [] |> = w) by (destruct w; simpl in *; by subst). wp_steps. rewrite Ew. destruct des as [|de des].
  - change (concat []) with (@nil Z). rewrite take_nil, drop_nil. change (negb (Z.of_nat (length []) =? 16)) with true. cbv iota. wp_steps.
    split_and!; [by rewrite app_nil_r|done|]. intros fd Hfd'. simpl. rewrite lookup_insert_ne by lia. by apply Hup.
  - inversion Hde as [|? ? Hl Hde']; subst. cbn [concat map]. assert (Ek : (length (de ++ concat des) `min` Z.to_nat 16)%nat = length de) by (rewrite length_app; lia).
    rewrite Ek, take_app_length, drop_app_length, Hl. change (negb (Z.of_nat 16 =? 16)) with false. cbv iota. set (w1 := w <| w_fd := _ |>).
    assert (Hup1 : forall fd, 3 < fd -> w_fd w1 !! fd = None) by (intros fd Hfd'; unfold w1; simpl; rewrite lookup_insert_ne by lia; by apply Hup).
    assert (Hfd1 : w_fd w1 !! 3 = Some (concat des)) by apply lookup_insert_eq.
    assert (Hrest : forall w2, w_reads w2 = [] -> w_fd w2 = w_fd w1 -> w_files w2 = w_files w -> w_out w2 = w_out w ++ ls_entry w path de ->
      wp (ls_loop stats fuel 3 path) (fun _ w' => w_out w' = w_out w ++ ls_entry w path de ++ concat (map (ls_entry w path) des) /\ w_files w' = w_files w /\ (forall fd, 3 < fd -> w_fd w' !! fd = None)) w2).
    { intros w2 R2 F2 L2 O2. eapply wp_conseq; [apply (IH w2 des); rewrite ?F2; try done; simpl in Hf; lia|]. intros [] w3 (O3 & L3 & U3). split_and!; [|by rewrite L3|done].
      rewrite O3, O2, <-app_assoc. do 4 f_equal. unfold ls_entry. by rewrite L2. }
    destruct (get16 de 0 =? 0) eqn:E0; [apply (Hrest w1); try done; unfold ls_entry; rewrite E0; by rewrite app_nil_r|].
    set (buf := path ++ [47] ++ cstring (take 14 (drop 2 de))) in *. unfold stat. wp_step. wp_step. eapply wp_conseq; [apply (sys_open_spec w1 buf 4); [lia|intros i Hi; replace i with 3 by lia; by rewrite Hfd1|by apply Hup1]|].
    intros r w2 Hr2. change (w_files w1) with (w_files w) in Hr2. unfold ls_line, uprintf, sys_close. destruct (w_files w !! buf) as [c|] eqn:Eb; destruct Hr2 as [-> ->].
    + change (4 <? 0) with false. cbv iota. wp_steps. assert (Ed : delete 4 (<[4 := c]> (w_fd w1)) = w_fd w1) by (rewrite delete_insert_eq; apply delete_id; by apply Hup1).
      destruct (stats buf) as [[[ty ino] size]|] eqn:Es; wp_steps; apply Hrest; try done; unfold ls_entry; fold buf; by rewrite E0, Eb, Es.
    + change (-1 <? 0) with true. cbv iota. wp_steps. apply Hrest; try done. unfold ls_entry. fold buf. by rewrite E0, Eb.
Qed.

(** [ls] of a directory prints one line for each entry in use, in the order of the directory, and closes every file it has opened. *)
Theorem ls_correct fuel w path des ino size :
  std_only w -> w_reads w = [] -> w_files w !! path = Some (concat des) -> Forall (fun de => length de = 16%nat) des -> (length des < fuel)%nat ->
  stats path = Some (T_DIR, ino, size) -> Z.of_nat (length path) + 16 <= 512 ->
  wp (ls stats fuel path) (fun _ w' => w_out w' = w_out w ++ concat (map (ls_entry w path) des) /\ std_only w') w.
Proof.
  intros Hstd Hr Hp Hde Hf Hst Hlen. unfold ls. wp_step. eapply wp_conseq; [apply (sys_open_spec w path 3); [lia|intros; lia|by apply Hstd]|].
  intros r w1 H1. rewrite Hp in H1. destruct H1 as [-> ->]. change (3 <? 0) with false. cbv iota. rewrite Hst. change ((T_DIR =? T_DEVICE) || (T_DIR =? T_FILE)) with false.
  change (T_DIR =? T_DIR) with true. cbv iota. unfold DIRSIZ. replace (512 <? Z.of_nat (length path) + 1 + 14 + 1) with false by (symmetry; apply Z.ltb_ge; lia). cbv iota.
  set (w1 := w <| w_fd := _ |>). wp_step. eapply wp_conseq; [apply (ls_loop_spec fuel w1 path des); try done|].
  - apply lookup_insert_eq.
  - intros fd Hfd. unfold w1. simpl. rewrite lookup_insert_ne by lia. apply Hstd. lia.
  - intros [] w2 (O2 & L2 & U2). unfold sys_close. wp_step. split; [exact O2|]. intros fd Hfd. simpl. rewrite lookup_delete. case_decide; [done|]. apply U2. lia.
Qed.
End LsSpec.

(** *** echo *)

(** The arguments with blanks between them, and a newline. *)
Fixpoint spaced (args : list (list Z)) : list Z :=
  match args with
  | [] => []
  | [a] => a ++ [10]
  | a :: rest => a ++ [32] ++ spaced rest
  end.

Lemma echo_spec args w : smooth w -> wp (echo args) (fun _ w' => w_out w' = w_out w ++ spaced args) w.
Proof.
  revert w. induction args as [|a rest IH]; intros w Hs; cbn [echo]; [wp_steps; by rewrite app_nil_r|].
  wp_step. eapply wp_conseq; [apply (sys_write_spec w a)|]. intros r w1 [(_ & ->)|(_ & _ & Hn)]; [|done]. apply smooth_fails in Hs.
  set (w1 := upd w_out _ _). assert (Hs1 : smooth w1) by exact Hs. wp_step. eapply wp_conseq; [apply (sys_write_spec w1)|].
  intros r2 w2 [(_ & ->)|(_ & _ & Hn)]; [|done]. apply smooth_fails in Hs1. eapply wp_conseq; [apply IH; exact Hs1|]. intros [] w3 ->.
  destruct rest; simpl; by rewrite <-!app_assoc, ?app_nil_r.
Qed.
