(* ===== verification/ShParse.v ===== *)
(** The parser of the shell, user/sh.c.

    The line is an array of characters that ends in a NUL; a pointer into it is an index.  A string of a command is first a pair of
    indices, where it begins and where it ends, and becomes a C string when [nulterminate] stores a NUL at its end.  The state is
    the pointer [*ps]; a syntax error ends the shell's child in [panic]. *)

From S2P Require Import CString Prelude Safe Bytes Params.

(** user/sh.c:92-124, with strings in [A]; the constructors are the types of lines 6-10. *)
Inductive cmd (A : Type) :=
  | EXEC (argv : list A)
  | REDIR (c : cmd A) (file : A) (mode fd : Z)
  | PIPE (left right : cmd A)
  | LIST (left right : cmd A)
  | BACK (c : cmd A).
Arguments EXEC {A}.
Arguments REDIR {A}.
Arguments PIPE {A}.
Arguments LIST {A}.
Arguments BACK {A}.

(** user/sh.c:12 *)
Definition MAXARGS : Z := 10.

(** user/sh.c:480 *)
Definition whitespace : list Z := [32; 9; 13; 10; 11].
(** user/sh.c:481 *)
Definition symbols : list Z := [60; 124; 62; 38; 59; 40; 41].

(** [strchr(s, c) != 0] *)
Definition member (c : Z) (s : list Z) : bool := existsb (Z.eqb c) s.

Definition iswhite (c : Z) : bool := member c whitespace.
Definition isword (c : Z) : bool := negb (c =? 0) && negb (member c whitespace) && negb (member c symbols).

Abbreviation range := (Z * Z)%type.

Section Parse.
(** The characters of the line before the NUL, at index [es]. *)
Variable b : list Z.
Definition es : Z := Z.of_nat (length b).

(** [while(s < es && p( *s )) s++], for [n = es - s]. *)
Fixpoint skip (p : Z -> bool) (n : nat) (s : Z) : Z :=
  match n with
  | O => s
  | S n' => if p (aget b s) then skip p n' (s + 1) else s
  end.
Definition skip_from (p : Z -> bool) (s : Z) : Z := skip p (Z.to_nat (es - s)) s.

(** user/sh.c:483-526: the token, its beginning and its end. *)
Definition gettoken : M Z (Z * Z * Z) :=
  let* s := get in
  let s := skip_from iswhite s in
  let q := s in
  let c := aget b s in
  let '(r, s) :=
    (if c =? 0 then (c, s)
     else if member c [124; 40; 41; 59; 38; 60] then (c, s + 1)
     else if c =? 62 then if aget b (s + 1) =? 62 then (43, s + 2) else (c, s + 1)
     else (97, skip_from (fun c => negb (member c whitespace) && negb (member c symbols)) s)) in
  let eq := s in
  modify (fun _ => skip_from iswhite s) ;;;
  ret (r, q, eq).

(** user/sh.c:528-538 *)
Definition peek (toks : list Z) : M Z bool :=
  let* s := get in
  let s := skip_from iswhite s in
  modify (fun _ => s) ;;;
  ret (negb (aget b s =? 0) && member (aget b s) toks).

(** The mode and the descriptor of a redirection, user/sh.c:602-612. *)
Definition redir_mode (tok : Z) : Z * Z :=
  if tok =? 60 then (O_RDONLY, 0)
  else if tok =? 62 then (Z.lor (Z.lor O_WRONLY O_CREATE) O_TRUNC, 1)
  else (Z.lor O_WRONLY O_CREATE, 1).

(** user/sh.c:592-615: the redirections, to be put around a command. *)
Fixpoint parseredirs (fuel : nat) (rs : list (range * Z * Z)) : M Z (list (range * Z * Z)) :=
  match fuel with
  | O => nofuel
  | S fuel' =>
      let* p := peek [60; 62] in
      if p then
        let* '(tok, _, _) := gettoken in
        let* '(r, q, eq) := gettoken in
        if negb (r =? 97) then panic "missing file for redirection"
        else let '(mode, fd) := redir_mode tok in parseredirs fuel' (rs ++ [((q, eq), mode, fd)])
      else ret rs
  end.
Definition redirs : M Z (list (range * Z * Z)) := parseredirs (S (length b)) [].
Definition redircmd (c : cmd range) (rs : list (range * Z * Z)) : cmd range :=
  foldl (fun c '(file, mode, fd) => REDIR c file mode fd) c rs.

(** user/sh.c:617-631; [parseline] is the caller's. *)
Definition parseblock (parseline : M Z (cmd range)) : M Z (cmd range) :=
  let* p := peek [40] in
  if negb p then panic "parseblock"
  else
    gettoken ;;;
    let* c := parseline in
    let* p := peek [41] in
    if negb p then panic "syntax - missing )"
    else
      gettoken ;;;
      let* rs := redirs in
      ret (redircmd c rs).

(** The loop of [parseexec], user/sh.c:649-660: the arguments and the redirections. *)
Fixpoint exec_loop (fuel : nat) (argv : list range) (rs : list (range * Z * Z)) : M Z (list range * list (range * Z * Z)) :=
  match fuel with
  | O => nofuel
  | S fuel' =>
      let* p := peek [124; 41; 38; 59] in
      if p then ret (argv, rs)
      else
        let* '(tok, q, eq) := gettoken in
        if tok =? 0 then ret (argv, rs)
        else if negb (tok =? 97) then panic "syntax"
        else
          let argv := argv ++ [(q, eq)] in
          if MAXARGS <=? Z.of_nat (length argv) then panic "too many args"
          else
            let* rs' := redirs in
            exec_loop fuel' argv (rs ++ rs')
  end.

(** user/sh.c:633-664 *)
Definition parseexec (parseline : M Z (cmd range)) : M Z (cmd range) :=
  let* p := peek [40] in
  if p then parseblock parseline
  else
    let* rs := redirs in
    let* '(argv, rs) := exec_loop (S (length b)) [] rs in
    ret (redircmd (EXEC argv) rs).

(** user/sh.c:579-590 *)
Fixpoint parsepipe (fuel : nat) (parseline : M Z (cmd range)) : M Z (cmd range) :=
  match fuel with
  | O => nofuel
  | S fuel' =>
      let* c := parseexec parseline in
      let* p := peek [124] in
      if p then
        gettoken ;;;
        let* c' := parsepipe fuel' parseline in
        ret (PIPE c c')
      else ret c
  end.

(** The loop of [parseline], user/sh.c:568-571. *)
Fixpoint back_loop (fuel : nat) (c : cmd range) : M Z (cmd range) :=
  match fuel with
  | O => nofuel
  | S fuel' =>
      let* p := peek [38] in
      if p then gettoken ;;; back_loop fuel' (BACK c) else ret c
  end.

(** user/sh.c:562-577 *)
Fixpoint parseline (fuel : nat) : M Z (cmd range) :=
  match fuel with
  | O => nofuel
  | S fuel' =>
      let* c := parsepipe (S (length b)) (parseline fuel') in
      let* c := back_loop (S (length b)) c in
      let* p := peek [59] in
      if p then
        gettoken ;;;
        let* c' := parseline fuel' in
        ret (LIST c c')
      else ret c
  end.

(** user/sh.c:667-711: the stores, in the array with its NUL. *)
Fixpoint nulterminate (c : cmd range) (m : list Z) : list Z :=
  match c with
  | EXEC argv => foldl (fun m '(_, eq) => aset m eq 0) m argv
  | REDIR c (_, eq) _ _ => aset (nulterminate c m) eq 0
  | PIPE l r => nulterminate r (nulterminate l m)
  | LIST l r => nulterminate r (nulterminate l m)
  | BACK c => nulterminate c m
  end.

(** user/sh.c:545-560: the command and the array. *)
Definition parsecmd : M Z (cmd range * list Z) :=
  let* c := parseline (S (length b)) in
  peek [] ;;;
  let* s := get in
  if negb (s =? es) then panic "syntax"
  else ret (c, nulterminate c (b ++ [0])).
End Parse.

(** The command with each string read from the array up to its NUL. *)
Fixpoint cmd_map {A B} (f : A -> B) (c : cmd A) : cmd B :=
  match c with
  | EXEC argv => EXEC (map f argv)
  | REDIR c file mode fd => REDIR (cmd_map f c) (f file) mode fd
  | PIPE l r => PIPE (cmd_map f l) (cmd_map f r)
  | LIST l r => LIST (cmd_map f l) (cmd_map f r)
  | BACK c => BACK (cmd_map f c)
  end.
Fixpoint cstring (l : list Z) : list Z :=
  match l with
  | [] => []
  | c :: l' => if c =? 0 then [] else c :: cstring l'
  end.
Definition strings (m : list Z) (c : cmd range) : cmd (list Z) := cmd_map (fun '(q, _) => cstring (drop (Z.to_nat q) m)) c.

(** [parsecmd(s)] on the line [b]. *)
Definition parse (b : list Z) : outcome Z (cmd (list Z)) := (let* '(c, m) := parsecmd b in ret (strings m c)) 0.
