(* ===== verification/ShSpec.v ===== *)
(** The parser of the shell ends on every line, and reads back every command that is written out. *)

From S2P Require Import CString Prelude Safe Bytes Params ShParse.
From Stdlib Require Import ZifyBool.

(** A parser may only fail with a message. *)
Definition syntax : fault -> Prop := fun f => match f with FPanic _ => True | _ => False end.

(** A property of every string of a command, whose lists of arguments fit with their null pointer and which redirects the standard input and output only. *)
Fixpoint cmd_forall {A} (P : A -> Prop) (c : cmd A) : Prop :=
  match c with
  | EXEC argv => (length argv < 10)%nat /\ Forall P argv
  | REDIR c file _ fd => cmd_forall P c /\ P file /\ (fd = 0 \/ fd = 1)
  | PIPE l r | LIST l r => cmd_forall P l /\ cmd_forall P r
  | BACK c => cmd_forall P c
  end.

Section Total.
Variable b : list Z.
Hypothesis Hb : 0 ∉ b.
Implicit Types (i j : Z).

(** A string of a command: characters of a word, followed by one that is not. *)
Definition tok_ok (t : range) : Prop :=
  0 <= fst t < snd t /\ snd t <= es b /\ (forall k, fst t <= k < snd t -> isword (aget b k) = true) /\ isword (aget b (snd t)) = false.

Definition toks_ok (c : cmd range) : Prop := cmd_forall tok_ok c.

Lemma aget_in i : 0 <= i < es b -> aget b i <> 0.
Proof.
  intros Hi E. apply Hb. rewrite <-E. unfold aget, es in *. apply list_elem_of_lookup. exists (Z.to_nat i). apply lookup_nth. lia.
Qed.
Lemma aget_out i : es b <= i -> aget b i = 0.
Proof. intros Hi. unfold aget, es in *. apply nth_overflow. lia. Qed.

Lemma skip_from_spec p i : 0 <= i <= es b ->
  i <= skip_from b p i <= es b /\ (forall k, i <= k < skip_from b p i -> p (aget b k) = true) /\
  (skip_from b p i = es b \/ p (aget b (skip_from b p i)) = false).
Proof.
  intros Hi. unfold skip_from.
  assert (H : forall n s, Z.of_nat n = es b - s -> s <= skip b p n s <= es b /\ (forall k, s <= k < skip b p n s -> p (aget b k) = true) /\
    (skip b p n s = es b \/ p (aget b (skip b p n s)) = false)); [|apply H; lia].
  induction n as [|n IH]; intros s Hn; cbn [skip]; [split_and!; [lia|lia|intros; lia|left; lia]|]. destruct (p (aget b s)) eqn:E.
  - destruct (IH (s + 1)) as (H1 & H2 & H3); [lia|]. split_and!; [lia|lia| |done]. intros k Hk. destruct (decide (k = s)) as [->|]; [done|apply H2; lia].
  - split_and!; [lia|lia|intros; lia|by right].
Qed.

Abbreviation psafe m Q i := (safe syntax m Q i).

Lemma peek_safe toks i : 0 <= i <= es b ->
  psafe (peek b toks) (fun r i' => i <= i' <= es b /\ (r = true -> member (aget b i') toks = true /\ i' < es b)) i.
Proof.
  intros Hi. unfold peek. destruct (skip_from_spec iswhite i Hi) as (H1 & _). safe_steps. split; [done|]. intros [H2 H3]%andb_prop. split; [done|].
  destruct (decide (skip_from b iswhite i < es b)); [done|]. rewrite aget_out in H2 by lia. done.
Qed.

Lemma gettoken_safe i : 0 <= i <= es b ->
  psafe (gettoken b) (fun t i' => let '(r, q, e) := t in i <= i' <= es b /\ (r <> 0 \/ i < es b -> i < i') /\ (r = 97 -> tok_ok (q, e))) i.
Proof.
  intros Hi. unfold gettoken. apply safe_bind, safe_get. cbn zeta beta. destruct (skip_from_spec iswhite i Hi) as (H1 & Hs0 & Hw). set (s := skip_from b iswhite i) in *.
  assert (Hws : i < s \/ s = i) by lia. clearbody s.
  set (st := if aget b s =? 0 then (aget b s, s) else _).
  assert (Hst : s <= snd st <= es b /\ (fst st <> 0 \/ s < es b -> s < snd st) /\ (fst st = 97 -> tok_ok (s, snd st))).
  { subst st. destruct (Z.eqb_spec (aget b s) 0) as [E|E]; [cbn [fst snd]; split_and!; [lia|lia|intros [?|?]; [done|by destruct (aget_in s ltac:(lia))]|intros; lia]|].
    assert (Hs : s < es b) by (destruct (decide (s < es b)); [done|rewrite aget_out in E by lia; done]).
    destruct (member (aget b s) [124; 40; 41; 59; 38; 60]) eqn:Em; [cbn [fst snd]; split_and!; [lia|lia|lia|]; intros E'; rewrite E' in Em; done|].
    destruct (Z.eqb_spec (aget b s) 62) as [E62|E62].
    - destruct (Z.eqb_spec (aget b (s + 1)) 62) as [E2|]; cbn [fst snd]; [|split_and!; lia].
      assert (s + 1 < es b) by (destruct (decide (s + 1 < es b)); [done|rewrite aget_out in E2 by lia; done]). split_and!; lia.
    - cbn [fst snd]. destruct (skip_from_spec (fun c => negb (member c whitespace) && negb (member c symbols)) s ltac:(lia)) as (H2 & H3 & H4).
      set (e := skip_from b _ s) in *. assert (Hse : s < e).
      { destruct (decide (s < e)); [done|]. assert (e = s) as Ee by lia. rewrite Ee in H4. destruct H4 as [H4|H4]; [lia|]. destruct Hw as [Hw|Hw]; [lia|].
        unfold iswhite in Hw. rewrite Hw in H4. cbn [negb andb] in H4. apply negb_false_iff in H4. unfold symbols, member in *. simpl in *. lia. }
      split_and!; [lia|lia|lia|]. intros _. split_and!; cbn [fst snd]; [lia|lia|lia| |].
      + intros k Hk. unfold isword. rewrite (proj2 (Z.eqb_neq _ _)) by (apply aget_in; lia). apply H3. lia.
      + destruct H4 as [->|H4]; [by rewrite aget_out by lia|]. unfold isword. rewrite <-andb_assoc, H4. apply andb_false_r. }
  clearbody st. destruct st as [r e]. cbn [fst snd] in Hst. destruct Hst as (H2 & H3 & H4). safe_steps. destruct (skip_from_spec iswhite e ltac:(lia)) as (H5 & _).
  split_and!; [lia|lia| |done]. intros [Hr|Hr]; [specialize (H3 ltac:(by left)); lia|]. destruct Hws as [|Es]; [lia|]. specialize (H3 ltac:(right; lia)). lia.
Qed.

(** A parser that stays on the line and gives a command with good strings. *)
Definition parses (m : M Z (cmd range)) i : Prop := psafe m (fun c i' => i <= i' <= es b /\ toks_ok c) i.
Definition redirs_ok (rs : list (range * Z * Z)) : Prop := Forall (fun r => tok_ok (fst (fst r)) /\ (snd r = 0 \/ snd r = 1)) rs.

Lemma parseredirs_safe fuel rs i : 0 <= i <= es b -> es b - i < Z.of_nat fuel -> redirs_ok rs ->
  psafe (parseredirs b fuel rs) (fun rs' i' => i <= i' <= es b /\ redirs_ok rs') i.
Proof.
  revert rs i. induction fuel as [|fuel IH]; intros rs i Hi Hf Hr; [lia|]. cbn [parseredirs]. eapply safe_seq; [by apply peek_safe|cbn beta].
  intros p i1 [H1 H1']. destruct p; [|apply safe_ret; split; [lia|done]]. destruct (H1' eq_refl) as [_ Hlt].
  eapply safe_seq; [apply gettoken_safe; lia|cbn beta]. intros [[tok q0] e0] i2 (H2 & _ & _). eapply safe_seq; [apply gettoken_safe; lia|cbn beta].
  intros [[r q] e] i3 (H3 & Hp & Ht). destruct (Z.eqb_spec r 97) as [->|]; [|done]. cbn [negb]. assert (Hm : snd (redir_mode tok) = 0 \/ snd (redir_mode tok) = 1) by (unfold redir_mode; repeat case_match; simpl; auto). destruct (redir_mode tok) as [mode fd].
  specialize (Hp ltac:(by left)). eapply safe_conseq; [apply IH; [lia|lia|]|].
  - apply Forall_app. split; [done|]. apply Forall_singleton. cbn. split; [by apply Ht|done].
  - cbn beta. intros rs' i' [? ?]. split; [lia|done].
Qed.

Lemma redirs_safe i : 0 <= i <= es b -> psafe (redirs b) (fun rs' i' => i <= i' <= es b /\ redirs_ok rs') i.
Proof. intros Hi. apply parseredirs_safe; [done|unfold es in *; lia|constructor]. Qed.

Lemma redircmd_ok c rs : toks_ok c -> redirs_ok rs -> toks_ok (redircmd c rs).
Proof.
  unfold redircmd. revert c. induction rs as [|[[t m] f] rs IH]; intros c Hc Hr; [done|]. inversion Hr; subst. cbn [foldl]. apply IH; done.
Qed.

(** A token taken after [peek] found one. *)
Lemma next_safe i : 0 <= i < es b -> psafe (gettoken b) (fun _ i' => i < i' <= es b) i.
Proof. intros Hi. eapply safe_conseq; [apply gettoken_safe; lia|]. cbn beta. intros [[r q] e] i' (H & Hp & _). specialize (Hp ltac:(by right; lia)). lia. Qed.

Lemma parseblock_safe pl i : 0 <= i <= es b -> (forall j, i < j <= es b -> parses pl j) -> parses (parseblock b pl) i.
Proof.
  intros Hi Hpl. unfold parses, parseblock. eapply safe_seq; [by apply peek_safe|cbn beta]. intros p i1 [H1 H1']. destruct p; [|done]. destruct (H1' eq_refl) as [_ Hlt].
  cbn [negb]. eapply safe_seq; [apply next_safe; lia|cbn beta]. intros ? i2 H2. eapply safe_seq; [apply Hpl; lia|cbn beta]. intros c i3 [H3 Hc].
  eapply safe_seq; [apply peek_safe; lia|cbn beta]. intros p i4 [H4 H4']. destruct p; [|done]. destruct (H4' eq_refl) as [_ Hlt4]. cbn [negb].
  eapply safe_seq; [apply next_safe; lia|cbn beta]. intros ? i5 H5. eapply safe_seq; [apply redirs_safe; lia|cbn beta]. intros rs i6 [H6 Hr]. apply safe_ret. split; [lia|by apply redircmd_ok].
Qed.

Lemma exec_loop_safe fuel argv rs i : 0 <= i <= es b -> es b - i < Z.of_nat fuel -> (length argv < 10)%nat /\ Forall tok_ok argv -> redirs_ok rs ->
  psafe (exec_loop b fuel argv rs) (fun r i' => i <= i' <= es b /\ ((length (fst r) < 10)%nat /\ Forall tok_ok (fst r)) /\ redirs_ok (snd r)) i.
Proof.
  revert argv rs i. induction fuel as [|fuel IH]; intros argv rs i Hi Hf Ha Hr; [lia|]. cbn [exec_loop]. eapply safe_seq; [by apply peek_safe|cbn beta].
  intros p i1 [H1 _]. destruct p; [apply safe_ret; split; [lia|done]|]. eapply safe_seq; [apply gettoken_safe; lia|cbn beta].
  intros [[tok q] e] i2 (H2 & Hp & Ht). destruct (Z.eqb_spec tok 0); [apply safe_ret; split; [lia|done]|].
  destruct (Z.eqb_spec tok 97) as [E|]; [|done]. cbn [negb]. specialize (Hp ltac:(by left)). destruct (Z.leb_spec MAXARGS (Z.of_nat (length (argv ++ [(q, e)])))) as [|Hmax]; [done|].
  eapply safe_seq; [apply redirs_safe; lia|cbn beta]. intros rs' i3 [H3 Hr3]. eapply safe_conseq; [apply IH; [lia|lia| |]|].
  - split; [unfold MAXARGS in Hmax; lia|]. apply Forall_app. split; [apply Ha|]. apply Forall_singleton. by apply Ht.
  - apply Forall_app. by split.
  - cbn beta. intros r i' (? & ? & ?). split; [lia|done].
Qed.

Lemma parseexec_safe pl i : 0 <= i <= es b -> (forall j, i < j <= es b -> parses pl j) -> parses (parseexec b pl) i.
Proof.
  intros Hi Hpl. unfold parses, parseexec. eapply safe_seq; [by apply peek_safe|cbn beta]. intros p i1 [H1 _]. destruct p.
  - eapply safe_conseq; [apply parseblock_safe; [lia|]|]; [intros j Hj; apply Hpl; lia|]. cbn beta. intros c i2 [? ?]. split; [lia|done].
  - eapply safe_seq; [apply redirs_safe; lia|cbn beta]. intros rs i2 [H2 Hr]. eapply safe_seq; [apply exec_loop_safe; [lia|unfold es in *; lia|split; [simpl; lia|constructor]|done]|cbn beta].
    intros [argv rs'] i3 (H3 & Ha & Hr3). apply safe_ret. split; [lia|]. by apply redircmd_ok.
Qed.

Lemma parsepipe_safe fuel pl i : 0 <= i <= es b -> es b - i < Z.of_nat fuel -> (forall j, i < j <= es b -> parses pl j) -> parses (parsepipe b fuel pl) i.
Proof.
  revert i. induction fuel as [|fuel IH]; intros i Hi Hf Hpl; [lia|]. unfold parses. cbn [parsepipe]. eapply safe_seq; [by apply parseexec_safe|cbn beta]. intros c i1 [H1 Hc].
  eapply safe_seq; [apply peek_safe; lia|cbn beta]. intros p i2 [H2 H2']. destruct p; [|apply safe_ret; split; [lia|done]]. destruct (H2' eq_refl) as [_ Hlt].
  eapply safe_seq; [apply next_safe; lia|cbn beta]. intros ? i3 H3. eapply safe_seq; [apply IH; [lia|lia|intros j Hj; apply Hpl; lia]|cbn beta]. intros c' i4 [H4 Hc']. apply safe_ret. by split; [lia|].
Qed.

Lemma back_loop_safe fuel c i : 0 <= i <= es b -> es b - i < Z.of_nat fuel -> toks_ok c -> parses (back_loop b fuel c) i.
Proof.
  revert c i. induction fuel as [|fuel IH]; intros c i Hi Hf Hc; [lia|]. unfold parses. cbn [back_loop]. eapply safe_seq; [by apply peek_safe|cbn beta].
  intros p i1 [H1 H1']. destruct p; [|apply safe_ret; split; [lia|done]]. destruct (H1' eq_refl) as [_ Hlt]. eapply safe_seq; [apply next_safe; lia|cbn beta]. intros ? i2 H2.
  eapply safe_conseq; [apply IH; [lia|lia|done]|]. cbn beta. intros c' i' [? ?]. split; [lia|done].
Qed.

Lemma parseline_safe fuel i : 0 <= i <= es b -> es b - i < Z.of_nat fuel -> parses (parseline b fuel) i.
Proof.
  revert i. induction fuel as [|fuel IH]; intros i Hi Hf; [lia|]. unfold parses. cbn [parseline].
  assert (Hpl : forall j, i < j <= es b -> parses (parseline b fuel) j) by (intros j Hj; apply IH; lia).
  eapply safe_seq; [apply parsepipe_safe; [done|unfold es in *; lia|done]|cbn beta]. intros c i1 [H1 Hc]. eapply safe_seq; [apply back_loop_safe; [lia|unfold es in *; lia|done]|cbn beta].
  intros c1 i2 [H2 Hc1]. eapply safe_seq; [apply peek_safe; lia|cbn beta]. intros p i3 [H3 H3']. destruct p; [|apply safe_ret; split; [lia|done]]. destruct (H3' eq_refl) as [_ Hlt].
  eapply safe_seq; [apply next_safe; lia|cbn beta]. intros ? i4 H4. eapply safe_seq; [apply Hpl; lia|cbn beta]. intros c' i5 [H5 Hc']. apply safe_ret. by split; [lia|].
Qed.

(** ** The strings after [nulterminate] *)

(** The array with NULs stored only where the line has no character of a word. *)
Definition cut (m : list Z) : Prop :=
  length m = S (length b) /\ forall k, 0 <= k -> aget m k = aget b k \/ isword (aget b k) = false /\ aget m k = 0.

Lemma cut_start : cut (b ++ [0]).
Proof.
  split; [rewrite length_app; simpl; lia|]. intros k Hk. left. unfold aget. destruct (decide (Z.to_nat k < length b)%nat); [by rewrite app_nth1|].
  rewrite app_nth2 by lia. rewrite nth_overflow with (l := b) by lia. by destruct (Z.to_nat k - length b)%nat as [|[]].
Qed.

Lemma cut_aset m t : cut m -> tok_ok t -> cut (aset m (snd t) 0).
Proof.
  intros [Hl Hm] (H1 & H2 & _ & H4). split; [by rewrite length_aset|]. intros k Hk. destruct (decide (k = snd t)) as [->|].
  - right. split; [done|]. apply aget_aset_eq. unfold es in *. lia.
  - rewrite aget_aset_ne by lia. by apply Hm.
Qed.

(** A string is as it was on the line, once its end is marked. *)
Definition marked (m : list Z) (t : range) : Prop := aget m (snd t) = 0.

Lemma aset_marked m t t' : cut m -> tok_ok t -> tok_ok t' -> marked m t \/ t = t' -> marked (aset m (snd t') 0) t.
Proof.
  intros [Hl _] (H1 & H2 & _) (H3 & H4 & _) H. unfold marked. destruct (decide (snd t = snd t')) as [E|E].
  - rewrite E. apply aget_aset_eq. unfold es in *. lia.
  - rewrite aget_aset_ne by lia. destruct H as [H|[= ->]]; done.
Qed.

Lemma cstring_marked m t : cut m -> tok_ok t -> marked m t -> cstring (drop (Z.to_nat (fst t)) m) = slice b (fst t) (snd t - fst t).
Proof.
  destruct t as [q e]. intros [Hl Hm] (H1 & H2 & H3 & H4) Hk. unfold marked in Hk. cbn [fst snd] in *. unfold slice.
  assert (H : forall n q', Z.of_nat n = e - q' -> q <= q' -> cstring (drop (Z.to_nat q') m) = take n (drop (Z.to_nat q') b)).
  { induction n as [|n IH]; intros q' Hn Hq.
    - assert (q' = e) as -> by lia. simpl. destruct (drop (Z.to_nat e) m) as [|x l] eqn:E; [done|]. cbn [cstring].
      assert (Ex : aget m e = x) by (unfold aget; rewrite nth_lookup, <-(Nat.add_0_r (Z.to_nat e)), <-lookup_drop, E; done). by rewrite <-Ex, Hk.
    - assert (Hw : isword (aget b q') = true) by (apply H3; lia).
      assert (Em : aget m q' = aget b q') by (destruct (Hm q') as [?|[? _]]; [lia|done|congruence]).
      unfold es in *. rewrite (drop_S m (aget m q') (Z.to_nat q')) by (unfold aget; apply lookup_nth; lia).
      rewrite (drop_S b (aget b q') (Z.to_nat q')) by (unfold aget; apply lookup_nth; lia). cbn [cstring take]. rewrite Em.
      assert (Ez : aget b q' <> 0) by (apply aget_in; unfold es; lia). rewrite (proj2 (Z.eqb_neq _ _)) by done. f_equal.
      specialize (IH (q' + 1) ltac:(lia) ltac:(lia)). replace (Z.to_nat (q' + 1)) with (S (Z.to_nat q')) in IH by lia. done. }
  replace (Z.to_nat (e - q)) with (Z.to_nat (e - q)) by done. apply H; lia.
Qed.


Lemma foldl_nul argv m : Forall tok_ok argv -> cut m ->
  cut (foldl (fun m '(_, e) => aset m e 0) m argv) /\ (forall t, tok_ok t -> marked m t \/ t ∈ argv -> marked (foldl (fun m '(_, e) => aset m e 0) m argv) t).
Proof.
  revert m. induction argv as [|[q e] argv IH]; intros m Ht Hm; [split; [done|]; intros t _ [?|H]; [done|by apply not_elem_of_nil in H]|].
  inversion Ht as [|? ? H1 H2]; subst. cbn [foldl]. destruct (IH (aset m e 0) H2 (cut_aset m (q, e) Hm H1)) as [R1 R2]. split; [done|]. intros t Hok H. apply R2; [done|].
  destruct H as [H|[->|H]%elem_of_cons]; [left|left|by right].
  - apply (aset_marked m t (q, e)); auto.
  - apply (aset_marked m (q, e) (q, e)); auto.
Qed.

Lemma nulterminate_spec c : toks_ok c -> forall m, cut m ->
  cut (nulterminate c m) /\ (forall t, tok_ok t -> marked m t -> marked (nulterminate c m) t) /\ cmd_forall (marked (nulterminate c m)) c.
Proof.
  assert (Himp : forall (P Q : range -> Prop) c, (forall t, tok_ok t -> P t -> Q t) -> toks_ok c -> cmd_forall P c -> cmd_forall Q c).
  { intros P Q c' HPQ. induction c' as [argv|c' IH [q e] m f|l IHl r IHr|l IHl r IHr|c' IH]; cbn; intros Ht HP; destruct_and?; split_and?; auto.
    match goal with H1 : Forall tok_ok _, H2 : Forall P _ |- _ => eapply Forall_impl; [apply Forall_and; split; [exact H1|exact H2]|] end. naive_solver. }
  induction c as [argv|c IH [q e] mo f|l IHl r IHr|l IHl r IHr|c IH]; intros Ht m Hm; cbn in *.
  - destruct Ht as [Hlen Ht]. destruct (foldl_nul argv m Ht Hm) as [R1 R2]. split_and!; [done|auto|done|]. apply Forall_forall. intros t Hin. apply R2; [|by right].
    by eapply Forall_forall in Ht.
  - destruct Ht as (Hc & Hf & Hfd). destruct (IH Hc m Hm) as (R1 & R2 & R3). pose proof (cut_aset _ (q, e) R1 Hf). split_and!; [done| | | |done].
    + intros t Hok H1. apply (aset_marked _ t (q, e)); auto.
    + eapply Himp; [|exact Hc|exact R3]. intros t Hok H1. apply (aset_marked _ t (q, e)); auto.
    + apply (aset_marked _ (q, e) (q, e)); auto.
  - destruct Ht as [H1 H2]. destruct (IHl H1 m Hm) as (R1 & R2 & R3). destruct (IHr H2 _ R1) as (S1 & S2 & S3). split_and!; [done|auto| |done]. by eapply Himp; [|exact H1|exact R3].
  - destruct Ht as [H1 H2]. destruct (IHl H1 m Hm) as (R1 & R2 & R3). destruct (IHr H2 _ R1) as (S1 & S2 & S3). split_and!; [done|auto| |done]. by eapply Himp; [|exact H1|exact R3].
  - by apply IH.
Qed.

(** The text of a string. *)
Definition text (t : range) : list Z := slice b (fst t) (snd t - fst t).

Lemma strings_text c : toks_ok c -> strings (nulterminate c (b ++ [0])) c = cmd_map text c.
Proof.
  intros Ht. destruct (nulterminate_spec c Ht _ cut_start) as (Hc & _ & Hm). set (m := nulterminate c (b ++ [0])) in *. clearbody m. unfold strings.
  assert (E : forall t, tok_ok t -> marked m t -> (let '(q, _) := t in cstring (drop (Z.to_nat q) m)) = text t) by (intros [q e] ? ?; by apply (cstring_marked m (q, e))).
  induction c as [argv|c IH t mo f|l IHl r IHr|l IHl r IHr|c IH]; cbn in *; destruct_and?; f_equal; auto.
  apply map_ext_in. intros t Hin%list_elem_of_In. rewrite Forall_forall in *. auto.
Qed.

Definition word (w : list Z) : Prop := w <> [] /\ Forall (fun c => isword c = true) w.

Lemma text_word t : tok_ok t -> word (text t).
Proof.
  destruct t as [q e]. intros (H1 & H2 & H3 & _). cbn [fst snd] in *. unfold text. cbn [fst snd]. unfold es in *. split.
  - intros E%(f_equal length). rewrite length_slice in E by lia. simpl in E. lia.
  - apply Forall_lookup. intros i x Hx. rewrite lookup_slice in Hx. case_decide; [|done]. specialize (H3 (q + Z.of_nat i) ltac:(lia)). unfold aget in H3.
    rewrite (nth_lookup_Some b _ _ x) in H3; [done|]. rewrite <-Hx. f_equal. lia.
Qed.

Lemma cmd_map_word c : toks_ok c -> cmd_forall word (cmd_map text c).
Proof.
  induction c as [argv|c IH t mo f|l IHl r IHr|l IHl r IHr|c IH]; cbn; intros; destruct_and?; split_and?; auto using text_word.
  - by rewrite length_map.
  - apply Forall_map. eapply Forall_impl; [done|]. apply text_word.
Qed.
End Total.

Lemma parse_words b : 0 ∉ b -> match parse b with Ok c _ => cmd_forall word c | Panic _ => True | _ => False end.
Proof.
  intros Hb. unfold parse. assert (H : safe syntax (let* '(c, m) := parsecmd b in ret (strings m c)) (fun c _ => cmd_forall word c) 0).
  { eapply (safe_seq _ _ _ (fun cm _ => toks_ok b (fst cm) /\ snd cm = nulterminate (fst cm) (b ++ [0]))).
    - unfold parsecmd. eapply safe_seq; [apply (parseline_safe b Hb); unfold es; lia|cbn beta]. intros c i [Hi Hc]. eapply safe_seq; [apply (peek_safe b); lia|cbn beta].
      intros _ i1 _. apply safe_bind, safe_get. cbn beta. by destruct (negb _).
    - intros [c m] i [Hc Hm]. cbn [fst snd] in Hc, Hm. subst m. apply safe_ret. rewrite strings_text by done. by apply cmd_map_word. }
  unfold safe in H. by destruct ((let* '(c, m) := parsecmd b in ret (strings m c)) 0).
Qed.



(** ** Reading back what is written out *)

(** The redirections the shell knows. *)
Definition redir_sym (mode fd : Z) : option (list Z) :=
  if (mode =? O_RDONLY) && (fd =? 0) then Some [60]
  else if (mode =? Z.lor (Z.lor O_WRONLY O_CREATE) O_TRUNC) && (fd =? 1) then Some [62]
  else if (mode =? Z.lor O_WRONLY O_CREATE) && (fd =? 1) then Some [62; 62]
  else None.

(** A command written out, with parentheses around its parts. *)
Fixpoint print (c : cmd (list Z)) : list Z :=
  match c with
  | EXEC argv => concat (map (fun w => w ++ [32]) argv)
  | REDIR c file mode fd => [40] ++ print c ++ [41] ++ default [] (redir_sym mode fd) ++ file ++ [32]
  | PIPE l r => [40] ++ print l ++ [41; 124; 40] ++ print r ++ [41]
  | LIST l r => [40] ++ print l ++ [41; 59; 40] ++ print r ++ [41]
  | BACK c => [40] ++ print c ++ [41; 38]
  end.

Fixpoint printable (c : cmd (list Z)) : Prop :=
  match c with
  | EXEC argv => (length argv < 10)%nat /\ Forall word argv
  | REDIR c file mode fd => printable c /\ word file /\ is_Some (redir_sym mode fd)
  | PIPE l r | LIST l r => printable l /\ printable r
  | BACK c => printable c
  end.

(** A concatenation written flat. *)
Ltac flat H := repeat (progress rewrite <-?app_assoc in H; cbn [app] in H).

Section Print.
Variable b : list Z.

(** What is left of the line. *)
Definition left (i : Z) (l : list Z) : Prop := 0 <= i /\ drop (Z.to_nat i) b = l.
Definition solid (l : list Z) : Prop := match l with c :: _ => iswhite c = false | [] => True end.

Lemma left_aget i c l : left i (c :: l) -> aget b i = c /\ i < es b /\ left (i + 1) l.
Proof.
  intros [Hi E]. assert (Hl : b !! Z.to_nat i = Some c) by (by rewrite <-(Nat.add_0_r (Z.to_nat i)), <-lookup_drop, E). pose proof (lookup_lt_Some _ _ _ Hl).
  split; [by apply nth_lookup_Some|]. split; [unfold es; lia|]. split; [lia|]. replace (Z.to_nat (i + 1)) with (Z.to_nat i + 1)%nat by lia. by rewrite <-drop_drop, E.
Qed.
Lemma left_nil i : left i [] -> aget b i = 0 /\ es b <= i.
Proof. intros [Hi E%(f_equal length)]. rewrite length_drop in E. simpl in E. split; [apply aget_out|]; unfold es; lia. Qed.
Lemma left_app i w l : left i (w ++ l) -> left (i + Z.of_nat (length w)) l.
Proof.
  intros [Hi E]. split; [lia|]. rewrite Z2Nat.inj_add, Nat2Z.id by lia. rewrite <-drop_drop, E. by rewrite drop_app_length.
Qed.

Lemma skip_here p i l : left i l -> match l with c :: _ => p c = false | [] => True end -> skip_from b p i = i.
Proof.
  intros Hl Hp. unfold skip_from. destruct l as [|c l].
  - apply left_nil in Hl as [_ ?]. replace (Z.to_nat (es b - i)) with 0%nat by lia. done.
  - apply left_aget in Hl as (E & H & _). destruct (Z.to_nat (es b - i)) as [|n]; [done|]. cbn [skip]. by rewrite E, Hp.
Qed.

Lemma skip_over p i w l : Forall (fun c => p c = true) w -> left i (w ++ l) -> match l with c :: _ => p c = false | [] => True end ->
  skip_from b p i = i + Z.of_nat (length w).
Proof.
  revert i. induction w as [|c w IH]; intros i Hw Hl Hp; [rewrite Z.add_0_r; by eapply skip_here|]. inversion Hw as [|? ? Hc Hw']; subst.
  apply left_aget in Hl as (E & H & Hl'). assert (Es : skip_from b p i = skip_from b p (i + 1)).
  { unfold skip_from. destruct (Z.to_nat (es b - i)) as [|n] eqn:En; [lia|]. cbn [skip]. rewrite E, Hc. f_equal. lia. }
  rewrite Es, IH by done. simpl. lia.
Qed.

Lemma peek_at toks i l : left i l -> solid l -> peek b toks i = Ok (match l with c :: _ => negb (c =? 0) && member c toks | [] => false end) i.
Proof.
  intros Hl Hs. unfold peek, bind, get, modify, ret. cbn. rewrite (skip_here iswhite i l Hl) by (by destruct l). destruct l as [|c l].
  - by rewrite (proj1 (left_nil _ Hl)).
  - by rewrite (proj1 (left_aget _ _ _ Hl)).
Qed.

(** A symbol of one character, and a word. *)
Lemma gettoken_sym i c l :
  left i (c :: l) -> solid l -> member c [124; 40; 41; 59; 38; 60] = true -> gettoken b i = Ok (c, i, i + 1) (i + 1).
Proof.
  intros Hl Hs Hc. destruct (left_aget _ _ _ Hl) as (E & Hi & Hl'). unfold gettoken, bind, get, modify, ret. cbn zeta beta.
  rewrite (skip_here iswhite i _ Hl) by (unfold member in Hc; simpl in Hc; unfold iswhite, whitespace, member; simpl; lia). rewrite E.
  assert (c <> 0) by (intros ->; done). rewrite (proj2 (Z.eqb_neq _ _)) by done. rewrite Hc. by rewrite (skip_here iswhite (i + 1) l Hl') by (by destruct l).
Qed.

Lemma gettoken_word i w l :
  left i (w ++ 32 :: l) -> solid l -> word w -> gettoken b i = Ok (97, i, i + Z.of_nat (length w)) (i + Z.of_nat (length w) + 1).
Proof.
  intros Hl Hs [Hne Hw]. pose proof (proj1 Hl) as Hi0. destruct w as [|c w]; [done|]. inversion Hw as [|? ? Hc _]; subst. destruct (left_aget _ _ _ Hl) as (E & Hi & _).
  unfold gettoken, bind, get, modify, ret. cbn zeta beta. unfold isword in Hc. apply andb_prop in Hc as [[Hc1 Hc2]%andb_prop Hc3].
  rewrite (skip_here iswhite i _ Hl) by (by apply negb_true_iff in Hc2). rewrite E. rewrite (proj2 (Z.eqb_neq c 0)) by lia. destruct (member c [124; 40; 41; 59; 38; 60]) eqn:Em; [unfold member, symbols in *; simpl in *; lia|].
  destruct (Z.eqb_spec c 62); [unfold member, symbols in *; simpl in *; lia|].
  rewrite (skip_over _ i (c :: w) (32 :: l)); [|eapply Forall_impl; [exact Hw|]; intros x Hx; unfold isword in Hx; by apply andb_prop in Hx as [[_ ->]%andb_prop ->]|done|done].
  apply left_app, left_aget in Hl as (E32 & _ & Hl'). set (e := i + Z.of_nat (length (c :: w))) in *.
  assert (Es : skip_from b iswhite e = e + 1).
  { rewrite (skip_over iswhite e [32] l); [done|by apply Forall_singleton| |by destruct l]. destruct Hl' as [He El]. split; [subst e; lia|]. cbn [app]. rewrite <-El, <-E32.
    replace (Z.to_nat (e + 1)) with (S (Z.to_nat e)) by (subst e; lia). apply drop_S, lookup_nth. assert (aget b e <> 0) by (rewrite E32; done).
    destruct (decide (Z.to_nat e < length b)%nat); [done|]. unfold aget in *. by rewrite nth_overflow in * by lia. }
  by rewrite Es.
Qed.

(** The redirection symbols. *)
Lemma gettoken_redir i mode fd s l :
  left i (s ++ l) -> match l with c :: _ => isword c = true | [] => False end -> redir_sym mode fd = Some s ->
  exists tok, gettoken b i = Ok (tok, i, i + Z.of_nat (length s)) (i + Z.of_nat (length s)) /\ redir_mode tok = (mode, fd).
Proof.
  intros Hl Hw Hs. destruct l as [|c l]; [done|]. unfold isword, member, whitespace, symbols in Hw. simpl in Hw.
  assert (Hc : iswhite c = false) by (unfold iswhite, member, whitespace; simpl; lia).
  unfold redir_sym in Hs. repeat match type of Hs with (if ?x then _ else _) = _ => destruct x eqn:? end; try done; injection Hs as <-.
  - exists 60. split; [by eapply gettoken_sym|]. unfold redir_mode. simpl. f_equal; lia.
  - exists 62. split; [|unfold redir_mode; simpl; f_equal; lia]. destruct (left_aget _ _ _ Hl) as (E & Hi & Hl'). destruct (left_aget _ _ _ Hl') as (E' & Hi' & _).
    unfold gettoken, bind, get, modify, ret. cbn zeta beta. rewrite (skip_here iswhite i _ Hl) by reflexivity. rewrite E. cbn [Z.eqb Pos.eqb member existsb orb]. rewrite E'.
    destruct (Z.eqb_spec c 62); [lia|]. rewrite (skip_here iswhite (i + 1) _ Hl') by exact Hc. done.
  - exists 43. split; [|unfold redir_mode; simpl; f_equal; lia]. destruct (left_aget _ _ _ Hl) as (E & Hi & Hl'). destruct (left_aget _ _ _ Hl') as (E' & Hi' & Hl'').
    unfold gettoken, bind, get, modify, ret. cbn zeta beta. rewrite (skip_here iswhite i _ Hl) by reflexivity. rewrite E. cbn [Z.eqb Pos.eqb member existsb orb]. rewrite E'. cbn [Z.eqb Pos.eqb].
    replace (i + 1 + 1) with (i + 2) in Hl'' by lia. rewrite (skip_here iswhite (i + 2) _ Hl'') by exact Hc. done.
Qed.

(** A line ends at the end of the text or at a closing parenthesis. *)
Definition ends (l : list Z) : Prop := l = [] \/ exists l', l = 41 :: l'.

Lemma ends_solid l : ends l -> solid l.
Proof. by intros [->|[l' ->]]. Qed.

Lemma peek_ends toks i l : left i l -> ends l -> member 41 toks = false -> peek b toks i = Ok false i.
Proof. intros Hl He Ht. rewrite (peek_at toks i l Hl (ends_solid l He)). destruct He as [->|[l' ->]]; [done|]. by rewrite Ht. Qed.

Lemma solid_print c l : printable c -> solid l -> solid (print c ++ l).
Proof.
  destruct c as [argv| | | |]; try done. cbn [printable print]. intros [_ Hw] Hs. destruct argv as [|w argv]; [done|]. inversion Hw as [|? ? [Hne Hc] _]; subst.
  destruct w as [|c w]; [done|]. inversion Hc as [|? ? H _]; subst. simpl. unfold isword in H. apply andb_prop in H as [[_ H]%andb_prop _]. by apply negb_true_iff in H.
Qed.

Lemma text_at i w l : left i (w ++ l) -> text b (i, i + Z.of_nat (length w)) = w.
Proof.
  intros [Hi E]. unfold text, slice. cbn [fst snd]. replace (Z.to_nat (i + Z.of_nat (length w) - i)) with (length w) by lia. rewrite E. by rewrite take_app_length.
Qed.

Lemma redirs_none i l : left i l -> solid l -> match l with c :: _ => member c [60; 62] = false | [] => True end -> redirs b i = Ok [] i.
Proof.
  intros Hl Hs Hc. unfold redirs. cbn [parseredirs]. rewrite (bind_ok _ _ _ _ _ (peek_at _ i l Hl Hs)). destruct l as [|c l]; [done|]. rewrite Hc. by rewrite andb_false_r.
Qed.

Lemma redirs_one i s f mode fd l :
  left i (s ++ f ++ 32 :: l) -> redir_sym mode fd = Some s -> word f -> ends l ->
  exists t j, redirs b i = Ok [(t, mode, fd)] j /\ text b t = f /\ left j l.
Proof.
  intros Hl Hs Hf He. destruct (gettoken_redir i mode fd s _ Hl) as (tok & Et & Em); [|done|].
  { destruct Hf as [Hne Hc]. destruct f as [|c f]; [done|]. by inversion Hc. }
  set (j := i + Z.of_nat (length s)) in *. assert (Hj : left j (f ++ 32 :: l)) by (by apply left_app).
  set (k := j + Z.of_nat (length f)). assert (Hk : left (k + 1) l) by (apply left_app, left_aget in Hj as (_ & _ & ?); done).
  exists (j, k), (k + 1). split; [|split; [by eapply text_at|done]]. unfold redirs. destruct (length b) as [|n] eqn:En.
  { destruct Hl as [_ El%(f_equal length)]. rewrite length_drop, !length_app in El. simpl in El. lia. }
  assert (Hp : peek b [60; 62] i = Ok true i).
  { assert (Hsol : solid (s ++ f ++ 32 :: l) /\ exists c l', s = c :: l' /\ negb (c =? 0) && member c [60; 62] = true).
    { unfold redir_sym in Hs. repeat match type of Hs with (if ?x then _ else _) = _ => destruct x end; try done; injection Hs as <-; (split; [done|]); eauto. }
    destruct Hsol as [Hsol (c & l' & -> & Hc)]. rewrite (peek_at _ i _ Hl Hsol). cbn [app]. by rewrite Hc. }
  cbn [parseredirs]. rewrite (bind_ok _ _ _ _ _ Hp). rewrite (bind_ok _ _ _ _ _ Et). rewrite (bind_ok _ _ _ _ _ (gettoken_word j f l Hj (ends_solid l He) Hf)). cbn [Z.eqb Pos.eqb negb].
  rewrite Em. cbn [parseredirs]. fold k. by rewrite (bind_ok _ _ _ _ _ (peek_ends [60; 62] (k + 1) l Hk He eq_refl)).
Qed.

Lemma gettoken_end i : left i [] -> gettoken b i = Ok (0, i, i) i.
Proof.
  intros Hl. destruct (left_nil _ Hl) as [E _]. unfold gettoken, bind, get, modify, ret. cbn zeta beta. rewrite !(skip_here iswhite i [] Hl) by done. rewrite E. cbn. by rewrite (skip_here iswhite i [] Hl).
Qed.

Lemma exec_loop_print ws fuel argv i l :
  left i (concat (map (fun w => w ++ [32]) ws) ++ l) -> ends l -> Forall word ws -> (length argv + length ws < 10)%nat -> (length ws < fuel)%nat ->
  exists ts j, exec_loop b fuel argv [] i = Ok (argv ++ ts, []) j /\ map (text b) ts = ws /\ left j l.
Proof.
  revert fuel argv i. induction ws as [|w ws IH]; intros fuel argv i Hl He Hw Hn Hf; (destruct fuel as [|fuel]; [lia|]); cbn [exec_loop].
  - exists [], i. rewrite app_nil_r. split; [|done]. cbn [map concat app] in Hl. rewrite (bind_ok _ _ _ _ _ (peek_at _ i l Hl (ends_solid l He))). destruct He as [->|[l' ->]]; [|done].
    by rewrite (bind_ok _ _ _ _ _ (gettoken_end i Hl)).
  - inversion Hw as [|? ? H1 H2]; subst. cbn [map concat] in Hl. flat Hl. set (rest := concat (map (fun w => w ++ [32]) ws) ++ l) in *.
    assert (Hrest : solid rest /\ match rest with c :: _ => member c [60; 62] = false | [] => True end).
    { subst rest. destruct ws as [|w' ws]; [by destruct He as [->|[l' ->]]|]. inversion H2 as [|? ? [Hne Hc] _]; subst. destruct w' as [|c w']; [done|]. inversion Hc as [|? ? Hx _]; subst.
      simpl. unfold isword, iswhite, whitespace, symbols, member in *. simpl in *. lia. }
    assert (Hp : peek b [124; 41; 38; 59] i = Ok false i).
    { destruct H1 as [Hne Hc]. destruct w as [|c w]; [done|]. inversion Hc as [|? ? Hx _]; subst. unfold isword, whitespace, symbols, member in Hx. simpl in Hx.
      rewrite (peek_at _ i _ Hl) by (simpl; unfold iswhite, whitespace, member; simpl; lia). cbn [app]. f_equal. unfold member. simpl. lia. }
    rewrite (bind_ok _ _ _ _ _ Hp), (bind_ok _ _ _ _ _ (gettoken_word i w rest Hl (proj1 Hrest) H1)). cbn [Z.eqb Pos.eqb negb].
    rewrite length_app. change (length [(i, i + Z.of_nat (length w))]) with 1%nat.
    destruct (Z.leb_spec MAXARGS (Z.of_nat (length argv + 1))) as [Hm|_]; [unfold MAXARGS in Hm; simpl in Hn; lia|].
    set (j := i + Z.of_nat (length w) + 1). assert (Hj : left j rest) by (apply left_app, left_aget in Hl as (_ & _ & ?); done).
    rewrite (bind_ok _ _ _ _ _ (redirs_none j rest Hj (proj1 Hrest) (proj2 Hrest))). cbn [app].
    destruct (IH fuel (argv ++ [(i, i + Z.of_nat (length w))]) j Hj He H2) as (ts & k & Ek & Et & Hk); [rewrite length_app; simpl in *; lia|simpl in *; lia|].
    exists ((i, i + Z.of_nat (length w)) :: ts), k. rewrite Ek, <-app_assoc. split; [done|]. split; [|done]. cbn [map]. by rewrite (text_at i w _ Hl), Et.
Qed.

(** The parser [m] at [i] reads the command [c], and [l] is left. *)
Definition reads (m : M Z (cmd range)) i (c : cmd (list Z)) l : Prop := exists c' j, m i = Ok c' j /\ left j l /\ cmd_map (text b) c' = c.

(** The command that [parseline] reads from its printed form is the command. *)
Definition line_ok (fuel : nat) (c : cmd (list Z)) : Prop :=
  forall i l, left i (print c ++ l) -> ends l -> 0 <= es b - i < Z.of_nat fuel -> reads (parseline b fuel) i c l.

Lemma left_len i l : left i l -> l <> [] -> es b - i = Z.of_nat (length l).
Proof. intros [Hi E] Hne. destruct l as [|c l]; [done|]. apply (f_equal length) in E. rewrite length_drop in E. simpl in *. unfold es. lia. Qed.

(** A block, with what comes after its parenthesis. *)
Lemma parse_block (R : list (range * Z * Z) -> Z -> Prop) fuel c i l :
  printable c -> line_ok fuel c -> left i (40 :: print c ++ 41 :: l) -> es b - i <= Z.of_nat fuel -> solid l ->
  (forall k, left k l -> exists rs j, redirs b k = Ok rs j /\ R rs j) ->
  exists c' rs j, parseexec b (parseline b fuel) i = Ok (redircmd c' rs) j /\ R rs j /\ cmd_map (text b) c' = c.
Proof.
  intros Hp IH Hl Hf Hs Hr. destruct (left_aget _ _ _ Hl) as (_ & Hi & Hl').
  assert (Hsol : solid (print c ++ 41 :: l)) by (by apply solid_print).
  assert (Epk : peek b [40] i = Ok true i) by (by rewrite (peek_at _ i _ Hl)).
  unfold parseexec. rewrite (bind_ok _ _ _ _ _ Epk). unfold parseblock. rewrite (bind_ok _ _ _ _ _ Epk). cbn [negb].
  rewrite (bind_ok _ _ _ _ _ (gettoken_sym i 40 _ Hl Hsol eq_refl)). destruct (IH (i + 1) (41 :: l) Hl') as (c' & k & Ek & Hk & Ec); [right; by exists l|lia|].
  rewrite (bind_ok _ _ _ _ _ Ek). assert (Epk2 : peek b [41] k = Ok true k) by (by rewrite (peek_at _ k _ Hk)). rewrite (bind_ok _ _ _ _ _ Epk2). cbn [negb].
  rewrite (bind_ok _ _ _ _ _ (gettoken_sym k 41 l Hk Hs eq_refl)). destruct (left_aget _ _ _ Hk) as (_ & _ & Hk'). destruct (Hr _ Hk') as (rs & j & Er & HR).
  rewrite (bind_ok _ _ _ _ _ Er). by exists c', rs, j.
Qed.

(** A block without redirections. *)
Lemma parse_block0 fuel c i l :
  printable c -> line_ok fuel c -> left i (40 :: print c ++ 41 :: l) -> es b - i <= Z.of_nat fuel -> solid l ->
  match l with x :: _ => member x [60; 62] = false | [] => True end -> reads (parseexec b (parseline b fuel)) i c l.
Proof.
  intros Hp IH Hl Hf Hs Hx. destruct (parse_block (fun rs j => rs = [] /\ left j l) fuel c i l Hp IH Hl Hf Hs) as (c' & rs & j & E & [-> Hj] & Ec).
  - intros k Hk. exists [], k. split; [by apply (redirs_none k l)|done].
  - by exists c', j.
Qed.

(** The end of [parsepipe] and of [parseline] at the end of a line. *)
Lemma pipe_end fuel pl i c l : reads (parseexec b pl) i c l -> ends l -> reads (parsepipe b (S fuel) pl) i c l.
Proof. intros (c' & j & E & Hj & Ec) He. exists c', j. cbn [parsepipe]. rewrite (bind_ok _ _ _ _ _ E), (bind_ok _ _ _ _ _ (peek_ends [124] j l Hj He eq_refl)). done. Qed.

Lemma line_end fuel i c l : reads (parsepipe b (S (length b)) (parseline b fuel)) i c l -> ends l -> reads (parseline b (S fuel)) i c l.
Proof.
  intros (c' & j & E & Hj & Ec) He. exists c', j. cbn [parseline]. rewrite (bind_ok _ _ _ _ _ E). cbn [back_loop].
  assert (Eb : (let* p := peek b [38] in if p then gettoken b ;;; back_loop b (length b) (BACK c') else ret c') j = Ok c' j)
    by (by rewrite (bind_ok _ _ _ _ _ (peek_ends [38] j l Hj He eq_refl))).
  rewrite (bind_ok _ _ _ _ _ Eb), (bind_ok _ _ _ _ _ (peek_ends [59] j l Hj He eq_refl)). done.
Qed.

Lemma line_block fuel c i l : printable c -> line_ok fuel c -> left i (40 :: print c ++ 41 :: l) -> es b - i <= Z.of_nat fuel -> ends l -> reads (parseline b (S fuel)) i c l.
Proof.
  intros Hp IH Hl Hf He. apply line_end; [|done]. apply pipe_end; [|done]. apply parse_block0; try done; [by apply ends_solid|]. by destruct He as [->|[l' ->]].
Qed.

Lemma line_exec fuel argv : printable (EXEC argv) -> line_ok (S fuel) (EXEC argv).
Proof.
  intros [Hn Hw] i l Hl He Hf. apply line_end; [|done]. apply pipe_end; [|done]. cbn [print] in Hl.
  assert (Hsol : solid (concat (map (fun w => w ++ [32]) argv) ++ l)) by (apply (solid_print (EXEC argv)); [done|by apply ends_solid]).
  assert (Hh : match concat (map (fun w => w ++ [32]) argv) ++ l with x :: _ => member x [40] = false /\ member x [60; 62] = false | [] => True end).
  { destruct argv as [|w argv]; [by destruct He as [->|[l' ->]]|]. inversion Hw as [|? ? [Hne Hc] _]; subst. destruct w as [|c w]; [done|]. inversion Hc as [|? ? Hx _]; subst.
    simpl. unfold isword, whitespace, symbols, member in *. simpl in *. lia. }
  assert (Ep : peek b [40] i = Ok false i).
  { rewrite (peek_at _ i _ Hl Hsol). destruct (concat _ ++ l); [done|]. destruct Hh as [-> _]. by rewrite andb_false_r. }
  destruct (exec_loop_print argv (S (length b)) [] i l Hl He Hw) as (ts & j & Ej & Et & Hj); [simpl; lia| |].
  { destruct Hl as [_ El%(f_equal length)]. rewrite length_drop, length_app in El. assert (Hle : (length argv <= length (concat (map (fun w => w ++ [32%Z]) argv)))%nat); [|lia].
    clear. induction argv; simpl; [lia|]. rewrite !length_app. simpl. lia. }
  exists (EXEC ts), j. split_and!; [|done|cbn [cmd_map]; by rewrite Et]. unfold parseexec. rewrite (bind_ok _ _ _ _ _ Ep).
  rewrite (bind_ok _ _ _ _ _ (redirs_none i _ Hl Hsol ltac:(destruct (concat _ ++ l); [done|by destruct Hh]))). by rewrite (bind_ok _ _ _ _ _ Ej).
Qed.

Lemma line_redir fuel c f mode fd : printable (REDIR c f mode fd) -> line_ok fuel c -> line_ok (S fuel) (REDIR c f mode fd).
Proof.
  intros (Hp & Hf & [s Hs]) IH i l Hl He Hfu. apply line_end; [|done]. apply pipe_end; [|done]. cbn [print] in Hl. rewrite Hs in Hl. change (default [] (Some s)) with s in Hl.
  flat Hl.
  destruct (parse_block (fun rs j => exists t, rs = [(t, mode, fd)] /\ text b t = f /\ left j l) fuel c i _ Hp IH Hl) as (c' & rs & j & E & (t & -> & Et & Hj) & Ec).
  - lia.
  - unfold redir_sym in Hs. repeat match type of Hs with (if ?x then _ else _) = _ => destruct x end; try done; by injection Hs as <-.
  - intros k Hk. destruct (redirs_one k s f mode fd l Hk Hs Hf He) as (t & j & Er & Et & Hj). exists [(t, mode, fd)], j. split; [done|]. by exists t.
  - exists (REDIR c' t mode fd), j. split_and!; [done|done|]. cbn [cmd_map]. by rewrite Ec, Et.
Qed.

Lemma line_pipe fuel c1 c2 : printable c1 -> printable c2 -> line_ok fuel c1 -> line_ok fuel c2 -> line_ok (S fuel) (PIPE c1 c2).
Proof.
  intros Hp1 Hp2 IH1 IH2 i l Hl He Hf. apply line_end; [|done]. cbn [print] in Hl. flat Hl.
  destruct (parse_block0 fuel c1 i _ Hp1 IH1 Hl ltac:(lia) eq_refl eq_refl) as (c1' & j & Ej & Hj & Ec1). destruct (left_aget _ _ _ Hj) as (_ & Hlt & Hj').
  pose proof (left_len _ _ Hl ltac:(done)) as L1. pose proof (left_len _ _ Hj ltac:(done)) as L2. simpl in L1, L2. rewrite !length_app in L1. simpl in L1. rewrite length_app in L1, L2. simpl in L1, L2.
  destruct (length b) as [|n] eqn:En; [pose proof (proj1 Hj); unfold es in *; lia|]. destruct (pipe_end n (parseline b fuel) (j + 1) c2 l) as (c2' & k & Ek & Hk & Ec2); [|done|].
  { apply parse_block0; try done; [lia|by apply ends_solid|]. by destruct He as [->|[l' ->]]. }
  exists (PIPE c1' c2'), k. split_and!; [|done|cbn [cmd_map]; by rewrite Ec1, Ec2]. cbn [parsepipe]. rewrite (bind_ok _ _ _ _ _ Ej).
  assert (Epk : peek b [124] j = Ok true j) by (by rewrite (peek_at _ j _ Hj)). rewrite (bind_ok _ _ _ _ _ Epk), (bind_ok _ _ _ _ _ (gettoken_sym j 124 _ Hj eq_refl eq_refl)).
  by rewrite (bind_ok _ _ _ _ _ Ek).
Qed.

(** A block in front of a symbol that ends its pipeline. *)
Lemma pipe_block fuel n c i x l :
  printable c -> line_ok fuel c -> left i (40 :: print c ++ 41 :: x :: l) -> es b - i <= Z.of_nat fuel ->
  iswhite x = false -> member x [60; 62] = false -> member x [124] = false -> reads (parsepipe b (S n) (parseline b fuel)) i c (x :: l).
Proof.
  intros Hp IH Hl Hf Hx1 Hx2 Hx3. destruct (parse_block0 fuel c i (x :: l) Hp IH Hl Hf Hx1 Hx2) as (c' & j & E & Hj & Ec). exists c', j. split; [|done].
  cbn [parsepipe]. rewrite (bind_ok _ _ _ _ _ E), (bind_ok _ _ _ _ _ (peek_at _ j _ Hj Hx1)). by rewrite Hx3, andb_false_r.
Qed.

Lemma line_list fuel c1 c2 : printable c1 -> printable c2 -> line_ok fuel c1 -> line_ok (pred fuel) c2 -> line_ok (S fuel) (LIST c1 c2).
Proof.
  intros Hp1 Hp2 IH1 IH2 i l Hl He Hf. cbn [print] in Hl. flat Hl.
  destruct (pipe_block fuel (length b) c1 i 59 _ Hp1 IH1 Hl ltac:(lia) eq_refl eq_refl eq_refl) as (c1' & j & Ej & Hj & Ec1). destruct (left_aget _ _ _ Hj) as (_ & Hlt & Hj').
  pose proof (left_len _ _ Hl ltac:(done)) as L1. pose proof (left_len _ _ Hj ltac:(done)) as L2. simpl in L1, L2. rewrite !length_app in L1. simpl in L1. rewrite length_app in L1, L2. simpl in L1, L2.
  destruct fuel as [|fuel]; [lia|]. destruct (line_block fuel c2 (j + 1) l Hp2 IH2 Hj' ltac:(lia) He) as (c2' & k & Ek & Hk & Ec2).
  exists (LIST c1' c2'), k. split_and!; [|done|cbn [cmd_map]; by rewrite Ec1, Ec2].
  set (pl := parseline b (S fuel)) in *. cbn [parseline]. fold pl. rewrite (bind_ok _ _ _ _ _ Ej).
  assert (Eb : back_loop b (S (length b)) c1' j = Ok c1' j) by (cbn [back_loop]; by rewrite (bind_ok _ _ _ _ _ (peek_at [38] j _ Hj eq_refl))).
  assert (Epk : peek b [59] j = Ok true j) by (by rewrite (peek_at _ j _ Hj)).
  rewrite (bind_ok _ _ _ _ _ Eb), (bind_ok _ _ _ _ _ Epk), (bind_ok _ _ _ _ _ (gettoken_sym j 59 _ Hj eq_refl eq_refl)), (bind_ok _ _ _ _ _ Ek). done.
Qed.

Lemma line_back fuel c : printable c -> line_ok fuel c -> line_ok (S fuel) (BACK c).
Proof.
  intros Hp IH i l Hl He Hf. cbn [print] in Hl. flat Hl.
  destruct (pipe_block fuel (length b) c i 38 _ Hp IH Hl ltac:(lia) eq_refl eq_refl eq_refl) as (c' & j & Ej & Hj & Ec). destruct (left_aget _ _ _ Hj) as (_ & Hlt & Hj').
  exists (BACK c'), (j + 1). split_and!; [|done|cbn [cmd_map]; by rewrite Ec]. cbn [parseline]. rewrite (bind_ok _ _ _ _ _ Ej).
  assert (Epk : peek b [38] j = Ok true j) by (by rewrite (peek_at _ j _ Hj)).
  assert (Eb : back_loop b (S (length b)) c' j = Ok (BACK c') (j + 1)).
  { destruct (length b) as [|n] eqn:En; [pose proof (proj1 Hj); unfold es in *; lia|]. cbn [back_loop].
    rewrite (bind_ok _ _ _ _ _ Epk), (bind_ok _ _ _ _ _ (gettoken_sym j 38 _ Hj (ends_solid l He) eq_refl)). by rewrite (bind_ok _ _ _ _ _ (peek_ends [38] (j + 1) l Hj' He eq_refl)). }
  rewrite (bind_ok _ _ _ _ _ Eb), (bind_ok _ _ _ _ _ (peek_ends [59] (j + 1) l Hj' He eq_refl)). done.
Qed.

Lemma line_print c : printable c -> forall fuel, line_ok fuel c.
Proof.
  induction c as [argv|c IH f mo fd|c1 IH1 c2 IH2|c1 IH1 c2 IH2|c IH]; intros Hp [|fuel]; try (intros i l _ _ ?; lia).
  - by apply line_exec.
  - apply line_redir; [done|]. by apply IH, Hp.
  - destruct Hp. apply line_pipe; auto.
  - destruct Hp. apply line_list; auto.
  - apply line_back; [done|]. by apply IH.
Qed.
End Print.

Lemma printable_nonul c : printable c -> 0 ∉ print c.
Proof.
  assert (Hw : forall w, word w -> 0 ∉ w) by (intros w [_ Hc] Hin; rewrite Forall_forall in Hc; by apply Hc in Hin).
  assert (Hn : 0 ∉ @nil Z) by apply not_elem_of_nil.
  induction c as [argv|c IH f mo fd|c1 IH1 c2 IH2|c1 IH1 c2 IH2|c IH]; cbn [printable print]; intros Hp; rewrite ?not_elem_of_app, ?not_elem_of_cons.
  - destruct Hp as [_ Ha]. induction argv as [|w argv IHa]; cbn [map concat]; [done|]. inversion Ha; subst. rewrite !not_elem_of_app, not_elem_of_cons. auto 10.
  - destruct Hp as (Hp & Hf & [s Hs]). rewrite Hs. change (default [] (Some s)) with s. assert (0 ∉ s); [|by auto 10].
    unfold redir_sym in Hs. repeat match type of Hs with (if ?x then _ else _) = _ => destruct x end; try done; injection Hs as <-; rewrite !not_elem_of_cons; auto.
  - destruct Hp. auto 10.
  - destruct Hp. auto 10.
  - auto 10.
Qed.

(** C21. The parser of the shell reads back every command that is written out: for every command of words, with at most nine arguments in each list
    and the redirections the shell has, parsing its text, with parentheses around the parts of lists, pipes, background commands
    and redirections, gives the command. *)
Theorem parse_print c : printable c -> parse (print c) = Ok c (es (print c)).
Proof.
  intros Hp. pose proof (printable_nonul c Hp) as Hb. set (b := print c) in *.
  assert (Hl : left b 0 (print c ++ [])) by (split; [lia|]; rewrite app_nil_r; by rewrite drop_0).
  destruct (line_print b c Hp (S (length b)) 0 [] Hl) as (c' & j & E & Hj & Ec); [by left|unfold es; lia|].
  destruct (left_nil b j Hj) as [_ Hj2]. pose proof (parseline_safe b Hb (S (length b)) 0 ltac:(unfold es; lia) ltac:(unfold es; lia)) as Hs. unfold parses, safe in Hs. rewrite E in Hs.
  destruct Hs as [Hle Ht]. assert (j = es b) as -> by lia. unfold parse, parsecmd. unfold bind at 1. rewrite (bind_ok _ _ _ _ _ E), (bind_ok _ _ _ _ _ (peek_at b [] (es b) [] Hj I)).
  unfold bind, get, ret. rewrite Z.eqb_refl. cbn [negb]. rewrite (strings_text b Hb c' Ht), Ec. done.
Qed.

(** [((echo hi )>f )&] *)
Definition print_demo : cmd (list Z) := BACK (REDIR (EXEC [[101; 99; 104; 111]; [104; 105]]) [102] (Z.lor (Z.lor O_WRONLY O_CREATE) O_TRUNC) 1).

Lemma parse_print_witness : parse (print print_demo) = Ok print_demo (es (print print_demo)).
Proof.
  apply parse_print. split_and!; [split; [simpl; lia|repeat constructor; discriminate]|split; [discriminate|repeat constructor]|exists [62]; reflexivity].
Defined.
