(* ===== verification/ShHist.v ===== *)
(** The command history of the shell, user/sh.c: a doubly linked list of lines between two sentinels.

    The list elements are the first fields of the history lines, so a pointer to an element is a sentinel or the block [malloc] gave.  A
    C string is the list of its characters before the NUL. *)

From S2P Require Import CString Prelude Bytes Ulib.

(** user/sh.c:13 *)
Definition MAX_HISTORY_LEN : Z := 100.
(** user/sh.c:14 *)
Definition MAX_LINE_LEN : Z := 100.

(** A [struct list_elem *]. *)
Inductive elem := Head | Tail | Elem (n : nat).
#[export] Instance elem_eq_dec : EqDecision elem.
Proof. solve_decision. Defined.

(** user/sh.c:27-31: the number and the text. *)
Record history_line := Line { line_num : Z; line_str : list Z }.

(** user/sh.c:16-35: the links of the elements, with a null pointer for [None], the lines and the next number. *)
Record hist := Hist {
  e_prev : elem -> option elem;
  e_next : elem -> option elem;
  h_lines : gmap nat history_line;
  history_index : Z }.
#[export] Instance eta_hist : Eta hist := fun h => Hist (e_prev h) (e_next h) (h_lines h) (history_index h).

Definition put (f : elem -> option elem) (a : elem) (v : option elem) : elem -> option elem := fun x => if decide (x = a) then v else f x.
Definition set_prev (a : elem) (v : option elem) : M hist unit := modify (fun h => h <| e_prev := put (e_prev h) a v |>).
Definition set_next (a : elem) (v : option elem) : M hist unit := modify (fun h => h <| e_next := put (e_next h) a v |>).
(** A pointer that is followed. *)
Definition deref (p : option elem) : M hist elem := match p with Some a => ret a | None => undef "null" end.

(** user/sh.c:57-62 *)
Definition list_init : M hist unit :=
  set_prev Head None ;;;
  set_next Head (Some Tail) ;;;
  set_prev Tail (Some Head) ;;;
  set_next Tail None.

(** user/sh.c:76-81 *)
Definition list_push_back (e : elem) : M hist unit :=
  let* h := get in
  set_prev e (e_prev h Tail) ;;;
  set_next e (Some Tail) ;;;
  let* h := get in
  let* p := deref (e_prev h Tail) in
  set_next p (Some e) ;;;
  set_prev Tail (Some e).

(** user/sh.c:83-90 *)
Definition list_pop_front : M hist (option elem) :=
  let* h := get in
  let* e := deref (e_next h Head) in
  if decide (e = Tail) then ret None
  else
    set_next Head (e_next h e) ;;;
    let* h := get in
    let* n := deref (e_next h e) in
    set_prev n (Some Head) ;;;
    ret (Some e).

(** [dst[i] = c] in a [char[100]]. *)
Definition store_char (dst : list Z) (i c : Z) : M hist (list Z) :=
  if (0 <=? i) && (i <? Z.of_nat (length dst)) then ret (aset dst i c) else undef "line_str".

(** user/sh.c:49-54, from index [i] on. *)
Fixpoint my_strncpy (fuel : nat) (dst src : list Z) (i n : Z) : M hist (list Z) :=
  match fuel with
  | O => nofuel
  | S fuel' =>
      if (i <? n) && negb (aget src i =? 0) then
        let* dst := store_char dst i (aget src i) in
        my_strncpy fuel' dst src (i + 1) n
      else store_char dst i 0
  end.

(** user/sh.c:136-165; [blk] is the block [malloc] gives, with what is in its [line_str]. *)
Definition history_add (blk : option (nat * list Z)) (buf : list Z) : M hist unit :=
  match blk with
  | None => panic "history_add(): malloc"
  | Some (hlp, str) =>
      let* str := store_char str 0 0 in
      let len := Z.of_nat (length buf) in
      if len =? 0 then undef "buf[-1]"
      else
        let off := if aget buf (len - 1) =? 10 then 2 else 1 in
        let* str := my_strncpy (S (length buf)) str buf 0 (len - off) in
        let* str := store_char str (len - off) 0 in
        modify (fun h => h <| h_lines := <[hlp := Line (history_index h) str]> (h_lines h) |>) ;;;
        list_push_back (Elem hlp) ;;;
        let* h := get in
        (if MAX_HISTORY_LEN <? history_index h then
           let* e := list_pop_front in
           match e with
           | Some (Elem n) => modify (fun h => h <| h_lines := delete n (h_lines h) |>)
           | _ => undef "list_entry"
           end
         else ret tt) ;;;
        modify (fun h => h <| history_index := s32 (history_index h + 1) |>)
  end.

(** The line an element is part of, and its text. *)
Definition list_entry (h : hist) (e : elem) : M hist history_line :=
  match e with
  | Elem n => match h_lines h !! n with Some l => ret l | None => undef "list_entry" end
  | _ => undef "list_entry"
  end.
Fixpoint cstr0 (l : list Z) : list Z :=
  match l with
  | [] => []
  | c :: l' => if c =? 0 then [] else c :: cstr0 l'
  end.

(** The elements from [e] to the tail, the loops of user/sh.c:174-175 and 179-184. *)
Fixpoint elems_from (fuel : nat) (h : hist) (e : elem) : M hist (list elem) :=
  match fuel with
  | O => nofuel
  | S fuel' =>
      if decide (e = Tail) then ret []
      else
        let* n := deref (e_next h e) in
        let* l := elems_from fuel' h n in
        ret (e :: l)
  end.
Fixpoint show_loop (h : hist) (l : list elem) (count start : Z) : M hist (list (Z * list Z)) :=
  match l with
  | [] => ret []
  | e :: l' =>
      let* hl := list_entry h e in
      let* out := show_loop h l' (count + 1) start in
      ret (if start <=? count then (line_num hl, cstr0 (line_str hl)) :: out else out)
  end.

(** user/sh.c:167-185: the lines it prints. *)
Definition history_show (fuel : nat) : M hist (list (Z * list Z)) :=
  let* h := get in
  let* e := deref (e_next h Head) in
  let* l := elems_from fuel h e in
  let total := Z.of_nat (length l) in
  show_loop h l 0 (if 10 <? total then total - 10 else 0).

(** What [history_run] does: it runs a line after printing it, or prints a message, or returns. *)
Inductive hrun := HRun (line : list Z) | HNoPrevious | HNotFound (n : Z) | HNothing.

(** The search from the tail, user/sh.c:209-215. *)
Fixpoint find_line (fuel : nat) (h : hist) (e : elem) (index : Z) : M hist (option history_line) :=
  match fuel with
  | O => nofuel
  | S fuel' =>
      if decide (e = Head) then ret None
      else
        let* hl := list_entry h e in
        if line_num hl =? index then ret (Some hl)
        else
          let* p := deref (e_prev h e) in
          find_line fuel' h p index
  end.

(** user/sh.c:187-224 *)
Definition history_run (fuel : nat) (buf : list Z) : M hist hrun :=
  let* h := get in
  if (aget buf 0 =? 33) && (aget buf 1 =? 33) && (aget buf 2 =? 0) then
    let* e := deref (e_prev h Tail) in
    if decide (e = Head) then ret HNoPrevious
    else
      let* hl := list_entry h e in
      ret (HRun (cstr0 (line_str hl)))
  else if (aget buf 0 =? 33) && (48 <=? aget buf 1) && (aget buf 1 <=? 57) then
    match atoi (aget (tail buf)) (S (length buf)) with
    | None => nofuel
    | Some index =>
        let* e := deref (e_prev h Tail) in
        let* r := find_line fuel h e index in
        ret (match r with Some hl => HRun (cstr0 (line_str hl)) | None => HNotFound index end)
    end
  else ret HNothing.

(** ** The list of elements *)

Implicit Types h : hist.

(** The elements [l] lie between [a] and [z], linked both ways. *)
Fixpoint chain h (a : elem) (l : list elem) (z : elem) : Prop :=
  match l with
  | [] => e_next h a = Some z /\ e_prev h z = Some a
  | b :: l' => e_next h a = Some b /\ e_prev h b = Some a /\ chain h b l' z
  end.

Lemma hchain_app h a l1 b l2 z : chain h a (l1 ++ b :: l2) z <-> chain h a l1 b /\ chain h b l2 z.
Proof. revert a. induction l1 as [|c l1 IH]; intros a; cbn [app chain]; [tauto|]. rewrite IH. tauto. Qed.

Lemma hchain_prev h a l z : chain h a l z -> e_prev h z = Some (List.last l a).
Proof.
  revert a. induction l as [|b l IH]; intros a; [by intros [_ ?]|]. intros (_ & _ & H). rewrite (IH b H). destruct l; [done|]. simpl. f_equal. clear. revert e. induction l; simpl; auto.
Qed.

(** Links of other elements may change. *)
Lemma hchain_frame h h' a l z :
  (forall x, x ∈ a :: l -> e_next h' x = e_next h x) -> (forall x, x ∈ l ++ [z] -> e_prev h' x = e_prev h x) -> chain h a l z -> chain h' a l z.
Proof.
  revert a. induction l as [|b l IH]; intros a Hn Hp; cbn [chain].
  - intros [H1 H2]. split; [rewrite Hn by set_solver; done|rewrite Hp by set_solver; done].
  - intros (H1 & H2 & H3). split_and!; [rewrite Hn by set_solver; done|rewrite Hp by set_solver; done|]. apply IH; [|intros x Hx; apply Hp; set_solver|done]. intros x Hx. apply Hn. set_solver.
Qed.

Lemma put_eq f a v : put f a v a = v.
Proof. unfold put. by rewrite decide_True. Qed.
Lemma put_ne f a v x : x <> a -> put f a v x = f x.
Proof. intros H. unfold put. by rewrite decide_False. Qed.

(** The history: its elements are the blocks [ns]. *)
Definition linked h (ns : list nat) : Prop := chain h Head (map Elem ns) Tail /\ NoDup ns.

Lemma elem_in n ns : Elem n ∈ map Elem ns <-> n ∈ ns.
Proof. rewrite list_elem_of_fmap. split; [by intros (? & [= ->] & ?)|]. intros H. by exists n. Qed.

Lemma linked_frame h h' ns : e_next h' = e_next h -> e_prev h' = e_prev h -> linked h ns -> linked h' ns.
Proof. intros E1 E2 [Hc Hnd]. split; [|done]. apply (hchain_frame h); [by rewrite E1|by rewrite E2|done]. Qed.

Lemma list_init_linked h : wp list_init (fun _ h' => linked h' [] /\ h_lines h' = h_lines h /\ history_index h' = history_index h) h.
Proof. unfold list_init, set_prev, set_next. wp_steps. split; [|done]. split; [|constructor]. done. Qed.

Lemma push_back_linked h ns n : linked h ns -> n ∉ ns ->
  wp (list_push_back (Elem n)) (fun _ h' => linked h' (ns ++ [n]) /\ h_lines h' = h_lines h /\ history_index h' = history_index h) h.
Proof.
  intros [Hc Hnd] Hn. unfold list_push_back, set_prev, set_next, deref. pose proof (hchain_prev _ _ _ _ Hc) as Hp.
  apply wp_bind, wp_get, wp_bind, wp_modify, wp_bind, wp_modify, wp_bind, wp_get. cbn [e_prev e_next]. cbn. rewrite put_ne by done. rewrite Hp. wp_steps. split; [|done].
  split; [|apply NoDup_app; split_and!; [done|set_solver|apply NoDup_singleton]]. rewrite map_app. cbn [map].
  destruct ns as [|m ns _] using rev_ind; cbn [map List.last app].
  - cbn. unfold put. repeat case_decide; by simplify_eq.
  - rewrite map_app in *. cbn [map] in *. rewrite List.last_last. apply hchain_app in Hc as [Hc1 [Hc2 Hc3]]. rewrite <-app_assoc. cbn [app].
    apply NoDup_app in Hnd as (Hnd & Hm & _). assert (Hmn : m ∉ ns) by (intros ?; apply (Hm m); set_solver).
    apply hchain_app. split.
    + apply (hchain_frame h); [| |done].
      * intros x Hx. cbn. rewrite !put_ne; [done|..]; intros ->; apply elem_of_cons in Hx as [?|Hx%elem_in]; try done; set_solver.
      * intros x Hx. change (x ∈ map Elem ns ++ map Elem [m]) in Hx. rewrite <-map_app in Hx. apply list_elem_of_fmap in Hx as (k & -> & Hk). cbn.
        rewrite !put_ne; [done|intros [= ->]; by apply Hn|done].
    + cbn. assert (Hne : Elem n <> Elem m) by (intros [= ->]; set_solver). unfold put. repeat case_decide; by simplify_eq.
Qed.

Lemma pop_front_linked h n ns : linked h (n :: ns) ->
  wp list_pop_front (fun r h' => r = Some (Elem n) /\ linked h' ns /\ h_lines h' = h_lines h /\ history_index h' = history_index h) h.
Proof.
  intros [Hc Hnd]. apply NoDup_cons in Hnd as [Hn Hnd]. cbn [map chain] in Hc. destruct Hc as (H1 & H2 & Hc). unfold list_pop_front, set_prev, set_next, deref.
  apply wp_bind, wp_get. rewrite H1. apply wp_bind, wp_ret. rewrite decide_False by done. apply wp_bind, wp_modify, wp_bind, wp_get. cbn. rewrite put_ne by done.
  destruct ns as [|m ns]; cbn [map chain] in Hc; [destruct Hc as [H3 H4]|destruct Hc as (H3 & H4 & Hc)]; rewrite H3; wp_steps; (split; [done|]); (split; [|done]); (split; [|done]).
  - cbn. unfold put. repeat case_decide; by simplify_eq.
  - cbn [map chain]. cbn. rewrite !put_eq. split_and!; [done|done|]. apply NoDup_cons in Hnd as [Hm _]. apply (hchain_frame h); [| |done].
    + intros x Hx. cbn. rewrite put_ne; [done|]. intros ->. apply elem_of_cons in Hx as [?|Hx]; [done|]. by apply list_elem_of_fmap in Hx as (? & ? & _).
    + intros x Hx. cbn. rewrite put_ne; [done|]. intros ->. apply elem_of_app in Hx as [Hx%elem_in|Hx%list_elem_of_singleton]; done.
Qed.

(** ** The text of a line *)

Lemma aset_app_mid l i c : 0 <= i < Z.of_nat (length l) -> aset l i c = take (Z.to_nat i) l ++ c :: drop (S (Z.to_nat i)) l.
Proof. intros Hi. unfold aset. apply insert_take_drop. lia. Qed.

Lemma cstr0_app w l : 0 ∉ w -> cstr0 (w ++ 0 :: l) = w.
Proof. induction w as [|c w IH]; intros H; simpl; [done|]. destruct (Z.eqb_spec c 0) as [->|]; [set_solver|]. rewrite IH by set_solver. done. Qed.

(** The copy stops at [n] characters, which are there. *)
Lemma my_strncpy_spec fuel dst src i n h :
  0 ∉ src -> 0 <= i <= n -> n <= Z.of_nat (length src) -> n < Z.of_nat (length dst) -> n - i < Z.of_nat fuel -> take (Z.to_nat i) dst = take (Z.to_nat i) src ->
  wp (my_strncpy fuel dst src i n) (fun r h' => h' = h /\ length r = length dst /\ exists l, r = take (Z.to_nat n) src ++ 0 :: l) h.
Proof.
  intros H0. revert dst i. induction fuel as [|fuel IH]; intros dst i Hi Hs Hd Hf Ht; [lia|]. cbn [my_strncpy]. destruct (Z.ltb_spec i n) as [Hlt|Hge].
  - assert (Hc : aget src i <> 0). { intros E. apply H0. rewrite <-E. unfold aget. apply list_elem_of_lookup. exists (Z.to_nat i). apply lookup_nth. lia. }
    rewrite (proj2 (Z.eqb_neq _ _)) by done. cbn [andb negb]. unfold store_char at 1. rewrite (proj2 (Z.leb_le 0 i)), (proj2 (Z.ltb_lt i (Z.of_nat (length dst)))) by lia. cbn [andb].
    apply wp_bind, wp_ret. eapply wp_conseq; [apply IH; rewrite ?length_aset; try lia|].
    + replace (Z.to_nat (i + 1)) with (S (Z.to_nat i)) by lia. rewrite aset_app_mid by lia.
      rewrite (take_S_r src (Z.to_nat i) (aget src i)) by (apply lookup_nth; lia).
      rewrite take_app_ge by (rewrite length_take; lia). rewrite length_take. replace (S (Z.to_nat i) - Z.to_nat i `min` length dst)%nat with 1%nat by lia. cbn [take]. by rewrite Ht.
    + cbn beta. intros r h' (-> & Hl & Hr). rewrite length_aset in Hl. done.
  - assert (i = n) as -> by lia. cbn [andb]. unfold store_char. rewrite (proj2 (Z.leb_le 0 n)), (proj2 (Z.ltb_lt n (Z.of_nat (length dst)))) by lia. cbn [andb]. apply wp_ret.
    rewrite length_aset. split_and!; [done|done|]. exists (drop (S (Z.to_nat n)) dst). rewrite aset_app_mid by lia. by rewrite Ht.
Qed.

(** What [history_add] keeps of a line: it drops the newline and one character more. *)
Definition saved (buf : list Z) : list Z := take (length buf - if aget buf (Z.of_nat (length buf) - 1) =? 10 then 2 else 1) buf.

(** ** The history as a list of numbered lines *)

Definition last_of {A} (k : nat) (l : list A) : list A := drop (length l - k) l.

Definition shows h (n : nat) (e : Z * list Z) : Prop := exists str, h_lines h !! n = Some (Line (fst e) str) /\ cstr0 str = snd e.

(** The history holds the last hundred lines, with their numbers. *)
Record keeps h (ns : list nat) (es : list (Z * list Z)) : Prop := {
  kp_linked : linked h ns;
  kp_shows : Forall2 (shows h) ns es;
  kp_index : 1 <= history_index h;
  kp_len : Z.of_nat (length es) = Z.min (history_index h - 1) 100;
  kp_nums : map fst es = seqZ (history_index h - Z.of_nat (length es)) (Z.of_nat (length es)) }.

Lemma keeps_start h : history_index h = 1 -> wp list_init (fun _ h' => keeps h' [] []) h.
Proof. intros E. eapply wp_conseq; [apply list_init_linked|]. intros _ h' (H1 & H2 & H3). split; rewrite ?H3, ?E; done. Qed.

Lemma keeps_nums_in h ns es k t : keeps h ns es -> (k, t) ∈ es -> 1 <= k < history_index h.
Proof.
  intros [] Hin. assert (Hk : k ∈ map fst es) by (apply list_elem_of_fmap; by exists (k, t)). rewrite kp_nums0 in Hk. apply elem_of_seqZ in Hk. lia.
Qed.

(** The entry with a number is the only one. *)
Lemma keeps_unique h ns es k t t' : keeps h ns es -> (k, t) ∈ es -> (k, t') ∈ es -> t = t'.
Proof.
  intros [] H1 H2. apply list_elem_of_lookup in H1 as [i1 H1], H2 as [i2 H2].
  assert (E : forall i x, es !! i = Some (k, x) -> k = history_index h - Z.of_nat (length es) + Z.of_nat i).
  { intros i x Hi. assert (Hm : map fst es !! i = Some k) by (rewrite list_lookup_fmap, Hi; done). rewrite kp_nums0 in Hm. apply lookup_seqZ in Hm. lia. }
  pose proof (E _ _ H1). pose proof (E _ _ H2). assert (i1 = i2) as -> by lia. congruence.
Qed.

Lemma shows_frame h h' n e : h_lines h' !! n = h_lines h !! n -> shows h n e -> shows h' n e.
Proof. intros E (str & H & Ht). exists str. by rewrite E. Qed.

Lemma store_ok dst i c h Q : 0 <= i < Z.of_nat (length dst) -> Q (aset dst i c) h -> wp (store_char dst i c) Q h.
Proof. intros Hi HQ. unfold store_char. rewrite (proj2 (Z.leb_le 0 i)), (proj2 (Z.ltb_lt i (Z.of_nat (length dst)))) by lia. done. Qed.

(** The text that goes into the new line. *)
Definition fill (str buf : list Z) : M hist (list Z) :=
  let* str := store_char str 0 0 in
  let len := Z.of_nat (length buf) in
  if len =? 0 then undef "buf[-1]"
  else
    let off := if aget buf (len - 1) =? 10 then 2 else 1 in
    let* str := my_strncpy (S (length buf)) str buf 0 (len - off) in
    store_char str (len - off) 0.

Lemma fill_spec str buf h :
  length str = 100%nat -> 0 ∉ buf -> buf <> [] -> buf <> [10] -> (length buf <= 99)%nat -> wp (fill str buf) (fun r h' => h' = h /\ cstr0 r = saved buf) h.
Proof.
  intros Hstr H0 Hne Hnl Hlen. unfold fill. apply wp_bind, store_ok; [lia|]. cbn zeta. set (len := Z.of_nat (length buf)).
  assert (Hpos : 0 < len) by (destruct buf; [done|subst len; simpl; lia]). rewrite (proj2 (Z.eqb_neq len 0)) by lia.
  set (off := if aget buf (len - 1) =? 10 then 2 else 1). assert (Hoff : 1 <= off <= 2 /\ off <= len).
  { subst off. destruct (Z.eqb_spec (aget buf (len - 1)) 10) as [E|E]; [|lia]. destruct (decide (len = 1)) as [E1|]; [|lia].
    exfalso. subst len. destruct buf as [|c [|]]; [done| |simpl in E1; lia]. rewrite E1 in E. apply Hnl. f_equal. exact E. }
  apply wp_bind. eapply wp_conseq; [apply my_strncpy_spec; rewrite ?length_aset; try done; subst len; lia|]. cbn beta. intros r h' (-> & Hl & l & Er). rewrite length_aset in Hl.
  apply store_ok; [lia|]. split; [done|]. rewrite Er. set (w := take (Z.to_nat (len - off)) buf) in *. assert (Hw : length w = Z.to_nat (len - off)) by (subst w; rewrite length_take; lia).
  unfold aset. rewrite <-Hw. rewrite <-(Nat.add_0_r (length w)), insert_app_r. cbn. rewrite cstr0_app.
  - unfold saved. fold len off. subst w. f_equal. subst off. destruct (_ =? 10); lia.
  - intros Hin. apply H0. rewrite <-(take_drop (Z.to_nat (len - off)) buf). apply elem_of_app. by left.
Qed.

Lemma history_add_fill n str buf h Q :
  wp (fill str buf) (fun str' => wp (
        modify (fun h => h <| h_lines := <[n := Line (history_index h) str']> (h_lines h) |>) ;;;
        list_push_back (Elem n) ;;;
        let* h := get in
        (if MAX_HISTORY_LEN <? history_index h then
           let* e := list_pop_front in
           match e with
           | Some (Elem n) => modify (fun h => h <| h_lines := delete n (h_lines h) |>)
           | _ => undef "list_entry"
           end
         else ret tt) ;;;
        modify (fun h => h <| history_index := s32 (history_index h + 1) |>)) Q) h ->
  wp (history_add (Some (n, str)) buf) Q h.
Proof.
  unfold fill, history_add, wp, bind. destruct (store_char str 0 0 h); try done. cbn zeta. destruct (_ =? 0); [done|]. destruct (my_strncpy _ _ _ _ _ _) as [dst s1| | | |]; try done.
  by destruct (store_char dst _ 0 s1).
Qed.

Lemma seqZ_snoc a n b : 0 <= n -> a + n = b -> seqZ a n ++ [b] = seqZ a (n + 1).
Proof. intros Hn <-. rewrite seqZ_app by lia. done. Qed.

(** The new line is in the list, before the oldest one goes. *)
Lemma shows_push h h2 ns es n idx str t :
  Forall2 (shows h) ns es -> n ∉ ns -> h_lines h2 = <[n := Line idx str]> (h_lines h) -> cstr0 str = t -> Forall2 (shows h2) (ns ++ [n]) (es ++ [(idx, t)]).
Proof.
  intros K Hn E Ht. apply Forall2_app.
  - revert Hn. induction K as [|m e ns es H1 K IH]; intros Hn; [constructor|]. constructor; [|apply IH; set_solver]. apply (shows_frame h); [|done]. rewrite E, lookup_insert_ne; [done|set_solver].
  - constructor; [|constructor]. exists str. rewrite E, lookup_insert_eq. done.
Qed.

Lemma shows_delete h h' n ns es : Forall2 (shows h) ns es -> n ∉ ns -> h_lines h' = delete n (h_lines h) -> Forall2 (shows h') ns es.
Proof.
  intros K Hn E. induction K as [|m e ns es H1 K IH]; constructor; [|apply IH; set_solver]. apply (shows_frame h); [|done]. rewrite E, lookup_delete_ne; [done|set_solver].
Qed.

Lemma history_add_keeps h ns es n str buf :
  keeps h ns es -> n ∉ ns -> length str = 100%nat -> 0 ∉ buf -> buf <> [] -> buf <> [10] -> (length buf <= 99)%nat -> history_index h < 2 ^ 31 - 1 ->
  wp (history_add (Some (n, str)) buf) (fun _ h' => exists ns', keeps h' ns' (last_of 100 (es ++ [(history_index h, saved buf)]))) h.
Proof.
  intros [K1 K2 K3 K4 K5] Hn Hstr H0 Hne Hnl Hlen Hidx. apply history_add_fill. eapply wp_conseq; [by apply fill_spec|]. intros str' h' [-> Hs]. apply wp_bind, wp_modify.
  set (h1 := h <| h_lines := _ |>). apply wp_bind. eapply wp_conseq; [apply (push_back_linked h1 ns n); [by apply (linked_frame h)|done]|]. cbn beta. intros _ h2 (L2 & Hl2 & Hi2). change (history_index h1) with (history_index h) in Hi2.
  assert (S2 : Forall2 (shows h2) (ns ++ [n]) (es ++ [(history_index h, saved buf)])) by (apply (shows_push h _ _ _ _ _ str'); [done|done|by rewrite Hl2|done]).
  clearbody h1. apply wp_bind, wp_get. rewrite Hi2. set (idx := history_index h) in *. unfold MAX_HISTORY_LEN.
  assert (Es32 : s32 (idx + 1) = idx + 1) by (apply s32_id; lia). unfold last_of. rewrite length_app. cbn [length]. destruct (Z.ltb_spec 100 idx) as [Hgt|Hle].
  - destruct es as [|e es]; [simpl in K4; lia|]. destruct ns as [|m ns]; [by inversion K2|]. cbn [app] in *. apply wp_bind, wp_bind. eapply wp_conseq; [by apply pop_front_linked|].
    cbn beta. intros r h3 (-> & L3 & Hl3 & Hi3). apply wp_modify, wp_modify. simpl in K4. replace (length (e :: es) + 1 - 100)%nat with 1%nat by (simpl; lia). rewrite skipn_cons, drop_0.
    exists (ns ++ [n]). inversion S2 as [|? ? ? ? _ S3]; subst. destruct L2 as [_ [Hm _]%NoDup_cons].
    split; cbn; rewrite ?Hi3, ?Hi2, ?Es32.
    + by apply (linked_frame h3).
    + eapply (shows_delete h2); [done|done|]. cbn. by rewrite Hl3.
    + lia.
    + rewrite length_app. simpl. lia.
    + rewrite map_app, length_app. cbn [map fst length] in *. rewrite seqZ_cons in K5 by lia. injection K5 as _ K5. rewrite K5. rewrite seqZ_snoc by lia. f_equal; lia.
  - apply wp_bind, wp_ret, wp_modify. replace (length es + 1 - 100)%nat with 0%nat by lia. rewrite drop_0. exists (ns ++ [n]). split; cbn; rewrite ?Hi2, ?Es32.
    + by apply (linked_frame h2).
    + eapply Forall2_impl; [exact S2|]. intros m e. by apply shows_frame.
    + lia.
    + rewrite length_app. simpl. lia.
    + rewrite map_app, length_app, K5. cbn [map fst length]. rewrite seqZ_snoc by lia. f_equal; lia.
Qed.

(** ** Showing the lines *)

Lemma elems_from_chain fuel h a l s : chain h a l Tail -> Tail ∉ l -> (length l < fuel)%nat -> exists e, e_next h a = Some e /\ elems_from fuel h e s = Ok l s.
Proof.
  revert a fuel. induction l as [|b l IH]; intros a fuel Hc Ht Hf; (destruct fuel as [|fuel]; [simpl in Hf; lia|]).
  - exists Tail. by destruct Hc.
  - destruct Hc as (H1 & _ & Hc). exists b. split; [done|]. cbn [elems_from]. rewrite decide_False by set_solver.
    destruct (IH b fuel Hc) as (e & He & Hr); [set_solver|simpl in Hf; lia|]. rewrite He. cbn. unfold bind. by rewrite Hr.
Qed.

Lemma show_loop_lines h ns es c start s : Forall2 (shows h) ns es -> show_loop h (map Elem ns) c start s = Ok (drop (Z.to_nat (start - c)) es) s.
Proof.
  intros K. revert c. induction K as [|n e ns es (str & Hl & Ht) K IH]; intros c; cbn [map show_loop]; [by rewrite drop_nil|].
  cbn [list_entry]. rewrite Hl. unfold bind, ret. rewrite IH. cbn. rewrite Ht. destruct (Z.leb_spec start c).
  - replace (Z.to_nat (start - (c + 1))) with 0%nat by lia. replace (Z.to_nat (start - c)) with 0%nat by lia. by destruct e.
  - replace (Z.to_nat (start - c)) with (S (Z.to_nat (start - (c + 1)))) by lia. done.
Qed.

Lemma history_show_spec h ns es : keeps h ns es -> wp (history_show (S (length ns))) (fun out h' => h' = h /\ out = last_of 10 es) h.
Proof.
  intros [[K1 _] K2 _ _ _]. destruct (elems_from_chain (S (length ns)) h Head (map Elem ns) h) as (e & He & Hr); [done| |rewrite length_map; lia|].
  - intros (? & ? & _)%list_elem_of_fmap. done.
  - unfold history_show, wp, bind, get. rewrite He. cbn [deref]. unfold ret. rewrite Hr, length_map, (show_loop_lines h ns es) by done. split; [done|].
    unfold last_of. rewrite (Forall2_length _ _ _ K2), Z.sub_0_r. f_equal. destruct (Z.ltb_spec 10 (Z.of_nat (length es))); lia.
Qed.

(** ** Running a line by its number *)

(** The value of a string of decimal digits. *)
Definition decval (n : Z) (ds : list Z) : Z := fold_left (fun n c => n * 10 + (c - 48)) ds n.
Definition digit (c : Z) : Prop := 48 <= c <= 57.

Lemma decval_ge ds n : Forall digit ds -> 0 <= n -> n <= decval n ds.
Proof.
  intros Hd. revert n. induction Hd as [|c ds Hc Hd IH]; intros n Hn; cbn; [lia|]. unfold digit in Hc. etransitivity; [|apply IH; lia]. lia.
Qed.

Lemma aget_mid p c q : aget (p ++ c :: q) (Z.of_nat (length p)) = c.
Proof. unfold aget. rewrite Nat2Z.id, app_nth2, Nat.sub_diag by lia. done. Qed.

Lemma atoi_from_digits p ds n fuel :
  Forall digit ds -> 0 <= n -> decval n ds < 2 ^ 31 -> (length ds < fuel)%nat -> atoi_from (aget (p ++ ds ++ [10])) (Z.of_nat (length p)) n fuel = Some (decval n ds).
Proof.
  intros Hd. revert p n fuel. induction Hd as [|c ds Hc Hd IH]; intros p n fuel Hn Hv Hf; (destruct fuel as [|fuel]; [simpl in Hf; lia|]); cbn [atoi_from app];
    rewrite aget_mid.
  - done.
  - unfold digit in Hc. rewrite (proj2 (Z.leb_le 48 c)), (proj2 (Z.leb_le c 57)) by lia. cbn [andb]. cbn [decval fold_left] in Hv. cbn [length] in Hf.
    pose proof (decval_ge ds (n * 10 + (c - 48)) Hd ltac:(lia)) as Hge.
    fold (decval (n * 10 + (c - 48)) ds) in Hv. replace (n * 10 + c - 48) with (n * 10 + (c - 48)) by lia. rewrite s32_id by lia.
    specialize (IH (p ++ [c]) (n * 10 + (c - 48)) fuel). rewrite <-app_assoc, length_app in IH. cbn [app length] in IH. rewrite Nat2Z.inj_add in IH. apply IH; lia.
Qed.

Lemma find_line_spec fuel h ns es z index s :
  chain h Head (map Elem ns) z -> Forall2 (shows h) ns es -> (length ns < fuel)%nat ->
  exists e, e_prev h z = Some e /\ exists r, find_line fuel h e index s = Ok r s /\
    match r with Some l => (index, cstr0 (line_str l)) ∈ es | None => index ∉ map fst es end.
Proof.
  revert es z fuel. induction ns as [|n ns IH] using rev_ind; intros es z fuel Hc K Hf; (destruct fuel as [|fuel]; [lia|]).
  - inversion K; subst. exists Head. split; [by destruct Hc|]. exists None. split; [done|]. set_solver.
  - rewrite map_app in Hc. cbn [map] in Hc. apply hchain_app in Hc as [Hc [_ Hz]]. exists (Elem n). split; [done|].
    apply Forall2_app_inv_l in K as (es1 & es2 & K & K2 & ->). inversion K2 as [|? e ? ? (str & Hl & Ht) K3]; subst. inversion K3; subst.
    cbn [find_line]. rewrite decide_False by done. cbn [list_entry]. rewrite Hl. unfold bind, ret. cbn [line_num]. destruct (Z.eqb_spec (fst e) index) as [<-|Hne].
    + exists (Some (Line (fst e) str)). split; [done|]. cbn [line_str]. rewrite Ht, <-surjective_pairing. set_solver.
    + rewrite length_app in Hf. destruct (IH es1 (Elem n) fuel Hc K) as (p & Hp & r & Hr & Hs); [simpl in Hf; lia|]. rewrite Hp. cbn [deref]. unfold ret. exists r. split; [done|].
      destruct r; [set_solver|]. rewrite map_app. cbn [map]. set_solver.
Qed.

Lemma history_run_spec h ns es ds :
  keeps h ns es -> ds <> [] -> Forall digit ds -> decval 0 ds < 2 ^ 31 ->
  wp (history_run (S (length ns)) (33 :: ds ++ [10])) (fun r h' => h' = h /\ ((exists t, (decval 0 ds, t) ∈ es /\ r = HRun t) \/ (~ (decval 0 ds ∈ map fst es) /\ r = HNotFound (decval 0 ds)))) h.
Proof.
  intros [[K1 _] K2 _ _ _] Hne Hd Hv. destruct (find_line_spec (S (length ns)) h ns es Tail (decval 0 ds) h) as (e & He & r & Hr & Hs); [done|done|lia|].
  assert (Ha : atoi (aget (ds ++ [10])) (S (length (33 :: ds ++ [10]))) = Some (decval 0 ds)) by (apply (atoi_from_digits []); [done|done|done|cbn; rewrite length_app; lia]).
  unfold history_run, wp, bind, get. destruct ds as [|c ds]; [done|]. inversion Hd as [|? ? Hc Hd']; subst. unfold digit in Hc.
  change (aget (33 :: (c :: ds) ++ [10]) 0) with 33. change (aget (33 :: (c :: ds) ++ [10]) 1) with c. rewrite (proj2 (Z.eqb_neq c 33)) by lia. cbn [andb Z.eqb Pos.eqb].
  rewrite (proj2 (Z.leb_le 48 c)), (proj2 (Z.leb_le c 57)) by lia. cbn [andb]. change (tail (33 :: (c :: ds) ++ [10])) with ((c :: ds) ++ [10]). rewrite Ha, He. cbn [deref]. unfold ret. rewrite Hr. split; [done|].
  destruct r as [l|]; [left; by eexists|by right].
Qed.


(** A history with one line. *)
Definition hist1 : hist :=
  Hist (put (put (fun _ => None) Tail (Some (Elem 7))) (Elem 7) (Some Head)) (put (put (fun _ => None) Head (Some (Elem 7))) (Elem 7) (Some Tail))
    {[7%nat := Line 1 [108; 115; 0]]} 2.

Lemma hist1_keeps : keeps hist1 [7%nat] [(1, [108; 115])].
Proof.
  split; [| |cbn; lia|done|done].
  - split; [|apply NoDup_singleton]. done.
  - constructor; [|constructor]. exists [108; 115; 0]. done.
Qed.


(** The line [ls] is saved as [l]. *)
Lemma saved_drops_last : saved [108; 115; 10] = [108].
Proof. done. Qed.

(** The line [!!], as it is read, is not taken for the last command: its newline follows. *)
Lemma bang_bang_nothing fuel h : history_run fuel [33; 33; 10] h = Ok HNothing h.
Proof. done. Qed.
