(* ===== verification/ShRun.v ===== *)
(** How the shell runs a command, user/sh.c: the processes it makes and the descriptors each of them has.

    A process is the list of what it does, with the processes it forks inside.  The kernel gives a new descriptor the lowest number that is free;
    whether a file can be opened, a program executed and a process forked are parameters, by the place of the command in the tree. *)

From S2P Require Import CString Prelude Bytes Params Ulib ShParse ShSpec ShHist.

(** What a descriptor refers to: what the shell began with, an opened file, and the ends of the pipe of a command. *)
Inductive fobj := FGiven (n : Z) | FFile (path : list Z) (mode : Z) | FReadEnd (k : list bool) | FWriteEnd (k : list bool).
#[export] Instance fobj_eq_dec : EqDecision fobj.
Proof. solve_decision. Defined.
Abbreviation fdtab := (list (option fobj)).

#[warnings="-register-all"] Inductive ev :=
  | EExec (argv : list (list Z)) (fds : fdtab)
  | EFork (child : list ev)
  | EWait (fds : fdtab)
  | EMsg (msg : string)
  | EExit (status : Z).

(** The system calls on a table of descriptors. *)
Fixpoint lowest (fds : fdtab) (i : nat) : option nat :=
  match fds with
  | [] => None
  | None :: _ => Some i
  | Some _ :: fds' => lowest fds' (S i)
  end.
Definition fdclose (fd : nat) (fds : fdtab) : fdtab := <[fd := None]> fds.
Definition fdnew (o : fobj) (fds : fdtab) : option (nat * fdtab) :=
  match lowest fds 0 with Some i => Some (i, <[i := Some o]> fds) | None => None end.
Definition fddup (fd : nat) (fds : fdtab) : fdtab :=
  match fds !! fd with
  | Some (Some o) => match fdnew o fds with Some (_, fds') => fds' | None => fds end
  | _ => fds
  end.
Definition fdpipe (k : list bool) (fds : fdtab) : option (nat * nat * fdtab) :=
  match fdnew (FReadEnd k) fds with
  | Some (p0, fds) => match fdnew (FWriteEnd k) fds with Some (p1, fds) => Some (p0, p1, fds) | None => None end
  | None => None
  end.

Section Run.
Variables (can_open : list Z -> Z -> bool) (can_exec : list Z -> bool) (can_fork : list bool -> bool -> bool).

(** user/sh.c:399-408: the child runs [child], the parent [parent]; the first and the second fork of a command are [false] and [true]. *)
Definition fork1 (k : list bool) (second : bool) (child parent : list ev) : list ev :=
  if can_fork k second then EFork child :: parent else [EMsg "fork"; EExit 1].

(** user/sh.c:250-325; [k] is the place of the command. *)
Fixpoint runcmd (k : list bool) (c : cmd (list Z)) (fds : fdtab) : list ev :=
  match c with
  | EXEC argv =>
      match argv with
      | [] => [EExit 1]
      | a :: _ => if can_exec a then [EExec argv fds] else [EMsg "exec failed"; EExit 0]
      end
  | REDIR c file mode fd =>
      let fds := fdclose (Z.to_nat fd) fds in
      match (if can_open file mode then fdnew (FFile file mode) fds else None) with
      | None => [EMsg "open failed"; EExit 1]
      | Some (_, fds) => runcmd (false :: k) c fds
      end
  | LIST l r => fork1 k false (runcmd (false :: k) l fds) (EWait fds :: runcmd (true :: k) r fds)
  | PIPE l r =>
      match fdpipe k fds with
      | None => [EMsg "pipe"; EExit 1]
      | Some (p0, p1, fds) =>
          fork1 k false
            (runcmd (false :: k) l (fdclose p1 (fdclose p0 (fddup p1 (fdclose 1 fds)))))
            (fork1 k true
               (runcmd (true :: k) r (fdclose p1 (fdclose p0 (fddup p0 (fdclose 0 fds)))))
               (let fds := fdclose p1 (fdclose p0 fds) in [EWait fds; EWait fds; EExit 0]))
      end
  | BACK c => fork1 k false (runcmd (false :: k) c fds) [EExit 0]
  end.
End Run.

(** ** The loop of the shell *)

(** [console] *)
Definition console_path : list Z := [99; 111; 110; 115; 111; 108; 101].

(** The start of [main], user/sh.c:347-353, for a console that can be opened. *)
Fixpoint open_console (fuel : nat) (fds : fdtab) : option fdtab :=
  match fuel with
  | O => None
  | S fuel' =>
      match fdnew (FFile console_path O_RDWR) fds with
      | None => Some fds
      | Some (fd, fds) => if (3 <=? fd)%nat then Some (fdclose fd fds) else open_console fuel' fds
      end
  end.

(** What a line makes it do: nothing; print the history; what [history_run] says; change its directory; run a command in a child. *)
Inductive action := ANothing | AShow (lines : list (Z * list Z)) | AHistory (r : hrun) | ACd (dir : list Z) | ARun (line : list Z).

Definition history_cmd : list Z := [104; 105; 115; 116; 111; 114; 121; 10].

(** Skipping blanks, user/sh.c:357-359. *)
Fixpoint skip_blanks (l : list Z) : list Z :=
  match l with
  | c :: l' => if (c =? 32) || (c =? 9) then skip_blanks l' else l
  | [] => []
  end.

(** Changing the directory or running a command, user/sh.c:378-387: the last character is cut off for [cd]. *)
Definition run_line (cmd : list Z) : action :=
  if (aget cmd 0 =? 99) && (aget cmd 1 =? 100) && (aget cmd 2 =? 32) then ACd (drop 3 (take (length cmd - 1) cmd)) else ARun cmd.

(** One turn of the loop, user/sh.c:356-388, on the line in [buf]. *)
Definition main_step (blk : option (nat * list Z)) (fuel : nat) (buf : list Z) : M hist action :=
  let cmd := skip_blanks buf in
  if aget cmd 0 =? 10 then ret ANothing
  else if bool_decide (cmd = history_cmd) then let* l := history_show fuel in ret (AShow l)
  else if aget cmd 0 =? 33 then let* r := history_run fuel cmd in ret (AHistory r)
  else history_add blk cmd ;;; ret (run_line cmd).

(** user/sh.c:228-248: what running a line of the history does. *)
Definition runcmd_builtin (cmd_str : list Z) : action := run_line (take (Z.to_nat (MAX_LINE_LEN - 2)) cmd_str ++ [10]).

(** ** What the programs of a command get *)

Fixpoint execs (e : ev) : list (list (list Z) * fdtab) :=
  match e with
  | EExec argv fds => [(argv, fds)]
  | EFork child => flat_map execs child
  | _ => []
  end.
(** The tables of the processes when they execute a program or wait. *)
Fixpoint tables (e : ev) : list fdtab :=
  match e with
  | EExec _ fds | EWait fds => [fds]
  | EFork child => flat_map tables child
  | _ => []
  end.

(** Descriptors 0, 1 and 2 are open and no other. *)
Definition std (fds : fdtab) : Prop := exists a b c, fds = Some a :: Some b :: Some c :: replicate 13 None.

(** However few of the three the shell is given, it runs commands with exactly these. *)
Lemma open_console_std a b c : exists fds, open_console 4 (a :: b :: c :: replicate 13 None) = Some fds /\ std fds.
Proof. destruct a, b, c; (eexists; split; [reflexivity|]); by repeat eexists. Qed.

Section Wires.
Variables (can_open : list Z -> Z -> bool) (can_exec : list Z -> bool) (can_fork : list bool -> bool -> bool).

(** The meaning of a command: the programs it runs, each with its descriptors. *)
Fixpoint wires (k : list bool) (c : cmd (list Z)) (fds : fdtab) : list (list (list Z) * fdtab) :=
  match c with
  | EXEC [] => []
  | EXEC (a :: argv) => if can_exec a then [(a :: argv, fds)] else []
  | REDIR c file mode fd => if can_open file mode then wires (false :: k) c (<[Z.to_nat fd := Some (FFile file mode)]> fds) else []
  | LIST l r => if can_fork k false then wires (false :: k) l fds ++ wires (true :: k) r fds else []
  | PIPE l r =>
      if can_fork k false then
        wires (false :: k) l (<[1%nat := Some (FWriteEnd k)]> fds) ++
        (if can_fork k true then wires (true :: k) r (<[0%nat := Some (FReadEnd k)]> fds) else [])
      else []
  | BACK c => if can_fork k false then wires (false :: k) c fds else []
  end.

Lemma runcmd_spec c : cmd_forall word c -> forall k fds, std fds ->
  flat_map execs (runcmd can_open can_exec can_fork k c fds) = wires k c fds /\ Forall std (flat_map tables (runcmd can_open can_exec can_fork k c fds)).
Proof.
  induction c as [argv|c IH file mode fd|l IHl r IHr|l IHl r IHr|c IH]; intros Hc k fds Hf; cbn [runcmd wires]; pose proof Hf as (x & y & z & E).
  - destruct argv as [|a argv]; [done|]. destruct (can_exec a); [|done]. split; [done|]. by repeat constructor.
  - destruct Hc as (Hc & _ & Hfd). destruct (can_open file mode); [|done].
    assert (En : fdnew (FFile file mode) (fdclose (Z.to_nat fd) fds) = Some (Z.to_nat fd, <[Z.to_nat fd := Some (FFile file mode)]> fds)) by (rewrite E; by destruct Hfd as [-> | ->]).
    cbv zeta. rewrite En. apply IH; [done|]. rewrite E. destruct Hfd as [-> | ->]; by repeat eexists.
  - destruct Hc as [Hl Hr]. rewrite E. change (fdpipe k _) with (Some (3%nat, 4%nat, Some x :: Some y :: Some z :: Some (FReadEnd k) :: Some (FWriteEnd k) :: replicate 11 None)). cbv iota. rewrite <-E.
    unfold fork1. destruct (can_fork k false); [|done]. 
    match goal with |- context [runcmd _ _ _ (false :: k) l ?t] => replace t with (<[1%nat := Some (FWriteEnd k)]> fds) by (by rewrite E) end.
    destruct (IHl Hl (false :: k) (<[1%nat := Some (FWriteEnd k)]> fds)) as [L1 L2]; [rewrite E; by repeat eexists|]. 
    destruct (can_fork k true); cbn [flat_map execs tables app]; rewrite L1; [|rewrite !app_nil_r; done].
    match goal with |- context [runcmd _ _ _ (true :: k) r ?t] => replace t with (<[0%nat := Some (FReadEnd k)]> fds) by (by rewrite E) end.
    destruct (IHr Hr (true :: k) (<[0%nat := Some (FReadEnd k)]> fds)) as [R1 R2]; [rewrite E; by repeat eexists|]. rewrite R1, app_nil_r. split; [done|].
    apply Forall_app. split; [done|]. apply Forall_app. split; [done|]. by repeat constructor; repeat eexists.
  - destruct Hc as [Hl Hr]. unfold fork1. destruct (can_fork k false); [|done]. destruct (IHl Hl (false :: k) fds Hf) as [L1 L2]. destruct (IHr Hr (true :: k) fds Hf) as [R1 R2].
    cbn [flat_map execs tables app]. rewrite L1, R1. split; [done|]. apply Forall_app. split; [done|]. by constructor.
  - unfold fork1. destruct (can_fork k false); [|done]. destruct (IH Hc (false :: k) fds Hf) as [L1 L2]. cbn [flat_map execs tables app]. rewrite L1, !app_nil_r. done.
Qed.
End Wires.

(** C39. A command line runs its programs on the right files.  For every line that parses, if the shell has the descriptors 0, 1 and 2 open and no other, then the programs
    executed are those of the command, each with the descriptors its place in the command says: a redirection replaces descriptor 0 or 1 by the opened file, the
    left side of a pipe writes its output into the pipe and the right side reads its input from it, and all else is inherited.  Every program, and every process that waits for others, has
    exactly the descriptors 0, 1 and 2: no end of a pipe is left open anywhere. *)
Theorem runcmd_wires can_open can_exec can_fork line c i fds :
  0 ∉ line -> parse line = Ok c i -> std fds ->
  flat_map execs (runcmd can_open can_exec can_fork [] c fds) = wires can_open can_exec can_fork [] c fds /\
  Forall std (flat_map tables (runcmd can_open can_exec can_fork [] c fds)).
Proof. intros H0 Hp Hf. apply runcmd_spec; [|done]. pose proof (parse_words line H0) as H. by rewrite Hp in H. Qed.

(** The line [a<f|b]: the first program reads the file and writes to the pipe, the second reads from it. *)
Definition run_demo : cmd (list Z) := PIPE (REDIR (EXEC [[97]]) [102] O_RDONLY 0) (EXEC [[98]]).
Definition std0 : fdtab := Some (FGiven 0) :: Some (FGiven 1) :: Some (FGiven 2) :: replicate 13 None.

Lemma runcmd_wires_witness :
  flat_map execs (runcmd (fun _ _ => true) (fun _ => true) (fun _ _ => true) [] run_demo std0) =
  [([[97]], Some (FFile [102] 0) :: Some (FWriteEnd []) :: Some (FGiven 2) :: replicate 13 None);
   ([[98]], Some (FReadEnd []) :: Some (FGiven 1) :: Some (FGiven 2) :: replicate 13 None)].
Proof.
  destruct (runcmd_wires (fun _ _ => true) (fun _ => true) (fun _ _ => true) [97; 60; 102; 124; 98] run_demo 5 std0) as [-> _].
  - intros H. repeat (apply elem_of_cons in H as [H|H]; [discriminate H|]). by apply not_elem_of_nil in H.
  - vm_compute. reflexivity.
  - by repeat eexists.
  - reflexivity.
Defined.

(** Running a line of the history does what typing it does. *)
Lemma builtin_same t blk fuel h h' a :
  (length t <= 98)%nat -> t <> [] -> aget t 0 <> 32 -> aget t 0 <> 9 -> aget t 0 <> 33 -> t ++ [10] <> history_cmd ->
  main_step blk fuel (t ++ [10]) h = Ok a h' -> a = ANothing \/ a = runcmd_builtin t.
Proof.
  intros Hl Hne H1 H2 H3 H4 Hm. unfold runcmd_builtin. rewrite take_ge by (unfold MAX_LINE_LEN; simpl; lia). destruct t as [|c t]; [done|]. change (aget (c :: t) 0) with c in *. unfold main_step in Hm.
  assert (Es : skip_blanks ((c :: t) ++ [10]) = (c :: t) ++ [10]) by (cbn; rewrite !(proj2 (Z.eqb_neq c _)) by done; done). cbv zeta in Hm. rewrite Es in Hm.
  change (aget ((c :: t) ++ [10]) 0) with c in Hm. destruct (c =? 10); [injection Hm as <- <-; by left|]. rewrite bool_decide_eq_false_2 in Hm by done. rewrite (proj2 (Z.eqb_neq c 33)) in Hm by done.
  unfold bind in Hm. destruct (history_add _ _ h); try done. injection Hm as <- <-. by right.
Qed.
