(* ===== verification/Umalloc.v ===== *)
(** The allocator of user programs, user/umalloc.c: a circular list of free blocks in address order, over the bytes of the process.

    A block is a header of 16 bytes, which holds a pointer and the size of the block in units of 16 bytes, and the bytes after it.  The headers are read and
    written where they lie in memory, so that what the program does with its blocks and what the allocator does with its headers meet in the same bytes. *)

From S2P Require Import CString Prelude Bytes Params.

(** ** Integers in memory *)

Definition rd (m : bmem) (a : Z) (k : nat) : Z := le_val (map (fun i => m (a + Z.of_nat i)) (seq 0 k)).
Definition wr (m : bmem) (a : Z) (k : nat) (v : Z) : bmem := fun x => if decide (a <= x < a + Z.of_nat k) then aget (le_bytes k v) (x - a) else m x.

(** The memory of the process, [freep], the size of the process and how often it has asked for more. *)
Record heap := Heap { h_mem : bmem; h_freep : Z; h_sz : Z; h_calls : nat }.
#[export] Instance eta_heap : Eta heap := fun h => Heap (h_mem h) (h_freep h) (h_sz h) (h_calls h).

(** The bytes at [a] are part of the process. *)
Definition inside (h : heap) (a k : Z) : bool := (0 <=? a) && (a + k <=? h_sz h).

(** user/umalloc.c:11-17: [sizeof(Header)], and the fields of the header at [p]. *)
Definition HDR : Z := 16.
Definition hptr (p : Z) : M heap Z := let* h := get in if inside h p 8 then ret (rd (h_mem h) p 8) else undef "fault".
Definition hsize (p : Z) : M heap Z := let* h := get in if inside h (p + 8) 4 then ret (rd (h_mem h) (p + 8) 4) else undef "fault".
Definition set_ptr (p v : Z) : M heap unit :=
  let* h := get in if inside h p 8 then modify (fun h => h <| h_mem := wr (h_mem h) p 8 v |>) else undef "fault".
Definition set_size (p v : Z) : M heap unit :=
  let* h := get in if inside h (p + 8) 4 then modify (fun h => h <| h_mem := wr (h_mem h) (p + 8) 4 v |>) else undef "fault".

Section Alloc.
(** The address of [base], and whether the kernel has memory at the n-th request for it. *)
Context (base : Z) (grows : nat -> bool).

(** user/ulib.c:152-155, as [sys_sbrk] and [growproc] answer it: the size of the process before, or -1. *)
Definition sbrk (n : Z) : M heap Z :=
  let* h := get in
  let n := s32 n in
  modify (fun h => h <| h_calls := S (h_calls h) |>) ;;;
  if 0 <? n then
    if grows (h_calls h) then modify (fun h => h <| h_sz := u64 (h_sz h + n) |>) ;;; ret (h_sz h)
    else ret (u64 (-1))
  else
    modify (fun h => h <| h_sz := (if u64 (h_sz h + n) <? h_sz h then u64 (h_sz h + n) else h_sz h) |>) ;;; ret (h_sz h).

(** user/umalloc.c:30-32: the place of [bp] in the list, from [p] on. *)
Fixpoint free_loop (fuel : nat) (bp p : Z) : M heap Z :=
  match fuel with
  | O => nofuel
  | S fuel' =>
      let* nx := hptr p in
      if (p <? bp) && (bp <? nx) then ret p
      else if (nx <=? p) && ((p <? bp) || (bp <? nx)) then ret p
      else free_loop fuel' bp nx
  end.

(** user/umalloc.c:33-37: the block after [bp] joins it, or follows it in the list. *)
Definition free_right (bp p : Z) : M heap unit :=
  let* bsize := hsize bp in
  let* nx := hptr p in
  if u64 (bp + bsize * HDR) =? nx then
    let* nsize := hsize nx in
    set_size bp (u32 (bsize + nsize)) ;;;
    let* nx := hptr p in
    let* nn := hptr nx in
    set_ptr bp nn
  else set_ptr bp nx.

(** user/umalloc.c:38-42: it joins the block before, or follows it. *)
Definition free_left (bp p : Z) : M heap unit :=
  let* psize := hsize p in
  if u64 (p + psize * HDR) =? bp then
    let* bsize := hsize bp in
    set_size p (u32 (psize + bsize)) ;;;
    let* bn := hptr bp in
    set_ptr p bn
  else set_ptr p bp.

(** user/umalloc.c:24-44 *)
Definition free (fuel : nat) (ap : Z) : M heap unit :=
  let bp := u64 (ap - HDR) in
  let* h := get in
  let* p := free_loop fuel bp (h_freep h) in
  free_right bp p ;;;
  free_left bp p ;;;
  modify (fun h => h <| h_freep := p |>).

(** user/umalloc.c:46-61 *)
Definition morecore (fuel : nat) (nu : Z) : M heap Z :=
  let nu := if nu <? 4096 then 4096 else nu in
  let* p := sbrk (nu * HDR) in
  if p =? u64 (-1) then ret 0
  else
    set_size p nu ;;;
    free fuel (u64 (p + HDR)) ;;;
    gets h_freep.

(** user/umalloc.c:76-84: a block of [nunits] out of the block [p], whole or its end. *)
Definition take_block (nunits prevp p : Z) : M heap Z :=
  let* size := hsize p in
  let* q :=
    if size =? nunits then
      let* nx := hptr p in
      set_ptr prevp nx ;;;
      ret p
    else
      set_size p (u32 (size - nunits)) ;;;
      let q := u64 (p + u32 (size - nunits) * HDR) in
      set_size q nunits ;;;
      ret q in
  modify (fun h => h <| h_freep := prevp |>) ;;;
  ret (u64 (q + HDR)).

(** user/umalloc.c:74-90 *)
Fixpoint malloc_loop (fuel : nat) (nunits prevp p : Z) : M heap Z :=
  match fuel with
  | O => nofuel
  | S fuel' =>
      let* size := hsize p in
      if nunits <=? size then take_block nunits prevp p
      else
        let* h := get in
        if p =? h_freep h then
          let* p := morecore fuel' nunits in
          if p =? 0 then ret 0
          else
            let* nx := hptr p in
            malloc_loop fuel' nunits p nx
        else
          let* nx := hptr p in
          malloc_loop fuel' nunits p nx
  end.

(** user/umalloc.c:69: the units for [nbytes] bytes and a header. *)
Definition units (nbytes : Z) : Z := u32 ((nbytes + HDR - 1) / HDR + 1).

(** user/umalloc.c:63-90 *)
Definition malloc (fuel : nat) (nbytes : Z) : M heap Z :=
  let nunits := units nbytes in
  let* h := get in
  (if h_freep h =? 0 then
     modify (fun h => h <| h_freep := base |>) ;;;
     set_ptr base base ;;;
     set_size base 0
   else ret tt) ;;;
  let* h := get in
  let* p := hptr (h_freep h) in
  malloc_loop fuel nunits (h_freep h) p.
End Alloc.

(** ** Reading what was written *)

Lemma rd_wr_same m a k v : rd (wr m a k v) a k = v mod 256 ^ Z.of_nat k.
Proof.
  rewrite <-le_val_bytes. unfold rd. f_equal. apply list_eq. intros i. rewrite list_lookup_fmap. destruct (decide (i < k)%nat) as [Hi|Hi].
  - rewrite lookup_seq_lt by done. simpl. unfold wr. rewrite decide_True by lia. unfold aget. replace (Z.to_nat (a + Z.of_nat i - a)) with i by lia.
    symmetry. apply lookup_nth. by rewrite length_le_bytes.
  - rewrite lookup_seq_ge by lia. simpl. symmetry. apply lookup_ge_None. rewrite length_le_bytes. lia.
Qed.

Lemma rd_ext m m' a k : (forall x, a <= x < a + Z.of_nat k -> m' x = m x) -> rd m' a k = rd m a k.
Proof. intros H. unfold rd. f_equal. apply map_ext_in. intros i Hi%in_seq. apply H. lia. Qed.

Lemma wr_other m a k v x : ~ (a <= x < a + Z.of_nat k) -> wr m a k v x = m x.
Proof. intros H. unfold wr. by rewrite decide_False. Qed.

Lemma rd_wr_other m a k v b j : b + Z.of_nat j <= a \/ a + Z.of_nat k <= b -> rd (wr m a k v) b j = rd m b j.
Proof. intros H. apply rd_ext. intros x Hx. apply wr_other. lia. Qed.

Lemma rd8_wr8 m a v : 0 <= v < 2 ^ 64 -> rd (wr m a 8 v) a 8 = v.
Proof. intros H. rewrite rd_wr_same. apply Z.mod_small. exact H. Qed.
Lemma rd4_wr4 m a v : 0 <= v < 2 ^ 32 -> rd (wr m a 4 v) a 4 = v.
Proof. intros H. rewrite rd_wr_same. apply Z.mod_small. exact H. Qed.

(** ** The free list *)

Abbreviation psz m a := (rd m (a + 8) 4).
Abbreviation pptr m a := (rd m a 8).

(** From [a] the pointers lead through the blocks [l] to [z]. *)
Fixpoint chain (m : bmem) (a : Z) (l : list (Z * Z)) (z : Z) : Prop :=
  match l with
  | [] => pptr m a = z
  | (b, n) :: l' => pptr m a = b /\ psz m b = n /\ chain m b l' z
  end.
Definition lastof (a : Z) (l : list (Z * Z)) : Z := List.last (map fst l) a.
Definition firstof (l : list (Z * Z)) (z : Z) : Z := match l with [] => z | (b, _) :: _ => b end.

Lemma lastof_cons a b n l : lastof a ((b, n) :: l) = lastof b l.
Proof. unfold lastof. simpl. destruct l as [|[c k] l]; [done|]. simpl. clear. revert c. induction l as [|[d j] l IH]; intros c; [done|]. simpl. apply IH. Qed.
Lemma lastof_app a l1 b n l2 : lastof a (l1 ++ (b, n) :: l2) = lastof b l2.
Proof. revert a. induction l1 as [|[c k] l1 IH]; intros a; cbn [app]; rewrite lastof_cons; [done|apply IH]. Qed.

Lemma lastof_snoc a l b n : lastof a (l ++ [(b, n)]) = b.
Proof. by rewrite lastof_app. Qed.

Lemma chain_first m a l z : chain m a l z -> pptr m a = firstof l z.
Proof. destruct l as [|[b n] l]; simpl; tauto. Qed.

Lemma chain_app m a l1 b n l2 z : chain m a (l1 ++ (b, n) :: l2) z <-> chain m a l1 b /\ psz m b = n /\ chain m b l2 z.
Proof. revert a. induction l1 as [|[c k] l1 IH]; intros a; cbn [app chain]; [tauto|]. rewrite IH. tauto. Qed.

Lemma chain_cat m a l1 l2 z : chain m a (l1 ++ l2) z <-> chain m a l1 (firstof l2 z) /\ chain m (lastof a l1) l2 z.
Proof.
  revert a. induction l1 as [|[b n] l1 IH]; intros a; cbn [app chain]; [|rewrite IH, lastof_cons; tauto]. split; [|by intros [_ ?]]. intros H. split; [by apply chain_first|done].
Qed.

Lemma lastof_in a l : lastof a l ∈ a :: map fst l.
Proof. revert a. induction l as [|[c k] l IH]; intros a; [set_solver|]. rewrite lastof_cons. cbn [map fst]. specialize (IH c). set_solver. Qed.

(** A change elsewhere. *)
Lemma chain_frame m m' a l z :
  pptr m' a = pptr m a -> Forall (fun b => pptr m' (fst b) = pptr m (fst b) /\ psz m' (fst b) = psz m (fst b)) l -> chain m a l z -> chain m' a l z.
Proof.
  intros Ha Hl. revert a Ha. induction Hl as [|[b n] l [H1 H2] Hl IH]; intros a Ha; simpl; [congruence|]. simpl in H1, H2. intros (E1 & E2 & H). split_and!; [congruence|congruence|by apply IH].
Qed.

(** The last pointer is changed. *)
Lemma chain_relink m m' a l z z' :
  (forall b, b ∈ a :: map fst l -> b <> lastof a l -> pptr m' b = pptr m b) -> Forall (fun b => psz m' (fst b) = psz m (fst b)) l -> pptr m' (lastof a l) = z' ->
  NoDup (a :: map fst l) -> chain m a l z -> chain m' a l z'.
Proof.
  revert a. induction l as [|[b n] l IH]; intros a Hp Hs Hz Hnd; cbn [chain]; [done|]. intros (E1 & E2 & H). rewrite lastof_cons in Hp, Hz. cbn [map fst] in Hp, Hnd.
  apply Forall_cons in Hs as [S1 S2]. apply NoDup_cons in Hnd as [Ha Hnd].
  pose proof (lastof_in b l) as Hin.
  simpl in S1. split_and!; [|congruence|].
  - rewrite Hp; [done|set_solver|]. intros E. rewrite E in Ha. by apply Ha.
  - apply IH; [|done|done|done|done]. intros c Hc. apply Hp. set_solver.
Qed.

(** In address order above [lo] and below [hi], with room between any two. *)
Fixpoint gapped (lo : Z) (l : list (Z * Z)) (hi : Z) : Prop :=
  match l with
  | [] => lo <= hi
  | (a, n) :: l' => lo < a /\ 1 <= n /\ gapped (a + 16 * n) l' hi
  end.
Definition endof (lo : Z) (l : list (Z * Z)) : Z := fold_left (fun _ b => fst b + 16 * snd b) l lo.

Lemma gapped_app lo l1 l2 hi : gapped lo (l1 ++ l2) hi <-> gapped lo l1 (endof lo l1) /\ gapped (endof lo l1) l2 hi.
Proof. revert lo. induction l1 as [|[a n] l1 IH]; intros lo; cbn [app gapped endof fold_left fst snd]; [intuition lia|]. rewrite IH. unfold endof. tauto. Qed.

Lemma endof_app lo l1 a n : endof lo (l1 ++ [(a, n)]) = a + 16 * n.
Proof. unfold endof. by rewrite fold_left_app. Qed.

Lemma gapped_le lo l hi : gapped lo l hi -> lo <= hi.
Proof. revert lo. induction l as [|[a n] l IH]; intros lo; simpl; [done|]. intros (? & ? & H%IH). lia. Qed.

Lemma gapped_hi lo l hi hi' : gapped lo l hi -> hi <= hi' -> gapped lo l hi'.
Proof. revert lo. induction l as [|[a n] l IH]; intros lo; simpl; [lia|]. intros (? & ? & H) Hle. split_and!; [done|done|by apply IH]. Qed.

Lemma gapped_lo lo lo' l hi : gapped lo l hi -> lo' <= lo -> gapped lo' l hi.
Proof. destruct l as [|[a n] l]; simpl; [lia|]. intros (? & ? & H) Hle. split_and!; [lia|done|done]. Qed.

Lemma gapped_in lo l hi : gapped lo l hi -> Forall (fun b => lo < fst b /\ 1 <= snd b /\ fst b + 16 * snd b <= hi) l.
Proof.
  revert lo. induction l as [|[a n] l IH]; intros lo; simpl; [constructor|]. intros (? & ? & H). constructor; [simpl; apply gapped_le in H; lia|].
  eapply Forall_impl; [by apply IH|]. simpl. intros [b k]. simpl. lia.
Qed.

(** The headers of two blocks are apart. *)
Lemma gapped_apart lo l1 a n l2 hi : gapped lo (l1 ++ (a, n) :: l2) hi -> Forall (fun b => fst b + 16 <= a) l1 /\ Forall (fun b => a + 16 <= fst b) l2.
Proof.
  intros [H1 (H2 & Hn & H3)]%gapped_app. apply gapped_in in H1, H3. split; (eapply Forall_impl; [eassumption|]); simpl; intros [b k]; simpl; lia.
Qed.

Lemma gapped_end lo l1 l2 hi a n : gapped lo (l1 ++ l2) hi -> lo <= a -> 1 <= n -> Forall (fun b => fst b < a) l1 -> Forall (fun b => a + 16 * n <= fst b \/ fst b + 16 * snd b <= a) l1 -> endof lo l1 <= a.
Proof.
  intros [Hg _]%gapped_app Hlo Hn H1 H2. destruct l1 as [|[p j] l1 _] using rev_ind; [done|]. rewrite endof_app in *. apply Forall_app in H1 as [_ H1], H2 as [_ H2]. apply Forall_cons in H1 as [H1 _], H2 as [H2 _]. simpl in *. lia.
Qed.

Lemma gapped_nodup lo l hi : gapped lo l hi -> NoDup (map fst l).
Proof.
  revert lo. induction l as [|[a n] l IH]; intros lo; simpl; [constructor|]. intros (? & ? & H). constructor; [|by eapply IH].
  intros ([b k] & E & Hin)%list_elem_of_fmap. simpl in E. subst. apply gapped_in in H. eapply Forall_forall in H; [|done]. simpl in H. lia.
Qed.
