(* ===== verification/UmallocSpec.v ===== *)
(** What [malloc] and [free] promise: blocks that are apart, of the size asked for, and none of the process's memory lost. *)

From S2P Require Import CString Prelude Bytes Params Umalloc.

Section Spec.
(** The address of [base], the end of the program's data, where the blocks begin, and what the kernel answers. *)
Context (base lo : Z) (grows : nat -> bool).
Implicit Types (h : heap) (bs l : list (Z * Z)) (A : gmap Z Z).

(** Two blocks do not overlap. *)
Definition disj (x y : Z * Z) : Prop := fst x + 16 * snd x <= fst y \/ fst y + 16 * snd y <= fst x.

(** The free blocks [bs], in address order and never two adjacent, and the allocated blocks [A] with their sizes. *)
Record inv h bs A : Prop := {
  iv_base : 0 < base /\ base + 16 <= lo;
  iv_chain : chain (h_mem h) base bs base;
  iv_bsize : psz (h_mem h) base = 0;
  iv_gap : gapped (lo - 1) bs (h_sz h);
  iv_freep : h_freep h ∈ base :: map fst bs;
  iv_sz : lo <= h_sz h < 2 ^ 36;
  iv_alloc a n : A !! a = Some n -> lo <= a /\ 1 <= n /\ a + 16 * n <= h_sz h /\ psz (h_mem h) a = n;
  iv_apart a n b k : A !! a = Some n -> A !! b = Some k -> a <> b -> disj (a, n) (b, k);
  iv_cross a n : A !! a = Some n -> Forall (disj (a, n)) bs }.

(** A block that is neither. *)
Record loose h bs A (bp n : Z) : Prop := {
  lo_in : lo <= bp /\ 1 <= n /\ bp + 16 * n <= h_sz h;
  lo_size : psz (h_mem h) bp = n;
  lo_free : Forall (disj (bp, n)) bs;
  lo_alloc a k : A !! a = Some k -> disj (bp, n) (a, k) }.

Lemma wp_hptr a Q h : 0 <= a -> a + 8 <= h_sz h -> Q (pptr (h_mem h) a) h -> wp (hptr a) Q h.
Proof. intros H1 H2 HQ. unfold hptr, inside. apply wp_bind, wp_get. rewrite (proj2 (Z.leb_le 0 a)), (proj2 (Z.leb_le (a + 8) _)) by lia. done. Qed.
Lemma wp_hsize a Q h : 0 <= a -> a + 12 <= h_sz h -> Q (psz (h_mem h) a) h -> wp (hsize a) Q h.
Proof. intros H1 H2 HQ. unfold hsize, inside. apply wp_bind, wp_get. rewrite (proj2 (Z.leb_le 0 (a + 8))), (proj2 (Z.leb_le (a + 8 + 4) _)) by lia. done. Qed.
Lemma wp_set_ptr a v Q h : 0 <= a -> a + 8 <= h_sz h -> Q tt (h <| h_mem := wr (h_mem h) a 8 v |>) -> wp (set_ptr a v) Q h.
Proof. intros H1 H2 HQ. unfold set_ptr, inside. apply wp_bind, wp_get. rewrite (proj2 (Z.leb_le 0 a)), (proj2 (Z.leb_le (a + 8) _)) by lia. done. Qed.
Lemma wp_set_size a v Q h : 0 <= a -> a + 12 <= h_sz h -> Q tt (h <| h_mem := wr (h_mem h) (a + 8) 4 v |>) -> wp (set_size a v) Q h.
Proof. intros H1 H2 HQ. unfold set_size, inside. apply wp_bind, wp_get. rewrite (proj2 (Z.leb_le 0 (a + 8))), (proj2 (Z.leb_le (a + 8 + 4) _)) by lia. done. Qed.

(** ** The place of a block in the list *)

Lemma free_loop_up fuel bp p l h :
  chain (h_mem h) p l base -> 0 <= base <= p -> p < bp -> p + 8 <= h_sz h -> gapped (p + 15) l (h_sz h) -> bp ∉ map fst l -> (length l < fuel)%nat ->
  exists l1 l2, l = l1 ++ l2 /\ Forall (fun b => fst b < bp) l1 /\ Forall (fun b => bp < fst b) l2 /\ free_loop fuel bp p h = Ok (lastof p l1) h.
Proof.
  revert p fuel. induction l as [|[a n] l IH]; intros p fuel Hc Hb Hp Hin Hg Hn Hf; (destruct fuel as [|fuel]; [simpl in Hf; lia|]); cbn [free_loop]; pose proof (chain_first _ _ _ _ Hc) as Hx.
  - exists [], []. split_and!; [done..|]. unfold hptr, inside, bind, get. rewrite (proj2 (Z.leb_le 0 p)), (proj2 (Z.leb_le (p + 8) _)) by lia. cbn [andb]. unfold ret. rewrite Hx. simpl.
    rewrite (proj2 (Z.ltb_lt p bp)), (proj2 (Z.ltb_ge bp base)), (proj2 (Z.leb_le base p)) by lia. done.
  - destruct Hc as (_ & _ & Hc). simpl in Hx. unfold hptr, inside, bind, get. rewrite (proj2 (Z.leb_le 0 p)), (proj2 (Z.leb_le (p + 8) _)) by lia. cbn [andb]. unfold ret. rewrite Hx.
    rewrite (proj2 (Z.ltb_lt p bp)) by lia. cbn [andb]. destruct Hg as (Hg1 & Hg2 & Hg). pose proof (gapped_le _ _ _ Hg). destruct (Z.ltb_spec bp a) as [Hlt|Hge].
    + exists [], ((a, n) :: l). split_and!; [done|done| |done]. constructor; [done|]. eapply Forall_impl; [by apply (gapped_in _ _ _ Hg)|]. simpl. lia.
    + rewrite (proj2 (Z.leb_gt a p)) by lia. cbn [andb]. assert (a <> bp) by (intros ->; apply Hn; set_solver).
      destruct (IH a fuel) as (l1 & l2 & -> & H1 & H2 & H3); [done|lia|lia|lia|by eapply gapped_lo; [done|lia]|set_solver|simpl in Hf; lia|].
      exists ((a, n) :: l1), l2. split_and!; [done|by constructor; [simpl; lia|]|done|]. by rewrite lastof_cons.
Qed.

Lemma free_loop_wrap fuel bp p l h :
  chain (h_mem h) p l base -> 0 <= base < bp -> bp < p -> p + 8 <= h_sz h -> gapped (p + 15) l (h_sz h) -> free_loop (S (length l) + fuel) bp p h = free_loop fuel bp base h.
Proof.
  revert p. induction l as [|[a n] l IH]; intros p Hc Hb Hp Hin Hg; cbn [free_loop length Nat.add]; pose proof (chain_first _ _ _ _ Hc) as Hx; simpl in Hx;
    unfold hptr, inside, bind, get; rewrite (proj2 (Z.leb_le 0 p)), (proj2 (Z.leb_le (p + 8) _)) by lia; cbn [andb]; unfold ret; rewrite Hx; rewrite (proj2 (Z.ltb_ge p bp)) by lia; cbn [andb orb].
  - rewrite (proj2 (Z.ltb_ge bp base)) by lia. by rewrite andb_false_r.
  - destruct Hc as (_ & _ & Hc). destruct Hg as (Hg1 & Hg2 & Hg). pose proof (gapped_le _ _ _ Hg). rewrite (proj2 (Z.leb_gt a p)) by lia. cbn [andb].
    apply IH; [done|done|lia|lia|by eapply gapped_lo; [done|lia]].
Qed.

Lemma free_loop_spec fuel bp n bs A h :
  inv h bs A -> loose h bs A bp n -> (2 * length bs + 2 <= fuel)%nat ->
  exists l1 l2, bs = l1 ++ l2 /\ Forall (fun b => fst b < bp) l1 /\ Forall (fun b => bp < fst b) l2 /\ free_loop fuel bp (h_freep h) h = Ok (lastof base l1) h.
Proof.
  intros [] [] Hf. assert (Hn : bp ∉ map fst bs).
  { intros ([b k] & -> & Hin)%list_elem_of_fmap. apply gapped_in in iv_gap0. eapply Forall_forall in iv_gap0; [|done]. eapply Forall_forall in lo_free0; [|done]. unfold disj in *. simpl in *. lia. }
  apply elem_of_cons in iv_freep0 as [->|Hin].
  - apply free_loop_up; [done|lia|lia|lia|by eapply gapped_lo; [done|lia]|done|lia].
  - apply list_elem_of_fmap in Hin as ([f k] & E & Hin). simpl in E. rewrite E. apply list_elem_of_split in Hin as (k1 & k2 & ->).
    pose proof (proj1 (chain_app _ _ _ _ _ _ _) iv_chain0) as (_ & _ & Hc). pose proof (proj1 (gapped_app _ _ _ _) iv_gap0) as (Hg1 & Hg2 & Hg3 & Hg4). pose proof (gapped_le _ _ _ Hg1). pose proof (gapped_le _ _ _ Hg4).
    rewrite map_app in Hn. cbn [map fst] in Hn. rewrite length_app in Hf. cbn [length] in Hf. destruct (Z.lt_trichotomy f bp) as [Hlt|[->|Hgt]]; [| |].
    + destruct (free_loop_up fuel bp f k2 h) as (l1 & l2 & -> & H1 & H2 & H3); [done|lia|lia|lia|by eapply gapped_lo; [done|lia]|set_solver|lia|].
      exists (k1 ++ (f, k) :: l1), l2. rewrite <-app_assoc, lastof_app. split_and!; [done| |done|done]. apply Forall_app. split; [|by constructor].
      eapply Forall_impl; [by apply (gapped_apart _ _ _ _ _ _ iv_gap0)|]. simpl. lia.
    + set_solver.
    + replace fuel with (S (length k2) + (fuel - S (length k2)))%nat by lia. rewrite free_loop_wrap; [|done|lia|lia|lia|by eapply gapped_lo; [done|lia]].
      apply free_loop_up; [done|lia|lia|lia|by eapply gapped_lo; [done|lia]|rewrite map_app; cbn [map fst]; set_solver|rewrite length_app; simpl; lia].
Qed.

(** ** Joining blocks *)

(** The block at [bp] with the one that begins where it ends, and what follows. *)
Definition join_right (bp n : Z) l : Z * list (Z * Z) :=
  match l with
  | (c, k) :: l' => if decide (bp + 16 * n = c) then (n + k, l') else (n, l)
  | [] => (n, [])
  end.

Lemma firstof_ne bs bp n : 0 < base -> base + 16 <= bp -> 1 <= n -> Forall (fun b => bp < fst b) bs -> bp + 16 * n = firstof bs base -> exists k l, bs = (bp + 16 * n, k) :: l.
Proof. intros Hb H1 H2 Hbs E. destruct bs as [|[c k] l]; simpl in E; [lia|]. exists k, l. by rewrite E. Qed.

Lemma chain_from m a b l z : chain m a l z -> forall m', pptr m' b = pptr m a -> Forall (fun x => pptr m' (fst x) = pptr m (fst x) /\ psz m' (fst x) = psz m (fst x)) l -> chain m' b l z.
Proof.
  destruct l as [|[c k] l]; simpl; [congruence|]. intros (E1 & E2 & H) m' Hb Hl. apply Forall_cons in Hl as [[Hl1 Hl2] Hl]. simpl in Hl1, Hl2. split_and!; [congruence|congruence|]. by apply (chain_frame m).
Qed.

(** Two memories agree outside the header at [a]. *)
Definition except (a : Z) (m m' : bmem) : Prop := forall x, ~ (a <= x < a + 16) -> m' x = m x.

Lemma except_hdr a b m m' : except a m m' -> b + 16 <= a \/ a + 16 <= b -> pptr m' b = pptr m b /\ psz m' b = psz m b.
Proof. intros H Hd. split; apply rd_ext; intros x Hx; apply H; lia. Qed.

Lemma wr_except a k v b m : a <= b -> b + Z.of_nat k <= a + 16 -> except a m (wr m b k v).
Proof. intros H1 H2 x Hx. apply wr_other. lia. Qed.
Lemma except_trans a m1 m2 m3 : except a m1 m2 -> except a m2 m3 -> except a m1 m3.
Proof. intros H1 H2 x Hx. rewrite H2, H1; done. Qed.

(** Only the memory changed. *)
Definition memonly h h' : Prop := h_freep h' = h_freep h /\ h_sz h' = h_sz h /\ h_calls h' = h_calls h.

(** The blocks next to a loose one. *)
Lemma slot_before h A bp n l1 l2 : inv h (l1 ++ l2) A -> loose h (l1 ++ l2) A bp n ->
  (base <= lastof base l1 /\ lastof base l1 + 16 <= h_sz h) /\ (lastof base l1 + 16 <= bp \/ bp + 16 <= lastof base l1).
Proof.
  intros [] []. destruct l1 as [|[b k] l1 _] using rev_ind; [unfold lastof; simpl; lia|]. rewrite lastof_snoc. apply gapped_in in iv_gap0.
  apply Forall_app in iv_gap0 as [Hg _], lo_free0 as [Hl _]. apply Forall_app in Hg as [_ Hg], Hl as [_ Hl]. apply Forall_cons in Hg as [Hg _], Hl as [Hl _]. unfold disj in Hl. simpl in *. lia.
Qed.

Lemma slot_after h A bp n l1 l2 : inv h (l1 ++ l2) A -> loose h (l1 ++ l2) A bp n -> Forall (fun b => bp < fst b) l2 -> Forall (fun b => bp + 16 * n <= fst b) l2.
Proof.
  intros [] [] Hl2. apply gapped_in in iv_gap0. apply Forall_app in iv_gap0 as [_ Hg], lo_free0 as [_ Hl]. apply Forall_forall. intros [c k] Hin.
  eapply Forall_forall in Hl; [|done]. eapply Forall_forall in Hl2; [|done]. eapply Forall_forall in Hg; [|done]. unfold disj in Hl. simpl in *. lia.
Qed.

Lemma free_right_spec h A bp n l1 l2 :
  inv h (l1 ++ l2) A -> loose h (l1 ++ l2) A bp n -> Forall (fun b => bp < fst b) l2 ->
  wp (free_right bp (lastof base l1)) (fun _ h' =>
    memonly h h' /\ except bp (h_mem h) (h_mem h') /\ psz (h_mem h') bp = fst (join_right bp n l2) /\ chain (h_mem h') bp (snd (join_right bp n l2)) base) h.
Proof.
  intros Iv Lo Hl2. pose proof Iv as []. pose proof Lo as [Lin Lsz Lf La]. pose proof (chain_first _ _ _ _ (proj2 (proj1 (chain_cat _ _ _ _ _) iv_chain0))) as Hnx. pose proof (proj1 (gapped_app _ _ _ _) iv_gap0) as [Hg1 Hg2].
  destruct (slot_before _ _ _ _ _ _ Iv Lo) as [Hp Lp]. pose proof (slot_after _ _ _ _ _ _ Iv Lo Hl2) as Hd2.
  unfold free_right. apply wp_bind, wp_hsize; [lia|lia|]. rewrite Lsz. apply wp_bind, wp_hptr; [lia|lia|]. rewrite Hnx. unfold HDR. rewrite u64_id by lia. destruct (Z.eqb_spec (bp + n * 16) (firstof l2 base)) as [E|E].
  - destruct (firstof_ne l2 bp n) as (k & l & ->); [lia|lia|lia|done|lia|]. simpl in *. rewrite decide_True by done. apply Forall_cons in Hd2 as [_ Hd2]. destruct Hg2 as (Hg2 & Hk & Hg3). pose proof (gapped_le _ _ _ Hg3) as Hle.
    pose proof (proj1 (chain_app _ _ _ _ _ _ _) iv_chain0) as (Hc1 & Hck & Hc2).
    apply wp_bind, wp_hsize; [lia|lia|]. replace (psz (h_mem h) (bp + 16 * n)) with k by done. apply wp_bind, wp_set_size; [lia|lia|]. rewrite u32_id by lia.
    set (h1 := h <| h_mem := _ |>). assert (X1 : except bp (h_mem h) (h_mem h1)) by (apply wr_except; lia).
    apply wp_bind, wp_hptr; [lia|simpl; lia|]. rewrite (proj1 (except_hdr _ _ _ _ X1 Lp)), Hnx. simpl. apply wp_bind, wp_hptr; [lia|simpl; lia|].
    rewrite (proj1 (except_hdr _ (bp + 16 * n) _ _ X1 ltac:(lia))). apply wp_set_ptr; [lia|simpl; lia|]. simpl. split_and!; [done| | |].
    + eapply except_trans; [exact X1|]. apply wr_except; lia.
    + rewrite rd_wr_other by lia. apply rd4_wr4. lia.
    + apply (chain_from (h_mem h) (bp + 16 * n)); [done| |].
      * rewrite rd8_wr8; [done|]. rewrite (chain_first _ _ _ _ Hc2). destruct l as [|[c j] l]; simpl; [lia|]. simpl in Hg3. destruct Hg3 as (? & ? & Hg3). apply gapped_le in Hg3. lia.
      * assert (X2 : except bp (h_mem h) (wr (wr (h_mem h) (bp + 8) 4 (n + k)) bp 8 (pptr (h_mem h) (bp + 16 * n)))) by (eapply except_trans; apply wr_except; lia).
        eapply Forall_impl; [exact Hd2|]. intros x Hx. apply (except_hdr _ _ _ _ X2). simpl in Hx. lia.
  - replace (join_right bp n l2) with (n, l2) by (unfold join_right; destruct l2 as [|[c k] l]; [done|]; rewrite decide_False; [done|simpl in E; lia]). cbn [fst snd].
    apply wp_set_ptr; [lia|lia|]. set (h1 := h <| h_mem := _ |>). assert (X1 : except bp (h_mem h) (h_mem h1)) by (apply wr_except; lia). split_and!; [done|done| |].
    + simpl. rewrite rd_wr_other by lia. done.
    + apply (chain_from (h_mem h) (lastof base l1)); [by apply chain_cat in iv_chain0 as [_ ?]| |].
      * simpl. rewrite rd8_wr8; [done|]. destruct l2 as [|[c j] l]; simpl; [lia|]. apply Forall_cons in Hd2 as [Hd2 _]. simpl in Hd2. simpl in Hg2. destruct Hg2 as (? & ? & Hg3). apply gapped_le in Hg3. lia.
      * eapply Forall_impl; [exact Hd2|]. intros x Hx. apply (except_hdr _ _ _ _ X1). simpl in Hx. lia.
Qed.

(** The list with the block [(bp, n)] after [l], joined to the last block of [l] if that ends at [bp]. *)
Definition join_left l (bp n : Z) : list (Z * Z) :=
  match List.rev l with
  | (p, j) :: l' => if decide (p + 16 * j = bp) then List.rev l' ++ [(p, j + n)] else l ++ [(bp, n)]
  | [] => [(bp, n)]
  end.

Lemma join_left_nil bp n : join_left [] bp n = [(bp, n)].
Proof. done. Qed.
Lemma join_left_snoc l p j bp n : join_left (l ++ [(p, j)]) bp n = if decide (p + 16 * j = bp) then l ++ [(p, j + n)] else l ++ [(p, j); (bp, n)].
Proof. unfold join_left. rewrite rev_app_distr. cbn [List.rev app]. case_decide; [by rewrite rev_involutive|]. by rewrite <-app_assoc. Qed.

Lemma free_left_spec h A bp n l1 l2 m0 :
  0 < base /\ base + 16 <= lo -> lo <= h_sz h < 2 ^ 36 -> lo <= bp -> 1 <= n -> bp + 16 * n <= h_sz h ->
  gapped (lo - 1) l1 (endof (lo - 1) l1) -> endof (lo - 1) l1 <= bp -> Forall (fun b => bp + 16 * n <= fst b) l2 ->
  psz (h_mem h) base = 0 -> psz (h_mem h) bp = n -> chain (h_mem h) base l1 m0 -> chain (h_mem h) bp l2 base ->
  Forall (fun b => 0 <= fst b < 2 ^ 64) l2 ->
  wp (free_left bp (lastof base l1)) (fun _ h' =>
    memonly h h' /\ except (lastof base l1) (h_mem h) (h_mem h') /\ psz (h_mem h') base = 0 /\ chain (h_mem h') base (join_left l1 bp n ++ l2) base) h.
Proof.
  intros Hb Hsz Hbp Hn Hin Hg He Hl2 Sb Sbp Hc1 Hc2 Hr. unfold free_left. destruct l1 as [|[p j] l1 _] using rev_ind.
  - change (lastof base []) with base. apply wp_bind, wp_hsize; [lia|lia|]. rewrite Sb. unfold HDR. rewrite u64_id by lia. rewrite (proj2 (Z.eqb_neq _ _)) by lia.
    apply wp_set_ptr; [lia|lia|]. set (h1 := h <| h_mem := _ |>). assert (X1 : except base (h_mem h) (h_mem h1)) by (apply wr_except; lia).
    split_and!; [done|done|simpl; by rewrite rd_wr_other by lia|]. rewrite join_left_nil. cbn [app chain]. split_and!; [apply rd8_wr8; lia|rewrite (proj2 (except_hdr _ bp _ _ X1 ltac:(lia))); done|].
    apply (chain_frame (h_mem h)); [by apply (except_hdr _ _ _ _ X1); lia| |done]. eapply Forall_impl; [exact Hl2|]. intros x Hx. apply (except_hdr _ _ _ _ X1). simpl in Hx. lia.
  - rewrite lastof_snoc, join_left_snoc. rewrite endof_app in *. pose proof (proj1 (gapped_app _ _ _ _) Hg) as (Hg1 & Hg2 & Hj & _). pose proof (gapped_le _ _ _ Hg1). apply chain_app in Hc1 as (Hc1 & Sp & Hc0). cbn [chain] in Hc0.
    assert (Hd1 : Forall (fun b => fst b + 16 <= p) l1) by (eapply gapped_apart; exact Hg). 
    assert (Hd0 : Forall (fun b => base + 16 <= fst b) l1) by (eapply Forall_impl; [by apply (gapped_in _ _ _ Hg1)|]; simpl; lia).
    apply wp_bind, wp_hsize; [lia|lia|]. rewrite Sp. unfold HDR. rewrite u64_id by lia. destruct (Z.eqb_spec (p + j * 16) bp) as [E|E].
    + rewrite decide_True by lia. apply wp_bind, wp_hsize; [lia|lia|]. rewrite Sbp. apply wp_bind, wp_set_size; [lia|lia|]. rewrite u32_id by lia.
      set (h1 := h <| h_mem := _ |>). assert (X1 : except p (h_mem h) (h_mem h1)) by (apply wr_except; lia). apply wp_bind, wp_hptr; [lia|simpl; lia|].
      rewrite (proj1 (except_hdr _ bp _ _ X1 ltac:(lia))). apply wp_set_ptr; [lia|simpl; lia|]. set (h2 := h1 <| h_mem := _ |>).
      assert (X2 : except p (h_mem h) (h_mem h2)) by (eapply except_trans; [exact X1|apply wr_except; lia]).
      split_and!; [done|done|by rewrite (proj2 (except_hdr _ base _ _ X2 ltac:(lia)))|]. rewrite <-app_assoc. cbn [app]. apply chain_app. split_and!.
      * apply (chain_frame (h_mem h)); [by apply (except_hdr _ _ _ _ X2); lia| |done]. eapply Forall_impl; [exact Hd1|]. intros x Hx. apply (except_hdr _ _ _ _ X2). simpl in Hx. lia.
      * simpl. rewrite rd_wr_other by lia. apply rd4_wr4. lia.
      * apply (chain_from (h_mem h) bp); [done| |eapply Forall_impl; [exact Hl2|]; intros x Hx; apply (except_hdr _ _ _ _ X2); simpl in Hx; lia].
        simpl. apply rd8_wr8. rewrite (chain_first _ _ _ _ Hc2). destruct l2 as [|[c k] l2]; simpl; [lia|]. by apply Forall_cons in Hr as [? _].
    + rewrite decide_False by lia. apply wp_set_ptr; [lia|lia|]. set (h1 := h <| h_mem := _ |>). assert (X1 : except p (h_mem h) (h_mem h1)) by (apply wr_except; lia).
      split_and!; [done|done|by rewrite (proj2 (except_hdr _ base _ _ X1 ltac:(lia)))|]. rewrite <-app_assoc. cbn [app]. apply chain_app. split_and!.
      * apply (chain_frame (h_mem h)); [by apply (except_hdr _ _ _ _ X1); lia| |done]. eapply Forall_impl; [exact Hd1|]. intros x Hx. apply (except_hdr _ _ _ _ X1). simpl in Hx. lia.
      * simpl. rewrite rd_wr_other by lia. done.
      * cbn [chain]. split_and!; [apply rd8_wr8; lia|by rewrite (proj2 (except_hdr _ bp _ _ X1 ltac:(lia)))|].
        apply (chain_frame (h_mem h)); [by apply (except_hdr _ _ _ _ X1); lia| |done]. eapply Forall_impl; [exact Hl2|]. intros x Hx. apply (except_hdr _ _ _ _ X1). simpl in Hx. lia.
Qed.

(** ** The lists that joining makes *)

Definition total l : Z := foldr (fun b t => snd b + t) 0 l.
Lemma total_app l1 l2 : total (l1 ++ l2) = total l1 + total l2.
Proof. induction l1 as [|b l1 IH]; simpl; [done|]. lia. Qed.

Lemma join_right_gapped e bp n l hi : gapped e l hi -> Forall (fun b => bp + 16 * n <= fst b) l -> 1 <= n -> bp + 16 * n <= hi ->
  gapped (bp + 16 * fst (join_right bp n l)) (snd (join_right bp n l)) hi /\ n <= fst (join_right bp n l).
Proof.
  intros Hg Hl Hn Hhi. destruct l as [|[c k] l]; simpl; [lia|]. destruct Hg as (_ & Hk & Hg). apply Forall_cons in Hl as [Hc _]. simpl in Hc.
  case_decide as E; simpl; [|split_and!; [lia|lia|done|lia]]. replace (bp + 16 * (n + k)) with (c + 16 * k) by lia. split; [done|lia].
Qed.

Lemma join_right_total bp n l : fst (join_right bp n l) + total (snd (join_right bp n l)) = n + total l.
Proof. destruct l as [|[c k] l]; simpl; [lia|]. case_decide; simpl; lia. Qed.

Lemma join_right_disj y bp n l : 1 <= snd y -> disj y (bp, n) -> Forall (disj y) l -> disj y (bp, fst (join_right bp n l)) /\ Forall (disj y) (snd (join_right bp n l)).
Proof.
  intros Hy H Hl. destruct l as [|[c k] l]; simpl; [done|]. case_decide as E; simpl; [|done]. apply Forall_cons in Hl as [Hc Hl]. split; [|done]. unfold disj in *. simpl in *. lia.
Qed.

Lemma join_right_in (P : Z * Z -> Prop) bp n l : Forall P l -> Forall P (snd (join_right bp n l)).
Proof. destruct l as [|[c k] l]; simpl; [done|]. intros [? ?]%Forall_cons. case_decide; simpl; [done|by constructor]. Qed.

Lemma join_left_gapped e bp n l1 l2 hi :
  gapped e l1 (endof e l1) -> endof e l1 <= bp -> e < bp -> 1 <= n -> gapped (bp + 16 * n) l2 hi -> gapped e (join_left l1 bp n ++ l2) hi.
Proof.
  intros Hg He Hlo Hn H2. destruct l1 as [|[p j] l1 _] using rev_ind; [by rewrite join_left_nil|]. rewrite endof_app in *. pose proof (proj1 (gapped_app _ _ _ _) Hg) as (Hg1 & Hg2 & Hj & _).
  rewrite join_left_snoc. case_decide as E; rewrite <-app_assoc; cbn [app]; apply gapped_app; cbn [gapped]; split_and!; try done; try lia.
  by replace (p + 16 * (j + n)) with (bp + 16 * n) by lia.
Qed.

Lemma join_left_total l bp n : total (join_left l bp n) = total l + n.
Proof.
  destruct l as [|[p j] l _] using rev_ind; [rewrite join_left_nil; simpl; lia|]. rewrite join_left_snoc. case_decide; rewrite !total_app; simpl; lia.
Qed.

Lemma join_left_disj y l bp n : 1 <= snd y -> disj y (bp, n) -> Forall (disj y) l -> Forall (disj y) (join_left l bp n).
Proof.
  intros Hy H Hl. destruct l as [|[p j] l _] using rev_ind; [rewrite join_left_nil; by constructor|]. rewrite join_left_snoc. apply Forall_app in Hl as [Hl Hj]. apply Forall_cons in Hj as [Hj _].
  case_decide as E; apply Forall_app; (split; [done|]); rewrite ?Forall_cons; [|done]. split; [|done]. unfold disj in *. simpl in *. lia.
Qed.

Lemma join_left_last l bp n : lastof base l ∈ base :: map fst (join_left l bp n).
Proof.
  destruct l as [|[p j] l _] using rev_ind; [set_solver|]. rewrite lastof_snoc, join_left_snoc. case_decide; rewrite map_app; simpl; set_solver.
Qed.

Lemma join_left_big l bp n : Forall (fun b => 1 <= snd b) l -> Exists (fun b => n <= snd b) (join_left l bp n).
Proof.
  intros Hl. destruct l as [|[p j] l _] using rev_ind; [rewrite join_left_nil; constructor; simpl; lia|]. rewrite join_left_snoc. apply Forall_app in Hl as [_ Hj]. apply Forall_cons in Hj as [Hj _]. simpl in Hj.
  case_decide; apply Exists_app; right; [constructor; simpl; lia|apply Exists_cons_tl; constructor; simpl; lia].
Qed.

Lemma join_length bp n l1 l2 : (length (join_left l1 bp (fst (join_right bp n l2)) ++ snd (join_right bp n l2)) <= S (length (l1 ++ l2)))%nat.
Proof.
  assert (Hr : (length (snd (join_right bp n l2)) <= length l2)%nat) by (destruct l2 as [|[c k] l]; simpl; [lia|]; case_decide; simpl; lia).
  rewrite !length_app. destruct l1 as [|[p j] l1 _] using rev_ind; [rewrite join_left_nil; simpl; lia|]. rewrite join_left_snoc. case_decide; rewrite !length_app; simpl; lia.
Qed.

(** ** Freeing a block *)

(** The header before a place in the list is in no allocated block. *)
Lemma header_apart h l1 l2 A a k : inv h (l1 ++ l2) A -> A !! a = Some k -> lastof base l1 + 16 <= a \/ a + 16 * k <= lastof base l1.
Proof.
  intros [] Ha. destruct (iv_alloc0 a k Ha) as (H1 & H2 & _). destruct l1 as [|[p j] l1 _] using rev_ind; [change (lastof base []) with base; lia|]. rewrite lastof_snoc. pose proof (iv_cross0 a k Ha) as Hc. apply gapped_in in iv_gap0.
  apply Forall_app in iv_gap0 as [Hg _], Hc as [Hc _]. apply Forall_app in Hg as [_ Hg], Hc as [_ Hc]. apply Forall_cons in Hg as [Hg _], Hc as [Hc _]. unfold disj in Hc. simpl in *. lia.
Qed.

(** What a process has in its blocks stays. *)
Definition kept A h h' : Prop := forall a n x, A !! a = Some n -> a <= x < a + 16 * n -> h_mem h' x = h_mem h x.

Lemma free_core fuel h bs A bp n :
  inv h bs A -> loose h bs A bp n -> (2 * length bs + 2 <= fuel)%nat ->
  wp (free fuel (bp + HDR)) (fun _ h' => exists bs', inv h' bs' A /\ kept A h h' /\ h_sz h' = h_sz h /\ h_calls h' = h_calls h /\
    total bs' = total bs + n /\ Exists (fun b => n <= snd b) bs' /\ (length bs' <= S (length bs))%nat) h.
Proof.
  intros Iv Lo Hf. destruct (free_loop_spec fuel bp n bs A h Iv Lo Hf) as (l1 & l2 & -> & Hl1 & Hl2 & Hrun). pose proof Iv as []. pose proof Lo as [Lin Lsz Lf La].
  unfold free, HDR. replace (bp + 16 - 16) with bp by lia. rewrite u64_id by lia. apply wp_bind, wp_get, wp_bind. unfold wp at 1. rewrite Hrun.
  apply wp_bind. eapply wp_conseq; [by eapply free_right_spec|]. cbn beta. intros _ h1 ((F1 & Z1 & C1) & X1 & S1 & Ch1). pose proof (slot_after _ _ _ _ _ _ Iv Lo Hl2) as Hd2. destruct (slot_before _ _ _ _ _ _ Iv Lo) as [Hp Lp].
  pose proof (proj1 (gapped_app _ _ _ _) iv_gap0) as [Hg1 Hg2]. destruct (join_right_gapped _ bp n l2 _ Hg2 Hd2) as [Hg2' Hn']; [lia|lia|]. pose proof (gapped_le _ _ _ Hg2'). set (n' := fst _) in *. set (l2' := snd _) in *.
  assert (He : endof (lo - 1) l1 <= bp) by (eapply gapped_end; [exact iv_gap0|lia|apply Lin|done|by apply Forall_app in Lf as [Lf _]]).
  pose proof (Forall_impl _ _ _ (gapped_in _ _ _ Hg2') (fun b H => H)) as Hin2.
  apply wp_bind. eapply wp_conseq; [apply (free_left_spec h1 A bp n' l1 l2' (firstof l2 base)); rewrite ?Z1; try done; try lia|].
  - eapply Forall_impl; [exact Hin2|]. simpl. lia.
  - rewrite (proj2 (except_hdr _ base _ _ X1 ltac:(lia))). done.
  - apply (chain_frame (h_mem h)); [by apply (except_hdr _ _ _ _ X1); lia| |].
    + apply Forall_app in Lf as [Lf _]. apply Forall_forall. intros [b k] Hb. eapply Forall_forall in Lf; [|done]. eapply Forall_forall in Hl1; [|done]. apply gapped_in in Hg1. eapply Forall_forall in Hg1; [|done].
      apply (except_hdr _ _ _ _ X1). unfold disj in Lf. simpl in *. lia.
    + by apply chain_cat in iv_chain0 as [? _].
  - eapply Forall_impl; [exact Hin2|]. simpl. lia.
  - cbn beta. intros _ h2 ((F2 & Z2 & C2) & X2 & S2 & Ch2). apply wp_modify. exists (join_left l1 bp n' ++ l2').
    assert (Hk : kept A h h2).
    { intros a k x Ha Hx. pose proof (header_apart h l1 l2 A a k Iv Ha). pose proof (La a k Ha) as Hd. unfold disj in Hd. simpl in Hd. rewrite X2, X1 by lia. done. }
    split_and!; [|exact Hk|simpl; congruence|simpl; congruence| | |apply join_length].
    + split; simpl; rewrite ?Z2, ?Z1; try done.
      * apply (join_left_gapped _ _ _ l1 l2'); [done|done|lia|lia|done].
      * rewrite map_app. pose proof (join_left_last l1 bp n'). set_solver.
      * intros a k Ha. destruct (iv_alloc0 a k Ha) as (? & ? & ? & <-). split_and!; [done|done|done|]. apply rd_ext. intros x Hx. apply (Hk a _ x Ha). lia.
      * intros a k Ha. pose proof (iv_alloc0 a k Ha) as (_ & Hk1 & _). pose proof (iv_cross0 a k Ha) as Hc. apply Forall_app in Hc as [Hc1 Hc2]. pose proof (La a k Ha) as Hd.
        destruct (join_right_disj (a, k) bp n l2) as [Hd1 Hd3]; [done|unfold disj in *; simpl in *; lia|done|]. apply Forall_app. split; [by apply join_left_disj|done].
    + rewrite !total_app, join_left_total. pose proof (join_right_total bp n l2). unfold n', l2'. lia.
    + apply Exists_app. left. eapply Exists_impl; [apply (join_left_big l1 bp n')|]; [|simpl; lia]. eapply Forall_impl; [by apply (gapped_in _ _ _ Hg1)|]. simpl. lia.
Qed.

(** ** Taking a block *)

Lemma gapped_disj e l1 a n l2 hi : gapped e (l1 ++ (a, n) :: l2) hi -> Forall (disj (a, n)) (l1 ++ l2).
Proof.
  intros [H1 (H2 & Hn & H3)]%gapped_app. apply Forall_app. apply gapped_in in H1, H3. split; (eapply Forall_impl; [eassumption|]); intros [b k]; unfold disj; simpl; lia.
Qed.

(** A block that begins or ends where a free one does can be cut from it. *)
Lemma alloc_new h h' bs bs' A q nu :
  inv h bs A -> kept A h h' -> h_sz h' = h_sz h -> lo <= q -> 1 <= nu -> q + 16 * nu <= h_sz h ->
  (forall a n, A !! a = Some n -> disj (a, n) (q, nu) /\ Forall (disj (a, n)) bs') -> Forall (disj (q, nu)) bs' ->
  chain (h_mem h') base bs' base -> psz (h_mem h') base = 0 -> psz (h_mem h') q = nu -> gapped (lo - 1) bs' (h_sz h) -> h_freep h' ∈ base :: map fst bs' ->
  A !! q = None /\ inv h' bs' (<[q := nu]> A).
Proof.
  intros [] Hk Hz Hq Hnu Hin HA Hd Hc Hb Hs Hg Hf. assert (Hnone : A !! q = None).
  { destruct (A !! q) as [k|] eqn:E; [|done]. destruct (HA q k E) as [H _]. destruct (iv_alloc0 q k E) as (_ & ? & _). unfold disj in H. simpl in H. lia. }
  split; [done|]. split; rewrite ?Hz; try done.
  - intros a n. rewrite lookup_insert. case_decide as E; [intros [= <-]; subst; done|]. intros Ha. destruct (iv_alloc0 a n Ha) as (? & ? & ? & <-). split_and!; [done|done|done|].
    apply rd_ext. intros x Hx. apply (Hk a _ x Ha). lia.
  - intros a n b k. rewrite !lookup_insert. repeat case_decide; subst; intros Ha Hb' Hne; simplify_eq.
    + destruct (HA b k Hb') as [H _]. unfold disj in *. simpl in *. lia.
    + by apply HA.
    + by apply (iv_apart0 a n b k).
  - intros a n. rewrite lookup_insert. case_decide; [intros [= <-]; by subst|]. intros Ha. by apply HA.
Qed.

(** A free block and what is around it. *)
Lemma free_block h l1 a n l2 A :
  inv h (l1 ++ (a, n) :: l2) A ->
  (base <= lastof base l1 /\ lastof base l1 + 16 <= a) /\ (1 <= n /\ lo <= a /\ a + 16 * n <= h_sz h /\ psz (h_mem h) a = n) /\
  (Forall (fun b => base + 16 <= fst b /\ fst b + 16 <= a) l1 /\ Forall (fun b => a + 16 * n <= fst b) l2) /\
  (forall b k, A !! b = Some k -> disj (b, k) (a, n) /\ Forall (disj (b, k)) (l1 ++ l2) /\ 1 <= k).
Proof.
  intros []. pose proof (proj1 (chain_app _ _ _ _ _ _ _) iv_chain0) as (_ & Hs & _). pose proof (proj1 (gapped_app _ _ _ _) iv_gap0) as (Hg1 & Hg2 & Hn & Hg3).
  pose proof (gapped_le _ _ _ Hg3) as Hle. pose proof (gapped_le _ _ _ Hg1) as Hle1. pose proof (gapped_apart _ _ _ _ _ _ iv_gap0) as [Ap _]. apply gapped_in in Hg1, Hg3.
  assert (H1 : Forall (fun b => base + 16 <= fst b /\ fst b + 16 <= a) l1).
  { apply Forall_forall. intros b Hb. eapply Forall_forall in Ap; [|done]. eapply Forall_forall in Hg1; [|done]. simpl in *. lia. }
  split_and!; try done; try lia.
  - pose proof (lastof_in base l1) as [E|([b k] & E & Hb)%list_elem_of_fmap]%elem_of_cons; [rewrite E; lia|]. rewrite E. eapply Forall_forall in H1; [|done]. simpl in *. lia.
  - pose proof (lastof_in base l1) as [E|([b k] & E & Hb)%list_elem_of_fmap]%elem_of_cons; [rewrite E; lia|]. rewrite E. eapply Forall_forall in H1; [|done]. simpl in *. lia.
  - eapply Forall_impl; [exact Hg3|]. simpl. lia.
  - intros b k Hb. pose proof (iv_cross0 b k Hb) as Hc. apply Forall_app in Hc as [? Hc]. apply Forall_cons in Hc as [? ?]. destruct (iv_alloc0 b k Hb) as (_ & ? & _). split_and!; [done|by apply Forall_app|done].
Qed.

Lemma others_before l1 l2 hi b : base + 16 <= lo -> gapped (lo - 1) (l1 ++ l2) hi -> b ∈ base :: map fst l1 -> b <> lastof base l1 -> b + 16 <= lastof base l1.
Proof.
  intros Hlo Hg Hb Hne. destruct l1 as [|[p j] l1 _] using rev_ind; [change (lastof base []) with base in Hne; set_solver|]. rewrite lastof_snoc in *. rewrite <-app_assoc in Hg. pose proof (gapped_apart _ _ _ _ _ _ Hg) as [Ha _].
  apply gapped_in in Hg. apply Forall_app in Hg as [_ Hg]. apply Forall_cons in Hg as [Hg _]. simpl in Hg. apply elem_of_cons in Hb as [->|([c k] & -> & Hb)%list_elem_of_fmap]; [lia|].
  apply elem_of_app in Hb as [Hb|Hb%list_elem_of_singleton]; [|by simplify_eq]. eapply Forall_forall in Ha; [|done]. exact Ha.
Qed.

(** The whole block goes. *)
Lemma take_whole h l1 a n l2 A h' :
  inv h (l1 ++ (a, n) :: l2) A -> h' = h <| h_mem := wr (h_mem h) (lastof base l1) 8 (pptr (h_mem h) a) |> <| h_freep := lastof base l1 |> ->
  A !! a = None /\ inv h' (l1 ++ l2) (<[a := n]> A) /\ kept A h h'.
Proof.
  intros Iv Eh. destruct (free_block _ _ _ _ _ _ Iv) as (Hp & Ha & (Hl1 & Hl2) & HA). pose proof Iv as []. pose proof (proj1 (chain_app _ _ _ _ _ _ _) iv_chain0) as (Hc1 & _ & Hc2).
  assert (X : except (lastof base l1) (h_mem h) (h_mem h')) by (rewrite Eh; apply wr_except; lia).
  assert (K : kept A h h'). { intros b k x Hb Hx. apply X. pose proof (header_apart h l1 _ A b k Iv Hb). lia. }
  assert (Hnd : NoDup (base :: map fst l1)).
  { apply NoDup_cons. split; [|apply gapped_app in iv_gap0 as [Hg _]; by eapply gapped_nodup]. intros ([b k] & E & Hb)%list_elem_of_fmap. eapply Forall_forall in Hl1; [|done]. simpl in *. lia. }
  assert (Hptr : pptr (h_mem h') (lastof base l1) = pptr (h_mem h) a).
  { rewrite Eh. simpl. apply rd8_wr8. rewrite (chain_first _ _ _ _ Hc2). destruct l2 as [|[c k] l2]; simpl; [lia|]. apply gapped_in in iv_gap0. apply Forall_app in iv_gap0 as [_ Hg].
    apply Forall_cons in Hg as [_ Hg]. apply Forall_cons in Hg as [Hg _]. simpl in Hg. lia. }
  assert (Hsame : forall b, b ∈ base :: map fst l1 -> b <> lastof base l1 -> b + 16 <= lastof base l1) by (intros b; apply (others_before l1 ((a, n) :: l2) (h_sz h)); [lia|done]).
  destruct (alloc_new h h' (l1 ++ (a, n) :: l2) (l1 ++ l2) A a n) as [? ?]; try done; try lia.
  - by rewrite Eh.
  - intros b k Hb. by destruct (HA b k Hb) as (? & ? & _).
  - by eapply gapped_disj.
  - apply chain_cat. split.
    + apply (chain_relink (h_mem h) _ _ _ a); [| | |done|done].
      * intros b Hb Hne. apply (except_hdr _ _ _ _ X). left. by apply Hsame.
      * apply Forall_forall. intros [b k] Hb. simpl. apply rd_ext. intros x Hx. rewrite Eh. simpl. apply wr_other. destruct (decide (b = lastof base l1)) as [->|Hne]; [lia|].
        assert (b + 16 <= lastof base l1); [|lia]. apply Hsame; [|done]. apply elem_of_cons. right. apply list_elem_of_fmap. by exists (b, k).
      * rewrite Hptr. by apply chain_first.
    + apply (chain_from (h_mem h) a); [done|done|]. eapply Forall_impl; [exact Hl2|]. intros b Hb. apply (except_hdr _ _ _ _ X). simpl in Hb. lia.
  - rewrite <-iv_bsize0. apply rd_ext. intros x Hx. rewrite Eh. simpl. apply wr_other. destruct (decide (lastof base l1 = base)) as [->|Hne]; [lia|]. specialize (Hsame base ltac:(set_solver) ltac:(done)). lia.
  - rewrite (proj2 (except_hdr _ a _ _ X ltac:(lia))). by destruct Ha as (_ & _ & _ & ->).
  - apply gapped_app in iv_gap0 as (Hg1 & Hg2 & Hn & Hg3). apply gapped_app. split; [done|]. eapply gapped_lo; [exact Hg3|lia].
  - rewrite Eh. simpl. rewrite map_app. pose proof (lastof_in base l1). set_solver.
Qed.

(** The end of the block goes. *)
Lemma take_end h l1 a n l2 A nu h' :
  inv h (l1 ++ (a, n) :: l2) A -> 1 <= nu < n -> nu < 2 ^ 32 ->
  h' = h <| h_mem := wr (wr (h_mem h) (a + 8) 4 (n - nu)) (a + 16 * (n - nu) + 8) 4 nu |> <| h_freep := lastof base l1 |> ->
  A !! (a + 16 * (n - nu)) = None /\ inv h' (l1 ++ (a, n - nu) :: l2) (<[a + 16 * (n - nu) := nu]> A) /\ kept A h h'.
Proof.
  intros Iv Hnu H32 Eh. destruct (free_block _ _ _ _ _ _ Iv) as (Hp & Ha & (Hl1 & Hl2) & HA). pose proof Iv as []. pose proof (proj1 (chain_app _ _ _ _ _ _ _) iv_chain0) as (Hc1 & _ & Hc2). set (q := a + 16 * (n - nu)) in *.
  assert (X : forall x, ~ (a + 8 <= x < a + 12) -> ~ (q + 8 <= x < q + 12) -> h_mem h' x = h_mem h x) by (intros x H1 H2; rewrite Eh; simpl; rewrite !wr_other by lia; done).
  assert (Hh : forall b, b + 16 <= a \/ a + 16 * n <= b -> pptr (h_mem h') b = pptr (h_mem h) b /\ psz (h_mem h') b = psz (h_mem h) b) by (intros b Hb; split; apply rd_ext; intros x Hx; apply X; lia).
  assert (K : kept A h h'). { intros b k x Hb Hx. destruct (HA b k Hb) as (Hd & _). unfold disj in Hd. simpl in Hd. apply X; lia. }
  pose proof (gapped_disj _ _ _ _ _ _ iv_gap0) as Hdj. pose proof (proj1 (gapped_app _ _ _ _) iv_gap0) as (Hg1 & Hg2 & Hn & Hg3).
  destruct (alloc_new h h' (l1 ++ (a, n) :: l2) (l1 ++ (a, n - nu) :: l2) A q nu) as [? ?]; try done; try lia.
  - by rewrite Eh.
  - intros b k Hb. destruct (HA b k Hb) as (Hd & Hf & Hk). apply Forall_app in Hf as [Hf1 Hf2]. rewrite Forall_app, Forall_cons. unfold disj in Hd. simpl in Hd. split_and!; [|done| |done]; unfold disj; simpl; lia.
  - apply Forall_app in Hdj as [Hd1 Hd2]. rewrite Forall_app, Forall_cons. split_and!; [| |].
    + eapply Forall_impl; [exact (proj2 (Forall_and _ _) (conj Hd1 Hl1))|]. intros [b k]. unfold disj. simpl. lia.
    + unfold disj. simpl. lia.
    + eapply Forall_impl; [exact Hl2|]. intros [b k]. unfold disj. simpl. lia.
  - apply chain_app. split_and!.
    + apply (chain_frame (h_mem h)); [apply Hh; lia| |done]. eapply Forall_impl; [exact Hl1|]. intros [b k]. simpl. intros ?. apply Hh. lia.
    + rewrite Eh. simpl. rewrite rd_wr_other by lia. apply rd4_wr4. lia.
    + apply (chain_frame (h_mem h)); [apply rd_ext; intros x Hx; apply X; lia| |done]. eapply Forall_impl; [exact Hl2|]. intros [b k]. simpl. intros ?. apply Hh. lia.
  - rewrite (proj2 (Hh base ltac:(lia))). done.
  - rewrite Eh. simpl. apply rd4_wr4. lia.
  - apply gapped_app. split; [done|]. cbn [gapped]. split_and!; [done|lia|]. eapply gapped_lo; [exact Hg3|lia].
  - rewrite Eh. simpl. rewrite map_app. pose proof (lastof_in base l1). set_solver.
Qed.

Lemma take_block_spec h l1 a n l2 A nu :
  inv h (l1 ++ (a, n) :: l2) A -> 1 <= nu <= n -> nu < 2 ^ 32 ->
  wp (take_block nu (lastof base l1) a) (fun r h' => exists q bs', r = q + HDR /\ A !! q = None /\ inv h' bs' (<[q := nu]> A) /\ kept A h h' /\
    h_sz h' = h_sz h /\ total bs' + nu = total (l1 ++ (a, n) :: l2)) h.
Proof.
  intros Iv Hnu H32. destruct (free_block _ _ _ _ _ _ Iv) as (Hp & (Hn & Ha & Hin & Hs) & _). pose proof (iv_sz _ _ _ Iv) as Hsz. pose proof (iv_base _ _ _ Iv) as Hb. unfold take_block. apply wp_bind, wp_hsize; [lia|lia|]. rewrite Hs.
  destruct (Z.eqb_spec n nu) as [->|Hne].
  - apply wp_bind, wp_bind, wp_hptr; [lia|lia|]. apply wp_bind, wp_set_ptr; [lia|lia|]. apply wp_ret, wp_bind, wp_modify, wp_ret. rewrite u64_id by (unfold HDR; lia).
    destruct (take_whole h l1 a nu l2 A _ Iv eq_refl) as (? & ? & ?). exists a, (l1 ++ l2). split_and!; try done. rewrite !total_app. simpl. lia.
  - rewrite u32_id by lia. unfold HDR. replace (a + (n - nu) * 16) with (a + 16 * (n - nu)) by lia. rewrite u64_id by lia.
    apply wp_bind, wp_bind, wp_set_size; [lia|lia|]. apply wp_bind, wp_set_size; [lia|simpl; lia|]. apply wp_ret, wp_bind, wp_modify, wp_ret. rewrite u64_id by lia.
    destruct (take_end h l1 a n l2 A nu _ Iv ltac:(lia) H32 eq_refl) as (? & ? & ?). exists (a + 16 * (n - nu)), (l1 ++ (a, n - nu) :: l2). split_and!; try done. rewrite !total_app. simpl. lia.
Qed.

(** ** The search for a block *)

Abbreviation mloop := (malloc_loop grows).

Lemma hsize_ok a h : 0 <= a -> a + 12 <= h_sz h -> hsize a h = Ok (psz (h_mem h) a) h.
Proof. intros H1 H2. unfold hsize, inside, bind, get. rewrite (proj2 (Z.leb_le 0 (a + 8))), (proj2 (Z.leb_le (a + 8 + 4) _)) by lia. done. Qed.
Lemma hptr_ok a h : 0 <= a -> a + 8 <= h_sz h -> hptr a h = Ok (pptr (h_mem h) a) h.
Proof. intros H1 H2. unfold hptr, inside, bind, get. rewrite (proj2 (Z.leb_le 0 a)), (proj2 (Z.leb_le (a + 8) _)) by lia. done. Qed.

Lemma loop_hit f nu prevp p h : 0 <= p -> p + 16 <= h_sz h -> nu <= psz (h_mem h) p -> mloop (S f) nu prevp p h = take_block nu prevp p h.
Proof. intros H1 H2 H3. cbn [malloc_loop]. unfold bind at 1. rewrite hsize_ok by lia. by rewrite (proj2 (Z.leb_le nu _)). Qed.

Lemma loop_skip f nu prevp p h : 0 <= p -> p + 16 <= h_sz h -> psz (h_mem h) p < nu -> p <> h_freep h -> mloop (S f) nu prevp p h = mloop f nu p (pptr (h_mem h) p) h.
Proof.
  intros H1 H2 H3 H4. cbn [malloc_loop]. unfold bind at 1. rewrite hsize_ok by lia. rewrite (proj2 (Z.leb_gt nu _)) by lia. unfold bind at 1, get. rewrite (proj2 (Z.eqb_neq p _)) by done.
  unfold bind. by rewrite hptr_ok by lia.
Qed.

Lemma loop_more f nu prevp p h : 0 <= p -> p + 16 <= h_sz h -> psz (h_mem h) p < nu -> p = h_freep h ->
  mloop (S f) nu prevp p h = (let* p := morecore grows f nu in if p =? 0 then ret 0 else let* nx := hptr p in mloop f nu p nx) h.
Proof.
  intros H1 H2 H3 H4. cbn [malloc_loop]. unfold bind at 1. rewrite hsize_ok by lia. rewrite (proj2 (Z.leb_gt nu _)) by lia. unfold bind at 1, get. by rewrite (proj2 (Z.eqb_eq p _)).
Qed.

(** Along a part of the list that [freep] is not on. *)
Lemma search_part f nu prevp l z h :
  chain (h_mem h) prevp l z -> Forall (fun b => 0 <= fst b /\ fst b + 16 <= h_sz h) l -> h_freep h ∉ map fst l ->
  (Forall (fun b => snd b < nu) l /\ mloop (length l + f) nu prevp (pptr (h_mem h) prevp) h = mloop f nu (lastof prevp l) z h) \/
  (exists l1 a n l2, l = l1 ++ (a, n) :: l2 /\ nu <= n /\ mloop (length l + f) nu prevp (pptr (h_mem h) prevp) h = take_block nu (lastof prevp l1) a h).
Proof.
  revert prevp. induction l as [|[b n] l IH]; intros prevp Hc Hl Hf; cbn [chain] in Hc; [left; rewrite Hc; done|]. destruct Hc as (-> & Hs & Hc). apply Forall_cons in Hl as [Hb Hl]. simpl in Hb.
  cbn [length Nat.add map fst] in *. destruct (Z.le_gt_cases nu n) as [Hle|Hgt].
  - right. exists [], b, n, l. split_and!; [done|done|]. apply loop_hit; [lia|lia|congruence].
  - rewrite loop_skip; [|lia|lia|congruence|set_solver]. destruct (IH b) as [[H1 H2]|(l1 & a & k & l2 & -> & H1 & H2)]; [done|done|set_solver| |].
    + left. rewrite lastof_cons. split; [by constructor|done].
    + right. exists ((b, n) :: l1), a, k, l2. by rewrite lastof_cons.
Qed.

(** From [freep] around the whole list. *)
Lemma search f nu h bs A :
  inv h bs A -> 1 <= nu ->
  (exists g q, Forall (fun b => snd b < nu) bs /\ (f <= g)%nat /\
     mloop (length bs + 2 + f) nu (h_freep h) (pptr (h_mem h) (h_freep h)) h = mloop (S g) nu q (h_freep h) h /\ psz (h_mem h) (h_freep h) < nu) \/
  (exists l1 a n l2, bs = l1 ++ (a, n) :: l2 /\ nu <= n /\ mloop (length bs + 2 + f) nu (h_freep h) (pptr (h_mem h) (h_freep h)) h = take_block nu (lastof base l1) a h).
Proof.
  intros [] Hnu. pose proof (gapped_in _ _ _ iv_gap0) as Hin. assert (Hl : Forall (fun b => 0 <= fst b /\ fst b + 16 <= h_sz h) bs) by (eapply Forall_impl; [exact Hin|]; simpl; lia).
  pose proof (gapped_nodup _ _ _ iv_gap0) as Hnd. apply elem_of_cons in iv_freep0 as [E|([p k] & E & Hp)%list_elem_of_fmap].
  - rewrite E. replace (length bs + 2 + f)%nat with (length bs + S (S f))%nat by lia. destruct (search_part (S (S f)) nu base bs base h) as [[H1 H2]|H]; [done|done| |left|right; exact H].
    + rewrite E. intros ([b n] & Eb & Hb)%list_elem_of_fmap. eapply Forall_forall in Hin; [|done]. simpl in *. lia.
    + exists (S f), (lastof base bs). split_and!; [done|lia|done|lia].
  - simpl in E. rewrite E. apply list_elem_of_split in Hp as (k1 & k2 & ->). apply Forall_app in Hl as [Hl1 Hl2]. apply Forall_cons in Hl2 as [Hlp Hl2]. simpl in Hlp.
    rewrite map_app in Hnd. cbn [map fst] in Hnd. apply NoDup_app in Hnd as (_ & Hnd1 & [Hnd2 _]%NoDup_cons). apply chain_app in iv_chain0 as (Hc1 & Hs & Hc2).
    assert (Hpb : p <> base). { apply Forall_app in Hin as [_ Hin]. apply Forall_cons in Hin as [Hin _]. simpl in Hin. lia. }
    rewrite length_app. cbn [length]. replace (length k1 + S (length k2) + 2 + f)%nat with (length k2 + S (length k1 + S (S f)))%nat by lia.
    destruct (search_part (S (length k1 + S (S f))) nu p k2 base h) as [[F2 E2]|(l1 & a & n & l2 & -> & Hn & E2)]; [done|done|by rewrite E| |].
    + rewrite E2, loop_skip; [|lia|lia|lia|congruence]. destruct (search_part (S (S f)) nu base k1 p h) as [[F1 E1]|(l1 & a & n & l2 & -> & Hn & E1)]; [done|done|rewrite E; intros ?; apply (Hnd1 p); set_solver| |].
      * rewrite E1. destruct (Z.le_gt_cases nu k) as [Hle|Hgt].
        -- right. exists k1, p, k, k2. split_and!; [done|done|]. apply loop_hit; [lia|lia|congruence].
        -- left. exists (S f), (lastof base k1). rewrite Hs. split_and!; [|lia|done|lia]. apply Forall_app. split; [done|by constructor].
      * right. exists l1, a, n, (l2 ++ (p, k) :: k2). rewrite <-app_assoc. done.
    + right. exists (k1 ++ (p, k) :: l1), a, n, l2. rewrite <-app_assoc, lastof_app. done.
Qed.

(** ** More memory *)

Lemma inv_grow h h' bs A : inv h bs A -> (forall x, x < h_sz h -> h_mem h' x = h_mem h x) -> h_freep h' = h_freep h -> h_sz h <= h_sz h' < 2 ^ 36 -> inv h' bs A.
Proof.
  intros [] Hm Hf Hz. pose proof (gapped_in _ _ _ iv_gap0) as Hin. assert (Hh : forall b, b + 16 <= h_sz h -> pptr (h_mem h') b = pptr (h_mem h) b /\ psz (h_mem h') b = psz (h_mem h) b) by (intros b Hb; split; apply rd_ext; intros x Hx; apply Hm; lia).
  split; try done.
  - apply (chain_frame (h_mem h)); [apply Hh; lia| |done]. eapply Forall_impl; [exact Hin|]. intros [b k]. simpl. intros ?. apply Hh. lia.
  - rewrite (proj2 (Hh base ltac:(lia))). done.
  - eapply gapped_hi; [done|lia].
  - by rewrite Hf.
  - lia.
  - intros a n Ha. destruct (iv_alloc0 a n Ha) as (? & ? & ? & <-). rewrite (proj2 (Hh a ltac:(lia))). split_and!; [done|done|lia|done].
Qed.

Lemma freep_in h bs A : inv h bs A -> base <= h_freep h /\ h_freep h + 16 <= h_sz h.
Proof.
  intros []. apply elem_of_cons in iv_freep0 as [->|([b j] & -> & Hin)%list_elem_of_fmap]; [lia|]. apply gapped_in in iv_gap0. eapply Forall_forall in iv_gap0; [|done]. simpl in *. lia.
Qed.

Lemma morecore_spec f h bs A nu :
  inv h bs A -> 1 <= nu -> 16 * nu < 2 ^ 31 -> h_sz h + 2 ^ 31 <= 2 ^ 36 -> (2 * length bs + 2 <= f)%nat ->
  wp (morecore grows f nu) (fun r h' =>
    r = 0 /\ grows (h_calls h) = false /\ inv h' bs A /\ h_mem h' = h_mem h /\ h_sz h' = h_sz h \/
    r = h_freep h' /\ r <> 0 /\ exists bs' k, inv h' bs' A /\ kept A h h' /\ h_sz h' = h_sz h + 16 * k /\ total bs' = total bs + k /\
      Exists (fun b => nu <= snd b) bs' /\ (length bs' <= S (length bs))%nat) h.
Proof.
  intros Iv Hnu Hb Hz Hf. pose proof (iv_base _ _ _ Iv) as Hbase. pose proof (iv_sz _ _ _ Iv) as Hsz. unfold morecore. set (k := if nu <? 4096 then 4096 else nu).
  assert (Hk : nu <= k /\ 4096 <= k /\ 16 * k < 2 ^ 31) by (subst k; destruct (Z.ltb_spec nu 4096); lia). clearbody k.
  unfold sbrk, HDR. rewrite s32_id by lia. apply wp_bind, wp_bind, wp_get, wp_bind, wp_modify. rewrite (proj2 (Z.ltb_lt 0 (k * 16))) by lia. destruct (grows (h_calls h)) eqn:Eg.
  - apply wp_bind, wp_modify, wp_ret. simpl. rewrite (u64_id (h_sz h + k * 16)) by lia. rewrite (proj2 (Z.eqb_neq _ _)) by (change (u64 (-1)) with (2 ^ 64 - 1); lia). apply wp_bind, wp_set_size; [lia|simpl; lia|].
    set (h2 := _ <| h_mem := _ |>). rewrite (u64_id (h_sz h + 16)) by lia.
    assert (Hm : forall x, x < h_sz h -> h_mem h2 x = h_mem h x) by (intros x Hx; subst h2; simpl; apply wr_other; lia).
    assert (Iv2 : inv h2 bs A) by (apply (inv_grow h); [done|done|done|subst h2; simpl; lia]).
    assert (Lo : loose h2 bs A (h_sz h) k).
    { split; [subst h2; simpl; lia|subst h2; simpl; apply rd4_wr4; lia| |].
      - eapply Forall_impl; [by apply (gapped_in _ _ _ (iv_gap _ _ _ Iv))|]. intros [b j]. unfold disj. simpl. lia.
      - intros a j Ha. destruct (iv_alloc _ _ _ Iv a j Ha) as (_ & _ & ? & _). unfold disj. simpl. lia. }
    apply wp_bind. eapply wp_conseq; [by apply (free_core f h2 bs A (h_sz h) k)|]. cbn beta. intros _ h3 (bs' & Iv3 & K3 & Z3 & _ & T3 & E3 & L3). apply wp_gets. right. split; [done|]. split.
    + pose proof (freep_in _ _ _ Iv3). lia.
    + exists bs', k. split_and!; [done| |rewrite Z3; subst h2; simpl; lia|done|eapply Exists_impl; [exact E3|]; simpl; lia|done].
      intros a n x Ha Hx. destruct (iv_alloc _ _ _ Iv a n Ha) as (_ & _ & ? & _). rewrite (K3 a n x Ha Hx). apply Hm. lia.
  - apply wp_ret. change (u64 (-1) =? u64 (-1)) with true. apply wp_ret. left. split_and!; [done|done| |done|done]. apply (inv_grow h); [done|done|done|simpl; lia].
Qed.

(** ** Accounting *)

Definition used A : Z := map_fold (fun _ n t => n + t) 0 A.
Lemma used_insert A a n : A !! a = None -> used (<[a := n]> A) = n + used A.
Proof. intros H. unfold used. rewrite map_fold_insert_L; [done| |done]. intros. lia. Qed.
Lemma used_delete A a n : A !! a = Some n -> used A = n + used (delete a A).
Proof. intros H. rewrite <-(insert_delete_id A a n) at 1 by done. apply used_insert. apply lookup_delete_eq. Qed.

(** The heap: not used yet, or with its list; and the blocks are all of the memory above [lo]. *)
Definition heap_ok h bs A : Prop :=
  16 * (total bs + used A) = h_sz h - lo /\
  (inv h bs A \/ h_freep h = 0 /\ bs = [] /\ A = ∅ /\ 0 < base /\ base + 16 <= lo /\ lo <= h_sz h < 2 ^ 36).

(** What a search that begins in [h] ends with. *)
Definition searched (nu : Z) h bs A (r : Z) h' : Prop :=
  r = 0 /\ grows (h_calls h) = false /\ Forall (fun b => snd b < nu) bs /\ inv h' bs A /\ h_mem h' = h_mem h /\ h_sz h' = h_sz h \/
  exists q bs', r = q + HDR /\ A !! q = None /\ inv h' bs' (<[q := nu]> A) /\ kept A h h' /\ 16 * (total bs' + nu) - h_sz h' = 16 * total bs - h_sz h.

Lemma malloc_loop_spec fuel h bs A nu :
  inv h bs A -> 1 <= nu -> 16 * nu < 2 ^ 31 -> h_sz h + 2 ^ 31 <= 2 ^ 36 -> (3 * length bs + 6 <= fuel)%nat ->
  wp (mloop fuel nu (h_freep h) (pptr (h_mem h) (h_freep h))) (searched nu h bs A) h.
Proof.
  intros Iv Hnu Hb Hz Hf. pose proof (iv_base _ _ _ Iv) as Hbase. replace fuel with (length bs + 2 + (fuel - length bs - 2))%nat by lia. pose proof (freep_in _ _ _ Iv) as Hfp.
  destruct (search (fuel - length bs - 2) nu h bs A Iv Hnu) as [(g & q & Hall & Hg & E & Hs)|(l1 & a & n & l2 & -> & Hn & E)].
  - rewrite loop_more in E by (done || lia). unfold wp. rewrite E. clear E. apply wp_bind.
    eapply wp_conseq; [apply (morecore_spec g h bs A nu); [done|done|done|done|lia]|]. cbn beta. intros r h1 [(-> & Hgr & Iv1 & Hm & Hsz)|(-> & Hr & bs1 & k & Iv1 & K1 & Z1 & T1 & X1 & L1)]; [apply wp_ret; by left|].
    pose proof (freep_in _ _ _ Iv1). rewrite (proj2 (Z.eqb_neq _ 0)) by done. apply wp_bind, wp_hptr; [lia|lia|]. replace g with (length bs1 + 2 + (g - length bs1 - 2))%nat by lia.
    destruct (search (g - length bs1 - 2) nu h1 bs1 A Iv1 Hnu) as [(g' & q' & Hall' & _)|(l1 & a & n & l2 & -> & Hn & E')].
    + exfalso. apply Exists_exists in X1 as (b & Hin & Hle). eapply Forall_forall in Hall'; [|done]. simpl in *. lia.
    + unfold wp. rewrite E'. eapply wp_conseq; [apply (take_block_spec h1 l1 a n l2 A nu); [done|lia|lia]|]. cbn beta. intros r h2 (q2 & bs2 & -> & Hq & Iv2 & K2 & Z2 & T2). right. exists q2, bs2. split_and!; [done|done|done| |lia].
      intros b m x Hb' Hx. rewrite (K2 b m x Hb' Hx). by apply (K1 b m).
  - unfold wp. rewrite E. eapply wp_conseq; [apply (take_block_spec h l1 a n l2 A nu); [done|lia|lia]|]. cbn beta. intros r h2 (q2 & bs2 & -> & Hq & Iv2 & K2 & Z2 & T2). right. exists q2, bs2. split_and!; [done|done|done|done|lia].
Qed.

Lemma units_spec nbytes : 0 <= nbytes <= 2 ^ 31 - 32 -> nbytes <= 16 * (units nbytes - 1) /\ 1 <= units nbytes /\ 16 * units nbytes < 2 ^ 31.
Proof. intros H. unfold units, HDR. rewrite u32_id by lia. lia. Qed.

Lemma malloc_spec fuel h bs A nbytes :
  heap_ok h bs A -> 0 <= nbytes <= 2 ^ 31 - 32 -> h_sz h + 2 ^ 31 <= 2 ^ 36 -> (3 * length bs + 6 <= fuel)%nat ->
  wp (malloc base grows fuel nbytes) (fun r h' =>
    r = 0 /\ grows (h_calls h) = false /\ Forall (fun b => snd b < units nbytes) bs /\ heap_ok h' bs A /\ kept A h h' \/
    exists q bs', r = q + HDR /\ nbytes <= 16 * (units nbytes - 1) /\ A !! q = None /\ heap_ok h' bs' (<[q := units nbytes]> A) /\ kept A h h') h.
Proof.
  intros [Hacc Hok] Hn Hz Hf. destruct (units_spec nbytes Hn) as (Hu1 & Hu2 & Hu3). unfold malloc. apply wp_bind, wp_get, wp_bind.
  apply (wp_conseq _ (fun _ h1 => inv h1 bs A /\ h_sz h1 = h_sz h /\ h_calls h1 = h_calls h /\ kept A h h1)).
  - destruct Hok as [Iv|(E & -> & -> & Hb & Hlo & Hsz)].
    + pose proof (freep_in _ _ _ Iv) as Hfp. pose proof (iv_base _ _ _ Iv). rewrite (proj2 (Z.eqb_neq _ 0)) by lia. by apply wp_ret.
    + rewrite E. apply wp_bind, wp_modify, wp_bind, wp_set_ptr; [lia|simpl; lia|]. apply wp_set_size; [lia|simpl; lia|]. split_and!; [|done|done|by intros a n x].
      split; simpl; try done; try lia; [|apply rd4_wr4; lia|set_solver]. rewrite rd_wr_other by lia. apply rd8_wr8. lia.
  - intros _ h1 (Iv1 & Z1 & C1 & K1). pose proof (freep_in _ _ _ Iv1) as Hfp. pose proof (iv_base _ _ _ Iv1). apply wp_bind, wp_get, wp_bind, wp_hptr; [lia|lia|].
    eapply wp_conseq; [apply malloc_loop_spec; [done|done|done|lia|done]|]. intros r h2 [(-> & Hg & Hall & Iv2 & Hm & Hsz)|(q & bs2 & -> & Hq & Iv2 & K2 & T2)]; [left|right; exists q, bs2].
    + rewrite C1 in Hg. split_and!; [done|done|done|split; [lia|by left]|]. intros a n x Ha Hx. rewrite Hm. by apply (K1 a n).
    + split_and!; [done|done|done| |].
      * split; [rewrite used_insert by done; lia|by left].
      * intros a n x Ha Hx. rewrite (K2 a n x Ha Hx). by apply (K1 a n).
Qed.

Lemma free_spec fuel h bs A a n :
  heap_ok h bs A -> A !! a = Some n -> (2 * length bs + 2 <= fuel)%nat ->
  wp (free fuel (a + HDR)) (fun _ h' => exists bs', heap_ok h' bs' (delete a A) /\ kept (delete a A) h h') h.
Proof.
  intros [Hacc Hok] Ha Hf. destruct Hok as [Iv|(_ & _ & -> & _)]; [|done]. pose proof Iv as []. destruct (iv_alloc0 a n Ha) as (H1 & H2 & H3 & H4).
  eapply wp_conseq; [apply (free_core fuel h bs (delete a A) a n); [| |done]|].
  - split; try done; intros b k; rewrite lookup_delete; case_decide; try done; [by apply iv_alloc0| |by apply iv_cross0]. intros c j Hb. rewrite lookup_delete. case_decide; [done|]. by apply iv_apart0.
  - split; [lia|done|by apply iv_cross0|]. intros b k. rewrite lookup_delete. case_decide; [done|]. intros Hb. by apply iv_apart0.
  - cbn beta. intros _ h' (bs' & Iv' & K' & Z' & _ & T' & _). exists bs'. split; [|done]. split; [|by left]. pose proof (used_delete A a n Ha). lia.
Qed.
End Spec.


(** A process that has not used its heap: [base] at 4096 and 8192 bytes of program. *)
Definition heap0 : heap := Heap (fun _ => 0) 0 8192 0.

Lemma heap0_ok : heap_ok 4096 8192 heap0 [] ∅.
Proof. split; [done|]. right. split_and!; done. Qed.


(** The size in bytes is cut to an [int] on its way to the kernel: asked for nearly 4 GB, [malloc] returns a block that ends where it begins. *)
Lemma malloc_huge : result (malloc 4096 (fun _ => true) 6 (2 ^ 32 - 1)) heap0 = Some 8208 /\ h_sz (final (malloc 4096 (fun _ => true) 6 (2 ^ 32 - 1)) heap0) = 8208.
Proof. by vm_compute. Qed.
