(* ===== verification/Disk.v ===== *)
(** The block device under the buffer cache.

    [BlockDev] is what [virtio_disk_rw] (kernel/virtio_disk.c) offers to
    kernel/bio.c: one call transfers one 1024-byte block between a buffer and
    the disk and returns when the device has completed the request.  The laws
    of [BlockDevSpec] are what the buffer cache relies on: a read returns the
    last contents written, a write replaces one block, atomically, and the
    sequence of writes the device has completed is observable
    ([dev_trace]), so that a crash leaves the disk in the state reached by a
    prefix of that sequence. *)

From S2P Require Import Prelude Bytes Params.

Abbreviation block := (list Z).

Definition block_ok (b : block) : Prop := length b = Z.to_nat BSIZE /\ bytes_ok b.

Lemma block_len b : block_ok b -> Z.of_nat (length b) = 1024.
Proof. intros [-> _]. done. Qed.

Definition zero_block : block := replicate (Z.to_nat BSIZE) 0.

Lemma zero_block_ok : block_ok zero_block.
Proof.
  unfold zero_block. split; [by rewrite length_replicate|].
  apply bytes_ok_replicate. unfold is_byte. lia.
Qed.
#[export] Hint Resolve zero_block_ok : xv6.

Lemma block_ok_put32 b off v :
  block_ok b -> 0 <= off -> off + 4 <= BSIZE -> block_ok (put32 b off v).
Proof.
  intros Hb ??. pose proof (block_len b Hb). unfold BSIZE in *. destruct Hb.
  split; [|by auto with xv6]. rewrite length_put32; lia.
Qed.

(** Function update on block numbers: the effect of one block write. *)
Definition bput (f : Z -> block) (n : Z) (b : block) : Z -> block :=
  fun m => if decide (m = n) then b else f m.

Lemma bput_eq f n b : bput f n b n = b.
Proof. unfold bput. by rewrite decide_True. Qed.
Lemma bput_ne f n b m : m <> n -> bput f n b m = f m.
Proof. intros. unfold bput. by rewrite decide_False. Qed.

(** The disk contents after a sequence of block writes. *)
Definition replay (f : Z -> block) (tr : list (Z * block)) : Z -> block :=
  fold_left (fun g '(n, b) => bput g n b) tr f.

Lemma replay_app f t1 t2 : replay f (t1 ++ t2) = replay (replay f t1) t2.
Proof. apply fold_left_app. Qed.

Class BlockDev (D : Type) := {
  (** [virtio_disk_rw(b, write)] on the block [blockno] with buffer contents
      [data]; the result is the buffer contents afterwards. *)
  dev_rw : bool -> Z -> block -> M D block }.

Class BlockDevSpec (D : Type) {BD : BlockDev D} := {
  dev_ok : D -> Prop;
  dev_at : D -> Z -> block;
  dev_trace : D -> list (Z * block);
  dev_at_ok d n : dev_ok d -> block_ok (dev_at d n);
  dev_read_spec d n b :
    dev_ok d -> 0 <= n < 2 ^ 31 ->
    wp (dev_rw false n b)
       (fun b' d' => b' = dev_at d n /\ dev_ok d' /\ (forall m, dev_at d' m = dev_at d m) /\
                     dev_trace d' = dev_trace d) d;
  dev_write_spec d n b :
    dev_ok d -> 0 <= n < 2 ^ 31 -> block_ok b ->
    wp (dev_rw true n b)
       (fun b' d' => b' = b /\ dev_ok d' /\ (forall m, dev_at d' m = bput (dev_at d) n b m) /\
                     dev_trace d' = dev_trace d ++ [(n, b)]) d }.

(** A memory disk: the reference instance of the interface. *)
Module RamDisk.
Record t := Mk { rd_data : gmap Z block; rd_trace : list (Z * block) }.
#[export] Instance eta_t : Eta t := fun d => Mk (rd_data d) (rd_trace d).

Definition at_ (d : t) (n : Z) : block := default zero_block (rd_data d !! n).

Definition rw (write : bool) (n : Z) (b : block) : M t block :=
  if write then
    modify (fun d => Mk (<[n := b]> (rd_data d)) (rd_trace d ++ [(n, b)])) ;;;
    ret b
  else gets (fun d => at_ d n).

#[global] Instance blockdev : BlockDev t := { dev_rw := rw }.

Definition ok (d : t) : Prop := map_Forall (fun _ => block_ok) (rd_data d).

Lemma at_ok d n : ok d -> block_ok (at_ d n).
Proof.
  intros Hd. unfold at_. destruct (rd_data d !! n) eqn:E; simpl; [|apply zero_block_ok].
  by apply (Hd n).
Qed.

Lemma at_insert d n b m tr :
  at_ (Mk (<[n := b]> (rd_data d)) tr) m = bput (at_ d) n b m.
Proof.
  unfold at_, bput. simpl. rewrite lookup_insert.
  case_decide; case_decide; congruence || done.
Qed.

#[global] Instance blockdev_spec : BlockDevSpec t.
Proof.
  refine {| dev_ok := ok; dev_at := at_; dev_trace := rd_trace |}.
  - apply at_ok.
  - intros d n b Hd Hn. done.
  - intros d n b Hd Hn Hb. simpl. unfold rw, wp, bind, modify, ret. simpl.
    split_and!; [done| |intros; apply at_insert|done].
    by apply map_Forall_insert_2.
Defined.

Definition empty : t := Mk ∅ [].
End RamDisk.
