(* ===== verification/Virtio.v ===== *)
(** The disk driver, kernel/virtio_disk.c: its descriptors and rings, the requests in flight, and the interrupt handler.

    The driver and the device share memory.  A pointer the driver gives the device is a [vptr]; [vbuf] is the part of
    a [struct buf] the driver and the device use.  [virtio_disk_rw] is two steps, up to the notification of the device
    ([rw_submit]) and after the last sleep ([rw_finish]), because other requests and interrupts come in between.  Wakeups
    are recorded in [v_wakes].

    The device is not part of the kernel.  [virtio_step] is what the VIRTIO specification lets a block device do to the
    shared memory. *)

From S2P Require Import Prelude Bytes Params Disk.

(** kernel/virtio.h:50 *)
Definition NUM : Z := 8.
(** kernel/virtio.h:59 *)
Definition VRING_DESC_F_NEXT : Z := 1.
(** kernel/virtio.h:60 *)
Definition VRING_DESC_F_WRITE : Z := 2.
(** kernel/virtio.h:86 *)
Definition VIRTIO_BLK_T_IN : Z := 0.
(** kernel/virtio.h:87 *)
Definition VIRTIO_BLK_T_OUT : Z := 1.

(** Pointers into the memory the device reads: [&disk.ops[i]], [b->data], [&disk.info[i].status]. *)
Inductive vptr := PNull | POps (i : Z) | PData (b : Z) | PStatus (i : Z).

(** kernel/virtio.h:53-58 *)
Record vdesc := Vdesc { vd_addr : vptr; vd_len : Z; vd_flags : Z; vd_next : Z }.
(** kernel/virtio.h:92-96 *)
Record vreq := Vreq { rq_type : Z; rq_reserved : Z; rq_sector : Z }.
(** kernel/virtio_disk.c:48-51 *)
Record vinfo := Vinfo { vi_b : option Z; vi_status : Z }.
(** The fields of [struct buf] the driver uses, kernel/buf.h:1-11. *)
Record vbuf := Vbuf { vb_blockno : Z; vb_disk : bool; vb_data : block }.

(** What the device has done: a transfer of a block at a sector. *)
Record vop := Vop { vo_write : bool; vo_sector : Z; vo_data : block }.
(** The device: how far it has looked in the avail ring, the requests it works on, its sectors, and its history. *)
Record vdev := Vdev { dv_seen : Z; dv_pend : list Z; dv_disk : Z -> list Z; dv_trace : list vop }.

(** Which sleepers a wakeup is for: [&disk.free[0]], or a buffer. *)
Inductive vwake := WFree | WBuf (b : Z).

(** kernel/virtio_disk.c:22-59, with the buffers and the device. *)
Record vdisk := Vdisk {
  v_desc : Z -> vdesc;
  v_avail_idx : Z;
  v_avail_ring : Z -> Z;
  v_used_qidx : Z;
  v_used_ring : Z -> Z;
  v_free : Z -> bool;
  v_used_idx : Z;
  v_info : Z -> vinfo;
  v_ops : Z -> vreq;
  v_buf : Z -> vbuf;
  v_wakes : list vwake;
  v_dev : vdev }.
#[export] Instance eta_vdesc : Eta vdesc := fun d => Vdesc (vd_addr d) (vd_len d) (vd_flags d) (vd_next d).
#[export] Instance eta_vinfo : Eta vinfo := fun d => Vinfo (vi_b d) (vi_status d).
#[export] Instance eta_vbuf : Eta vbuf := fun d => Vbuf (vb_blockno d) (vb_disk d) (vb_data d).
#[export] Instance eta_vdev : Eta vdev := fun d => Vdev (dv_seen d) (dv_pend d) (dv_disk d) (dv_trace d).
#[export] Instance eta_vdisk : Eta vdisk := fun d =>
  Vdisk (v_desc d) (v_avail_idx d) (v_avail_ring d) (v_used_qidx d) (v_used_ring d) (v_free d) (v_used_idx d) (v_info d)
        (v_ops d) (v_buf d) (v_wakes d) (v_dev d).

(** [f[i] = v] *)
Definition zupd {A} (f : Z -> A) (i : Z) (v : A) : Z -> A := fun j => if decide (j = i) then v else f j.
Lemma zupd_eq {A} (f : Z -> A) i v : zupd f i v i = v.
Proof. unfold zupd. by rewrite decide_True. Qed.
Lemma zupd_ne {A} (f : Z -> A) i v j : j <> i -> zupd f i v j = f j.
Proof. intros. unfold zupd. by rewrite decide_False. Qed.

Definition has_flag (flags bit : Z) : bool := negb (Z.land flags bit =? 0).
Definition setdesc (i : Z) (x : vdesc) (d : vdisk) : vdisk := d <| v_desc := zupd (v_desc d) i x |>.
Definition setvbuf (b : Z) (f : vbuf -> vbuf) (d : vdisk) : vdisk := d <| v_buf := zupd (v_buf d) b (f (v_buf d b)) |>.
Definition vwakeup (w : vwake) : M vdisk unit := modify (fun d => d <| v_wakes := v_wakes d ++ [w] |>).

(** kernel/virtio_disk.c:156-166 *)
Definition alloc_desc : M vdisk Z :=
  let* r := floop (fun i =>
    let* d := get in
    if v_free d i then modify (fun d => d <| v_free := zupd (v_free d) i false |>) ;;; ret (Some i)
    else ret None) 0 (Z.to_nat NUM) in
  ret (match r with Some i => i | None => -1 end).

(** kernel/virtio_disk.c:169-182 *)
Definition free_desc (i : Z) : M vdisk unit :=
  if NUM <=? i then panic "free_desc 1"
  else
    let* d := get in
    if v_free d i then panic "free_desc 2"
    else
      modify (setdesc i (Vdesc PNull 0 0 0)) ;;;
      modify (fun d => d <| v_free := zupd (v_free d) i true |>) ;;;
      vwakeup WFree.

(** kernel/virtio_disk.c:185-197 *)
Fixpoint free_chain (fuel : nat) (i : Z) : M vdisk unit :=
  match fuel with
  | O => nofuel
  | S fuel' =>
      let* d := get in
      let flag := vd_flags (v_desc d i) in
      let nxt := vd_next (v_desc d i) in
      free_desc i ;;;
      if has_flag flag VRING_DESC_F_NEXT then free_chain fuel' nxt else ret tt
  end.

(** kernel/virtio_disk.c:201-213: the three descriptors. *)
Definition alloc3_desc : M vdisk (option (Z * Z * Z)) :=
  let* i0 := alloc_desc in
  if i0 <? 0 then ret None
  else
    let* i1 := alloc_desc in
    if i1 <? 0 then free_desc i0 ;;; ret None
    else
      let* i2 := alloc_desc in
      if i2 <? 0 then free_desc i0 ;;; free_desc i1 ;;; ret None
      else ret (Some (i0, i1, i2)).

(** The three descriptors of a request, kernel/virtio_disk.c:235-281. *)
Definition rw_format (b : Z) (write : bool) (i0 i1 i2 : Z) (d : vdisk) : vdisk :=
  let sector := u32 (vb_blockno (v_buf d b) * (BSIZE / 512)) in
  let d := d <| v_ops := zupd (v_ops d) i0 (Vreq (if write then VIRTIO_BLK_T_OUT else VIRTIO_BLK_T_IN) 0 sector) |> in
  let d := setdesc i0 (Vdesc (POps i0) 16 VRING_DESC_F_NEXT i1) d in
  let d := setdesc i1 (Vdesc (PData b) BSIZE (Z.lor (if write then 0 else VRING_DESC_F_WRITE) VRING_DESC_F_NEXT) i2) d in
  let d := d <| v_info := zupd (v_info d) i0 (v_info d i0 <| vi_status := 0xff |>) |> in
  let d := setdesc i2 (Vdesc (PStatus i0) 1 VRING_DESC_F_WRITE 0) d in
  let d := setvbuf b (fun x => x <| vb_disk := true |>) d in
  let d := d <| v_info := zupd (v_info d) i0 (v_info d i0 <| vi_b := Some b |>) |> in
  let d := d <| v_avail_ring := zupd (v_avail_ring d) (v_avail_idx d mod NUM) i0 |> in
  d <| v_avail_idx := u16 (v_avail_idx d + 1) |>.

(** [virtio_disk_rw] up to the notification, kernel/virtio_disk.c:215-281: the chain. *)
Definition rw_submit (b : Z) (write : bool) : M vdisk (Z * Z * Z) :=
  let* r := alloc3_desc in
  match r with
  | None => sleepon ChDiskFree
  | Some (i0, i1, i2) => modify (rw_format b write i0 i1 i2) ;;; ret (i0, i1, i2)
  end.

(** The end of [virtio_disk_rw], kernel/virtio_disk.c:283-292. *)
Definition rw_finish (b i0 : Z) : M vdisk unit :=
  let* d := get in
  if vb_disk (v_buf d b) then sleepon (ChAddr b)
  else
    modify (fun d => d <| v_info := zupd (v_info d) i0 (v_info d i0 <| vi_b := None |>) |>) ;;;
    free_chain (Z.to_nat NUM) i0.

(** The loop of [virtio_disk_intr], kernel/virtio_disk.c:312-324. *)
Fixpoint intr_loop (fuel : nat) : M vdisk unit :=
  match fuel with
  | O => nofuel
  | S fuel' =>
      let* d := get in
      if v_used_idx d =? v_used_qidx d then ret tt
      else
        let id := v_used_ring d (v_used_idx d mod NUM) in
        if negb (vi_status (v_info d id) =? 0) then panic "virtio_disk_intr status"
        else match vi_b (v_info d id) with
        | None => undef "b"
        | Some b =>
            modify (setvbuf b (fun x => x <| vb_disk := false |>)) ;;;
            vwakeup (WBuf b) ;;;
            modify (fun d => d <| v_used_idx := u16 (v_used_idx d + 1) |>) ;;;
            intr_loop fuel'
        end
  end.

(** kernel/virtio_disk.c:294-327; at most [2^16 - 1] completions are waiting. *)
Definition virtio_disk_intr : M vdisk unit :=
  let* d := get in
  intr_loop (S (Z.to_nat (u16 (v_used_qidx d - v_used_idx d)))).

(** The rings and the bookkeeping after [virtio_disk_init], kernel/virtio_disk.c:120-146, with the device as it was found. *)
Definition virtio_init (dev : vdev) (bufs : Z -> vbuf) : vdisk :=
  Vdisk (fun _ => Vdesc PNull 0 0 0) 0 (fun _ => 0) 0 (fun _ => 0) (fun i => (0 <=? i) && (i <? NUM)) 0
        (fun _ => Vinfo None 0) (fun _ => Vreq 0 0 0) bufs [] dev.

(** ** The device *)

Definition write_block (disk : Z -> list Z) (s : Z) (data : block) : Z -> list Z :=
  zupd (zupd disk s (take 512 data)) (s + 1) (drop 512 data).
Definition read_block (disk : Z -> list Z) (s : Z) : block := disk s ++ disk (s + 1).

(** The transfer a chain of three descriptors asks for; nothing for a chain that is not a block request. *)
Definition device_do (id : Z) (d : vdisk) : option vdisk :=
  let d0 := v_desc d id in
  let d1 := v_desc d (vd_next d0) in
  let d2 := v_desc d (vd_next d1) in
  if has_flag (vd_flags d0) VRING_DESC_F_NEXT && has_flag (vd_flags d1) VRING_DESC_F_NEXT && negb (has_flag (vd_flags d2) VRING_DESC_F_NEXT)
     && (vd_len d0 =? 16) && (vd_len d1 =? BSIZE) && (vd_len d2 =? 1) then
    match vd_addr d0, vd_addr d1, vd_addr d2 with
    | POps k, PData b, PStatus j =>
        let r := v_ops d k in
        let dev := v_dev d in
        let done d := d <| v_info := zupd (v_info d) j (v_info d j <| vi_status := 0 |>) |> in
        if (rq_type r =? VIRTIO_BLK_T_OUT) && negb (has_flag (vd_flags d1) VRING_DESC_F_WRITE) then
          let data := vb_data (v_buf d b) in
          Some (done (d <| v_dev := dev <| dv_disk := write_block (dv_disk dev) (rq_sector r) data |>
                                        <| dv_trace := dv_trace dev ++ [Vop true (rq_sector r) data] |> |>))
        else if (rq_type r =? VIRTIO_BLK_T_IN) && has_flag (vd_flags d1) VRING_DESC_F_WRITE then
          let data := read_block (dv_disk dev) (rq_sector r) in
          Some (done (setvbuf b (fun x => x <| vb_data := data |>)
                        (d <| v_dev := dev <| dv_trace := dv_trace dev ++ [Vop false (rq_sector r) data] |> |>)))
        else None
    | _, _, _ => None
    end
  else None.

(** A completed request goes to the used ring. *)
Definition device_used (id : Z) (d : vdisk) : vdisk :=
  let d := d <| v_used_ring := zupd (v_used_ring d) (v_used_qidx d mod NUM) id |> in
  d <| v_used_qidx := u16 (v_used_qidx d + 1) |>.

(** What a device may do: take the next entry of the avail ring, or complete a request it has taken, in any order. *)
Inductive virtio_step (d : vdisk) : vdisk -> Prop :=
  | vs_fetch :
      dv_seen (v_dev d) <> v_avail_idx d ->
      virtio_step d (d <| v_dev := v_dev d <| dv_pend := dv_pend (v_dev d) ++ [v_avail_ring d (dv_seen (v_dev d) mod NUM)] |>
                                           <| dv_seen := u16 (dv_seen (v_dev d) + 1) |> |>)
  | vs_complete p id q d' :
      dv_pend (v_dev d) = p ++ id :: q ->
      device_do id (d <| v_dev := v_dev d <| dv_pend := p ++ q |> |>) = Some d' ->
      virtio_step d (device_used id d').

(** ** Requests in flight *)

(** A call of [virtio_disk_rw] that waits: its arguments, its descriptors, the data the buffer held, and the length of
    the device's history when it was submitted. *)
Record call := Call { c_buf : Z; c_write : bool; c_block : Z; c_data : block; c_idx : Z * Z * Z; c_since : nat }.
Definition c_head (c : call) : Z := fst (fst (c_idx c)).
Definition idxs (c : call) : list Z := let '(i0, i1, i2) := c_idx c in [i0; i1; i2].

(** The system: requests from any process, the device, interrupts, and returns from [virtio_disk_rw].  Whoever calls
    [virtio_disk_rw] holds the buffer's lock: no other call in flight is for the same buffer. *)
Inductive vstep (device : vdisk -> vdisk -> Prop) : vdisk * list call -> vdisk * list call -> Prop :=
  | v_submit d cs b write n data d' idx :
      b ∉ map c_buf cs -> 0 <= n < 2 ^ 31 -> (write = true -> block_ok data) ->
      rw_submit b write (setvbuf b (fun _ => Vbuf n false data) d) = Ok idx d' ->
      vstep device (d, cs) (d', Call b write n data idx (length (dv_trace (v_dev d))) :: cs)
  | v_nodesc d cs b write d' :
      rw_submit b write d = Sleep ChDiskFree d' -> vstep device (d, cs) (d', cs)
  | v_device d cs d' : device d d' -> vstep device (d, cs) (d', cs)
  | v_intr d cs d' : virtio_disk_intr d = Ok tt d' -> vstep device (d, cs) (d', cs)
  | v_return d cs1 c cs2 d' :
      rw_finish (c_buf c) (c_head c) d = Ok tt d' -> vstep device (d, cs1 ++ c :: cs2) (d', cs1 ++ cs2).
