(* ===== verification/VirtioSpec.v ===== *)
(** The disk driver is correct: with any number of requests in flight and a device that keeps to the VIRTIO
    specification, requests never share a descriptor, the interrupt handler and the freeing of chains never panic, and a
    request that returns has been performed.  Driven one request at a time, it implements the block device of Disk.v. *)

From S2P Require Import Prelude Bytes Params Disk Virtio.

(** ** Rings *)

(** The entries of a ring from position [i] on. *)
Definition window (ring : Z -> Z) (i : Z) (l : list Z) : Prop :=
  forall k x, l !! k = Some x -> ring ((i + Z.of_nat k) mod NUM) = x.

Lemma u16_mod a : u16 a mod NUM = a mod NUM.
Proof. unfold u16, NUM. rewrite Z.mod_mod_divide; [done|]. exists 8192. lia. Qed.

Lemma u16_add a b : (u16 a + b) mod NUM = (a + b) mod NUM.
Proof. rewrite <-(Zplus_mod_idemp_l (u16 a)), u16_mod. by rewrite Zplus_mod_idemp_l. Qed.

Lemma window_push ring i l x :
  window ring i l -> Z.of_nat (length l) < NUM -> window (zupd ring ((i + Z.of_nat (length l)) mod NUM) x) i (l ++ [x]).
Proof.
  intros Hw Hl k y Hk. destruct (decide (k = length l)) as [->|Hne].
  - rewrite lookup_app_r, Nat.sub_diag in Hk by lia. injection Hk as <-. apply zupd_eq.
  - pose proof (lookup_lt_Some _ _ _ Hk) as Hlt. rewrite length_app in Hlt. simpl in Hlt.
    rewrite lookup_app_l in Hk by lia. rewrite zupd_ne; [by apply Hw|]. unfold NUM in *. lia.
Qed.

Lemma window_pop ring i x l : window ring i (x :: l) -> ring (i mod NUM) = x /\ window ring (u16 (i + 1)) l.
Proof.
  intros Hw. split.
  - rewrite <-(Hw 0%nat x) by done. by rewrite Z.add_0_r.
  - intros k y Hk. rewrite u16_add. rewrite <-(Hw (S k) y) by done. do 2 f_equal. lia.
Qed.

Lemma u16_ne i n : 0 <= i < 2 ^ 16 -> 0 < n < 2 ^ 16 -> u16 (i + n) <> i.
Proof. unfold u16. lia. Qed.

(** ** Allocation of descriptors *)

Lemma alloc_desc_spec d :
  (exists i, 0 <= i < NUM /\ v_free d i = true /\ alloc_desc d = Ok i (d <| v_free := zupd (v_free d) i false |>)) \/
  ((forall i, 0 <= i < NUM -> v_free d i = false) /\ alloc_desc d = Ok (-1) d).
Proof.
  unfold alloc_desc, bind. simpl floop. unfold bind, get, modify, ret. simpl.
  repeat match goal with
  | |- context [v_free d ?i] => destruct (v_free d i) eqn:?; [left; exists i; unfold NUM; split_and!; [lia|lia|done|done]|]
  end.
  right. split; [|done]. unfold NUM. intros i Hi.
  assert (i = 0 \/ i = 1 \/ i = 2 \/ i = 3 \/ i = 4 \/ i = 5 \/ i = 6 \/ i = 7) as [->|[->|[->|[->|[->|[->|[->| ->]]]]]]] by lia; done.
Qed.

Lemma free_desc_run i d :
  0 <= i < NUM -> v_free d i = false ->
  free_desc i d = Ok tt (setdesc i (Vdesc PNull 0 0 0) d <| v_free := zupd (v_free d) i true |> <| v_wakes := v_wakes d ++ [WFree] |>).
Proof.
  intros Hi Hf. unfold free_desc. rewrite (proj2 (Z.leb_gt NUM i)) by lia.
  unfold bind, get, modify, vwakeup. by rewrite Hf.
Qed.

(** Two states that differ only in descriptors that are free in both, and in the wakeups. *)
Record same_but_free (d d' : vdisk) : Prop := {
  sf_desc i : v_free d i = false -> v_desc d' i = v_desc d i;
  sf_free i : v_free d' i = v_free d i;
  sf_rest : d' = d <| v_desc := v_desc d' |> <| v_free := v_free d' |> <| v_wakes := v_wakes d' |> }.

Lemma same_but_free_refl d : same_but_free d d.
Proof. by destruct d. Qed.

Definition taken (d : vdisk) (i0 i1 i2 : Z) : vdisk := d <| v_free := zupd (zupd (zupd (v_free d) i0 false) i1 false) i2 false |>.

(** [alloc3_desc] takes three free descriptors, or none when fewer are free. *)
Lemma alloc3_spec d :
  (exists i0 i1 i2, NoDup [i0; i1; i2] /\ (forall i, i ∈ [i0; i1; i2] -> 0 <= i < NUM /\ v_free d i = true) /\
     alloc3_desc d = Ok (Some (i0, i1, i2)) (taken d i0 i1 i2)) \/
  (exists d', alloc3_desc d = Ok None d' /\ same_but_free d d' /\
     exists i0 i1, forall i, 0 <= i < NUM -> i <> i0 -> i <> i1 -> v_free d i = false).
Proof.
  assert (Hn : forall i, 0 <= i < NUM -> (i <? 0) = false) by (intros; apply Z.ltb_ge; lia).
  unfold alloc3_desc. destruct (alloc_desc_spec d) as [(i0 & Hi0 & Hf0 & E)|[Hno E]]; rewrite (bind_ok _ _ _ _ _ E).
  2:{ right. exists d. split_and!; [reflexivity|apply same_but_free_refl|]. exists 0, 0. auto. }
  rewrite (Hn i0 Hi0). clear E. set (d1 := d <| v_free := zupd (v_free d) i0 false |>).
  destruct (alloc_desc_spec d1) as [(i1 & Hi1 & Hf1 & E)|[Hno E]]; rewrite (bind_ok _ _ _ _ _ E).
  2:{ right. change (-1 <? 0) with true. cbn iota. eexists.
      rewrite (bind_ok _ _ _ _ _ (free_desc_run i0 d1 Hi0 (zupd_eq _ _ _))). split_and!; [done| |].
      - subst d1. split; simpl; [..|done]; intros i; unfold zupd; repeat case_decide; congruence.
      - exists i0, i0. intros i Hi Hn0 _. rewrite <-(Hno i Hi). subst d1. simpl. by rewrite zupd_ne. }
  rewrite (Hn i1 Hi1). clear E. set (d2 := d1 <| v_free := zupd (v_free d1) i1 false |>).
  assert (Hf1' : i1 <> i0 /\ v_free d i1 = true).
  { subst d1. simpl in Hf1. unfold zupd in Hf1. case_decide; done. }
  assert (Hne : forall b, zupd (v_free d2) i1 b i0 = false).
  { intros b. rewrite zupd_ne by (intros ->; tauto). subst d2 d1. simpl. rewrite zupd_ne by (intros ->; tauto). apply zupd_eq. }
  destruct (alloc_desc_spec d2) as [(i2 & Hi2 & Hf2 & E)|[Hno E]]; rewrite (bind_ok _ _ _ _ _ E).
  - left. exists i0, i1, i2. rewrite (Hn i2 Hi2).
    assert (Hf2' : i2 <> i1 /\ i2 <> i0 /\ v_free d i2 = true).
    { subst d2 d1. simpl in Hf2. unfold zupd in Hf2. repeat case_decide; done. }
    split_and!; [repeat constructor; set_solver| |done].
    intros i. rewrite !elem_of_cons, elem_of_nil. intros [->|[->|[->|[]]]]; tauto.
  - right. change (-1 <? 0) with true. cbn iota. eexists.
    assert (Hx : v_free d2 i0 = false) by (rewrite <-(zupd_ne (v_free d2) i1 true i0) by (intros ->; tauto); apply Hne).
    rewrite (bind_ok _ _ _ _ _ (free_desc_run i0 d2 Hi0 Hx)). set (d3 := _ <| v_wakes := _ |>).
    assert (Hy : v_free d3 i1 = false) by (subst d3 d2; simpl; rewrite zupd_ne by tauto; apply zupd_eq).
    rewrite (bind_ok _ _ _ _ _ (free_desc_run i1 d3 Hi1 Hy)). split_and!; [done| |].
    + subst d3 d2 d1. split; simpl; [..|done]; intros i; unfold zupd; repeat case_decide; destruct_and?; congruence.
    + exists i0, i1. intros i Hi Hn0 Hn1. rewrite <-(Hno i Hi). subst d2 d1. simpl. by rewrite !zupd_ne.
Qed.

(** ** The invariant *)

(** The chain of a request is in the descriptors it holds. *)
Definition formatted (d : vdisk) (c : call) : Prop :=
  let '(i0, i1, i2) := c_idx c in
  v_ops d i0 = Vreq (if c_write c then VIRTIO_BLK_T_OUT else VIRTIO_BLK_T_IN) 0 (2 * c_block c) /\
  v_desc d i0 = Vdesc (POps i0) 16 VRING_DESC_F_NEXT i1 /\
  v_desc d i1 = Vdesc (PData (c_buf c)) BSIZE (Z.lor (if c_write c then 0 else VRING_DESC_F_WRITE) VRING_DESC_F_NEXT) i2 /\
  v_desc d i2 = Vdesc (PStatus i0) 1 VRING_DESC_F_WRITE 0 /\
  vi_b (v_info d i0) = Some (c_buf c).

(** The device has done the transfer since the call, and the buffer holds the block it transferred. *)
Definition performed (d : vdisk) (c : call) : Prop :=
  exists k, (c_since c <= k)%nat /\
    dv_trace (v_dev d) !! k = Some (Vop (c_write c) (2 * c_block c) (vb_data (v_buf d (c_buf c)))) /\
    (c_write c = true -> vb_data (v_buf d (c_buf c)) = c_data c).

(** The stages of a request: given to the device; completed and in the used ring; seen by the interrupt handler. *)
Definition given (d : vdisk) (c : call) : Prop :=
  vb_disk (v_buf d (c_buf c)) = true /\ vb_data (v_buf d (c_buf c)) = c_data c /\ (c_since c <= length (dv_trace (v_dev d)))%nat.
Definition landed (d : vdisk) (c : call) : Prop :=
  vb_disk (v_buf d (c_buf c)) = true /\ vi_status (v_info d (c_head c)) = 0 /\ performed d c.
Definition seen (d : vdisk) (c : call) : Prop := vb_disk (v_buf d (c_buf c)) = false /\ performed d c.

(** Requests [A] are in the avail ring, [P] taken by the device, [U] in the used ring, and [D] seen by the interrupt handler. *)
Record vinv (d : vdisk) (cs A P U D : list call) : Prop := {
  vi_cs : cs ≡ₚ A ++ P ++ U ++ D;
  vi_nodup : NoDup (concat (map idxs cs));
  vi_bufs : NoDup (map c_buf cs);
  vi_free i : v_free d i = true <-> 0 <= i < NUM /\ i ∉ concat (map idxs cs);
  vi_range i : i ∈ concat (map idxs cs) -> 0 <= i < NUM;
  vi_fmt : Forall (fun c => formatted d c /\ 0 <= c_block c < 2 ^ 31 /\ (c_write c = true -> block_ok (c_data c))) cs;
  vi_aw : window (v_avail_ring d) (dv_seen (v_dev d)) (map c_head A);
  vi_ai : v_avail_idx d = u16 (dv_seen (v_dev d) + Z.of_nat (length A));
  vi_pend : dv_pend (v_dev d) = map c_head P;
  vi_uw : window (v_used_ring d) (v_used_idx d) (map c_head U);
  vi_ui : v_used_qidx d = u16 (v_used_idx d + Z.of_nat (length U));
  vi_seen : 0 <= dv_seen (v_dev d) < 2 ^ 16;
  vi_used : 0 <= v_used_idx d < 2 ^ 16;
  vi_given : Forall (given d) (A ++ P);
  vi_landed : Forall (landed d) U;
  vi_done : Forall (seen d) D;
  vi_disk s : length (dv_disk (v_dev d) s) = 512%nat /\ bytes_ok (dv_disk (v_dev d) s) }.

Lemma idxs_head c : c_head c ∈ idxs c.
Proof. unfold c_head, idxs. destruct (c_idx c) as [[??]?]. set_solver. Qed.

Lemma idxs_in c cs i : c ∈ cs -> i ∈ idxs c -> i ∈ concat (map idxs cs).
Proof. intros. apply list_elem_of_In, in_concat. exists (idxs c). split; [apply in_map|]; by apply list_elem_of_In. Qed.

(** Different requests hold different descriptors and buffers. *)
Lemma idxs_disj cs c c' i :
  NoDup (concat (map idxs cs)) -> c ∈ cs -> c' ∈ cs -> i ∈ idxs c -> i ∈ idxs c' -> c = c'.
Proof.
  induction cs as [|x cs IH]; [set_solver|]. simpl. intros Hnd Hc Hc' Hi Hi'.
  apply NoDup_app in Hnd as (_ & Hd & Hnd).
  apply elem_of_cons in Hc as [-> |Hc], Hc' as [-> |Hc']; [done| | |by eauto].
  - destruct (Hd i Hi). by eapply idxs_in.
  - destruct (Hd i Hi'). by eapply idxs_in.
Qed.

Lemma idxs_nodup cs c : NoDup (concat (map idxs cs)) -> c ∈ cs -> NoDup (idxs c).
Proof.
  induction cs as [|x cs IH]; [set_solver|]. simpl. intros Hnd Hc. apply NoDup_app in Hnd as (Hx & _ & Hnd).
  apply elem_of_cons in Hc as [-> |Hc]; [done|by apply IH].
Qed.

Lemma bufs_disj cs c c' : NoDup (map c_buf cs) -> c ∈ cs -> c' ∈ cs -> c_buf c = c_buf c' -> c = c'.
Proof.
  intros Hnd Hc Hc' E. apply list_elem_of_lookup in Hc as [i Hi], Hc' as [j Hj].
  assert (i = j) as ->; [|congruence]. eapply NoDup_lookup; [exact Hnd|..]; rewrite list_lookup_fmap, ?Hi, ?Hj; simpl; by rewrite ?E.
Qed.

Lemma length_idxs cs : length (concat (map idxs cs)) = (3 * length cs)%nat.
Proof. induction cs as [|c cs IH]; [done|]. simpl. rewrite length_app, IH. unfold idxs. destruct (c_idx c) as [[??]?]. simpl. lia. Qed.

Section Inv.
Context {d : vdisk} {cs A P U D : list call} (I : vinv d cs A P U D).

Lemma vinv_few : (3 * length cs <= 8)%nat.
Proof.
  rewrite <-length_idxs. change 8%nat with (length (seqZ 0 NUM)). apply submseteq_length, NoDup_submseteq; [apply I|].
  intros i Hi. apply elem_of_seqZ. pose proof (vi_range _ _ _ _ _ _ I i Hi). lia.
Qed.

Lemma vinv_lengths : (length A + length P + length U + length D <= 2)%nat.
Proof. pose proof vinv_few as Hf. rewrite (vi_cs _ _ _ _ _ _ I), !length_app in Hf. lia. Qed.

Lemma vinv_in c : c ∈ cs <-> c ∈ A \/ c ∈ P \/ c ∈ U \/ c ∈ D.
Proof. rewrite (vi_cs _ _ _ _ _ _ I). set_solver. Qed.

Lemma vinv_fmt c : c ∈ cs -> formatted d c /\ 0 <= c_block c < 2 ^ 31 /\ (c_write c = true -> block_ok (c_data c)).
Proof. pose proof (vi_fmt _ _ _ _ _ _ I) as H. rewrite Forall_forall in H. apply H. Qed.

Lemma vinv_busy c i : c ∈ cs -> i ∈ idxs c -> 0 <= i < NUM /\ v_free d i = false.
Proof.
  intros Hc Hi. pose proof (idxs_in _ _ _ Hc Hi) as Hin. split; [by apply (vi_range _ _ _ _ _ _ I)|].
  apply not_true_is_false. intros Ht. by apply (vi_free _ _ _ _ _ _ I) in Ht as [_ Hn].
Qed.

(** The requests other than [c]. *)
Lemma vinv_others c rest :
  cs ≡ₚ c :: rest -> (forall c', c' ∈ rest -> c_buf c' <> c_buf c) /\ (forall c' i, c' ∈ rest -> i ∈ idxs c -> i ∉ idxs c').
Proof.
  intros Hp. pose proof (vi_bufs _ _ _ _ _ _ I) as Hb. pose proof (vi_nodup _ _ _ _ _ _ I) as Hn.
  rewrite Hp in Hb. simpl in Hb. apply NoDup_cons in Hb as [Hb _].
  assert (Hbuf : forall c', c' ∈ rest -> c_buf c' <> c_buf c) by (intros c' Hc' E; apply Hb; rewrite <-E; by apply list_elem_of_fmap_2).
  split; [done|]. intros c' i Hc' Hi Hi'. apply (Hbuf c' Hc').
  rewrite (idxs_disj cs c' c i Hn) by (try done; rewrite Hp; set_solver). done.
Qed.
End Inv.

(** ** What other steps leave alone *)

Lemma formatted_ext d d' c :
  (forall i, i ∈ idxs c -> v_desc d' i = v_desc d i) -> v_ops d' (c_head c) = v_ops d (c_head c) ->
  vi_b (v_info d' (c_head c)) = vi_b (v_info d (c_head c)) -> formatted d c -> formatted d' c.
Proof.
  unfold formatted, idxs, c_head. destruct (c_idx c) as [[i0 i1] i2]. simpl. intros Hd -> ->.
  rewrite !Hd by set_solver. done.
Qed.

Lemma performed_ext d d' c tr :
  vb_data (v_buf d' (c_buf c)) = vb_data (v_buf d (c_buf c)) -> dv_trace (v_dev d') = dv_trace (v_dev d) ++ tr ->
  performed d c -> performed d' c.
Proof.
  intros Hb Ht (k & Hk & Hl & Hw). exists k. rewrite Hb, Ht. split_and!; [done| |done]. by apply lookup_app_l_Some.
Qed.

Lemma given_ext d d' c tr :
  v_buf d' (c_buf c) = v_buf d (c_buf c) -> dv_trace (v_dev d') = dv_trace (v_dev d) ++ tr -> given d c -> given d' c.
Proof. unfold given. intros -> -> (? & ? & ?). rewrite length_app. split_and!; [done|done|lia]. Qed.

Lemma landed_ext d d' c tr :
  v_buf d' (c_buf c) = v_buf d (c_buf c) -> vi_status (v_info d' (c_head c)) = vi_status (v_info d (c_head c)) ->
  dv_trace (v_dev d') = dv_trace (v_dev d) ++ tr -> landed d c -> landed d' c.
Proof. unfold landed. intros Hb -> Ht (? & ? & ?). rewrite Hb. split_and!; [done|done|]. eapply performed_ext; [by rewrite Hb|done|done]. Qed.

Lemma seen_ext d d' c tr :
  v_buf d' (c_buf c) = v_buf d (c_buf c) -> dv_trace (v_dev d') = dv_trace (v_dev d) ++ tr -> seen d c -> seen d' c.
Proof. unfold seen. intros Hb Ht (? & ?). rewrite Hb. split; [done|]. eapply performed_ext; [by rewrite Hb|done|done]. Qed.

(** A step that keeps rings, buffers, and the descriptors, operations and bookkeeping of the requests [cs']. *)
Lemma stages_ext d d' A P U D :
  v_buf d' = v_buf d -> v_dev d' = v_dev d -> (forall c, c ∈ U -> vi_status (v_info d' (c_head c)) = vi_status (v_info d (c_head c))) ->
  Forall (given d) (A ++ P) /\ Forall (landed d) U /\ Forall (seen d) D ->
  Forall (given d') (A ++ P) /\ Forall (landed d') U /\ Forall (seen d') D.
Proof.
  intros Hb Hd Hi. assert (Ht : dv_trace (v_dev d') = dv_trace (v_dev d) ++ []) by (by rewrite Hd, app_nil_r).
  rewrite !Forall_forall. intros (Hg & Hl & Hs). split_and!; intros c Hc.
  - eapply given_ext; [by rewrite Hb|exact Ht|by apply Hg].
  - eapply landed_ext; [by rewrite Hb|by apply Hi|exact Ht|by apply Hl].
  - eapply seen_ext; [by rewrite Hb|exact Ht|by apply Hs].
Qed.

(** ** The steps *)

Lemma vinv_same d d' cs A P U D : same_but_free d d' -> vinv d cs A P U D -> vinv d' cs A P U D.
Proof.
  intros [Hd Hf Hr] I. pose proof I as [].
  destruct (stages_ext d d' A P U D) as (? & ? & ?); [by rewrite Hr|by rewrite Hr|by rewrite Hr|done|].
  assert (v_avail_ring d' = v_avail_ring d /\ v_avail_idx d' = v_avail_idx d /\ v_used_ring d' = v_used_ring d /\
          v_used_idx d' = v_used_idx d /\ v_used_qidx d' = v_used_qidx d /\ v_dev d' = v_dev d /\ v_ops d' = v_ops d /\
          v_info d' = v_info d) as (E1 & E2 & E3 & E4 & E5 & E6 & E7 & E8) by (by rewrite Hr).
  split; rewrite ?E1, ?E2, ?E3, ?E4, ?E5, ?E6; try done.
  - intros i. rewrite Hf. apply vi_free0.
  - rewrite Forall_forall. intros c Hc. destruct (vinv_fmt I c Hc) as [Hc1 Hc2]. split; [|done].
    revert Hc1. apply formatted_ext; rewrite ?E7, ?E8; [|done..]. intros i Hi. apply Hd. by eapply vinv_busy.
Qed.

Lemma vinv_fetch d cs A P U D :
  dv_seen (v_dev d) <> v_avail_idx d -> vinv d cs A P U D ->
  exists A' P', vinv (d <| v_dev := v_dev d <| dv_pend := dv_pend (v_dev d) ++ [v_avail_ring d (dv_seen (v_dev d) mod NUM)] |>
                                            <| dv_seen := u16 (dv_seen (v_dev d) + 1) |> |>) cs A' P' U D.
Proof.
  intros Hne I. pose proof I as []. destruct A as [|c A].
  { destruct Hne. rewrite vi_ai0. simpl. rewrite Z.add_0_r. unfold u16. lia. }
  exists A, (P ++ [c]). simpl in *. destruct (window_pop _ _ _ _ vi_aw0) as [Hr Hw]. split; simpl; try done.
  - rewrite vi_cs0. solve_Permutation.
  - rewrite vi_ai0. unfold u16. lia.
  - by rewrite Hr, map_app, vi_pend0.
  - unfold u16. lia.
  - apply Forall_cons in vi_given0 as [Hc Hg]. apply Forall_app in Hg as [Ha Hp]. rewrite !Forall_app. split_and!; [done|done|by constructor].
Qed.

(** The transfer a formatted request asks for. *)
Definition transfer (c : call) (d : vdisk) : vdisk :=
  let sector := 2 * c_block c in
  let dev := v_dev d in
  let data := if c_write c then vb_data (v_buf d (c_buf c)) else read_block (dv_disk dev) sector in
  let d := d <| v_dev := dev <| dv_disk := if c_write c then write_block (dv_disk dev) sector data else dv_disk dev |>
                             <| dv_trace := dv_trace dev ++ [Vop (c_write c) sector data] |> |>
             <| v_buf := if c_write c then v_buf d else zupd (v_buf d) (c_buf c) (v_buf d (c_buf c) <| vb_data := data |>) |> in
  d <| v_info := zupd (v_info d) (c_head c) (v_info d (c_head c) <| vi_status := 0 |>) |>.

Lemma device_do_formatted d c : formatted d c -> device_do (c_head c) d = Some (transfer c d).
Proof.
  unfold formatted, device_do, transfer, c_head. destruct (c_idx c) as [[i0 i1] i2]. simpl. intros (H0 & H1 & H2 & H3 & H4).
  rewrite !H1. simpl. rewrite !H2. simpl. rewrite !H3. simpl. rewrite H0. simpl.
  destruct (c_write c); vm_compute (has_flag _ _); simpl; [|done]. by destruct d as [??????????? []].
Qed.

Lemma transfer_buf c d b : b <> c_buf c -> v_buf (transfer c d) b = v_buf d b.
Proof. intros. unfold transfer. destruct (c_write c); simpl; [done|]. by apply zupd_ne. Qed.

Lemma transfer_own c d :
  given d c -> vb_disk (v_buf (transfer c d) (c_buf c)) = true /\ performed (transfer c d) c.
Proof.
  intros (Hb & Hd & Hs). unfold performed, transfer. destruct (c_write c) eqn:Hw; simpl; rewrite ?zupd_eq; simpl; (split; [done|]);
    exists (length (dv_trace (v_dev d))); rewrite lookup_app_r, Nat.sub_diag by done; (split_and!; [done|done|done]).
Qed.

Lemma write_block_ok disk s data :
  block_ok data -> (forall t, length (disk t) = 512%nat /\ bytes_ok (disk t)) ->
  forall t, length (write_block disk s data t) = 512%nat /\ bytes_ok (write_block disk s data t).
Proof.
  intros [Hl Hb] Hd t. unfold write_block, zupd. change (Z.to_nat BSIZE) with 1024%nat in Hl.
  repeat case_decide; [| |by apply Hd].
  - rewrite length_drop. split; [lia|]. by apply Forall_drop.
  - rewrite length_take. split; [lia|]. by apply Forall_take.
Qed.

Lemma vinv_complete d cs A P U D p id q d' :
  dv_pend (v_dev d) = p ++ id :: q -> device_do id (d <| v_dev := v_dev d <| dv_pend := p ++ q |> |>) = Some d' ->
  vinv d cs A P U D ->
  exists c P1 P2, P = P1 ++ c :: P2 /\ vinv (device_used id d') cs A (P1 ++ P2) (U ++ [c]) D /\
    v_dev d' = v_dev (transfer c d) <| dv_pend := p ++ q |> /\ v_buf d' = v_buf (transfer c d).
Proof.
  intros Hp Hdo I. pose proof I as []. rewrite vi_pend0 in Hp.
  apply map_eq_app in Hp as (P1 & P2' & -> & HP1 & HP2). apply map_eq_cons in HP2 as (c & P2 & -> & <- & HP2). subst p q.
  set (d1 := d <| v_dev := _ |>) in Hdo.
  assert (Hc : c ∈ cs) by (rewrite (vinv_in I); set_solver).
  destruct (vinv_fmt I c Hc) as (Hf & Hr & Hk).
  rewrite (device_do_formatted d1 c Hf) in Hdo. injection Hdo as <-.
  rewrite app_assoc in vi_given0. apply Forall_app in vi_given0 as [Hg1 Hg2]. apply Forall_cons in Hg2 as [Hgc Hg2].
  assert (Hgc1 : given d1 c) by exact Hgc. destruct (transfer_own c d1 Hgc1) as [Hown Hperf].
  pose proof (vinv_lengths I) as Hlen. rewrite !length_app in Hlen. simpl in Hlen.
  destruct (vinv_others I c (A ++ P1 ++ P2 ++ U ++ D)) as [Hnb Hnh]; [rewrite vi_cs0; solve_Permutation|].
  set (d2 := device_used (c_head c) (transfer c d1)).
  assert (Hb2 : forall c', c' ∈ A ++ P1 ++ P2 ++ U ++ D -> v_buf d2 (c_buf c') = v_buf d (c_buf c')).
  { intros c' Hc'. apply (transfer_buf c d1), Hnb, Hc'. }
  assert (Ht2 : dv_trace (v_dev d2) = dv_trace (v_dev d) ++ drop (length (dv_trace (v_dev d))) (dv_trace (v_dev d2))).
  { subst d2. simpl. by rewrite drop_app_length. }
  assert (Hi2 : forall c', c' ∈ A ++ P1 ++ P2 ++ U ++ D -> v_info d2 (c_head c') = v_info d (c_head c')).
  { intros c' Hc'. apply zupd_ne. intros E. apply (Hnh c' (c_head c) Hc' (idxs_head c)). rewrite <-E. apply idxs_head. }
  exists c, P1, P2. split_and!; [done| |done|done]. split; try done.
  - rewrite vi_cs0. solve_Permutation.
  - rewrite Forall_forall. intros c' Hc'. destruct (vinv_fmt I c' Hc') as [Hf' ?]. split; [|done].
    revert Hf'. apply formatted_ext; [done|done|]. simpl. unfold zupd. case_decide as E; [|done]. by rewrite E.
  - simpl. by rewrite map_app.
  - rewrite map_app. subst d2. simpl. rewrite vi_ui0, u16_mod, <-(length_map c_head).
    apply window_push; [done|]. rewrite length_map. unfold NUM. lia.
  - subst d2. simpl. rewrite vi_ui0, length_app. simpl. unfold u16. lia.
  - rewrite Forall_forall. intros c' Hc'. eapply given_ext; [apply Hb2; set_solver|exact Ht2|].
    rewrite app_assoc in Hc'. apply elem_of_app in Hc' as [Hc'|Hc']; by eapply Forall_forall in Hc'; [|done].
  - apply Forall_app. split.
    + rewrite Forall_forall in vi_landed0 |- *. intros c' Hc'.
      eapply landed_ext; [apply Hb2; set_solver|by rewrite Hi2 by set_solver|exact Ht2|by apply vi_landed0].
    + constructor; [|done]. split_and!; [exact Hown|subst d2; simpl; by rewrite zupd_eq|exact Hperf].
  - rewrite Forall_forall in vi_done0 |- *. intros c' Hc'. eapply seen_ext; [apply Hb2; set_solver|exact Ht2|by apply vi_done0].
  - subst d2. simpl. destruct (c_write c) eqn:Hw; [|done]. apply write_block_ok; [|done]. destruct Hgc as (_ & -> & _). by apply Hk.
Qed.

(** One turn of the interrupt handler: the request at the front of the used ring is marked done. *)
Definition acked (b : Z) (d : vdisk) : vdisk :=
  setvbuf b (fun x => x <| vb_disk := false |>) d <| v_wakes := v_wakes d ++ [WBuf b] |> <| v_used_idx := u16 (v_used_idx d + 1) |>.

Lemma vinv_acked d cs A P c U D : vinv d cs A P (c :: U) D -> vinv (acked (c_buf c) d) cs A P U (D ++ [c]).
Proof.
  intros I. pose proof I as []. apply Forall_cons in vi_landed0 as [Hc Hl].
  destruct (vinv_others I c (A ++ P ++ U ++ D)) as [Hnb _]; [rewrite vi_cs0; solve_Permutation|].
  assert (Hb : forall c', c' ∈ A ++ P ++ U ++ D -> v_buf (acked (c_buf c) d) (c_buf c') = v_buf d (c_buf c')).
  { intros c' Hc'. simpl. apply zupd_ne, Hnb, Hc'. }
  assert (Ht : dv_trace (v_dev (acked (c_buf c) d)) = dv_trace (v_dev d) ++ []) by (by rewrite app_nil_r).
  destruct (window_pop _ _ _ _ vi_uw0) as [_ Hw]. simpl in vi_ui0. split; try done.
  - rewrite vi_cs0. solve_Permutation.
  - simpl. rewrite vi_ui0. unfold u16. lia.
  - simpl. unfold u16. lia.
  - rewrite Forall_forall in vi_given0 |- *. intros c' Hc'. eapply given_ext; [apply Hb; set_solver|exact Ht|by apply vi_given0].
  - rewrite Forall_forall in Hl |- *. intros c' Hc'. eapply landed_ext; [apply Hb; set_solver|done|exact Ht|by apply Hl].
  - apply Forall_app. split; [|constructor; [|done]].
    + rewrite Forall_forall in vi_done0 |- *. intros c' Hc'. eapply seen_ext; [apply Hb; set_solver|exact Ht|by apply vi_done0].
    + destruct Hc as (_ & _ & Hp). split; [simpl; by rewrite zupd_eq|]. eapply performed_ext; [simpl; by rewrite zupd_eq|exact Ht|done].
Qed.

(** What the interrupt handler leaves alone. *)
Definition intr_keeps (d d' : vdisk) : Prop :=
  v_dev d' = v_dev d /\ forall b, vb_data (v_buf d' b) = vb_data (v_buf d b).

Lemma acked_keeps b d : intr_keeps d (acked b d).
Proof. split; [done|]. intros b'. simpl. unfold zupd. case_decide; [by subst|done]. Qed.

Lemma intr_loop_spec n d cs A P U D :
  vinv d cs A P U D -> (length U < n)%nat ->
  exists d' D', intr_loop n d = Ok tt d' /\ vinv d' cs A P [] D' /\ intr_keeps d d'.
Proof.
  revert d U D. induction n as [|n IH]; intros d U D I Hn; [lia|]. simpl. unfold bind at 1, get. pose proof I as [].
  destruct U as [|c U]; simpl in *.
  - rewrite (proj2 (Z.eqb_eq _ _)) by (rewrite vi_ui0; unfold u16; lia). exists d, D. done.
  - pose proof (vinv_lengths I) as Hlen. simpl in Hlen.
    rewrite (proj2 (Z.eqb_neq _ _)) by (rewrite vi_ui0; apply not_eq_sym, u16_ne; lia).
    destruct (window_pop _ _ _ _ vi_uw0) as [-> _]. apply Forall_cons in vi_landed0 as [(_ & Hs & _) _]. rewrite Hs.
    assert (Hc : c ∈ cs) by (rewrite (vinv_in I); set_solver).
    destruct (vinv_fmt I c Hc) as (Hf & _). unfold formatted, c_head in *.
    destruct (c_idx c) as [[i0 i1] i2] eqn:Ei. simpl. destruct Hf as (_ & _ & _ & _ & ->).
    destruct (IH _ U (D ++ [c]) (vinv_acked _ _ _ _ _ _ _ I)) as (d' & D' & Hrun & I' & Hk1 & Hk2); [lia|].
    exists d', D'. split_and!; [exact Hrun|done|]. destruct (acked_keeps (c_buf c) d) as [E1 E2].
    split; [by rewrite Hk1, E1|]. intros b. by rewrite Hk2, E2.
Qed.

Lemma vinv_intr d cs A P U D :
  vinv d cs A P U D -> exists d' D', virtio_disk_intr d = Ok tt d' /\ vinv d' cs A P [] D' /\ intr_keeps d d'.
Proof.
  intros I. unfold virtio_disk_intr, bind, get. eapply intr_loop_spec; [exact I|].
  pose proof (vinv_lengths I). rewrite (vi_ui _ _ _ _ _ _ I). pose proof (vi_used _ _ _ _ _ _ I). unfold u16. lia.
Qed.

(** A descriptor freed. *)
Definition freed (i : Z) (d : vdisk) : vdisk :=
  setdesc i (Vdesc PNull 0 0 0) d <| v_free := zupd (v_free d) i true |> <| v_wakes := v_wakes d ++ [WFree] |>.

Lemma free_chain_step n i d :
  0 <= i < NUM -> v_free d i = false ->
  free_chain (S n) i d = (if has_flag (vd_flags (v_desc d i)) VRING_DESC_F_NEXT then free_chain n (vd_next (v_desc d i)) else ret tt) (freed i d).
Proof. intros Hi Hf. simpl. unfold bind at 1, get. by rewrite (bind_ok _ _ _ _ _ (free_desc_run i d Hi Hf)). Qed.

(** A finished call: its three descriptors are free, nothing else changes. *)
Definition finished (c : call) (d : vdisk) : vdisk :=
  let '(i0, i1, i2) := c_idx c in
  freed i2 (freed i1 (freed i0 (d <| v_info := zupd (v_info d) i0 (v_info d i0 <| vi_b := None |>) |>))).

Lemma rw_finish_run d cs A P U D c :
  vinv d cs A P U D -> c ∈ cs -> vb_disk (v_buf d (c_buf c)) = false -> rw_finish (c_buf c) (c_head c) d = Ok tt (finished c d).
Proof.
  intros I Hc Hb. unfold rw_finish, bind at 1, get. rewrite Hb.
  destruct (vinv_fmt I c Hc) as (Hf & _). pose proof (vinv_busy I c) as Hbusy. pose proof (vi_nodup _ _ _ _ _ _ I) as Hnd.
  pose proof (idxs_nodup _ _ Hnd Hc) as Hn3. clear Hnd.
  unfold formatted, finished, c_head, idxs in *. destruct (c_idx c) as [[i0 i1] i2]. simpl fst.
  destruct Hf as (_ & H0 & H1 & H2 & _). apply NoDup_cons in Hn3 as [Hi0 Hn3]. apply NoDup_cons in Hn3 as [Hi1 _].
  destruct (Hbusy i0) as [R0 B0], (Hbusy i1) as [R1 B1], (Hbusy i2) as [R2 B2]; [done|set_solver..|].
  assert (i1 <> i0 /\ i2 <> i0 /\ i2 <> i1) as (N1 & N2 & N3) by set_solver.
  erewrite bind_ok by reflexivity. set (d1 := d <| v_info := _ |>). change (Z.to_nat NUM) with 8%nat.
  rewrite (free_chain_step 7 i0 d1 R0 B0). change (v_desc d1 i0) with (v_desc d i0). rewrite H0. change (has_flag _ _) with true. cbn match.
  change (vd_next _) with i1. set (d2 := freed i0 d1).
  assert (v_free d2 i1 = false) as F1 by (subst d2; simpl; by rewrite zupd_ne).
  rewrite (free_chain_step 6 i1 d2 R1 F1).
  assert (v_desc d2 i1 = v_desc d i1) as -> by (subst d2; simpl; by rewrite zupd_ne). rewrite H1.
  assert (has_flag (Z.lor (if c_write c then 0 else VRING_DESC_F_WRITE) VRING_DESC_F_NEXT) VRING_DESC_F_NEXT = true) as Hfl by (by destruct (c_write c)).
  cbn [vd_flags vd_next]. rewrite Hfl. set (d3 := freed i1 d2).
  assert (v_free d3 i2 = false) as F2 by (subst d3 d2; simpl; by rewrite !zupd_ne).
  rewrite (free_chain_step 5 i2 d3 R2 F2).
  assert (v_desc d3 i2 = v_desc d i2) as -> by (subst d3 d2; simpl; by rewrite !zupd_ne). by rewrite H2.
Qed.

Lemma freed_desc i j d : j <> i -> v_desc (freed i d) j = v_desc d j.
Proof. intros. simpl. by apply zupd_ne. Qed.

Lemma finished_desc c d i : i ∉ idxs c -> v_desc (finished c d) i = v_desc d i.
Proof. unfold finished, idxs. destruct (c_idx c) as [[i0 i1] i2]. intros. rewrite !freed_desc by set_solver. done. Qed.

Lemma finished_free c d i : v_free (finished c d) i = if decide (i ∈ idxs c) then true else v_free d i.
Proof.
  unfold finished, idxs. destruct (c_idx c) as [[i0 i1] i2]. simpl. unfold zupd.
  destruct (decide (i ∈ [i0; i1; i2])) as [Hi|Hi]; repeat case_decide; try done; set_solver.
Qed.

Lemma finished_rest c d :
  v_buf (finished c d) = v_buf d /\ v_dev (finished c d) = v_dev d /\ v_ops (finished c d) = v_ops d /\
  v_avail_ring (finished c d) = v_avail_ring d /\ v_avail_idx (finished c d) = v_avail_idx d /\ v_used_ring (finished c d) = v_used_ring d /\
  v_used_idx (finished c d) = v_used_idx d /\ v_used_qidx (finished c d) = v_used_qidx d /\
  (forall i, i <> c_head c -> v_info (finished c d) i = v_info d i).
Proof.
  unfold finished, c_head. destruct (c_idx c) as [[i0 i1] i2]. simpl. split_and!; try done. intros. by apply zupd_ne.
Qed.

Lemma vinv_seen d cs A P U D c : vinv d cs A P U D -> c ∈ cs -> vb_disk (v_buf d (c_buf c)) = false -> c ∈ D.
Proof.
  intros I Hc Hb. pose proof I as []. rewrite !Forall_forall in *. apply (vinv_in I) in Hc as [Hc|[Hc|[Hc|Hc]]]; [| | |done].
  - destruct (vi_given0 c) as [? _]; [set_solver|congruence].
  - destruct (vi_given0 c) as [? _]; [set_solver|congruence].
  - destruct (vi_landed0 c Hc) as [? _]. congruence.
Qed.

Lemma vinv_finish d cs1 c cs2 A P U D :
  vinv d (cs1 ++ c :: cs2) A P U D -> vb_disk (v_buf d (c_buf c)) = false ->
  exists D', vinv (finished c d) (cs1 ++ cs2) A P U D'.
Proof.
  intros I Hb. assert (Hc : c ∈ cs1 ++ c :: cs2) by set_solver. pose proof (vinv_seen _ _ _ _ _ _ _ I Hc Hb) as HD.
  pose proof (vinv_others I c (cs1 ++ cs2)) as [_ Hnh]; [solve_Permutation|].
  apply list_elem_of_split in HD as (D1 & D2 & ->). exists (D1 ++ D2). pose proof I as [].
  assert (Hp : cs1 ++ cs2 ≡ₚ A ++ P ++ U ++ D1 ++ D2).
  { apply (Permutation_cons_inv (a := c)). trans (cs1 ++ c :: cs2); [solve_Permutation|]. rewrite vi_cs0. solve_Permutation. }
  assert (Hidx : concat (map idxs (cs1 ++ c :: cs2)) ≡ₚ idxs c ++ concat (map idxs (cs1 ++ cs2))).
  { rewrite !map_app, !concat_app. simpl. solve_Permutation. }
  rewrite Hidx in vi_nodup0. apply NoDup_app in vi_nodup0 as (_ & Hdisj & Hnd).
  destruct (finished_rest c d) as (E1 & E2 & E3 & E4 & E5 & E6 & E7 & E8 & E9).
  assert (Hin : forall c', c' ∈ cs1 ++ cs2 -> c' ∈ cs1 ++ c :: cs2) by set_solver.
  assert (Hinfo : forall c', c' ∈ cs1 ++ cs2 -> v_info (finished c d) (c_head c') = v_info d (c_head c')).
  { intros c' Hc'. apply E9. intros E. apply (Hnh c' (c_head c) Hc' (idxs_head c)). rewrite <-E. apply idxs_head. }
  destruct (stages_ext d (finished c d) A P U (D1 ++ D2) E1 E2) as (? & ? & ?).
  { intros c' Hc'. rewrite Hinfo; [done|]. rewrite Hp. set_solver. }
  { split_and!; [done|done|]. apply Forall_app in vi_done0 as [? Hd2]. apply Forall_cons in Hd2 as [_ ?]. by apply Forall_app. }
  split; rewrite ?E2, ?E4, ?E5, ?E6, ?E7, ?E8; try done.
  - assert (Hm : map c_buf (cs1 ++ c :: cs2) ≡ₚ c_buf c :: map c_buf (cs1 ++ cs2)) by (rewrite !map_app; simpl; solve_Permutation).
    rewrite Hm in vi_bufs0. by apply NoDup_cons in vi_bufs0 as [_ ?].
  - intros i. rewrite finished_free. case_decide as Hi.
    + split; [|done]. intros _. split; [by apply vi_range0, (idxs_in c)|by apply Hdisj].
    + rewrite vi_free0, Hidx, elem_of_app. tauto.
  - intros i Hi. apply vi_range0. rewrite Hidx, elem_of_app. by right.
  - rewrite Forall_forall. intros c' Hc'. destruct (vinv_fmt I c' (Hin c' Hc')) as [Hf ?]. split; [|done].
    revert Hf. apply formatted_ext; [|by rewrite E3|by rewrite Hinfo].
    intros i Hi. apply finished_desc. intros Hi'. by apply (Hnh c' i Hc' Hi').
Qed.

Lemma taken_free d i0 i1 i2 i : v_free (taken d i0 i1 i2) i = if decide (i ∈ [i0; i1; i2]) then false else v_free d i.
Proof.
  simpl. unfold zupd. destruct (decide (i ∈ [i0; i1; i2])) as [Hi|Hi]; repeat case_decide; try done; set_solver.
Qed.

(** The state after a request is submitted: what holds of the new request, and what stays. *)
Lemma submitted_own d c i0 i1 i2 :
  c_idx c = (i0, i1, i2) -> NoDup [i0; i1; i2] -> 0 <= c_block c < 2 ^ 31 -> v_buf d (c_buf c) = Vbuf (c_block c) false (c_data c) ->
  let d' := rw_format (c_buf c) (c_write c) i0 i1 i2 d in
  formatted d' c /\ vb_disk (v_buf d' (c_buf c)) = true /\ vb_data (v_buf d' (c_buf c)) = c_data c.
Proof.
  intros Ei Hnd Hr Hb d'. apply NoDup_cons in Hnd as [Hi0 Hnd]. apply NoDup_cons in Hnd as [Hi1 _].
  assert (i1 <> i0 /\ i2 <> i0 /\ i2 <> i1) as (N1 & N2 & N3) by set_solver.
  unfold formatted. rewrite Ei. subst d'. simpl. unfold zupd. rewrite Hb.
  change (BSIZE / 512) with 2. simpl. unfold u32. rewrite (Z.mod_small (c_block c * 2)) by lia. rewrite (Z.mul_comm 2).
  split_and!; repeat case_decide; simplify_eq; done.
Qed.

Lemma submitted_other d b write i0 i1 i2 :
  let d' := rw_format b write i0 i1 i2 d in
  (forall i, i ∉ [i0; i1; i2] -> v_desc d' i = v_desc d i /\ v_ops d' i = v_ops d i /\ v_info d' i = v_info d i) /\
  (forall b', b' <> b -> v_buf d' b' = v_buf d b').
Proof.
  split.
  - intros i Hi. assert (i <> i0 /\ i <> i1 /\ i <> i2) as (? & ? & ?) by set_solver. simpl. by rewrite !zupd_ne.
  - intros b' Hb. simpl. by rewrite zupd_ne.
Qed.

(** A call that gets its descriptors. *)
Lemma vinv_submit d cs A P U D b write n data idx d' :
  vinv d cs A P U D -> b ∉ map c_buf cs -> 0 <= n < 2 ^ 31 -> (write = true -> block_ok data) ->
  rw_submit b write (setvbuf b (fun _ => Vbuf n false data) d) = Ok idx d' ->
  let c := Call b write n data idx (length (dv_trace (v_dev d))) in
  vinv d' (c :: cs) (A ++ [c]) P U D /\ v_dev d' = v_dev d.
Proof.
  intros I Hb Hn Hk Hrun c. set (d0 := setvbuf b _ d) in Hrun. unfold rw_submit in Hrun.
  destruct (alloc3_spec d0) as [(i0 & i1 & i2 & Hnd & Hfr & E)|(dx & E & _)]; rewrite (bind_ok _ _ _ _ _ E) in Hrun; [|done].
  injection Hrun as <- <-. set (d1 := taken d0 i0 i1 i2). pose proof I as []. split; [|done].
  assert (Hb1 : v_buf d1 (c_buf c) = Vbuf (c_block c) false (c_data c)) by (simpl; by rewrite zupd_eq).
  destruct (submitted_own d1 c i0 i1 i2 eq_refl Hnd Hn Hb1) as (Hf & Hdk & Hda).
  destruct (submitted_other d1 b write i0 i1 i2) as [Ho Hob]. set (d2 := rw_format b write i0 i1 i2 d1) in *. change (rw_format _ _ _ _ _ d1) with d2 in Hf, Hdk, Hda.
  assert (Hnew : forall i, i ∈ [i0; i1; i2] -> 0 <= i < NUM /\ i ∉ concat (map idxs cs)) by (intros i Hi; by apply vi_free0, Hfr).
  assert (Hold : forall c', c' ∈ cs -> v_buf d2 (c_buf c') = v_buf d (c_buf c') /\ forall i, i ∈ idxs c' -> v_desc d2 i = v_desc d i /\ v_ops d2 i = v_ops d i /\ v_info d2 i = v_info d i).
  { intros c' Hc'. assert (c_buf c' <> b) by (intros <-; apply Hb; by apply list_elem_of_fmap_2).
    split; [rewrite Hob by done; simpl; by rewrite zupd_ne|]. intros i Hi. apply (Ho i). intros Hi'. apply (Hnew i Hi'). by eapply idxs_in. }
  assert (Ht : dv_trace (v_dev d2) = dv_trace (v_dev d) ++ []) by (by rewrite app_nil_r).
  pose proof (vinv_lengths I) as Hlen. clear Ho Hob.
  split; try done.
  - rewrite vi_cs0. solve_Permutation.
  - change (NoDup ([i0; i1; i2] ++ concat (map idxs cs))). apply NoDup_app. split_and!; [done| |done]. intros i Hi. by apply Hnew.
  - simpl. by apply NoDup_cons.
  - intros i. change (v_free d2 i) with (v_free d1 i). change (concat (map idxs (c :: cs))) with ([i0; i1; i2] ++ concat (map idxs cs)).
    subst d1. rewrite taken_free, elem_of_app. case_decide; [naive_solver|]. change (v_free d0 i) with (v_free d i). rewrite vi_free0. tauto.
  - intros i Hi. change (i ∈ [i0; i1; i2] ++ concat (map idxs cs)) in Hi. apply elem_of_app in Hi as [Hi|Hi]; [by apply Hnew|by apply vi_range0].
  - constructor; [done|]. rewrite Forall_forall. intros c' Hc'. destruct (vinv_fmt I c' Hc') as [Hf' ?]. split; [|done].
    destruct (Hold c' Hc') as [_ Hd]. destruct (Hd _ (idxs_head c')) as (_ & E1 & E2).
    revert Hf'. apply formatted_ext; [intros i Hi; by apply Hd|done|by rewrite E2].
  - subst d2. simpl. rewrite vi_ai0, u16_mod, map_app, <-(length_map c_head). apply window_push; [done|]. rewrite length_map. unfold NUM. lia.
  - subst d2. simpl. rewrite vi_ai0, length_app. simpl. unfold u16. lia.
  - apply Forall_app in vi_given0 as [Ha Hp]. rewrite !Forall_app. split_and!.
    + rewrite Forall_forall in Ha |- *. intros c' Hc'. eapply given_ext; [apply Hold; rewrite (vinv_in I); tauto|exact Ht|by apply Ha].
    + constructor; [|done]. split_and!; [done|done|]. rewrite Ht, app_nil_r. done.
    + rewrite Forall_forall in Hp |- *. intros c' Hc'. eapply given_ext; [apply Hold; rewrite (vinv_in I); tauto|exact Ht|by apply Hp].
  - rewrite Forall_forall in vi_landed0 |- *. intros c' Hc'. destruct (Hold c') as [E1 E2]; [rewrite (vinv_in I); tauto|].
    destruct (E2 _ (idxs_head c')) as (_ & _ & E3). eapply landed_ext; [done|by rewrite E3|exact Ht|by apply vi_landed0].
  - rewrite Forall_forall in vi_done0 |- *. intros c' Hc'. eapply seen_ext; [apply Hold; rewrite (vinv_in I); tauto|exact Ht|by apply vi_done0].
Qed.
