(* ===== verification/VirtioDev.v ===== *)
(** The theorems on the disk driver: its safety with several requests in flight, and the block device it offers to
    the buffer cache when each request is waited for. *)

From S2P Require Import Prelude Bytes Params Disk Virtio VirtioSpec.

(** A device that has just been reset, with 512-byte sectors. *)
Definition fresh (dev : vdev) : Prop :=
  dv_seen dev = 0 /\ dv_pend dev = [] /\ forall s, length (dv_disk dev s) = 512%nat /\ bytes_ok (dv_disk dev s).

Definition vgood (d : vdisk) (cs : list call) : Prop := exists A P U D, vinv d cs A P U D.

Lemma vinv_init dev bufs : fresh dev -> vinv (virtio_init dev bufs) [] [] [] [] [].
Proof.
  intros (Hs & Hp & Hd). split; simpl; try done; rewrite ?Hs; try done; try lia.
  - constructor.
  - constructor.
  - intros i. rewrite andb_true_iff, Z.leb_le, Z.ltb_lt, elem_of_nil. tauto.
  - intros i. by rewrite elem_of_nil.
Qed.

Lemma vgood_device d d' cs : virtio_step d d' -> vgood d cs -> vgood d' cs.
Proof.
  intros [Hne|p id q d1 Hp Hdo] (A & P & U & D & I).
  - destruct (vinv_fetch _ _ _ _ _ _ Hne I) as (A' & P' & I'). by exists A', P', U, D.
  - destruct (vinv_complete _ _ _ _ _ _ _ _ _ _ Hp Hdo I) as (c & P1 & P2 & _ & I' & _). by exists A, (P1 ++ P2), (U ++ [c]), D.
Qed.

Section Safe.
Context (device : vdisk -> vdisk -> Prop) (conforms : forall d d', device d d' -> virtio_step d d').

Lemma vgood_step x y : vstep device x y -> vgood (fst x) (snd x) -> vgood (fst y) (snd y).
Proof.
  intros Hs. destruct Hs as [d cs b write n data d' idx Hb Hn Hk Hrun|d cs b write d' Hrun|d cs d' Hd|d cs d' Hrun|d cs1 c cs2 d' Hrun];
    simpl; intros (A & P & U & D & I).
  - destruct (vinv_submit _ _ _ _ _ _ _ _ _ _ _ _ I Hb Hn Hk Hrun) as [I' _]. by exists (A ++ [Call b write n data idx (length (dv_trace (v_dev d)))]), P, U, D.
  - unfold rw_submit in Hrun. destruct (alloc3_spec d) as [(i0 & i1 & i2 & _ & _ & E)|(d1 & E & Hd & _)];
      rewrite (bind_ok _ _ _ _ _ E) in Hrun; [done|]. injection Hrun as <-. exists A, P, U, D. by eapply vinv_same.
  - eapply vgood_device; [by apply conforms|]. by exists A, P, U, D.
  - destruct (vinv_intr _ _ _ _ _ _ I) as (d1 & D' & E & I' & _). rewrite E in Hrun. injection Hrun as <-. by exists A, P, [], D'.
  - assert (Hb : vb_disk (v_buf d (c_buf c)) = false).
    { unfold rw_finish, bind, get in Hrun. destruct (vb_disk (v_buf d (c_buf c))); done. }
    rewrite (rw_finish_run _ _ _ _ _ _ c I) in Hrun by (done || set_solver). injection Hrun as <-.
    destruct (vinv_finish _ _ _ _ _ _ _ _ I Hb) as [D' I']. by exists A, P, U, D'.
Qed.

Lemma vgood_reachable x y : rtc (vstep device) x y -> vgood (fst x) (snd x) -> vgood (fst y) (snd y).
Proof. induction 1; [done|]. intros Hg. by apply IHrtc, (vgood_step x). Qed.

End Safe.

(** ** The block device *)

(** A device that completes what it is given: [serve] runs it until nothing is left, provided that it never meets a chain it cannot
    carry out. *)
Class VirtioDevice := {
  serve : vdisk -> vdisk;
  serve_steps d : rtc virtio_step d (serve d);
  serve_idle d :
    0 <= dv_seen (v_dev d) < 2 ^ 16 -> 0 <= v_avail_idx d < 2 ^ 16 ->
    (forall d' id, rtc virtio_step d d' -> id ∈ dv_pend (v_dev d') -> is_Some (device_do id d')) ->
    dv_seen (v_dev (serve d)) = v_avail_idx (serve d) /\ dv_pend (v_dev (serve d)) = [] }.

Section Seq.
Context `{VD : VirtioDevice}.

(** A call of [virtio_disk_rw] with no other in flight, kernel/virtio_disk.c:215-292: the device works and interrupts while the call sleeps. *)
Definition virtio_disk_rw (write : bool) (n : Z) (data : block) : M vdisk block :=
  modify (setvbuf 0 (fun _ => Vbuf n false data)) ;;;
  let* idx := rw_submit 0 write in
  modify serve ;;;
  virtio_disk_intr ;;;
  rw_finish 0 (fst (fst idx)) ;;;
  gets (fun d => vb_data (v_buf d 0)).

Definition vd_ok (d : vdisk) : Prop := vinv d [] [] [] [] [].
Definition vd_at (d : vdisk) (n : Z) : block := read_block (dv_disk (v_dev d)) (2 * n).
Definition vd_writes (l : list vop) : list (Z * block) := omap (fun o => if vo_write o then Some (vo_sector o / 2, vo_data o) else None) l.
Definition vd_trace (d : vdisk) : list (Z * block) := vd_writes (dv_trace (v_dev d)).

(** While the device works on the only request [c], made in state [d]. *)
Definition served (d : vdisk) (c : call) (d' : vdisk) : Prop :=
  (exists A P, vinv d' [c] A P [] [] /\ dv_disk (v_dev d') = dv_disk (v_dev d) /\ dv_trace (v_dev d') = dv_trace (v_dev d) /\ v_buf d' = v_buf d) \/
  (vinv d' [c] [] [] [c] [] /\ dv_disk (v_dev d') = dv_disk (v_dev (transfer c d)) /\
   dv_trace (v_dev d') = dv_trace (v_dev (transfer c d)) /\ v_buf d' = v_buf (transfer c d)).

Lemma transfer_ext d d' c :
  dv_disk (v_dev d') = dv_disk (v_dev d) -> dv_trace (v_dev d') = dv_trace (v_dev d) -> v_buf d' = v_buf d ->
  dv_disk (v_dev (transfer c d')) = dv_disk (v_dev (transfer c d)) /\
  dv_trace (v_dev (transfer c d')) = dv_trace (v_dev (transfer c d)) /\ v_buf (transfer c d') = v_buf (transfer c d).
Proof. unfold transfer. simpl. intros -> -> ->. done. Qed.

Lemma served_step d c d1 d2 : virtio_step d1 d2 -> served d c d1 -> served d c d2.
Proof.
  intros Hs [(A & P & I & E1 & E2 & E3)|(I & E1 & E2 & E3)].
  - destruct Hs as [Hne|p id q d2 Hp Hdo].
    + destruct (vinv_fetch _ _ _ _ _ _ Hne I) as (A' & P' & I'). left. by exists A', P'.
    + destruct (vinv_complete _ _ _ _ _ _ _ _ _ _ Hp Hdo I) as (c' & P1 & P2 & -> & I' & E4 & E5). right.
      pose proof (vi_cs _ _ _ _ _ _ I) as Hcs. pose proof (Permutation_length Hcs) as Hl. rewrite !length_app in Hl. simpl in Hl.
      destruct A; [|simpl in Hl; lia]. destruct P1; [|simpl in Hl; lia]. destruct P2; [|simpl in Hl; lia].
      simpl in Hcs. apply Permutation_singleton_l in Hcs. injection Hcs as <-. simpl in *. rewrite E4, E5. simpl.
      destruct (transfer_ext d d1 c E1 E2 E3) as (? & ? & ?). done.
  - destruct Hs as [Hne|p id q d2 Hp Hdo].
    + destruct Hne. rewrite (vi_ai _ _ _ _ _ _ I). pose proof (vi_seen _ _ _ _ _ _ I). simpl. unfold u16. lia.
    + rewrite (vi_pend _ _ _ _ _ _ I) in Hp. by destruct p.
Qed.

Lemma served_steps d c d1 d2 : rtc virtio_step d1 d2 -> served d c d1 -> served d c d2.
Proof. induction 1; [done|]. intros. by apply IHrtc, (served_step _ _ x). Qed.

Lemma vgood_carries d cs d' id : vgood d cs -> rtc virtio_step d d' -> id ∈ dv_pend (v_dev d') -> is_Some (device_do id d').
Proof.
  intros Hg Hr. assert (vgood d' cs) as (A & P & U & D & I) by (clear id; induction Hr; [done|by apply IHHr, (vgood_device x)]).
  rewrite (vi_pend _ _ _ _ _ _ I). intros Hid. apply list_elem_of_fmap in Hid as (c & -> & Hc).
  rewrite device_do_formatted; [done|]. apply (vinv_fmt I). rewrite (vinv_in I). tauto.
Qed.

(** The request is carried out when the device is idle. *)
Lemma serve_done d c :
  vinv d [c] [c] [] [] [] ->
  vinv (serve d) [c] [] [] [c] [] /\ dv_disk (v_dev (serve d)) = dv_disk (v_dev (transfer c d)) /\
  dv_trace (v_dev (serve d)) = dv_trace (v_dev (transfer c d)) /\ v_buf (serve d) = v_buf (transfer c d).
Proof.
  intros I. assert (Hs : served d c (serve d)).
  { apply (served_steps _ _ d); [apply serve_steps|]. left. by exists [c], []. }
  destruct Hs as [(A & P & I' & _)|?]; [|done]. exfalso.
  destruct (serve_idle d) as [E1 E2]; [apply I|rewrite (vi_ai _ _ _ _ _ _ I); unfold u16; lia|intros; eapply (vgood_carries d [c]); [|done|done]; by exists [c], [], [], []|].
  pose proof (vi_cs _ _ _ _ _ _ I') as Hcs. apply Permutation_length in Hcs. rewrite !length_app in Hcs. simpl in Hcs.
  rewrite (vi_pend _ _ _ _ _ _ I') in E2. apply map_eq_nil in E2. subst P. simpl in Hcs.
  apply (u16_ne (dv_seen (v_dev (serve d))) (Z.of_nat (length A))); [apply I'|lia|]. rewrite E1 at 2. symmetry. apply I'.
Qed.

Lemma vd_submit d n write data :
  vd_ok d -> 0 <= n < 2 ^ 31 -> (write = true -> block_ok data) ->
  exists idx d1 c, rw_submit 0 write (setvbuf 0 (fun _ => Vbuf n false data) d) = Ok idx d1 /\
    c = Call 0 write n data idx (length (dv_trace (v_dev d))) /\ vinv d1 [c] [c] [] [] [] /\ v_dev d1 = v_dev d.
Proof.
  intros I Hn Hk. destruct (rw_submit 0 write (setvbuf 0 (fun _ => Vbuf n false data) d)) eqn:E.
  { destruct (vinv_submit _ _ _ _ _ _ _ _ _ _ _ _ I (not_elem_of_nil _) Hn Hk E) as [I' Hd]. by eexists _, _, _. }
  all: exfalso; unfold rw_submit in E; set (d0 := setvbuf 0 _ d) in E;
    destruct (alloc3_spec d0) as [(i0 & i1 & i2 & _ & _ & Ea)|(d1 & Ea & _ & i0 & i1 & Hno)];
    rewrite (bind_ok _ _ _ _ _ Ea) in E; try done.
  assert (Hall : forall i, 0 <= i < NUM -> v_free d0 i = true) by (intros i Hi; apply (vi_free _ _ _ _ _ _ I); split; [done|apply not_elem_of_nil]).
  assert (exists i, 0 <= i < NUM /\ i <> i0 /\ i <> i1) as (i & Hi & H0 & H1).
  { unfold NUM. destruct (decide (0 = i0 \/ 0 = i1)), (decide (1 = i0 \/ 1 = i1)); [exists 2|exists 1|exists 0|exists 0]; lia. }
  pose proof (Hno i Hi H0 H1). rewrite Hall in *; done.
Qed.

Lemma virtio_rw_spec d n write data :
  vd_ok d -> 0 <= n < 2 ^ 31 -> (write = true -> block_ok data) ->
  wp (virtio_disk_rw write n data)
     (fun r d' => vd_ok d' /\ r = (if write then data else vd_at d n) /\
        dv_disk (v_dev d') = (if write then write_block (dv_disk (v_dev d)) (2 * n) data else dv_disk (v_dev d)) /\
        dv_trace (v_dev d') = dv_trace (v_dev d) ++ [Vop write (2 * n) r]) d.
Proof.
  intros I Hn Hk. destruct (vd_submit d n write data I Hn Hk) as (idx & d1 & c & E1 & Ec & I1 & Hd1).
  destruct (serve_done d1 c I1) as (I2 & Hdisk & Htr & Hbuf).
  destruct (vinv_intr _ _ _ _ _ _ I2) as (d3 & D & E3 & I3 & Hdev & Hdat).
  assert (Hc : vb_disk (v_buf d3 (c_buf c)) = false).
  { pose proof (vi_done _ _ _ _ _ _ I3) as HD. rewrite Forall_forall in HD. apply HD.
    assert (c ∈ [c]) as Hc by set_solver. apply (vinv_in I3) in Hc as [Hc|[Hc|[Hc|Hc]]]; try (by apply elem_of_nil in Hc). done. }
  destruct (vinv_finish d3 [] c [] [] [] [] D I3 Hc) as [D' I4].
  pose proof (rw_finish_run d3 _ _ _ _ _ c I3 ltac:(set_solver) Hc) as E4.
  destruct (finished_rest c d3) as (F1 & F2 & _).
  assert (HD' : D' = []) by (pose proof (vi_cs _ _ _ _ _ _ I4) as Hp; simpl in Hp; by apply Permutation_nil_l in Hp). subst D'.
  assert (Hg : vb_data (v_buf d1 0) = data).
  { pose proof (vi_given _ _ _ _ _ _ I1) as Hg. apply Forall_cons in Hg as [(_ & Hg & _) _]. subst c. exact Hg. }
  assert (Hres : vb_data (v_buf (finished c d3) 0) = if write then data else vd_at d n).
  { rewrite F1, Hdat, Hbuf. subst c. unfold transfer, vd_at. simpl. rewrite Hd1. destruct write; [done|]. by rewrite zupd_eq. }
  eapply wp_run.
  - unfold virtio_disk_rw. erewrite bind_ok by reflexivity. rewrite (bind_ok _ _ _ _ _ E1). erewrite bind_ok by reflexivity.
    rewrite (bind_ok _ _ _ _ _ E3). subst c. unfold c_head in E4. simpl in E4. rewrite (bind_ok _ _ _ _ _ E4). reflexivity.
  - subst c. split_and!; [exact I4|exact Hres| |].
    + rewrite F2, Hdev, Hdisk. unfold transfer. simpl. rewrite Hd1, Hg. by destruct write.
    + rewrite F2, Hdev, Htr, Hres. unfold transfer, vd_at. simpl. rewrite Hd1, Hg. by destruct write.
Qed.

#[export] Instance virtio_blockdev : BlockDev vdisk := { dev_rw := virtio_disk_rw }.

Lemma vd_at_ok d n : vd_ok d -> block_ok (vd_at d n).
Proof.
  intros I. destruct (vi_disk _ _ _ _ _ _ I (2 * n)) as [L1 B1], (vi_disk _ _ _ _ _ _ I (2 * n + 1)) as [L2 B2].
  unfold vd_at, read_block. split; [rewrite length_app, L1, L2; done|by apply Forall_app].
Qed.

Lemma vd_read d n data :
  vd_ok d -> 0 <= n < 2 ^ 31 ->
  wp (dev_rw false n data) (fun r d' => r = vd_at d n /\ vd_ok d' /\ (forall m, vd_at d' m = vd_at d m) /\ vd_trace d' = vd_trace d) d.
Proof.
  intros I Hn. eapply wp_conseq; [by apply (virtio_rw_spec d n false data)|]. simpl. intros r d' (I' & -> & Hd & Ht).
  split_and!; [done|done| |]; unfold vd_at, vd_trace, vd_writes; [by rewrite Hd|]. rewrite Ht, omap_app. simpl. by rewrite app_nil_r.
Qed.

Lemma read_write_block disk n m data :
  block_ok data -> read_block (write_block disk (2 * n) data) (2 * m) = bput (fun m => read_block disk (2 * m)) n data m.
Proof.
  intros Hb. unfold read_block, write_block, bput, zupd. destruct (decide (m = n)) as [-> |Hne].
  - rewrite decide_False, decide_True, decide_True by lia. apply take_drop.
  - rewrite !decide_False by lia. done.
Qed.

Lemma vd_write d n data :
  vd_ok d -> 0 <= n < 2 ^ 31 -> block_ok data ->
  wp (dev_rw true n data) (fun r d' => r = data /\ vd_ok d' /\ (forall m, vd_at d' m = bput (vd_at d) n data m) /\
                                       vd_trace d' = vd_trace d ++ [(n, data)]) d.
Proof.
  intros I Hn Hk. eapply wp_conseq; [by apply (virtio_rw_spec d n true data)|]. simpl. intros r d' (I' & -> & Hd & Ht).
  split_and!; [done|done| |].
  - intros m. unfold vd_at. rewrite Hd. by apply read_write_block.
  - unfold vd_trace, vd_writes. rewrite Ht, omap_app. simpl. rewrite (Z.mul_comm 2), Z.div_mul by lia. done.
Qed.

#[export] Instance virtio_blockdev_spec : BlockDevSpec vdisk := {
  dev_ok := vd_ok;
  dev_at := vd_at;
  dev_trace := vd_trace;
  dev_at_ok := vd_at_ok;
  dev_read_spec := vd_read;
  dev_write_spec := vd_write }.

End Seq.

(** ** A device

    It takes everything from the avail ring, then completes requests in order. *)
Definition device_next (d : vdisk) : option vdisk :=
  if decide (dv_seen (v_dev d) = v_avail_idx d) then
    match dv_pend (v_dev d) with
    | [] => None
    | id :: q => option_map (device_used id) (device_do id (d <| v_dev := v_dev d <| dv_pend := q |> |>))
    end
  else Some (d <| v_dev := v_dev d <| dv_pend := dv_pend (v_dev d) ++ [v_avail_ring d (dv_seen (v_dev d) mod NUM)] |>
                                   <| dv_seen := u16 (dv_seen (v_dev d) + 1) |> |>).

Fixpoint device_run (n : nat) (d : vdisk) : vdisk :=
  match n with
  | O => d
  | S n' => match device_next d with Some d' => device_run n' d' | None => d end
  end.

(** Two steps for each entry of the avail ring, one for each request taken. *)
Definition device_work (d : vdisk) : nat :=
  (2 * Z.to_nat (u16 (v_avail_idx d - dv_seen (v_dev d))) + length (dv_pend (v_dev d)))%nat.

Lemma device_next_conforms d d' : device_next d = Some d' -> virtio_step d d'.
Proof.
  unfold device_next. case_decide as Hs.
  - destruct (dv_pend (v_dev d)) as [|id q] eqn:Hp; [done|]. destruct (device_do _ _) eqn:Hd; [|done]. injection 1 as <-.
    by apply (vs_complete _ [] id q).
  - injection 1 as <-. by constructor.
Qed.

Lemma device_run_steps n d : rtc virtio_step d (device_run n d).
Proof.
  revert d. induction n as [|n IH]; intros d; simpl; [done|]. destruct (device_next d) eqn:E; [|done].
  eapply rtc_l; [by apply device_next_conforms|apply IH].
Qed.

Lemma device_do_keeps id d d' :
  device_do id d = Some d' ->
  v_avail_idx d' = v_avail_idx d /\ dv_seen (v_dev d') = dv_seen (v_dev d) /\ dv_pend (v_dev d') = dv_pend (v_dev d).
Proof.
  unfold device_do. destruct (_ && _); [|done].
  destruct (vd_addr (v_desc d id)), (vd_addr (v_desc d (vd_next (v_desc d id)))), (vd_addr (v_desc d (vd_next (v_desc d (vd_next (v_desc d id)))))); try done.
  repeat destruct (_ && _); try done; injection 1 as <-; done.
Qed.

Lemma device_run_idle n d :
  0 <= dv_seen (v_dev d) < 2 ^ 16 -> 0 <= v_avail_idx d < 2 ^ 16 ->
  (forall d' id, rtc virtio_step d d' -> id ∈ dv_pend (v_dev d') -> is_Some (device_do id d')) ->
  (device_work d <= n)%nat ->
  dv_seen (v_dev (device_run n d)) = v_avail_idx (device_run n d) /\ dv_pend (v_dev (device_run n d)) = [].
Proof.
  revert d. induction n as [|n IH]; intros d Hs Ha Hw Hn; unfold device_work in Hn.
  { simpl. split; [unfold u16 in Hn; lia|]. apply length_zero_iff_nil. lia. }
  simpl. destruct (device_next d) as [d1|] eqn:E.
  - assert (Hw1 : forall d' id, rtc virtio_step d1 d' -> id ∈ dv_pend (v_dev d') -> is_Some (device_do id d')).
    { intros d' id Hr. apply Hw. eapply rtc_l; [by apply device_next_conforms|done]. }
    revert E. unfold device_next. case_decide as Hd.
    + destruct (dv_pend (v_dev d)) as [|id q] eqn:Hp; [done|]. destruct (device_do _ _) as [d2|] eqn:Ed; [|done]. injection 1 as <-.
      apply device_do_keeps in Ed as (E1 & E2 & E3). simpl in E1, E2, E3.
      apply IH; [simpl; lia|simpl; lia|done|]. unfold device_work. simpl. rewrite E1, E2, E3. simpl in Hn. lia.
    + injection 1 as <-. apply IH; [simpl; unfold u16; lia|done|done|]. unfold device_work. simpl. rewrite length_app. simpl. unfold u16 in *. lia.
  - revert E. unfold device_next. case_decide as Hd; [|done]. destruct (dv_pend (v_dev d)) as [|id q] eqn:Hp; [done|].
    destruct (Hw d id) as [d2 Hd2]; [done|rewrite Hp; set_solver|].
    destruct (device_do id (d <| v_dev := _ |>)) eqn:Ed; [done|]. exfalso. revert Ed Hd2. unfold device_do. simpl.
    destruct (_ && _); [|done].
    destruct (vd_addr (v_desc d id)), (vd_addr (v_desc d (vd_next (v_desc d id)))), (vd_addr (v_desc d (vd_next (v_desc d (vd_next (v_desc d id)))))); try done.
    repeat destruct (_ && _); done.
Qed.

#[export] Instance device_virtio : VirtioDevice := {
  serve d := device_run (device_work d) d;
  serve_steps d := device_run_steps _ d;
  serve_idle d Hs Ha Hw := device_run_idle (device_work d) d Hs Ha Hw (Nat.le_refl _) }.

(** ** Two requests in flight *)
Definition disk0 : vdev := Vdev 0 [] (fun _ => replicate 512 7) [].
Definition vd0 : vdisk := virtio_init disk0 (fun _ => Vbuf 0 false []).
Definition blockA : block := replicate 1024 65.

Lemma blockA_ok : block_ok blockA.
Proof. unfold blockA. split; [by rewrite length_replicate|]. apply bytes_ok_replicate. unfold is_byte. lia. Qed.

Lemma disk0_fresh : fresh disk0.
Proof.
  split_and!; [done|done|]. intros s. split; [done|]. apply bytes_ok_replicate. unfold is_byte. lia.
Qed.

Definition vd1 : vdisk := final (rw_submit 0 true) (setvbuf 0 (fun _ => Vbuf 9 false blockA) vd0).
Definition vd2 : vdisk := final (rw_submit 1 false) (setvbuf 1 (fun _ => Vbuf 9 false []) vd1).
Definition vd3 : vdisk := device_run 4 vd2.
Definition vd4 : vdisk := final virtio_disk_intr vd3.

Lemma vd1_run : rw_submit 0 true (setvbuf 0 (fun _ => Vbuf 9 false blockA) vd0) = Ok (0, 1, 2) vd1.
Proof. assert (H : result (rw_submit 0 true) (setvbuf 0 (fun _ => Vbuf 9 false blockA) vd0) = Some (0, 1, 2)) by (vm_compute; reflexivity). exact (result_final _ _ _ H). Qed.
Lemma vd2_run : rw_submit 1 false (setvbuf 1 (fun _ => Vbuf 9 false []) vd1) = Ok (3, 4, 5) vd2.
Proof. assert (H : result (rw_submit 1 false) (setvbuf 1 (fun _ => Vbuf 9 false []) vd1) = Some (3, 4, 5)) by (vm_compute; reflexivity). exact (result_final _ _ _ H). Qed.
Lemma vd4_run : virtio_disk_intr vd3 = Ok tt vd4.
Proof. assert (H : result virtio_disk_intr vd3 = Some tt) by (vm_compute; reflexivity). exact (result_final _ _ _ H). Qed.

Definition two_calls : list call := [Call 1 false 9 [] (3, 4, 5) 0; Call 0 true 9 blockA (0, 1, 2) 0].

Lemma device_steps_vstep d d' cs :
  (exists n, d' = device_run n d) -> rtc (vstep (fun d d' => device_next d = Some d')) (d, cs) (d', cs).
Proof.
  intros [n ->]. revert d. induction n as [|n IH]; intros d; simpl; [done|]. destruct (device_next d) eqn:E; [|done].
  eapply rtc_l; [by apply v_device|apply IH].
Qed.

Lemma two_calls_run : rtc (vstep (fun d d' => device_next d = Some d')) (vd0, []) (vd4, two_calls).
Proof.
  eapply rtc_l. { eapply (v_submit _ vd0 [] 0 true 9 blockA vd1 (0, 1, 2)); [apply not_elem_of_nil|lia|intros _; apply blockA_ok|]. exact vd1_run. }
  eapply rtc_l. { eapply (v_submit _ vd1 _ 1 false 9 [] vd2 (3, 4, 5)); [set_solver|lia|done|]. exact vd2_run. }
  etrans; [apply (device_steps_vstep _ vd3); by exists 4%nat|].
  eapply rtc_l; [|done]. apply v_intr. exact vd4_run.
Qed.


