(* ===== verification/Sleeplock.v ===== *)
(** Sleep-locks, kernel/sleeplock.c: the long-term locks of buffers and inodes.

    The spin-lock inside a sleep-lock makes each operation one atomic step, so
    the model keeps the two fields it protects.  Waiting is the [Sleep]
    outcome: the caller is descheduled on the lock's channel and re-runs the
    loop of [acquiresleep] when woken. *)

From S2P Require Import Prelude.

(** kernel/sleeplock.h:2-9 *)
Record sleeplock := Sleeplock { sl_locked : bool; sl_pid : Z }.
#[export] Instance eta_sleeplock : Eta sleeplock :=
  fun l => Sleeplock (sl_locked l) (sl_pid l).

(** kernel/sleeplock.c:12-19 *)
Definition initsleeplock : M sleeplock unit :=
  modify (fun lk => lk <| sl_locked := false |> <| sl_pid := 0 |>).

(** kernel/sleeplock.c:21-31 *)
Definition acquiresleep (c : chan) (pid : Z) : M sleeplock unit :=
  let* lk := get in
  if sl_locked lk then sleepon c
  else modify (fun lk => lk <| sl_locked := true |> <| sl_pid := pid |>).

(** kernel/sleeplock.c:33-41 *)
Definition releasesleep : M sleeplock unit :=
  modify (fun lk => lk <| sl_locked := false |> <| sl_pid := 0 |>).

(** kernel/sleeplock.c:43-52 *)
Definition holdingsleep (pid : Z) : M sleeplock bool :=
  gets (fun lk => sl_locked lk && (sl_pid lk =? pid)).

Lemma acquiresleep_free c pid lk Q :
  sl_locked lk = false -> Q tt (Sleeplock true pid) -> wp (acquiresleep c pid) Q lk.
Proof. intros E HQ. unfold acquiresleep, wp, bind, get. by rewrite E. Qed.
