(* ===== verification/Bio.v ===== *)
(** The buffer cache, kernel/bio.c.

    The cache keeps [NBUF] buffers and the list head [bcache.head] in one
    array (the head is the element after the last buffer), linked by
    [b_prev]/[b_next] exactly as the C structs are.  [bcache.lock] makes each
    list operation atomic and is not part of the state; a buffer's sleep-lock
    is. *)

From S2P Require Import Prelude Bytes Ring Params Disk Sleeplock.

(** kernel/buf.h:1-11 *)
Record buf := Buf {
  b_valid : bool;
  b_disk : bool;
  b_dev : Z;
  b_blockno : Z;
  b_lock : sleeplock;
  b_refcnt : Z;
  b_prev : nat;
  b_next : nat;
  b_data : block }.
#[export] Instance eta_buf : Eta buf := fun b =>
  Buf (b_valid b) (b_disk b) (b_dev b) (b_blockno b) (b_lock b) (b_refcnt b)
      (b_prev b) (b_next b) (b_data b).

(** A buffer of the zero-initialised data segment. *)
Definition buf0 : buf := Buf false false 0 0 (Sleeplock false 0) 0 0 0 zero_block.

(** The index of [bcache.head]. *)
Definition HEAD : nat := 30.

Section Bio.
Context {D : Type} `{BD : BlockDev D}.

(** kernel/bio.c:26-34, with the disk behind it and [myproc()->pid]. *)
Record bcache := Bcache { bc_buf : list buf; bc_disk : D; bc_pid : Z }.
#[export] Instance eta_bcache : Eta bcache :=
  fun s => Bcache (bc_buf s) (bc_disk s) (bc_pid s).
Implicit Types st : bcache.

Definition bufat st (i : nat) : buf := nth i (bc_buf st) buf0.
Definition setbuf (i : nat) (f : buf -> buf) st : bcache :=
  st <| bc_buf := <[i := f (bufat st i)]> (bc_buf st) |>.

Definition on_lock {A} (i : nat) (m : M sleeplock A) : M bcache A :=
  zoom (fun st => b_lock (bufat st i))
       (fun lk => setbuf i (fun b => b <| b_lock := lk |>)) m.

(** The cache as the loader leaves it. *)
Definition bcache_bss (d : D) (pid : Z) : bcache := Bcache (replicate 31 buf0) d pid.

(** kernel/bio.c:36-53 *)
Definition binit : M bcache unit :=
  modify (setbuf HEAD (fun h => h <| b_prev := HEAD |>)) ;;;
  modify (setbuf HEAD (fun h => h <| b_next := HEAD |>)) ;;;
  each (fun k =>
    let b := Z.to_nat k in
    modify (fun st => setbuf b (fun x => x <| b_next := b_next (bufat st HEAD) |>) st) ;;;
    modify (setbuf b (fun x => x <| b_prev := HEAD |>)) ;;;
    on_lock b initsleeplock ;;;
    modify (fun st => setbuf (b_next (bufat st HEAD)) (fun x => x <| b_prev := b |>) st) ;;;
    modify (setbuf HEAD (fun h => h <| b_next := b |>))) 0 (Z.to_nat NBUF).

(** [for(b = start; b != &bcache.head; b = step(b)) if(p(b)) found]: [Some (Some b)] when
    found, [Some None] when the list is exhausted, [None] when the fuel is. *)
Fixpoint scan (p : buf -> bool) (step : buf -> nat) st (fuel i : nat) : option (option nat) :=
  match fuel with
  | O => None
  | S fuel' =>
      if decide (i = HEAD) then Some None
      else if p (bufat st i) then Some (Some i)
      else scan p step st fuel' (step (bufat st i))
  end.

(** kernel/bio.c:58-89 *)
Definition bget (dev blockno : Z) : M bcache nat :=
  let* st := get in
  (* Is the block already cached? *)
  match scan (fun b => (b_dev b =? dev) && (b_blockno b =? blockno)) b_next st 31
             (b_next (bufat st HEAD)) with
  | None => nofuel
  | Some (Some b) =>
      modify (setbuf b (fun x => x <| b_refcnt := u32 (b_refcnt x + 1) |>)) ;;;
      on_lock b (acquiresleep (ChSleeplock (Z.of_nat b)) (bc_pid st)) ;;;
      ret b
  | Some None =>
      (* Recycle the least recently used (LRU) unused buffer. *)
      match scan (fun b => b_refcnt b =? 0) b_prev st 31 (b_prev (bufat st HEAD)) with
      | None => nofuel
      | Some (Some b) =>
          modify (setbuf b (fun x => x <| b_dev := dev |>)) ;;;
          modify (setbuf b (fun x => x <| b_blockno := blockno |>)) ;;;
          modify (setbuf b (fun x => x <| b_valid := false |>)) ;;;
          modify (setbuf b (fun x => x <| b_refcnt := 1 |>)) ;;;
          on_lock b (acquiresleep (ChSleeplock (Z.of_nat b)) (bc_pid st)) ;;;
          ret b
      | Some None => panic "bget: no buffers"
      end
  end.

(** [virtio_disk_rw(b, write)] as the cache sees it: the request is complete
    and the disk no longer owns the buffer when it returns. *)
Definition disk_rw (write : bool) (b : nat) : M bcache unit :=
  let* st := get in
  let* d := zoom bc_disk (fun d st => st <| bc_disk := d |>)
              (dev_rw write (b_blockno (bufat st b)) (b_data (bufat st b))) in
  modify (setbuf b (fun x => x <| b_data := d |> <| b_disk := false |>)).

(** kernel/bio.c:92-103 *)
Definition bread (dev blockno : Z) : M bcache nat :=
  let* b := bget dev blockno in
  let* st := get in
  if negb (b_valid (bufat st b)) then
    disk_rw false b ;;;
    modify (setbuf b (fun x => x <| b_valid := true |>)) ;;;
    ret b
  else ret b.

(** kernel/bio.c:106-112 *)
Definition bwrite (b : nat) : M bcache unit :=
  let* st := get in
  let* h := on_lock b (holdingsleep (bc_pid st)) in
  if negb h then panic "bwrite" else disk_rw true b.

(** kernel/bio.c:116-137 *)
Definition brelse (b : nat) : M bcache unit :=
  let* st := get in
  let* h := on_lock b (holdingsleep (bc_pid st)) in
  if negb h then panic "brelse" else
  on_lock b releasesleep ;;;
  modify (setbuf b (fun x => x <| b_refcnt := u32 (b_refcnt x - 1) |>)) ;;;
  let* st := get in
  if b_refcnt (bufat st b) =? 0 then
    (* no one is waiting for it. *)
    modify (fun st => setbuf (b_next (bufat st b))
                        (fun x => x <| b_prev := b_prev (bufat st b) |>) st) ;;;
    modify (fun st => setbuf (b_prev (bufat st b))
                        (fun x => x <| b_next := b_next (bufat st b) |>) st) ;;;
    modify (fun st => setbuf b (fun x => x <| b_next := b_next (bufat st HEAD) |>) st) ;;;
    modify (setbuf b (fun x => x <| b_prev := HEAD |>)) ;;;
    modify (fun st => setbuf (b_next (bufat st HEAD)) (fun x => x <| b_prev := b |>) st) ;;;
    modify (setbuf HEAD (fun h => h <| b_next := b |>))
  else ret tt.

(** kernel/bio.c:139-144 *)
Definition bpin (b : nat) : M bcache unit :=
  modify (setbuf b (fun x => x <| b_refcnt := u32 (b_refcnt x + 1) |>)).

(** kernel/bio.c:146-151 *)
Definition bunpin (b : nat) : M bcache unit :=
  modify (setbuf b (fun x => x <| b_refcnt := u32 (b_refcnt x - 1) |>)).
End Bio.
Arguments bcache D : clear implicits.

(** ** The cache invariant *)

Section BioSpec.
Context {D : Type} `{BDS : BlockDevSpec D}.
Implicit Types st : bcache D.

Definition nx st (i : nat) : nat := b_next (bufat st i).
Definition pv st (i : nat) : nat := b_prev (bufat st i).

(** The most-recently-used order: the buffers met from [bcache.head.next]. *)
Definition lru_order st (order : list nat) : Prop :=
  order ≡ₚ seq 0 30 /\ linked (nx st) (pv st) HEAD order HEAD.

(** Buffer [i] is the cache entry of block [n] of the root device. *)
Definition caches st (i : nat) (n : Z) : Prop :=
  (i < 30)%nat /\ b_dev (bufat st i) = ROOTDEV /\ b_blockno (bufat st i) = n.

Record bio_ok st : Prop := {
  bo_len : length (bc_buf st) = 31%nat;
  bo_ring : exists order, lru_order st order;
  bo_uniq i j n : caches st i n -> caches st j n -> i = j;
  bo_dev i : (i < 30)%nat -> b_refcnt (bufat st i) <> 0 -> b_dev (bufat st i) = ROOTDEV;
  bo_ref i : (i < 30)%nat -> 0 <= b_refcnt (bufat st i) < 2 ^ 32;
  bo_lock i : (i < 30)%nat -> sl_locked (b_lock (bufat st i)) = true ->
              0 < b_refcnt (bufat st i);
  bo_data i : (i < 30)%nat -> block_ok (b_data (bufat st i));
  bo_disk : dev_ok (bc_disk st) }.

Lemma bufat_setbuf st i f j :
  (i < length (bc_buf st))%nat ->
  bufat (setbuf i f st) j = if decide (j = i) then f (bufat st i) else bufat st j.
Proof.
  intros. unfold bufat, setbuf. simpl. case_decide; subst.
  - by apply nth_list_insert_eq.
  - by apply nth_list_insert_ne.
Qed.

Lemma bufat_setbuf_eq st i f :
  (i < length (bc_buf st))%nat -> bufat (setbuf i f st) i = f (bufat st i).
Proof. intros. rewrite bufat_setbuf by done. by rewrite decide_True. Qed.

Lemma bufat_setbuf_ne st i f j : j <> i -> bufat (setbuf i f st) j = bufat st j.
Proof. intros. unfold bufat, setbuf. simpl. by apply nth_list_insert_ne. Qed.

Lemma length_setbuf st i f : length (bc_buf (setbuf i f st)) = length (bc_buf st).
Proof. simpl. apply length_insert. Qed.

(** *** The two scans of [bget] *)
Lemma scan_find st p step prv a l fuel :
  linked (fun i => step (bufat st i)) prv a l HEAD -> HEAD ∉ l -> (length l < fuel)%nat ->
  scan p step st fuel (step (bufat st a)) = Some (List.find (fun i => p (bufat st i)) l).
Proof.
  revert a fuel. induction l as [|x l IH]; intros a fuel Hl Hh Hf; simpl in *.
  - destruct fuel; [lia|]. simpl. destruct Hl as [-> _]. done.
  - destruct fuel; [lia|]. destruct Hl as (-> & _ & Hl). simpl.
    rewrite decide_False by set_solver. destruct (p (bufat st x)); [done|].
    apply IH; [done|set_solver|lia].
Qed.

Lemma lru_order_facts st order :
  lru_order st order -> length order = 30%nat /\ (HEAD ∉ order) /\ NoDup order /\
                        forall i, i ∈ order <-> (i < 30)%nat.
Proof.
  intros [Hp _]. assert (forall i, i ∈ order <-> (i < 30)%nat).
  { intros i. rewrite Hp, elem_of_seq. lia. }
  split_and!; [|rewrite H; unfold HEAD; lia| |done].
  - by rewrite Hp, length_seq.
  - rewrite Hp. apply NoDup_seq.
Qed.

Lemma scan_mru st order p :
  lru_order st order ->
  scan p b_next st 31 (b_next (bufat st HEAD)) = Some (List.find (fun i => p (bufat st i)) order).
Proof.
  intros Ho. destruct (lru_order_facts _ _ Ho) as (Hlen & Hh & _).
  eapply (scan_find _ _ b_next (pv st)); [apply Ho|done|lia].
Qed.

Lemma scan_lru st order p :
  lru_order st order ->
  scan p b_prev st 31 (b_prev (bufat st HEAD)) =
    Some (List.find (fun i => p (bufat st i)) (rev order)).
Proof.
  intros Ho. destruct (lru_order_facts _ _ Ho) as (Hlen & Hh & _).
  eapply (scan_find _ _ b_prev (nx st)).
  - apply linked_rev, Ho.
  - by rewrite list_elem_of_In, <-in_rev, <-list_elem_of_In.
  - rewrite length_rev. lia.
Qed.

Lemma find_None_all {A} (f : A -> bool) l : List.find f l = None <-> forall x, x ∈ l -> f x = false.
Proof.
  induction l as [|y l IH]; simpl.
  - split; [set_solver|done].
  - destruct (f y) eqn:E; [split; [done|]|].
    + intros H. rewrite H in E; [done|set_solver].
    + rewrite IH. set_solver.
Qed.

Lemma find_Some_in {A} (f : A -> bool) l x : List.find f l = Some x -> x ∈ l /\ f x = true.
Proof. intros H. apply List.find_some in H. by rewrite list_elem_of_In. Qed.

(** *** One buffer changes, the links do not *)
Lemma lru_order_ext st st' order :
  (forall i, nx st' i = nx st i) -> (forall i, pv st' i = pv st i) ->
  lru_order st order -> lru_order st' order.
Proof.
  intros Hn Hp [H1 H2]. split; [done|]. revert H2. apply linked_ext; auto.
Qed.

(** A buffer without its list links. *)
Definition nolink (b : buf) : buf := b <| b_prev := O |> <| b_next := O |>.

Lemma nolink_eq b b' :
  nolink b = nolink b' ->
  b_valid b = b_valid b' /\ b_dev b = b_dev b' /\ b_blockno b = b_blockno b' /\
  b_lock b = b_lock b' /\ b_refcnt b = b_refcnt b' /\ b_data b = b_data b'.
Proof. destruct b, b'. unfold nolink. simpl. intros [=]. by subst. Qed.

Definition same_others st st' (i : nat) : Prop :=
  forall j, j <> i -> nolink (bufat st' j) = nolink (bufat st j).

Lemma same_others_caches st st' i j m :
  same_others st st' i -> j <> i -> caches st' j m <-> caches st j m.
Proof.
  intros Hs Hj. destruct (nolink_eq _ _ (Hs j Hj)) as (_ & Hd & Hb & _).
  unfold caches. by rewrite Hd, Hb.
Qed.

Lemma bio_ok_upd_ring st st' i order :
  bio_ok st -> (i < 30)%nat -> length (bc_buf st') = 31%nat ->
  same_others st st' i -> lru_order st' order ->
  b_dev (bufat st' i) = ROOTDEV ->
  (forall j, j <> i -> ~ caches st j (b_blockno (bufat st' i))) ->
  0 <= b_refcnt (bufat st' i) < 2 ^ 32 ->
  (sl_locked (b_lock (bufat st' i)) = true -> 0 < b_refcnt (bufat st' i)) ->
  block_ok (b_data (bufat st' i)) -> dev_ok (bc_disk st') ->
  bio_ok st'.
Proof.
  intros Hok Hi Hlen' Hoth Hring Hd' Hu' Hr' Hl' Hb' Hdisk.
  assert (Hc : forall j m, j <> i -> caches st' j m -> caches st j m).
  { intros j m Hj. by rewrite (same_others_caches st st' i). }
  split; try done; [by eexists| |intros j Hj..].
  { intros j k m Hj Hk. destruct (decide (j = i)) as [->|Hji], (decide (k = i)) as [->|Hki]; [done| | |].
    - exfalso. apply (Hu' k Hki). destruct Hj as (_ & _ & ->). by apply Hc.
    - exfalso. apply (Hu' j Hji). destruct Hk as (_ & _ & ->). by apply Hc.
    - eapply (bo_uniq _ Hok); by apply Hc. }
  all: destruct (decide (j = i)) as [->|Hji]; [done|].
  all: destruct (nolink_eq _ _ (Hoth j Hji)) as (Ev & Ed & Eb & El & Er & Edt).
  - rewrite Er, Ed. by apply Hok.
  - rewrite Er. by apply Hok.
  - rewrite Er, El. by apply Hok.
  - rewrite Edt. by apply Hok.
Qed.

Lemma bio_ok_upd st st' i :
  bio_ok st -> (i < 30)%nat -> length (bc_buf st') = 31%nat ->
  (forall j, j <> i -> bufat st' j = bufat st j) ->
  nx st' i = nx st i -> pv st' i = pv st i ->
  b_dev (bufat st' i) = ROOTDEV ->
  (forall j, j <> i -> ~ caches st j (b_blockno (bufat st' i))) ->
  0 <= b_refcnt (bufat st' i) < 2 ^ 32 ->
  (sl_locked (b_lock (bufat st' i)) = true -> 0 < b_refcnt (bufat st' i)) ->
  block_ok (b_data (bufat st' i)) -> dev_ok (bc_disk st') ->
  bio_ok st'.
Proof.
  intros Hok Hi Hlen' Hoth Hn Hp. destruct (bo_ring _ Hok) as [order Hring].
  apply (bio_ok_upd_ring st st' i order); try done.
  - intros j Hj. by rewrite Hoth.
  - revert Hring. apply lru_order_ext; intros j;
      (destruct (decide (j = i)) as [->|]; [done|]); unfold nx, pv; by rewrite Hoth.
Qed.

(** *** [bget] *)
Definition got st st' (i : nat) (n : Z) : Prop :=
  length (bc_buf st') = 31%nat /\ bc_disk st' = bc_disk st /\ bc_pid st' = bc_pid st /\
  (forall j, j <> i -> bufat st' j = bufat st j) /\
  ((caches st i n /\
    bufat st' i = bufat st i <| b_refcnt := b_refcnt (bufat st i) + 1 |>
                             <| b_lock := Sleeplock true (bc_pid st) |>) \/
   ((forall j, ~ caches st j n) /\ (i < 30)%nat /\ b_refcnt (bufat st i) = 0 /\
    bufat st' i = bufat st i <| b_dev := ROOTDEV |> <| b_blockno := n |> <| b_valid := false |>
                             <| b_refcnt := 1 |> <| b_lock := Sleeplock true (bc_pid st) |>)).

Lemma on_lock_acquire st i c pid (Q : unit -> bcache D -> Prop) :
  sl_locked (b_lock (bufat st i)) = false ->
  Q tt (setbuf i (fun b => b <| b_lock := Sleeplock true pid |>) st) ->
  wp (on_lock i (acquiresleep c pid)) Q st.
Proof. intros. apply wp_zoom. by apply acquiresleep_free. Qed.

Lemma eqb_caches st i n :
  (i < 30)%nat ->
  (b_dev (bufat st i) =? ROOTDEV) && (b_blockno (bufat st i) =? n) = true <-> caches st i n.
Proof. intros. unfold caches. rewrite andb_true_iff, !Z.eqb_eq. naive_solver. Qed.

Ltac bufs := repeat first
  [ rewrite bufat_setbuf_eq by (rewrite ?length_setbuf; unfold HEAD in *; lia)
  | rewrite bufat_setbuf_ne by (unfold HEAD in *; lia || done) ].

Lemma bget_spec st n :
  bio_ok st ->
  (forall i, caches st i n -> sl_locked (b_lock (bufat st i)) = false /\
                              b_refcnt (bufat st i) + 1 < 2 ^ 32) ->
  (exists i, (i < 30)%nat /\ (caches st i n \/ b_refcnt (bufat st i) = 0)) ->
  wp (bget ROOTDEV n) (fun i st' => got st st' i n) st.
Proof.
  intros Hok Hun Hfree. destruct (bo_ring _ Hok) as [order Ho].
  destruct (lru_order_facts _ _ Ho) as (_ & _ & _ & Hin).
  pose proof (bo_len _ Hok) as Hlen.
  unfold bget. apply wp_bind, wp_get. rewrite (scan_mru _ _ _ Ho).
  destruct (List.find _ order) as [i|] eqn:Hf.
  - apply find_Some_in in Hf as [Hi Hc]. rewrite Hin in Hi.
    apply (eqb_caches st i n Hi) in Hc. destruct (Hun i Hc) as [Hul Hr].
    pose proof (bo_ref _ Hok i Hi). wp_steps.
    apply on_lock_acquire; [by bufs|]. wp_steps.
    split_and!; [by rewrite !length_setbuf|done|done|intros; by bufs|].
    left. split; [done|]. bufs. simpl. rewrite u32_id by lia. done.
  - rewrite (scan_lru _ _ _ Ho). rewrite find_None_all in Hf.
    assert (Hnc : forall j, ~ caches st j n).
    { intros j Hc. assert (Hj : (j < 30)%nat) by apply Hc.
      apply (eqb_caches st j n Hj) in Hc. rewrite Hf in Hc; [done|]. by rewrite Hin. }
    destruct (List.find _ (rev order)) as [i|] eqn:Hf2.
    + apply find_Some_in in Hf2 as [Hi Hr].
      rewrite list_elem_of_In, <-in_rev, <-list_elem_of_In, Hin in Hi.
      rewrite Z.eqb_eq in Hr. wp_steps.
      apply on_lock_acquire.
      { bufs. simpl. destruct (sl_locked (b_lock (bufat st i))) eqn:E; [|done].
        apply (bo_lock _ Hok i Hi) in E. lia. }
      wp_steps. split_and!; [by rewrite !length_setbuf|done|done|intros; by bufs|].
      right. split_and!; [done..|]. by bufs.
    + exfalso. rewrite find_None_all in Hf2. destruct Hfree as (i & Hi & [Hc|Hr]); [by eapply Hnc|].
      specialize (Hf2 i). rewrite list_elem_of_In, <-in_rev, <-list_elem_of_In, Hin in Hf2.
      specialize (Hf2 Hi). apply Z.eqb_neq in Hf2. lia.
Qed.

Lemma got_ok st st' i n :
  bio_ok st -> (forall i, caches st i n -> b_refcnt (bufat st i) + 1 < 2 ^ 32) ->
  got st st' i n -> bio_ok st' /\ caches st' i n.
Proof.
  intros Hok Hr (Hlen & Hd & _ & Hoth & Hcase).
  assert (Hi : (i < 30)%nat) by (destruct Hcase as [[Hc _]|(_ & Hi & _)]; [apply Hc|done]).
  pose proof (bo_ref _ Hok i Hi).
  destruct Hcase as [[Hc E]|(Hnc & _ & Hr0 & E)].
  - specialize (Hr i Hc). split; [|unfold caches; rewrite E; apply Hc].
    eapply bio_ok_upd; try done; rewrite ?E; unfold nx, pv; rewrite ?E; simpl; try done; try lia.
    + apply Hc.
    + intros j Hj Hcj. apply Hj. eapply (bo_uniq _ Hok); [done|]. split; [done|]. split; [apply Hc|done].
    + by apply Hok.
    + rewrite Hd. apply Hok.
  - split; [|unfold caches; by rewrite E].
    eapply bio_ok_upd; try done; rewrite ?E; unfold nx, pv; rewrite ?E; simpl; try done; try lia.
    + by apply Hok.
    + rewrite Hd. apply Hok.
Qed.

(** ** What the cache promises

    [view st n] is the current contents of block [n]: the cached copy if there
    is one, the disk otherwise.  [refs st n] is the number of references to
    its buffer. *)
Definition find_buf st (n : Z) : option nat :=
  List.find (fun i => (b_dev (bufat st i) =? ROOTDEV) && (b_blockno (bufat st i) =? n)) (seq 0 30).

Definition view st (n : Z) : block :=
  match find_buf st n with
  | Some i => if b_valid (bufat st i) then b_data (bufat st i) else dev_at (bc_disk st) n
  | None => dev_at (bc_disk st) n
  end.

Definition refs st (n : Z) : Z :=
  match find_buf st n with Some i => b_refcnt (bufat st i) | None => 0 end.

(** Some process has the buffer of block [n] locked. *)
Definition locked st (n : Z) : bool :=
  match find_buf st n with Some i => sl_locked (b_lock (bufat st i)) | None => false end.

(** The caller has buffer [i] of block [n] locked and filled. *)
Definition holds st (i : nat) (n : Z) : Prop :=
  caches st i n /\ b_valid (bufat st i) = true /\
  b_lock (bufat st i) = Sleeplock true (bc_pid st) /\ 0 < b_refcnt (bufat st i).

(** A buffer that can be recycled holds nothing the disk lacks. *)
Definition clean st : Prop := forall i m,
  caches st i m -> b_refcnt (bufat st i) = 0 -> b_valid (bufat st i) = true ->
  b_data (bufat st i) = dev_at (bc_disk st) m.

Lemma find_buf_None st n : find_buf st n = None <-> forall i, ~ caches st i n.
Proof.
  unfold find_buf. rewrite find_None_all. setoid_rewrite elem_of_seq. split.
  - intros H i Hc. assert (Hi : (i < 30)%nat) by apply Hc.
    apply (eqb_caches st i n Hi) in Hc. rewrite H in Hc; [done|lia].
  - intros H i Hi. apply not_true_iff_false. rewrite eqb_caches by lia. apply H.
Qed.

Lemma find_buf_Some st i n : bio_ok st -> find_buf st n = Some i <-> caches st i n.
Proof.
  intros Hok. split.
  - intros [Hi Hc]%find_Some_in. apply elem_of_seq in Hi. by apply eqb_caches in Hc; [|lia].
  - intros Hc. destruct (find_buf st n) as [j|] eqn:E.
    + apply find_Some_in in E as [Hj Hcj]. apply elem_of_seq in Hj.
      apply eqb_caches in Hcj; [|lia]. f_equal. by eapply (bo_uniq _ Hok).
    + rewrite find_buf_None in E. by apply E in Hc.
Qed.

Lemma view_cached st i n :
  bio_ok st -> caches st i n ->
  view st n = if b_valid (bufat st i) then b_data (bufat st i) else dev_at (bc_disk st) n.
Proof. intros Hok Hc. unfold view. by rewrite (proj2 (find_buf_Some st i n Hok) Hc). Qed.

Lemma view_uncached st n : (forall i, ~ caches st i n) -> view st n = dev_at (bc_disk st) n.
Proof. intros H. unfold view. by rewrite (proj2 (find_buf_None st n) H). Qed.

Lemma refs_cached st i n : bio_ok st -> caches st i n -> refs st n = b_refcnt (bufat st i).
Proof. intros Hok Hc. unfold refs. by rewrite (proj2 (find_buf_Some st i n Hok) Hc). Qed.

Lemma refs_uncached st n : (forall i, ~ caches st i n) -> refs st n = 0.
Proof. intros H. unfold refs. by rewrite (proj2 (find_buf_None st n) H). Qed.

Lemma locked_cached st i n :
  bio_ok st -> caches st i n -> locked st n = sl_locked (b_lock (bufat st i)).
Proof. intros Hok Hc. unfold locked. by rewrite (proj2 (find_buf_Some st i n Hok) Hc). Qed.

Lemma locked_uncached st n : (forall i, ~ caches st i n) -> locked st n = false.
Proof. intros H. unfold locked. by rewrite (proj2 (find_buf_None st n) H). Qed.

Lemma caches_em st n : (exists i, caches st i n) \/ (forall i, ~ caches st i n).
Proof.
  destruct (find_buf st n) as [i|] eqn:E; [left|right; by apply find_buf_None].
  exists i. apply find_Some_in in E as [Hi Hc]. apply elem_of_seq in Hi.
  by apply eqb_caches in Hc; [|lia].
Qed.

Lemma view_holds st i n : bio_ok st -> holds st i n -> view st n = b_data (bufat st i).
Proof. intros Hok (Hc & Hv & _). rewrite (view_cached st i n Hok Hc). by rewrite Hv. Qed.

Lemma holds_inj st i j n : bio_ok st -> holds st i n -> holds st j n -> i = j.
Proof. intros Hok Hi Hj. eapply (bo_uniq _ Hok); [apply Hi|apply Hj]. Qed.

Lemma view_ok st n : bio_ok st -> block_ok (view st n).
Proof.
  intros Hok. destruct (caches_em st n) as [[i Hc]|Hn].
  - rewrite (view_cached st i n Hok Hc). destruct (b_valid _).
    + apply (bo_data _ Hok). apply Hc.
    + apply dev_at_ok, Hok.
  - rewrite view_uncached by done. apply dev_at_ok, Hok.
Qed.

Lemma refs_range st n : bio_ok st -> 0 <= refs st n < 2 ^ 32.
Proof.
  intros Hok. destruct (caches_em st n) as [[i Hc]|Hn].
  - rewrite (refs_cached st i n Hok Hc). apply (bo_ref _ Hok). apply Hc.
  - rewrite refs_uncached by done. lia.
Qed.

(** The part of the state a cache operation on block [n] leaves alone. *)
Record frame st st' (n : Z) : Prop := {
  fr_pid : bc_pid st' = bc_pid st;
  fr_view m : m <> n -> view st' m = view st m;
  fr_refs m : m <> n -> refs st' m = refs st m;
  fr_locked m : m <> n -> locked st' m = locked st m;
  fr_holds j m : m <> n -> holds st j m -> holds st' j m /\ b_data (bufat st' j) = b_data (bufat st j) }.

(** Two states that differ only in the buffer of block [n] and in the links. *)
Lemma frame_upd st st' i n :
  bio_ok st -> bio_ok st' -> clean st -> caches st' i n -> same_others st st' i ->
  (caches st i n \/ b_refcnt (bufat st i) = 0) ->
  bc_pid st' = bc_pid st -> (forall m, m <> n -> dev_at (bc_disk st') m = dev_at (bc_disk st) m) ->
  frame st st' n.
Proof.
  intros Hok Hok' Hcl Hc' Hoth Hcase Hpid Hdev.
  assert (Hfw : forall j m, j <> i -> caches st j m -> caches st' j m).
  { intros j m Hj. by rewrite (same_others_caches st st' i). }
  assert (Hbw : forall j m, m <> n -> caches st' j m -> j <> i /\ caches st j m).
  { intros j m Hm Hc. assert (Hj : j <> i).
    { intros ->. destruct Hc as (_ & _ & <-), Hc' as (_ & _ & <-). done. }
    split; [done|]. by rewrite <-(same_others_caches st st' i). }
  assert (Hgone : forall m, m <> n -> caches st i m -> forall j, ~ caches st' j m).
  { intros m Hm Hc j Hj. destruct (Hbw j m Hm Hj) as [Hji Hcj]. apply Hji. by eapply (bo_uniq _ Hok). }
  assert (Hnot : forall m, m <> n -> (forall j, ~ caches st j m) -> forall j, ~ caches st' j m).
  { intros m Hm Hn j Hj. by apply (Hn j), Hbw. }
  assert (Hr0 : forall m, m <> n -> caches st i m -> b_refcnt (bufat st i) = 0).
  { intros m Hm Hc. destruct Hcase as [Hcn|]; [|done].
    destruct Hc as (_ & _ & <-), Hcn as (_ & _ & <-). done. }
  split; [done| | | |].
  - intros m Hm. destruct (caches_em st m) as [[j Hj]|Hn].
    + destruct (decide (j = i)) as [->|Hji].
      * rewrite view_uncached by (by apply Hgone). rewrite (view_cached st i m Hok Hj), Hdev by done.
        destruct (b_valid (bufat st i)) eqn:E; [|done]. symmetry. apply Hcl; eauto.
      * rewrite (view_cached st j m Hok Hj), (view_cached st' j m Hok' (Hfw j m Hji Hj)).
        destruct (nolink_eq _ _ (Hoth j Hji)) as (-> & _ & _ & _ & _ & ->). by rewrite Hdev.
    + rewrite !view_uncached by auto. auto.
  - intros m Hm. destruct (caches_em st m) as [[j Hj]|Hn].
    + destruct (decide (j = i)) as [->|Hji].
      * rewrite refs_uncached by (by apply Hgone). rewrite (refs_cached st i m Hok Hj). by erewrite Hr0.
      * rewrite (refs_cached st j m Hok Hj), (refs_cached st' j m Hok' (Hfw j m Hji Hj)).
        by destruct (nolink_eq _ _ (Hoth j Hji)) as (_ & _ & _ & _ & -> & _).
    + by rewrite !refs_uncached by auto.
  - intros m Hm. destruct (caches_em st m) as [[j Hj]|Hn].
    + destruct (decide (j = i)) as [->|Hji].
      * rewrite locked_uncached by (by apply Hgone). rewrite (locked_cached st i m Hok Hj).
        destruct (sl_locked _) eqn:E; [|done]. apply (bo_lock _ Hok) in E; [|apply Hj].
        rewrite (Hr0 m Hm Hj) in E. lia.
      * rewrite (locked_cached st j m Hok Hj), (locked_cached st' j m Hok' (Hfw j m Hji Hj)).
        by destruct (nolink_eq _ _ (Hoth j Hji)) as (_ & _ & _ & -> & _ & _).
    + by rewrite !locked_uncached by auto.
  - intros j m Hm (Hc & Hv & Hl & Hr). destruct (decide (j = i)) as [->|Hji].
    + rewrite (Hr0 m Hm Hc) in Hr. lia.
    + destruct (nolink_eq _ _ (Hoth j Hji)) as (Ev & _ & _ & El & Er & Edt).
      unfold holds. rewrite Ev, El, Er, Edt, Hpid. split; [|done]. split_and!; auto.
Qed.

Lemma same_others_eq st st' i :
  (forall j, j <> i -> bufat st' j = bufat st j) -> same_others st st' i.
Proof. intros H j Hj. by rewrite H. Qed.

Lemma clean_upd st st' i :
  clean st -> same_others st st' i ->
  (forall m, dev_at (bc_disk st') m = dev_at (bc_disk st) m) ->
  (forall m, caches st' i m -> b_refcnt (bufat st' i) = 0 -> b_valid (bufat st' i) = true ->
             b_data (bufat st' i) = dev_at (bc_disk st) m) ->
  clean st'.
Proof.
  intros Hcl Hoth Hdev Hi j m Hc Hr Hv. rewrite Hdev.
  destruct (decide (j = i)) as [->|Hji]; [by apply Hi|].
  destruct (nolink_eq _ _ (Hoth j Hji)) as (Ev & _ & _ & _ & Er & ->).
  apply Hcl; [|by rewrite <-Er|by rewrite <-Ev]. by rewrite <-(same_others_caches st st' i).
Qed.

(** *** [bread] *)
Definition same_disk st st' : Prop :=
  (forall m, dev_at (bc_disk st') m = dev_at (bc_disk st) m) /\
  dev_trace (bc_disk st') = dev_trace (bc_disk st).

(** The block is read into the buffer that [bget] has found. *)
Lemma bread_fill st s i n :
  bio_ok st -> clean st -> bio_ok s -> 0 <= n < 2 ^ 31 -> caches s i n -> same_others st s i -> bc_disk s = bc_disk st -> bc_pid s = bc_pid st ->
  caches st i n \/ b_refcnt (bufat st i) = 0 -> b_lock (bufat s i) = Sleeplock true (bc_pid s) -> b_refcnt (bufat s i) = refs st n + 1 ->
  view st n = dev_at (bc_disk st) n ->
  wp (disk_rw false i ;;; modify (setbuf i (fun x => x <| b_valid := true |>)) ;;; ret i) (fun i st' =>
    bio_ok st' /\ clean st' /\ holds st' i n /\ frame st st' n /\ same_disk st st' /\
    view st' n = view st n /\ refs st' n = refs st n + 1) s.
Proof.
  intros Hok Hcl Hoks Hn Hcs Hoth Hdk Hpid Hci Hlk Hrs Hview. assert (Hlen := bo_len _ Hoks). assert (Hi : (i < 30)%nat) by apply Hcs.
  pose proof (refs_range st n Hok) as Hrr. pose proof Hcs as (_ & Hdev & Hbn).
  unfold disk_rw. wp_steps. rewrite Hbn. eapply wp_conseq; [apply dev_read_spec; [apply Hoks|done]|].
  intros b d (-> & Hdok & Hdat & Htr). wp_steps. match goal with |- context [holds ?x i n] => set (s' := x) end.
  assert (E' : bufat s' i = bufat s i <| b_data := dev_at (bc_disk s) n |> <| b_disk := false |> <| b_valid := true |>).
  { unfold s'. rewrite bufat_setbuf_eq by (rewrite length_setbuf; simpl; lia). by rewrite bufat_setbuf_eq by (simpl; lia). }
  assert (Hoth' : forall j, j <> i -> bufat s' j = bufat s j) by (intros j Hj; unfold s'; by rewrite !bufat_setbuf_ne).
  assert (Hdk' : bc_disk s' = d) by done.
  assert (Hlen' : length (bc_buf s') = 31%nat) by (unfold s'; rewrite !length_setbuf; done).
  assert (Hoks' : bio_ok s').
  { eapply (bio_ok_upd s s' i); try done; unfold nx, pv; rewrite ?E'; simpl; try done.
    - intros j Hj Hcj. apply Hj. by eapply (bo_uniq _ Hoks).
    - by apply Hoks.
    - by apply Hoks.
    - apply dev_at_ok, Hoks. }
  assert (Hcs' : caches s' i n) by (unfold caches; rewrite E'; done).
  assert (Hso : same_others st s' i) by (intros j Hj; rewrite Hoth' by done; by apply Hoth).
  split_and!; [done| | | | | |].
  - eapply clean_upd; [done|done| |]; [intros; by rewrite Hdk', Hdat, Hdk|]. rewrite E'. simpl. lia.
  - unfold holds. rewrite E'. simpl. rewrite Hlk. split_and!; [done|done|done|lia].
  - eapply frame_upd; eauto. intros. by rewrite Hdk', Hdat, Hdk.
  - split; rewrite Hdk'; [intros; by rewrite Hdat, Hdk|by rewrite Htr, Hdk].
  - by rewrite (view_cached s' i n Hoks' Hcs'), E', Hview, <-Hdk.
  - by rewrite (refs_cached s' i n Hoks' Hcs'), E'.
Qed.

Lemma bread_spec st n :
  bio_ok st -> clean st -> 0 <= n < 2 ^ 31 ->
  locked st n = false -> refs st n + 1 < 2 ^ 32 ->
  (exists i, (i < 30)%nat /\ (caches st i n \/ b_refcnt (bufat st i) = 0)) ->
  wp (bread ROOTDEV n) (fun i st' =>
    bio_ok st' /\ clean st' /\ holds st' i n /\ frame st st' n /\ same_disk st st' /\
    view st' n = view st n /\ refs st' n = refs st n + 1) st.
Proof.
  intros Hok Hcl Hn Hun Href Hfree.
  assert (Hunl : forall i, caches st i n -> sl_locked (b_lock (bufat st i)) = false).
  { intros i Hc. by rewrite <-(locked_cached st i n Hok Hc). }
  assert (Hrc : forall i, caches st i n -> b_refcnt (bufat st i) + 1 < 2 ^ 32).
  { intros i Hc. by rewrite <-(refs_cached st i n Hok Hc). }
  unfold bread. eapply wp_seq; [apply bget_spec; eauto|]. intros i s Hg.
  destruct (got_ok _ _ _ _ Hok Hrc Hg) as [Hoks Hcs].
  destruct Hg as (Hlen & Hdk & Hpid & Hoth & Hcase).
  assert (Hi : (i < 30)%nat) by apply Hcs.
  assert (Hci : caches st i n \/ b_refcnt (bufat st i) = 0) by naive_solver.
  assert (Hlk : b_lock (bufat s i) = Sleeplock true (bc_pid st)).
  { destruct Hcase as [[_ ->]|(_ & _ & _ & ->)]; done. }
  assert (Hrs : b_refcnt (bufat s i) = refs st n + 1).
  { destruct Hcase as [[Hc ->]|(Hnc & _ & _ & ->)]; simpl.
    - by rewrite (refs_cached st i n Hok Hc).
    - by rewrite (refs_uncached st n Hnc). }
  pose proof (refs_range st n Hok) as Hrr.
  apply wp_bind, wp_get. destruct (b_valid (bufat s i)) eqn:Hv; simpl.
  - (* already valid *)
    apply wp_ret. destruct Hcase as [[Hc E]|(_ & _ & _ & E)]; [|rewrite E in Hv; done].
    assert (Hd : b_data (bufat s i) = b_data (bufat st i)) by (by rewrite E).
    assert (Hvst : b_valid (bufat st i) = true) by (rewrite E in Hv; done).
    split_and!; [done| | | | | |].
    + eapply clean_upd; [done|by apply same_others_eq| |]; [by rewrite Hdk|]. lia.
    + split_and!; [done|done|by rewrite Hpid|lia].
    + eapply frame_upd; eauto using same_others_eq. intros. by rewrite Hdk.
    + split; by rewrite Hdk.
    + rewrite (view_cached s i n Hoks Hcs), (view_cached st i n Hok Hc). by rewrite Hv, Hvst.
    + by rewrite (refs_cached s i n Hoks Hcs).
  - apply (bread_fill st s i n); try done.
    + by apply same_others_eq.
    + rewrite Hlk. by rewrite Hpid.
    + destruct Hcase as [[Hc E]|(Hnc & _ & _ & _)].
      * rewrite (view_cached st i n Hok Hc). rewrite E in Hv. simpl in Hv. by rewrite Hv.
      * by rewrite (view_uncached st n Hnc).
Qed.

(** *** [brelse] *)

(** The six pointer assignments of [brelse], as one state update. *)
Definition to_front (b : nat) st : bcache D :=
  let st := setbuf (b_next (bufat st b)) (fun x => x <| b_prev := b_prev (bufat st b) |>) st in
  let st := setbuf (b_prev (bufat st b)) (fun x => x <| b_next := b_next (bufat st b) |>) st in
  let st := setbuf b (fun x => x <| b_next := b_next (bufat st HEAD) |>) st in
  let st := setbuf b (fun x => x <| b_prev := HEAD |>) st in
  let st := setbuf (b_next (bufat st HEAD)) (fun x => x <| b_prev := b |>) st in
  setbuf HEAD (fun h => h <| b_next := b |>) st.

Lemma nx_set_next st i v j :
  (i < length (bc_buf st))%nat ->
  nx (setbuf i (fun x => x <| b_next := v |>) st) j = fupd (nx st) i v j.
Proof. intros. unfold nx, fupd. rewrite bufat_setbuf by done. by case_decide. Qed.
Lemma pv_set_next st i v j :
  (i < length (bc_buf st))%nat -> pv (setbuf i (fun x => x <| b_next := v |>) st) j = pv st j.
Proof. intros. unfold pv. rewrite bufat_setbuf by done. by case_decide; subst. Qed.
Lemma nx_set_prev st i v j :
  (i < length (bc_buf st))%nat -> nx (setbuf i (fun x => x <| b_prev := v |>) st) j = nx st j.
Proof. intros. unfold nx. rewrite bufat_setbuf by done. by case_decide; subst. Qed.
Lemma pv_set_prev st i v j :
  (i < length (bc_buf st))%nat ->
  pv (setbuf i (fun x => x <| b_prev := v |>) st) j = fupd (pv st) i v j.
Proof. intros. unfold pv, fupd. rewrite bufat_setbuf by done. by case_decide. Qed.

Lemma nolink_setbuf st i f j :
  (forall x, nolink (f x) = nolink x) -> nolink (bufat (setbuf i f st) j) = nolink (bufat st j).
Proof.
  intros Hf. unfold bufat, setbuf. simpl. destruct (decide (j = i)) as [->|].
  - destruct (decide (i < length (bc_buf st))%nat).
    + rewrite nth_list_insert_eq by done. apply Hf.
    + by rewrite list_insert_ge by lia.
  - by rewrite nth_list_insert_ne.
Qed.

Lemma to_front_frame st b :
  (forall j, nolink (bufat (to_front b st) j) = nolink (bufat st j)) /\
  length (bc_buf (to_front b st)) = length (bc_buf st) /\
  bc_disk (to_front b st) = bc_disk st /\ bc_pid (to_front b st) = bc_pid st.
Proof.
  unfold to_front. cbv zeta. rewrite !length_setbuf. split; [|done].
  intros j. rewrite !nolink_setbuf by done. done.
Qed.

Lemma linked_bound st order :
  lru_order st order -> forall i, (i <= 30)%nat -> (nx st i <= 30)%nat /\ (pv st i <= 30)%nat.
Proof.
  intros Ho i Hi. destruct (lru_order_facts _ _ Ho) as (_ & _ & Hnd & Hin). destruct Ho as [_ Hl].
  assert (Hb : forall l x d, (forall i, i ∈ l -> (i <= 30)%nat) -> (d <= 30)%nat ->
                 x = hd d l \/ x = List.last l d -> (x <= 30)%nat).
  { intros l x d Hall Hd [->| ->].
    - destruct l; simpl; [done|]. apply Hall. set_solver.
    - destruct (list_snoc_cases l) as [->|(l' & y & ->)]; [done|].
      rewrite last_last. apply Hall. set_solver. }
  assert (Hall : forall j, j ∈ order -> (j <= 30)%nat) by (intros j Hj; apply Hin in Hj; lia).
  destruct (decide (i = HEAD)) as [->|Hne].
  - split; (apply (Hb order _ HEAD); [exact Hall|unfold HEAD; lia|]).
    + left. by eapply linked_next.
    + right. by eapply linked_prev.
  - assert (Hio : i ∈ order) by (apply Hin; unfold HEAD in *; lia).
    apply list_elem_of_split in Hio as (l1 & l2 & ->).
    apply linked_app in Hl as [Hl1 Hl2]. split.
    + apply (Hb l2 _ HEAD); [set_solver|unfold HEAD; lia|]. left. by eapply linked_next.
    + apply (Hb l1 _ HEAD); [set_solver|unfold HEAD; lia|]. right. by eapply linked_prev.
Qed.

Lemma to_front_links st b :
  let nx1 := fupd (nx st) (pv st b) (nx st b) in
  let pv1 := fupd (pv st) (nx st b) (pv st b) in
  length (bc_buf st) = 31%nat -> (b < 30)%nat -> (nx st b <= 30)%nat -> (pv st b <= 30)%nat ->
  nx st b <> b -> (nx1 HEAD <= 30)%nat ->
  (forall j, nx (to_front b st) j = fupd (fupd nx1 b (nx1 HEAD)) HEAD b j) /\
  (forall j, pv (to_front b st) j = fupd (fupd pv1 b HEAD) (nx1 HEAD) b j).
Proof.
  intros nx1 pv1 Hlen Hb Hn Hp Hnb Hn1. unfold to_front. cbv zeta. fold (nx st b). fold (pv st b).
  set (s1 := setbuf (nx st b) _ st).
  assert (L1 : length (bc_buf s1) = 31%nat) by (unfold s1; rewrite length_setbuf; done).
  assert (N1 : forall j, nx s1 j = nx st j) by (intros; apply nx_set_prev; lia).
  assert (P1 : forall j, pv s1 j = pv1 j) by (intros; apply pv_set_prev; lia).
  assert (P1b : pv s1 b = pv st b) by (rewrite P1; unfold pv1; by rewrite fupd_ne).
  fold (nx s1 b). fold (pv s1 b). rewrite (N1 b), P1b.
  set (s2 := setbuf (pv st b) _ s1).
  assert (L2 : length (bc_buf s2) = 31%nat) by (unfold s2; rewrite length_setbuf; done).
  assert (N2 : forall j, nx s2 j = nx1 j).
  { intros. unfold s2. rewrite nx_set_next by lia. unfold nx1, fupd. by rewrite N1. }
  assert (P2 : forall j, pv s2 j = pv1 j) by (intros; unfold s2; rewrite pv_set_next by lia; apply P1).
  fold (nx s2 HEAD). rewrite N2.
  set (s3 := setbuf b _ s2).
  assert (L3 : length (bc_buf s3) = 31%nat) by (unfold s3; rewrite length_setbuf; done).
  assert (N3 : forall j, nx s3 j = fupd nx1 b (nx1 HEAD) j).
  { intros. unfold s3. rewrite nx_set_next by lia. unfold fupd. by rewrite N2. }
  assert (P3 : forall j, pv s3 j = pv1 j) by (intros; unfold s3; rewrite pv_set_next by lia; apply P2).
  set (s4 := setbuf b _ s3).
  assert (L4 : length (bc_buf s4) = 31%nat) by (unfold s4; rewrite length_setbuf; done).
  assert (N4 : forall j, nx s4 j = fupd nx1 b (nx1 HEAD) j).
  { intros. unfold s4. rewrite nx_set_prev by lia. apply N3. }
  assert (P4 : forall j, pv s4 j = fupd pv1 b HEAD j).
  { intros. unfold s4. rewrite pv_set_prev by lia. unfold fupd. by rewrite P3. }
  assert (N4h : nx s4 HEAD = nx1 HEAD) by (rewrite N4; apply fupd_ne; unfold HEAD; lia).
  fold (nx s4 HEAD). rewrite N4h.
  set (s5 := setbuf (nx1 HEAD) _ s4).
  assert (L5 : length (bc_buf s5) = 31%nat) by (unfold s5; rewrite length_setbuf; done).
  split; intros j.
  - rewrite nx_set_next by (unfold HEAD; lia). unfold fupd at 1 2. case_decide; [done|].
    unfold s5. rewrite nx_set_prev by lia. apply N4.
  - rewrite pv_set_next by (unfold HEAD; lia). unfold s5. rewrite pv_set_prev by lia.
    unfold fupd at 1 2. case_decide; [done|]. apply P4.
Qed.

Lemma to_front_order st l1 b l2 :
  length (bc_buf st) = 31%nat -> lru_order st (l1 ++ b :: l2) ->
  lru_order (to_front b st) (b :: l1 ++ l2).
Proof.
  intros Hlen Ho. pose proof (linked_bound _ _ Ho) as Hbd.
  destruct (lru_order_facts _ _ Ho) as (_ & Hh & Hnd & Hin). destruct Ho as [Hperm Hl].
  assert (Hb : (b < 30)%nat) by (apply Hin; set_solver).
  assert (Hnb : nx st b <> b).
  { apply linked_app in Hl as [_ Hl2]. rewrite (linked_next _ _ _ _ _ Hl2).
    destruct l2 as [|y l2]; simpl; [set_solver|]. nodup. set_solver. }
  pose proof (Hbd b ltac:(lia)) as [Hbn Hbp].
  split; [by rewrite <-Hperm, Permutation_middle|].
  destruct (to_front_links st b) as [Hn' Hp']; try done.
  { unfold fupd. case_decide; [done|]. apply Hbd. unfold HEAD. lia. }
  eapply linked_ext; [intros; apply Hn'|intros; apply Hp'|].
  apply linked_push_front; [nodup; set_solver|unfold HEAD; lia| |set_solver|].
  - constructor; [set_solver|]. nodup. apply NoDup_app. set_solver.
  - apply linked_remove; [|done]. by constructor.
Qed.

Lemma on_lock_holding st i pid (Q : bool -> bcache D -> Prop) :
  (i < length (bc_buf st))%nat ->
  Q (sl_locked (b_lock (bufat st i)) && (sl_pid (b_lock (bufat st i)) =? pid)) st ->
  wp (on_lock i (holdingsleep pid)) Q st.
Proof.
  intros Hi HQ. apply wp_zoom. apply wp_gets.
  replace (setbuf i _ st) with st; [done|].
  unfold setbuf, bufat. destruct st as [bs d p]. simpl. f_equal. symmetry. apply list_insert_id.
  simpl in Hi. destruct (nth_lookup_or_length bs i buf0); [|lia]. rewrite e. f_equal.
  by destruct (nth i bs buf0).
Qed.

Lemma holds_holding st i n pid (Q : bool -> bcache D -> Prop) :
  bio_ok st -> holds st i n -> pid = bc_pid st -> Q true st -> wp (on_lock i (holdingsleep pid)) Q st.
Proof.
  intros Hok (Hc & _ & Hl & _) -> HQ. apply on_lock_holding.
  - rewrite (bo_len _ Hok). destruct Hc. lia.
  - rewrite Hl. simpl. by rewrite Z.eqb_refl.
Qed.

(** A change of buffer [i] of block [n] that keeps its identity and links:
    what each of the cache's single-buffer updates preserves. *)
Lemma keep_upd st st' i n :
  bio_ok st -> clean st -> caches st i n -> length (bc_buf st') = 31%nat ->
  (forall j, j <> i -> bufat st' j = bufat st j) ->
  nx st' i = nx st i -> pv st' i = pv st i -> caches st' i n -> bc_pid st' = bc_pid st ->
  dev_ok (bc_disk st') -> (forall m, m <> n -> dev_at (bc_disk st') m = dev_at (bc_disk st) m) ->
  0 <= b_refcnt (bufat st' i) < 2 ^ 32 ->
  (sl_locked (b_lock (bufat st' i)) = true -> 0 < b_refcnt (bufat st' i)) ->
  block_ok (b_data (bufat st' i)) ->
  bio_ok st' /\ frame st st' n.
Proof.
  intros Hok Hcl Hc Hlen Hoth Hn Hp Hc' Hpid Hd Hdm Hr Hl Hb.
  assert (Hok' : bio_ok st').
  { eapply (bio_ok_upd st st' i); try done; [apply Hc|apply Hc'|].
    intros j Hj Hcj. apply Hj. eapply (bo_uniq _ Hok); [done|].
    destruct Hc' as (_ & _ & ->). done. }
  split; [done|]. eapply frame_upd; eauto using same_others_eq.
Qed.

(** The links of the list may change after that. *)
Lemma relink_post st s st' i n :
  bio_ok st -> clean st -> bio_ok s -> clean s -> frame st s n -> caches st i n -> caches s i n -> b_valid (bufat st i) = true ->
  bufat s i = bufat st i <| b_lock := Sleeplock false 0 |> <| b_refcnt := b_refcnt (bufat st i) - 1 |> ->
  (forall j, j <> i -> bufat s j = bufat st j) -> bc_disk s = bc_disk st ->
  (forall j, nolink (bufat st' j) = nolink (bufat s j)) -> length (bc_buf st') = 31%nat -> bc_disk st' = bc_disk s -> bc_pid st' = bc_pid s ->
  (exists order, lru_order st' order) ->
  bio_ok st' /\ clean st' /\ frame st st' n /\ bc_disk st' = bc_disk st /\
  view st' n = b_data (bufat st i) /\ refs st' n = b_refcnt (bufat st i) - 1 /\ locked st' n = false.
Proof.
  intros Hok Hcl Hoks Hcls Hfr Hc Hcs Hv E Hoth Hds Hnl Hl' Hd' Hp' [order Ho]. assert (Hi : (i < 30)%nat) by apply Hc.
  assert (Hso : same_others s st' i) by (intros j _; apply Hnl).
  destruct (nolink_eq _ _ (Hnl i)) as (Ev & Ed & Eb & El & Er & Edt).
  assert (Hc' : caches st' i n) by (unfold caches; rewrite Ed, Eb; done).
  assert (Hok' : bio_ok st').
  { apply (bio_ok_upd_ring s st' i order); try done; rewrite ?Ed, ?Eb, ?El, ?Er, ?Edt, ?Hd'.
    - apply Hcs.
    - intros j Hj Hcj. apply Hj. eapply (bo_uniq _ Hoks); [done|]. destruct Hcs as (? & ? & ?). done.
    - by apply Hoks.
    - by apply Hoks.
    - by apply Hoks.
    - apply Hoks. }
  split_and!; [done| | | | | |].
  - eapply clean_upd; [apply Hcls|done|by rewrite Hd'|].
    intros m Hcm. assert (m = n) as -> by (destruct Hcm as (_ & _ & <-), Hc' as (_ & _ & <-); done).
    rewrite Er, Ev, Edt. by apply Hcls.
  - eapply frame_upd; eauto; rewrite ?Hd', ?Hp', ?Hds; try done; [|apply Hfr].
    intros j Hj. rewrite Hnl, Hoth; done.
  - by rewrite Hd'.
  - rewrite (view_cached st' i n Hok' Hc'), Ev, Edt, E. simpl. by rewrite Hv.
  - rewrite (refs_cached st' i n Hok' Hc'), Er, E. done.
  - rewrite (locked_cached st' i n Hok' Hc'), El, E. done.
Qed.

Lemma brelse_spec st i n :
  bio_ok st -> clean st -> holds st i n ->
  (refs st n = 1 -> view st n = dev_at (bc_disk st) n) ->
  wp (brelse i) (fun _ st' =>
    bio_ok st' /\ clean st' /\ frame st st' n /\ bc_disk st' = bc_disk st /\
    view st' n = view st n /\ refs st' n = refs st n - 1 /\ locked st' n = false) st.
Proof.
  intros Hok Hcl Hh Hdirty. assert (Hlen := bo_len _ Hok).
  assert (Hc : caches st i n) by apply Hh. assert (Hi : (i < 30)%nat) by apply Hc.
  assert (Hv : b_valid (bufat st i) = true) by apply Hh.
  assert (Hr : 0 < b_refcnt (bufat st i)) by apply Hh.
  pose proof (bo_ref _ Hok i Hi) as Hrr.
  rewrite (view_holds st i n Hok Hh) in *. rewrite (refs_cached st i n Hok Hc) in *.
  unfold brelse. wp_steps. eapply holds_holding; [done..|]. simpl.
  unfold on_lock, releasesleep. wp_steps.
  match goal with |- context [if b_refcnt (bufat ?x i) =? 0 then _ else _] => set (s := x) end.
  assert (E : bufat s i = bufat st i <| b_lock := Sleeplock false 0 |>
                           <| b_refcnt := b_refcnt (bufat st i) - 1 |>).
  { unfold s. bufs. simpl. by rewrite u32_id by lia. }
  assert (Hoth : forall j, j <> i -> bufat s j = bufat st j) by (intros; unfold s; by bufs).
  assert (Hls : length (bc_buf s) = 31%nat) by (unfold s; by rewrite !length_setbuf).
  assert (Hcs : caches s i n) by (unfold caches; by rewrite E).
  assert (bio_ok s /\ frame st s n) as [Hoks Hfr].
  { apply (keep_upd st s i n); try done; unfold nx, pv; rewrite ?E; simpl; try done; try lia;
      [apply Hok|by apply Hok]. }
  assert (Hds : bc_disk s = bc_disk st) by done. clearbody s.
  assert (Hcls : clean s).
  { eapply clean_upd; [done|by apply same_others_eq|by rewrite Hds|].
    intros m Hcm Hr0 _. rewrite E in *. simpl in *.
    destruct Hcm as (_ & _ & <-), Hcs as (_ & _ & Hb). rewrite Hb. apply Hdirty. lia. }
  pose proof (fun st' => relink_post st s st' i n Hok Hcl Hoks Hcls Hfr Hc Hcs Hv E Hoth Hds) as Hpost.
  destruct (bo_ring _ Hoks) as [order Ho]. destruct (b_refcnt (bufat s i) =? 0).
  - wp_steps. apply (Hpost (to_front i s)); try apply to_front_frame; [by rewrite (proj1 (proj2 (to_front_frame s i)))|].
    destruct (lru_order_facts _ _ Ho) as (_ & _ & _ & Hin).
    assert (Hio : i ∈ order) by by apply Hin.
    apply list_elem_of_split in Hio as (l1 & l2 & ->). eexists. by apply to_front_order.
  - wp_steps. apply Hpost; eauto.
Qed.

(** *** Updates of a buffer the caller holds *)

(** [b->data = d] through a pointer into the buffer. *)
Definition setdata (i : nat) (d : block) st : bcache D := setbuf i (fun b => b <| b_data := d |>) st.

(** The holder changes contents or reference count of its buffer. *)
Lemma held_upd st st' i n :
  bio_ok st -> clean st -> holds st i n ->
  length (bc_buf st') = 31%nat -> (forall j, j <> i -> bufat st' j = bufat st j) ->
  bc_pid st' = bc_pid st -> dev_ok (bc_disk st') ->
  (forall m, m <> n -> dev_at (bc_disk st') m = dev_at (bc_disk st) m) ->
  bufat st' i = bufat st i <| b_data := b_data (bufat st' i) |>
                  <| b_refcnt := b_refcnt (bufat st' i) |> <| b_disk := b_disk (bufat st' i) |> ->
  0 < b_refcnt (bufat st' i) < 2 ^ 32 -> block_ok (b_data (bufat st' i)) ->
  bio_ok st' /\ clean st' /\ holds st' i n /\ frame st st' n /\
  view st' n = b_data (bufat st' i) /\ refs st' n = b_refcnt (bufat st' i) /\
  locked st' n = true.
Proof.
  intros Hok Hcl Hh Hlen Hoth Hpid Hd Hdm E Hr Hb.
  assert (Hc : caches st i n) by apply Hh.
  assert (Hc' : caches st' i n) by (unfold caches; rewrite E; apply Hc).
  assert (bio_ok st' /\ frame st st' n) as [Hok' Hfr].
  { apply (keep_upd st st' i n); try done; unfold nx, pv; try (rewrite E; done); lia. }
  assert (Hh' : holds st' i n).
  { split; [done|]. rewrite Hpid. destruct Hh as (_ & Hv & Hl & _).
    rewrite E. simpl. split_and!; [done|done|lia]. }
  split_and!; try done.
  - intros j m Hcj Hr0 Hv. destruct (decide (j = i)) as [->|Hji]; [lia|].
    assert (Hm : m <> n). { intros ->. apply Hji. by eapply (bo_uniq _ Hok'). }
    rewrite Hdm by done. rewrite Hoth in * by done. apply Hcl; [|done|done].
    revert Hcj. unfold caches. by rewrite Hoth.
  - by apply view_holds.
  - by apply refs_cached.
  - rewrite (locked_cached st' i n Hok' Hc'). destruct Hh' as (_ & _ & -> & _). done.
Qed.

Lemma setdata_spec st i n d :
  bio_ok st -> clean st -> holds st i n -> block_ok d ->
  let st' := setdata i d st in
  bio_ok st' /\ clean st' /\ holds st' i n /\ frame st st' n /\ bc_disk st' = bc_disk st /\
  view st' n = d /\ refs st' n = refs st n /\ locked st' n = true.
Proof.
  intros Hok Hcl Hh Hd st'. assert (Hi : (i < 30)%nat) by apply Hh.
  assert (Hlen := bo_len _ Hok).
  assert (E : bufat st' i = bufat st i <| b_data := d |>) by (unfold st', setdata; by bufs).
  pose proof (bo_ref _ Hok i Hi). assert (0 < b_refcnt (bufat st i)) by apply Hh.
  assert (Hl' : length (bc_buf st') = 31%nat) by (unfold st', setdata; by rewrite length_setbuf).
  assert (Ho' : forall j, j <> i -> bufat st' j = bufat st j).
  { intros. unfold st', setdata. by bufs. }
  destruct (held_upd st st' i n) as (? & ? & ? & ? & Hv & Hr & ?); try done;
    rewrite ?E; simpl; try done; try lia.
  - apply Hok.
  - rewrite E in Hv, Hr. simpl in *. rewrite (refs_cached st i n Hok) by apply Hh. done.
Qed.

Lemma bpin_spec st i n :
  bio_ok st -> clean st -> holds st i n -> refs st n + 1 < 2 ^ 32 ->
  wp (bpin i) (fun _ st' =>
    bio_ok st' /\ clean st' /\ holds st' i n /\ frame st st' n /\ bc_disk st' = bc_disk st /\
    view st' n = view st n /\ refs st' n = refs st n + 1 /\ locked st' n = true) st.
Proof.
  intros Hok Hcl Hh Hr. assert (Hi : (i < 30)%nat) by apply Hh. assert (Hlen := bo_len _ Hok).
  rewrite (refs_cached st i n Hok) in * by apply Hh. pose proof (bo_ref _ Hok i Hi).
  apply wp_modify. match goal with |- bio_ok ?x /\ _ => set (st' := x) end.
  assert (E : bufat st' i = bufat st i <| b_refcnt := b_refcnt (bufat st i) + 1 |>).
  { unfold st'. bufs. simpl. by rewrite u32_id by lia. }
  assert (Hl' : length (bc_buf st') = 31%nat) by (unfold st', setdata; by rewrite length_setbuf).
  assert (Ho' : forall j, j <> i -> bufat st' j = bufat st j).
  { intros. unfold st', setdata. by bufs. }
  destruct (held_upd st st' i n) as (? & ? & ? & ? & Hv & Hr' & ?); try done;
    rewrite ?E; simpl; try done; try lia.
  - apply Hok.
  - by apply Hok.
  - rewrite E in Hv, Hr'. simpl in *. rewrite (view_holds st i n Hok Hh). done.
Qed.

Lemma bunpin_spec st i n :
  bio_ok st -> clean st -> holds st i n -> 2 <= refs st n ->
  wp (bunpin i) (fun _ st' =>
    bio_ok st' /\ clean st' /\ holds st' i n /\ frame st st' n /\ bc_disk st' = bc_disk st /\
    view st' n = view st n /\ refs st' n = refs st n - 1 /\ locked st' n = true) st.
Proof.
  intros Hok Hcl Hh Hr. assert (Hi : (i < 30)%nat) by apply Hh. assert (Hlen := bo_len _ Hok).
  rewrite (refs_cached st i n Hok) in * by apply Hh. pose proof (bo_ref _ Hok i Hi).
  apply wp_modify. match goal with |- bio_ok ?x /\ _ => set (st' := x) end.
  assert (E : bufat st' i = bufat st i <| b_refcnt := b_refcnt (bufat st i) - 1 |>).
  { unfold st'. bufs. simpl. by rewrite u32_id by lia. }
  assert (Hl' : length (bc_buf st') = 31%nat) by (unfold st', setdata; by rewrite length_setbuf).
  assert (Ho' : forall j, j <> i -> bufat st' j = bufat st j).
  { intros. unfold st', setdata. by bufs. }
  destruct (held_upd st st' i n) as (? & ? & ? & ? & Hv & Hr' & ?); try done;
    rewrite ?E; simpl; try done; try lia.
  - apply Hok.
  - by apply Hok.
  - rewrite E in Hv, Hr'. simpl in *. rewrite (view_holds st i n Hok Hh). done.
Qed.

Lemma bwrite_spec st i n :
  bio_ok st -> clean st -> holds st i n -> 0 <= n < 2 ^ 31 ->
  wp (bwrite i) (fun _ st' =>
    bio_ok st' /\ clean st' /\ holds st' i n /\ frame st st' n /\
    (forall m, dev_at (bc_disk st') m = bput (dev_at (bc_disk st)) n (view st n) m) /\
    dev_trace (bc_disk st') = dev_trace (bc_disk st) ++ [(n, view st n)] /\
    view st' n = view st n /\ refs st' n = refs st n /\ locked st' n = true) st.
Proof.
  intros Hok Hcl Hh Hn. assert (Hi : (i < 30)%nat) by apply Hh. assert (Hlen := bo_len _ Hok).
  pose proof (bo_ref _ Hok i Hi). assert (0 < b_refcnt (bufat st i)) by apply Hh.
  rewrite (refs_cached st i n Hok) in * by apply Hh. rewrite (view_holds st i n Hok Hh).
  unfold bwrite. wp_steps. eapply holds_holding; [done..|]. simpl. unfold disk_rw. wp_steps.
  assert (Hbn : b_blockno (bufat st i) = n) by apply Hh. rewrite Hbn.
  eapply wp_conseq; [apply dev_write_spec; [apply Hok|done|by apply Hok]|].
  intros b d (-> & Hdok & Hdat & Htr). wp_steps.
  match goal with |- bio_ok ?x /\ _ => set (st' := x) end.
  assert (E : bufat st' i = bufat st i <| b_disk := false |>).
  { unfold st'. rewrite bufat_setbuf_eq by (simpl; lia). unfold bufat. simpl. by destruct (nth i _ buf0). }
  assert (Hl' : length (bc_buf st') = 31%nat) by (unfold st', setdata; by rewrite length_setbuf).
  assert (Ho' : forall j, j <> i -> bufat st' j = bufat st j).
  { intros. unfold st', setdata. by bufs. }
  destruct (held_upd st st' i n) as (? & ? & ? & ? & Hv & Hr' & ?); try done;
    rewrite ?E; simpl; try done; try lia.
  - intros m Hm. rewrite Hdat. by apply bput_ne.
  - by apply Hok.
  - rewrite E in Hv, Hr'. simpl in *. done.
Qed.

(** *** [binit] *)
Definition binit_inv (d : D) (pid : Z) (k : nat) st : Prop :=
  length (bc_buf st) = 31%nat /\ linked (nx st) (pv st) HEAD (rev (seq 0 k)) HEAD /\
  (forall j, nolink (bufat st j) = nolink buf0) /\ bc_disk st = d /\ bc_pid st = pid.

Lemma elem_of_rev_seq i k : i ∈ rev (seq 0 k) <-> (i < k)%nat.
Proof. rewrite list_elem_of_In, <-in_rev, in_seq. lia. Qed.

Lemma bufat_bss (d : D) pid j : bufat (bcache_bss d pid) j = buf0.
Proof.
  unfold bufat, bcache_bss. cbn [bc_buf]. generalize 31%nat. intros k. revert j.
  induction k as [|k IH]; intros [|j]; simpl; auto.
Qed.

Lemma nth_seq_next k : hd HEAD (rev (seq 0 k)) = match k with O => HEAD | S k' => k' end.
Proof. destruct k; [done|]. rewrite seq_S, rev_app_distr. done. Qed.

Lemma binit_loop d pid k st :
  (k < 30)%nat -> binit_inv d pid k st ->
  wp (modify (fun st => setbuf k (fun x => x <| b_next := b_next (bufat st HEAD) |>) st) ;;;
      modify (setbuf k (fun x => x <| b_prev := HEAD |>)) ;;;
      on_lock k initsleeplock ;;;
      modify (fun st => setbuf (b_next (bufat st HEAD)) (fun x => x <| b_prev := k |>) st) ;;;
      modify (setbuf HEAD (fun h => h <| b_next := k |>)))
     (fun _ => binit_inv d pid (S k)) st.
Proof.
  intros Hk (Hlen & Hl & Hn & Hd & Hp). unfold on_lock, initsleeplock. wp_steps.
  fold (nx st HEAD). set (nh := nx st HEAD).
  assert (Hnh : (nh <= 30)%nat /\ nh <> k).
  { unfold nh. rewrite (linked_next _ _ _ _ _ Hl), nth_seq_next. unfold HEAD. destruct k; lia. }
  set (s1 := setbuf k _ st). set (s2 := setbuf k _ s1). set (s3 := setbuf k _ s2).
  assert (Hlk : forall j, b_lock (bufat st j) = Sleeplock false 0).
  { intros j. by destruct (nolink_eq _ _ (Hn j)) as (_ & _ & _ & -> & _). }
  assert (L3 : length (bc_buf s3) = 31%nat) by (unfold s3, s2, s1; by rewrite !length_setbuf).
  assert (N3 : forall j, nx s3 j = fupd (nx st) k nh j).
  { intros j. unfold s3, nx at 1. rewrite bufat_setbuf by (unfold s2, s1; rewrite !length_setbuf; lia).
    case_decide as Hj; simpl; [subst j; change (b_next (bufat s2 k)) with (nx s2 k)
      |change (b_next (bufat s2 j)) with (nx s2 j)]; unfold s2; rewrite nx_set_prev by (unfold s1; rewrite !length_setbuf; lia);
    unfold s1; rewrite nx_set_next by lia; done. }
  assert (P3 : forall j, pv s3 j = fupd (pv st) k HEAD j).
  { intros j. unfold s3, pv at 1. rewrite bufat_setbuf by (unfold s2, s1; rewrite !length_setbuf; lia).
    case_decide as Hj; simpl; [subst j; change (b_prev (bufat s2 k)) with (pv s2 k)
      |change (b_prev (bufat s2 j)) with (pv s2 j)]; unfold s2; rewrite pv_set_prev by (unfold s1; rewrite !length_setbuf; lia);
    unfold fupd; case_decide; try done; unfold s1; rewrite pv_set_next by lia; done. }
  assert (Nl3 : forall j, nolink (bufat s3 j) = nolink buf0).
  { intros j. destruct (decide (j = k)) as [->|].
    - unfold s3. rewrite bufat_setbuf_eq by (unfold s2, s1; rewrite !length_setbuf; lia).
      assert (Hx : nolink (bufat s2 k) = nolink buf0) by (unfold s2, s1; rewrite !nolink_setbuf by done; apply Hn).
      revert Hx. destruct (bufat s2 k). unfold nolink. simpl. intros [=]. by subst.
    - unfold s3. rewrite bufat_setbuf_ne by done. unfold s2, s1. rewrite !nolink_setbuf by done. apply Hn. }
  assert (Hh3 : b_next (bufat s3 HEAD) = nh).
  { change (nx s3 HEAD = nh). rewrite N3. apply fupd_ne. unfold HEAD. lia. }
  assert (Hd3 : bc_disk s3 = d /\ bc_pid s3 = pid) by done. clearbody s3. rewrite Hh3.
  split_and!; [by rewrite !length_setbuf| | |by destruct Hd3|by destruct Hd3].
  - rewrite seq_S, rev_app_distr. cbn [rev app Nat.add]. eapply linked_ext; [| |apply linked_push_front; [| | | |apply Hl]].
    + intros j _. rewrite nx_set_next by (rewrite length_setbuf; unfold HEAD; lia).
      unfold fupd at 1 2. case_decide; [done|]. rewrite nx_set_prev by lia. apply N3.
    + intros j _. rewrite pv_set_next by (rewrite length_setbuf; unfold HEAD; lia).
      rewrite pv_set_prev by lia. change (nx st HEAD) with nh.
      unfold fupd at 1 2. case_decide; [done|]. apply P3.
    + rewrite elem_of_cons, elem_of_rev_seq. unfold HEAD. lia.
    + unfold HEAD. lia.
    + constructor; [rewrite elem_of_rev_seq; unfold HEAD; lia|].
      apply NoDup_ListNoDup, NoDup_rev, NoDup_ListNoDup, NoDup_seq.
    + rewrite elem_of_rev_seq. unfold HEAD. lia.
  - intros j. rewrite !nolink_setbuf by done. apply Nl3.
Qed.

Lemma binit_spec (d : D) pid :
  dev_ok d ->
  wp binit (fun _ st =>
    bio_ok st /\ clean st /\ lru_order st (rev (seq 0 30)) /\ bc_disk st = d /\ bc_pid st = pid /\
    forall i n, ~ caches st i n) (bcache_bss d pid).
Proof.
  intros Hd. unfold binit. wp_steps.
  eapply (wp_each _ (fun k st => binit_inv d pid (Z.to_nat k) st)).
  - split; [done|]. split; [simpl; unfold nx, pv; by bufs|]. split; [|done].
    intros j. rewrite !nolink_setbuf by done. by rewrite bufat_bss.
  - intros j s Hj Hi. eapply wp_conseq; [apply binit_loop; [unfold NBUF, MAXOPBLOCKS in *; lia|exact Hi]|].
    intros [] s' Hs. by replace (Z.to_nat (j + 1)) with (S (Z.to_nat j)) by lia.
  - change (Z.to_nat (0 + _)) with 30%nat. intros s (Hlen & Hl & Hn & Hdk & Hp).
    assert (Hf : forall j, b_dev (bufat s j) = 0 /\ b_refcnt (bufat s j) = 0 /\
       b_lock (bufat s j) = Sleeplock false 0 /\ b_data (bufat s j) = zero_block).
    { intros j. by destruct (nolink_eq _ _ (Hn j)) as (_ & -> & _ & -> & -> & ->). }
    assert (Hnc : forall i n, ~ caches s i n).
    { intros i n (_ & E & _). destruct (Hf i) as [E' _]. rewrite E' in E. done. }
    assert (Ho : lru_order s (rev (seq 0 30))).
    { split; [|done]. symmetry. apply Permutation_rev. }
    split_and!; try done; [|intros i m Hc; by apply Hnc in Hc].
    split; try done; [by eexists|intros i j n Hc; by apply Hnc in Hc| | | | |].
    all: try (intros i Hi; destruct (Hf i) as (E1 & E2 & E3 & E4); rewrite ?E1, ?E2, ?E3, ?E4; try done; lia).
    + intros i Hi. destruct (Hf i) as (E1 & E2 & E3 & E4). rewrite E4. apply zero_block_ok.
    + by rewrite Hdk.
Qed.
End BioSpec.
