(* ===== verification/LogTx.v ===== *)
(** The discipline of the buffer cache under the log: which blocks are pinned
    by the open transaction, which are held by the running code, and which of
    the held ones have been modified since.  [tx_ok] is kept by [bread],
    [brelse], [bwrite], [bpin] and [bunpin] used the way kernel/log.c and
    kernel/fs.c use them. *)

From S2P Require Import Prelude Bytes Ring Params Disk Sleeplock Bio.

Definition b2z (b : bool) : Z := if b then 1 else 0.

Section Tx.
Context {D : Type} `{BS : BlockDevSpec D}.
Implicit Types c : bcache D.
Implicit Types L : list Z.
Implicit Types H Y : gset Z.

(** [L] the blocks pinned by the log, [H] the blocks whose buffers are locked,
    [Y] the locked blocks whose contents may differ from both disk and log. *)
Record tx_ok c L H Y : Prop := {
  tx_bio : bio_ok c;
  tx_clean : clean c;
  tx_nodup : NoDup L;
  tx_refs n : refs c n = b2z (bool_decide (n ∈ L)) + b2z (bool_decide (n ∈ H));
  tx_locked n : locked c n = bool_decide (n ∈ H);
  tx_disk n : (n ∉ L) -> (n ∉ Y) -> view c n = dev_at (bc_disk c) n }.

(** Buffers are available: the pinned and the held blocks do not fill the cache. *)
Definition room L H : Prop := (size (list_to_set L ∪ H : gset Z) < Z.to_nat NBUF)%nat.

Definition used_block c (i : nat) : Z := b_blockno (bufat c i).

Lemma tx_caches c L H Y n : tx_ok c L H Y -> (n ∈ L \/ n ∈ H) -> exists i, caches c i n.
Proof.
  intros [] Hn. destruct (caches_em c n) as [?|Hno]; [done|].
  pose proof (refs_uncached c n Hno) as E. rewrite tx_refs0 in E.
  do 2 case_bool_decide; unfold b2z in E; naive_solver lia.
Qed.

Lemma tx_room c L H Y : tx_ok c L H Y -> room L H ->
  exists i, (i < 30)%nat /\ b_refcnt (bufat c i) = 0.
Proof.
  intros Htx Hroom. pose proof (tx_bio _ _ _ _ Htx) as Hok.
  destruct (decide (Exists (fun i => b_refcnt (bufat c i) = 0) (seq 0 30))) as [He|He].
  { apply Exists_exists in He as (i & Hi & ?). apply elem_of_seq in Hi. exists i. split; [lia|done]. }
  exfalso. rewrite Exists_exists in He.
  assert (Hin : forall i, (i < 30)%nat ->
    caches c i (used_block c i) /\ (used_block c i ∈ L \/ used_block c i ∈ H)).
  { intros i Hi. assert (b_refcnt (bufat c i) <> 0).
    { intros E. apply He. exists i. split; [apply elem_of_seq; lia|done]. }
    assert (Hc : caches c i (used_block c i)).
    { split_and!; [done| |done]. by apply Hok. }
    split; [done|]. pose proof (refs_cached c i _ Hok Hc) as E. rewrite (tx_refs _ _ _ _ Htx) in E.
    do 2 case_bool_decide; unfold b2z in E; auto; lia. }
  set (used := map (used_block c) (seq 0 30)).
  assert (Hnd : NoDup used).
  { apply NoDup_fmap_2_strong; [|apply NoDup_seq].
    intros i j Hi Hj E. apply elem_of_seq in Hi, Hj.
    eapply (bo_uniq _ Hok); [apply Hin; lia|]. rewrite E. apply Hin; lia. }
  assert (Hsub : (list_to_set used : gset Z) ⊆ list_to_set L ∪ H).
  { intros n Hn. apply elem_of_list_to_set, list_elem_of_fmap in Hn as (i & -> & Hi).
    apply elem_of_seq in Hi. destruct (Hin i) as [_ [?|?]]; [lia|set_solver..]. }
  apply subseteq_size in Hsub. rewrite size_list_to_set in Hsub by done.
  unfold used, room in *. rewrite length_map, length_seq in Hsub. change (Z.to_nat NBUF) with 30%nat in *. lia.
Qed.

(** What an operation on the buffer of block [n] leaves alone. *)
Definition keep c c' (n : Z) : Prop :=
  bc_pid c' = bc_pid c /\ forall j m, m <> n -> holds c j m -> holds c' j m.

Lemma keep_holds c c' n j m : keep c c' n -> m <> n -> holds c j m -> holds c' j m.
Proof. intros [_ K]. apply K. Qed.

Lemma frame_keep c c' n : frame c c' n -> keep c c' n.
Proof. intros []. split; [done|]. intros j m Hm Hh. by apply fr_holds. Qed.

Lemma tx_holds_in c L H Y i n : tx_ok c L H Y -> holds c i n -> n ∈ H.
Proof.
  intros [] (Hc & _ & Hl & _). specialize (tx_locked0 n).
  rewrite (locked_cached c i n tx_bio0 Hc), Hl in tx_locked0. simpl in *.
  by case_bool_decide.
Qed.

Lemma tx_sub c L H Y Y' : tx_ok c L H Y -> (forall n, n ∈ Y -> n ∈ L \/ n ∈ Y') -> tx_ok c L H Y'.
Proof. intros [] Hs. split; auto. intros n Hn Hy. apply tx_disk0; [done|]. naive_solver. Qed.

(** A step on block [n] that frames the other blocks. *)
Lemma tx_step c c' n L L' H H' Y Y' :
  tx_ok c L H Y -> bio_ok c' -> clean c' -> frame c c' n -> NoDup L' ->
  (forall m, m <> n -> (m ∈ L' <-> m ∈ L)) -> (forall m, m <> n -> (m ∈ H' <-> m ∈ H)) ->
  (forall m, m <> n -> m ∈ Y -> m ∈ Y') ->
  refs c' n = b2z (bool_decide (n ∈ L')) + b2z (bool_decide (n ∈ H')) ->
  locked c' n = bool_decide (n ∈ H') ->
  (forall m, m <> n -> dev_at (bc_disk c') m = dev_at (bc_disk c) m) ->
  ((n ∉ L') -> (n ∉ Y') -> view c' n = dev_at (bc_disk c') n) ->
  tx_ok c' L' H' Y'.
Proof.
  intros Htx Hok Hcl Hfr Hnd HL HH HY Hr Hl Hd Hv. split; try done.
  - intros m. destruct (decide (m = n)) as [->|Hm]; [done|].
    rewrite (fr_refs _ _ _ Hfr m Hm), (tx_refs _ _ _ _ Htx).
    by rewrite (bool_decide_ext _ _ (HL m Hm)), (bool_decide_ext _ _ (HH m Hm)).
  - intros m. destruct (decide (m = n)) as [->|Hm]; [done|].
    rewrite (fr_locked _ _ _ Hfr m Hm), (tx_locked _ _ _ _ Htx).
    by rewrite (bool_decide_ext _ _ (HH m Hm)).
  - intros m. destruct (decide (m = n)) as [->|Hm]; [done|]. intros ??.
    rewrite (fr_view _ _ _ Hfr m Hm), Hd by done. apply (tx_disk _ _ _ _ Htx); naive_solver.
Qed.

(** The side conditions of [tx_step] that are about sets only. *)
Ltac tx_update Htx :=
  eapply tx_step;
  [exact Htx|eassumption|eassumption|eassumption|try apply (tx_nodup _ _ _ _ Htx)
  |try done; clear; set_solver|try done; clear; set_solver|try done; clear; set_solver|..];
  try done.

Lemma frame_views c c' n b : frame c c' n -> view c' n = b -> forall m, view c' m = bput (view c) n b m.
Proof.
  intros Hf E m. unfold bput. case_decide as Hm; [by subst|]. by apply (fr_view _ _ _ Hf).
Qed.

Lemma frame_same_views c c' n : frame c c' n -> view c' n = view c n -> forall m, view c' m = view c m.
Proof.
  intros Hf E m. destruct (decide (m = n)) as [->|]; [done|]. by apply (fr_view _ _ _ Hf).
Qed.

Lemma b2z_in (X : gset Z) n : n ∈ X -> b2z (bool_decide (n ∈ X)) = 1.
Proof. intros. by rewrite bool_decide_true. Qed.
Lemma b2z_notin (X : gset Z) n : (n ∉ X) -> b2z (bool_decide (n ∈ X)) = 0.
Proof. intros. by rewrite bool_decide_false. Qed.
Lemma b2z_bounds b : 0 <= b2z b <= 1.
Proof. destruct b; simpl; lia. Qed.

Lemma bread_tx c L H Y n :
  tx_ok c L H Y -> (n ∉ H) -> 0 <= n < 2 ^ 31 -> (n ∈ L \/ room L H) ->
  wp (bread ROOTDEV n) (fun i c' =>
    tx_ok c' L ({[n]} ∪ H) Y /\ holds c' i n /\ (forall m, view c' m = view c m) /\
    keep c c' n /\ same_disk c c') c.
Proof.
  intros Htx HnH Hn Hfree. pose proof (tx_refs _ _ _ _ Htx n) as Hr.
  pose proof (b2z_bounds (bool_decide (n ∈ L))).
  rewrite (b2z_notin H n HnH) in Hr.
  eapply wp_conseq; [apply bread_spec; try apply Htx; try done|].
  - rewrite (tx_locked _ _ _ _ Htx). by apply bool_decide_false.
  - lia.
  - destruct Hfree as [HL|Hroom].
    + destruct (tx_caches _ _ _ _ _ Htx (or_introl HL)) as [i Hc]. exists i. split; [apply Hc|by left].
    + destruct (tx_room _ _ _ _ Htx Hroom) as (i & ? & ?). eauto.
  - intros i c' (Hok & Hcl & Hh & Hfr & [Hd Ht] & Hv & Hr').
    split_and!; [|done|by eapply frame_same_views|by apply frame_keep|done].
    tx_update Htx.
    + rewrite Hr', Hr. rewrite (b2z_in ({[n]} ∪ H)) by set_solver. lia.
    + rewrite bool_decide_true by set_solver. rewrite (locked_cached c' i n) by apply Hok || apply Hh.
      destruct Hh as (_ & _ & -> & _). done.
    + intros ??. rewrite Hv, Hd. by apply Htx.
Qed.

Lemma brelse_tx c L H Y i n :
  tx_ok c L H Y -> holds c i n -> (n ∉ Y) ->
  wp (brelse i) (fun _ c' =>
    tx_ok c' L (H ∖ {[n]}) Y /\ (forall m, view c' m = view c m) /\
    keep c c' n /\ bc_disk c' = bc_disk c) c.
Proof.
  intros Htx Hh HnY. pose proof (tx_holds_in _ _ _ _ _ _ Htx Hh) as HnH.
  pose proof (tx_refs _ _ _ _ Htx n) as Hr. rewrite (b2z_in H n HnH) in Hr.
  eapply wp_conseq; [apply brelse_spec; try apply Htx; try done|].
  - intros E. apply (tx_disk _ _ _ _ Htx); [|done]. intros HL. rewrite Hr, bool_decide_true in E by done.
    simpl in E. lia.
  - intros _ c' (Hok & Hcl & Hfr & Hd & Hv & Hr' & Hl).
    split_and!; [|by eapply frame_same_views|by apply frame_keep|done].
    tx_update Htx.
    + rewrite Hr', Hr, (b2z_notin (H ∖ {[n]})) by set_solver. lia.
    + rewrite Hl. symmetry. apply bool_decide_false. set_solver.
    + by rewrite Hd.
    + intros ??. rewrite Hv, Hd. by apply Htx.
Qed.

Lemma setdata_tx c L H Y i n d :
  tx_ok c L H Y -> holds c i n -> block_ok d ->
  let c' := setdata i d c in
  tx_ok c' L H ({[n]} ∪ Y) /\ holds c' i n /\ (forall m, view c' m = bput (view c) n d m) /\
  keep c c' n /\ bc_disk c' = bc_disk c.
Proof.
  intros Htx Hh Hd c'. pose proof (tx_holds_in _ _ _ _ _ _ Htx Hh) as HnH.
  destruct (setdata_spec c i n d) as (Hok & Hcl & Hh' & Hfr & Hdk & Hv & Hr & Hl); try apply Htx; try done.
  fold c' in Hok, Hcl, Hh', Hfr, Hdk, Hv, Hr, Hl.
  split_and!; [|done|by eapply frame_views|by apply frame_keep|done].
  tx_update Htx.
  - rewrite Hr. apply Htx.
  - rewrite Hl. by rewrite bool_decide_true.
  - intros _ Hy. exfalso. apply Hy. set_solver.
Qed.

Lemma bwrite_tx c L H Y i n :
  tx_ok c L H Y -> holds c i n -> 0 <= n < 2 ^ 31 ->
  wp (bwrite i) (fun _ c' =>
    tx_ok c' L H (Y ∖ {[n]}) /\ holds c' i n /\ (forall m, view c' m = view c m) /\ keep c c' n /\
    (forall m, dev_at (bc_disk c') m = bput (dev_at (bc_disk c)) n (view c n) m) /\
    dev_trace (bc_disk c') = dev_trace (bc_disk c) ++ [(n, view c n)]) c.
Proof.
  intros Htx Hh Hn. pose proof (tx_holds_in _ _ _ _ _ _ Htx Hh) as HnH.
  eapply wp_conseq; [apply bwrite_spec; try apply Htx; done|].
  intros _ c' (Hok & Hcl & Hh' & Hfr & Hd & Ht & Hv & Hr & Hl).
  split_and!; [|done|by eapply frame_same_views|by apply frame_keep|done|done].
  tx_update Htx.
  - rewrite Hr. apply Htx.
  - rewrite Hl. by rewrite bool_decide_true.
  - intros m Hm. by rewrite Hd, bput_ne.
  - intros _ _. by rewrite Hv, Hd, bput_eq.
Qed.

Lemma bpin_tx c L H Y i n :
  tx_ok c L H Y -> holds c i n -> (n ∉ L) ->
  wp (bpin i) (fun _ c' =>
    tx_ok c' (L ++ [n]) H (Y ∖ {[n]}) /\ holds c' i n /\ (forall m, view c' m = view c m) /\
    keep c c' n /\ bc_disk c' = bc_disk c) c.
Proof.
  intros Htx Hh HnL. pose proof (tx_holds_in _ _ _ _ _ _ Htx Hh) as HnH.
  pose proof (tx_refs _ _ _ _ Htx n) as Hr. rewrite (b2z_in H n HnH), bool_decide_false in Hr by done.
  simpl in Hr. eapply wp_conseq; [apply bpin_spec; try apply Htx; try done; lia|].
  intros _ c' (Hok & Hcl & Hh' & Hfr & Hd & Hv & Hr' & Hl).
  split_and!; [|done|by eapply frame_same_views|by apply frame_keep|done].
  tx_update Htx.
  - apply NoDup_app. split_and!; [apply Htx|set_solver|apply NoDup_singleton].
  - rewrite Hr', Hr, (b2z_in H) by done. by rewrite bool_decide_true by set_solver.
  - rewrite Hl. by rewrite bool_decide_true.
  - by rewrite Hd.
  - intros HL. exfalso. apply HL. set_solver.
Qed.

Lemma bunpin_tx c L H Y i n :
  tx_ok c (n :: L) H Y -> holds c i n -> (view c n = dev_at (bc_disk c) n) ->
  wp (bunpin i) (fun _ c' =>
    tx_ok c' L H Y /\ holds c' i n /\ (forall m, view c' m = view c m) /\
    keep c c' n /\ bc_disk c' = bc_disk c) c.
Proof.
  intros Htx Hh Hdisk. pose proof (tx_holds_in _ _ _ _ _ _ Htx Hh) as HnH.
  pose proof (tx_refs _ _ _ _ Htx n) as Hr. rewrite (b2z_in H n HnH), bool_decide_true in Hr by set_solver.
  pose proof (tx_nodup _ _ _ _ Htx) as Hnd. apply NoDup_cons in Hnd as [HnL Hnd].
  simpl in Hr. eapply wp_conseq; [apply bunpin_spec; try apply Htx; try done; lia|].
  intros _ c' (Hok & Hcl & Hh' & Hfr & Hd & Hv & Hr' & Hl).
  split_and!; [|done|by eapply frame_same_views|by apply frame_keep|done].
  tx_update Htx.
  - rewrite Hr', Hr, (b2z_in H) by done. by rewrite bool_decide_false by done.
  - rewrite Hl. by rewrite bool_decide_true.
  - by rewrite Hd.
  - intros _ _. by rewrite Hv, Hd.
Qed.

(** Nothing cached, nothing locked: the state after [binit]. *)
Lemma tx_fresh c : bio_ok c -> (forall i n, ~ caches c i n) -> tx_ok c [] ∅ ∅.
Proof.
  intros Hok Hno. split; try done.
  - intros i m Hc. by destruct (Hno i m).
  - constructor.
  - intros n. rewrite refs_uncached by done. by rewrite !bool_decide_false by set_solver.
  - intros n. rewrite locked_uncached by done. by rewrite bool_decide_false by set_solver.
  - intros n _ _. by apply view_uncached.
Qed.
End Tx.
