(* ===== verification/Log.v ===== *)
(** The write-ahead log, kernel/log.c.

    The state is the buffer cache (and the disk under it) together with the
    in-memory [struct log].  [log.lock] makes the short critical sections
    atomic; waiting for log space or for a commit is the [Sleep] outcome. *)

From S2P Require Import Prelude Bytes Ring Params Disk Sleeplock Bio.

(** kernel/log.c:35-38 *)
Record logheader := Logheader { lh_n : Z; lh_block : list Z }.
#[export] Instance eta_logheader : Eta logheader := fun h => Logheader (lh_n h) (lh_block h).

(** kernel/log.c:40-48 *)
Record log := Log {
  lg_start : Z;
  lg_outstanding : Z;
  lg_committing : bool;
  lg_dev : Z;
  lg_lh : logheader }.
#[export] Instance eta_log : Eta log := fun l =>
  Log (lg_start l) (lg_outstanding l) (lg_committing l) (lg_dev l) (lg_lh l).

(** [log] in the zero-initialised data segment. *)
Definition log_bss : log := Log 0 0 false 0 (Logheader 0 (replicate (Z.to_nat LOGBLOCKS) 0)).

(** [sizeof(struct logheader)]: [n] and [LOGBLOCKS] block numbers. *)
Definition LOGHEADER_SIZE : Z := 4 * (1 + LOGBLOCKS).

Section Log.
Context {D : Type} `{BD : BlockDev D}.

Record lstate := Lstate { ls_cache : bcache D; ls_log : log }.
#[export] Instance eta_lstate : Eta lstate := fun s => Lstate (ls_cache s) (ls_log s).
Implicit Types s : lstate.

Definition liftb {A} (m : M (bcache D) A) : M lstate A :=
  zoom ls_cache (fun c s => s <| ls_cache := c |>) m.

Definition setlog (f : log -> log) s : lstate := s <| ls_log := f (ls_log s) |>.
Definition setlh (f : logheader -> logheader) s : lstate :=
  setlog (fun l => l <| lg_lh := f (lg_lh l) |>) s.
Definition lh s : logheader := lg_lh (ls_log s).

(** [bp->data], and assigning through it. *)
Definition bdata (b : nat) : M lstate block := gets (fun s => b_data (bufat (ls_cache s) b)).
Definition bset (b : nat) (d : block) : M lstate unit :=
  modify (fun s => s <| ls_cache := setdata b d (ls_cache s) |>).

(** kernel/log.c:66-84 *)
Definition install_trans (recovering : bool) : M lstate unit :=
  let* s := get in
  each (fun tail =>
    let* lbuf := liftb (bread (lg_dev (ls_log s)) (u32 (lg_start (ls_log s) + tail + 1))) in
    let* dbuf := liftb (bread (lg_dev (ls_log s)) (u32 (aget (lh_block (lh s)) tail))) in
    let* d := bdata lbuf in
    bset dbuf d ;;;
    liftb (bwrite dbuf) ;;;
    (if negb recovering then liftb (bunpin dbuf) else ret tt) ;;;
    liftb (brelse lbuf) ;;;
    liftb (brelse dbuf)) 0 (Z.to_nat (lh_n (lh s))).

(** kernel/log.c:87-98.  A header that claims more than [LOGBLOCKS] entries
    would overrun [log.lh.block]. *)
Definition read_head : M lstate unit :=
  let* s := get in
  let* b := liftb (bread (lg_dev (ls_log s)) (u32 (lg_start (ls_log s)))) in
  let* d := bdata b in
  let n := s32 (get32 d 0) in
  modify (setlh (fun h => h <| lh_n := n |>)) ;;;
  (if LOGBLOCKS <? n then undef "read_head: block[] overrun" else ret tt) ;;;
  each (fun i =>
    modify (setlh (fun h => h <| lh_block := aset (lh_block h) i (s32 (get32 d (4 + 4 * i))) |>)))
    0 (Z.to_nat n) ;;;
  liftb (brelse b).

(** kernel/log.c:103-115 *)
Definition write_head : M lstate unit :=
  let* s := get in
  let* b := liftb (bread (lg_dev (ls_log s)) (u32 (lg_start (ls_log s)))) in
  let* d := bdata b in
  bset b (put32 d 0 (lh_n (lh s))) ;;;
  each (fun i =>
    let* d := bdata b in
    bset b (put32 d (4 + 4 * i) (aget (lh_block (lh s)) i))) 0 (Z.to_nat (lh_n (lh s))) ;;;
  liftb (bwrite b) ;;;
  liftb (brelse b).

(** kernel/log.c:117-124 *)
Definition recover_from_log : M lstate unit :=
  read_head ;;;
  install_trans true ;;;
  modify (setlh (fun h => h <| lh_n := 0 |>)) ;;;
  write_head.

(** kernel/log.c:53-63 *)
Definition initlog (dev : Z) (sb : superblock) : M lstate unit :=
  (if BSIZE <=? LOGHEADER_SIZE then panic "initlog: too big logheader" else ret tt) ;;;
  modify (setlog (fun l => l <| lg_start := s32 (sb_logstart sb) |>)) ;;;
  modify (setlog (fun l => l <| lg_dev := dev |>)) ;;;
  recover_from_log.

(** kernel/log.c:127-143 *)
Definition begin_op : M lstate unit :=
  let* s := get in
  if lg_committing (ls_log s) then sleepon ChLog
  else if LOGBLOCKS <? lh_n (lh s) + (lg_outstanding (ls_log s) + 1) * MAXOPBLOCKS then sleepon ChLog
  else modify (setlog (fun l => l <| lg_outstanding := lg_outstanding l + 1 |>)).

(** kernel/log.c:179-192 *)
Definition write_log : M lstate unit :=
  let* s := get in
  each (fun tail =>
    let* to := liftb (bread (lg_dev (ls_log s)) (u32 (lg_start (ls_log s) + tail + 1))) in
    let* from := liftb (bread (lg_dev (ls_log s)) (u32 (aget (lh_block (lh s)) tail))) in
    let* d := bdata from in
    bset to d ;;;
    liftb (bwrite to) ;;;
    liftb (brelse from) ;;;
    liftb (brelse to)) 0 (Z.to_nat (lh_n (lh s))).

(** kernel/log.c:194-204 *)
Definition commit : M lstate unit :=
  let* s := get in
  if 0 <? lh_n (lh s) then
    write_log ;;;
    write_head ;;;
    install_trans false ;;;
    modify (setlh (fun h => h <| lh_n := 0 |>)) ;;;
    write_head
  else ret tt.

(** kernel/log.c:147-176 *)
Definition end_op : M lstate unit :=
  modify (setlog (fun l => l <| lg_outstanding := lg_outstanding l - 1 |>)) ;;;
  let* s := get in
  if lg_committing (ls_log s) then panic "log.committing"
  else if lg_outstanding (ls_log s) =? 0 then
    modify (setlog (fun l => l <| lg_committing := true |>)) ;;;
    commit ;;;
    modify (setlog (fun l => l <| lg_committing := false |>))
  else ret tt.

(** The first [i < n] with [log.lh.block[i] == blockno], or [n]. *)
Fixpoint log_index (l : list Z) (blockno i : Z) (n : nat) : Z :=
  match n with
  | O => i
  | S n' => if u32 (aget l i) =? blockno then i else log_index l blockno (i + 1) n'
  end.

(** kernel/log.c:215-236 *)
Definition log_write (b : nat) : M lstate unit :=
  let* s := get in
  if LOGBLOCKS <=? lh_n (lh s) then panic "too big a transaction"
  else if lg_outstanding (ls_log s) <? 1 then panic "log_write outside of trans"
  else
    let blockno := b_blockno (bufat (ls_cache s) b) in
    let i := log_index (lh_block (lh s)) blockno 0 (Z.to_nat (lh_n (lh s))) in
    modify (setlh (fun h => h <| lh_block := aset (lh_block h) i (s32 blockno) |>)) ;;;
    if i =? lh_n (lh s) then
      liftb (bpin b) ;;;
      modify (setlh (fun h => h <| lh_n := lh_n h + 1 |>))
    else ret tt.
End Log.
Arguments lstate D : clear implicits.
