(* ===== verification/LogSpec.v ===== *)
(** What the operations of kernel/log.c do to the disk: the exact sequence of
    block writes each of them issues, the resulting contents, and the state of
    the cache afterwards. *)

From S2P Require Import Prelude Bytes Ring Params Disk Sleeplock Bio LogTx Log.

(** ** Block writes as sequences *)

Lemma replay_ext f g T m : (forall m, f m = g m) -> replay f T m = replay g T m.
Proof.
  revert f g. induction T as [|[n b] T IH]; intros f g E; simpl; [done|].
  apply IH. intros. unfold bput. by case_decide.
Qed.

Lemma replay_other f T m : (m ∉ T.*1) -> replay f T m = f m.
Proof.
  revert f. induction T as [|[n b] T IH]; intros f E; simpl; [done|].
  simpl in E. rewrite IH by set_solver. apply bput_ne. set_solver.
Qed.

Lemma replay_snoc f T n b m : replay f (T ++ [(n, b)]) m = bput (replay f T) n b m.
Proof. by rewrite replay_app. Qed.

(** Writes that store [g n] in every block [n] they touch. *)
Lemma replay_in f g T m :
  (forall n b, (n, b) ∈ T -> b = g n) -> replay f T m = if decide (m ∈ T.*1) then g m else f m.
Proof.
  revert f. induction T as [|[n b] T IH]; intros f E.
  { rewrite decide_False by set_solver. done. }
  change (replay f ((n, b) :: T) m) with (replay (bput f n b) T m). rewrite fmap_cons.
  rewrite IH by set_solver. unfold bput. repeat case_decide; try done; set_solver.
Qed.

(** The writes [(start + 1 + i, V (L_i))]: the transaction copied to the log. *)
Definition log_writes (start : Z) (L : list Z) (V : Z -> block) : list (Z * block) :=
  imap (fun i b => (start + 1 + Z.of_nat i, V b)) L.

(** The writes [(L_i, V (start + 1 + i))]: the log copied to the home blocks. *)
Definition home_writes (start : Z) (L : list Z) (V : Z -> block) : list (Z * block) :=
  imap (fun i b => (b, V (start + 1 + Z.of_nat i))) L.

(** The writes [(b, V b)] for the blocks of [L]. *)
Definition own_writes (L : list Z) (V : Z -> block) : list (Z * block) := map (fun b => (b, V b)) L.

Lemma own_writes_fst L V : (own_writes L V).*1 = L.
Proof. unfold own_writes. rewrite <-list_fmap_compose. apply list_fmap_id. Qed.

Lemma replay_own f L V m : replay f (own_writes L V) m = if decide (m ∈ L) then V m else f m.
Proof.
  rewrite (replay_in f V), own_writes_fst; [done|]. intros n b Hin.
  by apply list_elem_of_fmap in Hin as (x & [= -> ->] & _).
Qed.

(** After the log has been written, its area holds the logged contents. *)
Lemma replay_log_writes f start L V i b :
  L !! i = Some b -> replay f (log_writes start L V) (start + 1 + Z.of_nat i) = V b.
Proof.
  induction L as [|b' L IH] using rev_ind; intros Hi; [done|].
  unfold log_writes. rewrite imap_app. fold (log_writes start L V). simpl. rewrite Nat.add_0_r, replay_snoc.
  apply lookup_app_Some in Hi as [Hi|[Hge Hi]].
  - pose proof (lookup_lt_Some _ _ _ Hi). rewrite bput_ne by lia. by apply IH.
  - apply list_lookup_singleton_Some in Hi as [Hz <-]. replace i with (length L) by lia. apply bput_eq.
Qed.

(** Storing the numbers [L] in [hb->block[]], and the whole header. *)
Definition blocks_put (L : list Z) (d : block) : block :=
  foldl (fun d p => put32 d (4 + 4 * Z.of_nat p.1) p.2) d (imap pair L).

Definition head_put (L : list Z) (d : block) : block :=
  blocks_put L (put32 d 0 (Z.of_nat (length L))).

(** The log's area on disk and the blocks a transaction may log. *)
Definition home (start b : Z) : Prop := 0 <= b < 2 ^ 31 /\ ~ (start <= b <= start + LOGBLOCKS).

Lemma log_writes_fst start L V n :
  n ∈ (log_writes start L V).*1 <-> start + 1 <= n < start + 1 + Z.of_nat (length L).
Proof.
  unfold log_writes. rewrite list_elem_of_fmap. split.
  - intros ([? ?] & -> & Hin). apply elem_of_lookup_imap in Hin as (i & b & [= -> ->] & Hi).
    apply lookup_lt_Some in Hi. simpl. lia.
  - intros Hn. destruct (lookup_lt_is_Some_2 L (Z.to_nat (n - start - 1))) as [b Hb]; [lia|].
    exists (n, V b). split; [done|]. apply elem_of_lookup_imap. eexists _, b. split; [|done].
    f_equal. lia.
Qed.

Lemma home_writes_fst start L V : (home_writes start L V).*1 = L.
Proof.
  unfold home_writes. apply list_eq. intros i. rewrite list_lookup_fmap, list_lookup_imap.
  by destruct (L !! i).
Qed.

Lemma log_writes_snoc start L V b :
  log_writes start (L ++ [b]) V = log_writes start L V ++ [(start + 1 + Z.of_nat (length L), V b)].
Proof. unfold log_writes. rewrite imap_app. simpl. by rewrite Nat.add_0_r. Qed.

Lemma home_writes_snoc start L V b :
  home_writes start (L ++ [b]) V = home_writes start L V ++ [(b, V (start + 1 + Z.of_nat (length L)))].
Proof. unfold home_writes. rewrite imap_app. simpl. by rewrite Nat.add_0_r. Qed.

Lemma imap_pair_snoc (L : list Z) b : imap pair (L ++ [b]) = imap pair L ++ [(length L, b)].
Proof. rewrite imap_app. simpl. by rewrite Nat.add_0_r. Qed.

(** The block numbers a header block announces. *)
Definition head_blocks (d : block) : list Z :=
  map (fun i => s32 (get32 d (4 + 4 * Z.of_nat i))) (seq 0 (Z.to_nat (s32 (get32 d 0)))).

Lemma length_head_blocks d : length (head_blocks d) = Z.to_nat (s32 (get32 d 0)).
Proof. unfold head_blocks. by rewrite length_map, length_seq. Qed.

Lemma blocks_put_snoc L b d :
  blocks_put (L ++ [b]) d = put32 (blocks_put L d) (4 + 4 * Z.of_nat (length L)) b.
Proof. unfold blocks_put. by rewrite imap_pair_snoc, foldl_app. Qed.

Lemma blocks_put_spec L d :
  block_ok d -> (length L <= Z.to_nat LOGBLOCKS)%nat ->
  block_ok (blocks_put L d) /\ get32 (blocks_put L d) 0 = get32 d 0 /\
  forall i b, L !! i = Some b -> get32 (blocks_put L d) (4 + 4 * Z.of_nat i) = u32 b.
Proof.
  intros Hd. change (Z.to_nat LOGBLOCKS) with 30%nat.
  induction L as [|b L IH] using rev_ind; intros HL; [done|].
  rewrite length_app in HL. simpl in HL. destruct IH as (IH1 & IH2 & IH3); [lia|].
  pose proof (block_len _ IH1). rewrite blocks_put_snoc. split_and!.
  - apply block_ok_put32; [done|unfold BSIZE; lia..].
  - rewrite get32_put32_other; [done|lia..].
  - intros i b' Hi. apply lookup_app_Some in Hi as [Hi|[Hge Hi]].
    + pose proof (lookup_lt_Some _ _ _ Hi). rewrite get32_put32_other by lia. by apply IH3.
    + apply list_lookup_singleton_Some in Hi as [Hz <-].
      replace i with (length L) by lia. apply get32_put32; lia.
Qed.

Lemma head_put_spec L d :
  block_ok d -> (length L <= Z.to_nat LOGBLOCKS)%nat ->
  block_ok (head_put L d) /\ get32 (head_put L d) 0 = Z.of_nat (length L) /\
  forall i b, L !! i = Some b -> get32 (head_put L d) (4 + 4 * Z.of_nat i) = u32 b.
Proof.
  intros Hd HL. pose proof (block_len _ Hd).
  destruct (blocks_put_spec L (put32 d 0 (Z.of_nat (length L)))) as (? & E & ?);
    [by apply block_ok_put32|done|].
  split_and!; try done. unfold head_put. rewrite E, get32_put32 by lia. apply u32_id.
  change (Z.to_nat LOGBLOCKS) with 30%nat in HL. lia.
Qed.

(** What [write_head] stores, [read_head] reads back. *)
Lemma head_blocks_put L d :
  block_ok d -> (length L <= Z.to_nat LOGBLOCKS)%nat -> Forall (fun b => 0 <= b < 2 ^ 31) L ->
  head_blocks (head_put L d) = L.
Proof.
  intros Hd HL HF. destruct (head_put_spec L d Hd HL) as (_ & En & Eb).
  change (Z.to_nat LOGBLOCKS) with 30%nat in HL.
  unfold head_blocks. rewrite En, s32_id, Nat2Z.id by lia.
  apply list_eq. intros i. rewrite list_lookup_fmap.
  destruct (L !! i) as [b|] eqn:Hi.
  - pose proof (lookup_lt_Some _ _ _ Hi). rewrite lookup_seq_lt by done. simpl.
    rewrite Forall_lookup in HF. specialize (HF _ _ Hi). simpl in HF.
    rewrite (Eb _ _ Hi), u32_id, s32_id by lia. done.
  - apply lookup_ge_None in Hi. by rewrite lookup_seq_ge.
Qed.

(** ** Effects of log operations on cache and disk *)

Section LogSpec.
Context {D : Type} `{BS : BlockDevSpec D}.
Implicit Types c : bcache D.
Implicit Types s : lstate D.

Record io c c' (T : list (Z * block)) : Prop := {
  io_pid : bc_pid c' = bc_pid c;
  io_view m : view c' m = replay (view c) T m;
  io_dev m : dev_at (bc_disk c') m = replay (dev_at (bc_disk c)) T m;
  io_trace : dev_trace (bc_disk c') = dev_trace (bc_disk c) ++ T }.

Lemma io_refl c : io c c [].
Proof. split; try done. by rewrite app_nil_r. Qed.

Lemma io_trans c1 c2 c3 T1 T2 : io c1 c2 T1 -> io c2 c3 T2 -> io c1 c3 (T1 ++ T2).
Proof.
  intros [] []. split.
  - congruence.
  - intros m. rewrite replay_app, io_view1. by apply replay_ext.
  - intros m. rewrite replay_app, io_dev1. by apply replay_ext.
  - rewrite io_trace1, io_trace0. by rewrite app_assoc.
Qed.

Lemma io_pre c1 c2 c3 T : io c1 c2 [] -> io c2 c3 T -> io c1 c3 T.
Proof. apply io_trans. Qed.
Lemma io_post c1 c2 c3 T : io c1 c2 T -> io c2 c3 [] -> io c1 c3 T.
Proof. intros H1 H2. rewrite <-(app_nil_r T). by eapply io_trans. Qed.
Lemma io_nil_view c c' m : io c c' [] -> view c' m = view c m.
Proof. intros H. by rewrite (io_view _ _ _ H). Qed.

Definition logged (l : log) : list Z := take (Z.to_nat (lh_n (lg_lh l))) (lh_block (lg_lh l)).

Record log_ok (l : log) : Prop := {
  lo_dev : lg_dev l = ROOTDEV;
  lo_len : length (lh_block (lg_lh l)) = Z.to_nat LOGBLOCKS;
  lo_n : 0 <= lh_n (lg_lh l) <= LOGBLOCKS;
  lo_start : 0 <= lg_start l /\ lg_start l + LOGBLOCKS < 2 ^ 31;
  lo_home : Forall (home (lg_start l)) (logged l) }.

Lemma length_logged l : log_ok l -> length (logged l) = Z.to_nat (lh_n (lg_lh l)).
Proof. intros []. unfold logged. rewrite length_take. lia. Qed.

Lemma aget_logged l i b : log_ok l -> logged l !! i = Some b ->
  aget (lh_block (lg_lh l)) (Z.of_nat i) = b /\ home (lg_start l) b.
Proof.
  intros Hl Hi. pose proof (lookup_lt_Some _ _ _ Hi). split.
  - unfold logged in Hi. apply lookup_take_Some in Hi as [Hi _].
    unfold aget. rewrite Nat2Z.id. by apply nth_lookup_Some.
  - pose proof (lo_home _ Hl) as Hf. rewrite Forall_lookup in Hf. eauto.
Qed.

Lemma room_nil L H : (length L + size H < 30)%nat -> room L H.
Proof.
  intros Hl. unfold room. change (Z.to_nat NBUF) with 30%nat.
  pose proof (size_union_alt (list_to_set L : gset Z) H) as E.
  assert (size (list_to_set L : gset Z) <= length L)%nat.
  { clear. induction L as [|a L IH]; simpl; [done|]. rewrite size_union_alt, size_singleton.
    pose proof (subseteq_size (list_to_set L ∖ {[a]} : gset Z) (list_to_set L)). 
    assert (list_to_set L ∖ {[a]} ⊆ (list_to_set L : gset Z)) by set_solver. lia. }
  pose proof (subseteq_size (H ∖ list_to_set L) H). assert (H ∖ list_to_set L ⊆ H) by set_solver. lia.
Qed.

(** *** Cache operations lifted to the log state *)

Lemma wp_liftb {A} (m : M (bcache D) A) Q c l :
  wp m (fun a c' => Q a (Lstate c' l)) c -> wp (liftb m) Q (Lstate c l).
Proof. intros Hm. unfold liftb. by apply wp_zoom. Qed.

Lemma io_keep c c' n : (forall m, view c' m = view c m) -> keep c c' n -> same_disk c c' -> io c c' [].
Proof. intros Hv [Hp _] [Hd Ht]. split; try done. by rewrite Ht, app_nil_r. Qed.

Lemma bread_log c l L H Y n :
  tx_ok c L H Y -> (n ∉ H) -> 0 <= n < 2 ^ 31 -> (n ∈ L \/ room L H) ->
  wp (liftb (bread ROOTDEV n)) (fun i s' => exists c', s' = Lstate c' l /\
    tx_ok c' L ({[n]} ∪ H) Y /\ holds c' i n /\ keep c c' n /\ io c c' []) (Lstate c l).
Proof.
  intros. apply wp_liftb. eapply wp_conseq; [by apply bread_tx|].
  intros i c' (? & ? & ? & ? & ?). exists c'. split_and!; try done. by eapply io_keep.
Qed.

Lemma brelse_log c l L H Y i n :
  tx_ok c L H Y -> holds c i n -> (n ∉ Y) ->
  wp (liftb (brelse i)) (fun _ s' => exists c', s' = Lstate c' l /\
    tx_ok c' L (H ∖ {[n]}) Y /\ keep c c' n /\ io c c' []) (Lstate c l).
Proof.
  intros. apply wp_liftb. eapply wp_conseq; [by eapply brelse_tx|].
  intros i' c' (? & ? & ? & E). exists c'. split_and!; try done. eapply io_keep; [done..|].
  unfold same_disk. by rewrite E.
Qed.

(** Overwrite a held buffer and write it out. *)
Lemma store_log c l L H i n d (Q : unit -> lstate D -> Prop) :
  tx_ok c L H ∅ -> holds c i n -> 0 <= n < 2 ^ 31 -> block_ok d ->
  (forall c', tx_ok c' L H ∅ -> holds c' i n -> keep c c' n -> io c c' [(n, d)] ->
     Q tt (Lstate c' l)) ->
  wp (liftb (bwrite i)) Q (Lstate (setdata i d c) l).
Proof.
  intros Htx Hh Hn Hd HQ.
  destruct (setdata_tx _ _ _ _ i n d Htx Hh Hd) as (Htx1 & Hh1 & Hv1 & [Kp1 Kh1] & Hd1).
  set (c1 := setdata i d c) in *. clearbody c1. apply wp_liftb.
  eapply wp_conseq; [by apply (bwrite_tx c1 _ _ _ i n Htx1)|].
  intros [] c' (Htx' & Hh' & Hv' & [Kp2 Kh2] & Hd' & Ht'). rewrite Hv1, bput_eq in Ht', Hd'.
  apply HQ; try done.
  - eapply tx_sub; [done|]. set_solver.
  - split; [congruence|]. eauto.
  - split; simpl.
    + congruence.
    + intros m. by rewrite Hv', Hv1.
    + intros m. by rewrite Hd', Hd1.
    + by rewrite Ht', Hd1.
Qed.

Lemma bdata_view c i n : bio_ok c -> holds c i n -> b_data (bufat c i) = view c n.
Proof. intros. by rewrite (view_holds c i n). Qed.

(** *** [write_log] copies the logged blocks, in order, to the log area *)

Definition at_log (l : log) (P : bcache D -> Prop) (s : lstate D) : Prop :=
  exists c, s = Lstate c l /\ P c.

(** The [k]-th slot of the log: the home block and the block of the log area. *)
Lemma log_slot l k :
  log_ok l -> 0 <= k < lh_n (lg_lh l) ->
  exists b, logged l !! Z.to_nat k = Some b /\ u32 (aget (lh_block (lg_lh l)) k) = b /\
    u32 (lg_start l + k + 1) = lg_start l + 1 + k /\ home (lg_start l) b /\
    0 <= lg_start l + 1 + k < 2 ^ 31 /\ (lg_start l + 1 + k ∉ logged l) /\ b <> lg_start l + 1 + k.
Proof.
  intros Hl Hk. pose proof (length_logged l Hl) as Hlen.
  pose proof (lo_n _ Hl). destruct (lo_start _ Hl). unfold LOGBLOCKS in *.
  destruct (lookup_lt_is_Some_2 (logged l) (Z.to_nat k)) as [b Hb]; [lia|].
  destruct (aget_logged l _ _ Hl Hb) as [Eb Hhb]. rewrite Z2Nat.id in Eb by lia.
  exists b. rewrite Eb. split_and!; try done; try (unfold home, LOGBLOCKS in *; lia).
  - apply u32_id. unfold home in Hhb. lia.
  - rewrite u32_id; lia.
  - intros Hin. pose proof (lo_home _ Hl) as Hf. rewrite Forall_forall in Hf. apply Hf in Hin.
    unfold home, LOGBLOCKS in Hin. lia.
Qed.

Lemma take_step {A} (l : list A) k x :
  0 <= k -> l !! Z.to_nat k = Some x -> take (Z.to_nat (k + 1)) l = take (Z.to_nat k) l ++ [x].
Proof. intros ? Hx. rewrite Z2Nat.inj_add by lia. rewrite Nat.add_1_r. by apply take_S_r. Qed.

Lemma length_take_slot {A} (l : list A) k x :
  0 <= k -> l !! Z.to_nat k = Some x -> Z.of_nat (length (take (Z.to_nat k) l)) = k.
Proof. intros ? Hx. apply lookup_lt_Some in Hx. rewrite length_take. lia. Qed.

Lemma write_log_spec c l :
  tx_ok c (logged l) ∅ ∅ -> log_ok l -> (length (logged l) < 30)%nat ->
  wp write_log (fun _ => at_log l (fun c' => tx_ok c' (logged l) ∅ ∅ /\
    io c c' (log_writes (lg_start l) (logged l) (view c)))) (Lstate c l).
Proof.
  intros Htx Hl Hlen. pose proof (length_logged l Hl) as HlL. pose proof (lo_n _ Hl).
  unfold write_log, bset, bdata. wp_steps. unfold lh. cbn [ls_log].
  eapply wp_each with (I := fun k => at_log l (fun c' => tx_ok c' (logged l) ∅ ∅ /\
    io c c' (log_writes (lg_start l) (take (Z.to_nat k) (logged l)) (view c)))).
  - exists c. split_and!; [done..|]. apply io_refl.
  - intros k s' Hk (c0 & -> & Htx0 & Hio0). rewrite (lo_dev _ Hl).
    destruct (log_slot l k Hl) as (b & Hb & -> & -> & Hhb & Ht & HtL & Hbt); [lia|].
    set (t := lg_start l + 1 + k) in *.
    assert (HbL : b ∈ logged l) by by eapply list_elem_of_lookup_2.
    eapply wp_seq; [apply (bread_log c0 l (logged l) ∅ ∅ t);
      [done|set_solver|done|right; apply room_nil; rewrite size_empty; lia]|].
    intros i1 ? (c1 & -> & Htx1 & Hh1 & K1 & Hio1).
    eapply wp_seq; [eapply (bread_log c1 l (logged l) _ ∅ b); [done|set_solver|apply Hhb|by left]|].
    intros i2 ? (c2 & -> & Htx2 & Hh2 & K2 & Hio2). wp_steps. cbn [ls_cache].
    rewrite (bdata_view c2 i2 b) by (apply Htx2 || done).
    change (Lstate c2 l <| ls_cache := ?x |>) with (Lstate x l).
    eapply store_log with (n := t); try done; [eapply keep_holds; eauto|apply view_ok, Htx2|].
    intros c3 Htx3 Hh3 K3 Hio3. wp_step.
    eapply wp_conseq; [apply brelse_log with (n := b) (Y := ∅); [done|eapply keep_holds; eauto|set_solver]|].
    intros _ ? (c4 & -> & Htx4 & K4 & Hio4).
    eapply wp_conseq; [apply brelse_log with (n := t) (Y := ∅); [done|eapply keep_holds; eauto|set_solver]|].
    intros _ ? (c5 & -> & Htx5 & K5 & Hio5). exists c5. split_and!; [done|..].
    + by replace (({[b]} ∪ ({[t]} ∪ ∅)) ∖ {[b]} ∖ {[t]}) with (∅ : gset Z) in Htx5 by set_solver.
    + rewrite (take_step _ _ b) by (lia || done). rewrite log_writes_snoc.
      rewrite (length_take_slot _ _ b) by (lia || done).
      eapply io_trans; [exact Hio0|]. do 2 (eapply io_pre; [eassumption|]).
      do 2 (eapply io_post; [|eassumption]).
      replace (view c b) with (view c2 b); [exact Hio3|].
      rewrite (io_nil_view c1 c2), (io_nil_view c0 c1), (io_view _ _ _ Hio0) by done.
      apply replay_other. rewrite log_writes_fst. unfold home in Hhb. rewrite length_take. lia.
  - intros s' (c' & -> & ? & Hio). exists c'. split_and!; try done.
    rewrite take_ge in Hio; [done|]. lia.
Qed.

(** *** [install_trans] copies the log area, in order, to the home blocks *)

(** The blocks still pinned after [k] rounds: none during recovery. *)
Definition pinned (recovering : bool) (k : Z) (L : list Z) : list Z :=
  if recovering then [] else drop (Z.to_nat k) L.

Lemma pinned_step L k b :
  0 <= k -> L !! Z.to_nat k = Some b -> pinned false k L = b :: pinned false (k + 1) L.
Proof.
  intros ? Hb. unfold pinned. rewrite (drop_S _ _ _ Hb). do 2 f_equal. lia.
Qed.

Lemma pinned_sub rc k L x : x ∈ pinned rc k L -> x ∈ L.
Proof.
  destruct rc; simpl; [set_solver|]. rewrite !list_elem_of_lookup. intros [i Hi].
  rewrite lookup_drop in Hi. eauto.
Qed.

Lemma unpin_log (rc : bool) c l L H i b k :
  0 <= k -> L !! Z.to_nat k = Some b -> tx_ok c (pinned rc k L) H ∅ -> holds c i b ->
  view c b = dev_at (bc_disk c) b ->
  wp (if negb rc then liftb (bunpin i) else ret tt) (fun _ => at_log l (fun c' =>
    tx_ok c' (pinned rc (k + 1) L) H ∅ /\ holds c' i b /\ keep c c' b /\ io c c' [])) (Lstate c l).
Proof.
  intros Hk Hb Htx Hh Hv. destruct rc; simpl negb; cbn match.
  - apply wp_ret. exists c. split_and!; try done. apply io_refl.
  - apply wp_liftb. rewrite (pinned_step L k b) in Htx by done.
    eapply wp_conseq; [by apply (bunpin_tx c _ _ _ i b Htx)|].
    intros _ c' (? & ? & ? & ? & E). exists c'. split_and!; try done.
    eapply io_keep; [done..|]. unfold same_disk. by rewrite E.
Qed.

Lemma install_trans_spec rc c l :
  tx_ok c (pinned rc 0 (logged l)) ∅ ∅ -> log_ok l -> (rc = true \/ length (logged l) < 30)%nat ->
  wp (install_trans rc) (fun _ => at_log l (fun c' => tx_ok c' [] ∅ ∅ /\
    io c c' (home_writes (lg_start l) (logged l) (view c)))) (Lstate c l).
Proof.
  intros Htx Hl Hlen. pose proof (length_logged l Hl) as HlL. pose proof (lo_n _ Hl).
  unfold install_trans, bset, bdata. wp_steps. unfold lh. cbn [ls_log].
  eapply wp_each with (I := fun k => at_log l (fun c' => tx_ok c' (pinned rc k (logged l)) ∅ ∅ /\
    io c c' (home_writes (lg_start l) (take (Z.to_nat k) (logged l)) (view c)))).
  - exists c. split_and!; [done..|]. apply io_refl.
  - intros k s' Hk (c0 & -> & Htx0 & Hio0). rewrite (lo_dev _ Hl).
    destruct (log_slot l k Hl) as (b & Hb & -> & -> & Hhb & Ht & HtL & Hbt); [lia|].
    set (t := lg_start l + 1 + k) in *.
    eapply wp_seq; [apply (bread_log c0 l (pinned rc k (logged l)) ∅ ∅ t);
      [done|set_solver|done|right; apply room_nil; rewrite size_empty]|].
    { destruct rc; simpl; [lia|]. rewrite length_drop. destruct Hlen; [done|lia]. }
    intros i1 ? (c1 & -> & Htx1 & Hh1 & K1 & Hio1).
    eapply wp_seq; [eapply (bread_log c1 l (pinned rc k (logged l)) _ ∅ b); [done|set_solver|apply Hhb|]|].
    { destruct rc; [right; apply room_nil; rewrite union_empty_r_L, size_singleton; simpl; lia|left].
      rewrite (pinned_step _ _ _ (proj1 Hk) Hb). set_solver. }
    intros i2 ? (c2 & -> & Htx2 & Hh2 & K2 & Hio2). wp_steps. cbn [ls_cache].
    rewrite (bdata_view c2 i1 t) by (apply Htx2 || by eapply keep_holds; eauto).
    change (Lstate c2 l <| ls_cache := ?x |>) with (Lstate x l).
    eapply store_log with (n := b); try done; [apply Hhb|apply view_ok, Htx2|].
    intros c3 Htx3 Hh3 K3 Hio3. wp_step.
    eapply wp_conseq; [eapply unpin_log with (b := b) (k := k); try done; [lia|]|].
    { rewrite (io_view _ _ _ Hio3), (io_dev _ _ _ Hio3). simpl. by rewrite !bput_eq. }
    intros _ ? (c3' & -> & Htx3' & Hh3' & K3' & Hio3'). wp_step.
    eapply wp_conseq; [apply brelse_log with (n := t) (Y := ∅); [done|do 3 (eapply keep_holds; eauto)|set_solver]|].
    intros _ ? (c4 & -> & Htx4 & K4 & Hio4).
    eapply wp_conseq; [apply brelse_log with (n := b) (Y := ∅); [done|eapply keep_holds; eauto|set_solver]|].
    intros _ ? (c5 & -> & Htx5 & K5 & Hio5). exists c5. split_and!; [done|..].
    + by replace (({[b]} ∪ ({[t]} ∪ ∅)) ∖ {[t]} ∖ {[b]}) with (∅ : gset Z) in Htx5 by set_solver.
    + rewrite (take_step _ _ b) by (lia || done). rewrite home_writes_snoc.
      rewrite (length_take_slot _ _ b) by (lia || done).
      eapply io_trans; [exact Hio0|]. do 2 (eapply io_pre; [eassumption|]).
      do 3 (eapply io_post; [|eassumption]). fold t.
      replace (view c t) with (view c2 t); [exact Hio3|].
      rewrite (io_nil_view c1 c2), (io_nil_view c0 c1), (io_view _ _ _ Hio0) by done.
      apply replay_other. rewrite home_writes_fst. intros Hin. apply HtL.
      apply elem_of_take in Hin as (j & Hj & _). by eapply list_elem_of_lookup_2.
  - intros s' (c' & -> & Htx' & Hio). exists c'. rewrite take_ge in Hio by lia. split_and!; try done.
    unfold pinned in Htx'. rewrite drop_ge in Htx' by lia. by destruct rc.
Qed.

(** *** [write_head] and [read_head] *)

Lemma only_held (t : Z) : ({[t]} ∪ ∅) ∖ {[t]} = (∅ : gset Z).
Proof. set_solver. Qed.

Lemma setdata_twice c i d d' : setdata i d' (setdata i d c) = setdata i d' c.
Proof.
  unfold setdata, setbuf. destruct (decide (i < length (bc_buf c))%nat) as [Hi|Hi].
  - unfold bufat, upd. simpl. rewrite nth_list_insert_eq by done.
    rewrite list_insert_insert, decide_True by done. done.
  - rewrite !list_insert_ge; [done|simpl; rewrite ?length_insert; lia..].
Qed.

Lemma write_head_spec c l L :
  tx_ok c L ∅ ∅ -> log_ok l -> (length L < 30)%nat -> (lg_start l ∉ L) ->
  wp write_head (fun _ => at_log l (fun c' => tx_ok c' L ∅ ∅ /\
    io c c' [(lg_start l, head_put (logged l) (view c (lg_start l)))])) (Lstate c l).
Proof.
  intros Htx Hl Hlen HsL. pose proof (length_logged l Hl) as HlL. pose proof (lo_n _ Hl).
  destruct (lo_start _ Hl). unfold LOGBLOCKS in *.
  unfold write_head, bset, bdata. wp_steps. unfold lh. cbn [ls_log].
  rewrite (lo_dev _ Hl), u32_id by lia. set (t := lg_start l) in *.
  eapply wp_conseq; [apply (bread_log c l L ∅ ∅ t);
    [done|set_solver|lia|right; apply room_nil; rewrite size_empty; lia]|].
  intros i ? (c1 & -> & Htx1 & Hh1 & K1 & Hio1). wp_steps. cbn [ls_cache].
  rewrite (bdata_view c1 i t), (io_nil_view c c1) by (apply Htx1 || done).
  change (Lstate c1 l <| ls_cache := ?x |>) with (Lstate x l).
  set (d0 := view c t). assert (Hd0 : block_ok d0) by apply view_ok, Htx.
  assert (Hi : (i < length (bc_buf c1))%nat).
  { rewrite (bo_len c1) by apply Htx1. destruct Hh1 as [[? _] _]. lia. }
  eapply wp_each with (I := fun k s => s = Lstate (setdata i
    (blocks_put (take (Z.to_nat k) (logged l)) (put32 d0 0 (lh_n (lg_lh l)))) c1) l).
  - done.
  - intros k s' Hk ->. wp_steps. cbn [ls_cache].
    destruct (log_slot l k Hl) as (b & Hb & _ & _); [lia|].
    change (Lstate ?c l <| ls_cache := ?x |>) with (Lstate x l). f_equal.
    rewrite setdata_twice. f_equal. unfold setdata at 1. rewrite bufat_setbuf_eq by done. simpl.
    rewrite (take_step _ _ b) by (lia || done). rewrite blocks_put_snoc.
    rewrite (length_take_slot _ _ b) by (lia || done). f_equal.
    destruct (aget_logged l _ _ Hl Hb) as [Eb _]. by rewrite Z2Nat.id in Eb by lia.
  - intros s' ->. rewrite take_ge by lia. wp_steps.
    replace (lh_n (lg_lh l)) with (Z.of_nat (length (logged l))) by lia.
    change (blocks_put (logged l) _) with (head_put (logged l) d0).
    apply store_log with (c := c1) (L := L) (H := {[t]} ∪ ∅) (n := t); try done; [lia| |].
    { apply head_put_spec; [done|]. unfold LOGBLOCKS. lia. }
    intros c2 Htx2 Hh2 K2 Hio2.
    eapply wp_conseq; [apply brelse_log with (n := t) (Y := ∅); [done|done|apply not_elem_of_empty]|].
    intros _ ? (c3 & -> & Htx3 & K3 & Hio3). exists c3. split_and!; [done| |].
    + by rewrite only_held in Htx3.
    + eapply io_pre; [done|]. by eapply io_post.
Qed.

(** The part of [log_ok] that holds before the header has been read. *)
Record log_boot (l : log) : Prop := {
  lb_dev : lg_dev l = ROOTDEV;
  lb_len : length (lh_block (lg_lh l)) = Z.to_nat LOGBLOCKS;
  lb_start : 0 <= lg_start l /\ lg_start l + LOGBLOCKS < 2 ^ 31 }.

(** A header block recovery can work with. *)
Definition head_ok (start : Z) (d : block) : Prop :=
  0 <= s32 (get32 d 0) <= LOGBLOCKS /\ Forall (home start) (head_blocks d).

Lemma read_head_spec c l :
  tx_ok c [] ∅ ∅ -> log_boot l -> s32 (get32 (view c (lg_start l)) 0) <= LOGBLOCKS ->
  wp read_head (fun _ s' => exists c' h, s' = Lstate c' (l <| lg_lh := h |>) /\
    tx_ok c' [] ∅ ∅ /\ io c c' [] /\ length (lh_block h) = Z.to_nat LOGBLOCKS /\
    lh_n h = s32 (get32 (view c (lg_start l)) 0) /\
    take (Z.to_nat (lh_n h)) (lh_block h) = head_blocks (view c (lg_start l))) (Lstate c l).
Proof.
  intros Htx Hl Hn. destruct (lb_start _ Hl). pose proof (lb_len _ Hl) as Hlen. unfold LOGBLOCKS, MAXOPBLOCKS in *.
  unfold read_head, bdata. wp_steps. cbn [ls_log].
  rewrite (lb_dev _ Hl), (u32_id (lg_start l)) by lia. set (t := lg_start l) in *.
  eapply wp_conseq; [apply (bread_log c l [] ∅ ∅ t);
    [done|apply not_elem_of_empty|lia|right; apply room_nil; rewrite size_empty; simpl; lia]|].
  intros i ? (c1 & -> & Htx1 & Hh1 & K1 & Hio1). wp_steps. cbn [ls_cache].
  rewrite (bdata_view c1 i t), (io_nil_view c c1) by (apply Htx1 || done).
  set (d := view c t) in *. set (nn := s32 (get32 d 0)) in *.
  replace (LOGBLOCKS <? nn) with false by (symmetry; apply Z.ltb_ge; done). wp_steps.
  pose proof (length_head_blocks d) as Hhl. fold nn in Hhl.
  eapply wp_each with (I := fun k s => exists bl, s = Lstate c1 (l <| lg_lh := Logheader nn bl |>) /\
    length bl = 30%nat /\ take (Z.to_nat k) bl = take (Z.to_nat k) (head_blocks d)).
  - eexists. split; [reflexivity|]. done.
  - intros k ? Hk (bl & -> & Hbl & Hpre). wp_steps. eexists. split; [reflexivity|].
    unfold lh. cbn [ls_log lg_lh lh_block upd]. simpl lh_block. rewrite length_aset. split; [done|].
    rewrite (take_step (head_blocks d) k (s32 (get32 d (4 + 4 * k)))); [|lia|].
    2:{ unfold head_blocks. fold nn. rewrite list_lookup_fmap, lookup_seq_lt by lia. simpl.
        by rewrite Z2Nat.id by lia. }
    unfold aset. rewrite (take_step _ k (s32 (get32 d (4 + 4 * k)))); [|lia|apply list_lookup_insert_eq; lia].
    rewrite take_insert_ge by lia. by rewrite Hpre.
  - intros ? (bl & -> & Hbl & Hpre).
    eapply wp_conseq; [apply brelse_log with (n := t) (Y := ∅); [done|done|apply not_elem_of_empty]|].
    intros _ ? (c2 & -> & Htx2 & K2 & Hio2). exists c2, (Logheader nn bl). rewrite only_held in Htx2.
    split_and!; try done; [by eapply io_post|]. simpl.
    rewrite Z.add_0_l, Nat2Z.id, (take_ge (head_blocks d)) in Hpre by lia. done.
Qed.

Lemma recover_spec c l :
  tx_ok c [] ∅ ∅ -> log_boot l -> head_ok (lg_start l) (view c (lg_start l)) ->
  let d := view c (lg_start l) in
  wp recover_from_log (fun _ s' => exists c' h, s' = Lstate c' (l <| lg_lh := h |>) /\
    tx_ok c' [] ∅ ∅ /\ log_ok (l <| lg_lh := h |>) /\ lh_n h = 0 /\
    io c c' (home_writes (lg_start l) (head_blocks d) (view c) ++ [(lg_start l, head_put [] d)]))
    (Lstate c l).
Proof.
  intros Htx Hl [Hn Hhome] d. unfold recover_from_log.
  eapply wp_seq; [apply read_head_spec; [done..|lia]|].
  intros [] ? (c1 & h & -> & Htx1 & Hio1 & Hlen & Hnn & Hlog). fold d in Hnn, Hlog, Hn, Hhome.
  set (l1 := l <| lg_lh := h |>).
  assert (Hl1 : log_ok l1).
  { split; try apply Hl; [done|simpl; lia|unfold logged; simpl; by rewrite Hlog]. }
  eapply wp_seq; [apply (install_trans_spec true); [done..|by left]|].
  intros [] ? (c2 & -> & Htx2 & Hio2).
  wp_steps. unfold setlh, setlog.
  change (Lstate c2 l1 <| ls_log := ?x |>) with (Lstate c2 x).
  set (l2 := l <| lg_lh := h <| lh_n := 0 |> |>). change (wp write_head ?Q _) with (wp write_head Q (Lstate c2 l2)).
  assert (Hl2 : log_ok l2).
  { split; try apply Hl; [done|simpl; unfold LOGBLOCKS, MAXOPBLOCKS; lia|unfold logged; simpl; constructor]. }
  eapply wp_conseq; [apply write_head_spec with (L := []); [done..|simpl; lia|apply not_elem_of_nil]|].
  intros [] ? (c3 & -> & Htx3 & Hio3). exists c3, (h <| lh_n := 0 |>). split_and!; try done.
  change (logged l2) with ([] : list Z) in Hio3. change (lg_start l1) with (lg_start l) in Hio2.
  change (lg_start l2) with (lg_start l) in Hio3. unfold logged in Hio2. simpl in Hio2. rewrite Hlog in Hio2.
  eapply io_pre; [done|].
  assert (E : view c2 (lg_start l) = d).
  { rewrite (io_view _ _ _ Hio2), replay_other; [by apply io_nil_view|].
    rewrite home_writes_fst. intros Hin. rewrite Forall_forall in Hhome. apply Hhome in Hin.
    unfold home, LOGBLOCKS, MAXOPBLOCKS in Hin. lia. }
  rewrite E in Hio3. eapply io_trans; [|done].
  assert (Ew : home_writes (lg_start l) (head_blocks d) (view c1) =
               home_writes (lg_start l) (head_blocks d) (view c)).
  { unfold home_writes. apply imap_ext. intros. by rewrite (io_nil_view c c1). }
  by rewrite <-Ew.
Qed.

(** *** [commit]: log, header, home blocks, cleared header, in this order *)

Definition commit_trace (start : Z) (L : list Z) (V : Z -> block) (d : block) : list (Z * block) :=
  log_writes start L V ++ (start, head_put L d) ::
  own_writes L V ++ [(start, head_put [] (head_put L d))].

Lemma start_not_logged l : log_ok l -> (lg_start l ∉ logged l).
Proof.
  intros Hl Hin. pose proof (lo_home _ Hl) as Hf. rewrite Forall_forall in Hf. apply Hf in Hin.
  unfold home, LOGBLOCKS, MAXOPBLOCKS in Hin. lia.
Qed.

(** The two ways of writing the home blocks agree once the log is complete. *)
Lemma home_writes_own start L (V W : Z -> block) :
  (forall i b, L !! i = Some b -> W (start + 1 + Z.of_nat i) = V b) ->
  home_writes start L W = own_writes L V.
Proof.
  intros E. apply list_eq. intros i. unfold home_writes, own_writes.
  rewrite list_lookup_imap, list_lookup_fmap. destruct (L !! i) eqn:Hi; simpl; [|done].
  by rewrite (E _ _ Hi).
Qed.

Lemma commit_spec c l :
  tx_ok c (logged l) ∅ ∅ -> log_ok l -> 0 < lh_n (lg_lh l) < LOGBLOCKS ->
  wp commit (fun _ => at_log (l <| lg_lh := lg_lh l <| lh_n := 0 |> |>) (fun c' =>
    tx_ok c' [] ∅ ∅ /\
    io c c' (commit_trace (lg_start l) (logged l) (view c) (view c (lg_start l))))) (Lstate c l).
Proof.
  intros Htx Hl Hn. pose proof (length_logged l Hl) as HlL. pose proof (start_not_logged l Hl) as HsL.
  assert (Hlen : (length (logged l) < 30)%nat) by (unfold LOGBLOCKS, MAXOPBLOCKS in Hn; lia).
  unfold commit. wp_steps. unfold lh at 1. cbn [ls_log].
  replace (0 <? lh_n (lg_lh l)) with true by (symmetry; apply Z.ltb_lt; lia). wp_step.
  eapply wp_conseq; [by apply write_log_spec|]. intros [] ? (c1 & -> & Htx1 & Hio1). wp_step.
  eapply wp_conseq; [by eapply write_head_spec|]. intros [] ? (c2 & -> & Htx2 & Hio2). wp_step.
  eapply wp_conseq; [apply (install_trans_spec false); [done..|by right]|].
  intros [] ? (c3 & -> & Htx3 & Hio3). wp_steps. unfold setlh, setlog. cbn [ls_log].
  change (Lstate c3 l <| ls_log := ?x |>) with (Lstate c3 x). set (l' := l <| lg_lh := _ |>).
  assert (Hl' : log_ok l').
  { split; try apply Hl; [simpl; unfold LOGBLOCKS, MAXOPBLOCKS; lia|unfold logged; simpl; constructor]. }
  eapply wp_conseq; [apply write_head_spec with (L := []); [done..|simpl; lia|apply not_elem_of_nil]|].
  intros [] ? (c4 & -> & Htx4 & Hio4). exists c4. split_and!; try done.
  change (logged l') with ([] : list Z) in Hio4. change (lg_start l') with (lg_start l) in Hio4.
  set (st := lg_start l) in *.
  assert (E1 : view c1 st = view c st).
  { rewrite (io_view _ _ _ Hio1). apply replay_other. rewrite log_writes_fst. lia. }
  assert (E3 : view c3 st = head_put (logged l) (view c st)).
  { rewrite (io_view _ _ _ Hio3), replay_other by (by rewrite home_writes_fst).
    rewrite (io_view _ _ _ Hio2), E1. apply bput_eq. }
  rewrite E1 in Hio2. rewrite E3 in Hio4. rewrite (home_writes_own _ _ (view c)) in Hio3.
  2:{ intros i b Hi. rewrite (io_view _ _ _ Hio2). simpl. rewrite bput_ne by lia.
      rewrite (io_view _ _ _ Hio1). by apply replay_log_writes. }
  unfold commit_trace. eapply io_trans; [done|]. change (?x :: ?y) with ([x] ++ y).
  eapply io_trans; [done|]. by eapply io_trans.
Qed.

(** *** [log_write] records a block once *)

(** The search finds the first entry equal to [n], or reports the end. *)
Lemma log_index_spec (bl : list Z) n i k :
  0 <= i ->
  i <= log_index bl n i k <= i + Z.of_nat k /\
  (forall j, i <= j < log_index bl n i k -> u32 (aget bl j) <> n) /\
  (log_index bl n i k < i + Z.of_nat k -> u32 (aget bl (log_index bl n i k)) = n).
Proof.
  revert i. induction k as [|k IH]; intros i Hi; simpl.
  - split_and!; intros; lia.
  - destruct (Z.eqb_spec (u32 (aget bl i)) n) as [E|E].
    + split_and!; intros; try lia; done.
    + destruct (IH (i + 1)) as (H1 & H2 & H3); [lia|]. split_and!; [lia..| |].
      * intros j Hj. destruct (decide (j = i)) as [->|]; [done|]. apply H2. lia.
      * intros. apply H3. lia.
Qed.

(** The list of logged blocks after logging [n]. *)
Definition logged_add (L : list Z) (n : Z) : list Z := if decide (n ∈ L) then L else L ++ [n].

Lemma log_index_in l n :
  log_ok l -> n ∈ logged l ->
  let i := log_index (lh_block (lg_lh l)) n 0 (Z.to_nat (lh_n (lg_lh l))) in
  0 <= i < lh_n (lg_lh l) /\ logged l !! Z.to_nat i = Some n.
Proof.
  intros Hl Hin i. pose proof (length_logged l Hl) as Hlen. pose proof (lo_n _ Hl).
  apply list_elem_of_lookup in Hin as [j Hj]. pose proof (lookup_lt_Some _ _ _ Hj).
  destruct (aget_logged l j n Hl Hj) as [Ej [Hr _]].
  destruct (log_index_spec (lh_block (lg_lh l)) n 0 (Z.to_nat (lh_n (lg_lh l)))) as (H1 & H2 & H3); [lia|].
  fold i in H1, H2, H3.
  assert (i <= Z.of_nat j).
  { destruct (Z.le_gt_cases i (Z.of_nat j)); [done|]. exfalso.
    apply (H2 (Z.of_nat j)); [lia|]. rewrite Ej. apply u32_id. lia. }
  split; [lia|]. destruct (lookup_lt_is_Some_2 (logged l) (Z.to_nat i)) as [b Hb]; [lia|].
  destruct (aget_logged l _ _ Hl Hb) as [Eb [Hrb _]]. rewrite Z2Nat.id in Eb by lia.
  rewrite Hb. f_equal. rewrite <-H3 by lia. rewrite Eb. symmetry. apply u32_id. lia.
Qed.

Lemma log_index_notin l n :
  log_ok l -> (n ∉ logged l) ->
  log_index (lh_block (lg_lh l)) n 0 (Z.to_nat (lh_n (lg_lh l))) = lh_n (lg_lh l).
Proof.
  intros Hl Hnin. pose proof (length_logged l Hl) as Hlen. pose proof (lo_n _ Hl).
  destruct (log_index_spec (lh_block (lg_lh l)) n 0 (Z.to_nat (lh_n (lg_lh l)))) as (H1 & H2 & H3); [lia|].
  set (i := log_index _ _ _ _) in *. destruct (decide (i = lh_n (lg_lh l))); [done|].
  exfalso. apply Hnin. destruct (lookup_lt_is_Some_2 (logged l) (Z.to_nat i)) as [b Hb]; [lia|].
  destruct (aget_logged l _ _ Hl Hb) as [Eb [Hrb _]]. rewrite Z2Nat.id in Eb by lia.
  apply list_elem_of_lookup. exists (Z.to_nat i). rewrite Hb. f_equal. rewrite <-H3 by lia.
  rewrite Eb. symmetry. apply u32_id. lia.
Qed.

Lemma log_write_spec c l H Y i n :
  tx_ok c (logged l) H Y -> log_ok l -> lh_n (lg_lh l) < LOGBLOCKS -> 1 <= lg_outstanding l ->
  holds c i n -> home (lg_start l) n ->
  wp (log_write i) (fun _ s' => exists c' h, s' = Lstate c' (l <| lg_lh := h |>) /\
    take (Z.to_nat (lh_n h)) (lh_block h) = logged_add (logged l) n /\
    log_ok (l <| lg_lh := h |>) /\ tx_ok c' (logged_add (logged l) n) H (Y ∖ {[n]}) /\
    holds c' i n /\ keep c c' n /\ io c c' []) (Lstate c l).
Proof.
  intros Htx Hl Hn Ho Hh Hhome. pose proof (length_logged l Hl) as Hlen. pose proof (lo_n _ Hl) as Hn0.
  pose proof (lo_len _ Hl) as Hbl. destruct Hhome as [Hr Hna] eqn:Eh. clear Eh.
  unfold log_write. wp_steps. unfold lh. cbn [ls_log ls_cache].
  replace (LOGBLOCKS <=? lh_n (lg_lh l)) with false by (symmetry; apply Z.leb_gt; lia).
  replace (lg_outstanding l <? 1) with false by (symmetry; apply Z.ltb_ge; lia).
  replace (b_blockno (bufat c i)) with n by (symmetry; apply Hh). rewrite s32_id by lia. wp_steps.
  unfold setlh, setlog. cbn [ls_log]. unfold logged_add. case_decide as Hin.
  - destruct (log_index_in l n Hl Hin) as [Hi Hli]. set (j := log_index _ _ _ _) in *.
    replace (j =? lh_n (lg_lh l)) with false by (symmetry; apply Z.eqb_neq; lia). wp_steps.
    assert (E : aset (lh_block (lg_lh l)) j n = lh_block (lg_lh l)).
    { unfold aset. apply list_insert_id. by apply lookup_take_Some in Hli as [? _]. }
    exists c, (lg_lh l). rewrite E.
    assert (El : l <| lg_lh := lg_lh l |> = l) by by destruct l.
    split_and!; try done; [by destruct l as [? ? ? ? []]|by rewrite El| |apply io_refl].
    eapply tx_sub; [done|]. intros m Hm. destruct (decide (m = n)) as [->|]; [by left|right; set_solver].
  - rewrite (log_index_notin l n Hl Hin). rewrite Z.eqb_refl. wp_step.
    change (Lstate c l <| ls_log := ?x |>) with (Lstate c x). apply wp_liftb.
    eapply wp_conseq; [by apply (bpin_tx c _ _ _ i n Htx)|].
    intros [] c' (Htx' & Hh' & Hv & K & Hd). wp_steps. cbn [ls_log].
    set (h := Logheader (lh_n (lg_lh l) + 1) (aset (lh_block (lg_lh l)) (lh_n (lg_lh l)) n)).
    exists c', h.
    assert (Eg : take (Z.to_nat (lh_n h)) (lh_block h) = logged l ++ [n]).
    { simpl. rewrite (take_step _ _ n); [|lia|].
      - unfold aset. by rewrite take_insert_ge by lia.
      - unfold aset. apply list_lookup_insert_eq. unfold LOGBLOCKS, MAXOPBLOCKS in *. lia. }
    split_and!; try done.
    + split; simpl; try apply Hl; [by rewrite length_aset|lia|].
      change (Forall (home (lg_start l)) (take (Z.to_nat (lh_n h)) (lh_block h))). rewrite Eg.
      apply Forall_app. split; [apply Hl|by apply Forall_singleton].
    + eapply io_keep; [done..|]. unfold same_disk. by rewrite Hd.
Qed.

(** *** [begin_op] and [end_op] *)

Lemma begin_op_run c l :
  lg_committing l = false -> lh_n (lg_lh l) + (lg_outstanding l + 1) * MAXOPBLOCKS <= LOGBLOCKS ->
  begin_op (Lstate c l) = Ok tt (Lstate c (l <| lg_outstanding := lg_outstanding l + 1 |>)).
Proof.
  intros Hc Hr. unfold begin_op, bind, get, modify, lh. cbn [ls_log]. rewrite Hc.
  case_match eqn:E; [apply Z.ltb_lt in E; lia|done].
Qed.

(** The disk agrees with the cache once nothing is logged. *)
Lemma tx_settled c m : tx_ok c [] ∅ ∅ -> view c m = dev_at (bc_disk c) m.
Proof. intros Htx. apply (tx_disk _ _ _ _ Htx); set_solver. Qed.

Lemma commit_trace_home start L V d f m :
  home start m -> (length L <= 30)%nat ->
  replay f (commit_trace start L V d) m = if decide (m ∈ L) then V m else f m.
Proof.
  intros Hm HL. unfold home, LOGBLOCKS, MAXOPBLOCKS in Hm. unfold commit_trace.
  rewrite replay_app. simpl. rewrite replay_snoc, bput_ne, replay_own by lia.
  case_decide; [done|]. rewrite bput_ne by lia. apply replay_other. rewrite log_writes_fst. lia.
Qed.

Lemma end_op_commit c l :
  tx_ok c (logged l) ∅ ∅ -> log_ok l -> lh_n (lg_lh l) < LOGBLOCKS ->
  lg_committing l = false -> lg_outstanding l = 1 ->
  wp end_op (fun _ s => tx_ok (ls_cache s) [] ∅ ∅ /\ log_ok (ls_log s) /\ logged (ls_log s) = [] /\
    lg_start (ls_log s) = lg_start l /\
    lg_outstanding (ls_log s) = 0 /\ lg_committing (ls_log s) = false /\
    io c (ls_cache s) (if decide (lh_n (lg_lh l) = 0) then [] else
      commit_trace (lg_start l) (logged l) (view c) (view c (lg_start l)))) (Lstate c l).
Proof.
  intros Htx Hl Hn Hc Ho. pose proof (lo_n _ Hl) as Hn0.
  unfold end_op. wp_steps. unfold setlog. cbn [ls_log]. change (Lstate c l <| ls_log := ?x |>) with (Lstate c x).
  cbn [ls_log]. simpl lg_committing. rewrite Hc. simpl lg_outstanding. rewrite Ho.
  change (1 - 1 =? 0) with true. cbn match. wp_steps.
  set (l1 := l <| lg_outstanding := 1 - 1 |> <| lg_committing := true |>).
  change (wp commit ?Q _) with (wp commit Q (Lstate c l1)).
  assert (Hl1 : log_ok l1) by (split; apply Hl). case_decide as E.
  - unfold commit. wp_steps. unfold lh. simpl lh_n. rewrite E. simpl. wp_steps.
    assert (Enil : logged l = []) by (unfold logged; by rewrite E). rewrite Enil in Htx.
    split_and!; try done; [split; apply Hl|apply io_refl].
  - eapply wp_conseq; [apply commit_spec; [done..|simpl; lia]|].
    intros [] ? (c' & -> & Htx' & Hio). wp_steps.
    split_and!; try done.
    split; try apply Hl; [simpl; unfold LOGBLOCKS, MAXOPBLOCKS; lia|unfold logged; simpl; constructor].
Qed.
End LogSpec.
