(* ===== verification/Tx.v ===== *)
(** What the log and the buffer cache promise to the file system.

    kernel/fs.c reads and writes the disk only through [bread], [brelse],
    [log_write] and the [data] of buffers it holds.  [TxOps] lists these
    operations, [TxSpec] their laws in terms of one function from block
    numbers to contents ([tx_view]: what a read returns now).  The file system
    is written against [TxOps] and proved against [TxSpec]; the log over the
    buffer cache is the instance. *)

From S2P Require Import Prelude Bytes Ring Params Disk Sleeplock Bio LogTx Log LogSpec.

Class TxOps (S : Type) := {
  (** [bread(dev, blockno)]: a handle on the locked buffer. *)
  tx_bread : Z -> Z -> M S nat;
  (** [bp->data], and storing to it. *)
  tx_data : nat -> M S block;
  tx_set : nat -> block -> M S unit;
  tx_log_write : nat -> M S unit;
  tx_brelse : nat -> M S unit;
  tx_initlog : Z -> superblock -> M S unit;
  tx_begin_op : M S unit;
  tx_end_op : M S unit;
  (** [myproc()->pid] of the process running the operation. *)
  tx_pid : S -> Z }.

Class TxSpec (S : Type) {TO : TxOps S} := {
  (** The invariant, with the blocks held and those of them with contents not
      yet logged. *)
  tx_inv : S -> gset Z -> gset Z -> Prop;
  tx_view : S -> Z -> block;
  tx_held : S -> nat -> Z -> Prop;
  (** Blocks the open transaction has logged; blocks that may be logged. *)
  tx_used : S -> nat;
  tx_home : S -> Z -> Prop;
  (** A system call is inside its transaction; no transaction is open. *)
  tx_open : S -> Prop;
  tx_idle : S -> Prop;
  (** Everything but the contents and the handles of block [n] stays. *)
  tx_frame : S -> S -> Z -> Prop;
  tx_view_ok s H Y n : tx_inv s H Y -> block_ok (tx_view s n);
  tx_frame_held s s' n i m : tx_frame s s' n -> m <> n -> tx_held s i m -> tx_held s' i m;
  tx_frame_home s s' n m : tx_frame s s' n -> tx_home s' m <-> tx_home s m;
  tx_frame_open s s' n : tx_frame s s' n -> tx_open s -> tx_open s';
  tx_frame_idle s s' n : tx_frame s s' n -> tx_idle s -> tx_idle s';
  tx_frame_pid s s' n : tx_frame s s' n -> tx_pid s' = tx_pid s;
  tx_bread_law s H Y n :
    tx_inv s H Y -> (n ∉ H) -> 0 <= n < 2 ^ 31 -> (tx_used s + size H < Z.to_nat NBUF)%nat ->
    wp (tx_bread ROOTDEV n) (fun i s' => tx_inv s' ({[n]} ∪ H) Y /\ tx_held s' i n /\
      tx_frame s s' n /\ tx_used s' = tx_used s /\ forall m, tx_view s' m = tx_view s m) s;
  tx_data_law s H Y i n :
    tx_inv s H Y -> tx_held s i n -> wp (tx_data i) (fun d s' => d = tx_view s n /\ s' = s) s;
  tx_set_law s H Y i n d :
    tx_inv s H Y -> tx_held s i n -> block_ok d ->
    wp (tx_set i d) (fun _ s' => tx_inv s' H ({[n]} ∪ Y) /\ tx_held s' i n /\
      tx_frame s s' n /\ tx_used s' = tx_used s /\
      forall m, tx_view s' m = bput (tx_view s) n d m) s;
  tx_log_write_law s H Y i n :
    tx_inv s H Y -> tx_held s i n -> tx_home s n -> tx_open s ->
    (tx_used s < Z.to_nat LOGBLOCKS)%nat ->
    wp (tx_log_write i) (fun _ s' => tx_inv s' H (Y ∖ {[n]}) /\ tx_held s' i n /\
      tx_frame s s' n /\ (tx_used s' <= 1 + tx_used s)%nat /\
      forall m, tx_view s' m = tx_view s m) s;
  tx_brelse_law s H Y i n :
    tx_inv s H Y -> tx_held s i n -> (n ∉ Y) ->
    wp (tx_brelse i) (fun _ s' => tx_inv s' (H ∖ {[n]}) Y /\
      tx_frame s s' n /\ tx_used s' = tx_used s /\ forall m, tx_view s' m = tx_view s m) s;
  (** A system call that runs alone gets a transaction of its own, and its end commits it. *)
  tx_begin_law s :
    tx_inv s ∅ ∅ -> tx_idle s ->
    wp tx_begin_op (fun _ s' => tx_inv s' ∅ ∅ /\ tx_open s' /\ tx_used s' = O /\
      (forall m, tx_view s' m = tx_view s m) /\ (forall m, tx_home s' m <-> tx_home s m) /\
      tx_pid s' = tx_pid s) s;
  tx_end_law s :
    tx_inv s ∅ ∅ -> tx_open s -> (tx_used s < Z.to_nat LOGBLOCKS)%nat ->
    wp tx_end_op (fun _ s' => tx_inv s' ∅ ∅ /\ tx_idle s' /\
      (forall m, tx_home s m -> tx_view s' m = tx_view s m) /\ (forall m, tx_home s' m <-> tx_home s m) /\
      tx_pid s' = tx_pid s) s }.

(** ** The log as an instance *)

Section LogTx.
Context {D : Type} `{BS : BlockDevSpec D}.

#[global] Instance log_tx : TxOps (lstate D) := {
  tx_bread dev n := liftb (bread dev n);
  tx_data := bdata;
  tx_set := bset;
  tx_log_write := log_write;
  tx_brelse i := liftb (brelse i);
  tx_initlog := initlog;
  tx_begin_op := begin_op;
  tx_end_op := end_op;
  tx_pid s := bc_pid (ls_cache s) }.

Definition log_tx_inv (s : lstate D) (H Y : gset Z) : Prop :=
  tx_ok (ls_cache s) (logged (ls_log s)) H Y /\ log_ok (ls_log s).

(** One operation is outstanding; none is, and nothing is logged. *)
Definition log_open (s : lstate D) : Prop :=
  lg_outstanding (ls_log s) = 1 /\ lg_committing (ls_log s) = false.
Definition log_idle (s : lstate D) : Prop :=
  lg_outstanding (ls_log s) = 0 /\ lg_committing (ls_log s) = false /\ logged (ls_log s) = [].

Definition log_frame (s s' : lstate D) (n : Z) : Prop :=
  keep (ls_cache s) (ls_cache s') n /\ lg_start (ls_log s') = lg_start (ls_log s) /\
  lg_outstanding (ls_log s') = lg_outstanding (ls_log s) /\
  lg_committing (ls_log s') = lg_committing (ls_log s) /\
  (logged (ls_log s) = [] -> lg_outstanding (ls_log s) = 0 -> logged (ls_log s') = []).

Lemma room_used L H : (length L + size H < Z.to_nat NBUF)%nat -> room L H.
Proof. apply room_nil. Qed.

Lemma logged_add_length L n : (length (logged_add L n) <= 1 + length L)%nat.
Proof. unfold logged_add. case_decide; [lia|]. rewrite length_app. simpl. lia. Qed.

Lemma log_begin (s : lstate D) :
  log_tx_inv s ∅ ∅ -> log_idle s ->
  wp begin_op (fun _ s' => log_tx_inv s' ∅ ∅ /\ log_open s' /\ length (logged (ls_log s')) = O /\
    (forall m, view (ls_cache s') m = view (ls_cache s) m) /\
    (forall m, home (lg_start (ls_log s')) m <-> home (lg_start (ls_log s)) m) /\
    bc_pid (ls_cache s') = bc_pid (ls_cache s)) s.
Proof.
  destruct s as [c l]. intros (Htx & Hl) (Ho & Hc & Hnil). cbn [ls_log ls_cache] in *.
  pose proof (length_logged l Hl) as E. pose proof (lo_n _ Hl). rewrite Hnil in E. simpl in E.
  eapply wp_run; [apply begin_op_run; [done|]|].
  - rewrite Ho. unfold LOGBLOCKS, MAXOPBLOCKS. lia.
  - set (l1 := l <| lg_outstanding := _ |>). assert (El : logged l1 = []) by exact Hnil.
    split_and!; try done.
    + split; [cbn [ls_log ls_cache]; by rewrite El, <-Hnil|split; apply Hl].
    + split; [simpl; lia|done].
    + cbn [ls_log]. by rewrite El.
Qed.

Lemma log_end (s : lstate D) :
  log_tx_inv s ∅ ∅ -> log_open s -> (length (logged (ls_log s)) < Z.to_nat LOGBLOCKS)%nat ->
  wp end_op (fun _ s' => log_tx_inv s' ∅ ∅ /\ log_idle s' /\
    (forall m, home (lg_start (ls_log s)) m -> view (ls_cache s') m = view (ls_cache s) m) /\
    (forall m, home (lg_start (ls_log s')) m <-> home (lg_start (ls_log s)) m) /\
    bc_pid (ls_cache s') = bc_pid (ls_cache s)) s.
Proof.
  destruct s as [c l]. intros (Htx & Hl) (Ho & Hc) Hu. cbn [ls_log ls_cache] in *.
  rewrite (length_logged l Hl) in Hu. pose proof (lo_n _ Hl).
  eapply wp_conseq; [apply end_op_commit; try done; lia|].
  intros [] [c' l'] (Htx' & Hl' & Hnil & Hst & Ho' & Hc' & Hio). cbn [ls_log ls_cache] in *.
  split_and!; try done.
  - split; cbn [ls_log ls_cache]; [by rewrite Hnil|done].
  - intros m Hm. rewrite (io_view _ _ _ Hio). case_decide; [done|].
    rewrite commit_trace_home; [by case_decide|done|].
    rewrite (length_logged l Hl). unfold LOGBLOCKS, MAXOPBLOCKS in *. lia.
  - intros m. by rewrite Hst.
  - apply Hio.
Qed.

#[global] Instance log_tx_spec : TxSpec (lstate D).
Proof.
  refine {| tx_inv := log_tx_inv; tx_view s := view (ls_cache s); tx_held s := holds (ls_cache s);
            tx_used s := length (logged (ls_log s)); tx_home s := home (lg_start (ls_log s));
            tx_open := log_open; tx_idle := log_idle; tx_frame := log_frame;
            tx_begin_law := log_begin; tx_end_law := log_end |}.
  - intros s H Y n [Htx _]. apply view_ok, Htx.
  - intros s s' n i m (K & _) Hm. by apply (keep_holds _ _ n).
  - intros s s' n m (_ & E & _). by rewrite E.
  - intros s s' n (_ & _ & E1 & E2 & _) [H1 H2]. split; congruence.
  - intros s s' n (_ & _ & E1 & E2 & E3) (H1 & H2 & H3). split_and!; [congruence..|auto].
  - by intros s s' n ((E & _) & _).
  - intros [c l] H Y n (Htx & Hl) HnH Hn Hr.
    eapply wp_conseq; [apply bread_log; [done..|right; by apply room_used]|].
    intros i ? (c' & -> & ? & ? & ? & Hio). split_and!; try done. intros m. by apply io_nil_view.
  - intros [c l] H Y i n (Htx & Hl) Hh. apply wp_gets. split; [|done].
    by apply bdata_view; [apply Htx|].
  - intros [c l] H Y i n d (Htx & Hl) Hh Hd. apply wp_modify.
    destruct (setdata_tx _ _ _ _ i n d Htx Hh Hd) as (? & ? & ? & ? & ?). by split_and!.
  - intros [c l] H Y i n (Htx & Hl) Hh Hhome [Ho Hc] Hu. cbn [ls_log ls_cache] in *.
    rewrite (length_logged l Hl) in Hu. pose proof (lo_n _ Hl).
    eapply wp_conseq; [apply log_write_spec; try done; lia|].
    intros [] ? (c' & h & -> & El & Hl' & Htx' & Hh' & K & Hio).
    assert (E : logged (l <| lg_lh := h |>) = logged_add (logged l) n) by exact El.
    unfold log_tx_inv, log_frame. cbn [ls_log ls_cache]. rewrite !E.
    split_and!; try done; [intros _; rewrite Ho; lia|apply logged_add_length|].
    intros m. by apply io_nil_view.
  - intros [c l] H Y i n (Htx & Hl) Hh Hn.
    eapply wp_conseq; [by apply brelse_log|].
    intros [] ? (c' & -> & ? & ? & Hio). split_and!; try done. intros m. by apply io_nil_view.
Defined.
End LogTx.

(** ** Working with held blocks *)

Section TxLib.
Context {S : Type} `{TS : TxSpec S}.
Implicit Types s : S.
Implicit Types H : gset Z.

(** The handles on the blocks of [H] stay good. *)
Definition tx_keep s s' H : Prop :=
  (forall i m, m ∈ H -> tx_held s i m -> tx_held s' i m) /\
  (forall m, tx_home s' m <-> tx_home s m) /\ (tx_open s -> tx_open s') /\
  (tx_idle s -> tx_idle s') /\ tx_pid s' = tx_pid s.

Lemma tx_keep_refl s H : tx_keep s s H.
Proof. by split_and!. Qed.

Lemma tx_keep_trans s1 s2 s3 H : tx_keep s1 s2 H -> tx_keep s2 s3 H -> tx_keep s1 s3 H.
Proof.
  intros (A1 & B1 & C1 & D1 & E1) (A2 & B2 & C2 & D2 & E2).
  split_and!; [eauto|naive_solver|eauto|eauto|congruence].
Qed.

Lemma tx_keep_sub s s' H H' : H' ⊆ H -> tx_keep s s' H -> tx_keep s s' H'.
Proof. intros Hs (A & B & C). split_and!; [eauto|done|apply C..]. Qed.

Lemma tx_keep_held s s' H i m : tx_keep s s' H -> m ∈ H -> tx_held s i m -> tx_held s' i m.
Proof. intros (A & _). eauto. Qed.

Lemma tx_frame_keep s s' n H : tx_frame s s' n -> (n ∉ H) -> tx_keep s s' H.
Proof.
  intros Hf Hn. split_and!.
  - intros i m Hm Hh. eapply tx_frame_held; [done| |done]. set_solver.
  - intros m. by eapply tx_frame_home.
  - by eapply tx_frame_open.
  - by eapply tx_frame_idle.
  - by eapply tx_frame_pid.
Qed.

(** [bread] adds a block to those held. *)
Lemma wp_tx_bread s H n (Q : nat -> S -> Prop) :
  tx_inv s H ∅ -> (n ∉ H) -> 0 <= n < 2 ^ 31 -> (tx_used s + size H < Z.to_nat NBUF)%nat ->
  (forall i s', tx_inv s' ({[n]} ∪ H) ∅ -> tx_held s' i n -> tx_keep s s' H -> tx_used s' = tx_used s ->
     (forall m, tx_view s' m = tx_view s m) -> Q i s') ->
  wp (tx_bread ROOTDEV n) Q s.
Proof.
  intros Hi Hn Hr Hu HQ. eapply wp_conseq; [by apply tx_bread_law|].
  intros i s' (? & ? & ? & ? & ?). apply HQ; try done. by eapply tx_frame_keep.
Qed.

Lemma wp_tx_data s H i n (Q : block -> S -> Prop) :
  tx_inv s H ∅ -> tx_held s i n -> Q (tx_view s n) s -> wp (tx_data i) Q s.
Proof.
  intros Hi Hh HQ. eapply wp_conseq; [by eapply tx_data_law|]. by intros d s' [-> ->].
Qed.

(** Storing to a held buffer and logging it. *)
Lemma wp_tx_update s H i n d {B} (k : unit -> M S B) (Q : B -> S -> Prop) :
  tx_inv s ({[n]} ∪ H) ∅ -> (n ∉ H) -> tx_held s i n -> block_ok d -> tx_home s n -> tx_open s ->
  (tx_used s < Z.to_nat LOGBLOCKS)%nat ->
  (forall s', tx_inv s' ({[n]} ∪ H) ∅ -> tx_held s' i n -> tx_keep s s' H ->
     (tx_used s' <= 1 + tx_used s)%nat -> (forall m, tx_view s' m = bput (tx_view s) n d m) ->
     wp (k tt) Q s') ->
  wp (bind (tx_set i d) (fun _ => bind (tx_log_write i) k)) Q s.
Proof.
  intros Hi Hn Hh Hd Hhome Ho Hu HQ. eapply wp_seq; [by eapply tx_set_law|].
  intros [] s1 (Hi1 & Hh1 & Hf1 & Hu1 & Hv1).
  eapply wp_seq; [eapply tx_log_write_law; [done|done|by eapply tx_frame_home|by eapply tx_frame_open|by rewrite Hu1]|].
  intros [] s2 (Hi2 & Hh2 & Hf2 & Hu2 & Hv2). apply HQ; try done.
  - by replace (({[n]} ∪ ∅) ∖ {[n]}) with (∅ : gset Z) in Hi2 by set_solver.
  - eapply tx_keep_trans; by eapply tx_frame_keep.
  - lia.
  - intros m. by rewrite Hv2, Hv1.
Qed.

Lemma wp_tx_brelse s H i n (Q : unit -> S -> Prop) :
  tx_inv s ({[n]} ∪ H) ∅ -> (n ∉ H) -> tx_held s i n ->
  (forall s', tx_inv s' H ∅ -> tx_keep s s' H -> tx_used s' = tx_used s ->
     (forall m, tx_view s' m = tx_view s m) -> Q tt s') ->
  wp (tx_brelse i) Q s.
Proof.
  intros Hi Hn Hh HQ. eapply wp_conseq; [eapply tx_brelse_law; [done..|apply not_elem_of_empty]|].
  intros [] s' (Hi' & ? & ? & ?).
  replace (({[n]} ∪ H) ∖ {[n]}) with H in Hi' by set_solver.
  apply HQ; try done. by eapply tx_frame_keep.
Qed.
End TxLib.
