(* ===== verification/LogCrash.v ===== *)
(** Crash safety of the log.

    The device completes block writes one at a time and in order, so a crash
    during an operation leaves the disk as a prefix of the operation's writes
    left it.  After a crash the kernel starts with an empty cache and runs
    [binit] and [initlog]; the theorems below say what the file system's
    blocks hold once [initlog] has returned. *)

From S2P Require Import Prelude Bytes Ring Params Disk Sleeplock Bio LogTx Log LogSpec Tx.

(** ** Recovery as a function of the disk contents *)

Definition recover_trace (start : Z) (f : Z -> block) : list (Z * block) :=
  home_writes start (head_blocks (f start)) f ++ [(start, head_put [] (f start))].

Definition recovered (start : Z) (f : Z -> block) : Z -> block := replay f (recover_trace start f).

Lemma recovered_other start f m :
  m <> start -> recovered start f m = replay f (home_writes start (head_blocks (f start)) f) m.
Proof. intros. unfold recovered, recover_trace. rewrite replay_snoc. by apply bput_ne. Qed.

Lemma head_blocks_nil d : get32 d 0 = 0 -> head_blocks d = [].
Proof. intros E. unfold head_blocks. rewrite E. done. Qed.

Lemma recovered_empty start f m : get32 (f start) 0 = 0 -> m <> start -> recovered start f m = f m.
Proof. intros E Hm. rewrite recovered_other by done. by rewrite head_blocks_nil. Qed.

(** A complete log is installed whatever the home blocks hold. *)
Lemma recovered_full start f L V m :
  head_blocks (f start) = L -> (forall i b, L !! i = Some b -> f (start + 1 + Z.of_nat i) = V b) ->
  m <> start -> recovered start f m = if decide (m ∈ L) then V m else f m.
Proof.
  intros EL EV Hm. rewrite recovered_other by done. rewrite EL.
  rewrite (home_writes_own _ _ V) by done. apply replay_own.
Qed.

(** ** Prefixes *)

Lemma prefix_app_cons {A} (T X Y : list A) x :
  T `prefix_of` X ++ x :: Y ->
  T `prefix_of` X \/ exists P, T = X ++ x :: P /\ P `prefix_of` Y.
Proof.
  revert T. induction X as [|y X IH]; intros T HT; simpl in *.
  - destruct T as [|z T]; [left; apply prefix_nil|].
    right. apply prefix_cons_inv_1 in HT as E. subst. apply prefix_cons_inv_2 in HT. eauto.
  - destruct T as [|z T]; [left; apply prefix_nil|].
    apply prefix_cons_inv_1 in HT as E. subst. apply prefix_cons_inv_2 in HT.
    destruct (IH T HT) as [?|(P & -> & ?)]; [left; by apply prefix_cons|right; eauto].
Qed.

Lemma prefix_elem {A} (T X : list A) x : T `prefix_of` X -> x ∈ T -> x ∈ X.
Proof. intros [k ->]. set_solver. Qed.

Lemma prefix_fst (T X : list (Z * block)) n : T `prefix_of` X -> n ∈ T.*1 -> n ∈ X.*1.
Proof. intros [k ->]. rewrite fmap_app. set_solver. Qed.

Lemma prefix_replay_own f L V T m :
  T `prefix_of` own_writes L V -> replay f T m = if decide (m ∈ T.*1) then V m else f m.
Proof.
  intros HT. apply replay_in. intros n b Hin. apply (prefix_elem _ _ _ HT) in Hin.
  by apply list_elem_of_fmap in Hin as (x & [= -> ->] & _).
Qed.

Lemma head_ok_empty start d : get32 d 0 = 0 -> head_ok start d.
Proof.
  intros E. split; [rewrite E; done|]. rewrite head_blocks_nil by done. constructor.
Qed.

Lemma head_put_nil_n d : block_ok d -> get32 (head_put [] d) 0 = 0.
Proof. intros. destruct (head_put_spec [] d) as (_ & -> & _); [done|simpl; lia|done]. Qed.

(** ** A crash during [commit] *)

Section CommitCrash.
Variables (start : Z) (L : list Z) (f V : Z -> block).
Hypothesis Hf : forall m, block_ok (f m).
Hypothesis HL : (length L <= Z.to_nat LOGBLOCKS)%nat.
Hypothesis Hhome : Forall (home start) L.
Hypothesis HV : forall m, (m ∉ L) -> V m = f m.
Hypothesis Hclean : get32 (f start) 0 = 0.

Lemma start_nin : start ∉ L.
Proof.
  intros Hin. rewrite Forall_forall in Hhome. apply Hhome in Hin.
  unfold home, LOGBLOCKS, MAXOPBLOCKS in Hin. lia.
Qed.

Lemma area_nin i : 0 <= i < LOGBLOCKS -> (start + 1 + i ∉ L).
Proof.
  intros Hi Hin. rewrite Forall_forall in Hhome. apply Hhome in Hin.
  unfold home in Hin. lia.
Qed.

Lemma L_range : Forall (fun b => 0 <= b < 2 ^ 31) L.
Proof. eapply Forall_impl; [exact Hhome|]. by intros x [? _]. Qed.

Lemma head_ok_full : head_ok start (head_put L (f start)).
Proof.
  destruct (head_put_spec L (f start) (Hf _) HL) as (_ & En & _).
  split; [|rewrite head_blocks_put; [done|apply Hf|done|apply L_range]].
  rewrite En, s32_id; change (Z.to_nat LOGBLOCKS) with 30%nat in HL; unfold LOGBLOCKS, MAXOPBLOCKS; lia.
Qed.

(** Before the header is written the transaction has not happened. *)
Lemma crash_before T m :
  T `prefix_of` log_writes start L V -> home start m ->
  head_ok start (replay f T start) /\ recovered start (replay f T) m = f m.
Proof.
  intros HT Hm. assert (E : replay f T start = f start).
  { apply replay_other. intros Hin. apply (prefix_fst _ _ _ HT), log_writes_fst in Hin. lia. }
  rewrite E. split; [by apply head_ok_empty|].
  assert (m <> start) by (unfold home, LOGBLOCKS, MAXOPBLOCKS in Hm; lia).
  rewrite recovered_empty by (done || by rewrite E).
  apply replay_other. intros Hin. apply (prefix_fst _ _ _ HT), log_writes_fst in Hin.
  change (Z.to_nat LOGBLOCKS) with 30%nat in HL. unfold home, LOGBLOCKS, MAXOPBLOCKS in Hm. lia.
Qed.

(** After the header is written the transaction has happened. *)
Lemma crash_after P m :
  P `prefix_of` own_writes L V ++ [(start, head_put [] (head_put L (f start)))] -> home start m ->
  let g := replay f (log_writes start L V ++ (start, head_put L (f start)) :: P) in
  head_ok start (g start) /\ recovered start g m = V m.
Proof.
  intros HP Hm g. pose proof start_nin as Hs.
  assert (Hms : m <> start) by (unfold home, LOGBLOCKS, MAXOPBLOCKS in Hm; lia).
  set (f1 := bput (replay f (log_writes start L V)) start (head_put L (f start))).
  assert (Eg : forall x, g x = replay f1 P x) by (intros; unfold g; by rewrite replay_app).
  assert (Hm1 : f1 m = f m).
  { unfold f1. rewrite bput_ne by done. apply replay_other. rewrite log_writes_fst.
    change (Z.to_nat LOGBLOCKS) with 30%nat in HL. unfold home, LOGBLOCKS, MAXOPBLOCKS in Hm. lia. }
  apply prefix_app_cons in HP as [HP|(P' & -> & HP')].
  - assert (Es : g start = head_put L (f start)).
    { rewrite Eg, (prefix_replay_own _ L V) by done. rewrite decide_False; [apply bput_eq|].
      intros Hin. apply (prefix_fst _ _ _ HP) in Hin. by rewrite own_writes_fst in Hin. }
    rewrite Es. split; [apply head_ok_full|].
    rewrite (recovered_full start g L V m); [|rewrite Es; apply head_blocks_put; [apply Hf|done|apply L_range]| |done].
    + case_decide as Hin; [done|]. rewrite Eg, (prefix_replay_own _ L V), Hm1 by done.
      case_decide; [done|]. by rewrite HV.
    + intros i b Hi. pose proof (lookup_lt_Some _ _ _ Hi). change (Z.to_nat LOGBLOCKS) with 30%nat in HL.
      rewrite Eg, (prefix_replay_own _ L V) by done. rewrite decide_False.
      * unfold f1. rewrite bput_ne by lia. by apply replay_log_writes.
      * intros Hin. apply (prefix_fst _ _ _ HP) in Hin. rewrite own_writes_fst in Hin.
        eapply area_nin; [|done]. unfold LOGBLOCKS, MAXOPBLOCKS. lia.
  - apply prefix_nil_inv in HP' as ->.
    assert (E0 : get32 (g start) 0 = 0).
    { rewrite Eg, replay_snoc, bput_eq. apply head_put_nil_n. by apply head_put_spec. }
    split; [by apply head_ok_empty|]. rewrite recovered_empty by done.
    rewrite Eg, replay_snoc, bput_ne, replay_own, Hm1 by done. case_decide; [done|]. by rewrite HV.
Qed.
End CommitCrash.

(** ** A crash during recovery *)

Lemma replay_base f g T m : m ∈ T.*1 -> replay f T m = replay g T m.
Proof.
  induction T as [|[n b] T IH] using rev_ind; [set_solver|]. rewrite fmap_app, !replay_snoc. intros Hin.
  unfold bput. case_decide; [done|]. apply IH. set_solver.
Qed.

Lemma recover_again start f T m :
  (forall m, block_ok (f m)) -> head_ok start (f start) ->
  T `prefix_of` recover_trace start f -> home start m ->
  head_ok start (replay f T start) /\ recovered start (replay f T) m = recovered start f m.
Proof.
  intros Hf [Hn Hhome] HT Hm. pose proof (length_head_blocks (f start)) as Hlen.
  assert (Hms : m <> start) by (unfold home, LOGBLOCKS, MAXOPBLOCKS in Hm; lia).
  apply prefix_app_cons in HT as [HT|(P & -> & HP)].
  - assert (Ha : forall i, 0 <= i <= LOGBLOCKS -> replay f T (start + i) = f (start + i)).
    { intros i Hi. apply replay_other. intros Hin. apply (prefix_fst _ _ _ HT) in Hin.
      rewrite home_writes_fst in Hin. rewrite Forall_forall in Hhome. apply Hhome in Hin.
      unfold home in Hin. lia. }
    assert (Es : replay f T start = f start).
    { rewrite <-(Z.add_0_r start). apply Ha. unfold LOGBLOCKS, MAXOPBLOCKS. lia. }
    split; [by rewrite Es|]. rewrite !recovered_other, Es by done.
    assert (Ew : home_writes start (head_blocks (f start)) (replay f T) =
                 home_writes start (head_blocks (f start)) f).
    { apply list_eq. intros i. unfold home_writes. rewrite !list_lookup_imap.
      destruct (_ !! i) as [b|] eqn:Hi; simpl; [|done]. apply lookup_lt_Some in Hi.
      rewrite <-Z.add_assoc, Ha; [done|]. lia. }
    rewrite Ew. destruct (decide (m ∈ head_blocks (f start))) as [Hin|Hin].
    + apply replay_base. by rewrite home_writes_fst.
    + rewrite !(replay_other _ (home_writes _ _ _)) by (by rewrite home_writes_fst).
      apply replay_other. intros Hin'. apply Hin. apply (prefix_fst _ _ _ HT) in Hin'.
      by rewrite home_writes_fst in Hin'.
  - apply prefix_nil_inv in HP as ->.
    assert (E0 : get32 (replay f (recover_trace start f) start) 0 = 0).
    { unfold recover_trace. rewrite replay_snoc, bput_eq. by apply head_put_nil_n. }
    split; [by apply head_ok_empty|]. by apply recovered_empty.
Qed.

(** ** Running recovery *)

Section Crash.
Context {D : Type} `{BS : BlockDevSpec D}.

(** The part of start-up that concerns the log: kernel/main.c calls [binit], and
    [fsinit] calls [initlog] when the first process runs. *)
Definition boot_log (sb : superblock) : M (lstate D) unit :=
  liftb binit ;;; initlog ROOTDEV sb.

Lemma boot_log_spec (d : D) pid sb :
  dev_ok d -> 0 <= sb_logstart sb -> sb_logstart sb + LOGBLOCKS < 2 ^ 31 ->
  head_ok (sb_logstart sb) (dev_at d (sb_logstart sb)) ->
  wp (boot_log sb) (fun _ s => tx_ok (ls_cache s) [] ∅ ∅ /\ log_ok (ls_log s) /\
    lg_start (ls_log s) = sb_logstart sb /\ lh_n (lh s) = 0 /\ lg_outstanding (ls_log s) = 0 /\
    lg_committing (ls_log s) = false /\
    (forall m, dev_at (bc_disk (ls_cache s)) m = recovered (sb_logstart sb) (dev_at d) m) /\
    dev_trace (bc_disk (ls_cache s)) = dev_trace d ++ recover_trace (sb_logstart sb) (dev_at d))
    (Lstate (bcache_bss d pid) log_bss).
Proof.
  intros Hd H0 H1 Hh. unfold boot_log, initlog. wp_step.
  apply wp_liftb. eapply wp_conseq; [by apply binit_spec|].
  intros [] c (Hok & Hcl & _ & <- & _ & Hno). pose proof (tx_fresh c Hok Hno) as Htx.
  replace (BSIZE <=? LOGHEADER_SIZE) with false by done. wp_steps.
  unfold setlog, LOGBLOCKS, MAXOPBLOCKS in *. rewrite s32_id by lia. cbn [ls_log].
  set (l := log_bss <| lg_start := sb_logstart sb |> <| lg_dev := ROOTDEV |>).
  change (wp recover_from_log ?Q _) with (wp recover_from_log Q (Lstate c l)).
  assert (Ev : forall m, view c m = dev_at (bc_disk c) m) by (intros; by apply view_uncached).
  eapply wp_conseq; [apply recover_spec; [done| |simpl; by rewrite Ev]|].
  { split; [done|done|simpl; unfold LOGBLOCKS, MAXOPBLOCKS; lia]. }
  intros [] ? (c' & h & -> & Htx' & Hl' & Hn & Hio). simpl in *. rewrite Ev in Hio.
  assert (Ew : forall L, home_writes (sb_logstart sb) L (view c) = home_writes (sb_logstart sb) L (dev_at (bc_disk c))).
  { intros. unfold home_writes. apply imap_ext. intros. by rewrite Ev. }
  rewrite Ew in Hio. split_and!; try done; apply Hio.
Qed.

Lemma home_inhabited st : 0 <= st -> st + LOGBLOCKS < 2 ^ 31 -> exists m, home st m.
Proof.
  intros. exists (if decide (st = 0) then st + LOGBLOCKS + 1 else 0).
  unfold home, LOGBLOCKS, MAXOPBLOCKS in *. destruct (decide (st = 0)); lia.
Qed.

Lemma recovered_ext st f g m : (forall m, f m = g m) -> recovered st f m = recovered st g m.
Proof.
  intros E. unfold recovered, recover_trace. rewrite (E st), (replay_ext f g) by done.
  do 2 f_equal. unfold home_writes. apply imap_ext. intros. by rewrite E.
Qed.

Lemma tx_dev_view (c : bcache D) l m :
  tx_ok c (logged l) ∅ ∅ -> (m ∉ logged l) -> view c m = dev_at (bc_disk c) m.
Proof. intros Htx Hm. apply (tx_disk _ _ _ _ Htx); set_solver. Qed.

(** [commit] followed by a crash after any number of its block writes, and a reboot. *)
Lemma commit_crash (c : bcache D) l sb (d' : D) pid T :
  tx_ok c (logged l) ∅ ∅ -> log_ok l -> sb_logstart sb = lg_start l ->
  get32 (view c (lg_start l)) 0 = 0 ->
  T `prefix_of` commit_trace (lg_start l) (logged l) (view c) (view c (lg_start l)) ->
  dev_ok d' -> (forall m, dev_at d' m = replay (dev_at (bc_disk c)) T m) ->
  wp (boot_log sb) (fun _ s => log_ok (ls_log s) /\ lh_n (lh s) = 0 /\
    forall m, home (lg_start l) m -> dev_at (bc_disk (ls_cache s)) m =
      if decide (length T <= length (logged l))%nat then dev_at (bc_disk c) m else view c m)
    (Lstate (bcache_bss d' pid) log_bss).
Proof.
  intros Htx Hl Hsb H0 HT Hd' Ed. destruct (lo_start _ Hl). pose proof (lo_n _ Hl).
  pose proof (length_logged l Hl) as HlL. pose proof (lo_home _ Hl) as Hhome.
  set (f := dev_at (bc_disk c)) in *. set (st := lg_start l) in *.
  assert (Hf : forall m, block_ok (f m)) by (intros; apply dev_at_ok, Htx).
  assert (HV : forall m, (m ∉ logged l) -> view c m = f m) by (intros; by apply tx_dev_view with l).
  assert (Hs : view c st = f st) by by apply HV, start_not_logged.
  rewrite Hs in *. assert (Hlen : (length (logged l) <= Z.to_nat LOGBLOCKS)%nat) by lia.
  assert (Hcase : forall m, home st m -> head_ok st (replay f T st) /\ recovered st (replay f T) m =
    if decide (length T <= length (logged l))%nat then f m else view c m).
  { intros m Hm. assert (Elw : length (log_writes st (logged l) (view c)) = length (logged l))
      by apply length_imap.
    apply prefix_app_cons in HT as [HT|(P & -> & HP)].
    - rewrite decide_True by (rewrite <-Elw; by apply prefix_length). by eapply crash_before.
    - rewrite decide_False by (rewrite length_app, Elw; simpl; lia). by eapply crash_after. }
  eapply wp_conseq; [apply boot_log_spec; rewrite ?Hsb; try done|].
  - rewrite Ed. destruct (home_inhabited st) as [m Hm]; [done..|]. by apply (Hcase m).
  - intros [] s (? & ? & ? & ? & ? & ? & Hdev & _). split_and!; [done..|].
    intros m Hm. rewrite Hdev, Hsb. fold st. rewrite (recovered_ext _ _ _ _ Ed). by apply Hcase.
Qed.
End Crash.

(** ** A concrete transaction on the memory disk *)

(** The layout mkfs/mkfs.c gives a 2000-block disk. *)
Definition demo_sb : superblock := Superblock FSMAGIC 2000 1953 200 31 2 33 46.

Definition demo_block : block := replicate (Z.to_nat BSIZE) 7.

(** Boot on an empty disk and, in a system call, read block 100; then change it. *)
Definition demo_open : M (lstate RamDisk.t) nat :=
  boot_log demo_sb ;;; begin_op ;;; tx_bread ROOTDEV 100.

Definition demo_tx : M (lstate RamDisk.t) unit :=
  let* b := demo_open in
  tx_set b demo_block ;;;
  tx_log_write b ;;;
  tx_brelse b.

Definition demo_init : lstate RamDisk.t := Lstate (bcache_bss RamDisk.empty 1) log_bss.

Definition demo_open_post (b : nat) (s : lstate RamDisk.t) : Prop :=
  log_tx_inv s ({[100]} ∪ ∅) ∅ /\ holds (ls_cache s) b 100 /\ lg_start (ls_log s) = 2 /\
  logged (ls_log s) = [] /\ log_open s.

Lemma demo_open_ok : wp demo_open demo_open_post demo_init.
Proof.
  unfold demo_open, demo_init. wp_step.
  eapply wp_conseq; [apply (boot_log_spec RamDisk.empty 1 demo_sb); try done|].
  intros [] [c l] (Htx & Hl & Hst & Hn & Ho & Hc & Hd & _). unfold lh in *. cbn [ls_log ls_cache] in *.
  apply wp_bind. eapply wp_run; [apply begin_op_run; rewrite ?Hn, ?Ho; done|].
  set (l1 := l <| lg_outstanding := lg_outstanding l + 1 |>).
  assert (Hnil : logged l1 = []) by (unfold logged; simpl; by rewrite Hn).
  assert (Hl1 : log_ok l1) by (split; apply Hl).
  eapply wp_conseq; [apply (bread_log c l1 (logged l1) ∅ ∅ 100); [by rewrite Hnil|set_solver|lia|]|].
  { right. rewrite Hnil. apply room_nil; rewrite size_empty; simpl; lia. }
  intros i ? (c' & -> & Htx' & Hh & _). split_and!; try done.
  split; [simpl; rewrite Ho; lia|done].
Qed.

Lemma demo_tx_ok : wp demo_tx (fun _ s => log_tx_inv s ∅ ∅) demo_init.
Proof.
  unfold demo_tx. eapply wp_seq; [exact demo_open_ok|]. intros i s1 (Hi1 & Hh1 & Hst & Hnil & Hopen).
  eapply wp_tx_update with (n := 100) (H := ∅);
    [exact Hi1|apply not_elem_of_empty|done|split; [done|apply bytes_ok_replicate; unfold is_byte; lia]| |exact Hopen| |].
  { simpl. rewrite Hst. unfold home, LOGBLOCKS, MAXOPBLOCKS. lia. }
  { simpl. rewrite Hnil. unfold LOGBLOCKS, MAXOPBLOCKS. simpl. lia. }
  intros s2 Hi2 Hh2 K2 Hu2 Hv2. eapply wp_tx_brelse; [done|apply not_elem_of_empty|done|].
  by intros s3 Hi3 _ _ _.
Qed.

Definition demo : lstate RamDisk.t := final demo_tx demo_init.

Lemma demo_inv : log_tx_inv demo ∅ ∅.
Proof. exact (wp_final _ _ _ demo_tx_ok). Qed.

Lemma demo_logged : logged (ls_log demo) = [100].
Proof. vm_compute. reflexivity. Qed.

(** ** The log's guarantees *)

Section LogTheorems.
Context {D : Type} `{BS : BlockDevSpec D}.

(** C1. Transactions are atomic across crashes.  [commit] of a transaction that logged between one and
    29 blocks returns, and stop the machine after any number of the block writes it issues: on the disk
    as it then is, [binit] and [initlog] return with an empty log and every block outside the log
    area holds its contents from before the transaction if the header block had not been written yet,
    and its contents from the end of the transaction if it had. *)
Theorem commit_atomic (c : bcache D) l sb :
  tx_ok c (logged l) ∅ ∅ -> log_ok l -> 0 < lh_n (lg_lh l) < LOGBLOCKS ->
  sb_logstart sb = lg_start l -> get32 (view c (lg_start l)) 0 = 0 ->
  wp commit (fun _ s => exists T, dev_trace (bc_disk (ls_cache s)) = dev_trace (bc_disk c) ++ T /\
    forall T1 d' pid, T1 `prefix_of` T -> dev_ok d' ->
      (forall m, dev_at d' m = replay (dev_at (bc_disk c)) T1 m) ->
      wp (boot_log sb) (fun _ s' => log_ok (ls_log s') /\ lh_n (lh s') = 0 /\
        forall m, home (lg_start l) m -> dev_at (bc_disk (ls_cache s')) m =
          if decide (length T1 <= length (logged l))%nat then dev_at (bc_disk c) m else view c m)
        (Lstate (bcache_bss d' pid) log_bss)) (Lstate c l).
Proof.
  intros Htx Hl Hn Hsb H0. eapply wp_conseq; [by apply commit_spec|].
  intros [] ? (c' & -> & Htx' & Hio). eexists. split; [apply Hio|].
  intros T1 d' pid HT1 Hd' Ed. by eapply commit_crash.
Qed.

(** C12. Recovery may itself be interrupted any number of times.  For every disk whose log header is well
    formed, [binit] and [initlog] return, and if the machine stops after any number of the block
    writes they issue, recovering from the disk as it then is gives every block outside the log
    area the same contents as the uninterrupted recovery, and again a well-formed header until then. *)
Theorem recovery_idempotent (d : D) pid sb :
  dev_ok d -> 0 <= sb_logstart sb -> sb_logstart sb + LOGBLOCKS < 2 ^ 31 ->
  head_ok (sb_logstart sb) (dev_at d (sb_logstart sb)) ->
  wp (boot_log sb) (fun _ s => exists T, dev_trace (bc_disk (ls_cache s)) = dev_trace d ++ T /\
    forall T1 d' pid', T1 `prefix_of` T -> dev_ok d' ->
      (forall m, dev_at d' m = replay (dev_at d) T1 m) ->
      head_ok (sb_logstart sb) (dev_at d' (sb_logstart sb)) /\
      wp (boot_log sb) (fun _ s' => forall m, home (sb_logstart sb) m ->
          dev_at (bc_disk (ls_cache s')) m = dev_at (bc_disk (ls_cache s)) m)
        (Lstate (bcache_bss d' pid') log_bss)) (Lstate (bcache_bss d pid) log_bss).
Proof.
  intros Hd H0 H1 Hh. eapply wp_conseq; [by apply boot_log_spec|].
  intros [] s (_ & _ & _ & _ & _ & _ & Hdev & Htr). eexists. split; [apply Htr|].
  intros T1 d' pid' HT1 Hd' Ed.
  assert (Hag : forall m, home (sb_logstart sb) m -> head_ok (sb_logstart sb) (replay (dev_at d) T1 (sb_logstart sb)) /\
    recovered (sb_logstart sb) (replay (dev_at d) T1) m = recovered (sb_logstart sb) (dev_at d) m).
  { intros m Hm. apply recover_again; try done. intros x. by apply dev_at_ok. }
  assert (Hh' : head_ok (sb_logstart sb) (dev_at d' (sb_logstart sb))).
  { rewrite Ed. destruct (home_inhabited (sb_logstart sb)) as [m Hm]; [done..|]. by apply (Hag m). }
  split; [done|]. eapply wp_conseq; [by apply boot_log_spec|].
  intros [] s' (_ & _ & _ & _ & _ & _ & Hdev' & _) m Hm. rewrite Hdev', Hdev.
  rewrite (recovered_ext _ (dev_at d') (replay (dev_at d) T1)) by done. by apply Hag.
Qed.

(** C33. A transaction is durable when its last system call ends.  [end_op] of the last outstanding
    operation returns with the log empty, no operation outstanding and the commit flag down; every
    block outside the log area reads back as the transaction left it and the disk holds the same
    contents as the cache. *)
Theorem end_op_durable (c : bcache D) l :
  tx_ok c (logged l) ∅ ∅ -> log_ok l -> lh_n (lg_lh l) < LOGBLOCKS ->
  lg_committing l = false -> lg_outstanding l = 1 ->
  wp end_op (fun _ s => log_ok (ls_log s) /\ lh_n (lh s) = 0 /\ lg_outstanding (ls_log s) = 0 /\
    lg_committing (ls_log s) = false /\ tx_ok (ls_cache s) [] ∅ ∅ /\
    forall m, home (lg_start l) m ->
      view (ls_cache s) m = view c m /\ dev_at (bc_disk (ls_cache s)) m = view c m) (Lstate c l).
Proof.
  intros Htx Hl Hn Hc Ho. eapply wp_conseq; [by apply end_op_commit|].
  intros [] s (Htx' & Hl' & Hnil & _ & Ho' & Hc' & Hio).
  assert (Hv : forall m, home (lg_start l) m -> view (ls_cache s) m = view c m).
  { intros m Hm. rewrite (io_view _ _ _ Hio). case_decide; [done|].
    rewrite commit_trace_home; [by case_decide|done|].
    rewrite (length_logged l Hl). unfold LOGBLOCKS, MAXOPBLOCKS in Hn. lia. }
  split_and!; try done.
  - pose proof (length_logged _ Hl') as E. rewrite Hnil in E. pose proof (lo_n _ Hl').
    unfold lh. simpl in E. lia.
  - intros m Hm. split; [by apply Hv|]. rewrite <-(tx_settled _ m Htx'). by apply Hv.
Qed.

(** [log_write] absorbs repeated writes.  Inside a transaction with room in the log, logging a
    held block that is outside the log area returns; the list of logged block numbers gains the
    block at its end if it was not there and is unchanged otherwise, so it never has duplicates;
    the buffer is pinned exactly while it is on the list, and nothing is written to the disk. *)
Theorem log_write_absorbs (c : bcache D) l H Y i n :
  tx_ok c (logged l) H Y -> log_ok l -> lh_n (lg_lh l) < LOGBLOCKS -> 1 <= lg_outstanding l ->
  holds c i n -> home (lg_start l) n ->
  wp (log_write i) (fun _ s =>
    logged (ls_log s) = (if decide (n ∈ logged l) then logged l else logged l ++ [n]) /\
    NoDup (logged (ls_log s)) /\
    (forall m, refs (ls_cache s) m = b2z (bool_decide (m ∈ logged (ls_log s))) + b2z (bool_decide (m ∈ H))) /\
    (forall m, view (ls_cache s) m = view c m) /\
    dev_trace (bc_disk (ls_cache s)) = dev_trace (bc_disk c)) (Lstate c l).
Proof.
  intros Htx Hl Hn Ho Hh Hhome. eapply wp_conseq; [by eapply log_write_spec|].
  intros [] ? (c' & h & -> & El & Hl' & Htx' & Hh' & K & Hio). cbn [ls_log ls_cache].
  assert (E : logged (l <| lg_lh := h |>) = logged_add (logged l) n) by exact El. rewrite !E.
  split_and!; [done|apply Htx'|apply Htx'|intros m; by apply io_nil_view|].
  by rewrite (io_trace _ _ _ Hio), app_nil_r.
Qed.
End LogTheorems.

(** *** The hypotheses hold of the concrete transaction *)

Lemma demo_n : lh_n (lg_lh (ls_log demo)) = 1.
Proof. vm_compute. reflexivity. Qed.
Lemma demo_outstanding : lg_outstanding (ls_log demo) = 1.
Proof. vm_compute. reflexivity. Qed.
Lemma demo_committing : lg_committing (ls_log demo) = false.
Proof. vm_compute. reflexivity. Qed.
Lemma demo_start : lg_start (ls_log demo) = 2.
Proof. vm_compute. reflexivity. Qed.
Lemma demo_head : get32 (view (ls_cache demo) (lg_start (ls_log demo))) 0 = 0.
Proof. vm_compute. reflexivity. Qed.
Lemma demo_view : view (ls_cache demo) 100 = demo_block.
Proof. vm_compute. reflexivity. Qed.

Lemma demo_tx_inv : tx_ok (ls_cache demo) (logged (ls_log demo)) ∅ ∅.
Proof. apply demo_inv. Qed.
Lemma demo_log_ok : log_ok (ls_log demo).
Proof. apply demo_inv. Qed.

(** Committing the change of block 100 and crashing anywhere: the block is [demo_block] or zero. *)
Lemma commit_atomic_witness :
  wp commit (fun _ s => exists T,
    dev_trace (bc_disk (ls_cache s)) = dev_trace (bc_disk (ls_cache demo)) ++ T /\
    forall T1 d' pid, T1 `prefix_of` T -> dev_ok d' ->
      (forall m, dev_at d' m = replay (dev_at (bc_disk (ls_cache demo))) T1 m) ->
      wp (boot_log demo_sb) (fun _ s' =>
        dev_at (bc_disk (ls_cache s')) 100 = demo_block \/
        dev_at (bc_disk (ls_cache s')) 100 = dev_at (bc_disk (ls_cache demo)) 100)
        (Lstate (bcache_bss d' pid) log_bss)) (Lstate (ls_cache demo) (ls_log demo)).
Proof.
  eapply wp_conseq; [apply (commit_atomic (ls_cache demo) (ls_log demo) demo_sb)|].
  - exact demo_tx_inv.
  - exact demo_log_ok.
  - rewrite demo_n. done.
  - rewrite demo_start. done.
  - exact demo_head.
  - intros [] s (T & Htr & HT). exists T. split; [exact Htr|].
    intros T1 d' pid HT1 Hd' Ed. eapply wp_conseq; [apply (HT T1 d' pid HT1 Hd' Ed)|].
    intros [] s' (_ & _ & Hm). rewrite (Hm 100).
    + destruct (decide _); [by right|left; exact demo_view].
    + rewrite demo_start. unfold home, LOGBLOCKS, MAXOPBLOCKS. lia.
Defined.

Lemma recovery_idempotent_witness :
  wp (boot_log demo_sb) (fun _ s => exists T,
    dev_trace (bc_disk (ls_cache s)) = dev_trace RamDisk.empty ++ T /\
    forall T1 d' pid', T1 `prefix_of` T -> dev_ok d' ->
      (forall m, dev_at d' m = replay (dev_at RamDisk.empty) T1 m) ->
      head_ok 2 (dev_at d' 2) /\
      wp (boot_log demo_sb) (fun _ s' => forall m, home 2 m ->
          dev_at (bc_disk (ls_cache s')) m = dev_at (bc_disk (ls_cache s)) m)
        (Lstate (bcache_bss d' pid') log_bss)) demo_init.
Proof.
  apply (recovery_idempotent RamDisk.empty 1 demo_sb); done.
Defined.

Lemma end_op_durable_witness :
  wp end_op (fun _ s => lh_n (lh s) = 0 /\ dev_at (bc_disk (ls_cache s)) 100 = demo_block)
    (Lstate (ls_cache demo) (ls_log demo)).
Proof.
  eapply wp_conseq; [apply (end_op_durable (ls_cache demo) (ls_log demo))|].
  - exact demo_tx_inv.
  - exact demo_log_ok.
  - rewrite demo_n. done.
  - exact demo_committing.
  - exact demo_outstanding.
  - intros [] s (_ & Hn & _ & _ & _ & Hm). split; [done|].
    destruct (Hm 100) as [_ ->]; [|exact demo_view].
    rewrite demo_start. unfold home, LOGBLOCKS, MAXOPBLOCKS. lia.
Defined.

(** Logging block 100, just read in a fresh transaction, puts it first on the list. *)
Lemma log_write_absorbs_witness :
  wp demo_open (fun b => wp (log_write b) (fun _ s => logged (ls_log s) = [100])) demo_init.
Proof.
  eapply wp_conseq; [exact demo_open_ok|]. intros b [c l] ((Htx & Hl) & Hh & Hst & Hnil & Ho & _).
  cbn [ls_log ls_cache] in *.
  assert (En : lh_n (lg_lh l) = 0).
  { pose proof (length_logged l Hl) as E. pose proof (lo_n _ Hl). rewrite Hnil in E. simpl in E. lia. }
  eapply wp_conseq; [apply (log_write_absorbs c l ({[100]} ∪ ∅) ∅ b 100)|].
  - exact Htx.
  - exact Hl.
  - rewrite En. done.
  - rewrite Ho. lia.
  - exact Hh.
  - rewrite Hst. unfold home, LOGBLOCKS, MAXOPBLOCKS. lia.
  - intros [] s (E & _). rewrite E, Hnil. done.
Defined.
