(* ===== verification/Fs.v ===== *)
(** The file system, kernel/fs.c: block allocator, inodes, file contents,
    directories and path names, over the transaction interface of Tx.v.

    The state is the transaction store, the superblock, the in-memory inode
    table and the memory of the running process.  [itable.lock] makes each
    scan of the table one atomic step; the sleep-lock of every inode is kept.
    An inode pointer is the index of its table entry; [None] is the null
    pointer.  A path or a name is the list of bytes behind the pointer, and
    reading past its end gives the terminating NUL.  [printf] is left out. *)

From S2P Require Import Prelude Bytes Params Disk Sleeplock CString Tx.

(** kernel/file.h:17-30 *)
Record inode := Inode {
  i_dev : Z;
  i_inum : Z;
  i_ref : Z;
  i_lock : sleeplock;
  i_valid : bool;
  i_type : Z;
  i_major : Z;
  i_minor : Z;
  i_nlink : Z;
  i_size : Z;
  i_addrs : list Z }.
#[export] Instance eta_inode : Eta inode := fun i =>
  Inode (i_dev i) (i_inum i) (i_ref i) (i_lock i) (i_valid i) (i_type i) (i_major i)
        (i_minor i) (i_nlink i) (i_size i) (i_addrs i).

Definition inode0 : inode :=
  Inode 0 0 0 (Sleeplock false 0) false 0 0 0 0 0 (replicate (Z.to_nat (NDIRECT + 1)) 0).

(** kernel/stat.h:5-11 *)
Record stat := Stat { st_dev : Z; st_ino : Z; st_type : Z; st_nlink : Z; st_size : Z }.

(** kernel/fs.h:32-39 *)
Record dinode := Dinode {
  di_type : Z;
  di_major : Z;
  di_minor : Z;
  di_nlink : Z;
  di_size : Z;
  di_addrs : list Z }.

(** The layout of [struct dinode] in a block: four shorts, the size and the addresses. *)
Definition get_addrs (d : block) (off : Z) : list Z :=
  map (fun k => get32 d (off + 4 * Z.of_nat k)) (seq 0 (Z.to_nat (NDIRECT + 1))).
Definition get_dinode (d : block) (off : Z) : dinode :=
  Dinode (s16 (get16 d off)) (s16 (get16 d (off + 2))) (s16 (get16 d (off + 4)))
         (s16 (get16 d (off + 6))) (get32 d (off + 8)) (get_addrs d (off + 12)).
Definition put_addrs (d : block) (off : Z) (l : list Z) : block :=
  splice d off (concat (map (le_bytes 4) l)).
Definition put_dinode (d : block) (off : Z) (di : dinode) : block :=
  put_addrs (put32 (put16 (put16 (put16 (put16 d
    off (di_type di)) (off + 2) (di_major di)) (off + 4) (di_minor di)) (off + 6) (di_nlink di))
    (off + 8) (di_size di)) (off + 12) (di_addrs di).

(** The memory of the process on whose behalf the file system runs
    ([copyout] and [copyin] of kernel/vm.c): copy out bytes to a virtual
    address; copy in bytes from one, with the bytes that arrived and the result. *)
Class UserMem (U : Type) := {
  um_copyout : Z -> list Z -> M U Z;
  um_copyin : Z -> Z -> M U (list Z * Z) }.

(** The [user_dst]/[dst] and [user_src]/[src] argument pairs.  Bytes that go to a
    kernel buffer are returned to the caller. *)
Inductive kdst := DKernel | DUser (va : Z).
Inductive ksrc := SKernel (l : list Z) | SUser (va : Z).

Section Fs.
Context {X U : Type} `{TO : TxOps X} `{UM : UserMem U}.

Record fsys := Fsys { f_tx : X; f_sb : superblock; f_ino : list inode; f_um : U }.
#[export] Instance eta_fsys : Eta fsys := fun s => Fsys (f_tx s) (f_sb s) (f_ino s) (f_um s).

Definition lifttx {A} (m : M X A) : M fsys A := zoom f_tx (fun t s => s <| f_tx := t |>) m.
Definition liftum {A} (m : M U A) : M fsys A := zoom f_um (fun u s => s <| f_um := u |>) m.

Definition inoat (s : fsys) (ip : nat) : inode := nth ip (f_ino s) inode0.
Definition setino (ip : nat) (f : inode -> inode) (s : fsys) : fsys :=
  s <| f_ino := <[ip := f (inoat s ip)]> (f_ino s) |>.
Definition on_ilock {A} (ip : nat) (m : M sleeplock A) : M fsys A :=
  zoom (fun s => i_lock (inoat s ip)) (fun lk => setino ip (fun i => i <| i_lock := lk |>)) m.
Definition ichan (ip : nat) : chan := ChSleeplock (NBUF + Z.of_nat ip).

Definition bread_ (dev n : Z) : M fsys nat := lifttx (tx_bread dev n).
Definition data_ (bp : nat) : M fsys block := lifttx (tx_data bp).
Definition set_ (bp : nat) (d : block) : M fsys unit := lifttx (tx_set bp d).
Definition log_write_ (bp : nat) : M fsys unit := lifttx (tx_log_write bp).
Definition brelse_ (bp : nat) : M fsys unit := lifttx (tx_brelse bp).

(** *** Blocks *)

(** kernel/fs.c:30-38 *)
Definition readsb (dev : Z) : M fsys unit :=
  let* bp := bread_ dev 1 in
  let* d := data_ bp in
  modify (fun s => s <| f_sb := Superblock (get32 d 0) (get32 d 4) (get32 d 8) (get32 d 12)
                                           (get32 d 16) (get32 d 20) (get32 d 24) (get32 d 28) |>) ;;;
  brelse_ bp.

(** kernel/fs.c:51-60 *)
Definition bzero (dev bno : Z) : M fsys unit :=
  let* bp := bread_ dev (u32 bno) in
  set_ bp zero_block ;;;
  log_write_ bp ;;;
  brelse_ bp.

(** [m = 1 << (bi % 8)] and the test of bit [bi] of a bitmap block. *)
Definition bitmask (bi : Z) : Z := Z.shiftl 1 (bi mod 8).
Definition bit_clear (d : block) (bi : Z) : bool := Z.land (aget d (bi / 8)) (bitmask bi) =? 0.

(** The inner loop of [balloc], kernel/fs.c:75-77: the first free bit of this bitmap block. *)
Fixpoint free_bit (d : block) (b size bi : Z) (n : nat) : option Z :=
  match n with
  | O => None
  | S n' =>
      if b + bi <? size then
        if bit_clear d bi then Some bi else free_bit d b size (bi + 1) n'
      else None
  end.

(** kernel/fs.c:66-89 *)
Definition balloc (dev : Z) : M fsys Z :=
  let* s := get in
  let size := sb_size (f_sb s) in
  let* r := floop (fun k =>
    let b := k * BPB in
    let* bp := bread_ dev (BBLOCK b (f_sb s)) in
    let* d := data_ bp in
    match free_bit d b size 0 (Z.to_nat BPB) with
    | Some bi =>
        set_ bp (aset d (bi / 8) (Z.lor (aget d (bi / 8)) (bitmask bi))) ;;;
        log_write_ bp ;;;
        brelse_ bp ;;;
        bzero dev (b + bi) ;;;
        ret (Some (u32 (b + bi)))
    | None => brelse_ bp ;;; ret None
    end) 0 (Z.to_nat ((size + BPB - 1) / BPB)) in
  ret (default 0 r).

(** kernel/fs.c:92-106 *)
Definition bfree (dev b : Z) : M fsys unit :=
  let* s := get in
  let* bp := bread_ dev (BBLOCK b (f_sb s)) in
  let bi := b mod BPB in
  let* d := data_ bp in
  if bit_clear d bi then panic "freeing free block"
  else
    set_ bp (aset d (bi / 8) (Z.land (aget d (bi / 8)) (u8 (Z.lnot (bitmask bi))))) ;;;
    log_write_ bp ;;;
    brelse_ bp.

(** *** Inodes *)

(** kernel/fs.c:182-191 *)
Definition iinit : M fsys unit :=
  each (fun i => on_ilock (Z.to_nat i) initsleeplock) 0 (Z.to_nat NINODE).

(** The loop of [iget], kernel/fs.c:254-264: the entry in use for [(dev, inum)], and the first empty one. *)
Fixpoint iget_scan (l : list inode) (dev inum : Z) (k : nat) (empty : option nat) : (nat + option nat) :=
  match l with
  | [] => inr empty
  | ip :: l' =>
      if (0 <? i_ref ip) && (i_dev ip =? dev) && (i_inum ip =? inum) then inl k
      else
        let empty := match empty with
                     | None => if i_ref ip =? 0 then Some k else None
                     | Some e => Some e
                     end in
        iget_scan l' dev inum (S k) empty
  end.

(** kernel/fs.c:247-278 *)
Definition iget (dev inum : Z) : M fsys nat :=
  let* s := get in
  match iget_scan (f_ino s) dev inum 0 None with
  | inl ip => modify (setino ip (fun i => i <| i_ref := i_ref i + 1 |>)) ;;; ret ip
  | inr None => panic "iget: no inodes"
  | inr (Some ip) =>
      modify (setino ip (fun i => i <| i_dev := dev |> <| i_inum := inum |>
                                    <| i_ref := 1 |> <| i_valid := false |>)) ;;;
      ret ip
  end.

(** The offset of inode [inum] in its block. *)
Definition ioff (inum : Z) : Z := (inum mod IPB) * DINODE_SIZE.

(** kernel/fs.c:199-220 *)
Definition ialloc (dev type : Z) : M fsys (option nat) :=
  let* s := get in
  floop (fun inum =>
    let* bp := bread_ dev (IBLOCK inum (f_sb s)) in
    let* d := data_ bp in
    if di_type (get_dinode d (ioff inum)) =? 0 then
      set_ bp (put16 (splice d (ioff inum) (replicate (Z.to_nat DINODE_SIZE) 0)) (ioff inum) type) ;;;
      log_write_ bp ;;;
      brelse_ bp ;;;
      let* ip := iget dev inum in
      ret (Some ip)
    else brelse_ bp ;;; ret None) 1 (Z.to_nat (sb_ninodes (f_sb s) - 1)).

(** kernel/fs.c:226-242 *)
Definition iupdate (ip : nat) : M fsys unit :=
  let* s := get in
  let i := inoat s ip in
  let* bp := bread_ (i_dev i) (IBLOCK (i_inum i) (f_sb s)) in
  let* d := data_ bp in
  set_ bp (put_dinode d (ioff (i_inum i))
    (Dinode (i_type i) (i_major i) (i_minor i) (i_nlink i) (i_size i) (i_addrs i))) ;;;
  log_write_ bp ;;;
  brelse_ bp.

(** kernel/fs.c:282-289 *)
Definition idup (ip : nat) : M fsys nat :=
  modify (setino ip (fun i => i <| i_ref := i_ref i + 1 |>)) ;;; ret ip.

(** kernel/fs.c:293-318 *)
Definition ilock (ip : option nat) : M fsys unit :=
  let* s := get in
  match ip with
  | None => panic "ilock"
  | Some ip =>
      if i_ref (inoat s ip) <? 1 then panic "ilock"
      else
        on_ilock ip (acquiresleep (ichan ip) (tx_pid (f_tx s))) ;;;
        let* s := get in
        let i := inoat s ip in
        if i_valid i then ret tt
        else
          let* bp := bread_ (i_dev i) (IBLOCK (i_inum i) (f_sb s)) in
          let* d := data_ bp in
          let di := get_dinode d (ioff (i_inum i)) in
          modify (setino ip (fun i => i <| i_type := di_type di |> <| i_major := di_major di |>
            <| i_minor := di_minor di |> <| i_nlink := di_nlink di |> <| i_size := di_size di |>
            <| i_addrs := di_addrs di |>)) ;;;
          brelse_ bp ;;;
          modify (setino ip (fun i => i <| i_valid := true |>)) ;;;
          if di_type di =? 0 then panic "ilock: no type" else ret tt
  end.

(** kernel/fs.c:321-328 *)
Definition iunlock (ip : option nat) : M fsys unit :=
  let* s := get in
  match ip with
  | None => panic "iunlock"
  | Some ip =>
      let* h := on_ilock ip (holdingsleep (tx_pid (f_tx s))) in
      if negb h || (i_ref (inoat s ip) <? 1) then panic "iunlock"
      else on_ilock ip releasesleep
  end.

(** *** Inode content *)

(** kernel/fs.c:405-444 *)
Definition bmap (ip : nat) (bn : Z) : M fsys Z :=
  let* s := get in
  let i := inoat s ip in
  if bn <? NDIRECT then
    let addr := aget (i_addrs i) bn in
    if addr =? 0 then
      let* addr := balloc (i_dev i) in
      if addr =? 0 then ret 0
      else
        modify (setino ip (fun i => i <| i_addrs := aset (i_addrs i) bn addr |>)) ;;;
        ret addr
    else ret addr
  else
    let bn := bn - NDIRECT in
    if bn <? NINDIRECT then
      let* iaddr :=
        (let addr := aget (i_addrs i) NDIRECT in
         if addr =? 0 then
           let* addr := balloc (i_dev i) in
           if addr =? 0 then ret 0
           else
             modify (setino ip (fun i => i <| i_addrs := aset (i_addrs i) NDIRECT addr |>)) ;;;
             ret addr
         else ret addr) in
      if iaddr =? 0 then ret 0
      else
        let* bp := bread_ (i_dev i) iaddr in
        let* a := data_ bp in
        let addr := get32 a (4 * bn) in
        let* addr :=
          (if addr =? 0 then
             let* addr := balloc (i_dev i) in
             (if addr =? 0 then ret tt
              else set_ bp (put32 a (4 * bn) addr) ;;; log_write_ bp) ;;;
             ret addr
           else ret addr) in
        brelse_ bp ;;;
        ret addr
    else panic "bmap: out of range".

(** kernel/fs.c:448-476 *)
Definition itrunc (ip : nat) : M fsys unit :=
  each (fun k =>
    let* s := get in
    let i := inoat s ip in
    if aget (i_addrs i) k =? 0 then ret tt
    else
      bfree (i_dev i) (aget (i_addrs i) k) ;;;
      modify (setino ip (fun i => i <| i_addrs := aset (i_addrs i) k 0 |>))) 0 (Z.to_nat NDIRECT) ;;;
  let* s := get in
  let i := inoat s ip in
  (if aget (i_addrs i) NDIRECT =? 0 then ret tt
   else
     let* bp := bread_ (i_dev i) (aget (i_addrs i) NDIRECT) in
     each (fun j =>
       let* a := data_ bp in
       if get32 a (4 * j) =? 0 then ret tt else bfree (i_dev i) (get32 a (4 * j)))
       0 (Z.to_nat NINDIRECT) ;;;
     brelse_ bp ;;;
     bfree (i_dev i) (aget (i_addrs i) NDIRECT) ;;;
     modify (setino ip (fun i => i <| i_addrs := aset (i_addrs i) NDIRECT 0 |>))) ;;;
  modify (setino ip (fun i => i <| i_size := 0 |>)) ;;;
  iupdate ip.

(** kernel/fs.c:337-363 *)
Definition iput (ip : nat) : M fsys unit :=
  let* s := get in
  let i := inoat s ip in
  (if (i_ref i =? 1) && i_valid i && (i_nlink i =? 0) then
     on_ilock ip (acquiresleep (ichan ip) (tx_pid (f_tx s))) ;;;
     itrunc ip ;;;
     modify (setino ip (fun i => i <| i_type := 0 |>)) ;;;
     iupdate ip ;;;
     modify (setino ip (fun i => i <| i_valid := false |>)) ;;;
     on_ilock ip releasesleep
   else ret tt) ;;;
  modify (setino ip (fun i => i <| i_ref := i_ref i - 1 |>)).

(** kernel/fs.c:366-371 *)
Definition iunlockput (ip : nat) : M fsys unit :=
  iunlock (Some ip) ;;; iput ip.

(** kernel/fs.c:373-393 *)
Definition ireclaim (dev : Z) : M fsys unit :=
  let* s := get in
  each (fun inum =>
    let* bp := bread_ dev (IBLOCK inum (f_sb s)) in
    let* d := data_ bp in
    let dip := get_dinode d (ioff inum) in
    let* ip := (if negb (di_type dip =? 0) && (di_nlink dip =? 0) then
                  let* ip := iget dev inum in ret (Some ip)
                else ret None) in
    brelse_ bp ;;;
    match ip with
    | None => ret tt
    | Some p =>
        lifttx tx_begin_op ;;;
        ilock ip ;;;
        iunlock ip ;;;
        iput p ;;;
        lifttx tx_end_op
    end) 1 (Z.to_nat (sb_ninodes (f_sb s) - 1)).

(** kernel/fs.c:41-48 *)
Definition fsinit (dev : Z) : M fsys unit :=
  readsb dev ;;;
  let* s := get in
  if negb (sb_magic (f_sb s) =? FSMAGIC) then panic "invalid file system"
  else
    lifttx (tx_initlog dev (f_sb s)) ;;;
    ireclaim dev.

(** kernel/fs.c:480-488 *)
Definition stati (ip : nat) : M fsys stat :=
  gets (fun s => let i := inoat s ip in
    Stat (i_dev i) (i_inum i) (i_type i) (i_nlink i) (i_size i)).

(** [either_copyout(user_dst, dst + tot, src, len)], kernel/proc.c:632-642; [out] collects
    what has been stored in a kernel buffer. *)
Definition either_copyout (dst : kdst) (tot : Z) (src out : list Z) : M fsys (Z * list Z) :=
  match dst with
  | DUser va => let* r := liftum (um_copyout (u64 (va + tot)) src) in ret (r, out)
  | DKernel => ret (0, out ++ src)
  end.

(** [either_copyin(dst, user_src, src + tot, len)], kernel/proc.c:647-657: the bytes that
    arrive at [dst], and the result. *)
Definition either_copyin (src : ksrc) (tot len : Z) : M fsys (list Z * Z) :=
  match src with
  | SUser va => liftum (um_copyin (u64 (va + tot)) len)
  | SKernel l => ret (slice l tot len, 0)
  end.

(** The loop of [readi], kernel/fs.c:505-518. *)
Fixpoint readi_loop (fuel : nat) (ip : nat) (dst : kdst) (n tot off : Z) (out : list Z)
    : M fsys (Z * list Z) :=
  match fuel with
  | O => nofuel
  | S fuel' =>
      if tot <? n then
        let* addr := bmap ip (off / BSIZE) in
        if addr =? 0 then ret (s32 tot, out)
        else
          let* s := get in
          let* bp := bread_ (i_dev (inoat s ip)) addr in
          let m := Z.min (u32 (n - tot)) (BSIZE - off mod BSIZE) in
          let* d := data_ bp in
          let* ' (r, out') := either_copyout dst tot (slice d (off mod BSIZE) m) out in
          if r =? -1 then brelse_ bp ;;; ret (-1, out')
          else
            brelse_ bp ;;;
            readi_loop fuel' ip dst n (u32 (tot + m)) (u32 (off + m)) out'
      else ret (s32 tot, out)
  end.

(** kernel/fs.c:494-519: the result and the bytes stored at a kernel destination. *)
Definition readi (ip : nat) (dst : kdst) (off n : Z) : M fsys (Z * list Z) :=
  let* s := get in
  let size := i_size (inoat s ip) in
  if (size <? off) || (u32 (off + n) <? off) then ret (0, [])
  else
    let n := if size <? u32 (off + n) then u32 (size - off) else n in
    readi_loop (Z.to_nat (n / BSIZE + 3)) ip dst n 0 off [].

(** The loop of [writei], kernel/fs.c:539-551: the final [tot] and [off]. *)
Fixpoint writei_loop (fuel : nat) (ip : nat) (src : ksrc) (n tot off : Z) : M fsys (Z * Z) :=
  match fuel with
  | O => nofuel
  | S fuel' =>
      if tot <? n then
        let* addr := bmap ip (off / BSIZE) in
        if addr =? 0 then ret (tot, off)
        else
          let* s := get in
          let* bp := bread_ (i_dev (inoat s ip)) addr in
          let m := Z.min (u32 (n - tot)) (BSIZE - off mod BSIZE) in
          let* d := data_ bp in
          let* ' (bytes, r) := either_copyin src tot m in
          set_ bp (splice d (off mod BSIZE) bytes) ;;;
          if r =? -1 then brelse_ bp ;;; ret (tot, off)
          else
            log_write_ bp ;;;
            brelse_ bp ;;;
            writei_loop fuel' ip src n (u32 (tot + m)) (u32 (off + m))
      else ret (tot, off)
  end.

(** kernel/fs.c:528-562 *)
Definition writei (ip : nat) (src : ksrc) (off n : Z) : M fsys Z :=
  let* s := get in
  let size := i_size (inoat s ip) in
  if (size <? off) || (u32 (off + n) <? off) then ret (-1)
  else if MAXFILE * BSIZE <? u32 (off + n) then ret (-1)
  else
    let* ' (tot, off') := writei_loop (Z.to_nat (n / BSIZE + 3)) ip src n 0 off in
    let* s := get in
    (if i_size (inoat s ip) <? off' then modify (setino ip (fun i => i <| i_size := off' |>))
     else ret tt) ;;;
    iupdate ip ;;;
    ret (s32 tot).

(** *** Directories *)

(** kernel/fs.c:566-570 *)
Definition namecmp (s t : list Z) : Z := strncmp (arr s) (arr t) DIRSIZ.

(** [struct dirent] as bytes, kernel/fs.h:58-61. *)
Definition de_inum (de : list Z) : Z := get16 de 0.
Definition de_name (de : list Z) : list Z := slice de 2 DIRSIZ.

(** The loop of [dirlookup], kernel/fs.c:583-595. *)
Fixpoint dirlookup_loop (fuel : nat) (dp : nat) (name : list Z) (off : Z) : M fsys (option (nat * Z)) :=
  match fuel with
  | O => nofuel
  | S fuel' =>
      let* s := get in
      if off <? i_size (inoat s dp) then
        let* ' (r, de) := readi dp DKernel off DIRENT_SIZE in
        if negb (r =? DIRENT_SIZE) then panic "dirlookup read"
        else if de_inum de =? 0 then dirlookup_loop fuel' dp name (u32 (off + DIRENT_SIZE))
        else if namecmp name (de_name de) =? 0 then
          let* s := get in
          let* ip := iget (i_dev (inoat s dp)) (de_inum de) in
          ret (Some (ip, off))
        else dirlookup_loop fuel' dp name (u32 (off + DIRENT_SIZE))
      else ret None
  end.

(** kernel/fs.c:574-598: the inode and the value stored in [*poff]. *)
Definition dirlookup (dp : nat) (name : list Z) : M fsys (option (nat * Z)) :=
  let* s := get in
  if negb (i_type (inoat s dp) =? T_DIR) then panic "dirlookup not DIR"
  else dirlookup_loop (Z.to_nat (i_size (inoat s dp) / DIRENT_SIZE + 2)) dp name 0.

(** The search for an empty entry, kernel/fs.c:616-621: its offset, or the end of the directory. *)
Fixpoint dirlink_loop (fuel : nat) (dp : nat) (off : Z) : M fsys Z :=
  match fuel with
  | O => nofuel
  | S fuel' =>
      let* s := get in
      if off <? i_size (inoat s dp) then
        let* ' (r, de) := readi dp DKernel off DIRENT_SIZE in
        if negb (r =? DIRENT_SIZE) then panic "dirlink read"
        else if de_inum de =? 0 then ret off
        else dirlink_loop fuel' dp (off + DIRENT_SIZE)
      else ret off
  end.

(** [strncpy(de.name, name, DIRSIZ)], kernel/fs.c:623: the name cut or padded with NULs to 14 bytes. *)
Fixpoint strncpy_list (t : Z -> Z) (i : Z) (n : nat) : list Z :=
  match n with
  | O => []
  | S n' => if t i =? 0 then replicate (S n') 0 else t i :: strncpy_list t (i + 1) n'
  end.

(** kernel/fs.c:602-629 *)
Definition dirlink (dp : nat) (name : list Z) (inum : Z) : M fsys Z :=
  let* r := dirlookup dp name in
  match r with
  | Some (ip, _) => iput ip ;;; ret (-1)
  | None =>
      let* s := get in
      let* off := dirlink_loop (Z.to_nat (i_size (inoat s dp) / DIRENT_SIZE + 2)) dp 0 in
      let de := le_bytes 2 inum ++ strncpy_list (arr name) 0 (Z.to_nat DIRSIZ) in
      let* r := writei dp (SKernel de) off DIRENT_SIZE in
      if negb (r =? DIRENT_SIZE) then ret (-1) else ret 0
  end.

(** *** Paths *)

Definition SLASH : Z := 47.

(** Skip leading slashes, kernel/fs.c:651-652. *)
Fixpoint skip_slashes (path : list Z) : list Z :=
  match path with
  | c :: path' => if c =? SLASH then skip_slashes path' else path
  | [] => []
  end.

(** Advance to the next slash or NUL, kernel/fs.c:656-657: the element passed over and the rest. *)
Fixpoint path_elem (path : list Z) : list Z * list Z :=
  match path with
  | c :: path' =>
      if (c =? SLASH) || (c =? 0) then ([], path)
      else let (e, r) := path_elem path' in (c :: e, r)
  | [] => ([], [])
  end.

(** kernel/fs.c:645-668: the rest of the path and the new contents of [name]. *)
Definition skipelem (path name : list Z) : option (list Z * list Z) :=
  let path := skip_slashes path in
  if hd 0 path =? 0 then None
  else
    let (s, path) := path_elem path in
    let len := Z.of_nat (length s) in
    let name := if DIRSIZ <=? len then splice name 0 (slice s 0 DIRSIZ)
                else aset (splice name 0 s) len 0 in
    Some (skip_slashes path, name).

(** The loop of [namex], kernel/fs.c:684-706. *)
Fixpoint namex_loop (fuel : nat) (ip : nat) (path : list Z) (nameiparent : bool) (name : list Z)
    : M fsys (option nat * list Z) :=
  match fuel with
  | O => nofuel
  | S fuel' =>
      match skipelem path name with
      | Some (path, name) =>
          ilock (Some ip) ;;;
          let* s := get in
          if negb (i_type (inoat s ip) =? T_DIR) then iunlockput ip ;;; ret (None, name)
          else if nameiparent && (hd 0 path =? 0) then iunlock (Some ip) ;;; ret (Some ip, name)
          else
            let* r := dirlookup ip name in
            match r with
            | None => iunlockput ip ;;; ret (None, name)
            | Some (next, _) => iunlockput ip ;;; namex_loop fuel' next path nameiparent name
            end
      | None =>
          if nameiparent then iput ip ;;; ret (None, name)
          else ret (Some ip, name)
      end
  end.

(** kernel/fs.c:674-707: the inode and the contents of [name]; [cwd] is [myproc()->cwd]. *)
Definition namex (cwd : nat) (path : list Z) (nameiparent : bool) (name : list Z)
    : M fsys (option nat * list Z) :=
  let* ip := (if hd 0 path =? SLASH then iget ROOTDEV ROOTINO else idup cwd) in
  namex_loop (S (length path)) ip path nameiparent name.

(** kernel/fs.c:709-714 *)
Definition namei (cwd : nat) (path : list Z) : M fsys (option nat) :=
  let* ' (ip, _) := namex cwd path false (replicate (Z.to_nat DIRSIZ) 0) in
  ret ip.

(** kernel/fs.c:716-720 *)
Definition nameiparent (cwd : nat) (path name : list Z) : M fsys (option nat * list Z) :=
  namex cwd path true name.
End Fs.
Arguments fsys X U : clear implicits.
