(* ===== verification/FsBlocks.v ===== *)
(** The block allocator of kernel/fs.c: the free bitmap, [bzero], [balloc] and
    [bfree], proved against the transaction interface. *)

From S2P Require Import Prelude Bytes Params Disk Sleeplock CString Tx Fs.

(** ** Bits of a bitmap block *)

Lemma land_pow2 a k : 0 <= k -> Z.land a (Z.shiftl 1 k) = 0 <-> Z.testbit a k = false.
Proof.
  intros Hk. rewrite Z.shiftl_1_l. split.
  - intros E. assert (Z.testbit (Z.land a (2 ^ k)) k = false) as T by (by rewrite E, Z.bits_0).
    rewrite Z.land_spec, Z.pow2_bits_true, andb_true_r in T by done. done.
  - intros E. apply Z.bits_inj'. intros n Hn. rewrite Z.land_spec, Z.bits_0.
    destruct (decide (n = k)) as [->|]; [by rewrite E|].
    by rewrite Z.pow2_bits_false, andb_false_r by lia.
Qed.

Lemma bit_clear_testbit d bi : bit_clear d bi = negb (Z.testbit (aget d (bi / 8)) (bi mod 8)).
Proof.
  unfold bit_clear, bitmask. destruct (Z.eqb_spec (Z.land (aget d (bi / 8)) (Z.shiftl 1 (bi mod 8))) 0) as [E|E].
  - apply land_pow2 in E; [|lia]. by rewrite E.
  - destruct (Z.testbit _ _) eqn:T; [done|]. exfalso. apply E. by apply land_pow2; [lia|].
Qed.

Definition set_bit (d : block) (bi : Z) : block :=
  aset d (bi / 8) (Z.lor (aget d (bi / 8)) (bitmask bi)).
Definition clear_bit (d : block) (bi : Z) : block :=
  aset d (bi / 8) (Z.land (aget d (bi / 8)) (u8 (Z.lnot (bitmask bi)))).

Lemma bitmask_testbit bi k : 0 <= k -> Z.testbit (bitmask bi) k = bool_decide (k = bi mod 8).
Proof.
  intros Hk. unfold bitmask. rewrite Z.shiftl_1_l. case_bool_decide as E.
  - subst. apply Z.pow2_bits_true. lia.
  - apply Z.pow2_bits_false. lia.
Qed.

Lemma u8_testbit x k : 0 <= k < 8 -> Z.testbit (u8 x) k = Z.testbit x k.
Proof. intros. unfold u8. change 256 with (2 ^ 8). apply Z.mod_pow2_bits_low. lia. Qed.

Lemma bit_index bi bi' : bi / 8 = bi' / 8 -> bi mod 8 = bi' mod 8 -> bi = bi'.
Proof. lia. Qed.

Lemma bit_clear_set d bi bi' :
  0 <= bi < 8 * Z.of_nat (length d) -> 0 <= bi' ->
  bit_clear (set_bit d bi) bi' = negb (bool_decide (bi' = bi)) && bit_clear d bi'.
Proof.
  intros H H'. rewrite !bit_clear_testbit. unfold set_bit.
  destruct (decide (bi' / 8 = bi / 8)) as [E|E].
  - rewrite E, aget_aset_eq by lia. rewrite Z.lor_spec, bitmask_testbit by lia.
    rewrite (bool_decide_ext (bi' = bi) (bi' mod 8 = bi mod 8)).
    2:{ split; [by intros ->|by apply bit_index]. }
    by destruct (Z.testbit _ _), (bool_decide _).
  - rewrite aget_aset_ne by lia. rewrite bool_decide_false; [done|]. congruence.
Qed.

Lemma bit_clear_clear d bi bi' :
  0 <= bi < 8 * Z.of_nat (length d) -> 0 <= bi' ->
  bit_clear (clear_bit d bi) bi' = bool_decide (bi' = bi) || bit_clear d bi'.
Proof.
  intros H H'. rewrite !bit_clear_testbit. unfold clear_bit.
  destruct (decide (bi' / 8 = bi / 8)) as [E|E].
  - rewrite E, aget_aset_eq by lia. rewrite Z.land_spec, u8_testbit by lia.
    rewrite Z.lnot_spec, bitmask_testbit by lia.
    rewrite (bool_decide_ext (bi' = bi) (bi' mod 8 = bi mod 8)).
    2:{ split; [by intros ->|by apply bit_index]. }
    by destruct (Z.testbit _ _), (bool_decide _).
  - rewrite aget_aset_ne by lia. rewrite bool_decide_false; [done|]. congruence.
Qed.

(** Freeing what was just allocated restores the bitmap block. *)
Lemma clear_set_bit d bi :
  bytes_ok d -> 0 <= bi < 8 * Z.of_nat (length d) -> bit_clear d bi = true -> clear_bit (set_bit d bi) bi = d.
Proof.
  intros Hd Hbi Hc. unfold clear_bit, set_bit. rewrite aget_aset_eq by lia. unfold aset.
  rewrite list_insert_insert, decide_True by done. apply list_insert_id.
  destruct (lookup_lt_is_Some_2 d (Z.to_nat (bi / 8))) as [x Hx]; [lia|].
  assert (Ex : aget d (bi / 8) = x) by (unfold aget; by apply nth_lookup_Some).
  rewrite Hx. f_equal. rewrite Ex. rewrite bit_clear_testbit, Ex, negb_true_iff in Hc.
  assert (Hb : is_byte x) by (rewrite Forall_lookup in Hd; eauto).
  apply Z.bits_inj'. intros n Hn. rewrite Z.land_spec, Z.lor_spec, bitmask_testbit by done.
  destruct (decide (n < 8)) as [H8|H8].
  - rewrite u8_testbit, Z.lnot_spec, bitmask_testbit by lia. case_bool_decide as En.
    + subst. by rewrite Hc.
    + by rewrite orb_false_r, andb_true_r.
  - assert (T : Z.testbit x n = false).
    { apply Z.testbit_false; [done|]. unfold is_byte in Hb.
      rewrite Z.div_small; [done|]. pose proof (Z.pow_le_mono_r 2 8 n). lia. }
    rewrite T, bool_decide_false by lia. done.
Qed.

Lemma block_ok_aset d k v : block_ok d -> is_byte v -> block_ok (aset d k v).
Proof.
  intros [Hl Hb] Hv. split; [by rewrite length_aset|].
  unfold aset. by apply Forall_insert.
Qed.

Lemma is_byte_lor a b : is_byte a -> is_byte b -> is_byte (Z.lor a b).
Proof.
  unfold is_byte. intros Ha Hb. assert (0 <= Z.lor a b) by (apply Z.lor_nonneg; lia).
  split; [done|]. destruct (decide (Z.lor a b = 0)); [lia|]. change 256 with (2 ^ 8).
  apply Z.log2_lt_pow2; [lia|]. rewrite Z.log2_lor by lia. apply Z.max_lub_lt.
  - destruct (decide (a = 0)) as [->|]; [done|]. apply Z.log2_lt_pow2; lia.
  - destruct (decide (b = 0)) as [->|]; [done|]. apply Z.log2_lt_pow2; lia.
Qed.

Lemma is_byte_land a b : is_byte a -> is_byte b -> is_byte (Z.land a b).
Proof.
  unfold is_byte. intros Ha Hb. assert (0 <= Z.land a b) by (apply Z.land_nonneg; lia).
  split; [done|]. destruct (decide (Z.land a b = 0)); [lia|]. change 256 with (2 ^ 8).
  apply Z.log2_lt_pow2; [lia|]. pose proof (Z.log2_land a b).
  assert (Z.log2 a < 8); [|lia]. destruct (decide (a = 0)) as [->|]; [done|]. apply Z.log2_lt_pow2; lia.
Qed.

Lemma is_byte_bitmask bi : is_byte (bitmask bi).
Proof.
  unfold is_byte, bitmask. rewrite Z.shiftl_1_l. pose proof (Z.pow_le_mono_r 2 (bi mod 8) 7).
  pose proof (Z.pow_pos_nonneg 2 (bi mod 8)). lia.
Qed.

Lemma is_byte_aget d k : bytes_ok d -> is_byte (aget d k).
Proof.
  intros Hd. unfold aget. destruct (d !! Z.to_nat k) as [x|] eqn:E.
  - rewrite (nth_lookup_Some _ _ _ _ E). rewrite Forall_lookup in Hd. eauto.
  - rewrite nth_overflow; [unfold is_byte; lia|]. by apply lookup_ge_None.
Qed.

Lemma block_ok_set_bit d bi : block_ok d -> block_ok (set_bit d bi).
Proof.
  intros Hd. apply block_ok_aset; [done|]. apply is_byte_lor; [apply is_byte_aget, Hd|apply is_byte_bitmask].
Qed.

Lemma block_ok_clear_bit d bi : block_ok d -> block_ok (clear_bit d bi).
Proof.
  intros Hd. apply block_ok_aset; [done|]. apply is_byte_land; [apply is_byte_aget, Hd|].
  unfold is_byte, u8. lia.
Qed.
#[export] Hint Resolve block_ok_set_bit block_ok_clear_bit : xv6.

(** The inner loop finds the first clear bit below [size], if there is one. *)
Lemma free_bit_spec d b size bi n :
  match free_bit d b size bi n with
  | Some x => bi <= x < bi + Z.of_nat n /\ b + x < size /\ bit_clear d x = true /\
              forall y, bi <= y < x -> bit_clear d y = false
  | None => forall y, bi <= y < bi + Z.of_nat n -> b + y < size -> bit_clear d y = false
  end.
Proof.
  revert bi. induction n as [|n IH]; intros bi; simpl; [lia|].
  destruct (Z.ltb_spec (b + bi) size); [|lia].
  destruct (bit_clear d bi) eqn:E; [split_and!; try lia; done|].
  specialize (IH (bi + 1)). destruct (free_bit d b size (bi + 1) n) as [x|].
  - destruct IH as (? & ? & ? & Hy). split_and!; try lia; try done.
    intros y Hy'. destruct (decide (y = bi)) as [->|]; [done|]. apply Hy. lia.
  - intros y Hy Hs. destruct (decide (y = bi)) as [->|]; [done|]. apply IH; lia.
Qed.

(** ** Rules for block access on file-system states *)

Section FsRules.
Context {X U : Type} `{TS : TxSpec X} `{UM : UserMem U}.
Implicit Types t : X.
Implicit Types H : gset Z.

Lemma wp_lifttx {A} (m : M X A) (Q : A -> fsys X U -> Prop) t sb ino um :
  wp m (fun a t' => Q a (Fsys t' sb ino um)) t -> wp (lifttx m) Q (Fsys t sb ino um).
Proof. intros Hm. unfold lifttx. by apply wp_zoom. Qed.

(** [t'] follows [t] with the same blocks held and at most [k] more logged. *)
Record moved t t' H (k : nat) : Prop := {
  mv_inv : tx_inv t' H ∅;
  mv_keep : tx_keep t t' H;
  mv_used : (tx_used t' <= tx_used t + k)%nat }.

Lemma moved_refl t H : tx_inv t H ∅ -> moved t t H 0.
Proof. split; [done|apply tx_keep_refl|lia]. Qed.

Lemma moved_trans t1 t2 t3 H k1 k2 : moved t1 t2 H k1 -> moved t2 t3 H k2 -> moved t1 t3 H (k1 + k2).
Proof. intros [] []. split; [done|by eapply tx_keep_trans|lia]. Qed.

Lemma moved_le t t' H k k' : moved t t' H k -> (k <= k')%nat -> moved t t' H k'.
Proof. intros [] ?. split; [done..|lia]. Qed.

Lemma moved_open t t' H k : moved t t' H k -> tx_open t -> tx_open t'.
Proof. intros [_ (_ & _ & Ho & _) _]. done. Qed.

Lemma moved_home t t' H k n : moved t t' H k -> tx_home t' n <-> tx_home t n.
Proof. intros [_ (_ & Hh & _) _]. done. Qed.

Definition bufs (t : X) H (k : nat) : Prop := (tx_used t + size H + k <= 30)%nat.

Lemma held_in (n : Z) H : n ∈ {[n]} ∪ H.
Proof. set_solver. Qed.

(** A handle taken before a step is good after it. *)
Lemma moved_held t t' H n k i : moved t t' ({[n]} ∪ H) k -> tx_held t i n -> tx_held t' i n.
Proof. intros [_ K _]. apply (tx_keep_held _ _ _ _ _ K), held_in. Qed.

Lemma moved_sub t t' n H k : moved t t' ({[n]} ∪ H) k -> tx_keep t t' H.
Proof. intros [_ K _]. eapply tx_keep_sub; [|exact K]. set_solver. Qed.

Lemma size_hold (n : Z) H : (n ∉ H) -> size ({[n]} ∪ H) = S (size H).
Proof. intros. rewrite size_union by set_solver. by rewrite size_singleton. Qed.

Lemma wp_bread_ t H n sb ino um (Q : nat -> fsys X U -> Prop) :
  tx_inv t H ∅ -> (n ∉ H) -> 0 <= n < 2 ^ 31 -> bufs t H 1 ->
  (forall i t', tx_inv t' ({[n]} ∪ H) ∅ -> tx_held t' i n -> tx_keep t t' H -> tx_used t' = tx_used t ->
     (forall m, tx_view t' m = tx_view t m) -> Q i (Fsys t' sb ino um)) ->
  wp (bread_ ROOTDEV n) Q (Fsys t sb ino um).
Proof.
  intros Hi Hn Hr Hb HQ. apply wp_lifttx. eapply wp_tx_bread; [done..| |done].
  unfold bufs in Hb. change (Z.to_nat NBUF) with 30%nat. lia.
Qed.

Lemma wp_data_ t H i n sb ino um (Q : block -> fsys X U -> Prop) :
  tx_inv t H ∅ -> tx_held t i n -> Q (tx_view t n) (Fsys t sb ino um) ->
  wp (data_ i) Q (Fsys t sb ino um).
Proof. intros Hi Hh HQ. apply wp_lifttx. by eapply wp_tx_data. Qed.

Lemma wp_brelse_ t H i n sb ino um (Q : unit -> fsys X U -> Prop) :
  tx_inv t ({[n]} ∪ H) ∅ -> (n ∉ H) -> tx_held t i n ->
  (forall t', tx_inv t' H ∅ -> tx_keep t t' H -> tx_used t' = tx_used t ->
     (forall m, tx_view t' m = tx_view t m) -> Q tt (Fsys t' sb ino um)) ->
  wp (brelse_ i) Q (Fsys t sb ino um).
Proof. intros Hi Hn Hh HQ. apply wp_lifttx. by eapply wp_tx_brelse. Qed.

Lemma wp_update_ t H i n d sb ino um {B} (k : unit -> M (fsys X U) B) (Q : B -> fsys X U -> Prop) :
  tx_inv t ({[n]} ∪ H) ∅ -> (n ∉ H) -> tx_held t i n -> block_ok d -> tx_home t n -> tx_open t ->
  bufs t ∅ 1 ->
  (forall t', tx_inv t' ({[n]} ∪ H) ∅ -> tx_held t' i n -> tx_keep t t' H ->
     (tx_used t' <= 1 + tx_used t)%nat -> (forall m, tx_view t' m = bput (tx_view t) n d m) ->
     wp (k tt) Q (Fsys t' sb ino um)) ->
  wp (bind (set_ i d) (fun _ => bind (log_write_ i) k)) Q (Fsys t sb ino um).
Proof.
  intros Hi Hn Hh Hd Hhome Ho Hb HQ. apply wp_bind, wp_lifttx.
  pose proof (wp_tx_update t H i n d (fun _ => ret tt)
    (fun _ t' => wp (k tt) Q (Fsys t' sb ino um)) Hi Hn Hh Hd Hhome Ho) as Hw.
  assert (Hw' : wp (tx_set i d ;;; tx_log_write i ;;; ret tt)
    (fun _ t' => wp (k tt) Q (Fsys t' sb ino um)) t).
  { eapply wp_conseq; [apply Hw|done].
    - unfold bufs in Hb. rewrite size_empty in Hb. change (Z.to_nat LOGBLOCKS) with 30%nat. lia.
    - intros t' ?????. apply wp_ret. by apply HQ. }
  apply wp_bind_inv in Hw'. eapply wp_conseq; [apply Hw'|]. intros [] t1 Hw1.
  apply wp_bind_inv in Hw1. apply wp_bind, wp_lifttx. eapply wp_conseq; [apply Hw1|]. by intros [] t2.
Qed.

Lemma wp_update_last t H i n d sb ino um (Q : unit -> fsys X U -> Prop) :
  tx_inv t ({[n]} ∪ H) ∅ -> (n ∉ H) -> tx_held t i n -> block_ok d -> tx_home t n -> tx_open t ->
  bufs t ∅ 1 ->
  (forall t', tx_inv t' ({[n]} ∪ H) ∅ -> tx_held t' i n -> tx_keep t t' H ->
     (tx_used t' <= 1 + tx_used t)%nat -> (forall m, tx_view t' m = bput (tx_view t) n d m) ->
     Q tt (Fsys t' sb ino um)) ->
  wp (set_ i d ;;; log_write_ i) Q (Fsys t sb ino um).
Proof.
  intros Hi Hn Hh Hd Hhome Ho Hb HQ.
  assert (Hw : wp (set_ i d ;;; log_write_ i ;;; ret tt) Q (Fsys t sb ino um)).
  { by eapply wp_update_. }
  apply wp_bind_inv in Hw. apply wp_bind. eapply wp_conseq; [exact Hw|].
  intros [] s Hs. apply wp_bind_inv in Hs. eapply wp_conseq; [exact Hs|]. by intros [] s'.
Qed.

(** [bzero] *)
Lemma bzero_spec t H n sb ino (um : U) :
  tx_inv t H ∅ -> (n ∉ H) -> 0 <= n < 2 ^ 31 -> tx_home t n -> tx_open t -> bufs t H 1 ->
  wp (bzero ROOTDEV n) (fun _ s => exists t', s = Fsys t' sb ino um /\ moved t t' H 1 /\
    forall m, tx_view t' m = bput (tx_view t) n zero_block m) (Fsys t sb ino um).
Proof.
  intros Hi Hn Hr Hhome Ho Hb. unfold bzero. rewrite u32_id by lia. wp_step.
  eapply wp_bread_; [done..|]. intros i t1 Hi1 Hh1 K1 U1 V1.
  eapply wp_update_; [done..|apply zero_block_ok| | | |].
  - by apply K1.
  - by apply K1.
  - unfold bufs in *. rewrite size_empty. lia.
  - intros t2 Hi2 Hh2 K2 U2 V2. eapply wp_brelse_; [done..|].
    intros t3 Hi3 K3 U3 V3. exists t3. split; [done|]. split.
    + split; [done| |lia]. eapply tx_keep_trans; [done|]. by eapply tx_keep_trans.
    + intros m. rewrite V3, V2. unfold bput. case_decide; [done|apply V1].
Qed.

(** ** The free map *)

Definition nbitmap (sb : superblock) : Z := (sb_size sb + BPB - 1) / BPB.
Definition bmap_block (sb : superblock) (b : Z) : Prop :=
  sb_bmapstart sb <= b < sb_bmapstart sb + nbitmap sb.
Definition data_block (sb : superblock) (b : Z) : Prop :=
  sb_bmapstart sb + nbitmap sb <= b < sb_size sb.

Definition inode_block (sb : superblock) (b : Z) : Prop :=
  sb_inodestart sb <= b < sb_bmapstart sb.

(** A disk laid out as mkfs does: inode blocks, then the bitmap, then the data blocks, none of
    them in the log. *)
Record fs_layout (sb : superblock) (may_log : Z -> Prop) : Prop := {
  fl_inodes : 0 < sb_inodestart sb /\ 0 <= sb_ninodes sb /\
    sb_inodestart sb + (sb_ninodes sb + IPB - 1) / IPB <= sb_bmapstart sb;
  fl_ino_home b : inode_block sb b -> may_log b;
  fl_size : 0 < sb_size sb < 2 ^ 31 - BPB;
  fl_bmap : 0 < sb_bmapstart sb /\ sb_bmapstart sb + nbitmap sb <= sb_size sb;
  fl_bmap_home b : bmap_block sb b -> may_log b;
  fl_data_home b : data_block sb b -> may_log b }.

(** Block [b] is marked in use in contents [V]. *)
Definition in_use (V : Z -> block) (sb : superblock) (b : Z) : bool :=
  negb (bit_clear (V (BBLOCK b sb)) (b mod BPB)).

(** Everything that is not a data block is marked in use. *)
Definition meta_used (V : Z -> block) (sb : superblock) : Prop :=
  forall b, 0 <= b < sb_size sb -> in_use V sb b = false -> data_block sb b.

(** The contents after allocating, or freeing, block [r]. *)
Definition alloc_view (V : Z -> block) (sb : superblock) (r : Z) : Z -> block :=
  bput (bput V (BBLOCK r sb) (set_bit (V (BBLOCK r sb)) (r mod BPB))) r zero_block.
Definition free_view (V : Z -> block) (sb : superblock) (r : Z) : Z -> block :=
  bput V (BBLOCK r sb) (clear_bit (V (BBLOCK r sb)) (r mod BPB)).

(** Blocks the caller holds: in use, and no bitmap blocks. *)
Definition held_ok (V : Z -> block) (sb : superblock) H : Prop :=
  forall b, b ∈ H -> 0 <= b < sb_size sb /\ ~ bmap_block sb b /\ in_use V sb b = true.

Lemma BBLOCK_eq sb may_log b :
  fs_layout sb may_log -> 0 <= b < sb_size sb ->
  BBLOCK b sb = b / BPB + sb_bmapstart sb /\ bmap_block sb (BBLOCK b sb).
Proof.
  intros Hl Hb. destruct (fl_size _ _ Hl), (fl_bmap _ _ Hl). unfold bmap_block, nbitmap, BPB, BSIZE in *.
  assert (E : BBLOCK b sb = b / BPB + sb_bmapstart sb).
  { unfold BBLOCK, BPB, BSIZE. apply u32_id. lia. }
  rewrite E. unfold BPB, BSIZE. lia.
Qed.

Lemma in_use_ext V V' sb b : V' (BBLOCK b sb) = V (BBLOCK b sb) -> in_use V' sb b = in_use V sb b.
Proof. unfold in_use. by intros ->. Qed.

Lemma BBLOCK_inj sb may_log b b' :
  fs_layout sb may_log -> 0 <= b < sb_size sb -> 0 <= b' < sb_size sb ->
  BBLOCK b sb = BBLOCK b' sb -> b mod BPB = b' mod BPB -> b = b'.
Proof.
  intros Hl Hb Hb' E Em. destruct (BBLOCK_eq sb may_log b) as [E1 _]; [done..|].
  destruct (BBLOCK_eq sb may_log b') as [E2 _]; [done..|]. unfold BPB, BSIZE in *. lia.
Qed.

(** After [balloc] exactly one more block is in use; after [bfree] exactly one fewer. *)
Lemma in_use_alloc V sb may_log r b :
  fs_layout sb may_log -> block_ok (V (BBLOCK r sb)) -> data_block sb r -> 0 <= b < sb_size sb ->
  in_use (alloc_view V sb r) sb b = bool_decide (b = r) || in_use V sb b.
Proof.
  intros Hl Hd Hr Hb. assert (Hr' : 0 <= r < sb_size sb).
  { destruct (fl_bmap _ _ Hl), (fl_size _ _ Hl). unfold data_block, nbitmap, BPB, BSIZE in *. lia. }
  destruct (BBLOCK_eq sb may_log b) as [_ Hbb]; [done..|].
  unfold in_use, alloc_view. rewrite bput_ne by (unfold data_block, bmap_block in *; lia).
  pose proof (block_len _ Hd). unfold bput. case_decide as E.
  - rewrite E, bit_clear_set by (unfold BPB, BSIZE in *; lia).
    rewrite (bool_decide_ext (b mod BPB = r mod BPB) (b = r)); [by destruct (bool_decide _), (bit_clear _ _)|].
    split; [by eapply BBLOCK_inj|by intros ->].
  - rewrite bool_decide_false; [done|]. by intros ->.
Qed.

Lemma in_use_free V sb may_log r b :
  fs_layout sb may_log -> block_ok (V (BBLOCK r sb)) -> 0 <= r < sb_size sb -> 0 <= b < sb_size sb ->
  in_use (free_view V sb r) sb b = negb (bool_decide (b = r)) && in_use V sb b.
Proof.
  intros Hl Hd Hr Hb. pose proof (block_len _ Hd). unfold in_use, free_view, bput. case_decide as E.
  - rewrite E, bit_clear_clear by (unfold BPB, BSIZE in *; lia).
    rewrite (bool_decide_ext (b mod BPB = r mod BPB) (b = r)); [by destruct (bool_decide _), (bit_clear _ _)|].
    split; [by eapply BBLOCK_inj|by intros ->].
  - rewrite bool_decide_false; [done|]. by intros ->.
Qed.

(** What the search through the bitmap block of [k] establishes. *)
Lemma free_bit_none V sb may_log k b :
  fs_layout sb may_log -> 0 <= k ->
  free_bit (V (BBLOCK (k * BPB) sb)) (k * BPB) (sb_size sb) 0 (Z.to_nat BPB) = None ->
  k * BPB <= b < (k + 1) * BPB -> b < sb_size sb -> in_use V sb b = true.
Proof.
  intros Hl Hk Hf Hb Hs. pose proof (free_bit_spec (V (BBLOCK (k * BPB) sb)) (k * BPB) (sb_size sb) 0 (Z.to_nat BPB)) as Hsp.
  rewrite Hf in Hsp. unfold in_use.
  destruct (BBLOCK_eq sb may_log b) as [E1 _]; [done|unfold BPB, BSIZE in *; lia|].
  destruct (BBLOCK_eq sb may_log (k * BPB)) as [E2 _]; [done|unfold BPB, BSIZE in *; lia|].
  replace (BBLOCK b sb) with (BBLOCK (k * BPB) sb) by (rewrite E1, E2; unfold BPB, BSIZE in *; lia).
  rewrite Hsp; [done|unfold BPB, BSIZE in *; lia..].
Qed.

Lemma free_bit_some V sb may_log k bi :
  fs_layout sb may_log -> 0 <= k ->
  free_bit (V (BBLOCK (k * BPB) sb)) (k * BPB) (sb_size sb) 0 (Z.to_nat BPB) = Some bi ->
  let r := k * BPB + bi in
  k * BPB <= r < sb_size sb /\ BBLOCK r sb = BBLOCK (k * BPB) sb /\ r mod BPB = bi /\
  in_use V sb r = false /\ forall b, k * BPB <= b < r -> in_use V sb b = true.
Proof.
  intros Hl Hk Hf r. pose proof (free_bit_spec (V (BBLOCK (k * BPB) sb)) (k * BPB) (sb_size sb) 0 (Z.to_nat BPB)) as Hsp.
  rewrite Hf in Hsp. destruct Hsp as (Hbi & Hs & Hc & Hlow).
  assert (Hsame : forall b, k * BPB <= b <= r -> BBLOCK b sb = BBLOCK (k * BPB) sb /\ b mod BPB = b - k * BPB).
  { intros b Hb. destruct (BBLOCK_eq sb may_log b) as [E1 _]; [done|unfold BPB, BSIZE in *; lia|].
    destruct (BBLOCK_eq sb may_log (k * BPB)) as [E2 _]; [done|unfold BPB, BSIZE in *; lia|].
    rewrite E1, E2. unfold BPB, BSIZE in *. lia. }
  destruct (Hsame r) as [Er Em]; [lia|]. split_and!; [unfold r; lia..|done|lia| |].
  - unfold in_use. rewrite Er, Em. replace (r - k * BPB) with bi by (unfold r; lia). by rewrite Hc.
  - intros b Hb. destruct (Hsame b) as [Eb Emb]; [lia|]. unfold in_use. rewrite Eb, Emb, Hlow; [done|]. lia.
Qed.

(** *** [balloc] takes the lowest free block, or reports that there is none *)

Definition balloc_result (V : Z -> block) sb (r : Z) (V' : Z -> block) : Prop :=
  (r = 0 /\ (forall b, 0 <= b < sb_size sb -> in_use V sb b = true) /\ forall m, V' m = V m) \/
  (data_block sb r /\ in_use V sb r = false /\ (forall b, 0 <= b < r -> in_use V sb b = true) /\
   forall m, V' m = alloc_view V sb r m).

Lemma take_block t H k bi i t1 sb ino (um : U) :
  let V := tx_view t in let r := k * BPB + bi in
  fs_layout sb (tx_home t) -> meta_used V sb -> held_ok V sb H -> tx_open t -> bufs t H 2 -> 0 <= k ->
  free_bit (V (BBLOCK (k * BPB) sb)) (k * BPB) (sb_size sb) 0 (Z.to_nat BPB) = Some bi ->
  tx_inv t1 ({[BBLOCK (k * BPB) sb]} ∪ H) ∅ -> tx_held t1 i (BBLOCK (k * BPB) sb) -> tx_keep t t1 H ->
  (tx_used t1 <= tx_used t)%nat -> (forall m, tx_view t1 m = V m) ->
  wp (set_ i (set_bit (V (BBLOCK (k * BPB) sb)) bi) ;;; log_write_ i ;;; brelse_ i ;;;
      bzero ROOTDEV r ;;; ret (Some (u32 r)))
    (fun o s => o = Some r /\ exists t', s = Fsys t' sb ino um /\ moved t t' H 2 /\
       data_block sb r /\ in_use V sb r = false /\ (forall b, k * BPB <= b < r -> in_use V sb b = true) /\
       forall m, tx_view t' m = alloc_view V sb r m) (Fsys t1 sb ino um).
Proof.
  intros V r Hl Hm Hheld Ho Hb Hk Hf Hi1 Hh1 K1 U1 V1. set (n := BBLOCK (k * BPB) sb) in *.
  destruct (free_bit_some V sb _ k bi Hl Hk Hf) as (Hr & En & Em & Hfree & Hlow). fold r in Hr, En, Em, Hfree, Hlow.
  destruct (fl_size _ _ Hl) as [Hs0 Hs1]. assert (Hk0 : 0 <= k * BPB) by (unfold BPB, BSIZE in *; lia).
  assert (Hd : data_block sb r) by (apply Hm; [lia|done]).
  destruct (BBLOCK_eq sb _ (k * BPB) Hl) as [_ Hbm]; [lia|]. fold n in Hbm.
  assert (HnH : n ∉ H) by (intros HH; by apply Hheld in HH as (_ & ? & _)).
  assert (HrH : r ∉ H) by (intros HH; apply Hheld in HH as (_ & _ & E); congruence).
  eapply wp_update_; [done|done|done| | |by apply K1| |].
  { apply block_ok_set_bit. rewrite <-V1. by eapply tx_view_ok. }
  { apply K1, (fl_bmap_home _ _ Hl), Hbm. }
  { unfold bufs in *. rewrite size_empty. lia. }
  intros t2 Hi2 Hh2 K2 U2 V2. wp_step. eapply wp_brelse_; [done..|].
  intros t3 Hi3 K3 U3 V3. wp_step.
  assert (K13 : tx_keep t t3 H) by (eapply tx_keep_trans; [done|]; by eapply tx_keep_trans).
  eapply wp_conseq; [apply bzero_spec with (H := H); [done..| | | |]|].
  { unfold BPB, BSIZE in *. lia. }
  { apply K13, (fl_data_home _ _ Hl), Hd. }
  { by apply K13. }
  { unfold bufs in *. lia. }
  intros [] s (t4 & -> & M4 & V4). apply wp_ret. rewrite u32_id by (unfold BPB, BSIZE in *; lia).
  split; [done|]. exists t4. split_and!; try done.
  - destruct M4. split; [done|by eapply tx_keep_trans|lia].
  - intros m. rewrite V4. unfold alloc_view, bput. rewrite En, Em. fold n. case_decide; [done|].
    rewrite V3, V2. unfold bput. case_decide; [done|apply V1].
Qed.

Lemma balloc_spec t H sb ino (um : U) :
  let V := tx_view t in
  tx_inv t H ∅ -> tx_open t -> fs_layout sb (tx_home t) -> meta_used V sb -> held_ok V sb H -> bufs t H 2 ->
  wp (balloc ROOTDEV) (fun r s => exists t', s = Fsys t' sb ino um /\ moved t t' H 2 /\
    balloc_result V sb r (tx_view t')) (Fsys t sb ino um).
Proof.
  intros V Hi Ho Hl Hm Hheld Hb. unfold balloc. wp_steps. cbn [f_sb].
  destruct (fl_size _ _ Hl) as [Hs0 Hs1].
  eapply wp_floop with
    (I := fun k s => exists t', s = Fsys t' sb ino um /\ moved t t' H 0 /\ (forall m, tx_view t' m = V m) /\
       forall b, 0 <= b < k * BPB -> b < sb_size sb -> in_use V sb b = true)
    (R := fun r s => exists t', s = Fsys t' sb ino um /\ moved t t' H 2 /\ balloc_result V sb r (tx_view t')).
  - exists t. split_and!; [done|by apply moved_refl|done|unfold BPB, BSIZE in *; lia].
  - intros k s' Hk (t0 & -> & M0 & V0 & Hlow). 
    assert (Hkb : 0 <= k * BPB < sb_size sb) by (unfold BPB, BSIZE in *; lia).
    destruct (BBLOCK_eq sb _ (k * BPB) Hl Hkb) as [En Hbm]. set (n := BBLOCK (k * BPB) sb) in *.
    assert (HnH : n ∉ H) by (intros HH; by apply Hheld in HH as (_ & ? & _)).
    pose proof (mv_used _ _ _ _ M0) as U0.
    wp_step. eapply wp_bread_; [apply M0|done| |unfold bufs in *; lia|].
    { destruct (fl_bmap _ _ Hl). unfold bmap_block in Hbm. unfold BPB, BSIZE in *. lia. }
    intros i t1 Hi1 Hh1 K1 U1 V1. wp_step. eapply wp_data_; [done..|]. rewrite V1, V0.
    destruct (free_bit (V n) (k * BPB) (sb_size sb) 0 (Z.to_nat BPB)) as [bi|] eqn:Hf.
    + eapply wp_conseq; [eapply take_block with (t := t) (H := H) (k := k); try done|].
      * lia.
      * eapply tx_keep_trans; [apply M0|done].
      * lia.
      * intros m. by rewrite V1.
      * intros o s (-> & t' & -> & M' & Hd & Hfree & Hlow' & V').
        exists t'. split_and!; [done..|]. right. split_and!; try done.
        intros b Hb'. destruct (decide (b < k * BPB)); [apply Hlow; [lia|unfold data_block in Hd; lia]|apply Hlow'; lia].
    + wp_step. eapply wp_brelse_; [done..|]. intros t2 Hi2 K2 U2 V2. wp_steps.
      exists t2. split_and!; [done| |intros m; by rewrite V2, V1|].
      * destruct M0. split; [done| |lia]. eapply tx_keep_trans; [done|]. by eapply tx_keep_trans.
      * intros b Hb1 Hb2. destruct (decide (b < k * BPB)); [apply Hlow; lia|].
        eapply (free_bit_none V sb _ k); [done|lia|done|unfold BPB, BSIZE in *; lia|done].
  - intros s' (t' & -> & M' & V' & Hall). wp_steps. exists t'. split_and!; [done|eapply moved_le; [done|lia]|].
    left. split_and!; [done| |done]. intros b Hbr. apply Hall; [|lia].
    unfold BPB, BSIZE in *. lia.
  - intros r s' (t' & -> & M' & Hres). wp_steps. eauto.
Qed.

(** *** [bfree] clears one bit, and panics on a block that is free already *)

Lemma bfree_spec t H b sb ino (um : U) :
  let V := tx_view t in
  tx_inv t H ∅ -> tx_open t -> fs_layout sb (tx_home t) -> held_ok V sb H -> bufs t H 1 ->
  0 <= b < sb_size sb -> in_use V sb b = true ->
  wp (bfree ROOTDEV b) (fun _ s => exists t', s = Fsys t' sb ino um /\ moved t t' H 1 /\
    forall m, tx_view t' m = free_view V sb b m) (Fsys t sb ino um).
Proof.
  intros V Hi Ho Hl Hheld Hb Hr Huse. unfold bfree. wp_steps. cbn [f_sb].
  destruct (BBLOCK_eq sb _ b Hl Hr) as [En Hbm]. set (n := BBLOCK b sb) in *.
  assert (HnH : n ∉ H) by (intros HH; by apply Hheld in HH as (_ & ? & _)).
  eapply wp_bread_; [done|done| |done|].
  { destruct (fl_bmap _ _ Hl), (fl_size _ _ Hl). unfold bmap_block in Hbm. unfold BPB, BSIZE in *. lia. }
  intros i t1 Hi1 Hh1 K1 U1 V1. wp_step. eapply wp_data_; [done..|]. rewrite V1. fold V.
  unfold in_use in Huse. fold n in Huse. rewrite negb_true_iff in Huse. rewrite Huse.
  eapply wp_update_; [done|done|done| | |by apply K1| |].
  { apply block_ok_clear_bit. rewrite <-V1. by eapply tx_view_ok. }
  { apply K1, (fl_bmap_home _ _ Hl), Hbm. }
  { unfold bufs in *. rewrite size_empty. lia. }
  intros t2 Hi2 Hh2 K2 U2 V2. eapply wp_brelse_; [done..|].
  intros t3 Hi3 K3 U3 V3. exists t3. split_and!; [done| |].
  - split; [done| |lia]. eapply tx_keep_trans; [done|]. by eapply tx_keep_trans.
  - intros m. rewrite V3, V2. unfold free_view, bput. fold n. case_decide; [done|apply V1].
Qed.

Lemma bfree_panics t H b sb ino (um : U) :
  let V := tx_view t in
  tx_inv t H ∅ -> fs_layout sb (tx_home t) -> held_ok V sb H -> bufs t H 1 ->
  0 <= b < sb_size sb -> in_use V sb b = false ->
  panics (bfree ROOTDEV b) "freeing free block" (Fsys t sb ino um).
Proof.
  intros V Hi Hl Hheld Hb Hr Huse. unfold bfree.
  eapply panics_bind; [by apply (wp_get (fun a s => a = s /\ s = Fsys t sb ino um))|].
  intros s ? [-> ->]. cbn [f_sb].
  destruct (BBLOCK_eq sb _ b Hl Hr) as [En Hbm]. set (n := BBLOCK b sb) in *.
  eapply panics_bind; [apply (wp_bread_ t H n sb ino um (fun i s => exists t1, s = Fsys t1 sb ino um /\
    tx_inv t1 ({[n]} ∪ H) ∅ /\ tx_held t1 i n /\ forall m, tx_view t1 m = V m)); try done|].
  { intros HH. by apply Hheld in HH as (_ & ? & _). }
  { destruct (fl_bmap _ _ Hl), (fl_size _ _ Hl). unfold bmap_block in Hbm. unfold BPB, BSIZE in *. lia. }
  { intros i t1 ? ? _ _ ?. by exists t1. }
  intros i ? (t1 & -> & Hi1 & Hh1 & V1).
  eapply panics_bind; [apply (wp_data_ t1 ({[n]} ∪ H) i n sb ino um (fun d _ => d = V n)); [done..|apply V1]|].
  intros d ? ->. unfold in_use in Huse. fold n in Huse. rewrite negb_false_iff in Huse. by rewrite Huse.
Qed.
End FsRules.

Section AllocatorTheorems.
Context {X U : Type} `{TS : TxSpec X} `{UM : UserMem U}.

(** C34. [balloc] allocates the lowest-numbered free block.  On a well-formed disk with a transaction
    open it returns; either it returns 0, every block was in use and no block changed, or it returns
    a data block that was free while all blocks below it were in use, after which exactly that
    block is in use in addition, it is zeroed, and no other block outside the bitmap has changed. *)
Theorem balloc_correct (t : X) H sb ino (um : U) :
  let V := tx_view t in
  tx_inv t H ∅ -> tx_open t -> fs_layout sb (tx_home t) -> meta_used V sb -> held_ok V sb H -> bufs t H 2 ->
  wp (balloc ROOTDEV) (fun r s => exists t', s = Fsys t' sb ino um /\ tx_inv t' H ∅ /\
    let V' := tx_view t' in
    (r = 0 /\ (forall b, 0 <= b < sb_size sb -> in_use V sb b = true) /\ forall m, V' m = V m) \/
    (data_block sb r /\ in_use V sb r = false /\ (forall b, 0 <= b < r -> in_use V sb b = true) /\
     V' r = zero_block /\ (forall m, m <> r -> ~ bmap_block sb m -> V' m = V m) /\
     forall b, 0 <= b < sb_size sb -> in_use V' sb b = bool_decide (b = r) || in_use V sb b))
    (Fsys t sb ino um).
Proof.
  intros V Hi Ho Hl Hm Hh Hb. eapply wp_conseq; [by apply balloc_spec|].
  intros r s (t' & -> & M & Hres). exists t'. split_and!; [done|apply M|].
  destruct Hres as [Hres|(Hd & Hfree & Hlow & E)]; [by left|right].
  assert (Hr : 0 <= r < sb_size sb).
  { destruct (fl_bmap _ _ Hl), (fl_size _ _ Hl). unfold data_block, nbitmap, BPB, BSIZE in *. lia. }
  split_and!; try done.
  - rewrite E. apply bput_eq.
  - intros m Hmr Hnb. rewrite E. unfold alloc_view. rewrite !bput_ne; [done| |done].
    intros ->. apply Hnb. by apply (BBLOCK_eq sb _ r Hl).
  - intros b Hbr. rewrite (in_use_ext (alloc_view V sb r)) by apply E.
    eapply in_use_alloc; try done. by eapply tx_view_ok.
Qed.

(** [bfree] undoes [balloc]'s marking and refuses to free twice.  For a block that is in use it
    returns, exactly that block stops being in use and no block outside the bitmap changes; for a
    block that is free already it panics; and clearing the bit [balloc] set gives back the
    bitmap block byte for byte. *)
Theorem bfree_correct (t : X) H b sb ino (um : U) :
  let V := tx_view t in
  tx_inv t H ∅ -> tx_open t -> fs_layout sb (tx_home t) -> held_ok V sb H -> bufs t H 1 ->
  0 <= b < sb_size sb ->
  (if in_use V sb b then
     wp (bfree ROOTDEV b) (fun _ s => exists t', s = Fsys t' sb ino um /\ tx_inv t' H ∅ /\
       (forall m, ~ bmap_block sb m -> tx_view t' m = V m) /\
       forall c, 0 <= c < sb_size sb -> in_use (tx_view t') sb c = negb (bool_decide (c = b)) && in_use V sb c)
       (Fsys t sb ino um)
   else panics (bfree ROOTDEV b) "freeing free block" (Fsys t sb ino um)) /\
  (in_use V sb b = false ->
   clear_bit (set_bit (V (BBLOCK b sb)) (b mod BPB)) (b mod BPB) = V (BBLOCK b sb)).
Proof.
  intros V Hi Ho Hl Hh Hb Hr. assert (Hok : block_ok (V (BBLOCK b sb))) by by eapply tx_view_ok.
  split.
  - destruct (in_use V sb b) eqn:Hu; [|by apply (bfree_panics t H)].
    eapply wp_conseq; [by apply (bfree_spec t H)|]. intros [] s (t' & -> & M & E). exists t'.
    split_and!; [done|apply M| |].
    + intros m Hnb. rewrite E. unfold free_view. apply bput_ne. intros ->. apply Hnb. by apply (BBLOCK_eq sb _ b Hl).
    + intros c Hc. rewrite (in_use_ext (free_view V sb b)) by apply E. by eapply in_use_free.
  - intros Hf. apply clear_set_bit; [apply Hok| |].
    + rewrite (block_len _ Hok). unfold BPB, BSIZE. lia.
    + unfold in_use in Hf. by apply negb_false_iff in Hf.
Qed.
End AllocatorTheorems.
