(* ===== verification/FsInode.v ===== *)
(** Inodes, kernel/fs.c: the on-disk format, [iupdate], and the in-memory
    table with its reference counts and locks. *)

From S2P Require Import Prelude Bytes Params Disk Sleeplock CString Tx Fs FsBlocks.

(** ** The on-disk inode *)

Lemma slice_splice_inside l off l' j n :
  0 <= off -> off + Z.of_nat (length l') <= Z.of_nat (length l) -> 0 <= j -> 0 <= n ->
  j + n <= Z.of_nat (length l') -> slice (splice l off l') (off + j) n = slice l' j n.
Proof.
  intros. apply list_eq. intros k. rewrite !lookup_slice. case_decide; [|done].
  rewrite lookup_splice by done. rewrite decide_True by lia. f_equal. lia.
Qed.

Definition addr_bytes (l : list Z) : list Z := concat (map (le_bytes 4) l).

Lemma length_addr_bytes l : length (addr_bytes l) = (4 * length l)%nat.
Proof. unfold addr_bytes. induction l as [|a l IH]; simpl; [done|]. simpl in IH. rewrite IH. lia. Qed.

Lemma addr_bytes_ok l : bytes_ok (addr_bytes l).
Proof.
  unfold addr_bytes. induction l as [|a l IH]; [constructor|].
  cbn [map concat]. apply Forall_app. split; [apply le_bytes_ok|done].
Qed.

Lemma slice_addr_bytes l k a :
  l !! k = Some a -> slice (addr_bytes l) (4 * Z.of_nat k) 4 = le_bytes 4 a.
Proof.
  revert k. unfold addr_bytes, slice. induction l as [|b l IH]; intros [|k] Hk; try done.
  - injection Hk as ->. done.
  - cbn [map concat]. replace (Z.to_nat (4 * Z.of_nat (S k))) with (4 + Z.to_nat (4 * Z.of_nat k))%nat by lia.
    rewrite <-drop_drop. rewrite (drop_app_length' _ _ 4) by by rewrite length_le_bytes. by apply IH.
Qed.

Definition dinode_ok (di : dinode) : Prop :=
  - 2 ^ 15 <= di_type di < 2 ^ 15 /\ - 2 ^ 15 <= di_major di < 2 ^ 15 /\
  - 2 ^ 15 <= di_minor di < 2 ^ 15 /\ - 2 ^ 15 <= di_nlink di < 2 ^ 15 /\
  0 <= di_size di < 2 ^ 32 /\ length (di_addrs di) = Z.to_nat (NDIRECT + 1) /\
  Forall (fun a => 0 <= a < 2 ^ 32) (di_addrs di).

Lemma s16_u16 x : - 2 ^ 15 <= x < 2 ^ 15 -> s16 (u16 x) = x.
Proof. intros. unfold s16, u16. lia. Qed.

Lemma length_put_addrs d off l :
  0 <= off -> off + 4 * Z.of_nat (length l) <= Z.of_nat (length d) -> length (put_addrs d off l) = length d.
Proof.
  intros. unfold put_addrs. fold (addr_bytes l). apply length_splice; [done|].
  rewrite length_addr_bytes. lia.
Qed.

(** The intermediate blocks of [put_dinode] all have the length of the block. *)
Ltac put_steps d off di :=
  unfold put_dinode;
  set (d1 := put16 d off (di_type di));
  assert (L1 : length d1 = length d) by (apply length_put16; lia);
  set (d2 := put16 d1 (off + 2) (di_major di));
  assert (L2 : length d2 = length d) by (rewrite <-L1; apply length_put16; lia);
  set (d3 := put16 d2 (off + 4) (di_minor di));
  assert (L3 : length d3 = length d) by (rewrite <-L2; apply length_put16; lia);
  set (d4 := put16 d3 (off + 6) (di_nlink di));
  assert (L4 : length d4 = length d) by (rewrite <-L3; apply length_put16; lia);
  set (d5 := put32 d4 (off + 8) (di_size di));
  assert (L5 : length d5 = length d) by (rewrite <-L4; apply length_put32; lia).

Section Dinode.
Variables (d : block) (off : Z) (di : dinode).
Hypothesis Hoff : 0 <= off.
Hypothesis Hfit : off + 64 <= Z.of_nat (length d).
Hypothesis Hlen : length (di_addrs di) = Z.to_nat (NDIRECT + 1).

Lemma length_put_dinode : length (put_dinode d off di) = length d.
Proof using Hoff Hfit Hlen.
  unfold NDIRECT in Hlen. put_steps d off di. rewrite length_put_addrs; lia.
Qed.

Lemma put_dinode_other off' n :
  0 <= off' -> 0 <= n -> off' + n <= off \/ off + 64 <= off' ->
  slice (put_dinode d off di) off' n = slice d off' n.
Proof using Hoff Hfit Hlen.
  intros. unfold NDIRECT in Hlen. put_steps d off di. unfold put_addrs. fold (addr_bytes (di_addrs di)).
  rewrite slice_splice_other by (rewrite ?length_addr_bytes; lia).
  unfold d5. rewrite slice_put32_other by lia. unfold d4. rewrite slice_put16_other by lia.
  unfold d3. rewrite slice_put16_other by lia. unfold d2. rewrite slice_put16_other by lia.
  unfold d1. by rewrite slice_put16_other by lia.
Qed.

Lemma put_dinode_fields :
  let d' := put_dinode d off di in
  get16 d' off = u16 (di_type di) /\ get16 d' (off + 2) = u16 (di_major di) /\
  get16 d' (off + 4) = u16 (di_minor di) /\ get16 d' (off + 6) = u16 (di_nlink di) /\
  get32 d' (off + 8) = u32 (di_size di).
Proof using Hoff Hfit Hlen.
  unfold NDIRECT in Hlen. cbv zeta. put_steps d off di. unfold put_addrs. fold (addr_bytes (di_addrs di)).
  split_and!; unfold get16 at 1 || unfold get32 at 1; rewrite slice_splice_other by (rewrite ?length_addr_bytes; lia).
  - unfold d5. rewrite slice_put32_other by lia. unfold d4. rewrite slice_put16_other by lia.
    unfold d3. rewrite slice_put16_other by lia. unfold d2. rewrite slice_put16_other by lia.
    apply (get16_put16 d off); lia.
  - unfold d5. rewrite slice_put32_other by lia. unfold d4. rewrite slice_put16_other by lia.
    unfold d3. rewrite slice_put16_other by lia. apply (get16_put16 d1 (off + 2)); lia.
  - unfold d5. rewrite slice_put32_other by lia. unfold d4. rewrite slice_put16_other by lia.
    apply (get16_put16 d2 (off + 4)); lia.
  - unfold d5. rewrite slice_put32_other by lia. apply (get16_put16 d3 (off + 6)); lia.
  - apply (get32_put32 d4 (off + 8)); lia.
Qed.

Lemma put_dinode_addr k a :
  di_addrs di !! k = Some a -> get32 (put_dinode d off di) (off + 12 + 4 * Z.of_nat k) = u32 a.
Proof using Hoff Hfit Hlen.
  intros Hk. pose proof (lookup_lt_Some _ _ _ Hk). unfold NDIRECT in Hlen. put_steps d off di.
  unfold put_addrs. fold (addr_bytes (di_addrs di)). unfold get32.
  rewrite slice_splice_inside by (rewrite ?length_addr_bytes; lia).
  rewrite (slice_addr_bytes _ _ _ Hk). apply (le_val_bytes 4).
Qed.

(** What [iupdate] stores, [ilock] reads back. *)
Lemma get_put_dinode : dinode_ok di -> get_dinode (put_dinode d off di) off = di.
Proof using Hoff Hfit Hlen.
  intros (H1 & H2 & H3 & H4 & H5 & H6 & H7).
  destruct put_dinode_fields as (E1 & E2 & E3 & E4 & E5). unfold get_dinode.
  rewrite E1, E2, E3, E4, E5, !s16_u16, u32_id by done.
  assert (Ea : get_addrs (put_dinode d off di) (off + 12) = di_addrs di).
  { unfold get_addrs. apply list_eq. intros k. rewrite list_lookup_fmap.
    destruct (di_addrs di !! k) as [a|] eqn:Hk.
    - pose proof (lookup_lt_Some _ _ _ Hk). rewrite lookup_seq_lt by lia. simpl.
      rewrite (put_dinode_addr _ _ Hk). f_equal. apply u32_id.
      rewrite Forall_lookup in H7. by apply (H7 k).
    - apply lookup_ge_None in Hk. rewrite lookup_seq_ge by lia. done. }
  rewrite Ea. by destruct di.
Qed.

Lemma get_put_dinode_other off' :
  0 <= off' -> off' + 64 <= off \/ off + 64 <= off' ->
  get_dinode (put_dinode d off di) off' = get_dinode d off'.
Proof using Hoff Hfit Hlen.
  intros Ho Hd. assert (E : forall o n, off' <= o -> 0 <= n -> o + n <= off' + 64 ->
    slice (put_dinode d off di) o n = slice d o n) by (intros; apply put_dinode_other; lia).
  unfold get_dinode, get_addrs, get16, get32. rewrite !E by lia. f_equal.
  apply list_fmap_ext. intros k x Hx. apply lookup_seq in Hx as [-> Hk].
  change (Z.to_nat (NDIRECT + 1)) with 13%nat in Hk. rewrite E by lia. done.
Qed.

Lemma block_ok_put_dinode : block_ok d -> block_ok (put_dinode d off di).
Proof using Hoff Hfit Hlen.
  intros [Hl Hb]. split; [by rewrite length_put_dinode|].
  unfold put_dinode, put_addrs. apply bytes_ok_splice; [by auto 10 with xv6|apply addr_bytes_ok].
Qed.
End Dinode.

(** ** [iupdate] and the inode blocks *)

(** Inode [inum] as the disk contents [V] have it. *)
Definition disk_inode (V : Z -> block) (sb : superblock) (inum : Z) : dinode :=
  get_dinode (V (IBLOCK inum sb)) (ioff inum).

(** The on-disk fields of an in-memory inode. *)
Definition to_dinode (i : inode) : dinode :=
  Dinode (i_type i) (i_major i) (i_minor i) (i_nlink i) (i_size i) (i_addrs i).

Lemma IBLOCK_eq sb may_log inum :
  fs_layout sb may_log -> 0 <= inum < sb_ninodes sb ->
  IBLOCK inum sb = inum / IPB + sb_inodestart sb /\ inode_block sb (IBLOCK inum sb).
Proof.
  intros Hl Hi. destruct (fl_inodes _ _ Hl) as (? & ? & ?), (fl_bmap _ _ Hl), (fl_size _ _ Hl).
  unfold inode_block, nbitmap, IPB, BPB, BSIZE, DINODE_SIZE in *. change (1024 / 64) with 16 in *.
  assert (E : IBLOCK inum sb = inum / 16 + sb_inodestart sb).
  { unfold IBLOCK, IPB, BSIZE, DINODE_SIZE. change (1024 / 64) with 16. apply u32_id. lia. }
  rewrite E. lia.
Qed.

Lemma ioff_range inum : 0 <= ioff inum /\ ioff inum + 64 <= 1024.
Proof. unfold ioff, IPB, DINODE_SIZE, BSIZE. change (1024 / 64) with 16. lia. Qed.

(** Two inodes are in different blocks or at different places of one. *)
Lemma ioff_disjoint sb may_log a b :
  fs_layout sb may_log -> 0 <= a < sb_ninodes sb -> 0 <= b < sb_ninodes sb -> a <> b ->
  IBLOCK a sb = IBLOCK b sb -> ioff a + 64 <= ioff b \/ ioff b + 64 <= ioff a.
Proof.
  intros Hl Ha Hb Hne E. destruct (IBLOCK_eq sb may_log a Hl Ha) as [Ea _].
  destruct (IBLOCK_eq sb may_log b Hl Hb) as [Eb _].
  unfold ioff, IPB, DINODE_SIZE, BSIZE in *. change (1024 / 64) with 16 in *. lia.
Qed.

(** The contents after [iupdate]. *)
Definition iupdate_view (V : Z -> block) (sb : superblock) (i : inode) : Z -> block :=
  bput V (IBLOCK (i_inum i) sb) (put_dinode (V (IBLOCK (i_inum i) sb)) (ioff (i_inum i)) (to_dinode i)).

Lemma iupdate_view_self V sb i :
  (forall m, block_ok (V m)) -> dinode_ok (to_dinode i) ->
  disk_inode (iupdate_view V sb i) sb (i_inum i) = to_dinode i.
Proof.
  intros HV Hd. unfold disk_inode, iupdate_view. rewrite bput_eq. pose proof (ioff_range (i_inum i)).
  apply get_put_dinode; [lia|rewrite (block_len _ (HV _)); lia|apply Hd|done].
Qed.

Lemma iupdate_view_other V sb may_log i inum :
  (forall m, block_ok (V m)) -> dinode_ok (to_dinode i) -> fs_layout sb may_log ->
  0 <= i_inum i < sb_ninodes sb -> 0 <= inum < sb_ninodes sb -> inum <> i_inum i ->
  disk_inode (iupdate_view V sb i) sb inum = disk_inode V sb inum.
Proof.
  intros HV Hd Hl Hi Hn Hne. unfold disk_inode, iupdate_view, bput. case_decide as E; [|done].
  rewrite E. pose proof (ioff_range (i_inum i)). pose proof (ioff_range inum).
  apply get_put_dinode_other; [lia|rewrite (block_len _ (HV _)); lia|apply Hd|lia|].
  pose proof (ioff_disjoint sb may_log inum (i_inum i) Hl Hn Hi Hne E). lia.
Qed.

Section InodeOps.
Context {X U : Type} `{TS : TxSpec X} `{UM : UserMem U}.
Implicit Types t : X.

Lemma iupdate_spec t sb ino (um : U) ip :
  let i := nth ip ino inode0 in let V := tx_view t in
  tx_inv t ∅ ∅ -> tx_open t -> fs_layout sb (tx_home t) -> bufs t ∅ 1 ->
  i_dev i = ROOTDEV -> 0 <= i_inum i < sb_ninodes sb -> length (i_addrs i) = Z.to_nat (NDIRECT + 1) ->
  wp (iupdate ip) (fun _ s => exists t', s = Fsys t' sb ino um /\ moved t t' ∅ 1 /\
    forall m, tx_view t' m = iupdate_view V sb i m) (Fsys t sb ino um).
Proof.
  intros i V Hi Ho Hl Hb Hdev Hn Hlen. unfold iupdate. wp_steps.
  change (inoat (Fsys t sb ino um) ip) with i. cbn [f_sb]. rewrite Hdev.
  destruct (IBLOCK_eq sb _ (i_inum i) Hl Hn) as [En Hib]. set (n := IBLOCK (i_inum i) sb) in *.
  destruct (fl_bmap _ _ Hl), (fl_inodes _ _ Hl), (fl_size _ _ Hl).
  eapply wp_bread_; [done|set_solver|unfold inode_block, nbitmap, BPB, BSIZE in *; lia|done|].
  intros bp t1 Hi1 Hh1 K1 U1 V1. wp_step. eapply wp_data_; [done..|]. rewrite V1. fold V.
  pose proof (ioff_range (i_inum i)).
  assert (HV : block_ok (V n)) by by eapply tx_view_ok.
  eapply wp_update_; [done|set_solver|done| | |by apply K1| |].
  { change (Dinode _ _ _ _ _ _) with (to_dinode i).
    apply block_ok_put_dinode; [lia|rewrite (block_len _ HV); lia|done|done]. }
  { apply K1, (fl_ino_home _ _ Hl), Hib. }
  { unfold bufs in *. lia. }
  intros t2 Hi2 Hh2 K2 U2 V2. eapply wp_brelse_; [done|set_solver|done|].
  intros t3 Hi3 K3 U3 V3. exists t3. split_and!; [done| |].
  - split; [done| |lia]. eapply tx_keep_trans; [done|]. by eapply tx_keep_trans.
  - intros m. rewrite V3, V2. unfold iupdate_view, bput. fold n. case_decide; [done|apply V1].
Qed.
End InodeOps.

(** ** The in-memory table *)

(** At most one entry in use per inode; reference counts are not negative. *)
Record itable_ok (ino : list inode) : Prop := {
  it_ref k i : ino !! k = Some i -> 0 <= i_ref i;
  it_uniq j k a b : ino !! j = Some a -> ino !! k = Some b -> 0 < i_ref a -> 0 < i_ref b ->
    i_dev a = i_dev b -> i_inum a = i_inum b -> j = k }.

Definition is_for (dev inum : Z) (i : inode) : Prop := 0 < i_ref i /\ i_dev i = dev /\ i_inum i = inum.

Lemma is_for_spec dev inum i :
  (0 <? i_ref i) && (i_dev i =? dev) && (i_inum i =? inum) = true <-> is_for dev inum i.
Proof. unfold is_for. rewrite !andb_true_iff, Z.ltb_lt, !Z.eqb_eq. tauto. Qed.

(** The scan finds the entry of the inode, or else the first free slot. *)
Lemma iget_scan_spec l dev inum k e :
  match iget_scan l dev inum k e with
  | inl j => exists j' i, j = (k + j')%nat /\ l !! j' = Some i /\ is_for dev inum i
  | inr r => (forall j' i, l !! j' = Some i -> ~ is_for dev inum i) /\
      match e with
      | Some x => r = Some x
      | None => match r with
                | Some j => exists j' i, j = (k + j')%nat /\ l !! j' = Some i /\ i_ref i = 0
                | None => forall j' i, l !! j' = Some i -> i_ref i <> 0
                end
      end
  end.
Proof.
  revert k e. induction l as [|a l IH]; intros k e; cbn [iget_scan].
  { split; [done|]. by destruct e. }
  destruct ((0 <? i_ref a) && (i_dev a =? dev) && (i_inum a =? inum)) eqn:Ea.
  { apply is_for_spec in Ea. exists 0%nat, a. split_and!; [lia|done|done]. }
  assert (Hna : ~ is_for dev inum a) by (intros Hf; apply is_for_spec in Hf; congruence).
  match goal with |- context [iget_scan l dev inum (S k) ?x] => set (e' := x) end.
  specialize (IH (S k) e'). destruct (iget_scan l dev inum (S k) e') as [j|r].
  - destruct IH as (j' & i & -> & Hj & Hf). exists (S j'), i. split_and!; [lia|done|done].
  - destruct IH as [Hno Hr]. split; [intros [|j'] i Hj; [by injection Hj as <-|eauto]|].
    unfold e' in Hr. destruct e as [x|]; [done|]. destruct (Z.eqb_spec (i_ref a) 0) as [E0|E0].
    + subst r. exists 0%nat, a. split_and!; [lia|done|done].
    + destruct r as [j|].
      * destruct Hr as (j' & i & -> & Hj & Hz). exists (S j'), i. split_and!; [lia|done|done].
      * intros [|j'] i Hj; [by injection Hj as <-|eauto].
Qed.

Lemma itable_upd ino j i' :
  itable_ok ino -> 0 <= i_ref i' ->
  (forall k a, k <> j -> ino !! k = Some a -> is_for (i_dev i') (i_inum i') a -> False) ->
  itable_ok (<[j := i']> ino).
Proof.
  intros [R Uq] Hr Hno. split.
  - intros k i Hk. apply list_lookup_insert_Some in Hk as [(<- & <- & _)|[_ Hk]]; [done|eauto].
  - intros a b x y Ha Hb Hx Hy E1 E2.
    apply list_lookup_insert_Some in Ha as [(<- & <- & _)|[Na Ha]];
    apply list_lookup_insert_Some in Hb as [(<- & <- & _)|[Nb Hb]]; eauto.
    + exfalso. apply (Hno b y); [done|done|]. by split_and!.
    + exfalso. apply (Hno a x); [done|done|]. by split_and!.
Qed.

Section InodeTheorems.
Context {X U : Type} `{TS : TxSpec X} `{UM : UserMem U}.

(** [iupdate] writes an inode through to disk.  For an in-memory inode with fields in range it
    returns; reading the inode's slot on disk then gives exactly the in-memory fields, every
    other inode on disk is unchanged, also those in the same block, and so is every block that is
    not the inode's. *)
Theorem iupdate_correct (t : X) sb ino (um : U) ip :
  let i := nth ip ino inode0 in let V := tx_view t in
  tx_inv t ∅ ∅ -> tx_open t -> fs_layout sb (tx_home t) -> bufs t ∅ 1 ->
  i_dev i = ROOTDEV -> 0 <= i_inum i < sb_ninodes sb -> dinode_ok (to_dinode i) ->
  wp (iupdate ip) (fun _ s => exists t', s = Fsys t' sb ino um /\ tx_inv t' ∅ ∅ /\
    disk_inode (tx_view t') sb (i_inum i) = to_dinode i /\
    (forall inum, 0 <= inum < sb_ninodes sb -> inum <> i_inum i ->
       disk_inode (tx_view t') sb inum = disk_inode V sb inum) /\
    forall m, m <> IBLOCK (i_inum i) sb -> tx_view t' m = V m) (Fsys t sb ino um).
Proof.
  intros i V Hi Ho Hl Hb Hdev Hn Hd. assert (HV : forall m, block_ok (V m)) by (intros; by eapply tx_view_ok).
  eapply wp_conseq; [apply iupdate_spec; try done; apply Hd|]. intros [] s (t' & -> & M & E).
  exists t'. split_and!; [done|apply M| | |].
  - unfold disk_inode. rewrite E. by apply iupdate_view_self.
  - intros inum Hr Hne. unfold disk_inode at 1. rewrite E. by eapply iupdate_view_other.
  - intros m Hm. rewrite E. by apply bput_ne.
Qed.

Definition iget_post (t : X) sb ino (um : U) dev inum (ip : nat) (s : fsys X U) : Prop :=
  exists i', s = Fsys t sb (<[ip := i']> ino) um /\
    (ip < length ino)%nat /\ is_for dev inum i' /\ itable_ok (<[ip := i']> ino) /\
    let i := nth ip ino inode0 in
    if decide (is_for dev inum i) then i' = i <| i_ref := i_ref i + 1 |>
    else i_ref i = 0 /\ i_ref i' = 1 /\ i_valid i' = false /\ i_lock i' = i_lock i.

Lemma iget_spec (t : X) sb ino (um : U) dev inum :
  itable_ok ino ->
  if decide (Exists (fun i => is_for dev inum i \/ i_ref i = 0) ino) then
    wp (iget dev inum) (iget_post t sb ino um dev inum) (Fsys t sb ino um)
  else panics (iget dev inum) "iget: no inodes" (Fsys t sb ino um).
Proof.
  intros Hok. pose proof (iget_scan_spec ino dev inum 0 None) as Hscan.
  unfold iget, wp, panics, bind, get. cbn [f_ino].
  destruct (iget_scan ino dev inum 0 None) as [j|[j|]].
  - destruct Hscan as (j' & i & -> & Hj & Hf). simpl.
    rewrite decide_True by (apply Exists_exists; exists i; split; [by eapply list_elem_of_lookup_2|by left]).
    assert (Ei : nth j' ino inode0 = i) by by apply nth_lookup_Some. unfold modify, ret. simpl.
    eexists. split; [reflexivity|]. unfold inoat. cbn [f_ino]. rewrite Ei.
    pose proof Hf as (Hf1 & Hf2 & Hf3).
    split_and!; [by eapply lookup_lt_Some| | |by rewrite decide_True].
    + by split_and!; [simpl; lia|..].
    + apply itable_upd; [done|simpl; lia|]. intros k a Hk Ha (A1 & A2 & A3). apply Hk.
      by eapply (it_uniq _ Hok).
  - destruct Hscan as (Hno & j' & i & -> & Hj & Hz). simpl.
    rewrite decide_True by (apply Exists_exists; exists i; split; [by eapply list_elem_of_lookup_2|by right]).
    assert (Ei : nth j' ino inode0 = i) by by apply nth_lookup_Some. unfold modify, ret. simpl.
    eexists. split; [reflexivity|]. unfold inoat. cbn [f_ino]. rewrite Ei.
    split_and!; [by eapply lookup_lt_Some| | |].
    + split_and!; simpl; [lia|done|done].
    + apply itable_upd; [done|simpl; lia|]. intros k a Hk Ha Hf. by apply (Hno k a).
    + rewrite decide_False; [done|]. by apply (Hno j').
  - destruct Hscan as [Hno Hnz]. rewrite decide_False; [done|]. intros He.
    apply Exists_exists in He as (i & Hi & [Hf|Hz]); apply list_elem_of_lookup in Hi as [k Hk]; [by eapply Hno|].
    by apply (Hnz k i).
Qed.

(** C35. [iget] keeps at most one table entry per inode.  If the inode has an entry in use, or some entry
    is free, [iget] returns an entry for it; an existing entry only has its reference count
    increased and keeps its contents, a recycled one starts with count 1 and invalid contents and keeps its lock, no
    other entry changes, and again no two entries in use are for the same inode.  Otherwise it panics. *)
Theorem iget_correct (t : X) sb ino (um : U) dev inum :
  itable_ok ino ->
  (if decide (Exists (fun i => is_for dev inum i \/ i_ref i = 0) ino) then
     wp (iget dev inum) (fun ip s => exists i', s = Fsys t sb (<[ip := i']> ino) um /\
       (ip < length ino)%nat /\ is_for dev inum i' /\ itable_ok (<[ip := i']> ino) /\
       let i := nth ip ino inode0 in
       if decide (is_for dev inum i) then i' = i <| i_ref := i_ref i + 1 |>
       else i_ref i = 0 /\ i_ref i' = 1 /\ i_valid i' = false /\ i_lock i' = i_lock i) (Fsys t sb ino um)
   else panics (iget dev inum) "iget: no inodes" (Fsys t sb ino um)).
Proof. apply iget_spec. Qed.
End InodeTheorems.
