(* ===== verification/FsFile.v ===== *)
(** File contents, kernel/fs.c: the block map of an inode ([bmap]), [readi]
    and [writei], as operations on one abstract sequence of bytes. *)

From S2P Require Import Prelude Bytes Params Disk Sleeplock CString Tx Fs FsBlocks FsInode.

(** ** The block map of an inode *)

Definition ind (i : inode) : Z := aget (i_addrs i) NDIRECT.

(** The disk block of block [bn] of the file; 0 for a hole. *)
Definition blk (V : Z -> block) (i : inode) (bn : Z) : Z :=
  if bn <? NDIRECT then aget (i_addrs i) bn
  else if ind i =? 0 then 0 else get32 (V (ind i)) (4 * (bn - NDIRECT)).

(** Byte [k] of the file; holes read as zero. *)
Definition fbyte (V : Z -> block) (i : inode) (k : Z) : Z :=
  if blk V i (k / BSIZE) =? 0 then 0 else aget (V (blk V i (k / BSIZE))) (k mod BSIZE).

Record file_ok (V : Z -> block) (sb : superblock) (i : inode) : Prop := {
  fo_dev : i_dev i = ROOTDEV;
  fo_len : length (i_addrs i) = Z.to_nat (NDIRECT + 1);
  fo_size : 0 <= i_size i <= MAXFILE * BSIZE;
  fo_map bn : 0 <= bn < MAXFILE -> blk V i bn <> 0 ->
    data_block sb (blk V i bn) /\ in_use V sb (blk V i bn) = true;
  fo_inj bn bn' : 0 <= bn < MAXFILE -> 0 <= bn' < MAXFILE -> blk V i bn <> 0 ->
    blk V i bn = blk V i bn' -> bn = bn';
  fo_ind : ind i <> 0 -> data_block sb (ind i) /\ in_use V sb (ind i) = true /\
    forall bn, 0 <= bn < MAXFILE -> blk V i bn <> ind i }.

(** [r] is a block of no file: it is not in this one. *)
Definition not_in (V : Z -> block) (i : inode) (r : Z) : Prop :=
  ind i <> r /\ forall bn, 0 <= bn < MAXFILE -> blk V i bn <> r.

Lemma zero_get32 off : 0 <= off -> off + 4 <= BSIZE -> get32 zero_block off = 0.
Proof.
  intros H1 H2. unfold get32, zero_block. 
  assert (E : slice (replicate (Z.to_nat BSIZE) 0) off 4 = replicate 4 0).
  { unfold slice. rewrite drop_replicate, take_replicate. f_equal.
    unfold BSIZE in *. change (Z.to_nat 1024) with 1024%nat. lia. }
  by rewrite E.
Qed.

Lemma zero_aget k : aget zero_block k = 0.
Proof.
  unfold aget, zero_block. rewrite nth_lookup. destruct (_ !! _) eqn:E; [|done].
  by apply lookup_replicate in E as [-> _].
Qed.

Section FileLemmas.
Variables (sb : superblock) (may_log : Z -> Prop) (V : Z -> block) (i : inode).
Hypothesis Hl : fs_layout sb may_log.
Hypothesis HV : forall m, block_ok (V m).
Hypothesis Hf : file_ok V sb i.

Lemma data_pos b : data_block sb b -> 0 < b < sb_size sb.
Proof.
  intros Hd. destruct (fl_bmap _ _ Hl), (fl_size _ _ Hl). unfold data_block, nbitmap, BPB, BSIZE in *. lia.
Qed.

Lemma data_not_bmap b : data_block sb b -> ~ bmap_block sb b.
Proof. unfold data_block, bmap_block. lia. Qed.

Lemma free_not_in r : data_block sb r -> in_use V sb r = false -> not_in V i r.
Proof.
  intros Hd Hfree. pose proof (data_pos r Hd). split.
  - intros E. destruct (fo_ind _ _ _ Hf) as (_ & Hu & _); [lia|]. congruence.
  - intros bn Hbn E. destruct (fo_map _ _ _ Hf bn Hbn) as [_ Hu]; [lia|]. congruence.
Qed.

(** Contents that agree on the file's blocks give the same file. *)
Lemma file_ext V' :
  (forall b, data_block sb b -> in_use V sb b = true -> V' b = V b) ->
  (forall b, data_block sb b -> in_use V sb b = true -> in_use V' sb b = true) ->
  (forall bn, blk V' i bn = blk V i bn) /\
  (forall k, 0 <= k < MAXFILE * BSIZE -> fbyte V' i k = fbyte V i k) /\ file_ok V' sb i.
Proof.
  intros Hv Hu.
  assert (Eb : forall bn, blk V' i bn = blk V i bn).
  { intros bn. unfold blk. case_match; [done|]. destruct (Z.eqb_spec (ind i) 0); [done|].
    destruct (fo_ind _ _ _ Hf) as (Hd & Hus & _); [done|]. by rewrite Hv. }
  split_and!; [done| |].
  - intros k Hk. unfold fbyte. rewrite Eb. destruct (Z.eqb_spec (blk V i (k / BSIZE)) 0); [done|].
    destruct (fo_map _ _ _ Hf (k / BSIZE)) as [Hd Hus]; [unfold BSIZE in *; lia|done|]. by rewrite Hv.
  - destruct Hf as [F1 F2 F3 F4 F5 F6]. split; try done.
    + intros bn Hbn Hnz. rewrite Eb in *. destruct (F4 bn Hbn Hnz). auto.
    + intros bn bn' Hbn Hbn' Hnz E. rewrite !Eb in *. eauto.
    + intros Hi. destruct (F6 Hi) as (? & ? & Hne). split_and!; auto. intros bn Hbn. rewrite Eb. auto.
Qed.

(** Allocating a block leaves the file as it is. *)
Lemma file_alloc r :
  data_block sb r -> in_use V sb r = false ->
  (forall bn, blk (alloc_view V sb r) i bn = blk V i bn) /\
  (forall k, 0 <= k < MAXFILE * BSIZE -> fbyte (alloc_view V sb r) i k = fbyte V i k) /\
  file_ok (alloc_view V sb r) sb i.
Proof.
  intros Hd Hfree. apply file_ext.
  - intros b Hb Hus. unfold alloc_view, bput. case_decide; [congruence|]. case_decide as E; [|done].
    exfalso. apply (data_not_bmap b Hb). rewrite E.
    apply (BBLOCK_eq sb may_log r Hl). pose proof (data_pos r Hd). lia.
  - intros b Hb Hus. pose proof (data_pos b Hb).
    rewrite (in_use_alloc V sb may_log r b) by (done || lia). rewrite Hus. by rewrite orb_true_r.
Qed.

(** Hanging a fresh zeroed block into a direct slot. *)
Lemma file_set_direct bn r :
  0 <= bn < NDIRECT -> blk V i bn = 0 -> data_block sb r -> in_use V sb r = true ->
  not_in V i r -> V r = zero_block ->
  let i' := i <| i_addrs := aset (i_addrs i) bn r |> in
  (forall b, 0 <= b -> blk V i' b = if decide (b = bn) then r else blk V i b) /\
  (forall k, 0 <= k < MAXFILE * BSIZE -> fbyte V i' k = fbyte V i k) /\ file_ok V sb i'.
Proof.
  intros Hbn H0 Hd Hus [Hni Hnb] Hz i'. pose proof (fo_len _ _ _ Hf) as Hlen. unfold NDIRECT in *.
  assert (Ei : ind i' = ind i) by (unfold ind, i'; simpl; apply aget_aset_ne; unfold NDIRECT; lia).
  assert (Eb : forall b, 0 <= b -> blk V i' b = if decide (b = bn) then r else blk V i b).
  { intros b Hb. unfold blk. rewrite Ei. unfold NDIRECT. unfold i'. simpl i_addrs. case_decide as E.
    - subst. replace (bn <? 12) with true by (symmetry; apply Z.ltb_lt; lia). apply aget_aset_eq; lia.
    - case_match; [|done]. apply aget_aset_ne; lia. }
  split_and!; [done|..].
  - intros k Hk. unfold fbyte. rewrite Eb by (unfold BSIZE in *; lia). case_decide as E; [|done].
    rewrite E, H0. simpl. case_match; [done|]. by rewrite Hz, zero_aget.
  - destruct Hf as [F1 F2 F3 F4 F5 F6]. pose proof (data_pos r Hd). split; try done.
    + unfold i'. simpl. by rewrite length_aset.
    + intros b Hb. rewrite Eb by lia. case_decide; [done|]. by apply F4.
    + intros b b' Hb Hb'. rewrite !Eb by lia. repeat case_decide; subst; try done.
      * intros _ E. exfalso. by apply (Hnb b').
      * intros _ E. exfalso. by apply (Hnb b).
      * by apply F5.
    + rewrite Ei. intros Hi. destruct (F6 Hi) as (? & ? & Hne). split_and!; try done.
      intros b Hb. rewrite Eb by lia. case_decide; [by intros ->|]. by apply Hne.
Qed.

(** Hanging a fresh zeroed block in as the indirect block. *)
Lemma file_set_ind r :
  ind i = 0 -> data_block sb r -> in_use V sb r = true -> not_in V i r -> V r = zero_block ->
  let i' := i <| i_addrs := aset (i_addrs i) NDIRECT r |> in
  (forall b, 0 <= b < MAXFILE -> blk V i' b = blk V i b) /\
  (forall k, 0 <= k < MAXFILE * BSIZE -> fbyte V i' k = fbyte V i k) /\ file_ok V sb i' /\ ind i' = r.
Proof.
  intros H0 Hd Hus [Hni Hnb] Hz i'. pose proof (fo_len _ _ _ Hf) as Hlen. pose proof (data_pos r Hd).
  unfold MAXFILE, NINDIRECT, NDIRECT, BSIZE in *. change (1024 / 4) with 256 in *.
  assert (Ei : ind i' = r) by (unfold ind, i', NDIRECT; simpl; apply aget_aset_eq; lia).
  assert (Eb : forall b, 0 <= b < 12 + 256 -> blk V i' b = blk V i b).
  { intros b Hb. unfold blk. rewrite Ei, H0. unfold NDIRECT. simpl. case_match.
    - unfold i'. simpl i_addrs. apply aget_aset_ne; lia.
    - case_match; [done|]. rewrite Hz. apply zero_get32; unfold BSIZE; lia. }
  split_and!; try done.
  - intros k Hk. unfold fbyte. rewrite Eb by (unfold BSIZE; lia). done.
  - destruct Hf as [F1 F2 F3 F4 F5 F6]. split; try done; unfold MAXFILE, NINDIRECT, NDIRECT, BSIZE in *;
      change (1024 / 4) with 256 in *.
    + unfold i'. simpl. by rewrite length_aset.
    + intros b Hb. rewrite Eb by lia. by apply F4.
    + intros b b' Hb Hb'. rewrite !Eb by lia. by apply F5.
    + intros _. rewrite Ei. split_and!; try done. intros b Hb. rewrite Eb by lia. by apply Hnb.
Qed.

(** Hanging a fresh zeroed block into the indirect block. *)
Lemma file_put_ind bn r :
  NDIRECT <= bn < MAXFILE -> ind i <> 0 -> blk V i bn = 0 -> data_block sb r -> in_use V sb r = true ->
  not_in V i r -> V r = zero_block -> r < 2 ^ 32 ->
  let V' := bput V (ind i) (put32 (V (ind i)) (4 * (bn - NDIRECT)) r) in
  (forall b, 0 <= b < MAXFILE -> blk V' i b = if decide (b = bn) then r else blk V i b) /\
  (forall k, 0 <= k < MAXFILE * BSIZE -> fbyte V' i k = fbyte V i k) /\ file_ok V' sb i /\
  (forall b, 0 <= b < sb_size sb -> in_use V' sb b = in_use V sb b).
Proof.
  intros Hbn Hi H0 Hd Hus [Hni Hnb] Hz Hr V'. pose proof (data_pos r Hd).
  destruct (fo_ind _ _ _ Hf Hi) as (Hid & Hiu & Hine).
  unfold MAXFILE, NINDIRECT, NDIRECT, BSIZE in *. change (1024 / 4) with 256 in *.
  pose proof (block_len _ (HV (ind i))) as Hlen.
  assert (Eb : forall b, 0 <= b < 12 + 256 -> blk V' i b = if decide (b = bn) then r else blk V i b).
  { intros b Hb. unfold blk, V'. unfold NDIRECT. case_match eqn:Eb.
    { apply Z.ltb_lt in Eb. by rewrite decide_False by lia. }
    apply Z.ltb_ge in Eb. destruct (Z.eqb_spec (ind i) 0); [done|]. rewrite bput_eq. case_decide.
    - subst. rewrite get32_put32 by lia. apply u32_id. lia.
    - rewrite get32_put32_other; [done|lia..]. }
  assert (Eu : forall b, 0 <= b < sb_size sb -> in_use V' sb b = in_use V sb b).
  { intros b Hb. apply in_use_ext. unfold V'. apply bput_ne. intros E.
    apply (data_not_bmap _ Hid). rewrite <-E. by apply (BBLOCK_eq sb may_log b Hl). }
  split_and!; try done.
  - intros k Hk. unfold fbyte. rewrite Eb by (unfold BSIZE; lia). case_decide as E.
    + rewrite E, H0. simpl. case_match; [done|]. unfold V'. rewrite bput_ne by congruence.
      by rewrite Hz, zero_aget.
    + destruct (Z.eqb_spec (blk V i (k / BSIZE)) 0); [done|]. unfold V'. rewrite bput_ne; [done|].
      apply Hine. unfold BSIZE. lia.
  - destruct Hf as [F1 F2 F3 F4 F5 F6]. split; try done; unfold MAXFILE, NINDIRECT, NDIRECT, BSIZE in *;
      change (1024 / 4) with 256 in *.
    + intros b Hb. rewrite Eb by lia. case_decide.
      * intros _. split; [done|]. rewrite Eu; [done|lia].
      * intros Hnz. destruct (F4 b Hb Hnz) as [Hdb Hub]. pose proof (data_pos _ Hdb). by rewrite Eu by lia.
    + intros b b' Hb Hb'. rewrite !Eb by lia. repeat case_decide; subst; try done.
      * intros _ E. exfalso. by apply (Hnb b').
      * intros _ E. exfalso. by apply (Hnb b).
      * by apply F5.
    + intros _. pose proof (data_pos _ Hid). split_and!; [done|by rewrite Eu by lia|].
      intros b Hb. rewrite Eb by lia. case_decide; [congruence|]. by apply Hine.
Qed.
End FileLemmas.

(** ** Growing a file *)

(** What [bmap] may do to the contents and to the inode: add blocks, never change a byte. *)
Record grown (sb : superblock) (V V' : Z -> block) (i i' : inode) : Prop := {
  gr_file : file_ok V' sb i';
  gr_byte k : 0 <= k < MAXFILE * BSIZE -> fbyte V' i' k = fbyte V i k;
  gr_map bn : 0 <= bn < MAXFILE -> blk V i bn <> 0 -> blk V' i' bn = blk V i bn;
  gr_same : i' = i <| i_addrs := i_addrs i' |>;
  gr_use b : 0 <= b < sb_size sb -> in_use V sb b = true -> in_use V' sb b = true;
  gr_meta : meta_used V' sb;
  gr_ind : ind i' = ind i \/ (ind i = 0 /\ 0 <= ind i' < sb_size sb /\ in_use V sb (ind i') = false);
  gr_frame b : 0 <= b < sb_size sb -> in_use V sb b = true -> ~ bmap_block sb b -> b <> ind i ->
    V' b = V b;
  gr_fresh bn : 0 <= bn < MAXFILE -> blk V i bn = 0 -> blk V' i' bn <> 0 ->
    0 <= blk V' i' bn < sb_size sb /\ in_use V sb (blk V' i' bn) = false }.

Lemma grown_refl sb V i : file_ok V sb i -> meta_used V sb -> grown sb V V i i.
Proof. intros Hf Hm. split; try done; [by destruct i|by left]. Qed.

Lemma grown_trans sb V V1 V2 i i1 i2 :
  grown sb V V1 i i1 -> grown sb V1 V2 i1 i2 -> grown sb V V2 i i2.
Proof.
  intros G1 G2. split.
  - apply G2.
  - intros k Hk. rewrite (gr_byte _ _ _ _ _ G2), (gr_byte _ _ _ _ _ G1) by done. done.
  - intros bn Hbn Hnz. pose proof (gr_map _ _ _ _ _ G1 bn Hbn Hnz) as E.
    rewrite (gr_map _ _ _ _ _ G2) by (done || congruence). done.
  - rewrite (gr_same _ _ _ _ _ G2), (gr_same _ _ _ _ _ G1). done.
  - intros b Hb Hu. by apply G2, G1.
  - apply G2.
  - destruct (gr_ind _ _ _ _ _ G1) as [E1|(Z1 & R1 & F1)], (gr_ind _ _ _ _ _ G2) as [E2|(Z2 & R2 & F2)].
    + left. congruence.
    + right. split_and!; [congruence|lia..|]. destruct (in_use V sb (ind i2)) eqn:Eu; [|done].
      apply (gr_use _ _ _ _ _ G1) in Eu; [congruence|lia].
    + right. rewrite E2. done.
    + right. split_and!; [done|lia..|]. destruct (in_use V sb (ind i2)) eqn:Eu; [|done].
      apply (gr_use _ _ _ _ _ G1) in Eu; [congruence|lia].
  - intros b Hb Hu Hnb Hni. rewrite (gr_frame _ _ _ _ _ G2), (gr_frame _ _ _ _ _ G1); try done.
    + by apply G1.
    + destruct (gr_ind _ _ _ _ _ G1) as [->|(_ & _ & F1)]; [done|]. intros ->. congruence.
  - intros bn Hbn H0 H2. destruct (decide (blk V1 i1 bn = 0)) as [E1|E1].
    + destruct (gr_fresh _ _ _ _ _ G2 bn Hbn E1 H2) as [Hr Hu]. split; [done|]. destruct (in_use V sb (blk V2 i2 bn)) eqn:Eu; [|done].
      apply (gr_use _ _ _ _ _ G1) in Eu; [congruence|done].
    + rewrite (gr_map _ _ _ _ _ G2 bn Hbn E1). by apply (gr_fresh _ _ _ _ _ G1).
Qed.

Section Grow.
Variables (sb : superblock) (may_log : Z -> Prop) (V : Z -> block) (i : inode).
Hypothesis Hl : fs_layout sb may_log.
Hypothesis HV : forall m, block_ok (V m).
Hypothesis Hf : file_ok V sb i.
Hypothesis Hm : meta_used V sb.

Lemma alloc_ok r m : block_ok (alloc_view V sb r m).
Proof.
  unfold alloc_view, bput. repeat case_decide; [apply zero_block_ok|apply block_ok_set_bit, HV|apply HV].
Qed.

Lemma alloc_zero r : alloc_view V sb r r = zero_block.
Proof. apply bput_eq. Qed.

Lemma alloc_used r : data_block sb r -> in_use (alloc_view V sb r) sb r = true.
Proof.
  intros Hd. pose proof (data_pos sb may_log Hl r Hd).
  rewrite (in_use_alloc V sb may_log r r) by (done || lia). by rewrite bool_decide_true.
Qed.

(** A block taken by [balloc] and not hung in anywhere. *)
Lemma grown_alloc r : data_block sb r -> in_use V sb r = false -> grown sb V (alloc_view V sb r) i i.
Proof.
  intros Hd Hfree. destruct (file_alloc sb may_log V i Hl HV Hf r Hd Hfree) as (Eb & Ek & Hf').
  pose proof (data_pos sb may_log Hl r Hd).
  assert (Eu : forall b, 0 <= b < sb_size sb -> in_use (alloc_view V sb r) sb b = bool_decide (b = r) || in_use V sb b).
  { intros. by apply (in_use_alloc V sb may_log). }
  split; try done.
  - by destruct i.
  - intros b Hb Hu. rewrite Eu, Hu by done. apply orb_true_r.
  - intros b Hb Hu. apply Hm; [done|]. rewrite Eu in Hu by done. by apply orb_false_iff in Hu as [_ ?].
  - by left.
  - intros b Hb Hu Hnb _. unfold alloc_view, bput. case_decide; [congruence|]. case_decide as E; [|done].
    exfalso. apply Hnb. rewrite E. apply (BBLOCK_eq sb may_log r Hl). lia.
  - intros bn Hbn H0 H2. by rewrite Eb in H2.
Qed.
End Grow.

(** The three places a fresh block can go. *)
Lemma grown_direct sb may_log V i bn r :
  fs_layout sb may_log -> (forall m, block_ok (V m)) -> file_ok V sb i -> meta_used V sb ->
  0 <= bn < NDIRECT -> blk V i bn = 0 -> data_block sb r -> in_use V sb r = false ->
  let i' := i <| i_addrs := aset (i_addrs i) bn r |> in
  grown sb V (alloc_view V sb r) i i' /\ blk (alloc_view V sb r) i' bn = r.
Proof.
  intros Hl HV Hf Hm Hbn H0 Hd Hfree i'.
  pose proof (grown_alloc sb may_log V i Hl HV Hf Hm r Hd Hfree) as G.
  destruct (file_alloc sb may_log V i Hl HV Hf r Hd Hfree) as (Eb & Ek0 & Hf'). pose proof (data_pos sb may_log Hl r Hd).
  destruct (file_set_direct sb may_log (alloc_view V sb r) i Hl Hf' bn r) as (Eb' & Ek & Hf''); try done.
  { by rewrite Eb. }
  { by apply alloc_used with may_log. }
  { pose proof (free_not_in sb may_log V i Hl Hf r Hd Hfree) as [N1 N2]. split; [done|].
    intros b Hb. rewrite Eb. by apply N2. }
  { apply alloc_zero. }
  fold i' in Eb', Ek, Hf''. split; [|rewrite Eb' by lia; by rewrite decide_True].
  split; try done; try apply G.
  - intros k Hk. by rewrite Ek, Ek0.
  - intros b Hb Hnz. rewrite Eb' by lia. case_decide; [subst; congruence|]. by rewrite Eb.
  - left. unfold ind, i'. simpl. apply aget_aset_ne; unfold NDIRECT in *; lia.
  - intros b Hb E0. rewrite Eb' by lia. case_decide; [intros _; split; [lia|done]|]. by rewrite Eb.
Qed.

Lemma grown_ind sb may_log V i r :
  fs_layout sb may_log -> (forall m, block_ok (V m)) -> file_ok V sb i -> meta_used V sb ->
  ind i = 0 -> data_block sb r -> in_use V sb r = false ->
  let i' := i <| i_addrs := aset (i_addrs i) NDIRECT r |> in
  grown sb V (alloc_view V sb r) i i' /\ ind i' = r.
Proof.
  intros Hl HV Hf Hm H0 Hd Hfree i'.
  pose proof (grown_alloc sb may_log V i Hl HV Hf Hm r Hd Hfree) as G.
  destruct (file_alloc sb may_log V i Hl HV Hf r Hd Hfree) as (Eb & Ek0 & Hf').
  destruct (file_set_ind sb may_log (alloc_view V sb r) i Hl Hf' r) as (Eb' & Ek & Hf'' & Ei); try done.
  { by apply alloc_used with may_log. }
  { pose proof (free_not_in sb may_log V i Hl Hf r Hd Hfree) as [N1 N2]. split; [done|].
    intros b Hb. rewrite Eb. by apply N2. }
  { apply alloc_zero. }
  fold i' in Eb', Ek, Hf'', Ei. split; [|done]. pose proof (data_pos sb may_log Hl r Hd).
  split; try done.
  - intros k Hk. by rewrite Ek, Ek0.
  - intros b Hb Hnz. by rewrite Eb', Eb.
  - apply G.
  - apply G.
  - right. rewrite Ei. split_and!; [done|lia..|done].
  - apply G.
  - intros b Hb E0. by rewrite Eb', Eb.
Qed.

Lemma grown_put sb may_log V i bn r :
  fs_layout sb may_log -> (forall m, block_ok (V m)) -> file_ok V sb i -> meta_used V sb ->
  NDIRECT <= bn < MAXFILE -> ind i <> 0 -> blk V i bn = 0 -> data_block sb r -> in_use V sb r = false ->
  let V1 := alloc_view V sb r in
  let V2 := bput V1 (ind i) (put32 (V1 (ind i)) (4 * (bn - NDIRECT)) r) in
  grown sb V V2 i i /\ blk V2 i bn = r.
Proof.
  intros Hl HV Hf Hm Hbn Hi H0 Hd Hfree V1 V2.
  pose proof (grown_alloc sb may_log V i Hl HV Hf Hm r Hd Hfree) as G.
  destruct (file_alloc sb may_log V i Hl HV Hf r Hd Hfree) as (Eb & Ek0 & Hf'). pose proof (data_pos sb may_log Hl r Hd).
  assert (HV1 : forall m, block_ok (V1 m)) by (intros; by apply alloc_ok).
  destruct (file_put_ind sb may_log V1 i Hl HV1 Hf' bn r) as (Eb' & Ek & Hf'' & Eu); try done.
  { unfold V1. by rewrite Eb. }
  { by apply alloc_used with may_log. }
  { pose proof (free_not_in sb may_log V i Hl Hf r Hd Hfree) as [N1 N2]. split; [done|].
    intros b Hb. unfold V1. rewrite Eb. by apply N2. }
  { apply alloc_zero. }
  { pose proof (data_pos sb may_log Hl r Hd). destruct (fl_size _ _ Hl). unfold BPB, BSIZE in *. lia. }
  fold V2 in Eb', Ek, Hf'', Eu. split; [|rewrite Eb' by (unfold NDIRECT in *; lia); by rewrite decide_True].
  split; try done.
  - intros k Hk. unfold V1 in Ek. by rewrite Ek, Ek0.
  - intros b Hb Hnz. rewrite Eb' by done. case_decide; [subst; congruence|]. unfold V1. by rewrite Eb.
  - by destruct i.
  - intros b Hb Hu. rewrite Eu by done. by apply G.
  - intros b Hb Hu. rewrite Eu in Hu by done. by apply G.
  - by left.
  - intros b Hb Hu Hnb Hni. unfold V2. rewrite bput_ne by done. by apply G.
  - intros b Hb E0. rewrite Eb' by done. case_decide; [intros _; split; [lia|done]|]. unfold V1. by rewrite Eb.
Qed.

(** ** [bmap] *)

Section Bmap.
Context {X U : Type} `{TS : TxSpec X} `{UM : UserMem U}.
Implicit Types t : X.

(** A transaction is open on a well-formed disk, no block is held, and [k] more can be logged. *)
Record fs_ready t (sb : superblock) (k : nat) : Prop := {
  rd_inv : tx_inv t ∅ ∅;
  rd_open : tx_open t;
  rd_layout : fs_layout sb (tx_home t);
  rd_meta : meta_used (tx_view t) sb;
  rd_bufs : bufs t ∅ k }.

Lemma ready_views t sb k m : fs_ready t sb k -> block_ok (tx_view t m).
Proof. intros []. by eapply tx_view_ok. Qed.

Lemma layout_moved t t' H k sb : moved t t' H k -> fs_layout sb (tx_home t) -> fs_layout sb (tx_home t').
Proof.
  intros M []. split; try done; intros b Hb; apply (moved_home _ _ _ _ _ M); auto.
Qed.

Lemma layout_keep t t' H sb : tx_keep t t' H -> fs_layout sb (tx_home t) -> fs_layout sb (tx_home t').
Proof. intros (_ & Hh & _) []. split; try done; intros b Hb; apply Hh; auto. Qed.

Lemma ready_moved t t' sb k k' : fs_ready t sb (k + k') -> moved t t' ∅ k -> meta_used (tx_view t') sb ->
  fs_ready t' sb k'.
Proof.
  intros [] M Hm. split; [apply M|by eapply moved_open|by eapply layout_moved|done|].
  destruct M. unfold bufs in *. lia.
Qed.

Lemma ready_le t sb k k' : fs_ready t sb k -> (k' <= k)%nat -> fs_ready t sb k'.
Proof. intros [] ?. split; try done. unfold bufs in *. lia. Qed.

(** What [bmap] returns: a block of the file, or 0 on a full disk. *)
Definition bmap_result (sb : superblock) (V' : Z -> block) (i' : inode) (bn r : Z) : Prop :=
  (r = 0 /\ forall b, 0 <= b < sb_size sb -> in_use V' sb b = true) \/
  (r <> 0 /\ blk V' i' bn = r).

Lemma meta_ext V V' sb : (forall m, V' m = V m) -> meta_used V sb -> meta_used V' sb.
Proof. intros E Hm b Hb Hu. apply Hm; [done|]. unfold in_use in *. by rewrite E in Hu. Qed.

Lemma in_use_eq V V' sb b : (forall m, V' m = V m) -> in_use V' sb b = in_use V sb b.
Proof. intros E. apply in_use_ext, E. Qed.

Lemma grown_ext sb V V1 V2 i i' : (forall m, V2 m = V1 m) -> grown sb V V1 i i' -> grown sb V V2 i i'.
Proof.
  intros E G. eapply grown_trans; [exact G|].
  assert (Eb : forall bn, blk V2 i' bn = blk V1 i' bn) by (intros; unfold blk; by rewrite E).
  assert (Eu : forall b, in_use V2 sb b = in_use V1 sb b) by (intros; by apply in_use_eq).
  split; try done.
  - destruct (gr_file _ _ _ _ _ G) as [F1 F2 F3 F4 F5 F6]. split; try done.
    + intros b Hb. rewrite Eb, Eu. by apply F4.
    + intros b b' Hb Hb'. rewrite !Eb. by apply F5.
    + intros Hi. destruct (F6 Hi) as (? & ? & Hne). rewrite Eu. split_and!; try done.
      intros b Hb. rewrite Eb. by apply Hne.
  - intros k Hk. unfold fbyte. by rewrite Eb, E.
  - by destruct i'.
  - intros b Hb. by rewrite Eu.
  - eapply meta_ext; [done|apply G].
  - by left.
  - intros b Hb E0. by rewrite Eb.
Qed.

Lemma blk_ext V V' i bn : (forall m, V' m = V m) -> blk V' i bn = blk V i bn.
Proof. intros E. unfold blk. by rewrite E. Qed.

(** [balloc] with the block hung in by [k], or reporting a full disk. *)
Lemma balloc_ready t H sb ino (um : U) (Q : Z -> fsys X U -> Prop) :
  tx_inv t H ∅ -> tx_open t -> fs_layout sb (tx_home t) -> meta_used (tx_view t) sb ->
  held_ok (tx_view t) sb H -> bufs t H 2 ->
  (forall t', moved t t' H 2 -> (forall m, tx_view t' m = tx_view t m) ->
     (forall b, 0 <= b < sb_size sb -> in_use (tx_view t) sb b = true) -> Q 0 (Fsys t' sb ino um)) ->
  (forall r t', moved t t' H 2 -> data_block sb r -> in_use (tx_view t) sb r = false -> r <> 0 ->
     (forall m, tx_view t' m = alloc_view (tx_view t) sb r m) -> Q r (Fsys t' sb ino um)) ->
  wp (balloc ROOTDEV) Q (Fsys t sb ino um).
Proof.
  intros Hi Ho Hl Hm Hh Hb H0 H1. eapply wp_conseq; [by apply balloc_spec|].
  intros r s (t' & -> & M & [(-> & Hall & E)|(Hd & Hfree & _ & E)]); [by apply H0|].
  apply H1; try done. pose proof (data_pos sb _ Hl r Hd). lia.
Qed.

Definition bmap_post t sb (ino : list inode) (um : U) ip bn (r : Z) (s : fsys X U) : Prop :=
  let V := tx_view t in let i := nth ip ino inode0 in
  exists t' i', s = Fsys t' sb (<[ip := i']> ino) um /\ moved t t' ∅ 5 /\
    grown sb V (tx_view t') i i' /\ bmap_result sb (tx_view t') i' bn r /\
    (blk V i bn <> 0 -> r = blk V i bn /\ i' = i /\ moved t t' ∅ 0 /\ forall m, tx_view t' m = V m).

Lemma bmap_direct t sb ino (um : U) ip bn :
  fs_ready t sb 5 -> (ip < length ino)%nat -> file_ok (tx_view t) sb (nth ip ino inode0) -> 0 <= bn < NDIRECT ->
  wp (bmap ip bn) (bmap_post t sb ino um ip bn) (Fsys t sb ino um).
Proof.
  intros Hrd Hip Hf Hbn. pose proof (rd_layout _ _ _ Hrd) as Hl. pose proof (rd_meta _ _ _ Hrd) as Hm.
  unfold bmap_post. set (V := tx_view t) in *. set (i := nth ip ino inode0) in *.
  assert (HV : forall m, block_ok (V m)) by (intros; by eapply ready_views).
  assert (Eino : <[ip := i]> ino = ino) by (by apply list_insert_id, lookup_nth).
  assert (Eb : blk V i bn = aget (i_addrs i) bn).
  { unfold blk. by replace (bn <? NDIRECT) with true by (symmetry; apply Z.ltb_lt; lia). }
  unfold bmap. wp_steps. change (inoat (Fsys t sb ino um) ip) with i.
  replace (bn <? NDIRECT) with true by (symmetry; apply Z.ltb_lt; lia). rewrite <-Eb, (fo_dev _ _ _ Hf).
  destruct (Z.eqb_spec (blk V i bn) 0) as [E0|E0].
  - wp_step. eapply balloc_ready; [apply Hrd..|done| | |].
    { pose proof (rd_bufs _ _ _ Hrd). unfold bufs in *. lia. }
    + intros t' M E Hall. simpl. wp_steps. exists t', i. rewrite Eino. split_and!; try done.
      * eapply moved_le; [done|lia].
      * eapply grown_ext; [done|]. by apply grown_refl.
      * left. split; [done|]. intros b Hb. rewrite (in_use_eq V) by done. by apply Hall.
    + intros r t' M Hd Hfree Hr E. rewrite (proj2 (Z.eqb_neq _ _) Hr). wp_steps.
      destruct (grown_direct sb _ V i bn r Hl HV Hf Hm Hbn E0 Hd Hfree) as [G Eg].
      eexists t', _. split_and!; [reflexivity|eapply moved_le; [done|lia]|..].
      * eapply grown_ext; [done|exact G].
      * right. split; [done|]. rewrite (blk_ext (alloc_view V sb r)) by done. exact Eg.
      * done.
  - wp_steps. exists t, i. rewrite Eino. split_and!; try done.
    + eapply moved_le; [apply moved_refl, Hrd|lia].
    + by apply grown_refl.
    + right. done.
    + intros _. split_and!; try done. apply moved_refl, Hrd.
Qed.

(** What looking up a block through the indirect block gives: the state, and the block or none. *)
Definition entry_post t sb (ino : list inode) (um : U) (i : inode) bn (r : Z) (s : fsys X U) : Prop := exists t', s = Fsys t' sb ino um /\ moved t t' ∅ 3 /\
  grown sb (tx_view t) (tx_view t') i i /\ bmap_result sb (tx_view t') i bn r /\
  (blk (tx_view t) i bn <> 0 -> r = blk (tx_view t) i bn /\ moved t t' ∅ 0 /\ forall m, tx_view t' m = tx_view t m).

(** The new block is entered in the indirect block, which is held in [bp]. *)
Lemma entry_store t sb ino (um : U) i bn bp t1 t2 r :
  fs_ready t sb 3 -> file_ok (tx_view t) sb i -> NDIRECT <= bn < MAXFILE -> ind i <> 0 -> blk (tx_view t) i bn = 0 ->
  tx_held t1 bp (ind i) -> tx_keep t t1 ∅ -> tx_used t1 = tx_used t -> (forall m, tx_view t1 m = tx_view t m) ->
  moved t1 t2 ({[ind i]} ∪ ∅) 2 -> data_block sb r -> in_use (tx_view t) sb r = false ->
  (forall m, tx_view t2 m = alloc_view (tx_view t) sb r m) ->
  wp (set_ bp (put32 (tx_view t (ind i)) (4 * (bn - NDIRECT)) r) ;;; log_write_ bp) (fun _ => wp (brelse_ bp ;;; ret r) (entry_post t sb ino um i bn)) (Fsys t2 sb ino um).
Proof.
  intros Hrd Hf Hbn Hi E0 Hh1 K1 U1 V1 M2 Hd Hfree E2'. pose proof (rd_layout _ _ _ Hrd) as Hl. pose proof (rd_meta _ _ _ Hrd) as Hm.
  set (V := tx_view t) in *. assert (HV : forall m, block_ok (V m)) by (intros; by eapply ready_views).
  destruct (fo_ind _ _ _ Hf Hi) as (Hid & _ & _). pose proof (rd_bufs _ _ _ Hrd) as Hb.
  destruct (grown_put sb _ V i bn r Hl HV Hf Hm Hbn Hi E0 Hd Hfree) as [G Eg].
  assert (Eind : alloc_view V sb r (ind i) = V (ind i)).
  { unfold alloc_view, bput. case_decide as Er; [destruct (fo_ind _ _ _ Hf Hi) as (_ & Hiu & _); congruence|]. case_decide as En; [|done].
    exfalso. apply (data_not_bmap sb _ Hid). rewrite En. apply (BBLOCK_eq sb _ r Hl). pose proof (data_pos sb _ Hl r Hd). lia. }
  assert (Eput : put32 (V (ind i)) (4 * (bn - NDIRECT)) r = put32 (alloc_view V sb r (ind i)) (4 * (bn - NDIRECT)) r) by by rewrite Eind.
  eapply wp_update_last with (H := ∅) (n := ind i); [apply M2|set_solver| | | | | |].
  { by eapply moved_held. }
  { unfold MAXFILE, NINDIRECT, NDIRECT, BSIZE in *. change (1024 / 4) with 256 in *. apply block_ok_put32; [apply HV|lia|unfold BSIZE; lia]. }
  { apply (moved_home _ _ _ _ _ M2). apply K1, (fl_data_home _ _ Hl), Hid. }
  { eapply moved_open; [exact M2|]. by apply K1, Hrd. }
  { destruct M2. unfold bufs in *. rewrite size_empty in *. lia. }
  intros t3 Hi3 Hh3 K3 U3 V3. wp_steps. eapply wp_brelse_; [done|set_solver|done|]. intros t4 Hi4 K4 U4 V4. wp_steps.
  assert (EV : forall m, tx_view t4 m = bput (alloc_view V sb r) (ind i) (put32 (alloc_view V sb r (ind i)) (4 * (bn - NDIRECT)) r) m).
  { intros m. rewrite V4, V3, <-Eput. unfold bput. case_decide; [done|apply E2']. }
  exists t4. split_and!; [done| | | |done].
  - pose proof (moved_sub _ _ _ _ _ M2). destruct M2 as [_ _ U2]. split; [done| |lia].
    eapply tx_keep_trans; [exact K1|]. eapply tx_keep_trans; [done|]. by eapply tx_keep_trans.
  - eapply grown_ext; [exact EV|exact G].
  - right. split; [pose proof (data_pos sb _ Hl r Hd); lia|]. by rewrite (blk_ext _ _ _ _ EV).
Qed.

(** The indirect case, once the indirect block exists. *)
Lemma bmap_entry t sb ino (um : U) ip bn :
  let i := nth ip ino inode0 in
  fs_ready t sb 3 -> (ip < length ino)%nat -> file_ok (tx_view t) sb i -> NDIRECT <= bn < MAXFILE ->
  ind i <> 0 ->
  wp (let* bp := bread_ ROOTDEV (ind i) in
      let* a := data_ bp in
      let addr := get32 a (4 * (bn - NDIRECT)) in
      let* addr :=
        (if addr =? 0 then
           let* addr := balloc ROOTDEV in
           (if addr =? 0 then ret tt
            else set_ bp (put32 a (4 * (bn - NDIRECT)) addr) ;;; log_write_ bp) ;;;
           ret addr
         else ret addr) in
      brelse_ bp ;;;
      ret addr) (entry_post t sb ino um i bn) (Fsys t sb ino um).
Proof.
  intros i Hrd Hip Hf Hbn Hi. pose proof (rd_layout _ _ _ Hrd) as Hl. pose proof (rd_meta _ _ _ Hrd) as Hm.
  set (V := tx_view t) in *. assert (HV : forall m, block_ok (V m)) by (intros; by eapply ready_views).
  destruct (fo_ind _ _ _ Hf Hi) as (Hid & Hiu & _). pose proof (data_pos sb _ Hl _ Hid) as Hpos.
  destruct (fl_size _ _ Hl) as [_ Hsz]. pose proof (rd_bufs _ _ _ Hrd) as Hb.
  assert (Eb : blk V i bn = get32 (V (ind i)) (4 * (bn - NDIRECT))).
  { unfold blk. replace (bn <? NDIRECT) with false by (symmetry; apply Z.ltb_ge; lia).
    by rewrite (proj2 (Z.eqb_neq _ _) Hi). }
  wp_step. eapply wp_bread_; [apply Hrd|set_solver|unfold BPB, BSIZE in *; lia|unfold bufs in *; lia|].
  intros bp t1 Hi1 Hh1 K1 U1 V1. wp_step. eapply wp_data_; [done..|]. rewrite V1. fold V. rewrite <-Eb. cbv zeta.
  destruct (Z.eqb_spec (blk V i bn) 0) as [E0|E0].
  - assert (Hheld : held_ok (tx_view t1) sb ({[ind i]} ∪ ∅)).
    { intros b Hb'. assert (b = ind i) as -> by set_solver. split_and!; [lia..|by apply data_not_bmap|].
      by rewrite (in_use_eq V). }
    wp_steps. eapply balloc_ready with (H := {[ind i]} ∪ ∅); try done.
    { by apply K1, Hrd. }
    { by eapply layout_keep. }
    { by eapply meta_ext. }
    { unfold bufs in *. rewrite size_hold, size_empty by set_solver. rewrite size_empty in Hb. lia. }
    + intros t2 M2 E2 Hall. simpl. wp_steps.
      eapply wp_brelse_ with (H := ∅) (n := ind i); [apply M2|set_solver| |].
      { by eapply moved_held. }
      intros t3 Hi3 K3 U3 V3. wp_steps.
      assert (EV : forall m, tx_view t3 m = V m) by (intros; by rewrite V3, E2, V1).
      exists t3. split_and!; [done| | | |done].
      * pose proof (moved_sub _ _ _ _ _ M2). destruct M2 as [_ _ U2]. split; [done| |lia].
        eapply tx_keep_trans; [exact K1|]. by eapply tx_keep_trans.
      * eapply grown_ext; [exact EV|]. by apply grown_refl.
      * left. split; [done|]. intros b Hb'. rewrite (in_use_eq V) by done. rewrite <-(in_use_eq V (tx_view t1)) by done. by apply Hall.
    + intros r t2 M2 Hd Hfree Hr E2. rewrite (proj2 (Z.eqb_neq _ _) Hr). wp_step. rewrite (in_use_eq V) in Hfree by done.
      assert (E2' : forall m, tx_view t2 m = alloc_view V sb r m) by (intros m; rewrite E2; unfold alloc_view, bput; by rewrite !V1).
      eapply wp_conseq; [by apply (entry_store t sb ino um i bn bp t1 t2 r)|]. intros [] s Hs. by wp_step.
  - wp_steps. eapply wp_brelse_; [done|set_solver|done|]. intros t2 Hi2 K2 U2 V2. wp_steps.
    assert (EV : forall m, tx_view t2 m = V m) by (intros; by rewrite V2, V1).
    assert (M : moved t t2 ∅ 0) by (split; [done|by eapply tx_keep_trans|lia]).
    exists t2. split_and!; try done.
    + eapply moved_le; [done|lia].
    + eapply grown_ext; [done|]. by apply grown_refl.
    + right. by rewrite (blk_ext _ _ _ _ EV).
Qed.

Lemma bmap_indirect t sb ino (um : U) ip bn :
  fs_ready t sb 5 -> (ip < length ino)%nat -> file_ok (tx_view t) sb (nth ip ino inode0) ->
  NDIRECT <= bn < MAXFILE ->
  wp (bmap ip bn) (bmap_post t sb ino um ip bn) (Fsys t sb ino um).
Proof.
  intros Hrd Hip Hf Hbn. pose proof (rd_layout _ _ _ Hrd) as Hl. pose proof (rd_meta _ _ _ Hrd) as Hm.
  unfold bmap_post. set (V := tx_view t) in *. set (i := nth ip ino inode0) in *.
  assert (HV : forall m, block_ok (V m)) by (intros; by eapply ready_views).
  assert (Eino : <[ip := i]> ino = ino) by (by apply list_insert_id, lookup_nth).
  unfold bmap. wp_steps. change (inoat (Fsys t sb ino um) ip) with i.
  replace (bn <? NDIRECT) with false by (symmetry; apply Z.ltb_ge; lia). cbv zeta.
  replace (bn - NDIRECT <? NINDIRECT) with true by (symmetry; apply Z.ltb_lt; unfold MAXFILE in *; lia).
  rewrite (fo_dev _ _ _ Hf). change (aget (i_addrs i) NDIRECT) with (ind i).
  destruct (Z.eqb_spec (ind i) 0) as [E0|E0].
  - wp_steps. eapply balloc_ready; [apply Hrd..|done| | |].
    { pose proof (rd_bufs _ _ _ Hrd). unfold bufs in *. lia. }
    + intros t' M E Hall. simpl. wp_steps. simpl. exists t', i. rewrite Eino. split_and!; try done.
      * eapply moved_le; [done|lia].
      * eapply grown_ext; [done|]. by apply grown_refl.
      * left. split; [done|]. intros b Hb. rewrite (in_use_eq V) by done. by apply Hall.
      * intros Hnz. exfalso. apply Hnz. unfold blk.
        replace (bn <? NDIRECT) with false by (symmetry; apply Z.ltb_ge; lia). by rewrite E0.
    + intros r t1 M Hd Hfree Hr E. rewrite (proj2 (Z.eqb_neq _ _) Hr). wp_steps.
      rewrite (proj2 (Z.eqb_neq _ _) Hr).
      destruct (grown_ind sb _ V i r Hl HV Hf Hm E0 Hd Hfree) as [G Ei].
      set (i1 := i <| i_addrs := aset (i_addrs i) NDIRECT r |>) in *.
      set (ino1 := <[ip := i1]> ino).
      change (setino ip _ _) with (Fsys t1 sb ino1 um).
      assert (E1 : nth ip ino1 inode0 = i1) by by apply nth_list_insert_eq.
      pose proof (grown_ext _ _ _ _ _ _ E G) as G1.
      pose proof (bmap_entry t1 sb ino1 um ip bn) as Hentry. cbv zeta in Hentry. rewrite E1, Ei in Hentry.
      eapply wp_conseq; [apply Hentry; try done|].
      { eapply ready_moved with (k := 2%nat); [exact Hrd|exact M|apply G1]. }
      { unfold ino1. by rewrite length_insert. }
      { apply G1. }
      intros r' s (t2 & -> & M2 & G2 & Hres & _). exists t2, i1. split_and!; try done.
      * by apply (moved_trans t t1 t2 ∅ 2 3).
      * by eapply grown_trans.
      * intros Hnz. exfalso. apply Hnz. unfold blk.
        replace (bn <? NDIRECT) with false by (symmetry; apply Z.ltb_ge; lia). by rewrite E0.
  - wp_steps. rewrite (proj2 (Z.eqb_neq _ _) E0).
    eapply wp_conseq; [apply (bmap_entry t sb ino um ip bn); try done; eapply ready_le; [done|lia]|].
    intros r' s (t2 & -> & M2 & G2 & Hres & Hmapped). exists t2, i. rewrite Eino. split_and!; try done.
    + eapply moved_le; [done|lia].
    + intros Hnz. by destruct (Hmapped Hnz) as (? & ? & ?).
Qed.

Lemma bmap_spec t sb ino (um : U) ip bn :
  fs_ready t sb 5 -> (ip < length ino)%nat -> file_ok (tx_view t) sb (nth ip ino inode0) ->
  0 <= bn < MAXFILE -> wp (bmap ip bn) (bmap_post t sb ino um ip bn) (Fsys t sb ino um).
Proof.
  intros Hrd Hip Hf Hbn. destruct (decide (bn < NDIRECT)).
  - apply bmap_direct; try done. lia.
  - apply bmap_indirect; try done. lia.
Qed.
End Bmap.

(** ** Reading *)

(** Every byte below the size is in an allocated block. *)
Definition mapped (V : Z -> block) (i : inode) : Prop :=
  forall k, 0 <= k < i_size i -> blk V i (k / BSIZE) <> 0.

(** The [n] bytes of the file from offset [off]. *)
Definition fbytes (V : Z -> block) (i : inode) (off n : Z) : list Z := map (fbyte V i) (seqZ off n).

Lemma length_fbytes V i off n : length (fbytes V i off n) = Z.to_nat n.
Proof. unfold fbytes. by rewrite length_map, length_seqZ. Qed.

Lemma fbytes_app V i off n m :
  0 <= n -> 0 <= m -> fbytes V i off (n + m) = fbytes V i off n ++ fbytes V i (off + n) m.
Proof. intros. unfold fbytes. by rewrite seqZ_app, map_app by done. Qed.

Lemma fbytes_ext V V' i i' off n :
  (forall k, off <= k < off + n -> fbyte V' i' k = fbyte V i k) -> fbytes V' i' off n = fbytes V i off n.
Proof.
  intros E. unfold fbytes. apply list_fmap_ext. intros j x Hx. apply lookup_seqZ in Hx as [-> ?]. apply E. lia.
Qed.

(** A piece of one block is the corresponding piece of the file. *)
Lemma slice_fbytes V i off m :
  block_ok (V (blk V i (off / BSIZE))) -> blk V i (off / BSIZE) <> 0 ->
  0 <= off -> 0 <= m <= BSIZE - off mod BSIZE ->
  slice (V (blk V i (off / BSIZE))) (off mod BSIZE) m = fbytes V i off m.
Proof.
  intros Hok Hnz Hoff Hm. pose proof (block_len _ Hok) as Hlen. unfold BSIZE in *.
  apply list_eq. intros j. destruct (decide (Z.of_nat j < m)) as [Hj|Hj].
  - assert (Ej : seqZ off m !! j = Some (off + Z.of_nat j)) by (apply lookup_seqZ; lia).
    unfold fbytes. rewrite list_lookup_fmap, Ej. simpl.
    rewrite lookup_slice, decide_True by lia.
    rewrite (lookup_nth _ _ 0) by lia. f_equal. unfold fbyte, BSIZE.
    replace ((off + Z.of_nat j) / 1024) with (off / 1024) by lia.
    rewrite (proj2 (Z.eqb_neq _ _) Hnz). unfold aget. f_equal. lia.
  - rewrite !lookup_ge_None_2; [done|rewrite length_fbytes; lia|].
    rewrite length_slice by lia. lia.
Qed.

Lemma file_ok_ext V V' sb i : (forall m, V' m = V m) -> meta_used V sb -> file_ok V sb i -> file_ok V' sb i.
Proof. intros E Hm Hf. eapply gr_file, grown_ext; [exact E|]. by apply grown_refl. Qed.

Lemma fbyte_ext V V' i k : (forall m, V' m = V m) -> fbyte V' i k = fbyte V i k.
Proof. intros E. unfold fbyte. by rewrite (blk_ext _ _ _ _ E), E. Qed.

(** The number of blocks that [n] bytes from [off] on touch: the iterations of the loops. *)
Definition touched (off n : Z) : Z := if n <=? 0 then 0 else (off + n + 1023) / 1024 - off / 1024.

Lemma touched_nonneg off n : 0 <= touched off n.
Proof. unfold touched. destruct (Z.leb_spec n 0); lia. Qed.

Lemma touched_step off n m :
  0 < n -> m = Z.min n (1024 - off mod 1024) -> touched (off + m) (n - m) + 1 <= touched off n.
Proof.
  intros Hn Hm. unfold touched. destruct (Z.leb_spec n 0); [lia|]. destruct (Z.leb_spec (n - m) 0); lia.
Qed.

Lemma touched_bound off n : 0 <= n -> touched off n <= n / 1024 + 2.
Proof. intros. unfold touched. destruct (Z.leb_spec n 0); lia. Qed.

Section Readi.
Context {X U : Type} `{TS : TxSpec X} `{UM : UserMem U}.
Implicit Types t : X.

Lemma ready_same t t' sb k : fs_ready t sb k -> moved t t' ∅ 0 -> (forall m, tx_view t' m = tx_view t m) ->
  fs_ready t' sb k.
Proof.
  intros Hrd M E. eapply (ready_moved t t' sb 0 k); [exact Hrd|exact M|].
  eapply meta_ext; [exact E|apply Hrd].
Qed.

(** [bmap] on a mapped block, then [bread] of it: one iteration's access to the disk. *)
Lemma mapped_bread t sb ino (um : U) ip bn {B} (z : M (fsys X U) B) (k : nat -> M (fsys X U) B)
    (Q : B -> fsys X U -> Prop) :
  let V := tx_view t in let i := nth ip ino inode0 in
  fs_ready t sb 5 -> (ip < length ino)%nat -> file_ok V sb i -> 0 <= bn < MAXFILE -> blk V i bn <> 0 ->
  (forall bp t2, tx_inv t2 ({[blk V i bn]} ∪ ∅) ∅ -> tx_held t2 bp (blk V i bn) -> tx_keep t t2 ∅ ->
     (tx_used t2 <= tx_used t)%nat -> (forall m, tx_view t2 m = V m) -> wp (k bp) Q (Fsys t2 sb ino um)) ->
  wp (let* addr := bmap ip bn in
      if addr =? 0 then z
      else let* s := get in let* bp := bread_ (i_dev (inoat s ip)) addr in k bp) Q (Fsys t sb ino um).
Proof.
  intros V i Hrd Hip Hf Hbn Hnz HQ. pose proof (rd_layout _ _ _ Hrd) as Hl.
  assert (Eino : <[ip := i]> ino = ino) by (by apply list_insert_id, lookup_nth).
  eapply wp_seq; [by apply bmap_spec|]. intros r s (t1 & i' & -> & _ & _ & Hres & Hmap).
  destruct (Hmap Hnz) as (-> & -> & M & E). fold V i in E |- *. rewrite Eino.
  rewrite (proj2 (Z.eqb_neq _ _) Hnz). wp_steps. change (inoat (Fsys t1 sb ino um) ip) with i.
  rewrite (fo_dev _ _ _ Hf). destruct (fo_map _ _ _ Hf bn Hbn Hnz) as [Hd _].
  pose proof (data_pos sb _ Hl _ Hd). destruct (fl_size _ _ Hl). pose proof (rd_bufs _ _ _ Hrd).
  destruct M as [Hi1 K1 U1].
  eapply wp_bread_; [done|set_solver|unfold BPB, BSIZE in *; lia|unfold bufs in *; lia|].
  intros bp t2 Hi2 Hh2 K2 U2 V2. apply HQ; try done.
  - by eapply tx_keep_trans.
  - lia.
  - intros m. by rewrite V2, E.
Qed.

Lemma readi_loop_spec fuel t sb ino (um : U) ip n tot off out :
  let V := tx_view t in let i := nth ip ino inode0 in
  fs_ready t sb 5 -> (ip < length ino)%nat -> file_ok V sb i -> mapped V i ->
  0 <= tot <= n -> 0 <= off -> off + (n - tot) <= i_size i -> n < 2 ^ 31 ->
  touched off (n - tot) < Z.of_nat fuel ->
  wp (readi_loop fuel ip DKernel n tot off out) (fun res s => exists t', s = Fsys t' sb ino um /\
    moved t t' ∅ 0 /\ (forall m, tx_view t' m = V m) /\ res = (n, out ++ fbytes V i off (n - tot)))
    (Fsys t sb ino um).
Proof.
  revert t tot off out. induction fuel as [|fuel IH]; intros t tot off out V i Hrd Hip Hf Hmap Ht Ho Hs Hn Hfu.
  { exfalso. pose proof (touched_nonneg off (n - tot)). lia. }
  pose proof (fo_size _ _ _ Hf) as Hsz. unfold MAXFILE, NINDIRECT, NDIRECT, BSIZE in Hsz.
  change ((12 + 1024 / 4) * 1024) with 274432 in Hsz.
  cbn [readi_loop]. destruct (Z.ltb_spec tot n).
  2:{ apply wp_ret. exists t. replace (n - tot) with 0 by lia. replace tot with n by lia.
      rewrite app_nil_r, s32_id by lia. split_and!; try done. apply moved_refl, Hrd. }
  set (m := Z.min (u32 (n - tot)) (BSIZE - off mod BSIZE)).
  assert (Hm : 0 < m <= n - tot /\ m <= BSIZE - off mod BSIZE).
  { unfold m. rewrite u32_id by lia. unfold BSIZE. lia. }
  assert (Hnz : blk V i (off / BSIZE) <> 0) by (apply Hmap; lia).
  eapply mapped_bread; [done..|unfold MAXFILE, NINDIRECT, NDIRECT, BSIZE in *; lia|exact Hnz|].
  fold V i. intros bp t2 Hi2 Hh2 K2 U2 V2. cbv zeta. fold m.
  wp_step. eapply wp_data_; [done..|]. rewrite V2.
  rewrite slice_fbytes; [|by eapply ready_views|done|done|lia]. cbn [either_copyout]. wp_steps. simpl Z.eqb. cbn match.
  wp_step. eapply wp_brelse_; [done|set_solver|done|]. intros t3 Hi3 K3 U3 V3.
  assert (E3 : forall x, tx_view t3 x = V x) by (intros; by rewrite V3, V2).
  assert (M3 : moved t t3 ∅ 0) by (split; [done|by eapply tx_keep_trans|lia]).
  rewrite !u32_id by lia.
  eapply wp_conseq; [apply IH; try done|].
  - by eapply ready_same.
  - eapply file_ok_ext; [exact E3|apply Hrd|done].
  - intros x Hx. rewrite (blk_ext _ _ _ _ E3). by apply Hmap.
  - lia.
  - lia.
  - fold i. lia.
  - replace (n - (tot + m)) with (n - tot - m) by lia.
    pose proof (touched_step off (n - tot) m). unfold m, BSIZE in *. rewrite u32_id in * by lia. lia.
  - intros res s (t' & -> & M' & V' & ->). exists t'. split_and!; try done.
    + by apply (moved_trans t t3 t' ∅ 0 0).
    + intros x. by rewrite V', E3.
    + f_equal. fold i. rewrite <-app_assoc. f_equal.
      replace (n - tot) with (m + (n - (tot + m))) by lia. rewrite fbytes_app by lia. f_equal.
      apply fbytes_ext. intros x Hx. by apply fbyte_ext.
Qed.

(** The number of bytes a read of [n] bytes at [off] returns. *)
Definition read_len (size off n : Z) : Z := Z.min n (size - off).

Lemma readi_spec t sb ino (um : U) ip off n :
  let V := tx_view t in let i := nth ip ino inode0 in
  fs_ready t sb 5 -> (ip < length ino)%nat -> file_ok V sb i -> mapped V i ->
  0 <= off <= i_size i -> 0 <= n -> off + n < 2 ^ 32 ->
  wp (readi ip DKernel off n) (fun res s => exists t', s = Fsys t' sb ino um /\
    moved t t' ∅ 0 /\ (forall m, tx_view t' m = V m) /\
    res = (read_len (i_size i) off n, fbytes V i off (read_len (i_size i) off n))) (Fsys t sb ino um).
Proof.
  intros V i Hrd Hip Hf Hmap Ho Hn Hw. unfold readi. wp_steps. change (inoat (Fsys t sb ino um) ip) with i.
  pose proof (fo_size _ _ _ Hf) as Hsz. unfold MAXFILE, NINDIRECT, NDIRECT, BSIZE in Hsz.
  change ((12 + 1024 / 4) * 1024) with 274432 in Hsz.
  rewrite !u32_id by lia. replace (i_size i <? off) with false by (symmetry; apply Z.ltb_ge; lia).
  replace (off + n <? off) with false by (symmetry; apply Z.ltb_ge; lia). cbn [orb].
  set (n' := if i_size i <? off + n then i_size i - off else n).
  assert (En : n' = read_len (i_size i) off n).
  { unfold n', read_len. destruct (Z.ltb_spec (i_size i) (off + n)); lia. }
  rewrite <-En. assert (Hn' : 0 <= n' /\ off + n' <= i_size i) by (rewrite En; unfold read_len; lia).
  pose proof (touched_bound off n'). eapply wp_conseq; [apply readi_loop_spec; try done; try lia|].
  - fold i. lia.
  - rewrite Z.sub_0_r. unfold BSIZE. lia.
  - intros res s (t' & -> & M & E & ->). exists t'. split_and!; try done. by rewrite Z.sub_0_r.
Qed.

Lemma readi_out_of_range t sb ino (um : U) ip dst off n :
  i_size (nth ip ino inode0) < off \/ u32 (off + n) < off ->
  wp (readi ip dst off n) (fun res s => s = Fsys t sb ino um /\ res = (0, [])) (Fsys t sb ino um).
Proof.
  intros Hr. unfold readi. wp_steps. unfold inoat. cbn [f_ino].
  replace ((i_size (nth ip ino inode0) <? off) || (u32 (off + n) <? off)) with true; [by apply wp_ret|].
  symmetry. apply orb_true_iff. rewrite !Z.ltb_lt. lia.
Qed.
End Readi.

(** ** Writing *)

(** Storing bytes inside one data block of the file. *)
Lemma file_store sb may_log V i off bytes :
  fs_layout sb may_log -> (forall m, block_ok (V m)) -> file_ok V sb i -> meta_used V sb ->
  0 <= off < MAXFILE * BSIZE -> blk V i (off / BSIZE) <> 0 -> bytes_ok bytes ->
  off mod BSIZE + Z.of_nat (length bytes) <= BSIZE ->
  let b := blk V i (off / BSIZE) in
  let V' := bput V b (splice (V b) (off mod BSIZE) bytes) in
  block_ok (V' b) /\
  (forall bn, 0 <= bn < MAXFILE -> blk V' i bn = blk V i bn) /\
  (forall k, 0 <= k < MAXFILE * BSIZE -> fbyte V' i k =
     if decide (off <= k < off + Z.of_nat (length bytes)) then aget bytes (k - off) else fbyte V i k) /\
  file_ok V' sb i /\ (forall x, 0 <= x < sb_size sb -> in_use V' sb x = in_use V sb x).
Proof.
  intros Hl HV Hf Hm Hoff Hnz Hby Hfit b V'. pose proof (block_len _ (HV b)) as Hlen.
  unfold MAXFILE, NINDIRECT, NDIRECT, BSIZE in *. change ((12 + 1024 / 4) * 1024) with 274432 in *.
  change (12 + 1024 / 4) with 268 in *.
  assert (Hbn : 0 <= off / 1024 < 268) by lia.
  destruct (fo_map _ _ _ Hf (off / 1024)) as [Hd Hu]; [done..|]. fold b in Hd, Hu.
  assert (Hib : ind i = 0 \/ b <> ind i).
  { destruct (decide (ind i = 0)); [by left|right]. by apply (fo_ind _ _ _ Hf). }
  assert (Eb : forall bn, blk V' i bn = blk V i bn).
  { intros bn. unfold blk, V'. case_match; [done|]. destruct (Z.eqb_spec (ind i) 0); [done|].
    rewrite bput_ne; [done|]. naive_solver. }
  assert (Eu : forall x, 0 <= x < sb_size sb -> in_use V' sb x = in_use V sb x).
  { intros x Hx. apply in_use_ext, bput_ne. intros E. apply (data_not_bmap _ _ Hd). rewrite <-E.
    by apply (BBLOCK_eq sb may_log x Hl). }
  split_and!; try done.
  - unfold V'. rewrite bput_eq. destruct (HV b) as [H1 H2]. split; [|by apply bytes_ok_splice].
    rewrite length_splice by lia. done.
  - intros k Hk. unfold fbyte, BSIZE. rewrite Eb.
    destruct (Z.eqb_spec (blk V i (k / 1024)) 0) as [E0|E0].
    { case_decide; [|done]. exfalso. apply Hnz. replace (off / 1024) with (k / 1024) by lia. done. }
    unfold V', bput. destruct (decide (blk V i (k / 1024) = b)) as [E|E].
    + assert (k / 1024 = off / 1024) as Ek by (apply (fo_inj _ _ _ Hf); unfold MAXFILE, NINDIRECT, NDIRECT, BSIZE; lia || done).
      unfold aget. rewrite nth_splice by lia. rewrite E.
      repeat case_decide; try lia; try done; f_equal; lia.
    + case_decide as Hin; [|done]. exfalso. apply E. unfold b. f_equal. lia.
  - destruct Hf as [F1 F2 F3 F4 F5 F6]. split; try done; unfold MAXFILE, NINDIRECT, NDIRECT, BSIZE in *;
      change ((12 + 1024 / 4)) with 268 in *.
    + intros bn Hb Hz. rewrite Eb in *. destruct (F4 bn Hb Hz) as [D1 D2]. split; [done|].
      rewrite Eu; [done|]. pose proof (data_pos sb may_log Hl _ D1). lia.
    + intros bn bn' Hb Hb'. rewrite !Eb. by apply F5.
    + intros Hi. destruct (F6 Hi) as (D1 & D2 & D3). pose proof (data_pos sb may_log Hl _ D1).
      rewrite Eu by lia. split_and!; try done. intros bn Hb. rewrite Eb. by apply D3.
Qed.

(** [l] has been stored at [off], and the file grown as needed for it. *)
Record wrote (sb : superblock) (V V' : Z -> block) (i i' : inode) (off : Z) (l : list Z) : Prop := {
  wr_file : file_ok V' sb i';
  wr_byte k : 0 <= k < MAXFILE * BSIZE -> fbyte V' i' k =
    if decide (off <= k < off + Z.of_nat (length l)) then aget l (k - off) else fbyte V i k;
  wr_map bn : 0 <= bn < MAXFILE -> blk V i bn <> 0 -> blk V' i' bn = blk V i bn;
  wr_new k : off <= k < off + Z.of_nat (length l) -> blk V' i' (k / BSIZE) <> 0;
  wr_same : i' = i <| i_addrs := i_addrs i' |>;
  wr_use b : 0 <= b < sb_size sb -> in_use V sb b = true -> in_use V' sb b = true;
  wr_meta : meta_used V' sb;
  wr_ind : ind i' = ind i \/ (ind i = 0 /\ 0 <= ind i' < sb_size sb /\ in_use V sb (ind i') = false);
  wr_frame b : 0 < b < sb_size sb -> in_use V sb b = true -> ~ bmap_block sb b -> b <> ind i ->
    (forall bn, 0 <= bn < MAXFILE -> blk V' i' bn <> b) -> V' b = V b;
  wr_fresh bn : 0 <= bn < MAXFILE -> blk V i bn = 0 -> blk V' i' bn <> 0 ->
    0 <= blk V' i' bn < sb_size sb /\ in_use V sb (blk V' i' bn) = false }.

Lemma wrote_grown sb V V' i i' off : grown sb V V' i i' -> wrote sb V V' i i' off [].
Proof.
  intros []. split; try done.
  - intros k Hk. rewrite decide_False by (simpl; lia). by apply gr_byte0.
  - simpl. lia.
  - intros b Hb Hu Hnb Hni _. apply gr_frame0; try done. lia.
Qed.

Lemma ind_trans sb V V1 i i1 i2 :
  (forall b, 0 <= b < sb_size sb -> in_use V sb b = true -> in_use V1 sb b = true) ->
  ind i1 = ind i \/ (ind i = 0 /\ 0 <= ind i1 < sb_size sb /\ in_use V sb (ind i1) = false) ->
  ind i2 = ind i1 \/ (ind i1 = 0 /\ 0 <= ind i2 < sb_size sb /\ in_use V1 sb (ind i2) = false) ->
  ind i2 = ind i \/ (ind i = 0 /\ 0 <= ind i2 < sb_size sb /\ in_use V sb (ind i2) = false).
Proof.
  intros Hu [E1|(Z1 & R1 & F1)] [E2|(Z2 & R2 & F2)].
  - left. congruence.
  - right. split_and!; [congruence|lia..|]. destruct (in_use V sb (ind i2)) eqn:Eu; [|done].
    apply Hu in Eu; [congruence|lia].
  - right. by rewrite E2.
  - right. split_and!; [done|lia..|]. destruct (in_use V sb (ind i2)) eqn:Eu; [|done].
    apply Hu in Eu; [congruence|lia].
Qed.

Lemma wrote_trans sb V V1 V2 i i1 i2 off l1 l2 :
  0 <= off -> off + Z.of_nat (length (l1 ++ l2)) <= MAXFILE * BSIZE ->
  wrote sb V V1 i i1 off l1 -> wrote sb V1 V2 i1 i2 (off + Z.of_nat (length l1)) l2 ->
  wrote sb V V2 i i2 off (l1 ++ l2).
Proof.
  intros Hoff Hmax W1 W2. rewrite length_app in Hmax. split.
  - apply W2.
  - intros k Hk. rewrite (wr_byte _ _ _ _ _ _ _ W2), (wr_byte _ _ _ _ _ _ _ W1) by done.
    rewrite length_app. unfold aget. repeat case_decide; try lia; try done.
    + rewrite app_nth2 by lia. f_equal. lia.
    + by rewrite app_nth1 by lia.
  - intros bn Hbn Hnz. pose proof (wr_map _ _ _ _ _ _ _ W1 bn Hbn Hnz) as E.
    rewrite (wr_map _ _ _ _ _ _ _ W2) by (done || congruence). done.
  - intros k Hk. rewrite length_app in Hk. destruct (decide (k < off + Z.of_nat (length l1))).
    + pose proof (wr_new _ _ _ _ _ _ _ W1 k ltac:(lia)) as Hnz.
      rewrite (wr_map _ _ _ _ _ _ _ W2); [done| |done]. unfold BSIZE in *. lia.
    + apply (wr_new _ _ _ _ _ _ _ W2). lia.
  - rewrite (wr_same _ _ _ _ _ _ _ W2), (wr_same _ _ _ _ _ _ _ W1). done.
  - intros b Hb Hu. by apply W2, W1.
  - apply W2.
  - eapply ind_trans; [apply W1|apply W1|apply W2].
  - intros b Hb Hu Hnb Hni Hout.
    rewrite (wr_frame _ _ _ _ _ _ _ W2), (wr_frame _ _ _ _ _ _ _ W1); try done.
    + intros bn Hbn E. apply (Hout bn Hbn). rewrite <-E. apply (wr_map _ _ _ _ _ _ _ W2); [done|lia].
    + apply W1; [lia|done].
    + destruct (wr_ind _ _ _ _ _ _ _ W1) as [->|(_ & _ & F1)]; [done|]. intros ->. congruence.
  - intros bn Hbn H0 H2. destruct (decide (blk V1 i1 bn = 0)) as [E1|E1].
    + destruct (wr_fresh _ _ _ _ _ _ _ W2 bn Hbn E1 H2) as [Hr Hu]. split; [done|]. destruct (in_use V sb (blk V2 i2 bn)) eqn:Eu; [|done].
      apply (wr_use _ _ _ _ _ _ _ W1) in Eu; [congruence|done].
    + rewrite (wr_map _ _ _ _ _ _ _ W2 bn Hbn E1). by apply (wr_fresh _ _ _ _ _ _ _ W1).
Qed.

(** One iteration: the block was found or allocated, and [bytes] stored in it. *)
Lemma wrote_store sb may_log V V1 V2 i i1 off bytes :
  fs_layout sb may_log -> (forall m, block_ok (V1 m)) -> grown sb V V1 i i1 ->
  0 <= off < MAXFILE * BSIZE -> blk V1 i1 (off / BSIZE) <> 0 -> bytes_ok bytes ->
  off mod BSIZE + Z.of_nat (length bytes) <= BSIZE ->
  let b := blk V1 i1 (off / BSIZE) in
  (forall m, V2 m = bput V1 b (splice (V1 b) (off mod BSIZE) bytes) m) ->
  wrote sb V V2 i i1 off bytes.
Proof.
  intros Hl HV G Hoff Hnz Hby Hfit b E2.
  destruct (file_store sb may_log V1 i1 off bytes Hl HV) as (_ & Eb & Ek & Hf & Eu);
    [apply G|apply G|done..|]. fold b in Eb, Ek, Hf, Eu.
  set (V3 := bput V1 b (splice (V1 b) (off mod BSIZE) bytes)) in *.
  assert (Hm3 : meta_used V3 sb) by (intros x Hx Hu; rewrite Eu in Hu by done; exact (gr_meta _ _ _ _ _ G x Hx Hu)).
  split.
  - by eapply file_ok_ext.
  - intros k Hk. rewrite (fbyte_ext _ _ _ _ E2), Ek by done. case_decide; [done|]. by apply (gr_byte _ _ _ _ _ G).
  - intros bn Hbn Hz. rewrite (blk_ext _ _ _ _ E2), Eb by done. by apply (gr_map _ _ _ _ _ G).
  - intros k Hk. rewrite (blk_ext _ _ _ _ E2), Eb by (unfold MAXFILE, NINDIRECT, NDIRECT, BSIZE in *; lia).
    replace (k / BSIZE) with (off / BSIZE); [done|]. unfold BSIZE in *. lia.
  - apply G.
  - intros x Hx Hu. rewrite (in_use_eq _ _ _ _ E2), Eu by done. by apply G.
  - by eapply meta_ext.
  - apply G.
  - intros x Hx Hu Hnb Hni Hout. rewrite E2. unfold V3. rewrite bput_ne.
    + apply G; try done. lia.
    + intros ->. apply (Hout (off / BSIZE)); [unfold MAXFILE, NINDIRECT, NDIRECT, BSIZE in *; lia|].
      rewrite (blk_ext _ _ _ _ E2), Eb; [done|]. unfold MAXFILE, NINDIRECT, NDIRECT, BSIZE in *; lia.
  - intros bn Hbn H0. rewrite (blk_ext _ _ _ _ E2), Eb by done. by apply (gr_fresh _ _ _ _ _ G).
Qed.

Section Writei.
Context {X U : Type} `{TS : TxSpec X} `{UM : UserMem U}.
Implicit Types t : X.

(** The disk has no free block left. *)
Definition disk_full (sb : superblock) (V : Z -> block) : Prop :=
  forall b, 0 <= b < sb_size sb -> in_use V sb b = true.

(** One iteration of the loop that finds space: the store, and the state it leaves. *)
Lemma write_block t sb ino (um : U) ip off bytes {B} (k : M (fsys X U) B) (Q : B -> fsys X U -> Prop)
    r t1 i1 :
  let V := tx_view t in let i := nth ip ino inode0 in
  fs_ready t sb 6 -> (ip < length ino)%nat -> 0 <= off < MAXFILE * BSIZE ->
  off mod BSIZE + Z.of_nat (length bytes) <= BSIZE -> bytes_ok bytes ->
  moved t t1 ∅ 5 -> grown sb V (tx_view t1) i i1 -> r <> 0 -> blk (tx_view t1) i1 (off / BSIZE) = r ->
  (forall t', moved t t' ∅ 6 -> wrote sb V (tx_view t') i i1 off bytes ->
     wp k Q (Fsys t' sb (<[ip := i1]> ino) um)) ->
  wp (let* bp := bread_ ROOTDEV r in
      let* d := data_ bp in
      set_ bp (splice d (off mod BSIZE) bytes) ;;;
      log_write_ bp ;;;
      brelse_ bp ;;;
      k) Q (Fsys t1 sb (<[ip := i1]> ino) um).
Proof.
  intros V i Hrd Hip Hoff Hfit Hby M1 G Hr Eb HQ. pose proof (rd_layout _ _ _ Hrd) as Hl.
  pose proof (gr_file _ _ _ _ _ G) as Hf1.
  assert (Hbn : 0 <= off / BSIZE < MAXFILE) by (unfold MAXFILE, NINDIRECT, NDIRECT, BSIZE in *; lia).
  destruct (fo_map _ _ _ Hf1 _ Hbn) as [Hd _]; [congruence|]. rewrite Eb in Hd.
  pose proof (data_pos sb _ Hl _ Hd) as Hpos. destruct (fl_size _ _ Hl).
  assert (HV1 : forall m, block_ok (tx_view t1 m)) by (intros; eapply tx_view_ok, M1).
  pose proof (rd_bufs _ _ _ Hrd) as Hb. pose proof (mv_used _ _ _ _ M1) as U1. unfold bufs in Hb. rewrite size_empty in Hb.
  wp_step. eapply wp_bread_; [apply M1|set_solver|unfold BPB, BSIZE in *; lia|unfold bufs; rewrite size_empty; lia|].
  intros bp t2 Hi2 Hh2 K2 U2 V2. wp_step. eapply wp_data_; [done..|]. rewrite V2.
  eapply wp_update_; [done|set_solver|done| | | | |].
  { destruct (file_store sb _ (tx_view t1) i1 off bytes Hl HV1 Hf1 (gr_meta _ _ _ _ _ G)) as [Hbk _]; try done; [congruence|].
    by rewrite bput_eq, Eb in Hbk. }
  { apply K2. apply (moved_home _ _ _ _ _ M1), (fl_data_home _ _ Hl), Hd. }
  { apply K2. eapply moved_open; [exact M1|apply Hrd]. }
  { unfold bufs. rewrite size_empty. lia. }
  intros t3 Hi3 Hh3 K3 U3 V3. wp_step. eapply wp_brelse_; [done|set_solver|done|].
  intros t4 Hi4 K4 U4 V4. apply HQ.
  - destruct M1 as [_ K1 _]. split; [done| |lia].
    eapply tx_keep_trans; [exact K1|]. eapply tx_keep_trans; [exact K2|]. by eapply tx_keep_trans.
  - eapply wrote_store; try done; [congruence|]. intros m. rewrite V4, V3, Eb. unfold bput. by rewrite V2.
Qed.

Definition writei_loop_post t sb (ino : list inode) (um : U) ip (l : list Z) (tot off : Z)
    (res : Z * Z) (s : fsys X U) : Prop :=
  let V := tx_view t in let i := nth ip ino inode0 in let n := Z.of_nat (length l) in
  exists t' i' tot', s = Fsys t' sb (<[ip := i']> ino) um /\ res = (tot', off + (tot' - tot)) /\
    tot <= tot' <= n /\ moved t t' ∅ (Z.to_nat (6 * touched off (n - tot))) /\
    wrote sb V (tx_view t') i i' off (slice l tot (tot' - tot)) /\
    (tot' = n \/ disk_full sb (tx_view t')).

(** One block written, and then the rest. *)
Lemma writei_loop_next t sb ino (um : U) ip l tot off m t2 i1 r s :
  let V := tx_view t in let i := nth ip ino inode0 in let n := Z.of_nat (length l) in
  file_ok V sb i -> (ip < length ino)%nat -> n < 2 ^ 31 -> 0 <= tot -> 0 <= off -> off + (n - tot) <= MAXFILE * BSIZE ->
  0 < m <= n - tot /\ m <= BSIZE - off mod BSIZE /\ m = Z.min (n - tot) (1024 - off mod 1024) ->
  moved t t2 ∅ 6 -> wrote sb V (tx_view t2) i i1 off (slice l tot m) ->
  writei_loop_post t2 sb (<[ip := i1]> ino) um ip l (tot + m) (off + m) r s -> writei_loop_post t sb ino um ip l tot off r s.
Proof.
  intros V i n Hf Hip Hn31 Ht Ho Hmax Hm M2 W (t3 & i3 & tot' & -> & -> & Htot & M3 & W3 & Hend). fold n in Htot, M3, Hend.
  unfold MAXFILE, NINDIRECT, NDIRECT, BSIZE in Hmax. change ((12 + 1024 / 4) * 1024) with 274432 in Hmax.
  pose proof (touched_step off (n - tot) m ltac:(lia) ltac:(lia)) as Hstep. pose proof (touched_nonneg (off + m) (n - tot - m)).
  assert (Hlb : Z.of_nat (length (slice l tot m)) = m) by (rewrite length_slice; lia).
  rewrite nth_list_insert_eq in W3 by done. exists t3, i3, tot'. fold n. split_and!; try lia; try done.
  - by rewrite list_insert_insert, decide_True.
  - f_equal. lia.
  - eapply moved_le; [exact (moved_trans _ _ _ _ _ _ M2 M3)|]. replace (n - (tot + m)) with (n - tot - m) by lia. lia.
  - replace (slice l tot (tot' - tot)) with (slice l tot m ++ slice l (tot + m) (tot' - (tot + m))).
    + eapply wrote_trans; [done| |exact W|by rewrite Hlb].
      rewrite length_app, !length_slice by lia. unfold MAXFILE, NINDIRECT, NDIRECT, BSIZE. lia.
    + rewrite slice_app by lia. f_equal. lia.
Qed.

Lemma writei_loop_spec fuel t sb ino (um : U) ip l tot off :
  let V := tx_view t in let i := nth ip ino inode0 in let n := Z.of_nat (length l) in
  fs_ready t sb (Z.to_nat (6 * touched off (n - tot))) -> (ip < length ino)%nat -> file_ok V sb i ->
  bytes_ok l -> n < 2 ^ 31 -> 0 <= tot <= n -> 0 <= off -> off + (n - tot) <= MAXFILE * BSIZE ->
  touched off (n - tot) < Z.of_nat fuel ->
  wp (writei_loop fuel ip (SKernel l) n tot off) (writei_loop_post t sb ino um ip l tot off) (Fsys t sb ino um).
Proof.
  revert t ino tot off. induction fuel as [|fuel IH];
    intros t ino tot off V i n Hrd Hip Hf Hl Hn31 Ht Ho Hmax Hfu.
  { exfalso. pose proof (touched_nonneg off (n - tot)). lia. }
  pose proof Hmax as Hmax'. unfold MAXFILE, NINDIRECT, NDIRECT, BSIZE in Hmax'.
  change ((12 + 1024 / 4) * 1024) with 274432 in Hmax'.
  assert (Eino : <[ip := i]> ino = ino) by (by apply list_insert_id, lookup_nth).
  cbn [writei_loop]. destruct (Z.ltb_spec tot n).
  2:{ apply wp_ret. exists t, i, tot. rewrite Eino. rewrite !Z.sub_diag. split_and!; try done; try lia.
      - f_equal. lia.
      - eapply moved_le; [apply moved_refl, Hrd|lia].
      - unfold slice. simpl. apply wrote_grown, grown_refl; [done|apply Hrd]. }
  set (m := Z.min (u32 (n - tot)) (BSIZE - off mod BSIZE)).
  assert (Hm : 0 < m <= n - tot /\ m <= BSIZE - off mod BSIZE /\ m = Z.min (n - tot) (1024 - off mod 1024)).
  { unfold m. rewrite u32_id by lia. unfold BSIZE. lia. }
  pose proof (touched_step off (n - tot) m ltac:(lia) ltac:(lia)) as Hstep.
  pose proof (touched_nonneg (off + m) (n - tot - m)).
  assert (Hrd6 : fs_ready t sb 6) by (eapply ready_le; [exact Hrd|lia]).
  eapply wp_seq; [apply bmap_spec; try done; [by eapply ready_le; [exact Hrd6|lia]|unfold MAXFILE, NINDIRECT, NDIRECT, BSIZE in *; lia]|].
  intros r s (t1 & i1 & -> & M1 & G & Hres & _). fold V i in G.
  destruct Hres as [[-> Hfull]|[Hr Eb]].
  - simpl. wp_steps. exists t1, i1, tot. rewrite !Z.sub_diag. split_and!; try done; try lia.
    + f_equal. lia.
    + eapply moved_le; [exact M1|fold n; lia].
    + unfold slice. simpl. by apply wrote_grown.
    + by right.
  - rewrite (proj2 (Z.eqb_neq _ _) Hr). wp_steps. cbn [either_copyin].
    assert (E1 : inoat (Fsys t1 sb (<[ip := i1]> ino) um) ip = i1) by (unfold inoat; simpl; by apply nth_list_insert_eq).
    rewrite E1, (fo_dev _ _ _ (gr_file _ _ _ _ _ G)). cbv zeta. fold m.
    set (bytes := slice l tot m).
    assert (Hlb : Z.of_nat (length bytes) = m) by (unfold bytes; rewrite length_slice; lia).
    apply wp_bind_inv. apply (write_block t sb ino um ip off bytes
      (writei_loop fuel ip (SKernel l) n (u32 (tot + m)) (u32 (off + m)))
      (writei_loop_post t sb ino um ip l tot off) r t1 i1); try done; try lia.
    { by apply bytes_ok_slice. }
    intros t2 M2 W. rewrite !u32_id by lia. set (ino1 := <[ip := i1]> ino).
    assert (E1' : nth ip ino1 inode0 = i1) by by apply nth_list_insert_eq.
    eapply wp_conseq; [apply IH|].
    + fold n. replace (n - (tot + m)) with (n - tot - m) by lia.
      eapply ready_moved with (k := 6%nat); [eapply ready_le; [exact Hrd|lia]|exact M2|apply W].
    + unfold ino1. by rewrite length_insert.
    + rewrite E1'. apply W.
    + done.
    + done.
    + fold n. lia.
    + lia.
    + fold n. lia.
    + fold n. replace (n - (tot + m)) with (n - tot - m) by lia. lia.
    + intros res s. apply (writei_loop_next t sb ino um ip l tot off m t2 i1 res s); done || lia.
Qed.

Lemma addrs_range (sb : superblock) may_log V i :
  fs_layout sb may_log -> file_ok V sb i -> Forall (fun a => 0 <= a < 2 ^ 32) (i_addrs i).
Proof.
  intros Hl Hf. destruct (fl_size _ _ Hl) as [_ Hsz]. apply Forall_lookup. intros k a Hk.
  pose proof (lookup_lt_Some _ _ _ Hk) as Hlt. rewrite (fo_len _ _ _ Hf) in Hlt. unfold NDIRECT in Hlt.
  assert (Ea : aget (i_addrs i) (Z.of_nat k) = a) by (unfold aget; rewrite Nat2Z.id; by apply nth_lookup_Some).
  destruct (decide (a = 0)) as [->|Ha]; [lia|].
  assert (Hd : data_block sb a); [|pose proof (data_pos sb may_log Hl a Hd); unfold BPB, BSIZE in *; lia].
  destruct (decide (Z.of_nat k < 12)) as [H12|H12].
  - assert (Eb : blk V i (Z.of_nat k) = a).
    { unfold blk, NDIRECT. by replace (Z.of_nat k <? 12) with true by (symmetry; apply Z.ltb_lt; lia). }
    rewrite <-Eb. apply (fo_map _ _ _ Hf); [unfold MAXFILE, NINDIRECT, NDIRECT, BSIZE; lia|congruence].
  - assert (Ei : ind i = a) by (unfold ind, NDIRECT; rewrite <-Ea; f_equal; lia).
    rewrite <-Ei. apply (fo_ind _ _ _ Hf). congruence.
Qed.

(** The inode's fields that live on disk are in range, and it has a place there. *)
Record meta_ok (sb : superblock) (i : inode) : Prop := {
  mo_inum : 0 <= i_inum i < sb_ninodes sb;
  mo_type : - 2 ^ 15 <= i_type i < 2 ^ 15;
  mo_major : - 2 ^ 15 <= i_major i < 2 ^ 15;
  mo_minor : - 2 ^ 15 <= i_minor i < 2 ^ 15;
  mo_nlink : - 2 ^ 15 <= i_nlink i < 2 ^ 15 }.

Lemma to_dinode_ok (sb : superblock) may_log V i :
  fs_layout sb may_log -> file_ok V sb i -> meta_ok sb i -> dinode_ok (to_dinode i).
Proof.
  intros Hl Hf []. pose proof (fo_size _ _ _ Hf). unfold dinode_ok. simpl.
  split_and!; try lia; try apply Hf; try (by eapply addrs_range).
  unfold MAXFILE, NINDIRECT, NDIRECT, BSIZE in *. lia.
Qed.

(** Writing the inode back changes no file. *)
Lemma file_iupdate (sb : superblock) may_log V i j :
  fs_layout sb may_log -> file_ok V sb i -> meta_used V sb -> 0 <= i_inum j < sb_ninodes sb ->
  (forall bn, blk (iupdate_view V sb j) i bn = blk V i bn) /\
  (forall k, 0 <= k < MAXFILE * BSIZE -> fbyte (iupdate_view V sb j) i k = fbyte V i k) /\
  file_ok (iupdate_view V sb j) sb i /\
  (forall b, 0 <= b < sb_size sb -> in_use (iupdate_view V sb j) sb b = in_use V sb b).
Proof.
  intros Hl Hf Hm Hj. destruct (IBLOCK_eq sb may_log (i_inum j) Hl Hj) as [_ Hib].
  assert (Eu : forall b, 0 <= b < sb_size sb -> in_use (iupdate_view V sb j) sb b = in_use V sb b).
  { intros b Hb. apply in_use_ext, bput_ne. destruct (BBLOCK_eq sb may_log b Hl Hb) as [_ Hbb].
    unfold inode_block, bmap_block in *. lia. }
  destruct (file_ext sb V i Hf (iupdate_view V sb j)) as (E1 & E2 & E3).
  - intros b Hd _. apply bput_ne. unfold inode_block, data_block, nbitmap in *.
    destruct (fl_size _ _ Hl). unfold BPB, BSIZE in *. lia.
  - intros b Hd Hu. rewrite Eu; [done|]. pose proof (data_pos sb may_log Hl b Hd). lia.
  - by split_and!.
Qed.

Lemma file_ok_size V sb i z : file_ok V sb i -> 0 <= z <= MAXFILE * BSIZE -> file_ok V sb (i <| i_size := z |>).
Proof. intros [] Hz. split; done. Qed.

(** The blocks of a file: its data blocks and its indirect block. *)
Definition owns (V : Z -> block) (i : inode) (b : Z) : Prop :=
  b <> 0 /\ (b = ind i \/ exists bn, 0 <= bn < MAXFILE /\ b = blk V i bn).

(** Two files that share no block. *)
Definition apart (V : Z -> block) (i j : inode) : Prop := forall b, owns V i b -> ~ owns V j b.

Lemma owns_used V sb i b : file_ok V sb i -> owns V i b -> data_block sb b /\ in_use V sb b = true.
Proof.
  intros Hf (Hnz & [->|(bn & Hbn & ->)]).
  - destruct (fo_ind _ _ _ Hf Hnz) as (H1 & H2 & _). done.
  - by apply (fo_map _ _ _ Hf).
Qed.

(** A file reads the same in contents that agree on its blocks. *)
Lemma file_frame V V' sb j :
  file_ok V sb j -> (forall b, owns V j b -> V' b = V b) ->
  (forall b, 0 <= b < sb_size sb -> data_block sb b -> in_use V sb b = true -> in_use V' sb b = true) ->
  (forall bn, blk V' j bn = blk V j bn) /\
  (forall k, 0 <= k < MAXFILE * BSIZE -> fbyte V' j k = fbyte V j k) /\
  (0 <= sb_bmapstart sb + nbitmap sb -> file_ok V' sb j).
Proof.
  intros Hf Hown Huse.
  assert (Eb : forall bn, blk V' j bn = blk V j bn).
  { intros bn. unfold blk. destruct (bn <? NDIRECT); [done|]. destruct (Z.eqb_spec (ind j) 0); [done|].
    rewrite Hown; [done|]. split; [done|by left]. }
  split_and!; [done| |].
  - intros k Hk. unfold fbyte. rewrite Eb. destruct (Z.eqb_spec (blk V j (k / BSIZE)) 0) as [|Hnz]; [done|].
    rewrite Hown; [done|]. split; [done|right]. eexists. split; [|done].
    unfold MAXFILE, NINDIRECT, NDIRECT, BSIZE in *. lia.
  - intros H0. destruct Hf as [F1 F2 F3 F4 F5 F6]. split; try done.
    + intros bn Hbn. rewrite Eb. intros Hnz. destruct (F4 bn Hbn Hnz) as [Hd Hu]. split; [done|].
      unfold data_block in Hd. apply Huse; [lia|done..].
    + intros bn bn' ? ?. rewrite !Eb. by apply F5.
    + intros Hnz. destruct (F6 Hnz) as (Hd & Hu & Hne). split_and!; [done| |].
      * unfold data_block in Hd. apply Huse; [lia|done..].
      * intros bn Hbn. rewrite Eb. by apply Hne.
Qed.

(** A write touches no block of another file, and takes none. *)
Lemma wrote_apart sb may_log V V' i i' off l j :
  fs_layout sb may_log -> wrote sb V V' i i' off l -> file_ok V sb i -> file_ok V sb j -> apart V i j ->
  (forall b, owns V j b -> ~ owns V' i' b) /\ (forall b, owns V j b -> V' b = V b).
Proof.
  intros Hl W Hi Hj Hap. destruct (fl_bmap _ _ Hl) as [Hb0 _].
  assert (Hnb : 0 <= nbitmap sb).
  { pose proof (fl_size _ _ Hl). unfold nbitmap, BPB, BSIZE in *. lia. }
  assert (Hno : forall b, owns V j b -> ~ owns V' i' b).
  { intros b Hb (Hnz & Ho). destruct (owns_used _ _ _ _ Hj Hb) as [Hd Hu]. destruct Ho as [->|(bn & Hbn & ->)].
    - destruct (wr_ind _ _ _ _ _ _ _ W) as [E|(_ & _ & F)]; [|congruence].
      apply (Hap (ind i')); [|done]. split; [done|by left].
    - destruct (decide (blk V i bn = 0)) as [E0|Hnz0].
      + destruct (wr_fresh _ _ _ _ _ _ _ W bn) as [_ F]; [done..|congruence].
      + rewrite (wr_map _ _ _ _ _ _ _ W) in Hb by done. apply (Hap _ ltac:(split; [exact Hnz0|right; by exists bn]) Hb). }
  split; [done|]. intros b Hb. destruct (owns_used _ _ _ _ Hj Hb) as [Hd Hu]. pose proof Hd as Hd'.
  unfold data_block in Hd'. apply (wr_frame _ _ _ _ _ _ _ W); [lia|done| | |].
  - unfold bmap_block. lia.
  - intros ->. apply (Hap (ind i)); [|done]. split; [apply Hb|by left].
  - intros bn Hbn E. apply (Hno b Hb). split; [apply Hb|right]. by exists bn.
Qed.

(** A finished write, with the size set and the inode written back. *)
Lemma wrote_settled sb may_log V V1 V2 i i1 off l z :
  let i2 := i1 <| i_size := z |> in
  fs_layout sb may_log -> (forall m, block_ok (V1 m)) -> wrote sb V V1 i i1 off l -> meta_ok sb i ->
  mapped V i -> file_ok V sb i -> 0 <= off <= i_size i -> off + Z.of_nat (length l) <= MAXFILE * BSIZE ->
  z = Z.max (i_size i) (off + Z.of_nat (length l)) ->
  (forall m, V2 m = iupdate_view V1 sb i2 m) ->
  file_ok V2 sb i2 /\ mapped V2 i2 /\ meta_used V2 sb /\
  (forall k, 0 <= k < MAXFILE * BSIZE -> fbyte V2 i2 k =
     if decide (off <= k < off + Z.of_nat (length l)) then aget l (k - off) else fbyte V i k) /\
  (forall b, 0 <= b < sb_size sb -> in_use V2 sb b = in_use V1 sb b) /\
  disk_inode V2 sb (i_inum i2) = to_dinode i2.
Proof.
  intros i2 Hl HV W Hmo Hmap Hf Hoff Hmax Hz E2. pose proof (fo_size _ _ _ Hf).
  assert (Hf2 : file_ok V1 sb i2) by (apply file_ok_size; [apply W|lia]).
  assert (Hmo2 : meta_ok sb i2).
  { destruct Hmo. unfold i2. rewrite (wr_same _ _ _ _ _ _ _ W). by split. }
  destruct (file_iupdate sb may_log V1 i2 i2) as (Eb & Ek & Hf3 & Eu); [done..|apply W|apply Hmo2|].
  assert (Hm3 : meta_used (iupdate_view V1 sb i2) sb).
  { intros b Hb Hu. rewrite Eu in Hu by done. exact (wr_meta _ _ _ _ _ _ _ W b Hb Hu). }
  split_and!.
  - by eapply file_ok_ext.
  - intros k Hk. simpl in Hk. rewrite (blk_ext _ _ _ _ E2), Eb. change (blk V1 i2) with (blk V1 i1).
    destruct (decide (k < i_size i)).
    + rewrite (wr_map _ _ _ _ _ _ _ W); [apply Hmap; lia| |apply Hmap; lia].
      unfold MAXFILE, NINDIRECT, NDIRECT, BSIZE in *. lia.
    + apply (wr_new _ _ _ _ _ _ _ W). lia.
  - by eapply meta_ext.
  - intros k Hk. rewrite (fbyte_ext _ _ _ _ E2), Ek by done. by apply (wr_byte _ _ _ _ _ _ _ W).
  - intros b Hb. by rewrite (in_use_eq _ _ _ _ E2), Eu.
  - unfold disk_inode. rewrite E2. apply iupdate_view_self; [done|]. by eapply to_dinode_ok.
Qed.

(** The other files after a finished write. *)
Lemma wrote_others sb may_log V V1 V2 i i1 off l z j :
  let i2 := i1 <| i_size := z |> in
  fs_layout sb may_log -> wrote sb V V1 i i1 off l -> meta_ok sb i -> file_ok V sb i ->
  (forall m, V2 m = iupdate_view V1 sb i2 m) -> file_ok V sb j -> apart V i j ->
  file_ok V2 sb j /\ apart V2 i2 j /\ forall k, 0 <= k < MAXFILE * BSIZE -> fbyte V2 j k = fbyte V j k.
Proof.
  intros i2 Hl W Hmo Hi E2 Hj Hap. destruct (wrote_apart _ _ _ _ _ _ _ _ _ Hl W Hi Hj Hap) as [Hno Hkeep].
  assert (Hnb : 0 <= sb_bmapstart sb + nbitmap sb).
  { pose proof (fl_size _ _ Hl). pose proof (fl_bmap _ _ Hl). unfold nbitmap, BPB, BSIZE in *. lia. }
  destruct (file_frame V V1 sb j Hj Hkeep) as (Eb & Ek & Hf1).
  { intros b Hb _. by apply W. }
  specialize (Hf1 Hnb).
  assert (Hin : 0 <= i_inum i2 < sb_ninodes sb).
  { unfold i2. rewrite (wr_same _ _ _ _ _ _ _ W). apply Hmo. }
  assert (Hm2 : meta_used (iupdate_view V1 sb i2) sb).
  { destruct (file_iupdate sb may_log V1 j i2) as (_ & _ & _ & Eu); [done..|apply W|done|].
    intros b Hb Hu. rewrite Eu in Hu by done. exact (wr_meta _ _ _ _ _ _ _ W b Hb Hu). }
  destruct (file_iupdate sb may_log V1 j i2) as (Eb2 & Ek2 & Hf2 & _); [done..|apply W|done|].
  destruct (file_iupdate sb may_log V1 i1 i2) as (Ei & _); [done|apply W|apply W|done|].
  split_and!.
  - by eapply file_ok_ext.
  - intros b (Hnz & Ho) (_ & Hoj). apply (Hno b).
    + split; [done|]. destruct Hoj as [?|(bn & ? & ->)]; [by left|right]. exists bn. split; [done|].
      by rewrite (blk_ext _ _ _ _ E2), Eb2, Eb.
    + split; [done|]. destruct Ho as [?|(bn & ? & ->)]; [by left|right]. exists bn. split; [done|].
      rewrite (blk_ext _ _ _ _ E2). change (blk (iupdate_view V1 sb i2) i2 bn) with (blk (iupdate_view V1 sb i2) i1 bn).
      by rewrite Ei.
  - intros k Hk. by rewrite (fbyte_ext _ _ _ _ E2), Ek2, Ek.
Qed.

Definition writei_post t sb (ino : list inode) (um : U) ip off (l : list Z) (r : Z) (s : fsys X U) : Prop :=
  let V := tx_view t in let i := nth ip ino inode0 in let n := Z.of_nat (length l) in
  exists t' i', s = Fsys t' sb (<[ip := i']> ino) um /\
    moved t t' ∅ (Z.to_nat (6 * touched off n + 1)) /\
    0 <= r <= n /\ (r = n \/ disk_full sb (tx_view t')) /\
    i_size i' = Z.max (i_size i) (off + r) /\
    i' = i <| i_addrs := i_addrs i' |> <| i_size := i_size i' |> /\
    file_ok (tx_view t') sb i' /\ mapped (tx_view t') i' /\ meta_used (tx_view t') sb /\
    (forall k, 0 <= k < MAXFILE * BSIZE -> fbyte (tx_view t') i' k =
       if decide (off <= k < off + r) then aget l (k - off) else fbyte V i k) /\
    disk_inode (tx_view t') sb (i_inum i) = to_dinode i' /\
    (forall j, file_ok V sb j -> apart V i j ->
       file_ok (tx_view t') sb j /\ apart (tx_view t') i' j /\
       forall k, 0 <= k < MAXFILE * BSIZE -> fbyte (tx_view t') j k = fbyte V j k).

(** The size after the loop. *)
Lemma grow_size t sb ino (um : U) ip i1 z :
  (ip < length ino)%nat ->
  wp (if i_size i1 <? z then modify (setino ip (fun i => i <| i_size := z |>)) else ret tt)
    (fun _ s => s = Fsys t sb (<[ip := i1 <| i_size := Z.max (i_size i1) z |>]> ino) um) (Fsys t sb (<[ip := i1]> ino) um).
Proof.
  intros Hip. destruct (Z.ltb_spec (i_size i1) z).
  - wp_steps. unfold setino, inoat. simpl. rewrite nth_list_insert_eq by done. rewrite list_insert_insert, decide_True by done.
    by replace (Z.max (i_size i1) z) with z by lia.
  - wp_steps. do 2 f_equal. replace (Z.max _ _) with (i_size i1) by lia. by destruct i1.
Qed.

Lemma writei_spec t sb ino (um : U) ip off l :
  let V := tx_view t in let i := nth ip ino inode0 in let n := Z.of_nat (length l) in
  fs_ready t sb (Z.to_nat (6 * touched off n + 1)) -> (ip < length ino)%nat -> file_ok V sb i ->
  mapped V i -> meta_ok sb i -> bytes_ok l -> 0 <= off <= i_size i -> off + n <= MAXFILE * BSIZE ->
  wp (writei ip (SKernel l) off n) (writei_post t sb ino um ip off l) (Fsys t sb ino um).
Proof.
  intros V i n Hrd Hip Hf Hmap Hmeta Hl Ho Hmax. pose proof (fo_size _ _ _ Hf) as Hsz.
  pose proof (touched_bound off n ltac:(lia)) as Htb. pose proof (touched_nonneg off n) as Htn.
  assert (Hn31 : off + n < 2 ^ 31) by (unfold MAXFILE, NINDIRECT, NDIRECT, BSIZE in *; lia).
  unfold writei. wp_steps. change (inoat (Fsys t sb ino um) ip) with i. rewrite !u32_id by lia.
  replace (i_size i <? off) with false by (symmetry; apply Z.ltb_ge; lia).
  replace (off + n <? off) with false by (symmetry; apply Z.ltb_ge; lia). cbn [orb].
  replace (MAXFILE * BSIZE <? off + n) with false by (symmetry; apply Z.ltb_ge; lia). wp_step.
  eapply wp_conseq; [apply writei_loop_spec; try done; rewrite ?Z.sub_0_r; try lia|].
  { eapply ready_le; [exact Hrd|]. fold n. lia. }
  { fold n. unfold BSIZE. lia. }
  intros [tot off'] s (t1 & i1 & tot' & -> & [= -> ->] & Htot & M1 & W & Hend).
  rewrite !Z.sub_0_r in *. fold V i n in Htot, M1, W, Hend. wp_steps.
  set (ino1 := <[ip := i1]> ino).
  assert (E1 : inoat (Fsys t1 sb ino1 um) ip = i1) by (unfold inoat; simpl; by apply nth_list_insert_eq).
  rewrite E1. assert (Es1 : i_size i1 = i_size i) by by rewrite (wr_same _ _ _ _ _ _ _ W).
  set (i2 := i1 <| i_size := Z.max (i_size i) (off + tot') |>).
  eapply wp_conseq; [by apply grow_size|]. rewrite Es1. fold i2.
  intros [] ? ->. wp_step.
  assert (E2 : nth ip (<[ip := i2]> ino) inode0 = i2) by by apply nth_list_insert_eq.
  assert (Hl1 : fs_layout sb (tx_home t1)) by (eapply layout_moved; [exact M1|apply Hrd]).
  assert (Hf2 : file_ok (tx_view t1) sb i2) by (apply file_ok_size; [apply W|unfold n in *; lia]).
  assert (Ei2 : i_inum i2 = i_inum i /\ i_dev i2 = ROOTDEV).
  { unfold i2. simpl. rewrite (wr_same _ _ _ _ _ _ _ W). simpl. split; [done|apply Hf]. }
  pose proof (iupdate_spec t1 sb (<[ip := i2]> ino) um ip) as Hup. cbv zeta in Hup. rewrite E2 in Hup.
  eapply wp_conseq; [apply Hup; try done|].
  { apply M1. }
  { eapply moved_open; [exact M1|apply Hrd]. }
  { pose proof (rd_bufs _ _ _ Hrd). pose proof (mv_used _ _ _ _ M1). unfold bufs in *. lia. }
  { apply Ei2. }
  { rewrite (proj1 Ei2). apply Hmeta. }
  { apply Hf2. }
  intros [] s (t2 & -> & M2 & V2). wp_steps. rewrite s32_id by lia.
  exists t2, i2. fold n. split_and!; try lia; try done.
  { eapply moved_le; [exact (moved_trans _ _ _ _ _ _ M1 M2)|lia]. }
  all: destruct (wrote_settled sb (tx_home t1) V (tx_view t1) (tx_view t2) i i1 off (slice l 0 tot') (Z.max (i_size i) (off + tot')))
    as (S1 & S2 & S3 & S4 & S5 & S6); try done; try (intros; by eapply tx_view_ok, M1);
    rewrite ?length_slice by lia; try (unfold n in *; lia).
  - destruct Hend as [->|Hfull]; [by left|right]. intros b Hb. rewrite S5 by done. by apply Hfull.
  - unfold i2. rewrite (wr_same _ _ _ _ _ _ _ W). done.
  - intros k Hk. rewrite S4 by done. rewrite length_slice by lia. rewrite Z2Nat.id by lia.
    case_decide; [|done]. unfold aget, slice. rewrite drop_0.
    rewrite <-(take_drop (Z.to_nat tot') l) at 2. rewrite app_nth1; [done|]. rewrite length_take. lia.
  - fold i. rewrite <-(proj1 Ei2). exact S6.
  - intros j Hj Hap. by eapply wrote_others.
Qed.
End Writei.

Section FileTheorems.
Context {X U : Type} `{TS : TxSpec X} `{UM : UserMem U}.



(** What is written is read back.  [writei] of [l] followed by [readi] of as many bytes as were
    stored, at the same offset, returns the stored prefix of [l]. *)
Theorem write_then_read (t : X) sb ino (um : U) ip off l :
  let V := tx_view t in let i := nth ip ino inode0 in let n := Z.of_nat (length l) in
  fs_ready t sb (Z.to_nat (6 * touched off n + 6)) -> (ip < length ino)%nat -> file_ok V sb i ->
  mapped V i -> meta_ok sb i -> bytes_ok l -> 0 <= off <= i_size i -> off + n <= MAXFILE * BSIZE ->
  wp (let* r := writei ip (SKernel l) off n in
      let* res := readi ip DKernel off r in
      ret (r, res)) (fun out s =>
    let '(r, (r2, bytes)) := out in
    r2 = r /\ bytes = take (Z.to_nat r) l /\ (r = n \/ disk_full sb (tx_view (f_tx s)))) (Fsys t sb ino um).
Proof.
  intros V i n Hrd Hip Hf Hmap Hmo Hl Ho Hmax. pose proof (touched_nonneg off n).
  wp_step. eapply wp_conseq; [apply writei_spec; try done; eapply ready_le; [exact Hrd|fold n; lia]|].
  intros r s (t1 & i1 & -> & M1 & Hr & Hfull & Hsz & Hi1 & Hf1 & Hmap1 & Hm1 & Hb1 & _ & _). fold n in M1, Hr, Hfull.
  fold i in Hsz. fold V i in Hb1.
  set (ino1 := <[ip := i1]> ino). assert (E1 : nth ip ino1 inode0 = i1) by by apply nth_list_insert_eq.
  assert (Hrd1 : fs_ready t1 sb 5).
  { eapply ready_moved; [|exact M1|done]. eapply ready_le; [exact Hrd|lia]. }
  pose proof (readi_spec t1 sb ino1 um ip off r) as Hread. cbv zeta in Hread. rewrite E1 in Hread.
  pose proof (fo_size _ _ _ Hf1). unfold MAXFILE, NINDIRECT, NDIRECT, BSIZE in *. change ((12 + 1024 / 4) * 1024) with 274432 in *.
  wp_step. eapply wp_conseq; [apply Hread; try done; try lia|].
  { unfold ino1. by rewrite length_insert. }
  intros res s (t2 & -> & M2 & E2 & ->). wp_steps.
  assert (Er : read_len (i_size i1) off r = r) by (unfold read_len; lia). rewrite Er. split_and!; [done| |].
  - apply list_eq. intros k. unfold fbytes. rewrite list_lookup_fmap.
    destruct (decide (Z.of_nat k < r)) as [Hk|Hk].
    + assert (Ek : seqZ off r !! k = Some (off + Z.of_nat k)) by (apply lookup_seqZ; lia). rewrite Ek. simpl.
      rewrite Hb1, decide_True by lia. rewrite lookup_take_lt by lia.
      rewrite (lookup_nth l k 0) by lia. f_equal. unfold aget. f_equal. lia.
    + rewrite lookup_take_ge by lia.
      assert (Ek : seqZ off r !! k = None) by (apply lookup_ge_None; rewrite length_seqZ; lia). by rewrite Ek.
  - destruct Hfull as [?|Hfull]; [by left|right]. intros b Hb. cbn [f_tx]. rewrite (in_use_eq _ _ _ _ E2). by apply Hfull.
Qed.
End FileTheorems.
