(* ===== verification/FsDir.v ===== *)
(** Directories and path names, kernel/fs.c: [skipelem] against a split of the
    path at slashes, and [dirlookup] against the list of directory entries. *)

From S2P Require Import Prelude Bytes Params Disk Sleeplock CString Tx Fs FsBlocks FsInode FsFile.

(** ** Path elements *)

(** The pieces of [l] between slashes, also empty ones. *)
Fixpoint split_slash (l : list Z) : list (list Z) :=
  match l with
  | [] => [[]]
  | x :: l' => if x =? SLASH then [] :: split_slash l'
               else match split_slash l' with
                    | h :: r => (x :: h) :: r
                    | [] => [[x]]
                    end
  end.

(** The elements of a path. *)
Definition elems (path : list Z) : list (list Z) := filter (fun e => e <> []) (split_slash path).

Lemma split_slash_cons l : exists h r, split_slash l = h :: r.
Proof. induction l as [|x l (h & r & E)]; simpl; [eauto|]. case_match; [eauto|]. rewrite E. eauto. Qed.

Lemma elems_skip path : elems (skip_slashes path) = elems path.
Proof.
  induction path as [|x path IH]; [done|]. simpl. destruct (Z.eqb_spec x SLASH) as [->|]; [|done].
  rewrite IH. unfold elems. simpl. by rewrite filter_cons_False by tauto.
Qed.

Lemma skip_slashes_hd path : hd 0 (skip_slashes path) <> SLASH.
Proof.
  induction path as [|x path IH]; simpl; [done|]. destruct (Z.eqb_spec x SLASH); [done|]. simpl. done.
Qed.

Lemma skip_slashes_nz path : Forall (fun c => c <> 0) path -> Forall (fun c => c <> 0) (skip_slashes path).
Proof.
  induction path as [|x path IH]; intros Hf; simpl; [done|]. inversion Hf; subst.
  case_match; [by apply IH|done].
Qed.

(** The pieces of a path from the element at its front. *)
Lemma path_elem_split path e r :
  Forall (fun c => c <> 0) path -> path_elem path = (e, r) ->
  path = e ++ r /\ Forall (fun c => c <> 0 /\ c <> SLASH) e /\ (r = [] \/ hd 0 r = SLASH) /\
  exists q, split_slash path = e :: q /\ filter (fun x => x <> []) q = elems r.
Proof.
  revert e r. induction path as [|x path IH]; intros e r Hf Hp; simpl in *.
  { injection Hp as <- <-. split_and!; [done|constructor|by left|]. exists []. done. }
  inversion Hf as [|? ? Hx Hf']; subst.
  destruct (Z.eqb_spec x SLASH) as [->|Hs]; simpl in Hp.
  - injection Hp as <- <-. split_and!; [done|constructor|by right|].
    exists (split_slash path). split; [done|]. unfold elems. simpl. by rewrite filter_cons_False by tauto.
  - destruct (Z.eqb_spec x 0); [done|]. destruct (path_elem path) as [e' r'] eqn:E.
    injection Hp as <- <-. destruct (IH e' r' Hf' eq_refl) as (-> & He & Hr & q & Eq & Fq).
    split_and!; [done|by constructor|done|]. exists q. by rewrite Eq.
Qed.

Lemma elems_nonempty path : path <> [] -> hd 0 path <> SLASH -> elems path <> [].
Proof.
  destruct path as [|x path]; [done|]. simpl. intros _ Hx. unfold elems. simpl.
  rewrite (proj2 (Z.eqb_neq x SLASH) Hx). destruct (split_slash_cons path) as (h & r & ->).
  by rewrite filter_cons_True by done.
Qed.

(** The contents of the 14-byte [name] buffer for an element. *)
Definition name_of (e name : list Z) : list Z :=
  if decide (length e < 14)%nat then e ++ [0] ++ drop (S (length e)) name else take 14 e.

(** [skipelem] takes a path apart element by element.  For a path without elements it returns the
    null pointer; otherwise it puts the first element into [name], cut to 14 bytes and
    NUL-terminated if shorter, and returns a path whose elements are the remaining ones, which does not
    start with a slash, and which is empty exactly when the element was the last. *)
Theorem skipelem_correct path name :
  Forall (fun c => c <> 0) path -> length name = Z.to_nat DIRSIZ ->
  match elems path with
  | [] => skipelem path name = None
  | e :: es => exists rest, skipelem path name = Some (rest, name_of e name) /\ elems rest = es /\
      hd 0 rest <> SLASH /\ (rest = [] <-> es = []) /\ Forall (fun c => c <> 0) rest
  end.
Proof.
  intros Hf Hn. change (Z.to_nat DIRSIZ) with 14%nat in Hn. rewrite <-elems_skip. unfold skipelem.
  pose proof (skip_slashes_hd path) as Hhd. pose proof (skip_slashes_nz path Hf) as Hf'.
  set (p := skip_slashes path) in *. clearbody p. cbv zeta.
  destruct p as [|x p]; [done|]. simpl hd in *. inversion Hf' as [|? ? Hx _]; subst.
  rewrite (proj2 (Z.eqb_neq x 0) Hx).
  destruct (path_elem (x :: p)) as [e r] eqn:E.
  destruct (path_elem_split (x :: p) e r Hf' E) as (Ep & He & Hr & q & Eq & Fq).
  assert (Hne : e <> []).
  { intros ->. simpl in Ep. subst r. destruct Hr as [?|Hr]; [done|]. simpl in Hr. congruence. }
  assert (Eel : elems (x :: p) = e :: elems r) by (unfold elems at 1; rewrite Eq, filter_cons_True by done; by rewrite Fq).
  rewrite Eel. exists (skip_slashes r).
  assert (Hfr : Forall (fun c => c <> 0) r) by (rewrite Ep in Hf'; by apply Forall_app in Hf' as [_ ?]).
  split_and!.
  - do 2 f_equal. unfold name_of, DIRSIZ. destruct (Z.leb_spec 14 (Z.of_nat (length e))).
    + rewrite decide_False by lia. unfold splice, slice. simpl. rewrite drop_0.
      rewrite drop_ge; [by rewrite app_nil_r|]. rewrite length_take. lia.
    + rewrite decide_True by lia. unfold splice, aset. simpl. rewrite Nat2Z.id.
      rewrite insert_app_r_alt by lia. rewrite Nat.sub_diag. f_equal.
      assert (Hd : drop (length e) name = nth (length e) name 0 :: drop (S (length e)) name).
      { apply drop_S. apply lookup_nth. lia. }
      by rewrite Hd.
  - by rewrite elems_skip.
  - apply skip_slashes_hd.
  - pose proof (skip_slashes_hd r) as Hh. rewrite <-(elems_skip r). split; [by intros ->|].
    intros Hes. destruct (decide (skip_slashes r = [])); [done|]. by apply elems_nonempty in Hes.
  - by apply skip_slashes_nz.
Qed.

Lemma skipelem_correct_witness :
  exists rest, skipelem [47; 47; 97; 47; 47; 98; 98] (replicate 14 0) =
    Some (rest, name_of [97] (replicate 14 0)) /\ elems rest = [[98; 98]].
Proof.
  destruct (skipelem_correct [47; 47; 97; 47; 47; 98; 98] (replicate 14 0)) as (rest & E1 & E2 & _).
  - repeat constructor; lia.
  - reflexivity.
  - exists rest. split; [exact E1|exact E2].
Defined.

(** ** Directory entries *)

(** Entry [k] of a directory, and whether it is in use for [name]. *)
Definition dent (V : Z -> block) (i : inode) (k : Z) : list Z := fbytes V i (DIRENT_SIZE * k) DIRENT_SIZE.
Definition matches (name de : list Z) : bool := negb (de_inum de =? 0) && (namecmp name (de_name de) =? 0).

(** A directory: a file of whole entries. *)
Record dir_ok (V : Z -> block) (sb : superblock) (i : inode) : Prop := {
  dr_file : file_ok V sb i;
  dr_mapped : mapped V i;
  dr_type : i_type i = T_DIR;
  dr_size : i_size i mod DIRENT_SIZE = 0 }.

Definition nents (i : inode) : Z := i_size i / DIRENT_SIZE.

Section Dirlookup.
Context {X U : Type} `{TS : TxSpec X} `{UM : UserMem U}.

(** The first entry for [name], with the table entry of its inode, or none. *)
Definition dirlookup_post (t : X) sb ino (um : U) dp name (res : option (nat * Z)) (s : fsys X U) : Prop :=
  let V := tx_view t in let i := nth dp ino inode0 in
  exists t', moved t t' ∅ 0 /\ (forall m, tx_view t' m = V m) /\
  match res with
  | None => s = Fsys t' sb ino um /\ forall k, 0 <= k < nents i -> matches name (dent V i k) = false
  | Some (ip, off) => exists k, off = DIRENT_SIZE * k /\ 0 <= k < nents i /\
      matches name (dent V i k) = true /\ (forall j, 0 <= j < k -> matches name (dent V i j) = false) /\
      iget_post t' sb ino um ROOTDEV (de_inum (dent V i k)) ip s
  end.

Lemma dir_ok_ext V V' sb i : (forall m, V' m = V m) -> meta_used V sb -> dir_ok V sb i -> dir_ok V' sb i.
Proof.
  intros E Hm []. split; try done; [by eapply file_ok_ext|].
  intros k Hk. rewrite (blk_ext _ _ _ _ E). by apply dr_mapped0.
Qed.

Lemma dent_ext V V' i k : (forall m, V' m = V m) -> dent V' i k = dent V i k.
Proof. intros E. apply fbytes_ext. intros. by apply fbyte_ext. Qed.

Lemma read_dent (t : X) sb ino (um : U) dp k :
  let V := tx_view t in let i := nth dp ino inode0 in
  fs_ready t sb 5 -> (dp < length ino)%nat -> dir_ok V sb i -> 0 <= k < nents i ->
  wp (readi dp DKernel (DIRENT_SIZE * k) DIRENT_SIZE) (fun res s => exists t', s = Fsys t' sb ino um /\
    moved t t' ∅ 0 /\ (forall m, tx_view t' m = V m) /\ res = (DIRENT_SIZE, dent V i k)) (Fsys t sb ino um).
Proof.
  intros V i Hrd Hdp [Hf Hm Ht Hs] Hk. pose proof (fo_size _ _ _ Hf) as Hsz.
  unfold nents, MAXFILE, NINDIRECT, NDIRECT, BSIZE, DIRENT_SIZE in *.
  change ((12 + 1024 / 4) * 1024) with 274432 in *.
  eapply wp_conseq; [apply readi_spec; try done; fold i; lia|].
  intros res s (t' & -> & M & E & ->). exists t'. fold i. unfold dent, DIRENT_SIZE.
  assert (Er : read_len (i_size i) (16 * k) 16 = 16) by (unfold read_len; lia). rewrite Er. by split_and!.
Qed.

Lemma dirlookup_loop_spec fuel (t : X) sb ino (um : U) dp name k :
  let V := tx_view t in let i := nth dp ino inode0 in
  fs_ready t sb 5 -> (dp < length ino)%nat -> dir_ok V sb i -> itable_ok ino -> Exists (fun i => i_ref i = 0) ino ->
  0 <= k <= nents i -> nents i - k < Z.of_nat fuel ->
  (forall j, 0 <= j < k -> matches name (dent V i j) = false) ->
  wp (dirlookup_loop fuel dp name (DIRENT_SIZE * k)) (dirlookup_post t sb ino um dp name) (Fsys t sb ino um).
Proof.
  revert t k. induction fuel as [|fuel IH]; intros t k V i Hrd Hdp Hd Hit Hfree Hk Hfu Hno; [lia|].
  cbn [dirlookup_loop]. wp_steps. change (inoat (Fsys t sb ino um) dp) with i.
  pose proof (fo_size _ _ _ (dr_file _ _ _ Hd)) as Hsz. pose proof (dr_size _ _ _ Hd) as Hmod.
  unfold nents, MAXFILE, NINDIRECT, NDIRECT, BSIZE in *. change ((12 + 1024 / 4) * 1024) with 274432 in *.
  destruct (Z.ltb_spec (DIRENT_SIZE * k) (i_size i)).
  2:{ apply wp_ret. exists t. split_and!; [apply moved_refl, Hrd|done|done|].
      intros j Hj. apply Hno. unfold nents, DIRENT_SIZE in *. fold i in Hj. lia. }
  assert (Hkn : 0 <= k < i_size i / DIRENT_SIZE) by (unfold DIRENT_SIZE in *; lia).
  wp_step. eapply wp_conseq; [by apply read_dent|].
  intros res s (t1 & -> & M1 & E1 & ->). fold V i in E1 |- *.
  change (negb (DIRENT_SIZE =? DIRENT_SIZE)) with false. cbn match.
  assert (Hnext : matches name (dent V i k) = false ->
    wp (dirlookup_loop fuel dp name (u32 (DIRENT_SIZE * k + DIRENT_SIZE)))
       (dirlookup_post t sb ino um dp name) (Fsys t1 sb ino um)).
  { intros Hnk. rewrite u32_id by (unfold DIRENT_SIZE in *; lia).
    replace (DIRENT_SIZE * k + DIRENT_SIZE) with (DIRENT_SIZE * (k + 1)) by lia.
    eapply wp_conseq; [apply IH; try done|].
    - by eapply ready_same.
    - eapply dir_ok_ext; [exact E1|apply Hrd|done].
    - unfold nents. fold i. lia.
    - unfold nents. fold i. lia.
    - intros j Hj. rewrite (dent_ext V _ _ _ E1). destruct (decide (j = k)) as [->|]; [done|]. apply Hno. lia.
    - intros res s (t2 & M2 & E2 & Hres). exists t2. split_and!.
      + by apply (moved_trans t t1 t2 ∅ 0 0).
      + intros m. by rewrite E2, E1.
      + fold V i in Hres |- *. destruct res as [[ip off]|].
        * destruct Hres as (k' & -> & Hk' & Hmk & Hlow & Hg). exists k'. rewrite !(dent_ext V _ _ _ E1) in *.
          split_and!; try done; try lia. intros j Hj. rewrite <-(dent_ext V _ _ _ E1). by apply Hlow.
        * destruct Hres as [-> Hall]. split; [done|]. intros j Hj. rewrite <-(dent_ext V _ _ _ E1). by apply Hall. }
  destruct (Z.eqb_spec (de_inum (dent V i k)) 0) as [E0|E0]; [apply Hnext; unfold matches; by rewrite E0|].
  destruct (Z.eqb_spec (namecmp name (de_name (dent V i k))) 0) as [En|En].
  - assert (Hmk : matches name (dent V i k) = true).
    { unfold matches. by rewrite (proj2 (Z.eqb_neq _ _) E0), En. }
    wp_steps. change (inoat (Fsys t1 sb ino um) dp) with i. rewrite (fo_dev _ _ _ (dr_file _ _ _ Hd)).
    pose proof (iget_spec t1 sb ino um ROOTDEV (de_inum (dent V i k)) Hit) as Hg.
    rewrite decide_True in Hg by (eapply Exists_impl; [exact Hfree|by right]).
    eapply wp_conseq; [exact Hg|]. intros ip s Hpost. wp_steps. exists t1. split_and!; try done. exists k.
    split_and!; done || (unfold nents; fold i; lia).
  - apply Hnext. unfold matches. rewrite (proj2 (Z.eqb_neq _ _) En). apply andb_false_r.
Qed.

Lemma dirlookup_spec (t : X) sb ino (um : U) dp name :
  let V := tx_view t in let i := nth dp ino inode0 in
  fs_ready t sb 5 -> (dp < length ino)%nat -> dir_ok V sb i -> itable_ok ino -> Exists (fun i => i_ref i = 0) ino ->
  wp (dirlookup dp name) (dirlookup_post t sb ino um dp name) (Fsys t sb ino um).
Proof.
  intros V i Hrd Hdp Hd Hit Hfree. unfold dirlookup. wp_steps. change (inoat (Fsys t sb ino um) dp) with i.
  rewrite (dr_type _ _ _ Hd). change (negb (T_DIR =? T_DIR)) with false. cbn match.
  pose proof (fo_size _ _ _ (dr_file _ _ _ Hd)). 
  apply (dirlookup_loop_spec _ t sb ino um dp name 0); try done; fold i; unfold nents, DIRENT_SIZE; lia.
Qed.

(** [dirlookup] finds the first entry with the name.  In a well-formed directory, with a free entry in
    the inode table, it returns: either no entry in use has the name and the result is the null
    pointer, or the result is the inode of the first entry in use whose name agrees with the given one
    on 14 bytes, referenced in the table by [iget], together with the byte offset of that entry. *)
Theorem dirlookup_correct (t : X) sb ino (um : U) dp name :
  let V := tx_view t in let i := nth dp ino inode0 in
  fs_ready t sb 5 -> (dp < length ino)%nat -> dir_ok V sb i -> itable_ok ino -> Exists (fun i => i_ref i = 0) ino ->
  wp (dirlookup dp name) (dirlookup_post t sb ino um dp name) (Fsys t sb ino um).
Proof. apply dirlookup_spec. Qed.
End Dirlookup.
