(* ===== verification/FsName.v ===== *)
(** Locking and releasing inodes, and looking up a path of one element, in a file system at rest: what kernel/fs.c does between [namei] and [readi]
    when no other process is in the way. *)

From S2P Require Import Prelude Bytes Params Disk Sleeplock CString Tx Fs FsBlocks FsInode FsFile FsDir.

(** ** Inodes in memory and on disk *)

(** [i] is the copy in memory of inode [i_inum i] of the disk. *)
Definition loaded (V : Z -> block) (sb : superblock) (i : inode) : Prop :=
  i_dev i = ROOTDEV /\ i_valid i = true /\ to_dinode i = disk_inode V sb (i_inum i).

Lemma file_ok_shape V sb i j :
  i_dev j = i_dev i -> i_size j = i_size i -> i_addrs j = i_addrs i -> file_ok V sb i -> file_ok V sb j.
Proof.
  intros E1 E2 E3 [H1 H2 H3 H4 H5 H6].
  assert (Eb : forall bn, blk V j bn = blk V i bn) by (intros; unfold blk, ind; by rewrite E3).
  assert (Ei : ind j = ind i) by (unfold ind; by rewrite E3).
  split; rewrite ?E1, ?E2, ?E3, ?Ei; try done.
  - intros bn. rewrite Eb. apply H4.
  - intros bn bn'. rewrite !Eb. apply H5.
  - intros Hnz. setoid_rewrite Eb. by apply H6.
Qed.

Lemma mapped_shape V i j : i_size j = i_size i -> i_addrs j = i_addrs i -> mapped V i -> mapped V j.
Proof. intros E1 E2 H k. unfold blk, ind. rewrite E1, E2. apply H. Qed.

Lemma fbytes_shape V i j off n : i_addrs j = i_addrs i -> fbytes V j off n = fbytes V i off n.
Proof. intros E. apply fbytes_ext. intros. unfold fbyte, blk, ind. by rewrite E. Qed.

Section Name.
Context {X U : Type} `{TS : TxSpec X} `{UM : UserMem U}.
Implicit Types t : X.

(** [s'] differs from [s] in the transaction store only, and not in what a read returns. *)
Definition quiet_tx t t' : Prop := moved t t' ∅ 0 /\ forall m, tx_view t' m = tx_view t m.

Lemma quiet_refl t : tx_inv t ∅ ∅ -> quiet_tx t t.
Proof. intros. split; [by apply moved_refl|done]. Qed.

Lemma quiet_trans t1 t2 t3 : quiet_tx t1 t2 -> quiet_tx t2 t3 -> quiet_tx t1 t3.
Proof. intros [M1 E1] [M2 E2]. split; [exact (moved_trans _ _ _ _ _ _ M1 M2)|]. intros. by rewrite E2, E1. Qed.

Lemma quiet_pid t t' : quiet_tx t t' -> tx_pid t' = tx_pid t.
Proof. intros [[_ (_ & _ & _ & _ & E) _] _]. done. Qed.

(** ** Locking *)

(** The inode in memory after [ilock] has read it. *)
Definition fetched t sb (i : inode) : inode :=
  let d := disk_inode (tx_view t) sb (i_inum i) in
  Inode (i_dev i) (i_inum i) (i_ref i) (Sleeplock true (tx_pid t)) true (di_type d) (di_major d) (di_minor d) (di_nlink d) (di_size d) (di_addrs d).

Lemma setino_insert t sb ino (um : U) ip f :
  setino ip f (Fsys t sb ino um) = Fsys t sb (<[ip := f (nth ip ino inode0)]> ino) um.
Proof. done. Qed.

Lemma setino_twice t sb ino (um : U) ip f i :
  (ip < length ino)%nat -> setino ip f (Fsys t sb (<[ip := i]> ino) um) = Fsys t sb (<[ip := f i]> ino) um.
Proof. intros H. rewrite setino_insert, nth_list_insert_eq by done. by rewrite list_insert_insert, decide_True. Qed.

Lemma ilock_spec t sb ino (um : U) ip :
  let i := nth ip ino inode0 in
  tx_inv t ∅ ∅ -> fs_layout sb (tx_home t) -> bufs t ∅ 1 -> (ip < length ino)%nat -> 1 <= i_ref i -> sl_locked (i_lock i) = false ->
  i_dev i = ROOTDEV -> 0 <= i_inum i < sb_ninodes sb -> i_valid i = false -> di_type (disk_inode (tx_view t) sb (i_inum i)) <> 0 ->
  wp (ilock (Some ip)) (fun _ s => exists t', s = Fsys t' sb (<[ip := fetched t sb i]> ino) um /\ quiet_tx t t') (Fsys t sb ino um).
Proof.
  intros i Hi Hl Hb Hip Href Hlk Hdev Hn Hv Hty. unfold ilock. wp_step. wp_step. change (inoat (Fsys t sb ino um) ip) with i.
  rewrite (proj2 (Z.ltb_ge _ _)) by lia. wp_step. unfold on_ilock. apply wp_zoom. change (inoat (Fsys t sb ino um) ip) with i.
  apply acquiresleep_free; [done|]. rewrite setino_insert. fold i. set (i1 := i <| i_lock := _ |>). wp_step. wp_step.
  assert (E1 : inoat (Fsys t sb (<[ip := i1]> ino) um) ip = i1) by (apply nth_list_insert_eq; done). rewrite E1.
  change (i_valid i1) with (i_valid i). rewrite Hv. cbn [f_sb]. change (i_dev i1) with (i_dev i). rewrite Hdev.
  change (i_inum i1) with (i_inum i). destruct (IBLOCK_eq sb _ (i_inum i) Hl Hn) as [En Hib]. set (n := IBLOCK (i_inum i) sb) in *.
  destruct (fl_bmap _ _ Hl), (fl_inodes _ _ Hl), (fl_size _ _ Hl). wp_step.
  eapply wp_bread_; [done|set_solver|unfold inode_block, nbitmap, BPB, BSIZE in *; lia|done|].
  intros bp t1 Hi1 Hh1 K1 U1 V1. wp_step. eapply wp_data_; [done..|]. rewrite V1. wp_step. wp_step. rewrite setino_twice by done.
  wp_step. eapply wp_brelse_; [done|set_solver|done|]. intros t2 Hi2 K2 U2 V2. wp_step. wp_step. rewrite setino_twice by done.
  change (get_dinode (tx_view t n) (ioff (i_inum i))) with (disk_inode (tx_view t) sb (i_inum i)).
  rewrite (proj2 (Z.eqb_neq _ 0)) by done. wp_step. exists t2. split; [done|]. split.
  - split; [done|by eapply tx_keep_trans|lia].
  - intros m. by rewrite V2, V1.
Qed.

Lemma iunlock_spec t sb ino (um : U) ip :
  let i := nth ip ino inode0 in
  (ip < length ino)%nat -> 1 <= i_ref i -> i_lock i = Sleeplock true (tx_pid t) ->
  wp (iunlock (Some ip)) (fun _ s => s = Fsys t sb (<[ip := i <| i_lock := Sleeplock false 0 |>]> ino) um) (Fsys t sb ino um).
Proof.
  intros i Hip Href Hlk. unfold iunlock. wp_step. wp_step. wp_step. unfold on_ilock. apply wp_zoom. unfold holdingsleep. wp_step.
  change (inoat (Fsys t sb ino um) ip) with i. rewrite Hlk. cbn [f_tx sl_locked sl_pid andb]. rewrite Z.eqb_refl. rewrite setino_insert. fold i.
  assert (E : <[ip := i <| i_lock := Sleeplock true (tx_pid t) |>]> ino = ino).
  { rewrite <-Hlk. apply list_insert_id. rewrite (lookup_nth ino ip inode0) by done. f_equal. by destruct (nth ip ino inode0). }
  rewrite E. change (inoat (Fsys t sb ino um) ip) with i. rewrite (proj2 (Z.ltb_ge _ _)) by lia. cbn [negb orb].
  apply wp_zoom. unfold releasesleep. wp_step. done.
Qed.

(** [iput] of an inode that has links only drops the reference. *)
Lemma iput_spec t sb ino (um : U) ip :
  let i := nth ip ino inode0 in
  i_nlink i <> 0 -> wp (iput ip) (fun _ s => s = Fsys t sb (<[ip := i <| i_ref := i_ref i - 1 |>]> ino) um) (Fsys t sb ino um).
Proof.
  intros i Hn. unfold iput. wp_step. wp_step. change (inoat (Fsys t sb ino um) ip) with i.
  rewrite (proj2 (Z.eqb_neq (i_nlink i) 0)) by done. rewrite andb_false_r. wp_step. wp_step. wp_step. done.
Qed.

Lemma iunlockput_spec t sb ino (um : U) ip :
  let i := nth ip ino inode0 in
  (ip < length ino)%nat -> 1 <= i_ref i -> i_lock i = Sleeplock true (tx_pid t) -> i_nlink i <> 0 ->
  wp (iunlockput ip) (fun _ s => s = Fsys t sb (<[ip := i <| i_lock := Sleeplock false 0 |> <| i_ref := i_ref i - 1 |>]> ino) um)
    (Fsys t sb ino um).
Proof.
  intros i Hip Href Hlk Hn. unfold iunlockput. wp_step. eapply wp_conseq; [by apply iunlock_spec|]. intros [] ? ->.
  eapply wp_conseq; [apply iput_spec|]; rewrite nth_list_insert_eq by done; [done|].
  intros [] ? ->. by rewrite list_insert_insert, decide_True.
Qed.

(** ** A path of one element *)

(** Nobody uses the inode table. *)
Definition at_rest (ino : list inode) : Prop :=
  (2 <= length ino)%nat /\ Forall (fun i => i_ref i = 0 /\ sl_locked (i_lock i) = false) ino.

Lemma rest_nth ino k : at_rest ino -> i_ref (nth k ino inode0) = 0 /\ sl_locked (i_lock (nth k ino inode0)) = false.
Proof.
  intros [_ H]. rewrite nth_lookup. destruct (ino !! k) eqn:E; simpl; [|done]. by apply (Forall_lookup_1 _ _ _ _ H E).
Qed.

Lemma rest_table ino : at_rest ino -> itable_ok ino.
Proof.
  intros [_ H]. split.
  - intros k i Hk. destruct (Forall_lookup_1 _ _ _ _ H Hk) as [-> _]. done.
  - intros j k a b Ha Hb Ra. destruct (Forall_lookup_1 _ _ _ _ H Ha) as [E _]. lia.
Qed.

Lemma rest_iget t sb ino (um : U) inum :
  at_rest ino ->
  wp (iget ROOTDEV inum) (fun ip s => exists i', s = Fsys t sb (<[ip := i']> ino) um /\ (ip < length ino)%nat /\
    i_dev i' = ROOTDEV /\ i_inum i' = inum /\ i_ref i' = 1 /\ i_valid i' = false /\ sl_locked (i_lock i') = false /\
    itable_ok (<[ip := i']> ino)) (Fsys t sb ino um).
Proof.
  intros Hr. pose proof (iget_spec t sb ino um ROOTDEV inum (rest_table _ Hr)) as Hg.
  rewrite decide_True in Hg.
  2:{ destruct Hr as [Hl Hr]. destruct ino as [|i ino]; [simpl in Hl; lia|]. apply Exists_cons_hd. right. by apply Forall_inv in Hr as [? _]. }
  eapply wp_conseq; [exact Hg|]. intros ip s (i' & -> & Hip & (_ & Hd & Hn) & Hok & Hi). exists i'.
  destruct (rest_nth ino ip Hr) as [E0 El]. rewrite decide_False in Hi by (intros (? & _); lia).
  destruct Hi as (_ & Er & Ev & Elk). rewrite Elk. by split_and!.
Qed.

Lemma elems_one e : e <> [] -> Forall (fun c => c <> SLASH) e -> elems (SLASH :: e) = [e].
Proof.
  intros He Hs. rewrite <-elems_skip. simpl. rewrite elems_skip. unfold elems.
  assert (E : split_slash e = [e]).
  { clear He. induction Hs as [|x e Hx _ IH]; simpl; [done|]. rewrite (proj2 (Z.eqb_neq _ _)) by done. by rewrite IH. }
  rewrite E. by rewrite filter_cons_True.
Qed.

(** What [namei] of a path of one element finds in the root directory: the table entry of the first match, referenced once. *)
Definition namei_post t sb (ino : list inode) (um : U) (root : inode) name (r : option nat) (s : fsys X U) : Prop :=
  let V := tx_view t in
  exists t' ino', s = Fsys t' sb ino' um /\ quiet_tx t t' /\ length ino' = length ino /\
  match r with
  | None => forall k, 0 <= k < nents root -> matches name (dent V root k) = false
  | Some ip => exists k, 0 <= k < nents root /\ matches name (dent V root k) = true /\
      (forall j, 0 <= j < k -> matches name (dent V root j) = false) /\
      let i := nth ip ino' inode0 in
      (ip < length ino)%nat /\ i_dev i = ROOTDEV /\ i_inum i = de_inum (dent V root k) /\ i_ref i = 1 /\ i_valid i = false /\
      sl_locked (i_lock i) = false
  end.

(** The root directory in memory, as [namex] has it locked. *)
Definition root_in t sb : inode := fetched t sb (Inode ROOTDEV ROOTINO 1 (Sleeplock false 0) false 0 0 0 0 0 []).

(** The search of [namex] in the root directory, once it is locked. *)
Lemma namex_found t sb ino (um : U) r name fuel :
  let root := root_in t sb in
  let ino1 := <[r := root]> ino in
  fs_ready t sb 5 -> at_rest ino -> (r < length ino)%nat -> itable_ok ino1 -> dir_ok (tx_view t) sb root -> i_nlink root <> 0 ->
  (forall k, 0 <= k < nents root -> matches name (dent (tx_view t) root k) = true -> de_inum (dent (tx_view t) root k) <> ROOTINO) ->
  wp (let* res := dirlookup r name in
      match res with
      | None => iunlockput r ;;; ret (None, name)
      | Some (next, _) => iunlockput r ;;; namex_loop (S fuel) next [] false name
      end) (fun out => namei_post t sb ino um root name (fst out)) (Fsys t sb ino1 um).
Proof.
  intros root ino1 Hrd Hr Hlt Hok Hdir Hnl Hne.
  assert (Er : nth r ino1 inode0 = root) by (by apply nth_list_insert_eq).
  assert (Hrn : forall k, k <> r -> nth k ino1 inode0 = nth k ino inode0) by (intros; by apply nth_list_insert_ne).
  wp_step. pose proof (dirlookup_spec t sb ino1 um r name Hrd) as Hdl. cbv zeta in Hdl. rewrite Er in Hdl.
  eapply wp_conseq; [apply Hdl; [unfold ino1; by rewrite length_insert|done|done|]|].
  { apply Exists_exists. pose proof (proj1 Hr). set (k := if decide (r = 0%nat) then 1%nat else 0%nat).
    assert (Hk : (k < length ino1)%nat /\ k <> r) by (unfold ino1, k; rewrite length_insert; case_decide; lia).
    exists (nth k ino1 inode0). split; [eapply list_elem_of_lookup_2, lookup_nth; apply Hk|]. rewrite Hrn by apply Hk. apply (rest_nth ino k Hr). }
  intros res s (t' & Hq & Ev & Hres). rewrite Er in Hres. assert (Hqt : quiet_tx t t') by by split.
  destruct res as [[ip off]|].
  - destruct Hres as (k & _ & Hk & Hm & Hlow & i' & -> & Hip & (_ & Hd' & Hn') & _ & Hi').
    unfold ino1 in Hip. rewrite length_insert in Hip.
    assert (Hnot : ~ is_for ROOTDEV (de_inum (dent (tx_view t) root k)) (nth ip ino1 inode0)).
    { intros (Hpos & _ & En). destruct (decide (ip = r)) as [->|Hkr].
      - rewrite Er in En. by apply (Hne k Hk Hm).
      - rewrite Hrn in Hpos by done. destruct (rest_nth ino ip Hr). lia. }
    rewrite decide_False in Hi' by done. destruct Hi' as (E0 & E1 & Evl & Elk).
    assert (Hne' : ip <> r) by (intros ->; rewrite Er in E0; done). rewrite Hrn in Elk by done.
    assert (Er2 : nth r (<[ip := i']> ino1) inode0 = root) by (by rewrite nth_list_insert_ne).
    wp_step. eapply wp_conseq; [apply iunlockput_spec; rewrite ?Er2|].
    + unfold ino1. by rewrite !length_insert.
    + done.
    + change (i_lock root) with (Sleeplock true (tx_pid t)). f_equal. symmetry. by apply quiet_pid.
    + done.
    + intros [] ? ->. rewrite Er2. cbn [namex_loop]. change (skipelem [] name) with (@None (list Z * list Z)). cbv iota. wp_step.
      eexists t', _. split; [done|]. split; [done|]. split; [unfold ino1; by rewrite !length_insert|]. exists k.
      rewrite nth_list_insert_ne, nth_list_insert_eq by (done || (unfold ino1; by rewrite length_insert)).
      split; [done|]. split; [done|]. split; [done|]. cbv zeta. split_and!; try done. rewrite Elk. by apply rest_nth.
  - destruct Hres as [-> Hall]. wp_step. eapply wp_conseq; [apply iunlockput_spec; rewrite ?Er|].
    + unfold ino1. by rewrite length_insert.
    + done.
    + change (i_lock root) with (Sleeplock true (tx_pid t)). f_equal. symmetry. by apply quiet_pid.
    + done.
    + intros [] ? ->. wp_step. eexists t', _. split; [done|]. split; [done|]. split; [unfold ino1; by rewrite !length_insert|]. done.
Qed.

Lemma quiet_root t t' sb : quiet_tx t t' -> root_in t' sb = root_in t sb.
Proof.
  intros Hq. pose proof (quiet_pid _ _ Hq) as Ep. destruct Hq as [_ E]. unfold root_in, fetched, disk_inode. by rewrite E, Ep.
Qed.

Lemma quiet_namei_post t t1 sb ino (um : U) root name r s :
  quiet_tx t t1 -> namei_post t1 sb ino um root name r s -> namei_post t sb ino um root name r s.
Proof.
  intros Hq (t' & ino' & -> & Hq' & Hlen & Hr). pose proof (proj2 Hq) as E. exists t', ino'. split_and!; try done; [by eapply quiet_trans|].
  destruct r as [ip|].
  - destruct Hr as (k & Hk & Hm & Hlow & Hip). exists k. rewrite !(dent_ext _ _ _ _ E) in *. split; [done|]. split; [done|]. split; [|done].
    intros j Hj. rewrite <-(dent_ext _ _ _ _ E). by apply Hlow.
  - intros k Hk. rewrite <-(dent_ext _ _ _ _ E). by apply Hr.
Qed.

Lemma namei_spec t sb ino (um : U) cwd e :
  let root := root_in t sb in
  let name := name_of e (replicate (Z.to_nat DIRSIZ) 0) in
  fs_ready t sb 5 -> at_rest ino -> dir_ok (tx_view t) sb root -> i_nlink root <> 0 -> ROOTINO < sb_ninodes sb ->
  e <> [] -> Forall (fun c => c <> 0 /\ c <> SLASH) e ->
  (forall k, 0 <= k < nents root -> matches name (dent (tx_view t) root k) = true -> de_inum (dent (tx_view t) root k) <> ROOTINO) ->
  wp (namei cwd (SLASH :: e)) (namei_post t sb ino um root name) (Fsys t sb ino um).
Proof.
  intros root name Hrd Hr Hdir Hnl Hni He Hc Hne. unfold namei, namex. wp_step. change (hd 0 (SLASH :: e) =? SLASH) with true. cbv iota.
  wp_step. eapply wp_conseq; [by apply rest_iget|]. intros r s (i1 & -> & Hlt & Ed & En & Ef & Evl & Elk & Hok).
  cbn [namex_loop length].
  pose proof (skipelem_correct (SLASH :: e) (replicate (Z.to_nat DIRSIZ) 0)) as Hsk.
  rewrite elems_one in Hsk; [|done|eapply Forall_impl; [exact Hc|by intros ? []]].
  destruct Hsk as (rest & -> & _ & _ & Hrest & _); [constructor; [done|eapply Forall_impl; [exact Hc|by intros ? []]]|by rewrite length_replicate|].
  assert (rest = []) as -> by by apply Hrest. fold name.
  set (ino1 := <[r := i1]> ino) in *. assert (E1 : nth r ino1 inode0 = i1) by (by apply nth_list_insert_eq).
  assert (Efet : fetched t sb i1 = root) by (unfold fetched, root, root_in, fetched; rewrite Ed, En, Ef; done).
  assert (Hty : di_type (disk_inode (tx_view t) sb ROOTINO) = T_DIR) by apply (dr_type _ _ _ Hdir).
  wp_step. pose proof (ilock_spec t sb ino1 um r) as Hil. cbv zeta in Hil. rewrite E1 in Hil.
  eapply wp_conseq; [apply Hil|].
  1-2: apply Hrd.
  1: pose proof (rd_bufs _ _ _ Hrd); unfold bufs in *; lia.
  1: unfold ino1; by rewrite length_insert.
  all: rewrite ?En, ?Ef, ?Hty; try done.
  intros [] ? (t1 & -> & Hq1). rewrite Efet. unfold ino1. rewrite list_insert_insert, decide_True by done.
  assert (Er : inoat (Fsys t1 sb (<[r := root]> ino) um) r = root) by (by apply nth_list_insert_eq).
  wp_step. wp_step. rewrite Er, (dr_type _ _ _ Hdir). cbn [negb andb]. change (T_DIR =? T_DIR) with true. cbv iota. cbn [negb].
  pose proof (namex_found t1 sb ino um r name (length e)) as Hfound. cbv zeta in Hfound. rewrite (quiet_root _ _ _ Hq1) in Hfound. fold root in Hfound.
  pose proof (proj2 Hq1) as Ev1. eapply wp_conseq; [apply Hfound|].
  - eapply ready_same; [exact Hrd|apply Hq1|exact Ev1].
  - done.
  - done.
  - apply itable_upd; [by apply rest_table|done|]. intros k a _ Ha (Hpos & _). destruct (Forall_lookup_1 _ _ _ _ (proj2 Hr) Ha). lia.
  - eapply dir_ok_ext; [exact Ev1|apply Hrd|done].
  - done.
  - intros k Hk Hm. rewrite (dent_ext _ _ _ _ Ev1) in *. by apply Hne.
  - intros [ip nm] s Hpost. wp_step. by eapply quiet_namei_post.
Qed.
End Name.
