(* ===== verification/Mkfs.v ===== *)
(** The builder of the file system image, mkfs/mkfs.c.

    The image file is a sequence of sectors of 1024 bytes; a sector that was skipped over reads as zeros.  The host is a little-endian machine: a
    [struct dinode], a [struct superblock] and a [struct dirent] lie in a buffer as the kernel reads them, which is what [xint] and [xshort] are for
    on any other host.  [printf] is left out; a program stopped by [assert], or by [die] and [exit(1)], has panicked. *)

From S2P Require Import Prelude Bytes Params Disk CString Fs.

(** mkfs/mkfs.c:18 *)
Definition NINODES : Z := 200.
(** mkfs/mkfs.c:23 *)
Definition nbitmap : Z := FSSIZE / BPB + 1.
(** mkfs/mkfs.c:24 *)
Definition ninodeblocks : Z := NINODES / IPB + 1.
(** mkfs/mkfs.c:25 *)
Definition nlog : Z := LOGBLOCKS + 1.

(** The image file (its length in sectors and their contents) and the variables of the program, mkfs/mkfs.c:29-33; [m_calls] counts the calls to the host. *)
Record mkfs := Mkfs_ { m_len : Z; m_img : Z -> block; m_sb : superblock; m_freeinode : Z; m_freeblock : Z; m_calls : nat }.
#[export] Instance eta_dinode : Eta dinode := fun d => Dinode (di_type d) (di_major d) (di_minor d) (di_nlink d) (di_size d) (di_addrs d).
#[export] Instance eta_mkfs : Eta mkfs := fun s => Mkfs_ (m_len s) (m_img s) (m_sb s) (m_freeinode s) (m_freeblock s) (m_calls s).

Definition mkfs_start : mkfs := Mkfs_ 0 (fun _ => zero_block) (Superblock 0 0 0 0 0 0 0 0) 1 0 0.

(** mkfs/mkfs.c:46-54 *)
Definition xshort (x : Z) : Z := le_val [u8 x; u8 (Z.shiftr x 8)].
(** mkfs/mkfs.c:56-66 *)
Definition xint (x : Z) : Z := le_val [u8 x; u8 (Z.shiftr x 8); u8 (Z.shiftr x 16); u8 (Z.shiftr x 24)].

(** A file named on the command line: its name, and what reading it gives, chunk by chunk; [None] if it cannot be opened. *)
Record infile := Infile { in_name : list Z; in_data : option (list (list Z)) }.

Section Mkfs.
(** Whether the [n]-th call to [open], [lseek], [read] or [write] on the image fails. *)
Context (fails : nat -> bool).

(** mkfs/mkfs.c:298-303 *)
Definition die {A} (s : string) : M mkfs A := panic s.

(** [if(call(..) < 0) die(s)] *)
Definition host (s : string) : M mkfs unit :=
  let* n := gets m_calls in
  modify (fun s => s <| m_calls := S n |>) ;;;
  if fails n then die s else ret tt.

Definition assert (b : bool) : M mkfs unit := if b then ret tt else panic "assert".

(** The sector that offset [sec * BSIZE], computed in 32 bits, is in. *)
Definition at_sector (sec : Z) : Z := u32 (sec * BSIZE) / BSIZE.

(** mkfs/mkfs.c:177-184 *)
Definition wsect (sec : Z) (buf : block) : M mkfs unit :=
  host "lseek" ;;;
  host "write" ;;;
  modify (fun s => s <| m_img := bput (m_img s) (at_sector sec) buf |> <| m_len := Z.max (m_len s) (at_sector sec + 1) |>).

(** mkfs/mkfs.c:213-220: at the end of the file [read] returns 0. *)
Definition rsect (sec : Z) : M mkfs block :=
  host "lseek" ;;;
  host "read" ;;;
  let* s := get in
  if at_sector sec <? m_len s then ret (m_img s (at_sector sec)) else die "read".

(** mkfs/mkfs.c:186-198 *)
Definition winode (inum : Z) (ip : dinode) : M mkfs unit :=
  let* s := get in
  let bn := IBLOCK inum (m_sb s) in
  let* buf := rsect bn in
  wsect bn (put_dinode buf ((inum mod IPB) * DINODE_SIZE) ip).

(** mkfs/mkfs.c:200-211 *)
Definition rinode (inum : Z) : M mkfs dinode :=
  let* s := get in
  let bn := IBLOCK inum (m_sb s) in
  let* buf := rsect bn in
  ret (get_dinode buf ((inum mod IPB) * DINODE_SIZE)).

(** mkfs/mkfs.c:222-234 *)
Definition ialloc (type : Z) : M mkfs Z :=
  let* inum := gets m_freeinode in
  modify (fun s => s <| m_freeinode := u32 (inum + 1) |>) ;;;
  winode inum (Dinode (xshort type) 0 0 (xshort 1) (xint 0) (replicate (Z.to_nat (NDIRECT + 1)) 0)) ;;;
  ret inum.

(** mkfs/mkfs.c:244-247: set the first [n] bits. *)
Fixpoint balloc_loop (buf : block) (i : Z) (n : nat) : block :=
  match n with
  | O => buf
  | S n' => balloc_loop (aset buf (i / 8) (Z.lor (aget buf (i / 8)) (Z.shiftl 1 (i mod 8)))) (i + 1) n'
  end.

(** mkfs/mkfs.c:236-250 *)
Definition balloc (used : Z) : M mkfs unit :=
  assert (used <? BPB) ;;;
  let* s := get in
  wsect (sb_bmapstart (m_sb s)) (balloc_loop zero_block 0 (Z.to_nat used)).

(** [freeblock++] *)
Definition next_block : M mkfs Z :=
  let* b := gets m_freeblock in
  modify (fun s => s <| m_freeblock := u32 (b + 1) |>) ;;;
  ret b.

(** mkfs/mkfs.c:270-285: the sector of block [fbn] of a file, allocated if there is none. *)
Definition ibmap (din : dinode) (fbn : Z) : M mkfs (dinode * Z) :=
  if fbn <? NDIRECT then
    let* din :=
      if xint (aget (di_addrs din) fbn) =? 0 then
        let* b := next_block in
        ret (din <| di_addrs := aset (di_addrs din) fbn (xint b) |>)
      else ret din in
    ret (din, xint (aget (di_addrs din) fbn))
  else
    let* din :=
      if xint (aget (di_addrs din) NDIRECT) =? 0 then
        let* b := next_block in
        ret (din <| di_addrs := aset (di_addrs din) NDIRECT (xint b) |>)
      else ret din in
    let* indirect := rsect (xint (aget (di_addrs din) NDIRECT)) in
    let* indirect :=
      if get32 indirect (4 * (fbn - NDIRECT)) =? 0 then
        let* b := next_block in
        let indirect := put32 indirect (4 * (fbn - NDIRECT)) (xint b) in
        wsect (xint (aget (di_addrs din) NDIRECT)) indirect ;;;
        ret indirect
      else ret indirect in
    ret (din, xint (get32 indirect (4 * (fbn - NDIRECT)))).

(** mkfs/mkfs.c:267-293 *)
Fixpoint iappend_loop (fuel : nat) (din : dinode) (off : Z) (p : list Z) (n : Z) : M mkfs (dinode * Z) :=
  match fuel with
  | O => nofuel
  | S fuel' =>
      if 0 <? n then
        let fbn := off / BSIZE in
        assert (fbn <? MAXFILE) ;;;
        let* ' (din, x) := ibmap din fbn in
        let n1 := Z.min n (u32 ((fbn + 1) * BSIZE - off)) in
        let* buf := rsect x in
        wsect x (splice buf (off - fbn * BSIZE) (take (Z.to_nat n1) p)) ;;;
        iappend_loop fuel' din (u32 (off + n1)) (drop (Z.to_nat n1) p) (n - n1)
      else ret (din, off)
  end.

(** mkfs/mkfs.c:254-296 *)
Definition iappend (inum : Z) (p : list Z) (n : Z) : M mkfs unit :=
  let* din := rinode inum in
  let off := xint (di_size din) in
  let* ' (din, off) := iappend_loop (Z.to_nat (n / BSIZE + 3)) din off p n in
  winode inum (din <| di_size := xint off |>).

(** A [struct dirent] in a buffer, from its number and the 14 bytes of its name, kernel/fs.h:58-61. *)
Definition dirent (inum : Z) (name : list Z) : list Z := le_bytes 2 inum ++ name.

(** [strcpy(de.name, s)] into a cleared name. *)
Definition strcpy_name (s : list Z) : list Z := splice (replicate (Z.to_nat DIRSIZ) 0) 0 (s ++ [0]).

(** mkfs/mkfs.c:159-160: read the file and append it. *)
Fixpoint copy_file (inum : Z) (chunks : list (list Z)) : M mkfs unit :=
  match chunks with
  | [] => ret tt
  | c :: chunks' =>
      if 0 <? Z.of_nat (length c) then
        iappend inum c (Z.of_nat (length c)) ;;;
        copy_file inum chunks'
      else ret tt
  end.

(** The bytes of [user/]. *)
Definition USER : list Z := [117; 115; 101; 114; 47].

(** mkfs/mkfs.c:131-136 *)
Definition shortname (name : list Z) : list Z :=
  if strncmp (arr name) (arr USER) 5 =? 0 then drop 5 name else name.

(** mkfs/mkfs.c:143-148 *)
Definition skip_underscore (name : list Z) : list Z := if hd 0 name =? 95 then drop 1 name else name.

(** mkfs/mkfs.c:130-163: the body of the loop over the files. *)
Definition add_file (rootino : Z) (f : infile) : M mkfs unit :=
  let name := shortname (in_name f) in
  assert (negb (existsb (Z.eqb SLASH) name)) ;;;
  match in_data f with
  | None => die "open"
  | Some chunks =>
      let name := skip_underscore name in
      assert (Z.of_nat (length name) <=? DIRSIZ) ;;;
      let* inum := ialloc T_FILE in
      iappend rootino (dirent (xshort inum) (strncpy_list (arr name) 0 (Z.to_nat DIRSIZ))) DIRENT_SIZE ;;;
      copy_file inum chunks
  end.

Fixpoint add_files (rootino : Z) (fs : list infile) : M mkfs unit :=
  match fs with
  | [] => ret tt
  | f :: fs' => add_file rootino f ;;; add_files rootino fs'
  end.

(** mkfs/mkfs.c:92-103 *)
Definition make_sb : superblock :=
  let nmeta := 2 + nlog + ninodeblocks + nbitmap in
  let nblocks := FSSIZE - nmeta in
  Superblock FSMAGIC (xint FSSIZE) (xint nblocks) (xint NINODES) (xint nlog) (xint 2) (xint (2 + nlog))
             (xint (2 + nlog + ninodeblocks)).

(** The layout of [struct superblock], kernel/fs.h:14-23 *)
Definition sb_bytes (sb : superblock) : list Z :=
  concat (map (le_bytes 4) [sb_magic sb; sb_size sb; sb_nblocks sb; sb_ninodes sb; sb_nlog sb; sb_logstart sb;
                            sb_inodestart sb; sb_bmapstart sb]).

(** mkfs/mkfs.c:165-170: the size of the root directory, rounded to the next block. *)
Definition fix_root (rootino : Z) : M mkfs unit :=
  let* din := rinode rootino in
  let off := xint (di_size din) in
  let off := u32 ((off / BSIZE + 1) * BSIZE) in
  winode rootino (din <| di_size := xint off |>).

(** mkfs/mkfs.c:85-115: the image file, an empty image and its super block. *)
Definition format : M mkfs unit :=
  assert (BSIZE mod DINODE_SIZE =? 0) ;;;
  assert (BSIZE mod DIRENT_SIZE =? 0) ;;;
  host "open" ;;;
  modify (fun s => s <| m_sb := make_sb |> <| m_freeblock := 2 + nlog + ninodeblocks + nbitmap |>) ;;;
  each (fun i => wsect i zero_block) 0 (Z.to_nat FSSIZE) ;;;
  wsect 1 (splice zero_block 0 (sb_bytes make_sb)).

(** mkfs/mkfs.c:68-175; [image] is the name of the image file, [None] when there are no arguments, and [fs] are the files after it. *)
Definition main (image : option (list Z)) (fs : list infile) : M mkfs unit :=
  match image with Some _ => ret tt | None => die "Usage: mkfs fs.img files..." end ;;;
  format ;;;
  let* rootino := ialloc T_DIR in
  assert (rootino =? ROOTINO) ;;;
  iappend rootino (dirent (xshort rootino) (strcpy_name [46])) DIRENT_SIZE ;;;
  iappend rootino (dirent (xshort rootino) (strcpy_name [46; 46])) DIRENT_SIZE ;;;
  add_files rootino fs ;;;
  fix_root rootino ;;;
  let* s := get in
  balloc (m_freeblock s).

End Mkfs.
