(* ===== verification/MkfsSpec.v ===== *)
(** The image that mkfs/mkfs.c builds is a file system: the super block is the one the kernel reads, the log is empty, the root directory lists the
    files given on the command line, every file has its bytes, no two files share a block, and the bitmap marks the blocks in use and no others.

    While the image is built the bitmap is not in it; the proofs look at the image with the bitmap that [balloc] will write, [mk_view], in which taking the
    next block is an allocation of the kernel's block allocator.  The lemmas on [grown] and [wrote] of the kernel's file system then apply. *)

From S2P Require Import Prelude Bytes Params Disk Sleeplock CString Fs FsBlocks FsInode FsFile FsDir Mkfs.

(** ** The layout *)

Abbreviation sb0 := make_sb.

Lemma sb0_eq : sb0 = Superblock FSMAGIC 2000 1953 200 31 2 33 46.
Proof. vm_compute. reflexivity. Qed.

Definition home_block (b : Z) : Prop := 33 <= b.

Lemma sb0_layout : fs_layout sb0 home_block.
Proof.
  rewrite sb0_eq. split; unfold home_block, inode_block, bmap_block, data_block, FsBlocks.nbitmap, IPB, BPB, BSIZE, DINODE_SIZE; simpl; intros; lia.
Qed.

Lemma data_sb0 b : data_block sb0 b <-> 47 <= b < 2000.
Proof. rewrite sb0_eq. unfold data_block, FsBlocks.nbitmap, BPB, BSIZE. simpl. lia. Qed.

Lemma BBLOCK_sb0 b : 0 <= b < 2000 -> BBLOCK b sb0 = 46.
Proof. intros. rewrite sb0_eq. unfold BBLOCK, BPB, BSIZE. simpl. rewrite u32_id; lia. Qed.

Lemma xint_id x : 0 <= x < 2 ^ 32 -> xint x = x.
Proof. intros. unfold xint, u8. simpl. rewrite !Z.shiftr_div_pow2 by lia. change (2 ^ 8) with 256. lia. Qed.

Lemma xshort_id x : 0 <= x < 2 ^ 16 -> xshort x = x.
Proof. intros. unfold xshort, u8. simpl. rewrite !Z.shiftr_div_pow2 by lia. change (2 ^ 8) with 256. lia. Qed.

Lemma at_sector_id sec : 0 <= sec < 2000 -> at_sector sec = sec.
Proof. intros. unfold at_sector, BSIZE. rewrite u32_id by lia. lia. Qed.

(** ** The bitmap *)

Definition bitmap (n : Z) : block := balloc_loop zero_block 0 (Z.to_nat n).

Lemma balloc_loop_snoc buf i n : balloc_loop buf i (S n) = set_bit (balloc_loop buf i n) (i + Z.of_nat n).
Proof.
  revert buf i. induction n as [|n IH]; intros buf i.
  - simpl. by rewrite Z.add_0_r.
  - change (balloc_loop (set_bit buf i) (i + 1) (S n) = set_bit (balloc_loop (set_bit buf i) (i + 1) n) (i + Z.of_nat (S n))).
    rewrite IH. f_equal. lia.
Qed.

Lemma bitmap_next n : 0 <= n -> bitmap (n + 1) = set_bit (bitmap n) n.
Proof.
  intros. unfold bitmap. replace (Z.to_nat (n + 1)) with (S (Z.to_nat n)) by lia. rewrite balloc_loop_snoc. f_equal. lia.
Qed.

Lemma bitmap_ok n : block_ok (bitmap n).
Proof.
  unfold bitmap. generalize (Z.to_nat n). clear n. intros n. induction n as [|n IH]; [apply zero_block_ok|].
  rewrite balloc_loop_snoc. by apply block_ok_set_bit.
Qed.

Lemma zero_bit b : bit_clear zero_block b = true.
Proof.
  rewrite bit_clear_testbit. replace (aget zero_block (b / 8)) with 0; [by rewrite Z.testbit_0_l|].
  unfold aget, zero_block. generalize (Z.to_nat BSIZE). intros n. rewrite nth_lookup.
  destruct (_ !! _) eqn:E; [|done]. by apply lookup_replicate in E as [-> _].
Qed.

Lemma bitmap_bit n b : n <= BPB -> 0 <= b -> bit_clear (bitmap n) b = negb (b <? n).
Proof.
  unfold bitmap. intros Hn Hb. destruct (Z.ltb_spec n 0) as [Hneg|Hpos].
  { rewrite Z2Nat.nonpos by lia. simpl. rewrite zero_bit. by rewrite (proj2 (Z.ltb_ge b n)) by lia. }
  replace n with (Z.of_nat (Z.to_nat n)) in * by lia. rewrite Nat2Z.id. clear Hpos. generalize dependent (Z.to_nat n). clear n. intros n.
  induction n as [|n IH]; intros Hn; [simpl; rewrite zero_bit; by rewrite (proj2 (Z.ltb_ge b (Z.of_nat 0))) by lia|].
  rewrite balloc_loop_snoc, bit_clear_set; [|rewrite (block_len (balloc_loop zero_block 0 n));
    [unfold BPB, BSIZE in Hn; lia|]|done].
  - rewrite IH by lia. rewrite <-negb_orb. f_equal. case_bool_decide; simpl.
    + symmetry. apply Z.ltb_lt. lia.
    + destruct (Z.ltb_spec b (Z.of_nat n)), (Z.ltb_spec b (Z.of_nat (S n))); lia.
  - pose proof (bitmap_ok (Z.of_nat n)) as H. unfold bitmap in H. by rewrite Nat2Z.id in H.
Qed.

(** ** The image under construction *)

(** The image, with the bitmap of the blocks taken so far. *)
Definition mk_view (s : mkfs) : Z -> block := bput (m_img s) 46 (bitmap (m_freeblock s)).

Record Minv (s : mkfs) : Prop := {
  mi_len : m_len s = 2000;
  mi_sb : m_sb s = sb0;
  mi_ok b : block_ok (m_img s b);
  mi_range : 47 <= m_freeblock s <= 2000;
  mi_fresh b : m_freeblock s <= b -> m_img s b = zero_block }.

Lemma view_block_ok s b : Minv s -> block_ok (mk_view s b).
Proof. intros H. unfold mk_view, bput. case_decide; [apply bitmap_ok|apply H]. Qed.

Lemma view_ne s b : b <> 46 -> mk_view s b = m_img s b.
Proof. intros. unfold mk_view. by rewrite bput_ne. Qed.

Lemma in_use_view s b : Minv s -> 0 <= b < 2000 -> in_use (mk_view s) sb0 b = (b <? m_freeblock s).
Proof.
  intros H Hb. unfold in_use. rewrite BBLOCK_sb0 by done. unfold mk_view. rewrite bput_eq. pose proof (mi_range _ H).
  rewrite Z.mod_small by (unfold BPB, BSIZE; lia). rewrite bitmap_bit by (unfold BPB, BSIZE; lia). by rewrite negb_involutive.
Qed.

Lemma sb0_size : sb_size sb0 = 2000.
Proof. by rewrite sb0_eq. Qed.

Lemma view_meta s : Minv s -> meta_used (mk_view s) sb0.
Proof.
  intros H b Hb Hu. rewrite sb0_size in Hb. rewrite in_use_view in Hu by done. apply Z.ltb_ge in Hu. apply data_sb0.
  pose proof (mi_range _ H). lia.
Qed.

(** Taking a block. *)
Definition take1 (s : mkfs) : mkfs := s <| m_freeblock := m_freeblock s + 1 |>.

Lemma take1_inv s : Minv s -> m_freeblock s < 2000 -> Minv (take1 s).
Proof.
  intros [H1 H2 H3 H4 H5] Hlt. split; simpl; try done; [lia|]. intros b Hb. apply H5. lia.
Qed.

Lemma take1_view s : Minv s -> m_freeblock s < 2000 -> forall m, mk_view (take1 s) m = alloc_view (mk_view s) sb0 (m_freeblock s) m.
Proof.
  intros H Hlt m. pose proof (mi_range _ H). unfold alloc_view. rewrite BBLOCK_sb0 by lia.
  rewrite Z.mod_small by (unfold BPB, BSIZE; lia). unfold mk_view. simpl. rewrite bitmap_next by lia. rewrite bput_eq.
  unfold bput at 2. case_decide as E; [subst m|].
  - rewrite bput_ne by lia. apply H. lia.
  - unfold bput. by case_decide.
Qed.

(** Writing a sector. *)
Definition put (s : mkfs) (b : Z) (d : block) : mkfs := s <| m_img := bput (m_img s) b d |>.

Lemma put_inv s b d : Minv s -> block_ok d -> b < m_freeblock s -> Minv (put s b d).
Proof.
  intros [H1 H2 H3 H4 H5] Hd Hb. split; simpl; try done.
  - intros b'. unfold bput. by case_decide.
  - intros b' Hb'. rewrite bput_ne by lia. by apply H5.
Qed.

Lemma put_view s b d m : b <> 46 -> mk_view (put s b d) m = bput (mk_view s) b d m.
Proof. intros. unfold mk_view, put. simpl. unfold bput. repeat case_decide; congruence. Qed.

Lemma calls_inv s c : Minv s -> Minv (s <| m_calls := c |>).
Proof. intros []. by split. Qed.

(** The inode of a dinode in memory. *)
Definition ino (n : Z) (d : dinode) : inode :=
  Inode ROOTDEV n 0 (Sleeplock false 0) true (di_type d) (di_major d) (di_minor d) (di_nlink d) (di_size d) (di_addrs d).

Lemma to_ino n d : to_dinode (ino n d) = d.
Proof. by destruct d. Qed.

(** What every step leaves alone: the meta blocks and the count of inodes. *)
Definition keeps (s s' : mkfs) : Prop :=
  m_freeinode s' = m_freeinode s /\ (forall b, b < 47 -> m_img s' b = m_img s b) /\ m_freeblock s <= m_freeblock s'.

(** File [i] has grown to [i'], by the blocks taken between [s] and [s']. *)
Record ext (s s' : mkfs) (i i' : inode) : Prop := {
  ex_inv : Minv s';
  ex_grown : grown sb0 (mk_view s) (mk_view s') i i';
  ex_keeps : keeps s s';
  ex_cover b : m_freeblock s <= b < m_freeblock s' -> owns (mk_view s') i' b }.

Lemma owns_grown sb V V' i i' b : grown sb V V' i i' -> owns V i b -> owns V' i' b.
Proof.
  intros G (Hnz & Ho). split; [done|]. destruct Ho as [->|(bn & Hbn & ->)].
  - left. by destruct (gr_ind _ _ _ _ _ G) as [->|[? _]].
  - right. exists bn. split; [done|]. by rewrite (gr_map _ _ _ _ _ G).
Qed.

Lemma keeps_refl s : keeps s s.
Proof. by split_and!. Qed.

Lemma keeps_trans s s1 s2 : keeps s s1 -> keeps s1 s2 -> keeps s s2.
Proof. intros (H1 & H2 & H3) (H4 & H5 & H6). split_and!; [congruence| |lia]. intros b Hb. by rewrite H5, H2. Qed.

Lemma ext_refl s i : Minv s -> file_ok (mk_view s) sb0 i -> ext s s i i.
Proof. intros Hs Hf. split; [done|apply grown_refl; [done|by apply view_meta]|apply keeps_refl|lia]. Qed.

Lemma ext_trans s s1 s2 i i1 i2 : ext s s1 i i1 -> ext s1 s2 i1 i2 -> ext s s2 i i2.
Proof.
  intros [A1 A2 A3 A4] [B1 B2 B3 B4]. split; [done|by eapply grown_trans|by eapply keeps_trans|].
  intros b Hb. destruct (decide (b < m_freeblock s1)); [|apply B4; lia]. eapply owns_grown; [done|]. apply A4. lia.
Qed.

(** A block that is new in the file is one of those taken. *)
Lemma ext_new s s' i i' bn :
  Minv s -> ext s s' i i' -> 0 <= bn < MAXFILE -> blk (mk_view s) i bn = 0 -> blk (mk_view s') i' bn <> 0 ->
  m_freeblock s <= blk (mk_view s') i' bn < m_freeblock s'.
Proof.
  intros Hs [A1 A2 A3 A4] Hbn H0 Hnz. destruct (gr_fresh _ _ _ _ _ A2 bn) as [Hr Hu]; [done..|].
  destruct (fo_map _ _ _ (gr_file _ _ _ _ _ A2) bn) as [_ Hu']; [done..|].
  rewrite sb0_size in Hr. rewrite in_use_view in Hu, Hu' by done. apply Z.ltb_ge in Hu. apply Z.ltb_lt in Hu'. lia.
Qed.

Lemma ext_calls s s' i i' c : ext s s' i i' -> ext s (s' <| m_calls := c |>) i i'.
Proof. intros [A1 A2 A3 A4]. split; [by apply calls_inv|done..]. Qed.

(** ** Sectors *)

Section Spec.
Context (fails : nat -> bool) (Hhost : forall n, fails n = false).

Lemma host_spec msg s (Q : unit -> mkfs -> Prop) : (forall c, Q tt (s <| m_calls := c |>)) -> wp (host fails msg) Q s.
Proof. intros HQ. unfold host. wp_steps. rewrite Hhost. wp_steps. apply HQ. Qed.

Lemma wsect_spec sec b s (Q : unit -> mkfs -> Prop) :
  m_len s = 2000 -> 0 <= sec < 2000 -> (forall c, Q tt (put s sec b <| m_calls := c |>)) -> wp (wsect fails sec b) Q s.
Proof.
  intros Hl Hsec HQ. unfold wsect. wp_step. apply host_spec. intros c1. wp_step. apply host_spec. intros c2. wp_steps.
  rewrite at_sector_id by done. unfold upd. simpl. rewrite Z.max_l by lia. apply HQ.
Qed.

Lemma rsect_spec sec s (Q : block -> mkfs -> Prop) :
  m_len s = 2000 -> 0 <= sec < 2000 -> (forall c, Q (m_img s sec) (s <| m_calls := c |>)) -> wp (rsect fails sec) Q s.
Proof.
  intros Hl Hsec HQ. unfold rsect. wp_step. apply host_spec. intros c1. wp_step. apply host_spec. intros c2. wp_steps.
  rewrite at_sector_id by done. match goal with |- context[sec <? ?l] => replace (sec <? l) with true by (symmetry; apply Z.ltb_lt; simpl; lia) end.
  wp_steps. apply (HQ c2).
Qed.

Lemma next_block_spec s (Q : Z -> mkfs -> Prop) :
  Minv s -> m_freeblock s < 2000 -> Q (m_freeblock s) (take1 s) -> wp next_block Q s.
Proof. intros Hs Hlt HQ. pose proof (mi_range _ Hs). unfold next_block. wp_steps. by rewrite u32_id by lia. Qed.

(** ** A block of a file *)

Lemma take1_fresh s : Minv s -> m_freeblock s < 2000 ->
  data_block sb0 (m_freeblock s) /\ in_use (mk_view s) sb0 (m_freeblock s) = false.
Proof.
  intros Hs Hlt. pose proof (mi_range _ Hs). split; [apply data_sb0; lia|]. rewrite in_use_view by (done || lia). apply Z.ltb_ge. lia.
Qed.

Lemma take1_keeps s : keeps s (take1 s).
Proof. split_and!; simpl; [done..|lia]. Qed.

(** Taking a block for a direct address, or for the indirect block. *)
Lemma take1_direct s n d bn :
  let d' := d <| di_addrs := aset (di_addrs d) bn (m_freeblock s) |> in
  Minv s -> m_freeblock s < 2000 -> file_ok (mk_view s) sb0 (ino n d) -> 0 <= bn < NDIRECT -> aget (di_addrs d) bn = 0 ->
  ext s (take1 s) (ino n d) (ino n d') /\ blk (mk_view (take1 s)) (ino n d') bn = m_freeblock s.
Proof.
  intros d' Hs Hlt Hf Hbn H0. destruct (take1_fresh s Hs Hlt) as [Hd Hu]. pose proof (mi_range _ Hs).
  pose proof (take1_view s Hs Hlt) as EV.
  destruct (grown_direct sb0 home_block (mk_view s) (ino n d) bn (m_freeblock s)) as [G E]; try done.
  { apply sb0_layout. }
  { intros m. by apply view_block_ok. }
  { by apply view_meta. }
  { unfold blk. by rewrite (proj2 (Z.ltb_lt bn NDIRECT)) by lia. }
  change (_ <| i_addrs := _ |>) with (ino n d') in G, E.
  assert (E' : blk (mk_view (take1 s)) (ino n d') bn = m_freeblock s) by by rewrite (blk_ext _ _ _ _ EV).
  split; [|done]. split; [by apply take1_inv|by eapply grown_ext|apply take1_keeps|].
  intros b Hb. simpl in Hb. split; [lia|right]. exists bn. split; [unfold MAXFILE, NINDIRECT, NDIRECT, BSIZE in *; lia|]. rewrite E'. lia.
Qed.

Lemma take1_ind s n d :
  let d' := d <| di_addrs := aset (di_addrs d) NDIRECT (m_freeblock s) |> in
  Minv s -> m_freeblock s < 2000 -> file_ok (mk_view s) sb0 (ino n d) -> aget (di_addrs d) NDIRECT = 0 ->
  ext s (take1 s) (ino n d) (ino n d') /\ ind (ino n d') = m_freeblock s.
Proof.
  intros d' Hs Hlt Hf H0. destruct (take1_fresh s Hs Hlt) as [Hd Hu]. pose proof (mi_range _ Hs).
  pose proof (take1_view s Hs Hlt) as EV.
  destruct (grown_ind sb0 home_block (mk_view s) (ino n d) (m_freeblock s)) as [G E]; try done.
  { apply sb0_layout. }
  { intros m. by apply view_block_ok. }
  { by apply view_meta. }
  change (_ <| i_addrs := _ |>) with (ino n d') in G, E.
  split; [|done]. split; [by apply take1_inv|by eapply grown_ext|apply take1_keeps|].
  intros b Hb. simpl in Hb. split; [lia|left]. rewrite E. lia.
Qed.

(** Taking a block for an entry of the indirect block. *)
Lemma take1_put s i bn :
  let s1 := take1 s in
  let s2 := put s1 (ind i) (put32 (m_img s1 (ind i)) (4 * (bn - NDIRECT)) (m_freeblock s)) in
  Minv s -> m_freeblock s < 2000 -> file_ok (mk_view s) sb0 i -> NDIRECT <= bn < MAXFILE -> ind i <> 0 -> blk (mk_view s) i bn = 0 ->
  ext s s2 i i /\ blk (mk_view s2) i bn = m_freeblock s.
Proof.
  intros s1 s2 Hs Hlt Hf Hbn Hnz H0. destruct (take1_fresh s Hs Hlt) as [Hd Hu]. pose proof (mi_range _ Hs).
  destruct (fo_ind _ _ _ Hf Hnz) as (Hdi & Hui & _). pose proof (proj1 (data_sb0 _) Hdi) as Hdi'.
  rewrite in_use_view in Hui by (done || lia). apply Z.ltb_lt in Hui.
  pose proof (take1_view s Hs Hlt) as EV.
  destruct (grown_put sb0 home_block (mk_view s) i bn (m_freeblock s)) as [G E]; try done.
  { apply sb0_layout. }
  { intros m. by apply view_block_ok. }
  { by apply view_meta. }
  assert (EV2 : forall m, mk_view s2 m =
    bput (alloc_view (mk_view s) sb0 (m_freeblock s)) (ind i)
      (put32 (alloc_view (mk_view s) sb0 (m_freeblock s) (ind i)) (4 * (bn - NDIRECT)) (m_freeblock s)) m).
  { intros m. unfold s2. rewrite put_view by lia. rewrite <-(EV (ind i)), (view_ne (take1 s)) by lia.
    unfold bput. case_decide; [done|apply EV]. }
  assert (E' : blk (mk_view s2) i bn = m_freeblock s) by by rewrite (blk_ext _ _ _ _ EV2).
  split; [|done]. split; [| by eapply grown_ext| |].
  - apply put_inv; [by apply take1_inv| |simpl; lia]. apply block_ok_put32; [apply Hs|..];
      unfold MAXFILE, NINDIRECT, NDIRECT, BSIZE in *; lia.
  - eapply keeps_trans; [apply take1_keeps|]. split_and!; [done| |done]. intros b Hb. simpl. rewrite bput_ne by lia. done.
  - intros b Hb. simpl in Hb. split; [lia|right]. exists bn. split; [unfold MAXFILE, NINDIRECT, NDIRECT, BSIZE in *; lia|]. rewrite E'. lia.
Qed.

(** The first [z] bytes of the file have blocks, and no others. *)
Definition dense (V : Z -> block) (i : inode) (z : Z) : Prop :=
  (forall bn, 0 <= bn < MAXFILE -> blk V i bn <> 0 <-> bn * 1024 < z) /\ (ind i <> 0 <-> 12288 < z).

(** The blocks that appending at [off] takes. *)
Definition takes (off : Z) : Z := (if off mod 1024 =? 0 then 1 else 0) + (if off =? 12288 then 1 else 0).

Lemma ext_dense s s' i i' off z :
  let x := blk (mk_view s') i' (off / 1024) in
  Minv s -> ext s s' i i' -> dense (mk_view s) i off -> 0 <= off < MAXFILE * BSIZE -> x <> 0 ->
  (forall b, m_freeblock s <= b < m_freeblock s' -> b = x \/ b = ind i') -> (ind i' <> 0 <-> 12 <= off / 1024) ->
  off < z <= (off / 1024 + 1) * 1024 -> dense (mk_view s') i' z.
Proof.
  intros x Hs HE [Hd _] Ho Hx Hnew Hind Hz. pose proof (gr_file _ _ _ _ _ (ex_grown _ _ _ _ HE)) as Hf.
  pose proof (mi_range _ Hs) as Hr.
  assert (Hmax : MAXFILE = 268) by reflexivity. unfold BSIZE in Ho. split; [|lia].
  intros bn Hbn. destruct (decide (bn = off / 1024)) as [->|Hne]; [split; [lia|done]|].
  destruct (decide (blk (mk_view s) i bn = 0)) as [H0|Hnz].
  - assert (Hge : ~ bn * 1024 < off) by (intros H; by apply (Hd bn Hbn) in H).
    split; [|lia]. intros Hnz'. exfalso. destruct (Hnew (blk (mk_view s') i' bn)) as [E|E].
    + by eapply ext_new.
    + apply Hne. apply (fo_inj _ _ _ Hf); [lia..|done|done].
    + assert (Hi0 : ind i' <> 0) by congruence. destruct (fo_ind _ _ _ Hf Hi0) as (_ & _ & Hn). by apply (Hn bn Hbn).
  - rewrite (gr_map _ _ _ _ _ (ex_grown _ _ _ _ HE)) by done. apply (Hd bn Hbn) in Hnz as Hlt. split; [lia|done].
Qed.

Definition ibmap_post n d s off (r : dinode * Z) (s' : mkfs) : Prop :=
  let '(d', x) := r in
  ext s s' (ino n d) (ino n d') /\ blk (mk_view s') (ino n d') (off / 1024) = x /\ x <> 0 /\
  m_freeblock s' = m_freeblock s + takes off /\
  (forall z, off < z <= (off / 1024 + 1) * 1024 -> dense (mk_view s') (ino n d') z).

Lemma ibmap_direct_spec n d s off :
  Minv s -> file_ok (mk_view s) sb0 (ino n d) -> dense (mk_view s) (ino n d) off -> 0 <= off < 12288 ->
  m_freeblock s + takes off <= 2000 ->
  wp (ibmap fails d (off / BSIZE)) (ibmap_post n d s off) s.
Proof.
  intros Hs Hf Hd Ho Hroom. assert (Hmax : MAXFILE = 268) by reflexivity. pose proof (mi_range _ Hs).
  unfold ibmap. change BSIZE with 1024. rewrite (proj2 (Z.ltb_lt (off / 1024) NDIRECT)) by (unfold NDIRECT; lia).
  assert (Eb : blk (mk_view s) (ino n d) (off / 1024) = aget (di_addrs d) (off / 1024)).
  { unfold blk. by rewrite (proj2 (Z.ltb_lt (off / 1024) NDIRECT)) by (unfold NDIRECT; lia). }
  assert (Hi : forall i', ind i' = ind (ino n d) -> ind i' <> 0 <-> 12 <= off / 1024) by (destruct Hd as [_ Hd]; intros ? ->; rewrite Hd; lia).
  pose proof (proj1 Hd (off / 1024) ltac:(lia)) as Hdb. rewrite Eb in Hdb.
  assert (Et : takes off = if off mod 1024 =? 0 then 1 else 0).
  { unfold takes. rewrite (proj2 (Z.eqb_neq off 12288)) by lia. lia. }
  unfold ibmap_post. rewrite Et in *.
  destruct (Z.eqb_spec (aget (di_addrs d) (off / 1024)) 0) as [E0|Enz].
  - rewrite E0. assert (Hm : off mod 1024 = 0) by lia. rewrite Hm in *. change (0 =? 0) with true in *. cbv iota in *.
    destruct (take1_direct s n d (off / 1024)) as [HE Ebl]; [done|lia|done|unfold NDIRECT; lia|done|].
    change (xint 0 =? 0) with true. cbv iota. wp_step. wp_step. apply next_block_spec; [done|lia|]. wp_steps.
    rewrite (xint_id (m_freeblock s)) by lia.
    assert (Ex : xint (aget (aset (di_addrs d) (off / 1024) (m_freeblock s)) (off / 1024)) = m_freeblock s).
    { assert (Hlen : length (di_addrs d) = 13%nat) by apply (fo_len _ _ _ Hf). rewrite aget_aset_eq by lia. apply xint_id. lia. }
    set (d' := d <| di_addrs := aset (di_addrs d) (off / 1024) (m_freeblock s) |>) in *.
    change (di_addrs d') with (aset (di_addrs d) (off / 1024) (m_freeblock s)). rewrite Ex. split_and!; [done|done|lia|simpl; lia|]. intros z Hz. eapply ext_dense; [done|done|done|unfold BSIZE; lia|rewrite Ebl; lia| | |done].
    + simpl. intros b Hb. left. rewrite Ebl. lia.
    + apply Hi. unfold ind. simpl. unfold NDIRECT. apply aget_aset_ne; lia.
  - assert (Hlt : off / 1024 * 1024 < off) by by apply Hdb. rewrite (proj2 (Z.eqb_neq (off mod 1024) 0)) by lia.
    destruct (fo_map _ _ _ Hf (off / 1024)) as [Hdat _]; [lia|by rewrite Eb|]. rewrite Eb in Hdat. pose proof (proj1 (data_sb0 _) Hdat).
    rewrite xint_id by lia. rewrite (proj2 (Z.eqb_neq _ 0)) by done. wp_steps.
    rewrite xint_id by lia. split_and!; [by apply ext_refl|done|done|lia|]. intros z Hz.
    eapply ext_dense; [done|by apply ext_refl|done|unfold BSIZE; lia|by rewrite Eb|lia|by apply Hi|done].
Qed.

(** The indirect part of [ibmap], with the indirect block there. *)
Lemma ibmap_rest_spec n d s bn :
  let i := ino n d in
  Minv s -> file_ok (mk_view s) sb0 i -> ind i <> 0 -> NDIRECT <= bn < MAXFILE -> (blk (mk_view s) i bn = 0 -> m_freeblock s < 2000) ->
  wp (let* indirect := rsect fails (xint (aget (di_addrs d) NDIRECT)) in
      let* indirect :=
        if get32 indirect (4 * (bn - NDIRECT)) =? 0 then
          let* b := next_block in
          let indirect := put32 indirect (4 * (bn - NDIRECT)) (xint b) in
          wsect fails (xint (aget (di_addrs d) NDIRECT)) indirect ;;;
          ret indirect
        else ret indirect in
      ret (d, xint (get32 indirect (4 * (bn - NDIRECT)))))
    (fun r s' => ext s s' i i /\ r = (d, blk (mk_view s') i bn) /\ blk (mk_view s') i bn <> 0 /\
       m_freeblock s' = m_freeblock s + (if blk (mk_view s) i bn =? 0 then 1 else 0)) s.
Proof.
  intros i Hs Hf Hi Hbn Hroom. pose proof (mi_range _ Hs) as Hr. destruct (fo_ind _ _ _ Hf Hi) as (Hdi & Hui & _).
  pose proof (proj1 (data_sb0 _) Hdi) as Hdi'. rewrite in_use_view in Hui by (done || lia). apply Z.ltb_lt in Hui.
  change (aget (di_addrs d) NDIRECT) with (ind i). rewrite xint_id by lia.
  assert (Eb : blk (mk_view s) i bn = get32 (m_img s (ind i)) (4 * (bn - NDIRECT))).
  { unfold blk. rewrite (proj2 (Z.ltb_ge bn NDIRECT)) by lia. rewrite (proj2 (Z.eqb_neq (ind i) 0)) by done. by rewrite view_ne by lia. }
  wp_step. apply rsect_spec; [apply Hs|lia|]. intros c. rewrite <-Eb. destruct (Z.eqb_spec (blk (mk_view s) i bn) 0) as [E0|Hnz].
  - specialize (Hroom E0). destruct (take1_put s i bn) as [HE Ex]; [done..|]. set (s2 := put _ _ _) in *.
    pose proof (calls_inv _ c Hs) as Hsc.
    wp_step. wp_step. apply next_block_spec; [done|done|]. cbv zeta. wp_step. rewrite xint_id by (simpl; lia).
    apply wsect_spec; [apply Hs|lia|]. intros c2. wp_steps.
    assert (Ev : mk_view (put (take1 (s <| m_calls := c |>)) (ind i)
      (put32 (m_img s (ind i)) (4 * (bn - NDIRECT)) (m_freeblock s)) <| m_calls := c2 |>) = mk_view s2) by done.
    assert (Eg : get32 (put32 (m_img s (ind i)) (4 * (bn - NDIRECT)) (m_freeblock s)) (4 * (bn - NDIRECT)) = m_freeblock s).
    { pose proof (block_len _ (mi_ok _ Hs (ind i))). rewrite get32_put32 by (unfold MAXFILE, NINDIRECT, NDIRECT, BSIZE in *; lia). apply u32_id. lia. }
    change (m_freeblock (s <| m_calls := c |>)) with (m_freeblock s). rewrite Eg, xint_id by lia.
    split_and!.
    + eapply ext_calls in HE. exact HE.
    + f_equal. symmetry. exact Ex.
    + change (blk (mk_view s2) i bn <> 0). rewrite Ex. lia.
    + done.
  - destruct (fo_map _ _ _ Hf bn) as [Hdat _]; [unfold MAXFILE, NINDIRECT, NDIRECT, BSIZE in *; lia|done|].
    pose proof (proj1 (data_sb0 _) Hdat). wp_steps. rewrite <-Eb, xint_id by lia.
    split_and!; [apply ext_calls; by apply ext_refl|done|done|simpl; lia].
Qed.

Lemma ibmap_indirect_spec n d s off :
  Minv s -> file_ok (mk_view s) sb0 (ino n d) -> dense (mk_view s) (ino n d) off -> 12288 <= off < MAXFILE * BSIZE ->
  m_freeblock s + takes off <= 2000 ->
  wp (ibmap fails d (off / BSIZE)) (ibmap_post n d s off) s.
Proof.
  intros Hs Hf Hd Ho Hroom. assert (Hmax : MAXFILE = 268) by reflexivity. pose proof (mi_range _ Hs).
  unfold ibmap. change BSIZE with 1024 in *. rewrite (proj2 (Z.ltb_ge (off / 1024) NDIRECT)) by (unfold NDIRECT; lia).
  pose proof (proj1 Hd (off / 1024) ltac:(lia)) as Hdb. pose proof (proj2 Hd) as Hdi. change (ind (ino n d)) with (aget (di_addrs d) NDIRECT) in Hdi.
  destruct (decide (off = 12288)) as [E|Hne].
  - assert (Ei : aget (di_addrs d) NDIRECT = 0) by (destruct (decide (aget (di_addrs d) NDIRECT = 0)) as [|Hz]; [done|apply Hdi in Hz; lia]).
    rewrite Ei. change (xint 0 =? 0) with true. cbv iota. change (takes off) with (takes off) in Hroom.
    assert (Et : takes off = 2) by (by subst off). rewrite Et in Hroom.
    destruct (take1_ind s n d) as [HE1 Ei1]; [done|lia|done..|]. set (d1 := d <| di_addrs := _ |>) in *.
    wp_step. wp_step. apply next_block_spec; [done|lia|]. wp_step. rewrite (xint_id (m_freeblock s)) by lia. fold d1.
    assert (E12 : blk (mk_view (take1 s)) (ino n d1) (off / 1024) = 0).
    { destruct (decide (blk (mk_view (take1 s)) (ino n d1) (off / 1024) = 0)) as [?|Hnz]; [done|exfalso].
      pose proof (gr_file _ _ _ _ _ (ex_grown _ _ _ _ HE1)) as Hf1.
      destruct (fo_ind _ _ _ Hf1 ltac:(rewrite Ei1; lia)) as (_ & _ & Hn). apply (Hn (off / 1024)); [lia|].
      assert (H0 : blk (mk_view s) (ino n d) (off / 1024) = 0) by (destruct (decide (blk (mk_view s) (ino n d) (off / 1024) = 0)) as [|Hz]; [done|apply Hdb in Hz; lia]).
      pose proof (ext_new _ _ _ _ (off / 1024) Hs HE1 ltac:(lia) H0 Hnz) as Hrg. simpl in Hrg. rewrite Ei1. lia. }
    pose proof (ex_inv _ _ _ _ HE1) as Hs1. pose proof (gr_file _ _ _ _ _ (ex_grown _ _ _ _ HE1)) as Hf1.
    eapply wp_conseq; [apply (ibmap_rest_spec n d1); [done|done|rewrite Ei1; lia|unfold NDIRECT; lia|simpl; lia]|].
    intros r s2 (HE2 & -> & Hnz & Efb). rewrite E12 in Efb. simpl in Efb.
    pose proof (ext_new _ _ _ _ (off / 1024) Hs1 HE2 ltac:(lia) E12 Hnz) as Hrg. simpl in Hrg.
    pose proof (ext_trans _ _ _ _ _ _ HE1 HE2) as HE. split_and!; [done|done|done|lia|].
    intros z Hz. apply (ext_dense s s2 (ino n d) (ino n d1) off z Hs HE Hd); [unfold BSIZE; lia|done| |rewrite Ei1; lia|done].
    intros b Hb. rewrite Ei1. lia.
  - assert (Ei : aget (di_addrs d) NDIRECT <> 0) by (apply Hdi; lia). change (ind (ino n d) <> 0) in Ei.
    destruct (fo_ind _ _ _ Hf Ei) as (Hdat & _). pose proof (proj1 (data_sb0 _) Hdat) as Hdr. change (ind (ino n d)) with (aget (di_addrs d) NDIRECT) in Hdr.
    rewrite xint_id by lia. rewrite (proj2 (Z.eqb_neq _ 0)) by lia. wp_step. wp_step.
    assert (Et : takes off = if blk (mk_view s) (ino n d) (off / 1024) =? 0 then 1 else 0).
    { unfold takes. rewrite (proj2 (Z.eqb_neq off 12288)) by done.
      destruct (Z.eqb_spec (blk (mk_view s) (ino n d) (off / 1024)) 0) as [E0|E0], (Z.eqb_spec (off mod 1024) 0); lia. }
    eapply wp_conseq; [apply (ibmap_rest_spec n d); [done|done|done|unfold NDIRECT; lia|]|].
    { intros E0. rewrite E0 in Et. simpl in Et. lia. }
    intros r s2 (HE & -> & Hnz & Efb). split_and!; [done|done|done|lia|].
    intros z Hz. eapply ext_dense; [done|exact HE|done|unfold BSIZE; lia|done| |split; [lia|done]|done].
    intros b Hb. left. destruct (Z.eqb_spec (blk (mk_view s) (ino n d) (off / 1024)) 0) as [E0|]; [|lia].
    pose proof (ext_new _ _ _ _ (off / 1024) Hs HE ltac:(lia) E0 Hnz). lia.
Qed.

Lemma ibmap_spec n d s off :
  Minv s -> file_ok (mk_view s) sb0 (ino n d) -> dense (mk_view s) (ino n d) off -> 0 <= off < MAXFILE * BSIZE ->
  m_freeblock s + takes off <= 2000 ->
  wp (ibmap fails d (off / BSIZE)) (ibmap_post n d s off) s.
Proof.
  intros. destruct (decide (off < 12288)); [apply ibmap_direct_spec; (done || lia)|apply ibmap_indirect_spec; (done || lia)].
Qed.

(** ** Appending *)

(** The blocks of a file of [z] bytes, with its indirect block. *)
Definition nblk (z : Z) : Z := (z + 1023) / 1024 + (if 12288 <? z then 1 else 0).

Lemma nblk_step off z : 0 <= off -> off < z <= (off / 1024 + 1) * 1024 -> nblk z = nblk off + takes off.
Proof.
  intros. unfold nblk, takes.
  destruct (Z.ltb_spec 12288 z), (Z.ltb_spec 12288 off), (Z.eqb_spec (off mod 1024) 0), (Z.eqb_spec off 12288); lia.
Qed.

Lemma nblk_mono a b : a <= b -> nblk a <= nblk b.
Proof. intros. unfold nblk. destruct (Z.ltb_spec 12288 a), (Z.ltb_spec 12288 b); lia. Qed.

(** Bytes [l] have been written at [off] of file [i], which is [i'] now, with the blocks taken between [s] and [s']. *)
Record appended (s s' : mkfs) (i i' : inode) (off : Z) (l : list Z) : Prop := {
  ap_inv : Minv s';
  ap_wrote : wrote sb0 (mk_view s) (mk_view s') i i' off l;
  ap_keeps : keeps s s';
  ap_cover b : m_freeblock s <= b < m_freeblock s' -> owns (mk_view s') i' b }.

Lemma owns_wrote sb V V' i i' off l b : wrote sb V V' i i' off l -> owns V i b -> owns V' i' b.
Proof.
  intros G (Hnz & Ho). split; [done|]. destruct Ho as [->|(bn & Hbn & ->)].
  - left. by destruct (wr_ind _ _ _ _ _ _ _ G) as [->|[? _]].
  - right. exists bn. split; [done|]. by rewrite (wr_map _ _ _ _ _ _ _ G).
Qed.

Lemma appended_trans s s1 s2 i i1 i2 off l1 l2 :
  0 <= off -> off + Z.of_nat (length (l1 ++ l2)) <= MAXFILE * BSIZE ->
  appended s s1 i i1 off l1 -> appended s1 s2 i1 i2 (off + Z.of_nat (length l1)) l2 -> appended s s2 i i2 off (l1 ++ l2).
Proof.
  intros H0 Hmax [A1 A2 A3 A4] [B1 B2 B3 B4]. split; [done|by eapply wrote_trans|by eapply keeps_trans|].
  intros b Hb. destruct (decide (b < m_freeblock s1)); [|apply B4; lia]. eapply owns_wrote; [done|]. apply A4. lia.
Qed.

Lemma appended_calls s s' i i' off l c : appended s s' i i' off l -> appended s (s' <| m_calls := c |>) i i' off l.
Proof. intros [A1 A2 A3 A4]. split; [by apply calls_inv|done..]. Qed.

(** Storing bytes in a block of the file. *)
Lemma ext_store s s1 i i1 off l :
  let x := blk (mk_view s1) i1 (off / 1024) in
  let s2 := put s1 x (splice (m_img s1 x) (off mod 1024) l) in
  Minv s -> ext s s1 i i1 -> 0 <= off < MAXFILE * BSIZE -> x <> 0 -> bytes_ok l ->
  off mod 1024 + Z.of_nat (length l) <= 1024 ->
  appended s s2 i i1 off l /\ (forall z, dense (mk_view s1) i1 z -> dense (mk_view s2) i1 z).
Proof.
  intros x s2 Hs HE Ho Hx Hl Hfit. pose proof (ex_inv _ _ _ _ HE) as Hs1. pose proof (gr_file _ _ _ _ _ (ex_grown _ _ _ _ HE)) as Hf1.
  assert (Hmax : MAXFILE = 268) by reflexivity. unfold BSIZE in Ho.
  destruct (fo_map _ _ _ Hf1 (off / 1024)) as [Hd Hu]; [lia|done|]. fold x in Hd, Hu. pose proof (proj1 (data_sb0 _) Hd).
  rewrite in_use_view in Hu by (done || lia). apply Z.ltb_lt in Hu.
  assert (EV : forall m, mk_view s2 m = bput (mk_view s1) x (splice (mk_view s1 x) (off mod 1024) l) m).
  { intros m. unfold s2. rewrite put_view by lia. by rewrite view_ne by lia. }
  assert (W : wrote sb0 (mk_view s) (mk_view s2) i i1 off l).
  { eapply (wrote_store sb0 home_block (mk_view s) (mk_view s1)); [apply sb0_layout|intros; by apply view_block_ok|apply HE|unfold BSIZE; lia|done..]. }
  assert (Hind : ind i1 <> x).
  { intros E. destruct (fo_ind _ _ _ Hf1 ltac:(congruence)) as (_ & _ & Hn). apply (Hn (off / 1024)); [lia|]. by rewrite E. }
  assert (Eblk : forall bn, blk (mk_view s2) i1 bn = blk (mk_view s1) i1 bn).
  { intros bn. unfold blk. destruct (bn <? NDIRECT); [done|]. destruct (ind i1 =? 0); [done|]. by rewrite EV, bput_ne. }
  split.
  - split; [|done| |].
    + apply put_inv; [done| |done]. pose proof (mi_ok _ Hs1 x) as Hok. pose proof (block_len _ Hok). destruct Hok as [Hlen Hby].
      split; [rewrite length_splice; lia|by apply bytes_ok_splice].
    + eapply keeps_trans; [apply HE|]. split_and!; [done| |done]. intros b Hb. simpl. rewrite bput_ne by lia. done.
    + intros b Hb. destruct (ex_cover _ _ _ _ HE b Hb) as (Hnz & [E|(bn & Hbn & E)]); (split; [done|]); [by left|right].
      exists bn. by rewrite Eblk.
  - intros z [Hz1 Hz2]. split; [|done]. intros bn Hbn. rewrite Eblk. by apply Hz1.
Qed.

Definition loop_post n d s off (p : list Z) (r : dinode * Z) (s' : mkfs) : Prop :=
  let '(d', off') := r in let e := off + Z.of_nat (length p) in
  off' = e /\ appended s s' (ino n d) (ino n d') off p /\ dense (mk_view s') (ino n d') e /\
  m_freeblock s' = m_freeblock s + nblk e - nblk off.

Lemma iappend_loop_spec fuel n d s off p :
  Minv s -> file_ok (mk_view s) sb0 (ino n d) -> dense (mk_view s) (ino n d) off -> bytes_ok p ->
  0 <= off -> off + Z.of_nat (length p) <= MAXFILE * BSIZE ->
  m_freeblock s + nblk (off + Z.of_nat (length p)) - nblk off <= 2000 -> touched off (Z.of_nat (length p)) < Z.of_nat fuel ->
  wp (iappend_loop fails fuel d off p (Z.of_nat (length p))) (loop_post n d s off p) s.
Proof.
  revert d s off p. induction fuel as [|fuel IH]; intros d s off p Hs Hf Hd Hp Ho Hmax Hroom Hfuel.
  { pose proof (touched_nonneg off (Z.of_nat (length p))). lia. }
  assert (Emax : MAXFILE = 268) by reflexivity. simpl. destruct (Z.ltb_spec 0 (Z.of_nat (length p))) as [Hpos|H0].
  2:{ wp_steps. assert (E : p = []) by (apply nil_length_inv; lia). subst p. simpl. rewrite Z.add_0_r. split_and!; [done| |done|lia].
      split; [done|apply wrote_grown, ext_refl; done|apply keeps_refl|lia]. }
  unfold BSIZE in *. set (len := Z.of_nat (length p)) in *.
  set (n1 := Z.min len (1024 - off mod 1024)).
  assert (En1 : Z.min len (u32 ((off / 1024 + 1) * 1024 - off)) = n1) by (unfold n1; rewrite u32_id by lia; lia).
  assert (Hn1 : 0 < n1 <= len /\ off + n1 <= (off / 1024 + 1) * 1024) by lia.
  pose proof (nblk_step off (off + n1) ltac:(lia) ltac:(lia)) as Hnb. pose proof (nblk_mono (off + n1) (off + len) ltac:(lia)) as Hmono.
  unfold assert. rewrite (proj2 (Z.ltb_lt (off / 1024) MAXFILE)) by lia. wp_step. wp_step. wp_step.
  eapply wp_conseq; [apply (ibmap_spec n d s off); (done || unfold BSIZE; lia)|].
  intros [d1 x] s1 (HE & Ex & Hx & Efb & Hden).
  set (l1 := take (Z.to_nat n1) p). set (l2 := drop (Z.to_nat n1) p).
  assert (El1 : Z.of_nat (length l1) = n1) by (unfold l1; rewrite length_take; lia).
  assert (El2 : Z.of_nat (length l2) = len - n1) by (unfold l2; rewrite length_drop; lia).
  assert (Ep : p = l1 ++ l2) by (symmetry; apply take_drop).
  destruct (ext_store s s1 (ino n d) (ino n d1) off l1) as [HA HD]; [done|done|unfold BSIZE; lia|by rewrite Ex|by apply Forall_take|lia|].
  rewrite Ex in HA, HD. pose proof (gr_file _ _ _ _ _ (ex_grown _ _ _ _ HE)) as Hf1.
  assert (Hxr : 0 <= x < 2000).
  { rewrite <-Ex in Hx |- *. destruct (fo_map _ _ _ Hf1 (off / 1024)) as [Hdx _]; [lia|done|]. pose proof (proj1 (data_sb0 _) Hdx). lia. }
  pose proof (ex_inv _ _ _ _ HE) as Hs1.
  wp_step. apply rsect_spec; [apply Hs1|done|]. intros c1. wp_step. apply wsect_spec; [apply Hs1|done|]. intros c2.
  rewrite En1. replace (off - off / 1024 * 1024) with (off mod 1024) by lia. fold l1 l2.
  set (s2 := put (s1 <| m_calls := c1 |>) x _ <| m_calls := c2 |>).
  assert (HA2 : appended s s2 (ino n d) (ino n d1) off l1) by (apply (appended_calls _ _ _ _ _ _ c2) in HA; destruct HA; by split).
  assert (HD2 : dense (mk_view s2) (ino n d1) (off + n1)) by (apply HD, Hden; lia).
  rewrite u32_id by lia. rewrite <-El2.
  eapply wp_conseq; [apply (IH d1 s2 (off + n1) l2); try done; try lia|].
  { apply HA2. }
  { apply (wr_file _ _ _ _ _ _ _ (ap_wrote _ _ _ _ _ _ HA2)). }
  { by apply Forall_drop. }
  { change (m_freeblock s2) with (m_freeblock s1). rewrite El2. replace (off + n1 + (len - n1)) with (off + len) by lia. lia. }
  { rewrite El2. pose proof (touched_step off len n1 ltac:(lia) eq_refl). lia. }
  intros [d2 off2] s3 (-> & HA3 & HD3 & Efb3). change (m_freeblock s2) with (m_freeblock s1) in Efb3. rewrite El2 in *.
  replace (off + n1 + (len - n1)) with (off + len) in * by lia. split_and!; [done| |done|fold len; lia].
  rewrite Ep. eapply appended_trans; [lia|rewrite <-Ep; fold len; unfold BSIZE; lia|exact HA2|]. by rewrite El1.
Qed.

(** ** Inodes *)

(** Inode [n] of the image. *)
Definition inode_at (V : Z -> block) (n : Z) : inode := ino n (disk_inode V sb0 n).

(** File [j] is the same in [V'] as in [V]. *)
Definition same_file (V V' : Z -> block) (j : inode) : Prop :=
  (forall bn, blk V' j bn = blk V j bn) /\ (forall k, 0 <= k < MAXFILE * BSIZE -> fbyte V' j k = fbyte V j k) /\ file_ok V' sb0 j.

Lemma same_file_trans V V1 V2 j : same_file V V1 j -> same_file V1 V2 j -> same_file V V2 j.
Proof. intros (A1 & A2 & A3) (B1 & B2 & B3). split_and!; [intros; by rewrite B1, A1|intros; by rewrite B2, A2|done]. Qed.

Lemma same_owns V V' j b : same_file V V' j -> owns V' j b <-> owns V j b.
Proof. intros (A1 & _). unfold owns. by setoid_rewrite A1. Qed.

Lemma same_dense V V' j z : same_file V V' j -> dense V j z -> dense V' j z.
Proof. intros (A1 & _) [D1 D2]. split; [|done]. intros bn. rewrite A1. apply D1. Qed.

(** Writing an inode to the image. *)
Lemma winode_same V V' n d j :
  (forall b, V' b = iupdate_view V sb0 (ino n d) b) -> 0 <= n < 200 -> meta_used V sb0 -> file_ok V sb0 j -> same_file V V' j.
Proof.
  intros E Hn Hm Hj. destruct (file_iupdate sb0 home_block V j (ino n d)) as (Eb & Ek & Hf & Eu); [apply sb0_layout|done|done|by rewrite sb0_eq|].
  assert (Hm2 : meta_used (iupdate_view V sb0 (ino n d)) sb0) by (intros b Hb Hu; rewrite Eu in Hu by done; by apply (Hm b)).
  split_and!.
  - intros bn. by rewrite (blk_ext _ _ _ _ E), Eb.
  - intros k Hk. by rewrite (fbyte_ext _ _ _ _ E), Ek.
  - by eapply file_ok_ext.
Qed.

Lemma winode_self V V' n d :
  (forall b, V' b = iupdate_view V sb0 (ino n d) b) -> (forall b, block_ok (V b)) -> dinode_ok d -> disk_inode V' sb0 n = d.
Proof.
  intros E HV Hd. unfold disk_inode. rewrite E. pose proof (iupdate_view_self V sb0 (ino n d) HV) as H. rewrite to_ino in H. by apply H.
Qed.

Lemma winode_other V V' n d n' :
  (forall b, V' b = iupdate_view V sb0 (ino n d) b) -> (forall b, block_ok (V b)) -> dinode_ok d ->
  0 <= n < 200 -> 0 <= n' < 200 -> n' <> n -> disk_inode V' sb0 n' = disk_inode V sb0 n'.
Proof.
  intros E HV Hd Hn Hn' Hne. unfold disk_inode at 1. rewrite E. apply (iupdate_view_other V sb0 home_block (ino n d));
    [done|by rewrite to_ino|apply sb0_layout|by rewrite sb0_eq..|done].
Qed.

Lemma iblock_range n : 0 <= n < 200 -> 33 <= IBLOCK n sb0 < 46.
Proof.
  intros Hn. rewrite sb0_eq. unfold IBLOCK, IPB, BSIZE, DINODE_SIZE. simpl. change (1024 / 64) with 16. rewrite u32_id; lia.
Qed.

Lemma rinode_spec n s (Q : dinode -> mkfs -> Prop) :
  Minv s -> 0 <= n < 200 -> (forall c, Q (disk_inode (mk_view s) sb0 n) (s <| m_calls := c |>)) -> wp (rinode fails n) Q s.
Proof.
  intros Hs Hn HQ. pose proof (iblock_range n Hn). unfold rinode. wp_step. wp_step. rewrite (mi_sb _ Hs).
  wp_step. apply rsect_spec; [apply Hs|lia|]. intros c. wp_steps. specialize (HQ c). unfold disk_inode in HQ. by rewrite view_ne in HQ by lia.
Qed.

(** The state after [winode]. *)
Definition wrote_inode (s s' : mkfs) (n : Z) (d : dinode) : Prop :=
  Minv s' /\ (forall b, mk_view s' b = iupdate_view (mk_view s) sb0 (ino n d) b) /\ (forall b, b < 33 -> m_img s' b = m_img s b) /\
  m_freeinode s' = m_freeinode s /\ m_freeblock s' = m_freeblock s.

Lemma winode_spec n d s : Minv s -> 0 <= n < 200 -> dinode_ok d -> wp (winode fails n d) (fun _ s' => wrote_inode s s' n d) s.
Proof.
  intros Hs Hn Hd. pose proof (iblock_range n Hn). pose proof (mi_range _ Hs). unfold winode. wp_step. wp_step. rewrite (mi_sb _ Hs).
  wp_step. apply rsect_spec; [apply Hs|lia|]. intros c. apply wsect_spec; [apply Hs|lia|]. intros c2.
  change (n mod IPB * DINODE_SIZE) with (ioff n). pose proof (ioff_range n).
  set (s1 := put _ _ _). assert (Hs1 : Minv s1).
  { apply put_inv; [by apply calls_inv| |simpl; lia]. apply block_ok_put_dinode; [lia|rewrite (block_len _ (mi_ok _ Hs _)); lia|apply Hd|apply Hs]. }
  split_and!; [by apply calls_inv| | |done|done].
  - intros b. change (mk_view (s1 <| m_calls := c2 |>) b) with (mk_view s1 b). unfold s1. rewrite put_view by lia.
    unfold iupdate_view. rewrite to_ino. simpl. by rewrite (view_ne s) by lia.
  - intros b Hb. simpl. by rewrite bput_ne by lia.
Qed.

End Spec.
