(* ===== verification/MkfsImage.v ===== *)
(** The image as a whole: the files in it while mkfs/mkfs.c builds it, and the file system it leaves. *)

From S2P Require Import Prelude Bytes Params Disk Sleeplock CString Fs FsBlocks FsInode FsFile FsDir Mkfs MkfsSpec.

(** ** The files of the image *)

(** Inode [n] is a file of type [ty] with contents [l]. *)
Record has_file (V : Z -> block) (n ty : Z) (l : list Z) : Prop := {
  ho_file : file_ok V sb0 (inode_at V n);
  ho_dense : dense V (inode_at V n) (Z.of_nat (length l));
  ho_bytes k : 0 <= k < MAXFILE * BSIZE -> fbyte V (inode_at V n) k = aget l k;
  ho_size : i_size (inode_at V n) = Z.of_nat (length l);
  ho_meta : disk_inode V sb0 n = Dinode ty 0 0 1 (Z.of_nat (length l)) (i_addrs (inode_at V n)) }.

Lemma holds_same V V' n ty l : has_file V n ty l -> disk_inode V' sb0 n = disk_inode V sb0 n -> same_file V V' (inode_at V n) -> has_file V' n ty l.
Proof.
  intros [H1 H2 H3 H4 H5] E HS. assert (Ei : inode_at V' n = inode_at V n) by (unfold inode_at; by rewrite E).
  split; rewrite ?Ei; try done; [by apply (proj2 (proj2 HS))|by eapply same_dense| |by rewrite E].
  intros k Hk. rewrite <-H3 by done. by apply (proj1 (proj2 HS)).
Qed.

Lemma aget_app l p k : 0 <= k ->
  aget (l ++ p) k = if decide (Z.of_nat (length l) <= k < Z.of_nat (length l) + Z.of_nat (length p)) then aget p (k - Z.of_nat (length l)) else aget l k.
Proof.
  intros Hk. unfold aget. case_decide.
  - rewrite app_nth2 by lia. f_equal. lia.
  - destruct (decide (k < Z.of_nat (length l))); [by rewrite app_nth1 by lia|]. rewrite !nth_overflow; [done|lia|rewrite length_app; lia].
Qed.

Definition type_ok (ty : Z) : Prop := 0 <= ty < 2 ^ 15.

Lemma meta_ino V n ty l : 0 <= n < 200 -> type_ok ty -> has_file V n ty l -> meta_ok sb0 (inode_at V n).
Proof.
  intros Hn Ht H. pose proof (ho_meta _ _ _ _ H) as E. unfold type_ok in Ht. unfold inode_at.
  rewrite E. split; [exact Hn|cbn; lia..].
Qed.

Lemma disk_keeps s s' n : keeps s s' -> 0 <= n < 200 -> disk_inode (mk_view s') sb0 n = disk_inode (mk_view s) sb0 n.
Proof.
  intros (_ & Hk & _) Hn. pose proof (iblock_range n Hn). unfold disk_inode. rewrite !view_ne by lia. by rewrite Hk by lia.
Qed.

(** What appending [p] to file [n] does to the image. *)
Record grows (s s' : mkfs) (n ty : Z) (l : list Z) : Prop := {
  go_inv : Minv s';
  go_holds : has_file (mk_view s') n ty l;
  go_room : m_freeblock s' - nblk (Z.of_nat (length l)) = m_freeblock s - nblk (i_size (inode_at (mk_view s) n));
  go_le : m_freeblock s <= m_freeblock s';
  go_ino : m_freeinode s' = m_freeinode s;
  go_meta b : b < 33 -> m_img s' b = m_img s b;
  go_owns b : owns (mk_view s) (inode_at (mk_view s) n) b \/ m_freeblock s <= b < m_freeblock s' -> owns (mk_view s') (inode_at (mk_view s') n) b;
  go_inodes n' : 0 <= n' < 200 -> n' <> n -> disk_inode (mk_view s') sb0 n' = disk_inode (mk_view s) sb0 n';
  go_same j : file_ok (mk_view s) sb0 j -> apart (mk_view s) (inode_at (mk_view s) n) j ->
    same_file (mk_view s) (mk_view s') j /\ apart (mk_view s') (inode_at (mk_view s') n) j }.

(** The inode that [iappend] writes back, and the image then. *)
Lemma appended_grows s s1 s' n ty l p d' :
  let e := Z.of_nat (length (l ++ p)) in
  let d2 := d' <| di_size := e |> in
  Minv s -> 0 <= n < 200 -> type_ok ty -> has_file (mk_view s) n ty l -> e <= MAXFILE * BSIZE ->
  appended s s1 (inode_at (mk_view s) n) (ino n d') (Z.of_nat (length l)) p -> dense (mk_view s1) (ino n d') e ->
  m_freeblock s1 = m_freeblock s + nblk e - nblk (Z.of_nat (length l)) ->
  wrote_inode s1 s' n d2 -> grows s s' n ty (l ++ p).
Proof.
  intros e d2 Hs Hn Ht H He HA HD Hfb (Hs' & EV & Hm & Hfi & Hfb').
  pose proof (ap_wrote _ _ _ _ _ _ HA) as W. pose proof (ap_inv _ _ _ _ _ _ HA) as Hs1. pose proof (view_meta _ Hs1) as Hmu1.
  pose proof (wr_file _ _ _ _ _ _ _ W) as Hf1.
  assert (Ed : d' = Dinode ty 0 0 1 (Z.of_nat (length l)) (di_addrs d')).
  { pose proof (wr_same _ _ _ _ _ _ _ W) as E. pose proof (ho_meta _ _ _ _ H) as Em. unfold inode_at in E. rewrite Em in E. destruct d'. by injection E as -> -> -> -> ->. }
  assert (Hf2 : file_ok (mk_view s1) sb0 (ino n d2)) by (apply (file_ok_size _ _ (ino n d') e); [done|lia]).
  assert (Hd2 : dinode_ok d2).
  { rewrite <-(to_ino n). eapply to_dinode_ok; [apply sb0_layout|exact Hf2|]. unfold type_ok in Ht. unfold d2. rewrite Ed. split; [exact Hn|cbn; lia..]. }
  assert (HV1 : forall b, block_ok (mk_view s1 b)) by (intros; by apply view_block_ok).
  pose proof (winode_self _ _ _ _ EV HV1 Hd2) as Eself. assert (Ei : inode_at (mk_view s') n = ino n d2) by (unfold inode_at; by rewrite Eself).
  pose proof (winode_same _ _ _ _ (ino n d2) EV Hn Hmu1 Hf2) as HS2.
  assert (Hown : forall b, owns (mk_view s1) (ino n d') b <-> owns (mk_view s') (inode_at (mk_view s') n) b).
  { intros b. rewrite Ei, (same_owns _ _ _ b HS2). done. }
  split.
  - done.
  - split; rewrite ?Ei; [by apply (proj2 (proj2 HS2))|by eapply same_dense| |done|by rewrite Eself; unfold d2; rewrite Ed].
    intros k Hk. destruct HS2 as (_ & Ek & _). rewrite Ek by done. change (fbyte (mk_view s1) (ino n d2) k) with (fbyte (mk_view s1) (ino n d') k).
    rewrite (wr_byte _ _ _ _ _ _ _ W) by done. rewrite aget_app by lia. case_decide; [done|]. by apply (ho_bytes _ _ _ _ H).
  - rewrite (ho_size _ _ _ _ H). fold e. lia.
  - destruct (ap_keeps _ _ _ _ _ _ HA) as (_ & _ & ?). lia.
  - rewrite Hfi. apply (ap_keeps _ _ _ _ _ _ HA).
  - intros b Hb. rewrite Hm by done. apply (ap_keeps _ _ _ _ _ _ HA). lia.
  - intros b [Hb|Hb]; apply Hown; [by eapply owns_wrote|apply (ap_cover _ _ _ _ _ _ HA); lia].
  - intros n' Hn' Hne. rewrite (winode_other _ _ _ _ n' EV) by done. eapply disk_keeps; [apply HA|done].
  - intros j Hj Hap. destruct (wrote_apart sb0 home_block _ _ _ _ _ _ j sb0_layout W (ho_file _ _ _ _ H) Hj Hap) as [Hno Hkeep].
    destruct (file_frame _ (mk_view s1) sb0 j Hj Hkeep) as (Eb & Ek & Hfj).
    { intros b Hb _. apply W. done. }
    assert (HSj : same_file (mk_view s) (mk_view s1) j) by (split_and!; [done..|apply Hfj; rewrite sb0_eq; done]).
    pose proof (same_file_trans _ _ _ _ HSj (winode_same _ _ _ _ j EV Hn Hmu1 (proj2 (proj2 HSj)))) as HS. split; [done|].
    intros b Hb Hbj. apply Hown in Hb. apply (same_owns _ _ _ b HS) in Hbj. by apply (Hno b).
Qed.

Section Image.
Context (fails : nat -> bool) (Hhost : forall n, fails n = false).

Lemma iappend_spec n ty l p s :
  Minv s -> 0 <= n < 200 -> type_ok ty -> has_file (mk_view s) n ty l -> bytes_ok p ->
  Z.of_nat (length (l ++ p)) <= MAXFILE * BSIZE ->
  m_freeblock s + nblk (Z.of_nat (length (l ++ p))) - nblk (Z.of_nat (length l)) <= 2000 ->
  wp (iappend fails n p (Z.of_nat (length p))) (fun _ s' => grows s s' n ty (l ++ p)) s.
Proof.
  intros Hs Hn Ht H Hp Hmax Hroom. unfold iappend. wp_step. apply rinode_spec; [done..|]. intros c.
  assert (Hsz : xint (di_size (disk_inode (mk_view s) sb0 n)) = Z.of_nat (length l)).
  { pose proof (ho_size _ _ _ _ H) as E. unfold MAXFILE, NINDIRECT, NDIRECT, BSIZE in Hmax. rewrite length_app in Hmax.
    change (di_size (disk_inode (mk_view s) sb0 n) = Z.of_nat (length l)) in E. rewrite E. apply xint_id. lia. }
  rewrite Hsz. wp_step. rewrite length_app in Hmax, Hroom.
  eapply wp_conseq; [apply (iappend_loop_spec fails Hhost _ n)|].
  - by apply calls_inv.
  - apply H.
  - apply H.
  - done.
  - lia.
  - lia.
  - simpl. rewrite <-Nat2Z.inj_add. lia.
  - pose proof (touched_bound (Z.of_nat (length l)) (Z.of_nat (length p)) ltac:(lia)). unfold BSIZE. lia.
  - intros [d' off'] s1 (-> & HA & HD & Hfb). change (m_freeblock (s <| m_calls := c |>)) with (m_freeblock s) in Hfb.
    assert (Ee : Z.of_nat (length l) + Z.of_nat (length p) = Z.of_nat (length (l ++ p))) by (rewrite length_app; lia).
    rewrite Ee in *. rewrite xint_id by (rewrite <-Ee; unfold MAXFILE, NINDIRECT, NDIRECT, BSIZE in Hmax; lia).
    assert (HA' : appended s s1 (inode_at (mk_view s) n) (ino n d') (Z.of_nat (length l)) p) by (destruct HA; by split).
    set (d2 := d' <| di_size := Z.of_nat (length (l ++ p)) |>).
    eapply wp_conseq; [apply (winode_spec fails Hhost n d2)|].
    + apply HA'.
    + done.
    + rewrite <-(to_ino n). eapply to_dinode_ok; [apply sb0_layout| |].
      * apply (file_ok_size _ _ (ino n d') (Z.of_nat (length (l ++ p)))); [apply (wr_file _ _ _ _ _ _ _ (ap_wrote _ _ _ _ _ _ HA'))|lia].
      * pose proof (meta_ino _ _ _ _ Hn Ht H) as Hmo. pose proof (wr_same _ _ _ _ _ _ _ (ap_wrote _ _ _ _ _ _ HA')) as E.
        destruct Hmo as [M1 M2 M3 M4 M5]. destruct d'. injection E as -> -> -> -> ->. by split.
    + intros [] s' HW. eapply (appended_grows s s1 s' n ty l p d'); try done. lia.
Qed.

Definition dinode0 (ty : Z) : dinode := Dinode ty 0 0 1 0 (replicate (Z.to_nat (NDIRECT + 1)) 0).

Lemma empty_blk V n ty bn : blk V (ino n (dinode0 ty)) bn = 0.
Proof.
  assert (E0 : forall k, aget (replicate (Z.to_nat (NDIRECT + 1)) 0) k = 0).
  { intros k. unfold aget. rewrite nth_lookup. destruct (_ !! _) eqn:E; [|done]. by apply lookup_replicate in E as [-> _]. }
  unfold blk, ind. cbn [i_addrs ino di_addrs dinode0]. rewrite !E0. by destruct (bn <? NDIRECT).
Qed.

Lemma empty_file V n ty : file_ok V sb0 (ino n (dinode0 ty)).
Proof.
  split; [done|done|vm_compute; split; congruence| | |done].
  - intros bn _ Hn. by rewrite empty_blk in Hn.
  - intros bn bn' _ _ Hn. by rewrite empty_blk in Hn.
Qed.

Lemma empty_owns V n ty b : ~ owns V (ino n (dinode0 ty)) b.
Proof. intros (Hnz & [->|(bn & _ & ->)]); apply Hnz; [done|apply empty_blk]. Qed.

(** What [ialloc] does to the image. *)
Record allots (s s' : mkfs) (ty : Z) : Prop := {
  al_inv : Minv s';
  al_holds : has_file (mk_view s') (m_freeinode s) ty [];
  al_fb : m_freeblock s' = m_freeblock s;
  al_ino : m_freeinode s' = m_freeinode s + 1;
  al_meta b : b < 33 -> m_img s' b = m_img s b;
  al_empty b : ~ owns (mk_view s') (inode_at (mk_view s') (m_freeinode s)) b;
  al_inodes n' : 0 <= n' < 200 -> n' <> m_freeinode s -> disk_inode (mk_view s') sb0 n' = disk_inode (mk_view s) sb0 n';
  al_same j : file_ok (mk_view s) sb0 j -> same_file (mk_view s) (mk_view s') j }.

Lemma ialloc_spec ty s :
  Minv s -> 0 < m_freeinode s < 200 -> type_ok ty ->
  wp (ialloc fails ty) (fun n s' => n = m_freeinode s /\ allots s s' ty) s.
Proof.
  intros Hs Hn Ht. unfold type_ok in Ht. unfold ialloc. wp_step. wp_step. wp_step. wp_step. rewrite u32_id by lia.
  rewrite !xshort_id by lia. change (xint 0) with 0. fold (dinode0 ty). set (n := m_freeinode s) in *. wp_step.
  set (s1 := s <| m_freeinode := n + 1 |>). assert (Hs1 : Minv s1) by (destruct Hs; by split).
  assert (Hd : dinode_ok (dinode0 ty)).
  { split_and!; try done; try (cbn; lia). apply Forall_replicate. lia. }
  eapply wp_conseq; [apply (winode_spec fails Hhost n); [done|lia|done]|].
  intros [] s' (Hs' & EV & Hm & Hfi & Hfb). wp_step. split; [done|].
  assert (HV1 : forall b, block_ok (mk_view s1 b)) by (intros; by apply view_block_ok).
  assert (Hsame : forall j, file_ok (mk_view s) sb0 j -> same_file (mk_view s) (mk_view s') j).
  { intros j Hj. eapply winode_same; [exact EV|lia|by apply view_meta|done]. }
  pose proof (winode_self _ _ _ _ EV HV1 Hd) as Eself.
  assert (Ei : inode_at (mk_view s') n = ino n (dinode0 ty)) by (unfold inode_at; by rewrite Eself).
  split; try done; fold n; rewrite ?Ei.
  - split; rewrite ?Ei; [apply empty_file| | |done|done].
    + split; [|split; [done|simpl; lia]]. intros bn Hbn. rewrite empty_blk. split; [done|simpl; lia].
    + intros k Hk. unfold fbyte. rewrite empty_blk. simpl. unfold aget. by destruct (Z.to_nat k).
  - apply empty_owns.
  - intros n' Hn' Hne. by rewrite (winode_other _ _ _ _ n' EV) by (done || lia).
Qed.

(** The numbers and types of the files, in the order they are made: the root directory, and the files of the command line. *)
Definition fno (k : nat) : Z := 1 + Z.of_nat k.
Definition fty (k : nat) : Z := match k with O => T_DIR | S _ => T_FILE end.

Lemma fty_ok k : type_ok (fty k).
Proof. unfold type_ok. destruct k; unfold fty, T_DIR, T_FILE; lia. Qed.

(** The blocks of files with contents [L]. *)
Definition total (L : list (list Z)) : Z := foldr (fun l t => nblk (Z.of_nat (length l)) + t) 0 L.

Lemma blocks_app L1 L2 : total (L1 ++ L2) = total L1 + total L2.
Proof. induction L1 as [|l L1 IH]; simpl; [done|]. rewrite IH. lia. Qed.

Lemma total_insert L k l x :
  L !! k = Some l -> total (<[k := x]> L) = total L - nblk (Z.of_nat (length l)) + nblk (Z.of_nat (length x)).
Proof.
  revert k. induction L as [|l0 L IH]; intros [|k] Hk; simpl in *; try done; [injection Hk as ->; lia|]. rewrite (IH k Hk). lia.
Qed.

(** An image with files of contents [L], and nothing else. *)
Record Sinv (s : mkfs) (L : list (list Z)) : Prop := {
  si_inv : Minv s;
  si_n : m_freeinode s = 1 + Z.of_nat (length L);
  si_max : (length L <= 199)%nat;
  si_files k l : L !! k = Some l -> has_file (mk_view s) (fno k) (fty k) l;
  si_apart k k' : (k < length L)%nat -> (k' < length L)%nat -> k <> k' ->
    apart (mk_view s) (inode_at (mk_view s) (fno k)) (inode_at (mk_view s) (fno k'));
  si_cover b : 47 <= b < m_freeblock s -> exists k, (k < length L)%nat /\ owns (mk_view s) (inode_at (mk_view s) (fno k)) b;
  si_fb : m_freeblock s = 47 + total L;
  si_free n : 1 + Z.of_nat (length L) <= n < 200 -> di_type (disk_inode (mk_view s) sb0 n) = 0;
  si_sb : m_img s 1 = splice zero_block 0 (sb_bytes sb0);
  si_log b : b <= 0 \/ 2 <= b < 33 -> m_img s b = zero_block }.

Lemma si_file s L k : Sinv s L -> (k < length L)%nat -> file_ok (mk_view s) sb0 (inode_at (mk_view s) (fno k)).
Proof. intros H Hk. apply lookup_lt_is_Some in Hk as [l Hl]. eapply ho_file, si_files; done. Qed.

Lemma ialloc_files s L :
  Sinv s L -> (length L < 199)%nat ->
  wp (ialloc fails (fty (length L))) (fun n s' => n = fno (length L) /\ Sinv s' (L ++ [[]])) s.
Proof.
  intros H Hlt. pose proof (si_n _ _ H) as En.
  eapply wp_conseq; [apply ialloc_spec; [apply H|lia|apply fty_ok]|].
  intros n s' (-> & A). split; [exact En|].
  assert (En' : m_freeinode s = fno (length L)) by exact En.
  assert (Hne : forall k, (k < length L)%nat -> 0 <= fno k < 200 /\ fno k <> m_freeinode s) by (intros k Hk; unfold fno; lia).
  assert (Eat : forall k, (k < length L)%nat -> inode_at (mk_view s') (fno k) = inode_at (mk_view s) (fno k)).
  { intros k Hk. unfold inode_at. by rewrite (al_inodes _ _ _ A) by (by apply Hne). }
  assert (Hown : forall k b, (k < length L)%nat -> owns (mk_view s') (inode_at (mk_view s') (fno k)) b <-> owns (mk_view s) (inode_at (mk_view s) (fno k)) b).
  { intros k b Hk. rewrite Eat by done. apply same_owns, A. by eapply si_file. }
  assert (Elen : length (L ++ [[]]) = S (length L)) by (rewrite length_app; cbn; lia).
  assert (Hemp : forall b, ~ owns (mk_view s') (inode_at (mk_view s') (fno (length L))) b) by (intros b; rewrite <-En'; apply A).
  split.
  - apply A.
  - rewrite Elen. rewrite (al_ino _ _ _ A), En. lia.
  - rewrite Elen. lia.
  - intros k l Hk. destruct (decide (k < length L)%nat) as [Hlk|Hge].
    + rewrite lookup_app_l in Hk by done. eapply holds_same; [by eapply si_files|apply (al_inodes _ _ _ A); by apply Hne|]. apply (al_same _ _ _ A). by eapply si_file.
    + rewrite lookup_app_r in Hk by lia. apply list_lookup_singleton_Some in Hk as [E <-].
      replace k with (length L) by lia. rewrite <-En'. apply A.
  - rewrite Elen. intros k k' Hk Hk' Hkk b Hb Hb'.
    destruct (decide (k = length L)) as [->|]; [by apply (Hemp b)|]. destruct (decide (k' = length L)) as [->|]; [by apply (Hemp b)|].
    pose proof (proj1 (Hown k b ltac:(lia)) Hb). pose proof (proj1 (Hown k' b ltac:(lia)) Hb'). by apply (si_apart _ _ H k k' ltac:(lia) ltac:(lia) Hkk b).
  - intros b Hb. rewrite (al_fb _ _ _ A) in Hb. destruct (si_cover _ _ H b Hb) as (k & Hk & Ho). exists k.
    rewrite Elen. split; [lia|]. by apply (proj2 (Hown k b Hk)).
  - rewrite (al_fb _ _ _ A), (si_fb _ _ H), blocks_app. change (total [[]]) with 0. lia.
  - rewrite Elen. intros n Hn. rewrite (al_inodes _ _ _ A) by (rewrite ?En'; unfold fno; lia). apply (si_free _ _ H). lia.
  - rewrite (al_meta _ _ _ A) by lia. apply H.
  - intros b Hb. rewrite (al_meta _ _ _ A) by lia. by apply (si_log _ _ H).
Qed.

Lemma iappend_files s L k l p :
  Sinv s L -> L !! k = Some l -> bytes_ok p -> Z.of_nat (length (l ++ p)) <= MAXFILE * BSIZE ->
  47 + total (<[k := l ++ p]> L) <= 2000 ->
  wp (iappend fails (fno k) p (Z.of_nat (length p))) (fun _ s' => Sinv s' (<[k := l ++ p]> L)) s.
Proof.
  intros H Hk Hp Hmax Hroom. rewrite (total_insert _ _ l) in Hroom by done. pose proof (lookup_lt_Some _ _ _ Hk) as Hlt.
  pose proof (si_max _ _ H) as Hm. pose proof (si_files _ _ H k l Hk) as Hh.
  eapply wp_conseq; [apply (iappend_spec (fno k) (fty k) l p s); [apply H|unfold fno; lia|apply fty_ok|done|done|done|]|].
  { rewrite (si_fb _ _ H). lia. }
  intros [] s' G.
  assert (Hne : forall k', (k' < length L)%nat -> k' <> k -> 0 <= fno k' < 200 /\ fno k' <> fno k) by (intros; unfold fno; lia).
  assert (Eat : forall k', (k' < length L)%nat -> k' <> k -> inode_at (mk_view s') (fno k') = inode_at (mk_view s) (fno k')).
  { intros k' Hk' Hkk. unfold inode_at. by rewrite (go_inodes _ _ _ _ _ G) by (by apply Hne). }
  assert (Hs : forall k', (k' < length L)%nat -> k' <> k ->
    same_file (mk_view s) (mk_view s') (inode_at (mk_view s) (fno k')) /\ apart (mk_view s') (inode_at (mk_view s') (fno k)) (inode_at (mk_view s) (fno k'))).
  { intros k' Hk' Hkk. apply (go_same _ _ _ _ _ G); [by eapply si_file|]. by apply (si_apart _ _ H). }
  assert (Hown : forall k' b, (k' < length L)%nat -> k' <> k -> owns (mk_view s') (inode_at (mk_view s') (fno k')) b <-> owns (mk_view s) (inode_at (mk_view s) (fno k')) b).
  { intros k' b Hk' Hkk. rewrite Eat by done. apply same_owns. by apply Hs. }
  split.
  - apply G.
  - rewrite length_insert, (go_ino _ _ _ _ _ G). apply H.
  - by rewrite length_insert.
  - intros k' l' Hk'. destruct (decide (k' = k)) as [->|Hkk].
    + rewrite list_lookup_insert_eq in Hk' by done. injection Hk' as <-. apply G.
    + rewrite list_lookup_insert_ne in Hk' by done. pose proof (lookup_lt_Some _ _ _ Hk').
      eapply holds_same; [by eapply si_files|apply (go_inodes _ _ _ _ _ G); by apply Hne|by apply Hs].
  - rewrite length_insert. intros k1 k2 H1 H2 H12. destruct (decide (k1 = k)) as [->|N1]; [|destruct (decide (k2 = k)) as [->|N2]].
    + rewrite (Eat k2) by congruence. apply Hs; congruence.
    + intros b Hb1 Hb2. rewrite (Eat k1) in Hb1 by congruence. by apply (proj2 (Hs k1 H1 N1) b).
    + intros b Hb1 Hb2. pose proof (proj1 (Hown k1 b H1 N1) Hb1). pose proof (proj1 (Hown k2 b H2 N2) Hb2). by apply (si_apart _ _ H k1 k2 H1 H2 H12 b).
  - rewrite length_insert. intros b Hb. destruct (decide (b < m_freeblock s)) as [Hlb|Hge].
    + destruct (si_cover _ _ H b ltac:(lia)) as (k' & Hk' & Ho). exists k'. split; [done|].
      destruct (decide (k' = k)) as [->|]; [apply (go_owns _ _ _ _ _ G); by left|by apply (proj2 (Hown k' b Hk' ltac:(done)))].
    + exists k. split; [done|]. apply (go_owns _ _ _ _ _ G). right. lia.
  - rewrite (total_insert _ _ l) by done. pose proof (go_room _ _ _ _ _ G) as Hr. rewrite (ho_size _ _ _ _ Hh), (si_fb _ _ H) in Hr. lia.
  - rewrite length_insert. intros n Hn. rewrite (go_inodes _ _ _ _ _ G) by (unfold fno; lia). by apply (si_free _ _ H).
  - rewrite (go_meta _ _ _ _ _ G) by lia. apply H.
  - intros b Hb. rewrite (go_meta _ _ _ _ _ G) by lia. by apply (si_log _ _ H).
Qed.

(** ** The files of the command line *)

(** The name of a file in the image, its directory entry and its bytes. *)
Definition fname (f : infile) : list Z := skip_underscore (shortname (in_name f)).
Definition entry (n : Z) (f : infile) : list Z := dirent n (strncpy_list (arr (fname f)) 0 (Z.to_nat DIRSIZ)).
Definition fdata (f : infile) : list Z := concat (default [] (in_data f)).

(** A file that [main] accepts: it can be read, in chunks that are not empty, has a name of at most 14 bytes without slashes, and is no
    longer than the largest file. *)
Record infile_ok (f : infile) : Prop := {
  if_data : exists chunks, in_data f = Some chunks /\ Forall (fun c => c <> [] /\ bytes_ok c) chunks;
  if_slash : existsb (Z.eqb SLASH) (shortname (in_name f)) = false;
  if_len : Z.of_nat (length (fname f)) <= DIRSIZ;
  if_bytes : bytes_ok (in_name f);
  if_max : Z.of_nat (length (fdata f)) <= MAXFILE * BSIZE }.

Lemma strncpy_list_spec t i n : (forall j, is_byte (t j)) -> length (strncpy_list t i n) = n /\ bytes_ok (strncpy_list t i n).
Proof.
  intros Ht. revert i. induction n as [|n IH]; intros i; simpl; [done|]. destruct (t i =? 0).
  - split; [simpl; by rewrite length_replicate|]. constructor; [unfold is_byte; lia|]. apply bytes_ok_replicate. unfold is_byte. lia.
  - destruct (IH (i + 1)) as [E F]. split; [simpl; by rewrite E|by constructor].
Qed.

Lemma arr_byte l j : bytes_ok l -> is_byte (arr l j).
Proof.
  intros Hl. unfold arr, aget. rewrite nth_lookup. destruct (l !! Z.to_nat j) eqn:E; simpl; [|unfold is_byte; lia].
  by eapply Forall_lookup_1 in E.
Qed.

Lemma dirent_spec n name : length name = 14%nat -> bytes_ok name -> length (dirent n name) = 16%nat /\ bytes_ok (dirent n name).
Proof.
  intros Hl Hb. unfold dirent. rewrite length_app, length_le_bytes, Hl. split; [done|]. apply Forall_app. split; [apply le_bytes_ok|done].
Qed.

Lemma entry_spec n f : bytes_ok (in_name f) -> length (entry n f) = 16%nat /\ bytes_ok (entry n f).
Proof.
  intros Hb. assert (Hf : bytes_ok (fname f)).
  { unfold fname, skip_underscore, shortname. destruct (strncmp _ _ _ =? 0), (hd 0 _ =? 95); by repeat apply Forall_drop. }
  destruct (strncpy_list_spec (arr (fname f)) 0 (Z.to_nat DIRSIZ)) as [E F]; [intros; by apply arr_byte|]. by apply dirent_spec.
Qed.

Lemma total_nonneg L : 0 <= total L.
Proof.
  induction L as [|l L IH]; simpl; [done|]. unfold nblk at 1. destruct (12288 <? Z.of_nat (length l)); lia.
Qed.

Lemma nblk_nonneg z : 0 <= z -> 0 <= nblk z.
Proof. intros. unfold nblk. destruct (12288 <? z); lia. Qed.

Lemma copy_file_spec chunks s L k l :
  Sinv s L -> L !! k = Some l -> Forall (fun c => c <> [] /\ bytes_ok c) chunks ->
  Z.of_nat (length (l ++ concat chunks)) <= MAXFILE * BSIZE -> 47 + total (<[k := l ++ concat chunks]> L) <= 2000 ->
  wp (copy_file fails (fno k) chunks) (fun _ s' => Sinv s' (<[k := l ++ concat chunks]> L)) s.
Proof.
  revert s L l. induction chunks as [|c chunks IH]; intros s L l H Hk Hc Hmax Hroom; simpl.
  - wp_steps. rewrite app_nil_r. by rewrite list_insert_id.
  - inversion Hc as [|? ? [Hne Hb] Hc']; subst. simpl in Hmax, Hroom. rewrite !length_app in Hmax.
    rewrite (total_insert _ _ l) in Hroom by done. rewrite !length_app in Hroom.
    assert (Hpos : 0 < Z.of_nat (length c)) by (destruct c; [done|simpl; lia]).
    rewrite (proj2 (Z.ltb_lt _ _)) by done. pose proof (lookup_lt_Some _ _ _ Hk).
    assert (Hins : forall x, <[k := x]> (<[k := l ++ c]> L) = <[k := x]> L) by (intros; by rewrite list_insert_insert, decide_True).
    wp_step. eapply wp_conseq; [apply (iappend_files s L k l c H Hk Hb)|].
    + rewrite length_app. lia.
    + rewrite (total_insert _ _ l) by done. rewrite length_app.
      pose proof (nblk_mono (Z.of_nat (length l + length c)) (Z.of_nat (length l + (length c + length (concat chunks)))) ltac:(lia)). lia.
    + intros [] s1 H1. rewrite app_assoc, <-(Hins ((l ++ c) ++ concat chunks)). apply IH; [done|by apply list_lookup_insert_eq|done| |].
      * rewrite !length_app. lia.
      * rewrite Hins, (total_insert _ _ l) by done. rewrite !length_app.
        replace (length l + length c + length (concat chunks))%nat with (length l + (length c + length (concat chunks)))%nat by lia. lia.
Qed.

Lemma add_file_spec f s root ds :
  Sinv s (root :: ds) -> infile_ok f -> (length ds < 198)%nat -> Z.of_nat (length root) + 16 <= MAXFILE * BSIZE ->
  47 + total ((root ++ entry (fno (S (length ds))) f) :: ds ++ [fdata f]) <= 2000 ->
  wp (add_file fails ROOTINO f) (fun _ s' => Sinv s' ((root ++ entry (fno (S (length ds))) f) :: ds ++ [fdata f])) s.
Proof.
  intros H [(chunks & Ed & Hc) Hsl Hlen Hby Hmx] Hn Hroot Hroom. set (n := fno (S (length ds))) in *.
  destruct (entry_spec n f Hby) as [Ele Hbe]. unfold fdata in Hmx, Hroom |- *. rewrite Ed in *. simpl in Hmx, Hroom |- *.
  rewrite blocks_app in Hroom. simpl in Hroom.
  pose proof (nblk_nonneg (Z.of_nat (length (concat chunks))) ltac:(lia)) as Hnn.
  unfold add_file, assert. rewrite Hsl, Ed. cbn [negb]. wp_step. wp_step.
  change (skip_underscore (shortname (in_name f))) with (fname f). rewrite (proj2 (Z.leb_le _ _) Hlen). wp_step. wp_step. wp_step.
  eapply wp_conseq; [apply (ialloc_files s (root :: ds) H); simpl; lia|].
  intros m s1 (-> & H1). change (fno (length (root :: ds))) with n. rewrite xshort_id by (unfold n, fno; lia).
  change (dirent n (strncpy_list (arr (fname f)) 0 (Z.to_nat DIRSIZ))) with (entry n f).
  wp_step. replace DIRENT_SIZE with (Z.of_nat (length (entry n f))) by (by rewrite Ele).
  eapply wp_conseq; [apply (iappend_files s1 _ 0%nat root (entry n f) H1); try done|].
  { rewrite length_app, Ele. lia. }
  { change (47 + (nblk (Z.of_nat (length (root ++ entry n f))) + total (ds ++ [[]])) <= 2000).
    rewrite blocks_app. change (total [[]]) with 0. lia. }
  intros [] s2 H2. simpl in H2.
  assert (Ek : ((root ++ entry n f) :: ds ++ [[]]) !! S (length ds) = Some []).
  { simpl. rewrite lookup_app_r by lia. by rewrite Nat.sub_diag. }
  assert (Ei : forall x, <[S (length ds) := x]> ((root ++ entry n f) :: ds ++ [[]]) = (root ++ entry n f) :: ds ++ [x]).
  { intros x. simpl. rewrite insert_app_r_alt by lia. by rewrite Nat.sub_diag. }
  pose proof (copy_file_spec chunks s2 _ _ _ H2 Ek Hc) as Hcp. rewrite Ei in Hcp. apply Hcp; [done|].
  simpl. rewrite blocks_app. simpl. lia.
Qed.

Fixpoint entries (n : Z) (fs : list infile) : list (list Z) :=
  match fs with [] => [] | f :: fs' => entry n f :: entries (n + 1) fs' end.

Lemma entries_spec n fs : Forall infile_ok fs -> Forall (fun e => length e = 16%nat) (entries n fs).
Proof. intros Hf. revert n. induction Hf as [|f fs H _ IH]; intros n; simpl; constructor; [|done]. apply entry_spec, H. Qed.

Lemma length_concat16 (es : list (list Z)) : Forall (fun e => length e = 16%nat) es -> length (concat es) = (16 * length es)%nat.
Proof. induction 1 as [|e es He _ IH]; simpl; [done|]. rewrite length_app, He, IH. lia. Qed.

Lemma length_entries n fs : length (entries n fs) = length fs.
Proof. revert n. induction fs as [|f fs IH]; intros n; simpl; [done|]. by rewrite IH. Qed.

Lemma add_files_spec fs s root ds :
  let L' := (root ++ concat (entries (fno (S (length ds))) fs)) :: ds ++ map fdata fs in
  Sinv s (root :: ds) -> Forall infile_ok fs -> (length ds + length fs <= 198)%nat ->
  Z.of_nat (length root) + 16 * Z.of_nat (length fs) <= MAXFILE * BSIZE -> 47 + total L' <= 2000 ->
  wp (add_files fails ROOTINO fs) (fun _ s' => Sinv s' L') s.
Proof.
  revert s root ds. induction fs as [|f fs IH]; intros s root ds L' H Hf Hn Hroot Hroom; simpl.
  - wp_steps. unfold L'. simpl. by rewrite !app_nil_r.
  - inversion Hf as [|? ? Hf1 Hf2]; subst. set (n := fno (S (length ds))) in *. destruct (entry_spec n f (if_bytes _ Hf1)) as [Ele _].
    assert (EL : L' = ((root ++ entry n f) ++ concat (entries (fno (S (length (ds ++ [fdata f])))) fs)) :: (ds ++ [fdata f]) ++ map fdata fs).
    { assert (En : n + 1 = fno (S (length (ds ++ [fdata f])))) by (unfold n, fno; rewrite length_app; cbn [length]; lia).
      unfold L'. cbn [entries concat map]. rewrite En, <-!app_assoc. done. }
    rewrite EL in *. clear L' EL. simpl in Hroot, Hroom, Hn. rewrite blocks_app in Hroom.
    pose proof (total_nonneg (map fdata fs)).
    pose proof (nblk_mono (Z.of_nat (length (root ++ entry n f)))
      (Z.of_nat (length ((root ++ entry n f) ++ concat (entries (fno (S (length (ds ++ [fdata f])))) fs)))) ltac:(rewrite (length_app (root ++ entry n f)); lia)).
    wp_step. eapply wp_conseq; [apply (add_file_spec f s root ds H Hf1); [lia|lia|]|].
    + fold n. simpl. lia.
    + fold n. intros [] s1 HS1. apply IH; [done|done|rewrite length_app; simpl; lia|rewrite length_app, Ele; lia|].
      simpl. rewrite blocks_app. lia.
Qed.

(** ** The whole program *)

Lemma zero_get16 off : get16 zero_block off = 0.
Proof.
  unfold get16, slice, zero_block. rewrite drop_replicate, take_replicate. generalize (Z.to_nat 2 `min` (Z.to_nat BSIZE - Z.to_nat off))%nat.
  intros n. induction n as [|n IH]; simpl; [done|]. by rewrite IH.
Qed.

Lemma wsect_zero i s (Q : unit -> mkfs -> Prop) :
  0 <= i < 2000 -> m_len s = i -> (forall b, m_img s b = zero_block) ->
  (forall c s', m_len s' = i + 1 -> (forall b, m_img s' b = zero_block) -> s' = s <| m_img := m_img s' |> <| m_len := i + 1 |> <| m_calls := c |> -> Q tt s') ->
  wp (wsect fails i zero_block) Q s.
Proof.
  intros Hi Hl Hz HQ. unfold wsect. wp_step. apply (host_spec _ Hhost). intros c1. wp_step. apply (host_spec _ Hhost). intros c2. wp_steps.
  rewrite at_sector_id by done. apply (HQ c2); simpl; [lia| |].
  - intros b. unfold bput. case_decide; [done|apply Hz].
  - unfold upd. simpl. f_equal. lia.
Qed.

Lemma format_spec : wp (format fails) (fun _ s => Sinv s []) mkfs_start.
Proof.
  unfold format, assert. change (BSIZE mod DINODE_SIZE =? 0) with true. change (BSIZE mod DIRENT_SIZE =? 0) with true.
  wp_step. wp_step. wp_step. wp_step. wp_step. apply (host_spec _ Hhost). intros c. wp_step. wp_step.
  set (s0 := mkfs_start <| m_calls := c |> <| m_sb := sb0 |> <| m_freeblock := 2 + nlog + ninodeblocks + nbitmap |>).
  wp_step. apply (wp_each _ (fun j s => m_len s = j /\ (forall b, m_img s b = zero_block) /\ m_sb s = sb0 /\ m_freeblock s = 47 /\ m_freeinode s = 1)).
  { by split_and!. }
  { intros j s' Hj (H1 & H2 & H3 & H4 & H5). change (Z.of_nat (Z.to_nat FSSIZE)) with 2000 in Hj. apply wsect_zero; [lia|done|done|].
    intros c2 s2 E1 E2 ->. by split_and!. }
  change (0 + Z.of_nat (Z.to_nat FSSIZE)) with 2000. intros s (H1 & H2 & H3 & H4 & H5).
  apply (wsect_spec _ Hhost); [done|lia|]. intros c3.
  assert (Hs : Minv s) by (split; [done|done|intros; rewrite H2; apply zero_block_ok|lia|done]).
  set (sp := splice zero_block 0 (sb_bytes sb0)).
  assert (Hsp : block_ok sp).
  { split; [vm_compute; reflexivity|]. apply bytes_ok_splice; [apply zero_block_ok|]. apply addr_bytes_ok. }
  assert (Hmi : Minv (put s 1 sp <| m_calls := c3 |>)) by (apply calls_inv, put_inv; [done|done|lia]).
  split; try done; try (cbn; lia).
  - intros n Hn. assert (Hn' : 0 <= n < 200) by lia. pose proof (iblock_range n Hn'). unfold disk_inode. rewrite view_ne by lia.
    change (m_img (put s 1 sp <| m_calls := c3 |>)) with (bput (m_img s) 1 sp). rewrite bput_ne by lia. rewrite H2.
    change (s16 (get16 zero_block (ioff n)) = 0). by rewrite zero_get16.
  - intros b Hb. change (bput (m_img s) 1 sp b = zero_block). rewrite bput_ne by lia. apply H2.
Qed.

(** What [main] writes back for the root directory. *)
Definition root_size (fs : list infile) : Z := (16 * (2 + Z.of_nat (length fs)) / 1024 + 1) * 1024.

Lemma fix_root_spec s root L :
  Sinv s (root :: L) -> (Z.of_nat (length root) / 1024 + 1) * 1024 <= MAXFILE * BSIZE ->
  wp (fix_root fails ROOTINO) (fun _ s' => wrote_inode s s' 1
    (disk_inode (mk_view s) sb0 1 <| di_size := (Z.of_nat (length root) / 1024 + 1) * 1024 |>)) s.
Proof.
  intros H Hmax. pose proof (si_files _ _ H 0%nat root eq_refl) as Hh. change (fno 0) with 1 in Hh. change (fty 0) with T_DIR in Hh.
  unfold MAXFILE, NINDIRECT, NDIRECT, BSIZE in Hmax. change ((12 + 1024 / 4) * 1024) with 274432 in Hmax.
  unfold fix_root. change ROOTINO with 1. wp_step. apply (rinode_spec _ Hhost); [apply H|lia|]. intros c.
  assert (Esz : di_size (disk_inode (mk_view s) sb0 1) = Z.of_nat (length root)) by apply (ho_size _ _ _ _ Hh).
  rewrite Esz. rewrite (xint_id (Z.of_nat (length root))) by lia. change BSIZE with 1024. rewrite u32_id by lia. rewrite xint_id by lia.
  set (d2 := disk_inode (mk_view s) sb0 1 <| di_size := _ |>).
  eapply wp_conseq; [apply (winode_spec _ Hhost 1 d2); [apply calls_inv, H|lia|]|done].
  rewrite <-(to_ino 1). eapply to_dinode_ok; [apply sb0_layout| |].
  - apply (file_ok_size _ _ (inode_at (mk_view s) 1) ((Z.of_nat (length root) / 1024 + 1) * 1024)); [apply Hh|]. change (MAXFILE * BSIZE) with 274432. lia.
  - destruct (meta_ino _ 1 _ _ ltac:(lia) (fty_ok 0) Hh). by split.
Qed.

End Image.

(** ** The finished image *)

Lemma fbytes_aget V i l off n :
  (forall k, 0 <= k < MAXFILE * BSIZE -> fbyte V i k = aget l k) -> 0 <= off -> off + n <= MAXFILE * BSIZE ->
  fbytes V i off n = map (aget l) (seqZ off n).
Proof. intros Hb Ho Hn. unfold fbytes. apply map_ext_in. intros k Hk. apply list_elem_of_In, elem_of_seqZ in Hk. apply Hb. lia. Qed.

Lemma map_aget l off n : 0 <= off -> off + n <= Z.of_nat (length l) -> map (aget l) (seqZ off n) = slice l off n.
Proof.
  intros Ho Hn. apply list_eq. intros k. rewrite list_lookup_fmap, lookup_slice. case_decide as Hk.
  - assert (E : seqZ off n !! k = Some (off + Z.of_nat k)) by (apply lookup_seqZ; lia). rewrite E. simpl.
    rewrite (lookup_nth l _ 0) by lia. f_equal. unfold aget. f_equal. lia.
  - assert (E : seqZ off n !! k = None) by (apply lookup_seqZ_ge; lia). by rewrite E.
Qed.

Lemma map_aget_out l off n : Z.of_nat (length l) <= off -> map (aget l) (seqZ off n) = replicate (Z.to_nat n) 0.
Proof.
  intros Ho. apply list_eq. intros k. rewrite list_lookup_fmap. destruct (decide (k < Z.to_nat n)%nat) as [Hk|Hk].
  - assert (E : seqZ off n !! k = Some (off + Z.of_nat k)) by (apply lookup_seqZ; lia). rewrite E, lookup_replicate_2 by done. simpl.
    f_equal. unfold aget. apply nth_overflow. lia.
  - assert (E : seqZ off n !! k = None) by (apply lookup_seqZ_ge; lia). rewrite E. symmetry. apply lookup_ge_None. rewrite length_replicate. lia.
Qed.

Lemma slice_concat16 es k e :
  Forall (fun e => length e = 16%nat) es -> es !! k = Some e -> slice (concat es) (16 * Z.of_nat k) 16 = e.
Proof.
  intros Hes. revert k. induction Hes as [|e0 es H0 _ IH]; intros k Hk; [done|]. destruct k as [|k]; simpl in Hk |- *.
  - injection Hk as ->. unfold slice. simpl. rewrite drop_0, take_app_length' by done. done.
  - rewrite <-(IH k Hk). unfold slice. f_equal. replace (Z.to_nat (16 * Z.of_nat (S k))) with (length e0 + Z.to_nat (16 * Z.of_nat k))%nat by lia.
    by rewrite drop_app_add.
Qed.

(** The entries of the root directory. *)
Definition dot : list Z := dirent 1 (strcpy_name [46]).
Definition dotdot : list Z := dirent 1 (strcpy_name [46; 46]).
Definition root_entries (fs : list infile) : list (list Z) := dot :: dotdot :: entries 2 fs.

Lemma entries_lookup n fs k f : fs !! k = Some f -> entries n fs !! k = Some (entry (n + Z.of_nat k) f).
Proof.
  revert n k. induction fs as [|f0 fs IH]; intros n [|k] Hk; simpl in *; try done.
  - injection Hk as ->. by rewrite Z.add_0_r.
  - rewrite (IH _ _ Hk). do 2 f_equal. lia.
Qed.

(** The super block in the bytes of a block, as [readsb] of the kernel takes it. *)
Definition sb_of (d : block) : superblock :=
  Superblock (get32 d 0) (get32 d 4) (get32 d 8) (get32 d 12) (get32 d 16) (get32 d 20) (get32 d 24) (get32 d 28).

(** A file of the image. *)
Record image_file (V : Z -> block) (n : Z) (l : list Z) : Prop := {
  if_ok : file_ok V sb0 (inode_at V n);
  if_mapped : mapped V (inode_at V n);
  if_type : i_type (inode_at V n) = T_FILE /\ i_nlink (inode_at V n) = 1;
  if_size : i_size (inode_at V n) = Z.of_nat (length l);
  if_contents : fbytes V (inode_at V n) 0 (Z.of_nat (length l)) = l }.

(** The root directory of the image. *)
Record image_root (V : Z -> block) (fs : list infile) : Prop := {
  ir_ok : file_ok V sb0 (inode_at V 1);
  ir_type : i_type (inode_at V 1) = T_DIR /\ i_nlink (inode_at V 1) = 1;
  ir_size : i_size (inode_at V 1) = root_size fs;
  ir_mapped : 16 * (2 + Z.of_nat (length fs)) mod 1024 <> 0 -> mapped V (inode_at V 1);
  ir_dot : dent V (inode_at V 1) 0 = dot /\ dent V (inode_at V 1) 1 = dotdot;
  ir_entry k f : fs !! k = Some f -> dent V (inode_at V 1) (2 + Z.of_nat k) = entry (2 + Z.of_nat k) f;
  ir_rest k : 2 + Z.of_nat (length fs) <= k < nents (inode_at V 1) -> dent V (inode_at V 1) k = replicate 16 0 }.

Record image (V : Z -> block) (fs : list infile) : Prop := {
  im_sb : sb_of (V 1) = sb0;
  im_log b : sb_logstart sb0 <= b < sb_logstart sb0 + sb_nlog sb0 -> V b = zero_block;
  im_root : image_root V fs;
  im_file k f : fs !! k = Some f -> image_file V (2 + Z.of_nat k) (fdata f);
  im_apart k k' : (k <= length fs)%nat -> (k' <= length fs)%nat -> k <> k' -> apart V (inode_at V (fno k)) (inode_at V (fno k'));
  im_bitmap b : 0 <= b < FSSIZE ->
    in_use V sb0 b = true <-> b < 47 \/ exists k, (k <= length fs)%nat /\ owns V (inode_at V (fno k)) b;
  im_free n : 2 + Z.of_nat (length fs) <= n < NINODES -> di_type (disk_inode V sb0 n) = 0 }.

Section Finish.
Context (fs : list infile) (s : mkfs) (V : Z -> block).
Let root : list Z := concat (root_entries fs).
Let d2 : dinode := disk_inode (mk_view s) sb0 1 <| di_size := root_size fs |>.
Context (Hfs : Forall infile_ok fs) (Hn : (length fs <= 198)%nat) (H : Sinv s (root :: map fdata fs)).
Context (EV : forall b, V b = iupdate_view (mk_view s) sb0 (ino 1 d2) b).

Lemma root_entries16 : Forall (fun e => length e = 16%nat) (root_entries fs).
Proof. constructor; [done|]. constructor; [done|]. by apply entries_spec. Qed.

Lemma length_root : Z.of_nat (length root) = 16 * (2 + Z.of_nat (length fs)).
Proof. unfold root. rewrite length_concat16 by apply root_entries16. simpl. rewrite length_entries. lia. Qed.

Lemma root_size_max : 0 <= root_size fs <= MAXFILE * BSIZE.
Proof. change (MAXFILE * BSIZE) with 274432. unfold root_size. lia. Qed.

Lemma root_holds : has_file (mk_view s) 1 T_DIR root.
Proof. exact (si_files _ _ H 0%nat root eq_refl). Qed.

Lemma root_file_ok : file_ok (mk_view s) sb0 (ino 1 d2).
Proof. apply (file_ok_size _ _ (inode_at (mk_view s) 1) (root_size fs)); [apply root_holds|apply root_size_max]. Qed.

Lemma root_dinode_ok : dinode_ok d2.
Proof.
  rewrite <-(to_ino 1). eapply to_dinode_ok; [apply sb0_layout|apply root_file_ok|].
  destruct (meta_ino _ 1 _ _ ltac:(lia) (fty_ok 0) root_holds). by split.
Qed.

Lemma root_at : inode_at V 1 = ino 1 d2.
Proof.
  unfold inode_at. rewrite (winode_self _ _ _ _ EV); [done|intros; apply view_block_ok, H|apply root_dinode_ok].
Qed.

Lemma final_same j : file_ok (mk_view s) sb0 j -> same_file (mk_view s) V j.
Proof. intros Hj. eapply winode_same; [exact EV|lia|apply view_meta, H|done]. Qed.

Lemma final_inode n : 0 <= n < 200 -> n <> 1 -> disk_inode V sb0 n = disk_inode (mk_view s) sb0 n.
Proof. intros. eapply winode_other; [exact EV|intros; apply view_block_ok, H|apply root_dinode_ok|lia|lia|done]. Qed.

Lemma final_owns k b : (k <= length fs)%nat -> owns V (inode_at V (fno k)) b <-> owns (mk_view s) (inode_at (mk_view s) (fno k)) b.
Proof.
  intros Hk. assert (HL : (k < length (root :: map fdata fs))%nat) by (cbn [length]; rewrite length_map; lia).
  destruct k as [|k].
  - change (fno 0) with 1. rewrite root_at. rewrite (same_owns _ _ _ b (final_same _ root_file_ok)). done.
  - assert (E : inode_at V (fno (S k)) = inode_at (mk_view s) (fno (S k))) by (unfold inode_at; rewrite final_inode by (unfold fno; lia); done).
    rewrite E. apply same_owns, final_same. by eapply si_file.
Qed.

Lemma final_meta b : b < 33 -> V b = m_img s b.
Proof.
  intros Hb. pose proof (iblock_range 1 ltac:(lia)). rewrite EV. unfold iupdate_view. change (i_inum (ino 1 d2)) with 1.
  rewrite bput_ne by lia. apply view_ne. lia.
Qed.

Lemma final_dent k : 0 <= k -> 16 * k + 16 <= MAXFILE * BSIZE -> dent V (inode_at V 1) k = map (aget root) (seqZ (16 * k) 16).
Proof.
  intros Hk Hmax. unfold dent. change DIRENT_SIZE with 16. apply fbytes_aget; [|lia|done].
  intros j Hj. rewrite root_at. destruct (final_same _ root_file_ok) as (_ & Eb & _). rewrite Eb by done.
  change (fbyte (mk_view s) (ino 1 d2) j) with (fbyte (mk_view s) (inode_at (mk_view s) 1) j). by apply (ho_bytes _ _ _ _ root_holds).
Qed.

Lemma final_dent_in k e : root_entries fs !! k = Some e -> dent V (inode_at V 1) (Z.of_nat k) = e.
Proof.
  intros Hk. pose proof (lookup_lt_Some _ _ _ Hk) as Hlt. cbn [root_entries length] in Hlt. rewrite length_entries in Hlt.
  pose proof length_root. rewrite final_dent by (change (MAXFILE * BSIZE) with 274432; lia). rewrite map_aget by lia.
  apply slice_concat16; [apply root_entries16|done].
Qed.

Lemma final_root : image_root V fs.
Proof.
  pose proof length_root as Hlr. pose proof root_holds as Hh. split.
  - rewrite root_at. apply final_same, root_file_ok.
  - rewrite root_at. pose proof (ho_meta _ _ _ _ Hh) as E.
    change (di_type (disk_inode (mk_view s) sb0 1) = T_DIR /\ di_nlink (disk_inode (mk_view s) sb0 1) = 1). by rewrite E.
  - by rewrite root_at.
  - rewrite root_at. intros Hm k Hk. change (0 <= k < root_size fs) in Hk. destruct (final_same _ root_file_ok) as (Eb & _). rewrite Eb.
    change (blk (mk_view s) (inode_at (mk_view s) 1) (k / BSIZE) <> 0). apply (ho_dense _ _ _ _ Hh); unfold root_size in Hk;
      [change MAXFILE with 268|]; unfold BSIZE; lia.
  - split; [exact (final_dent_in 0%nat dot eq_refl)|exact (final_dent_in 1%nat dotdot eq_refl)].
  - intros k f Hk. replace (2 + Z.of_nat k) with (Z.of_nat (S (S k))) by lia. apply final_dent_in.
    simpl. rewrite (entries_lookup 2 fs k f Hk). do 2 f_equal. lia.
  - intros k Hk. unfold nents in Hk. rewrite root_at in Hk. change (i_size (ino 1 d2)) with (root_size fs) in Hk.
    rewrite final_dent; [|lia|].
    + apply map_aget_out. lia.
    + change (MAXFILE * BSIZE) with 274432. unfold root_size, DIRENT_SIZE in Hk. lia.
Qed.

Lemma final_file k f : fs !! k = Some f -> image_file V (2 + Z.of_nat k) (fdata f).
Proof.
  intros Hk. pose proof (lookup_lt_Some _ _ _ Hk). replace (2 + Z.of_nat k) with (fno (S k)) by (unfold fno; lia). set (n := fno (S k)).
  assert (Hh : has_file (mk_view s) n T_FILE (fdata f)).
  { apply (si_files _ _ H (S k)). simpl. by rewrite list_lookup_fmap, Hk. }
  assert (Hh' : has_file V n T_FILE (fdata f)).
  { eapply holds_same; [done|apply final_inode; unfold n, fno; lia|]. apply final_same, Hh. }
  pose proof (ho_size _ _ _ _ Hh') as Hsz. pose proof (fo_size _ _ _ (ho_file _ _ _ _ Hh')) as Hmx. rewrite Hsz in Hmx.
  split; [apply Hh'| |by unfold inode_at; rewrite (ho_meta _ _ _ _ Hh')|done|].
  - intros j Hj. rewrite Hsz in Hj. change (MAXFILE * BSIZE) with 274432 in Hmx.
    apply (ho_dense _ _ _ _ Hh'); [change MAXFILE with 268|]; unfold BSIZE; lia.
  - rewrite (fbytes_aget _ _ (fdata f)); [|apply Hh'|lia|lia]. rewrite map_aget by lia. unfold slice. rewrite Nat2Z.id. simpl.
    rewrite drop_0. by apply take_ge.
Qed.

Lemma final_image : image V fs.
Proof.
  assert (EL : length (root :: map fdata fs) = S (length fs)) by (simpl; by rewrite length_map). pose proof (mi_range _ (si_inv _ _ H)) as Hr.
  split.
  - rewrite final_meta, (si_sb _ _ H) by lia. vm_compute. reflexivity.
  - change (sb_logstart sb0) with 2. change (sb_nlog sb0) with 31. intros b Hb. by rewrite final_meta, (si_log _ _ H) by lia.
  - apply final_root.
  - apply final_file.
  - intros k k' Hk Hk' Hne b Hb Hb'. apply (proj1 (final_owns k b Hk)) in Hb. apply (proj1 (final_owns k' b Hk')) in Hb'.
    by apply (si_apart _ _ H k k' ltac:(lia) ltac:(lia) Hne b).
  - intros b Hb. unfold FSSIZE in Hb. pose proof (iblock_range 1 ltac:(lia)).
    assert (Eu : in_use V sb0 b = (b <? m_freeblock s)).
    { rewrite <-in_use_view by (apply H || done). apply in_use_ext. rewrite BBLOCK_sb0 by done. rewrite EV. unfold iupdate_view.
      change (i_inum (ino 1 d2)) with 1. by rewrite bput_ne by lia. }
    rewrite Eu, Z.ltb_lt. split.
    + intros Hlt. destruct (decide (b < 47)); [by left|right]. destruct (si_cover _ _ H b ltac:(lia)) as (k & Hk & Ho). exists k.
      split; [lia|]. apply (proj2 (final_owns k b ltac:(lia)) Ho).
    + intros [?|(k & Hk & Ho)]; [lia|]. apply (proj1 (final_owns k b Hk)) in Ho.
      destruct (owns_used _ _ _ _ (si_file _ _ k H ltac:(lia)) Ho) as [_ Hu]. rewrite in_use_view in Hu by (apply H || done). by apply Z.ltb_lt.
  - intros n Hn'. unfold NINODES in Hn'. rewrite final_inode by lia. apply (si_free _ _ H). lia.
Qed.
End Finish.

Lemma main_spec fails name fs :
  (forall n, fails n = false) -> Forall infile_ok fs -> (length fs <= 198)%nat ->
  47 + nblk (16 * (2 + Z.of_nat (length fs))) + total (map fdata fs) <= FSSIZE ->
  wp (main fails (Some name) fs) (fun _ s => m_len s = FSSIZE /\ (forall V, (forall b, V b = m_img s b) -> image V fs) /\
    forall b, block_ok (m_img s b) /\ (b < 0 \/ FSSIZE <= b -> m_img s b = zero_block)) mkfs_start.
Proof.
  intros Hhost Hfs Hn Hroom. unfold FSSIZE in Hroom. pose proof (length_root fs Hfs Hn) as Hlr. pose proof (total_nonneg (map fdata fs)) as Htn.
  pose proof (nblk_mono 32 (16 * (2 + Z.of_nat (length fs))) ltac:(lia)) as Hnm. change (nblk 32) with 1 in Hnm.
  assert (Hmax : MAXFILE * BSIZE = 274432) by done.
  unfold main, assert. wp_step. wp_step. wp_step. eapply wp_conseq; [apply (format_spec _ Hhost)|]. intros [] s1 H1.
  wp_step. change T_DIR with (fty (length (@nil (list Z)))). eapply wp_conseq; [apply (ialloc_files _ Hhost _ _ H1); simpl; lia|].
  intros n s2 (-> & H2). change (fno (length [])) with 1 in *. change (1 =? ROOTINO) with true. wp_step. wp_step. wp_step.
  change (xshort 1) with 1. change (dirent 1 (strcpy_name [46])) with dot. change (dirent 1 (strcpy_name [46; 46])) with dotdot.
  assert (Hb : bytes_ok dot /\ bytes_ok dotdot) by (split; apply dirent_spec; try done; repeat constructor; unfold is_byte; lia).
  eapply wp_conseq; [apply (iappend_files _ Hhost _ _ 0%nat [] dot H2 eq_refl); [apply Hb|done|vm_compute; congruence]|].
  intros [] s3 H3. wp_step.
  eapply wp_conseq; [apply (iappend_files _ Hhost _ _ 0%nat dot dotdot H3 eq_refl); [apply Hb|done|vm_compute; congruence]|].
  intros [] s4 H4. change (Sinv s4 [dot ++ dotdot]) in H4. wp_step.
  assert (EL : (dot ++ dotdot) ++ concat (entries (fno (S (length (@nil (list Z))))) fs) = concat (root_entries fs)) by done.
  pose proof (add_files_spec _ Hhost fs s4 (dot ++ dotdot) [] H4 Hfs) as Hadd. cbv zeta in Hadd. rewrite EL in Hadd.
  eapply wp_conseq; [apply Hadd; [simpl; lia|change (length (dot ++ dotdot)) with 32%nat; lia|]|].
  { change (47 + (nblk (Z.of_nat (length (concat (root_entries fs)))) + total (map fdata fs)) <= 2000). rewrite Hlr. lia. }
  intros [] s5 H5. change (Sinv s5 (concat (root_entries fs) :: map fdata fs)) in H5. wp_step.
  eapply wp_conseq; [apply (fix_root_spec _ Hhost _ _ _ H5); rewrite Hlr; lia|]. rewrite Hlr. fold (root_size fs).
  intros [] s6 (H6 & EV & E33 & _ & Efb). wp_step. wp_step. unfold balloc, assert.
  pose proof (mi_range _ H6). rewrite (proj2 (Z.ltb_lt _ _)) by (unfold BPB, BSIZE; lia). wp_step. wp_step. wp_step. wp_step.
  rewrite (mi_sb _ H6). change (sb_bmapstart sb0) with 46. apply (wsect_spec _ Hhost); [apply H6|lia|]. intros c.
  assert (Efin : forall b, m_img (put s6 46 (balloc_loop zero_block 0 (Z.to_nat (m_freeblock s6))) <| m_calls := c |>) b = mk_view s6 b) by done.
  split_and!; [apply H6|intros V HV; eapply (final_image fs s5); [done..|intros b; by rewrite HV, Efin]|]. intros b. rewrite Efin. split; [by apply view_block_ok|].
  intros Hout. unfold FSSIZE in Hout. rewrite view_ne by lia. destruct Hout; [|apply (mi_fresh _ H6); lia].
  rewrite E33 by lia. apply (si_log _ _ H5). lia.
Qed.


(** C14. [main] of mkfs builds a file system.  If the host does not fail, the files on the command line can be read, have names of at most 14
    bytes without slashes and fit the image with its 199 usable inodes and 2000 blocks, the program ends normally and the image is a file system
    that the kernel accepts and in which nothing is lost: the super block read back is the one of the layout, the log is empty, the root directory
    lists [.], [..] and every file with its inode number, followed by free entries up to its size, every file has its size and exactly its bytes,
    no two files share a block, the bitmap marks the meta-data and the blocks of the files and no others, and the inodes not used are free. *)
Theorem mkfs_correct fails name fs :
  (forall n, fails n = false) -> Forall infile_ok fs -> (length fs <= 198)%nat ->
  47 + nblk (16 * (2 + Z.of_nat (length fs))) + total (map fdata fs) <= FSSIZE ->
  wp (main fails (Some name) fs) (fun _ s => m_len s = FSSIZE /\ image (m_img s) fs) mkfs_start.
Proof. intros. eapply wp_conseq; [by apply main_spec|]. intros [] s (Hl & Hi & _). split; [done|by apply Hi]. Qed.

Lemma mkfs_correct_witness :
  wp (main (fun _ => false) (Some [102]) [Infile [117; 115; 101; 114; 47; 95; 108; 115] (Some [replicate 1024 7; [1; 2; 3]]); Infile [114] (Some [])])
    (fun _ s => m_len s = FSSIZE /\
      image (m_img s) [Infile [117; 115; 101; 114; 47; 95; 108; 115] (Some [replicate 1024 7; [1; 2; 3]]); Infile [114] (Some [])]) mkfs_start.
Proof.
  apply mkfs_correct.
  - done.
  - assert (Hb : forall n b, 0 <= b < 256 -> bytes_ok (replicate n b)) by (intros; by apply bytes_ok_replicate).
    constructor; [|constructor; [|constructor]]; split; try done; try (vm_compute; congruence).
    + eexists. split; [done|]. constructor; [split; [done|apply Hb; lia]|]. constructor; [split; [done|]|constructor].
      repeat constructor; unfold is_byte; lia.
    + repeat constructor; unfold is_byte; lia.
    + eexists. split; [done|constructor].
    + repeat constructor; unfold is_byte; lia.
  - simpl. lia.
  - vm_compute. congruence.
Defined.

(** Inode 208 lies in the bitmap block. *)
Lemma inode_208_lost : IBLOCK 208 sb0 = sb_bmapstart sb0.
Proof. vm_compute. reflexivity. Qed.

(** With 62 files the root directory fills its block, and its size covers another one. *)
Lemma root_size_hole fs : length fs = 62%nat -> 16 * (2 + Z.of_nat (length fs)) = BSIZE /\ root_size fs = 2 * BSIZE.
Proof. intros E. unfold root_size. rewrite E. done. Qed.
