(* ===== verification/FsBoot.v ===== *)
(** From mkfs to the running kernel: kernel/fs.c started on the image that mkfs/mkfs.c has built, and files looked up and read there.

    The pieces are the theorems about the image, the recovery of the log, the inode table, directories and file contents; this file puts them together. *)

From S2P Require Import Prelude Bytes Ring Params Disk Sleeplock CString Bio LogTx Log LogSpec Tx LogCrash.
From S2P Require Import Fs FsBlocks FsInode FsFile FsDir FsName Mkfs MkfsSpec MkfsImage.

(** ** Names *)

(** A name as a directory entry stores it. *)
Definition pad (e : list Z) : list Z := e ++ replicate (14 - length e) 0.

(** A name that fits an entry. *)
Definition name_ok (e : list Z) : Prop := (length e <= 14)%nat /\ Forall (fun c => c <> 0) e.

Lemma arr_pad e k : 0 <= k -> arr (pad e) k = arr e k.
Proof.
  intros Hk. unfold arr, aget, pad. destruct (decide (Z.to_nat k < length e)%nat); [by rewrite app_nth1|].
  rewrite app_nth2, (nth_overflow e) by lia. rewrite nth_lookup. destruct (_ !! _) eqn:E; [|done]. by apply lookup_replicate in E as [-> _].
Qed.

Lemma name_of_pad e : (length e <= 14)%nat -> name_of e (replicate (Z.to_nat DIRSIZ) 0) = pad e.
Proof.
  intros Hl. unfold name_of, pad. change (Z.to_nat DIRSIZ) with 14%nat. case_decide.
  - f_equal. rewrite drop_replicate. change ([0] ++ ?l) with (0 :: l). replace (14 - length e)%nat with (S (14 - S (length e)))%nat by lia. done.
  - rewrite take_ge by lia. replace (14 - length e)%nat with O by lia. by rewrite app_nil_r.
Qed.

Lemma strncpy_from t e n :
  (length e <= n)%nat -> Forall (fun c => c <> 0) e -> forall i, (forall k, 0 <= k -> t (i + k) = arr e k) ->
  strncpy_list t i n = e ++ replicate (n - length e) 0.
Proof.
  revert e. induction n as [|n IH]; intros e Hl He i Ht; [by destruct e; [|simpl in Hl; lia]|].
  cbn [strncpy_list]. pose proof (Ht 0 ltac:(lia)) as H0. rewrite Z.add_0_r in H0. rewrite H0. destruct He as [|c e Hc He].
  - done.
  - change (arr (c :: e) 0) with c. rewrite (proj2 (Z.eqb_neq c 0)) by done. simpl. f_equal. apply IH; [simpl in Hl; lia|done|].
    intros k Hk. replace (i + 1 + k) with (i + (k + 1)) by lia. rewrite Ht by lia. unfold arr, aget. by replace (Z.to_nat (k + 1)) with (S (Z.to_nat k)) by lia.
Qed.

Lemma strncpy_pad e : name_ok e -> strncpy_list (arr e) 0 (Z.to_nat DIRSIZ) = pad e.
Proof. intros [Hl He]. by apply strncpy_from. Qed.

Lemma nth_nz (e : list Z) k : Forall (fun c => c <> 0) e -> (k < length e)%nat -> nth k e 0 <> 0.
Proof. intros He Hk. apply (Forall_lookup_1 _ _ _ _ He (lookup_nth e k 0 Hk)). Qed.

Lemma agree_names a b : name_ok a -> name_ok b -> agree (arr (pad a)) (arr (pad b)) 14 -> a = b.
Proof.
  intros [La Ha] [Lb Hb] Hag.
  assert (E : forall k, (k <= length a)%nat -> (k < 14)%nat -> nth k a 0 = nth k b 0).
  { intros k Hk Hk'. specialize (Hag (Z.of_nat k) ltac:(lia)). rewrite !arr_pad in Hag by lia. unfold arr, aget in Hag. rewrite Nat2Z.id in Hag.
    apply Hag. intros j Hj. pose proof (arr_pad a j ltac:(lia)) as Ej. unfold arr, aget in *. rewrite Ej. apply nth_nz; [done|lia]. }
  assert (Elen : length a = length b).
  { destruct (decide (length a < length b)%nat) as [Hlt|Hge].
    - pose proof (E (length a) ltac:(lia) ltac:(lia)) as E0. rewrite (nth_overflow a) in E0 by lia. by destruct (nth_nz b (length a) Hb Hlt).
    - destruct (decide (length b < length a)%nat) as [Hlt|]; [|lia].
      pose proof (E (length b) ltac:(lia) ltac:(lia)) as E0. rewrite (nth_overflow b) in E0 by lia. by destruct (nth_nz a (length b) Ha Hlt). }
  apply (nth_ext _ _ 0 0); [done|]. intros k Hk. apply E; lia.
Qed.

Lemma namecmp_pad a b : name_ok a -> name_ok b -> namecmp (pad a) (pad b) = 0 <-> a = b.
Proof.
  intros Ha Hb. unfold namecmp. rewrite strncmp_agree by done. change DIRSIZ with 14. split; [by apply agree_names|]. intros ->. by intros k.
Qed.

Lemma dirent_parts n e : 0 <= n < 2 ^ 16 -> (length e <= 14)%nat -> de_inum (dirent n (pad e)) = n /\ de_name (dirent n (pad e)) = pad e.
Proof.
  intros Hn Hl. unfold de_inum, de_name, get16, dirent, slice. split.
  - change (Z.to_nat 2) with 2%nat. change (Z.to_nat 0) with 0%nat. rewrite drop_0, take_app_length' by (by rewrite length_le_bytes).
    rewrite le_val_bytes. apply Z.mod_small. done.
  - change (Z.to_nat 2) with 2%nat. rewrite drop_app_length' by (by rewrite length_le_bytes). apply take_ge. unfold pad, DIRSIZ.
    rewrite length_app, length_replicate. lia.
Qed.

Lemma matches_dirent a n e : 0 < n < 2 ^ 16 -> name_ok a -> name_ok e -> matches (pad a) (dirent n (pad e)) = bool_decide (a = e).
Proof.
  intros Hn Ha He. unfold matches. destruct (dirent_parts n e) as [-> ->]; [lia|apply He|]. rewrite (proj2 (Z.eqb_neq n 0)) by lia. simpl.
  case_bool_decide as E; [apply Z.eqb_eq|apply Z.eqb_neq]; by rewrite namecmp_pad.
Qed.

Lemma matches_free a : matches a (replicate 16 0) = false.
Proof. done. Qed.

(** ** The files of the image *)

(** The file with name [e]: the first one on the command line. *)
Definition find_file (e : list Z) (fs : list infile) : option infile := find (fun f => bool_decide (fname f = e)) fs.

Lemma find_file_first e fs k f :
  fs !! k = Some f -> fname f = e -> (forall j g, (j < k)%nat -> fs !! j = Some g -> fname g <> e) -> find_file e fs = Some f.
Proof.
  unfold find_file. revert k. induction fs as [|g fs IH]; intros k Hk He Hlow; [done|]. simpl. case_bool_decide as Eg.
  - destruct k as [|k]; [done|]. by destruct (Hlow 0%nat g ltac:(lia) eq_refl).
  - destruct k as [|k]; [simpl in Hk; congruence|]. apply (IH k); [done..|]. intros j g' Hj. apply (Hlow (S j) g'). lia.
Qed.

Lemma find_file_none e fs : (forall k f, fs !! k = Some f -> fname f <> e) -> find_file e fs = None.
Proof.
  unfold find_file. induction fs as [|g fs IH]; intros Hall; [done|]. simpl. rewrite bool_decide_false by (by apply (Hall 0%nat g)).
  apply IH. intros k. apply (Hall (S k)).
Qed.

(** The names of the files have no NUL, and [e] is a name that the kernel can ask for. *)
Record names_ok (e : list Z) (fs : list infile) : Prop := {
  nm_files : Forall (fun f => name_ok (fname f)) fs;
  nm_elem : (length e <= 14)%nat /\ Forall (fun c => c <> 0 /\ c <> SLASH) e;
  nm_proper : e <> [] /\ e <> [46] /\ e <> [46; 46] }.

Section Dir.
Context (V : Z -> block) (fs : list infile) (e : list Z) (root : inode).
Context (HI : image V fs) (Hn : (length fs <= 198)%nat) (Hnames : names_ok e fs).
Context (Esz : i_size root = i_size (inode_at V 1)) (Eaddr : i_addrs root = i_addrs (inode_at V 1)).

Lemma root_nents : nents root = root_size fs / 16 /\ 2 + Z.of_nat (length fs) <= nents root.
Proof.
  unfold nents. rewrite Esz, (ir_size _ _ (im_root _ _ HI)). change DIRENT_SIZE with 16. split; [done|]. unfold root_size. lia.
Qed.

Lemma root_dent k : dent V root k = dent V (inode_at V 1) k.
Proof. by apply fbytes_shape. Qed.

Lemma elem_ok : name_ok e.
Proof. destruct (nm_elem _ _ Hnames) as [H1 H2]. split; [done|]. eapply Forall_impl; [exact H2|by intros ? []]. Qed.

Lemma match_file k f : fs !! k = Some f -> matches (pad e) (dent V root (2 + Z.of_nat k)) = bool_decide (e = fname f).
Proof.
  intros Hk. pose proof (lookup_lt_Some _ _ _ Hk). rewrite root_dent, (ir_entry _ _ (im_root _ _ HI) k f Hk).
  pose proof (Forall_lookup_1 _ _ _ _ (nm_files _ _ Hnames) Hk) as Hf. unfold entry. rewrite strncpy_pad by done.
  apply matches_dirent; [lia|apply elem_ok|done].
Qed.

Lemma match_dots k : k = 0 \/ k = 1 -> matches (pad e) (dent V root k) = false.
Proof.
  intros Hk. destruct (ir_dot _ _ (im_root _ _ HI)) as [E0 E1], (nm_proper _ _ Hnames) as (_ & N1 & N2).
  rewrite root_dent. destruct Hk as [-> | ->]; rewrite ?E0, ?E1.
  - change dot with (dirent 1 (pad [46])). rewrite matches_dirent; [|lia|apply elem_ok|split; [simpl; lia|repeat constructor; lia]].
    by apply bool_decide_eq_false_2.
  - change dotdot with (dirent 1 (pad [46; 46])). rewrite matches_dirent; [|lia|apply elem_ok|split; [simpl; lia|repeat constructor; lia]].
    by apply bool_decide_eq_false_2.
Qed.

(** A match is the entry of a file. *)
Lemma match_inv k : 0 <= k < nents root -> matches (pad e) (dent V root k) = true ->
  exists j f, k = 2 + Z.of_nat j /\ fs !! j = Some f /\ fname f = e /\ de_inum (dent V root k) = k.
Proof.
  intros Hk Hm. destruct (decide (k < 2)); [rewrite match_dots in Hm by lia; done|].
  destruct (decide (k < 2 + Z.of_nat (length fs))) as [Hlt|Hge].
  - set (j := Z.to_nat (k - 2)). assert (Ek : k = 2 + Z.of_nat j) by lia.
    destruct (lookup_lt_is_Some_2 fs j ltac:(lia)) as [f Hf]. exists j, f. rewrite Ek in Hm |- *. rewrite (match_file j f Hf) in Hm.
    apply bool_decide_eq_true in Hm. split_and!; try done.
    rewrite root_dent, (ir_entry _ _ (im_root _ _ HI) j f Hf). pose proof (Forall_lookup_1 _ _ _ _ (nm_files _ _ Hnames) Hf) as Hok.
    unfold entry. rewrite strncpy_pad by done. apply dirent_parts; [lia|apply Hok].
  - exfalso. rewrite root_dent, (ir_rest _ _ (im_root _ _ HI)) in Hm; [done|]. unfold nents in *. rewrite <-Esz. lia.
Qed.

(** The first match is the file of that name; without a match there is none. *)
Lemma match_first k j f : k = 2 + Z.of_nat j -> fs !! j = Some f -> fname f = e ->
  (forall i, 0 <= i < k -> matches (pad e) (dent V root i) = false) -> find_file e fs = Some f.
Proof.
  intros -> Hf He Hlow. apply (find_file_first e fs j f Hf He). intros i g Hi Hg Eg.
  specialize (Hlow (2 + Z.of_nat i) ltac:(lia)). rewrite (match_file i g Hg), bool_decide_true in Hlow by done. done.
Qed.

Lemma match_none : (forall i, 0 <= i < nents root -> matches (pad e) (dent V root i) = false) -> find_file e fs = None.
Proof.
  intros Hall. apply find_file_none. intros i g Hg Eg. pose proof (lookup_lt_Some _ _ _ Hg). destruct root_nents as [_ Hr].
  specialize (Hall (2 + Z.of_nat i) ltac:(lia)). rewrite (match_file i g Hg), bool_decide_true in Hall by done. done.
Qed.
End Dir.

(** ** Reading a file of the image *)

Section Read.
Context {X U : Type} `{TS : TxSpec X} `{UM : UserMem U}.
Implicit Types t : X.

(** What [open] and [read] of a file come to in kernel/fs.c: a system call that looks the path up, locks the inode, reads and lets go of it. *)
Definition read_file (path : list Z) (n : Z) : M (fsys X U) (option (list Z)) :=
  lifttx tx_begin_op ;;;
  let* r := namei 0%nat path in
  match r with
  | None => lifttx tx_end_op ;;; ret None
  | Some ip =>
      ilock (Some ip) ;;;
      let* ' (_, bytes) := readi ip DKernel 0 n in
      iunlockput ip ;;;
      lifttx tx_end_op ;;;
      ret (Some bytes)
  end.

Lemma image_meta V fs : image V fs -> meta_used V sb0.
Proof.
  intros HI b Hb Hu. rewrite sb0_size in Hb. apply data_sb0. split; [|lia]. destruct (decide (b < 47)) as [Hlt|]; [|lia].
  assert (Ht : in_use V sb0 b = true) by (apply (im_bitmap _ _ HI b Hb); by left). congruence.
Qed.

Lemma fbytes_take V i l n : fbytes V i 0 (Z.of_nat (length l)) = l -> 0 <= n -> fbytes V i 0 (Z.min n (Z.of_nat (length l) - 0)) = take (Z.to_nat n) l.
Proof.
  intros E Hn. remember (Z.min n (Z.of_nat (length l) - 0)) as m eqn:Em.
  assert (El : fbytes V i 0 m ++ fbytes V i (0 + m) (Z.of_nat (length l) - m) = l) by (rewrite <-fbytes_app, Zplus_minus by lia; done).
  rewrite <-El at 1. destruct (decide (n <= Z.of_nat (length l))).
  - replace n with m by lia. by rewrite take_app_length' by (by rewrite length_fbytes).
  - replace (Z.of_nat (length l) - m) with 0 by lia. change (fbytes V i (0 + m) 0) with (@nil Z). rewrite app_nil_r, take_ge; [done|].
    rewrite length_fbytes. lia.
Qed.

Lemma root_in_dir t fs :
  image (tx_view t) fs -> 16 * (2 + Z.of_nat (length fs)) mod 1024 <> 0 -> dir_ok (tx_view t) sb0 (root_in t sb0) /\ i_nlink (root_in t sb0) = 1.
Proof.
  intros HI Hm. pose proof (im_root _ _ HI) as HR. destruct (ir_type _ _ HR) as [Ht Hl]. split; [|exact Hl]. split.
  - apply (file_ok_shape _ _ (inode_at (tx_view t) 1)); try done. apply HR.
  - apply (mapped_shape _ (inode_at (tx_view t) 1)); try done. by apply HR.
  - exact Ht.
  - change (i_size (root_in t sb0)) with (i_size (inode_at (tx_view t) 1)). rewrite (ir_size _ _ HR). unfold root_size, DIRENT_SIZE. lia.
Qed.

Lemma image_ready t fs k :
  tx_inv t ∅ ∅ -> tx_open t -> tx_used t = O -> fs_layout sb0 (tx_home t) -> image (tx_view t) fs -> (k <= 30)%nat -> fs_ready t sb0 k.
Proof. intros. split; try done; [by eapply image_meta|]. unfold bufs. rewrite size_empty. lia. Qed.

(** Reading a file that the lookup has found. *)
Lemma read_found t fs ino (um : U) ip j f n :
  let i := nth ip ino inode0 in
  fs_ready t sb0 5 -> image (tx_view t) fs -> (length fs <= 198)%nat -> fs !! j = Some f -> (ip < length ino)%nat ->
  i_dev i = ROOTDEV -> i_inum i = 2 + Z.of_nat j -> i_ref i = 1 -> i_valid i = false -> sl_locked (i_lock i) = false -> 0 <= n < 2 ^ 32 ->
  wp (ilock (Some ip) ;;; let* ' (_, bytes) := readi ip DKernel 0 n in iunlockput ip ;;; lifttx tx_end_op ;;; ret (Some bytes))
    (fun r _ => r = Some (take (Z.to_nat n) (fdata f))) (Fsys t sb0 ino um).
Proof.
  intros i Hrd HI Hn Hf Hip Hd En Hr Hv Hlk Hlen. pose proof (lookup_lt_Some _ _ _ Hf) as Hj. pose proof (im_file _ _ HI j f Hf) as HF.
  destruct (if_type _ _ _ HF) as [Ety Enl].
  assert (Edi : disk_inode (tx_view t) sb0 (i_inum i) = disk_inode (tx_view t) sb0 (2 + Z.of_nat j)) by (by rewrite En).
  assert (Hty : di_type (disk_inode (tx_view t) sb0 (2 + Z.of_nat j)) = T_FILE) by exact Ety.
  wp_step. eapply wp_conseq; [apply ilock_spec|]; fold i; rewrite ?Edi, ?Hr, ?Hty; try done; try apply Hrd.
  { pose proof (rd_bufs _ _ _ Hrd). unfold bufs in *. lia. }
  { rewrite En. change (sb_ninodes sb0) with 200. lia. }
  intros [] ? (t1 & -> & Hq1). pose proof (proj2 Hq1) as E1. set (i1 := fetched t sb0 i). set (ino1 := <[ip := i1]> ino).
  assert (Ei1 : nth ip ino1 inode0 = i1) by (by apply nth_list_insert_eq).
  assert (Eaddr : i_addrs i1 = i_addrs (inode_at (tx_view t) (2 + Z.of_nat j))) by (unfold i1, fetched; cbn [i_addrs]; by rewrite Edi).
  assert (Esz : i_size i1 = i_size (inode_at (tx_view t) (2 + Z.of_nat j))) by (unfold i1, fetched; cbn [i_size]; by rewrite Edi).
  assert (Enl1 : i_nlink i1 = 1) by (unfold i1, fetched; cbn [i_nlink]; by rewrite Edi).
  assert (Hrd1 : fs_ready t1 sb0 5) by (eapply ready_same; [exact Hrd|apply Hq1|exact E1]).
  assert (Hf1 : file_ok (tx_view t1) sb0 i1).
  { eapply file_ok_ext; [exact E1|apply Hrd|]. eapply file_ok_shape; [|exact Esz|exact Eaddr|apply HF]. exact Hd. }
  assert (Hm1 : mapped (tx_view t1) i1).
  { intros k Hk. rewrite (blk_ext _ _ _ _ E1). revert k Hk. by eapply mapped_shape; [exact Esz|exact Eaddr|apply HF]. }
  pose proof (readi_spec t1 sb0 ino1 um ip 0 n) as Hread. cbv zeta in Hread. rewrite Ei1 in Hread.
  pose proof (fo_size _ _ _ Hf1). wp_step. eapply wp_conseq; [apply Hread; try done; try lia; unfold ino1; by rewrite length_insert|].
  intros res ? (t2 & -> & M2 & E2 & ->). wp_step.
  eapply wp_conseq; [apply iunlockput_spec; rewrite ?Ei1|].
  - unfold ino1. by rewrite length_insert.
  - change (i_ref i1) with (i_ref i). lia.
  - change (i_lock i1) with (Sleeplock true (tx_pid t)). f_equal. rewrite <-(quiet_pid _ _ Hq1). symmetry. apply quiet_pid. by split.
  - lia.
  - intros [] ? ->. wp_step. apply wp_lifttx. eapply wp_conseq; [apply tx_end_law|].
    + apply M2.
    + eapply moved_open; [exact M2|apply Hrd1].
    + pose proof (rd_bufs _ _ _ Hrd1). pose proof (mv_used _ _ _ _ M2). unfold bufs in *. change (Z.to_nat LOGBLOCKS) with 30%nat. lia.
    + intros [] t3 _. wp_step. f_equal. rewrite Esz, (if_size _ _ _ HF).
      assert (Efb : forall m, fbytes (tx_view t1) i1 0 m = fbytes (tx_view t) (inode_at (tx_view t) (2 + Z.of_nat j)) 0 m).
      { intros m. rewrite <-(fbytes_shape (tx_view t) _ i1) by done. apply fbytes_ext. intros. by apply fbyte_ext. }
      rewrite Efb. apply fbytes_take; [apply HF|lia].
Qed.

Lemma read_file_spec t fs ino (um : U) e n :
  tx_inv t ∅ ∅ -> tx_idle t -> fs_layout sb0 (tx_home t) -> (forall V, (forall b, V b = tx_view t b) -> image V fs) -> (length fs <= 198)%nat ->
  16 * (2 + Z.of_nat (length fs)) mod 1024 <> 0 -> names_ok e fs -> at_rest ino -> 0 <= n < 2 ^ 32 ->
  wp (read_file (SLASH :: e) n) (fun r _ => r = option_map (fun f => take (Z.to_nat n) (fdata f)) (find_file e fs)) (Fsys t sb0 ino um).
Proof.
  intros Hi Hid Hl HV Hn Hm Hnames Hrest Hlen. unfold read_file. wp_step. apply wp_lifttx.
  eapply wp_conseq; [by apply tx_begin_law|]. intros [] t1 (Hi1 & Ho1 & U1 & V1 & Hh1 & _). pose proof (HV _ V1) as HI.
  assert (Hl1 : fs_layout sb0 (tx_home t1)).
  { destruct Hl. split; try done; intros b Hb; apply Hh1; auto. }
  assert (Hrd : fs_ready t1 sb0 5) by (eapply image_ready; done || lia).
  destruct (root_in_dir t1 fs HI Hm) as [Hdir Hnl].
  assert (Ename : name_of e (replicate (Z.to_nat DIRSIZ) 0) = pad e) by (apply name_of_pad, Hnames).
  assert (Hinv : forall k, 0 <= k < nents (root_in t1 sb0) -> matches (pad e) (dent (tx_view t1) (root_in t1 sb0) k) = true ->
    exists j f, k = 2 + Z.of_nat j /\ fs !! j = Some f /\ fname f = e /\ de_inum (dent (tx_view t1) (root_in t1 sb0) k) = k).
  { intros k Hk Hmk. by apply (match_inv (tx_view t1) fs e (root_in t1 sb0) HI Hn Hnames). }
  pose proof (namei_spec t1 sb0 ino um 0%nat e Hrd Hrest Hdir) as Hnm. cbv zeta in Hnm. rewrite Ename in Hnm.
  wp_step. eapply wp_conseq; [apply Hnm|].
  - lia.
  - done.
  - apply Hnames.
  - apply Hnames.
  - intros k Hk Hmk. destruct (Hinv k Hk Hmk) as (j & f & -> & _ & _ & ->). unfold ROOTINO. lia.
  - intros r s (t2 & ino2 & -> & Hq2 & Hlen2 & Hr). pose proof (proj2 Hq2) as E2. destruct r as [ip|].
    + destruct Hr as (k & Hk & Hmk & Hlow & Hip & Hd & Hin & Hrf & Hvl & Hlk). destruct (Hinv k Hk Hmk) as (j & f & Ek & Hf & He & Einum).
      rewrite Einum, Ek in Hin.
      rewrite (match_first (tx_view t1) fs e (root_in t1 sb0) HI Hn Hnames eq_refl k j f Ek Hf He Hlow). simpl.
      eapply (read_found t2 fs); try done; [|apply HV; intros; by rewrite E2, V1|lia].
      eapply ready_same; [exact Hrd|apply Hq2|exact E2].
    + rewrite (match_none (tx_view t1) fs e (root_in t1 sb0) HI Hn Hnames eq_refl eq_refl Hr). simpl.
      wp_step. apply wp_lifttx. eapply wp_conseq; [apply tx_end_law|].
      * apply Hq2.
      * eapply moved_open; [apply Hq2|done].
      * pose proof (mv_used _ _ _ _ (proj1 Hq2)). change (Z.to_nat LOGBLOCKS) with 30%nat. lia.
      * intros [] t3 _. by wp_step.
Qed.
End Read.

(** ** Starting the file system *)

Section Reclaim.
Context {X U : Type} `{TS : TxSpec X} `{UM : UserMem U}.
Implicit Types t : X.

(** On a disk where every inode in use has links, [ireclaim] only looks. *)
Lemma ireclaim_spec t sb ino (um : U) :
  tx_inv t ∅ ∅ -> fs_layout sb (tx_home t) -> bufs t ∅ 1 -> 1 <= sb_ninodes sb ->
  (forall n, 1 <= n < sb_ninodes sb -> di_type (disk_inode (tx_view t) sb n) = 0 \/ di_nlink (disk_inode (tx_view t) sb n) <> 0) ->
  wp (ireclaim ROOTDEV) (fun _ s => exists t', s = Fsys t' sb ino um /\ quiet_tx t t') (Fsys t sb ino um).
Proof.
  intros Hi Hl Hb Hn Hlinks. unfold ireclaim. wp_step. wp_step. cbn [f_sb].
  apply (wp_each _ (fun _ s => exists t', s = Fsys t' sb ino um /\ quiet_tx t t')); [exists t; split; [done|by apply quiet_refl]| |done].
  intros n s Hrange (t1 & -> & Hq). assert (Hn' : 1 <= n < sb_ninodes sb) by lia.
  destruct (IBLOCK_eq sb _ n Hl ltac:(lia)) as [_ Hib]. destruct (fl_bmap _ _ Hl), (fl_inodes _ _ Hl), (fl_size _ _ Hl).
  assert (Hb1 : bufs t1 ∅ 1) by (pose proof (mv_used _ _ _ _ (proj1 Hq)); unfold bufs in *; lia).
  wp_step. eapply wp_bread_; [apply Hq|set_solver|unfold inode_block, FsBlocks.nbitmap, BPB, BSIZE in *; lia|done|].
  intros bp t2 Hi2 Hh2 K2 U2 V2. wp_step. eapply wp_data_; [done..|]. rewrite V2, (proj2 Hq). fold (disk_inode (tx_view t) sb n).
  assert (E : negb (di_type (disk_inode (tx_view t) sb n) =? 0) && (di_nlink (disk_inode (tx_view t) sb n) =? 0) = false).
  { destruct (Hlinks n Hn') as [-> | Hnz]; [done|]. rewrite (proj2 (Z.eqb_neq _ 0) Hnz). apply andb_false_r. }
  rewrite E. wp_step. wp_step. wp_step. eapply wp_brelse_; [done|set_solver|done|]. intros t3 Hi3 K3 U3 V3. wp_step.
  exists t3. split; [done|]. eapply quiet_trans; [exact Hq|]. split; [split; [done|by eapply tx_keep_trans|lia]|]. intros m. by rewrite V3, V2.
Qed.

Lemma at_rest_insert ino ip i : at_rest ino -> i_ref i = 0 -> sl_locked (i_lock i) = false -> at_rest (<[ip := i]> ino).
Proof. intros [H1 H2] Hr Hl. split; [by rewrite length_insert|]. by apply Forall_insert. Qed.

Lemma iinit_spec t sb ino (um : U) :
  at_rest ino -> wp iinit (fun _ s => exists ino', s = Fsys t sb ino' um /\ at_rest ino') (Fsys t sb ino um).
Proof.
  intros Hr. unfold iinit. apply (wp_each _ (fun _ s => exists ino', s = Fsys t sb ino' um /\ at_rest ino')); [by exists ino| |done].
  intros k s _ (ino1 & -> & Hr1). unfold on_ilock. apply wp_zoom. unfold initsleeplock. wp_step.
  eexists. split; [done|]. apply at_rest_insert; [done|by apply rest_nth|done].
Qed.
End Reclaim.

Section Boot.
Context {D U : Type} `{BS : BlockDevSpec D} `{UM : UserMem U}.

(** What [main] of kernel/main.c and the first process ([forkret] of kernel/proc.c) do for the file system. *)
Definition boot_fs : M (fsys (lstate D) U) unit := lifttx (liftb binit) ;;; iinit ;;; fsinit ROOTDEV.

(** The state of the kernel before: a disk, and zeroed memory. *)
Definition power_on (d : D) (pid : Z) (um : U) : fsys (lstate D) U :=
  Fsys (Lstate (bcache_bss d pid) log_bss) (Superblock 0 0 0 0 0 0 0 0) (replicate (Z.to_nat NINODE) inode0) um.

Lemma readsb_boot (c : bcache D) l sb ino (um : U) :
  tx_ok c [] ∅ ∅ ->
  wp (readsb ROOTDEV) (fun _ s => exists c', s = Fsys (Lstate c' l) (sb_of (view c 1)) ino um /\ tx_ok c' [] ∅ ∅ /\
    forall m, view c' m = view c m) (Fsys (Lstate c l) sb ino um).
Proof.
  intros Htx. unfold readsb. wp_step. apply wp_lifttx.
  eapply wp_conseq; [apply (bread_log c l [] ∅ ∅ 1 Htx); [set_solver|lia|right; apply room_used; rewrite size_empty; vm_compute; lia]|].
  intros i ? (c1 & -> & Htx1 & Hh1 & _ & Hio1). wp_step. apply wp_lifttx. unfold tx_data, log_tx, bdata. apply wp_gets.
  change (b_data (bufat (ls_cache (Lstate c1 l)) i)) with (b_data (bufat c1 i)). rewrite (bdata_view c1 i 1) by (apply Htx1 || done).
  wp_step. wp_step. apply wp_lifttx. eapply wp_conseq; [eapply brelse_log; [exact Htx1|exact Hh1|set_solver]|].
  intros [] ? (c2 & -> & Htx2 & _ & Hio2). exists c2. rewrite (io_nil_view _ _ _ Hio1). split; [done|]. split.
  - by replace (({[1]} ∪ ∅) ∖ {[1]} : gset Z) with (∅ : gset Z) in Htx2 by set_solver.
  - intros m. by rewrite (io_nil_view _ _ _ Hio2), (io_nil_view _ _ _ Hio1).
Qed.

(** Recovery of an empty log. *)
Lemma initlog_boot (c : bcache D) :
  tx_ok c [] ∅ ∅ -> view c 2 = zero_block ->
  wp (initlog ROOTDEV sb0) (fun _ s => log_tx_inv s ∅ ∅ /\ log_idle s /\ lg_start (ls_log s) = 2 /\ forall m, view (ls_cache s) m = view c m)
    (Lstate c log_bss).
Proof.
  intros Htx H2. unfold initlog. replace (BSIZE <=? LOGHEADER_SIZE) with false by done. wp_step. wp_step. wp_step. wp_step. wp_step. wp_step.
  set (l := log_bss <| lg_start := 2 |> <| lg_dev := ROOTDEV |>).
  change (wp recover_from_log ?Q _) with (wp recover_from_log Q (Lstate c l)).
  assert (H0 : get32 (view c (lg_start l)) 0 = 0) by (change (lg_start l) with 2; rewrite H2; vm_compute; reflexivity).
  eapply wp_conseq; [apply recover_spec; [done| |by apply head_ok_empty]|].
  { split; [done|done|simpl; unfold LOGBLOCKS, MAXOPBLOCKS; lia]. }
  intros [] ? (c' & h & -> & Htx' & Hl' & Hn & Hio). rewrite head_blocks_nil in Hio by done.
  assert (Enil : logged (l <| lg_lh := h |>) = []) by (unfold logged; simpl; by rewrite Hn).
  split_and!; try done; cbn [ls_log ls_cache].
  - split; cbn [ls_log ls_cache]; [by rewrite Enil|done].
  - intros m. rewrite (io_view _ _ _ Hio). change (replay (view c) ([] ++ [(2, head_put [] (view c 2))]) m = view c m).
    rewrite H2. change (replay (view c) ([] ++ [(2, head_put [] zero_block)]) m) with (bput (view c) 2 (head_put [] zero_block) m).
    unfold bput. case_decide as E; [|done]. rewrite E, H2. vm_compute. reflexivity.
Qed.

Lemma sb0_home : fs_layout sb0 (home 2).
Proof.
  destruct sb0_layout as [L1 L2 L3 L4 L5 L6]. split; try done; intros b Hb; [pose proof (L2 b Hb)|pose proof (L5 b Hb)|pose proof (L6 b Hb)];
    unfold home_block in *; rewrite sb0_eq in Hb; unfold home, inode_block, bmap_block, data_block, FsBlocks.nbitmap, BPB, BSIZE, LOGBLOCKS, MAXOPBLOCKS in *; simpl in Hb; lia.
Qed.

(** The kernel starts on an image. *)
Lemma boot_fs_spec (d : D) pid (um : U) fs :
  dev_ok d -> (forall V, (forall b, V b = dev_at d b) -> image V fs) -> (length fs <= 198)%nat ->
  wp boot_fs (fun _ s => exists t ino, s = Fsys t sb0 ino um /\ tx_inv t ∅ ∅ /\ tx_idle t /\ fs_layout sb0 (tx_home t) /\ at_rest ino /\
    forall m, tx_view t m = dev_at d m) (power_on d pid um).
Proof.
  intros Hd HV Hn. unfold boot_fs, power_on. wp_step. apply wp_lifttx, wp_liftb. eapply wp_conseq; [by apply binit_spec|].
  intros [] c (Hok & _ & _ & Ed & _ & Hno). pose proof (tx_fresh c Hok Hno) as Htx.
  assert (Ev : forall m, view c m = dev_at d m) by (intros; rewrite <-Ed; by apply view_uncached).
  wp_step. eapply wp_conseq; [apply iinit_spec; split; [vm_compute; lia|by apply Forall_replicate]|]. intros [] ? (ino & -> & Hrest).
  unfold fsinit. wp_step. eapply wp_conseq; [by apply readsb_boot|]. intros [] ? (c1 & -> & Htx1 & Ev1).
  pose proof (HV (view c) Ev) as HI. rewrite (im_sb _ _ HI). wp_step. wp_step. cbn [f_sb]. change (negb (sb_magic sb0 =? FSMAGIC)) with false. cbv iota.
  wp_step. apply wp_lifttx. eapply wp_conseq; [apply (initlog_boot c1 Htx1)|].
  { rewrite Ev1. apply (im_log _ _ HI). change (sb_logstart sb0) with 2. change (sb_nlog sb0) with 31. lia. }
  intros [] t (Hi & Hid & Hst & Ev2).
  assert (Ev3 : forall m, tx_view t m = dev_at d m) by (intros m; change (view (ls_cache t) m = dev_at d m); by rewrite Ev2, Ev1).
  assert (Hlay : fs_layout sb0 (tx_home t)) by (change (fs_layout sb0 (home (lg_start (ls_log t)))); rewrite Hst; apply sb0_home).
  pose proof (HV _ Ev3) as HI2.
  eapply wp_conseq; [apply ireclaim_spec; [exact Hi|exact Hlay| |rewrite sb0_eq; simpl; lia|]|].
  - unfold bufs. change (tx_used t) with (length (logged (ls_log t))). destruct Hid as (_ & _ & ->). rewrite size_empty. simpl. lia.
  - intros n Hrange. rewrite sb0_eq in Hrange. simpl in Hrange. destruct (decide (n = 1)) as [->|].
    + right. destruct (ir_type _ _ (im_root _ _ HI2)) as [_ E]. change (di_nlink (disk_inode (tx_view t) sb0 1) = 1) in E. rewrite E. done.
    + destruct (decide (n < 2 + Z.of_nat (length fs))) as [Hlt|].
      * right. set (k := Z.to_nat (n - 2)). destruct (lookup_lt_is_Some_2 fs k ltac:(lia)) as [f Hf].
        destruct (if_type _ _ _ (im_file _ _ HI2 k f Hf)) as [_ E]. replace n with (2 + Z.of_nat k) by lia.
        change (di_nlink (disk_inode (tx_view t) sb0 (2 + Z.of_nat k)) = 1) in E. rewrite E. done.
      * left. apply (im_free _ _ HI2). unfold NINODES. lia.
  - intros [] ? (t' & -> & Hq). exists t', ino. split; [done|]. pose proof (proj1 Hq) as [M1 (K1 & K2 & K3 & K4 & K5) M3].
    split_and!; try done.
    + by apply K4.
    + destruct Hlay. split; try done; intros b Hb; apply K2; auto.
    + intros m. by rewrite (proj2 Hq).
Qed.

End Boot.

(** The blocks of an image on the memory disk. *)
Definition image_disk (s : mkfs) : RamDisk.t :=
  RamDisk.Mk (list_to_map (map (fun b => (b, m_img s b)) (seqZ 0 (m_len s)))) [].

Lemma image_disk_spec s :
  m_len s = FSSIZE -> (forall b, block_ok (m_img s b) /\ (b < 0 \/ FSSIZE <= b -> m_img s b = zero_block)) ->
  dev_ok (image_disk s) /\ forall b, dev_at (image_disk s) b = m_img s b.
Proof.
  intros Hl Hb. set (l := map (fun b => (b, m_img s b)) (seqZ 0 (m_len s))).
  assert (El : l.*1 = seqZ 0 (m_len s)) by (unfold l; rewrite <-list_fmap_compose; apply list_fmap_id).
  assert (Hin : forall b x, (b, x) ∈ l -> x = m_img s b) by (intros b x Hx; apply list_elem_of_fmap in Hx as (b' & [= -> ->] & _); done).
  split.
  - intros b x Hx. apply elem_of_list_to_map_2, Hin in Hx. subst x. apply Hb.
  - intros b. change (default zero_block ((list_to_map l : gmap Z block) !! b) = m_img s b). destruct (decide (0 <= b < FSSIZE)) as [Hr|Hr].
    + rewrite (elem_of_list_to_map_1 l b (m_img s b)); [done|rewrite El; apply NoDup_seqZ|].
      apply list_elem_of_fmap. exists b. split; [done|]. apply elem_of_seqZ. rewrite Hl. lia.
    + rewrite not_elem_of_list_to_map_1; [symmetry; apply Hb; lia|]. rewrite El, elem_of_seqZ, Hl. lia.
Qed.

(** C4. What mkfs writes, the kernel reads.  If the image that mkfs has built from files (as in its own theorem) is on the disk of the machine,
    the kernel starts: it accepts the super block, recovers the empty log and finds nothing to reclaim.  Then looking up the path of one
    element [/e] and reading [n] bytes from its start returns the first [n] bytes of the first file of that name on the command line of mkfs, and
    no file if there is none.  This holds when the last block of the root directory is not full, in which case the size that mkfs gives it covers a block it does not have. *)
Theorem boot_reads_image {D U : Type} `{BS : BlockDevSpec D} `{UM : UserMem U} fails name fs (d : D) pid (um : U) e n :
  (forall n, fails n = false) -> Forall infile_ok fs -> (length fs <= 198)%nat ->
  47 + nblk (16 * (2 + Z.of_nat (length fs))) + total (map fdata fs) <= FSSIZE -> 16 * (2 + Z.of_nat (length fs)) mod 1024 <> 0 ->
  dev_ok d -> (forall b, dev_at d b = m_img (final (main fails (Some name) fs) mkfs_start) b) -> names_ok e fs -> 0 <= n < 2 ^ 32 ->
  wp (boot_fs ;;; read_file (SLASH :: e) n) (fun r _ => r = option_map (fun f => take (Z.to_nat n) (fdata f)) (find_file e fs)) (power_on d pid um).
Proof.
  intros Hhost Hfs Hn Hroom Hmod Hd Ed Hnames Hlen.
  pose proof (wp_final _ (fun s => _) _ (main_spec fails name fs Hhost Hfs Hn Hroom)) as (_ & HI & _).
  assert (HV : forall V, (forall b, V b = dev_at d b) -> image V fs) by (intros V E; apply HI; intros b; by rewrite E, Ed).
  clear HI Ed Hroom. wp_step. eapply wp_conseq; [apply (boot_fs_spec d pid um fs Hd HV Hn)|]. intros [] s (t & ino & -> & Hi & Hid & Hl & Hrest & Ev).
  apply read_file_spec; try done. intros V E. apply HV. intros b. by rewrite E, Ev.
Qed.
