(* ===== verification/FsDemo.v ===== *)
(** A concrete file system on the memory disk, in the layout of mkfs/mkfs.c,
    on which the hypotheses of the file-system theorems hold. *)

From S2P Require Import CString Prelude Bytes Ring Params Disk Sleeplock Bio LogTx Log LogSpec Tx.
From S2P Require Import LogCrash Fs FsBlocks FsInode FsFile FsDir.

(** A kernel without a user process. *)
#[global] Instance no_user : UserMem unit := {
  um_copyout _ _ := ret (-1);
  um_copyin _ _ := ret ([], -1) }.

(** Blocks 0 to 46 (boot, super, log, inodes, bitmap) are marked in use. *)
Definition demo_bitmap : block := replicate 5 255 ++ [127] ++ replicate 1018 0.
Definition demo_disk : RamDisk.t := RamDisk.Mk {[46 := demo_bitmap]} [].

Lemma demo_disk_ok : dev_ok demo_disk.
Proof.
  apply map_Forall_singleton. split; [reflexivity|].
  repeat (apply Forall_app; split); try (apply bytes_ok_replicate; unfold is_byte; lia).
  apply Forall_singleton. unfold is_byte. lia.
Qed.

(** Boot, and begin a system call. *)
Definition demo_start_op : M (lstate RamDisk.t) unit := boot_log demo_sb ;;; begin_op.
Definition demo_store : lstate RamDisk.t :=
  final demo_start_op (Lstate (bcache_bss demo_disk 1) log_bss).

Lemma demo_store_ok : log_tx_inv demo_store ∅ ∅ /\ log_open demo_store /\ logged (ls_log demo_store) = [].
Proof.
  apply (wp_final demo_start_op (fun s => log_tx_inv s ∅ ∅ /\ log_open s /\ logged (ls_log s) = [])).
  unfold demo_start_op. wp_step. eapply wp_conseq; [apply boot_log_spec; try done; apply demo_disk_ok|].
  intros [] [c l] (Htx & Hl & Hst & Hn & Ho & Hc & _). unfold lh in *. cbn [ls_log ls_cache] in *.
  assert (Hnil : logged l = []) by (unfold logged; by rewrite Hn).
  eapply wp_conseq; [apply log_begin|].
  - split; cbn [ls_log ls_cache]; [by rewrite Hnil|done].
  - by split_and!.
  - intros [] s (? & ? & Hlen & _). split_and!; try done. by apply nil_length_inv.
Qed.

Lemma demo_store_start : lg_start (ls_log demo_store) = 2.
Proof. vm_compute. reflexivity. Qed.

Lemma demo_store_bitmap : tx_view demo_store 46 = demo_bitmap.
Proof. vm_compute. reflexivity. Qed.

#[local] Opaque demo_store.

Lemma demo_layout : fs_layout demo_sb (tx_home demo_store).
Proof.
  assert (Eh : forall b, tx_home demo_store b <-> home 2 b) by (intros; change (tx_home demo_store b) with (home (lg_start (ls_log demo_store)) b); by rewrite demo_store_start).
  split.
  - split_and!; reflexivity || (vm_compute; congruence).
  - intros b Hb. apply Eh. unfold home, inode_block, LOGBLOCKS, MAXOPBLOCKS in *. simpl in Hb. lia.
  - split; reflexivity.
  - split; [reflexivity|vm_compute; congruence].
  - intros b Hb. apply Eh. unfold home, bmap_block, LOGBLOCKS, MAXOPBLOCKS in *. simpl in Hb.
    change (nbitmap demo_sb) with 1 in Hb. lia.
  - intros b Hb. apply Eh. unfold home, data_block, LOGBLOCKS, MAXOPBLOCKS in *. simpl in Hb.
    change (nbitmap demo_sb) with 1 in Hb. lia.
Qed.

Lemma demo_BBLOCK b : 0 <= b < 2000 -> BBLOCK b demo_sb = 46.
Proof. intros. unfold BBLOCK, BPB, BSIZE. simpl. rewrite u32_id; lia. Qed.

Lemma demo_meta : meta_used (tx_view demo_store) demo_sb.
Proof.
  intros b Hb Hu. simpl in Hb. unfold data_block. change (nbitmap demo_sb) with 1. simpl.
  destruct (decide (b < 47)) as [H|H]; [|lia]. exfalso.
  unfold in_use in Hu. rewrite demo_BBLOCK, demo_store_bitmap in Hu by lia.
  rewrite Z.mod_small in Hu by (unfold BPB, BSIZE; lia).
  assert (Hall : forallb (fun k => negb (bit_clear demo_bitmap k)) (seqZ 0 47) = true) by (vm_compute; reflexivity).
  rewrite forallb_forall in Hall. rewrite (Hall b) in Hu; [done|].
  apply list_elem_of_In, elem_of_seqZ. lia.
Qed.

(** One inode in the table: an empty directory, number 1; the other entries are free. *)
Definition demo_dir : inode :=
  Inode ROOTDEV ROOTINO 1 (Sleeplock true 1) true T_DIR 0 0 1 0 (replicate (Z.to_nat (NDIRECT + 1)) 0).
Definition demo_table : list inode := demo_dir :: replicate 49 inode0.

Definition demo_fs : fsys (lstate RamDisk.t) unit := Fsys demo_store demo_sb demo_table tt.

Lemma demo_ready k : (k <= 30)%nat -> fs_ready demo_store demo_sb k.
Proof.
  intros Hk. destruct demo_store_ok as (H1 & H2 & H3). split; [exact H1|exact H2|exact demo_layout|exact demo_meta|].
  unfold bufs. change (tx_used demo_store) with (length (logged (ls_log demo_store))). rewrite H3, size_empty. simpl. lia.
Qed.

Lemma demo_dir_blk V bn : blk V demo_dir bn = 0.
Proof.
  unfold blk. case_match; [|done]. unfold aget, demo_dir. cbn [i_addrs]. rewrite nth_lookup.
  destruct (_ !! _) eqn:E; [|done]. by apply lookup_replicate in E as [-> _].
Qed.

Lemma demo_file_ok V : file_ok V demo_sb demo_dir.
Proof.
  split; [reflexivity|reflexivity|vm_compute; split; congruence| | |done].
  - intros bn _ Hn. by rewrite demo_dir_blk in Hn.
  - intros bn bn' _ _ Hn. by rewrite demo_dir_blk in Hn.
Qed.

Lemma demo_mapped V : mapped V demo_dir.
Proof. intros k Hk. simpl in Hk. lia. Qed.

Lemma demo_meta_ok : meta_ok demo_sb demo_dir.
Proof. split; simpl; unfold T_DIR, ROOTINO; lia. Qed.

Lemma demo_table_ok : itable_ok demo_table.
Proof.
  assert (Hz : forall k i, demo_table !! S k = Some i -> i_ref i = 0).
  { intros k i Hk. unfold demo_table in Hk. by apply lookup_replicate in Hk as [-> _]. }
  split.
  - intros [|k] i Hk; [injection Hk as <-; done|]. apply Hz in Hk. lia.
  - intros [|j] [|k] a b Ha Hb Ra Rb _ _; try done.
    + apply Hz in Hb. lia.
    + apply Hz in Ha. lia.
    + apply Hz in Ha. lia.
Qed.

Lemma demo_free : Exists (fun i => i_ref i = 0) demo_table.
Proof. right. left. reflexivity. Qed.

(** ** The theorems at the concrete file system *)

Lemma demo_held : held_ok (tx_view demo_store) demo_sb ∅.
Proof. intros b Hb. by apply elem_of_empty in Hb. Qed.

Lemma demo_bufs k : (k <= 30)%nat -> bufs demo_store ∅ k.
Proof. intros Hk. by apply (rd_bufs _ _ _ (demo_ready k Hk)). Qed.

Lemma demo_in_use b : 0 <= b < 2000 -> in_use (tx_view demo_store) demo_sb b = bool_decide (b < 47).
Proof.
  intros Hb. unfold in_use. rewrite demo_BBLOCK, demo_store_bitmap by lia.
  rewrite Z.mod_small by (unfold BPB, BSIZE; lia).
  assert (Hall : forallb (fun k => bool_decide (negb (bit_clear demo_bitmap k) = bool_decide (k < 47))) (seqZ 0 2000) = true)
    by (vm_compute; reflexivity).
  rewrite forallb_forall in Hall. specialize (Hall b). apply bool_decide_eq_true in Hall; [done|].
  apply list_elem_of_In, elem_of_seqZ. lia.
Qed.

(** The first block handed out is number 47. *)
Lemma balloc_correct_witness :
  wp (balloc ROOTDEV) (fun r s => r = 47 /\ tx_view (f_tx s) 47 = zero_block) demo_fs.
Proof.
  eapply wp_conseq; [apply (balloc_correct demo_store ∅ demo_sb demo_table tt)|].
  - exact (rd_inv _ _ _ (demo_ready 2 ltac:(lia))).
  - exact (rd_open _ _ _ (demo_ready 2 ltac:(lia))).
  - exact demo_layout.
  - exact demo_meta.
  - exact demo_held.
  - exact (demo_bufs 2 ltac:(lia)).
  - intros r s (t' & -> & _ & [(-> & Hall & _)|(Hd & Hf & Hlow & Hz & _)]).
    + exfalso. specialize (Hall 47 ltac:(simpl; lia)). rewrite demo_in_use in Hall by lia. done.
    + assert (r = 47) as ->; [|split; [reflexivity|exact Hz]].
      assert (Hr : 47 <= r < 2000) by (unfold data_block in Hd; change (nbitmap demo_sb) with 1 in Hd; simpl in Hd; lia).
      destruct (decide (r = 47)) as [|Hne]; [done|]. specialize (Hlow 47 ltac:(lia)).
      rewrite demo_in_use in Hlow by lia. done.
Defined.

(** Freeing the boot block is possible, freeing block 47 panics. *)
Lemma bfree_correct_witness : panics (bfree ROOTDEV 47) "freeing free block" demo_fs.
Proof.
  destruct (bfree_correct demo_store ∅ 47 demo_sb demo_table tt) as [H _].
  - exact (rd_inv _ _ _ (demo_ready 2 ltac:(lia))).
  - exact (rd_open _ _ _ (demo_ready 2 ltac:(lia))).
  - exact demo_layout.
  - exact demo_held.
  - exact (demo_bufs 1 ltac:(lia)).
  - simpl. lia.
  - rewrite demo_in_use in H by lia. exact H.
Defined.

Lemma iupdate_correct_witness :
  wp (iupdate 0) (fun _ s => disk_inode (tx_view (f_tx s)) demo_sb 1 = to_dinode demo_dir) demo_fs.
Proof.
  eapply wp_conseq; [apply (iupdate_correct demo_store demo_sb demo_table tt 0)|].
  - exact (rd_inv _ _ _ (demo_ready 2 ltac:(lia))).
  - exact (rd_open _ _ _ (demo_ready 2 ltac:(lia))).
  - exact demo_layout.
  - exact (demo_bufs 1 ltac:(lia)).
  - reflexivity.
  - simpl. unfold ROOTINO. lia.
  - exact (to_dinode_ok demo_sb _ (tx_view demo_store) demo_dir demo_layout (demo_file_ok _) demo_meta_ok).
  - intros [] s (t' & -> & _ & E & _). exact E.
Defined.

Lemma iget_correct_witness :
  wp (iget ROOTDEV ROOTINO) (fun ip s => exists i', f_ino s = <[ip := i']> demo_table /\
    is_for ROOTDEV ROOTINO i') demo_fs.
Proof.
  pose proof (iget_correct demo_store demo_sb demo_table tt ROOTDEV ROOTINO demo_table_ok) as H.
  rewrite decide_True in H.
  - eapply wp_conseq; [exact H|]. intros ip s (i' & -> & _ & Hf & _). exists i'. split; [reflexivity|exact Hf].
  - left. left. split_and!; reflexivity.
Defined.


(** A directory entry is written to the empty directory and read back. *)
Definition demo_entry : list Z := [2; 0; 97; 0; 0; 0; 0; 0; 0; 0; 0; 0; 0; 0; 0; 0].

Lemma demo_entry_ok : bytes_ok demo_entry.
Proof. repeat constructor; unfold is_byte; lia. Qed.


Lemma write_then_read_witness :
  wp (let* r := writei 0 (SKernel demo_entry) 0 16 in
      let* res := readi 0 DKernel 0 r in
      ret (r, res)) (fun out s => let '(r, (r2, bytes)) := out in
        r2 = r /\ bytes = take (Z.to_nat r) demo_entry) demo_fs.
Proof.
  eapply wp_conseq; [apply (write_then_read demo_store demo_sb demo_table tt 0 0 demo_entry)|].
  - apply demo_ready. vm_compute. lia.
  - simpl. lia.
  - exact (demo_file_ok _).
  - exact (demo_mapped _).
  - exact demo_meta_ok.
  - exact demo_entry_ok.
  - simpl. lia.
  - vm_compute. congruence.
  - intros [r [r2 bytes]] s (E1 & E2 & _). split; [exact E1|exact E2].
Defined.

Lemma dirlookup_correct_witness :
  wp (dirlookup 0 [97]) (fun res s => res = None) demo_fs.
Proof.
  eapply wp_conseq; [apply (dirlookup_correct demo_store demo_sb demo_table tt 0 [97])|].
  - exact (demo_ready 5 ltac:(lia)).
  - simpl. lia.
  - split; [exact (demo_file_ok _)|exact (demo_mapped _)|reflexivity|reflexivity].
  - exact demo_table_ok.
  - exact demo_free.
  - intros [[ip off]|] s (t' & _ & _ & Hres); [|reflexivity].
    exfalso. destruct Hres as (k & _ & Hk & _). change (nents (nth 0 demo_table inode0)) with 0 in Hk. lia.
Defined.
