(* ===== verification/BootDemo.v ===== *)
(** A small image of mkfs, and the kernel started on it. *)

From S2P Require Import Prelude Bytes Ring Params Disk Sleeplock CString Bio LogTx Log LogSpec Tx LogCrash.
From S2P Require Import Fs FsBlocks FsInode FsFile FsDir FsDemo Mkfs MkfsSpec MkfsImage FsBoot.

(** The file [ls] of three bytes, built as [user/_ls], and an empty one. *)
Definition demo_files : list infile := [Infile [117; 115; 101; 114; 47; 95; 108; 115] (Some [[1; 2; 3]]); Infile [114] (Some [])].
Abbreviation demo_image := (final (main (fun _ => false) (Some [102]) demo_files) mkfs_start).

Lemma demo_files_ok : Forall infile_ok demo_files.
Proof.
  constructor; [|constructor; [|constructor]]; split; try done; try (repeat constructor; unfold is_byte; lia).
  - eexists. split; [done|]. constructor; [split; [done|]|constructor]. repeat constructor; unfold is_byte; lia.
  - eexists. split; [done|constructor].
Qed.

Lemma demo_room : 47 + nblk (16 * (2 + Z.of_nat (length demo_files))) + total (map fdata demo_files) <= FSSIZE.
Proof. vm_compute. congruence. Qed.

Lemma demo_few : (length demo_files <= 198)%nat.
Proof. simpl. lia. Qed.

Lemma demo_image_disk : dev_ok (image_disk demo_image) /\ forall b, dev_at (image_disk demo_image) b = m_img demo_image b.
Proof.
  apply (wp_final (main (fun _ => false) (Some [102]) demo_files)
    (fun s => dev_ok (image_disk s) /\ forall b, dev_at (image_disk s) b = m_img s b)).
  eapply wp_conseq; [apply (main_spec (fun _ => false) [102] demo_files (fun _ => eq_refl) demo_files_ok demo_few demo_room)|].
  intros [] s (Hl & _ & Hb). by apply image_disk_spec.
Qed.

Lemma demo_names : names_ok [108; 115] demo_files.
Proof.
  split.
  - constructor; [|constructor; [|constructor]]; (split; [vm_compute; lia|repeat constructor; lia]).
  - split; [simpl; lia|repeat constructor; unfold SLASH; lia].
  - by split_and!.
Qed.

Lemma boot_reads_image_witness :
  option_map (fun f => take (Z.to_nat 2) (fdata f)) (find_file [108; 115] demo_files) = Some [1; 2] /\
  wp (boot_fs ;;; read_file (SLASH :: [108; 115]) 2)
    (fun r _ => r = option_map (fun f => take (Z.to_nat 2) (fdata f)) (find_file [108; 115] demo_files)) (power_on (image_disk demo_image) 1 tt).
Proof.
  split; [reflexivity|].
  apply (boot_reads_image (fun _ => false) [102] demo_files (image_disk demo_image) 1 tt [108; 115] 2 (fun _ => eq_refl) demo_files_ok demo_few demo_room).
  - vm_compute. congruence.
  - exact (proj1 demo_image_disk).
  - exact (proj2 demo_image_disk).
  - exact demo_names.
  - lia.
Defined.
