(* ===== verification/Balance.v ===== *)
(** What file-system code takes and gives back: references to inodes, inode locks, buffers, and the log's count of operations.

    [moved s s' δ μ b o] says how the counts change between two states: [δ] is added to the reference counts, [μ] says which
    inode locks are taken or released, [b] more buffers are held, [o] more operations are open.  The lemmas give the
    change each function of kernel/fs.c makes when it returns, on every path, whatever it reads from the disk. *)

From S2P Require Import CString Prelude Safe Bytes Params Disk Sleeplock Tx Fs.

Definition anyfault : fault -> Prop := fun _ => True.
Abbreviation returns m Q s := (safe anyfault m Q s).

(** Counting for the operations of the log: buffers held and operations open, in states where the cache is linked up. *)
Class TxBalance (X : Type) {TO : TxOps X} := {
  tx_fine : X -> Prop;
  tx_bufs : X -> Z;
  tx_ops : X -> Z;
  tx_moved (x x' : X) (b o : Z) : Prop := tx_fine x -> tx_fine x' /\ tx_bufs x' = tx_bufs x + b /\ tx_ops x' = tx_ops x + o;
  tx_bread_bal d n x : returns (tx_bread d n) (fun _ x' => tx_moved x x' 1 0) x;
  tx_brelse_bal i x : returns (tx_brelse i) (fun _ x' => tx_moved x x' (-1) 0) x;
  tx_data_bal i x : returns (tx_data i) (fun _ x' => tx_moved x x' 0 0) x;
  tx_set_bal i d x : returns (tx_set i d) (fun _ x' => tx_moved x x' 0 0) x;
  tx_log_write_bal i x : returns (tx_log_write i) (fun _ x' => tx_moved x x' 0 0) x;
  tx_begin_bal x : returns tx_begin_op (fun _ x' => tx_moved x x' 0 1) x;
  tx_end_bal x : returns tx_end_op (fun _ x' => tx_moved x x' 0 (-1)) x;
  tx_initlog_bal d sb x : returns (tx_initlog d sb) (fun _ x' => tx_moved x x' 0 0) x }.

(** What [copyout] and [copyin] leave alone of the caller. *)
Class UmView (U : Type) {UM : UserMem U} := {
  uv_type : Type;
  uv : U -> uv_type;
  um_copyout_uv a l u : returns (um_copyout a l) (fun _ u' => uv u' = uv u) u;
  um_copyin_uv a n u : returns (um_copyin a n) (fun _ u' => uv u' = uv u) u }.

(** Sums over a list. *)
Definition zsum {A} (g : A -> Z) (l : list A) : Z := foldr (fun x n => g x + n) 0 l.

Lemma zsum_insert {A} (g : A -> Z) l i x y : l !! i = Some x -> zsum g (<[i := y]> l) = zsum g l - g x + g y.
Proof.
  revert i. induction l as [|z l IH]; intros [|i] H; try done; simpl.
  - injection H as ->. lia.
  - rewrite (IH i H). lia.
Qed.

(** One more reference to [i]. *)
Definition one (i : nat) : nat -> Z := fun j => if decide (j = i) then 1 else 0.
Definition none : nat -> Z := fun _ => 0.
(** Lock [i] taken, released. *)
Definition lk1 (i : nat) (b : bool) : nat -> option bool := fun j => if decide (j = i) then Some b else None.
Definition nolk : nat -> option bool := fun _ => None.

Section Balance.
Context {X U : Type} `{TB : TxBalance X} `{UV : UmView U}.
Implicit Types (s : fsys X U) (i j : nat).

Definition rf s j : Z := i_ref (inoat s j).
Definition lk s j : bool := sl_locked (i_lock (inoat s j)).

Record moved s s' (δ : nat -> Z) (μ : nat -> option bool) (b o : Z) : Prop := {
  mv_rf j : rf s' j = rf s j + δ j;
  mv_lk j : lk s' j = default (lk s j) (μ j);
  mv_tx : tx_moved (f_tx s) (f_tx s') b o;
  mv_um : uv (f_um s') = uv (f_um s);
  mv_len : length (f_ino s') = length (f_ino s) }.

Abbreviation same s s' := (moved s s' none nolk 0 0).

Lemma fsame_refl s : same s s.
Proof. split; try done; unfold none, tx_moved; intros; [lia|split_and!; done || lia]. Qed.

Lemma fmoved_trans s1 s2 s3 δ1 δ2 μ1 μ2 b1 b2 o1 o2 :
  moved s1 s2 δ1 μ1 b1 o1 -> moved s2 s3 δ2 μ2 b2 o2 ->
  moved s1 s3 (fun j => δ1 j + δ2 j) (fun j => match μ2 j with Some x => Some x | None => μ1 j end) (b1 + b2) (o1 + o2).
Proof.
  intros [] []. split; [..|congruence|congruence].
  - intros j. rewrite mv_rf1, mv_rf0. lia.
  - intros j. rewrite mv_lk1. destruct (μ2 j); [done|]. apply mv_lk0.
  - intros Hf. destruct (mv_tx0 Hf) as (Hf2 & ? & ?). destruct (mv_tx1 Hf2) as (? & ? & ?). split_and!; [done|lia|lia].
Qed.

Lemma moved_ext s s' δ δ' μ μ' b b' o o' :
  moved s s' δ μ b o -> (forall j, δ j = δ' j) -> (forall j, default (lk s j) (μ j) = default (lk s j) (μ' j)) -> b = b' -> o = o' ->
  moved s s' δ' μ' b' o'.
Proof. intros [] Hd Hm -> ->. split; try done; intros j; [rewrite <-Hd|rewrite <-Hm]; done. Qed.

(** *** Primitive steps *)

Lemma safe_trans {A} (m : M (fsys X U) A) s0 s (P : A -> (nat -> Z)) (μ : A -> nat -> option bool) b o :
  same s0 s -> returns m (fun a s' => moved s s' (P a) (μ a) b o) s -> returns m (fun a s' => moved s0 s' (P a) (μ a) b o) s.
Proof.
  intros H0 H. eapply safe_conseq; [exact H|]. intros a s' H1. eapply moved_ext; [exact (fmoved_trans _ _ _ _ _ _ _ _ _ _ _ H0 H1)|..].
  - intros j. unfold none. lia.
  - intros j. cbn beta. by destruct (μ a j).
  - lia.
  - lia.
Qed.

Lemma lifttx_moved {A} (m : M X A) s b o :
  returns m (fun _ x' => tx_moved (f_tx s) x' b o) (f_tx s) ->
  returns (lifttx m) (fun _ s' => moved s s' none nolk b o) s.
Proof.
  intros H. apply safe_zoom. eapply safe_conseq; [exact H|]. intros a x' Hx.
  split; simpl; try done. intros j. unfold none. by rewrite Z.add_0_r.
Qed.

Lemma liftum_moved {A} (m : M U A) s :
  returns m (fun _ u' => uv u' = uv (f_um s)) (f_um s) -> returns (liftum m) (fun _ s' => same s s') s.
Proof.
  intros H. apply safe_zoom. eapply safe_conseq; [exact H|]. intros a u' Hu. split; simpl; try done; [|apply (fsame_refl s)].
  intros j. unfold none. by rewrite Z.add_0_r.
Qed.

Lemma inoat_setino s ip f j : inoat (setino ip f s) j = if decide (j = ip /\ (ip < length (f_ino s))%nat) then f (inoat s ip) else inoat s j.
Proof.
  unfold setino, inoat. simpl. destruct (decide (ip < length (f_ino s))%nat) as [Hl|Hl].
  - destruct (decide (j = ip)) as [->|Hne].
    + rewrite decide_True by done. apply nth_lookup_Some. by apply list_lookup_insert_eq.
    + rewrite decide_False by tauto. rewrite !nth_lookup, list_lookup_insert_ne by done. done.
  - rewrite decide_False by tauto. rewrite list_insert_ge by lia. done.
Qed.

Lemma setino_same ip f s :
  (forall x, i_ref (f x) = i_ref x) -> (forall x, i_lock (f x) = i_lock x) -> same s (setino ip f s).
Proof.
  intros Hr Hl. split; simpl; try done; try apply (fsame_refl s).
  - intros j. unfold rf, none. rewrite inoat_setino. case_decide as E; [destruct E as [-> _]; rewrite Hr|]; lia.
  - intros j. unfold lk. rewrite inoat_setino. case_decide as E; [destruct E as [-> _]; by rewrite Hl|done].
  - apply length_insert.
Qed.

Lemma setino_lock ip l s :
  (ip < length (f_ino s))%nat -> moved s (setino ip (fun x => x <| i_lock := l |>) s) none (lk1 ip (sl_locked l)) 0 0.
Proof.
  intros Hl. split; simpl; try done; try apply (fsame_refl s).
  - intros j. unfold rf, none. rewrite inoat_setino. case_decide as E; [destruct E as [-> _]; simpl|]; lia.
  - intros j. unfold lk, lk1. rewrite inoat_setino. repeat case_decide; simpl; try done; tauto.
  - apply length_insert.
Qed.

Lemma setino_ref ip f d s :
  (ip < length (f_ino s))%nat -> i_ref (f (inoat s ip)) = i_ref (inoat s ip) + d -> i_lock (f (inoat s ip)) = i_lock (inoat s ip) ->
  moved s (setino ip f s) (fun j => d * one ip j) nolk 0 0.
Proof.
  intros Hl Hr Hk. split; simpl; try done; try apply (fsame_refl s).
  - intros j. unfold rf, one. rewrite inoat_setino. repeat case_decide; subst; try (destruct_and?; congruence); try lia; tauto.
  - intros j. unfold lk. rewrite inoat_setino. case_decide as E; [destruct E as [-> _]; by rewrite Hk|done].
  - apply length_insert.
Qed.

(** *** The functions of kernel/fs.c *)

Definition quiet {A} (m : M (fsys X U) A) : Prop := forall s, returns m (fun _ s' => same s s') s.

Lemma bread_moved d n s : returns (bread_ d n) (fun _ s' => moved s s' none nolk 1 0) s.
Proof. apply lifttx_moved, tx_bread_bal. Qed.
Lemma brelse_moved b s : returns (brelse_ b) (fun _ s' => moved s s' none nolk (-1) 0) s.
Proof. apply lifttx_moved, tx_brelse_bal. Qed.
Lemma data_quiet b : quiet (data_ b).
Proof. intros s. apply lifttx_moved, tx_data_bal. Qed.
Lemma set_quiet b d : quiet (set_ b d).
Proof. intros s. apply lifttx_moved, tx_set_bal. Qed.
Lemma log_write_quiet b : quiet (log_write_ b).
Proof. intros s. apply lifttx_moved, tx_log_write_bal. Qed.
Lemma setino_quiet ip f : (forall x, i_ref (f x) = i_ref x) -> (forall x, i_lock (f x) = i_lock x) -> quiet (modify (setino ip f)).
Proof. intros H1 H2 s. apply safe_modify. by apply setino_same. Qed.
Lemma begin_moved s : returns (lifttx tx_begin_op) (fun _ s' => moved s s' none nolk 0 1) s.
Proof. apply lifttx_moved, tx_begin_bal. Qed.
Lemma end_moved s : returns (lifttx tx_end_op) (fun _ s' => moved s s' none nolk 0 (-1)) s.
Proof. apply lifttx_moved, tx_end_bal. Qed.
End Balance.
Abbreviation same s s' := (moved s s' none nolk 0 0).

Create HintDb moved.
#[export] Hint Resolve bread_moved brelse_moved begin_moved end_moved : moved.
#[export] Hint Extern 1 (safe _ (data_ _) _ _) => apply data_quiet : moved.
#[export] Hint Extern 1 (safe _ (set_ _ _) _ _) => apply set_quiet : moved.
#[export] Hint Extern 1 (safe _ (log_write_ _) _ _) => apply log_write_quiet : moved.

(** Joins the changes from the state at the start to the state of the goal. *)
Ltac mjoin :=
  repeat match goal with
  | H1 : moved ?s ?s1 _ _ _ _, H2 : moved ?s1 ?s2 _ _ _ _ |- moved ?s ?s3 _ _ _ _ =>
      let H := fresh "H" in pose proof (fmoved_trans _ _ _ _ _ _ _ _ _ _ _ H1 H2) as H; clear H1 H2; cbn beta in H
  end.
(** The length of the inode table does not change. *)
Ltac mlen :=
  repeat match goal with
  | H : moved ?s ?s' _ _ _ _ |- context [length (f_ino ?s')] => rewrite (mv_len _ _ _ _ _ _ H)
  | H : moved ?s ?s' _ _ _ _, H' : context [length (f_ino ?s')] |- _ => rewrite (mv_len _ _ _ _ _ _ H) in H'
  end; first [done | lia].
Ltac msolve :=
  intros; cbn beta; unfold one, none, lk1, nolk, id; cbn beta; repeat case_decide; cbn [default from_option id]; subst; first [done | lia | congruence | idtac].
Ltac mdone :=
  mjoin;
  match goal with
  | H : moved ?s ?s' _ _ _ _ |- moved ?s ?s' _ _ _ _ => refine (moved_ext _ _ _ _ _ _ _ _ _ _ H _ _ _ _); msolve
  | |- moved ?s ?s _ _ _ _ => refine (moved_ext _ _ _ _ _ _ _ _ _ _ (fsame_refl s) _ _ _ _); msolve
  end.
(** Runs the next call, by its lemma in the hint database. *)
Ltac mcall := eapply safe_conseq; [solve [eauto 3 with moved]|]; cbn beta; intros; destruct_and?.
Ltac mstep :=
  cbn beta;
  lazymatch goal with
  | |- safe _ (bind _ _) _ _ => apply safe_bind; mstep
  | |- safe _ (ret _) _ _ => apply safe_ret
  | |- safe _ get _ _ => apply safe_get
  | |- safe _ (gets _) _ _ => apply safe_gets
  | |- safe _ (modify (setino _ _)) _ _ => eapply safe_conseq; [apply setino_quiet; intros; reflexivity|]; cbn beta; intros
  | |- safe _ (modify _) _ _ => apply safe_modify
  | |- safe _ (sleepon _) _ _ => exact I
  | |- safe _ (panic _) _ _ => exact I
  | |- safe _ (undef _) _ _ => exact I
  | |- safe _ nofuel _ _ => exact I
  | |- safe _ (if ?b then _ else _) _ _ => destruct b eqn:?
  | |- safe _ (let '(_, _) := ?b in _) _ _ => destruct b eqn:?
  | |- safe _ (match ?b with Some _ => _ | None => _ end) _ _ => destruct b eqn:?
  | |- safe _ _ _ _ => mcall
  end.
Ltac msteps := repeat mstep.

Section Fs.
Context {X U : Type} `{TB : TxBalance X} `{UV : UmView U}.
Implicit Types (s : fsys X U) (i j ip dp : nat).

Lemma bzero_quiet d b : quiet (bzero d b).
Proof. intros s. unfold bzero. msteps. mdone. Qed.
#[local] Hint Extern 1 (safe _ (bzero _ _) _ _) => apply bzero_quiet : moved.

Lemma balloc_quiet d : quiet (balloc d).
Proof.
  intros s. unfold balloc. mstep. apply safe_bind.
  eapply safe_conseq; [apply (safe_floop _ (fun s' => same s s') (fun _ s' => same s s')); [apply fsame_refl| |done]|intros; by apply safe_ret].
  intros k s1 H1. msteps; mdone.
Qed.
#[local] Hint Extern 1 (safe _ (balloc _) _ _) => apply balloc_quiet : moved.

Lemma bfree_quiet d b : quiet (bfree d b).
Proof. intros s. unfold bfree. msteps. mdone. Qed.
#[local] Hint Extern 1 (safe _ (bfree _ _) _ _) => apply bfree_quiet : moved.

Lemma iget_scan_range l dev inum k e r :
  iget_scan l dev inum k e = r ->
  match r with
  | inl i => (k <= i < k + length l)%nat
  | inr (Some i) => e = Some i \/ (k <= i < k + length l)%nat /\ i_ref (nth (i - k) l inode0) = 0
  | inr None => True
  end.
Proof.
  revert k e. induction l as [|x l IH]; intros k e; simpl; [intros <-; by destruct e; [left|]|].
  destruct (_ && _); [intros <-; lia|]. intros H. apply IH in H. destruct r as [i|[i|]]; [lia| |done].
  destruct H as [H|[H1 H2]].
  - destruct e; [by left|]. destruct (Z.eqb_spec (i_ref x) 0); [|done]. injection H as <-. right. rewrite Nat.sub_diag. split; [lia|done].
  - right. split; [lia|]. destruct (i - k)%nat eqn:E; [lia|]. by replace (i - S k)%nat with n in H2 by lia.
Qed.

Lemma iget_moved d n s : returns (iget d n) (fun ip s' => moved s s' (one ip) nolk 0 0 /\ (ip < length (f_ino s))%nat) s.
Proof.
  unfold iget. mstep. destruct (iget_scan (f_ino s) d n 0 None) as [ip|[ip|]] eqn:E; apply iget_scan_range in E; simpl in E; [| |done].
  - apply safe_bind, safe_modify, safe_ret. split; [|lia]. eapply moved_ext; [apply (setino_ref ip _ 1); [lia|done|done]|msolve..].
  - destruct E as [|[E1 E2]]; [done|]. rewrite Nat.sub_0_r in E2. apply safe_bind, safe_modify, safe_ret. split; [|lia].
    eapply moved_ext; [apply (setino_ref ip _ 1); [lia| |done]|msolve..]. unfold inoat. rewrite E2. done.
Qed.

Lemma idup_moved ip s : (ip < length (f_ino s))%nat -> returns (idup ip) (fun r s' => moved s s' (one ip) nolk 0 0 /\ r = ip) s.
Proof. intros H. unfold idup. apply safe_bind, safe_modify, safe_ret. split; [|done]. eapply moved_ext; [apply (setino_ref ip _ 1); [lia|done|done]|msolve..]. Qed.

Lemma iupdate_quiet ip : quiet (iupdate ip).
Proof. intros s. unfold iupdate. msteps. mdone. Qed.
#[local] Hint Extern 1 (safe _ (iupdate _) _ _) => apply iupdate_quiet : moved.

Lemma inoat_range s ip : i_ref (inoat s ip) <> 0 -> (ip < length (f_ino s))%nat.
Proof. intros H. destruct (decide (ip < length (f_ino s))%nat); [done|]. destruct H. unfold inoat. by rewrite nth_overflow by lia. Qed.

Lemma acquire_moved ip c pid s :
  (ip < length (f_ino s))%nat ->
  returns (on_ilock ip (acquiresleep c pid)) (fun _ s' => moved s s' none (lk1 ip true) 0 0 /\ lk s ip = false) s.
Proof.
  intros Hl. unfold on_ilock, acquiresleep. apply safe_zoom. mstep. destruct (sl_locked (i_lock (inoat s ip))) eqn:E; [done|]. mstep.
  split; [|exact E]. apply setino_lock; lia.
Qed.

Lemma release_moved ip s :
  (ip < length (f_ino s))%nat -> returns (on_ilock ip releasesleep) (fun _ s' => moved s s' none (lk1 ip false) 0 0) s.
Proof. intros Hl. unfold on_ilock, releasesleep. apply safe_zoom. mstep. apply setino_lock; lia. Qed.

Lemma ilock_moved ip s :
  returns (ilock (Some ip)) (fun _ s' => moved s s' none (lk1 ip true) 0 0 /\ lk s ip = false /\ (ip < length (f_ino s))%nat) s.
Proof.
  unfold ilock. mstep. destruct (Z.ltb_spec (i_ref (inoat s ip)) 1); [done|]. pose proof (inoat_range s ip ltac:(lia)) as Hl.
  apply safe_bind. eapply safe_conseq; [by apply acquire_moved|]. cbn beta. intros _ s1 [H1 Hk]. msteps; (split; [mdone|done]).
Qed.
#[local] Hint Resolve ilock_moved iget_moved : moved.

Lemma iunlock_moved ip s :
  returns (iunlock (Some ip)) (fun _ s' => moved s s' none (lk1 ip false) 0 0) s.
Proof.
  unfold iunlock. mstep. apply safe_bind. unfold on_ilock at 1, holdingsleep. apply safe_zoom, safe_gets.
  destruct (_ && _); [|done]. simpl. destruct (Z.ltb_spec (i_ref (inoat s ip)) 1); [done|]. pose proof (inoat_range s ip ltac:(lia)) as Hl.
  set (s1 := setino _ _ s). assert (H1 : same s s1).
  { subst s1. split; simpl; try done; try apply (fsame_refl s).
    - intros j. unfold rf, none. rewrite inoat_setino. case_decide as E; [destruct E as [-> _]; simpl|]; lia.
    - intros j. unfold lk. rewrite inoat_setino. by case_decide as E; [destruct E as [-> _]|].
    - apply length_insert. }
  eapply safe_conseq; [apply release_moved; mlen|]. cbn beta. intros _ s2 H2. mdone.
Qed.
#[local] Hint Resolve iunlock_moved : moved.

Lemma bmap_quiet ip n : quiet (bmap ip n).
Proof. intros s. unfold bmap. msteps; mdone. Qed.
#[local] Hint Extern 1 (safe _ (bmap _ _) _ _) => apply bmap_quiet : moved.

Lemma itrunc_quiet ip : quiet (itrunc ip).
Proof.
  intros s. unfold itrunc. apply safe_bind. eapply safe_conseq; [apply (safe_each _ (fun s' => same s s')); [apply fsame_refl|]|].
  { intros k s1 H1. msteps; mdone. }
  cbn beta. intros _ s1 H1. mstep. apply safe_bind. eapply (safe_conseq _ (fun _ s' => same s s')).
  - msteps; [mdone|]. apply safe_bind. eapply safe_conseq; [apply (safe_each _ (fun s' => moved s s' none nolk 1 0)); [mdone|]|].
    + intros k s3 H3. msteps; mdone.
    + cbn beta. intros _ s3 H3. msteps. mdone.
  - intros _ s2 H2. msteps. mdone.
Qed.
#[local] Hint Extern 1 (safe _ (itrunc _) _ _) => apply itrunc_quiet : moved.

Lemma iput_moved ip s :
  (ip < length (f_ino s))%nat -> returns (iput ip) (fun _ s' => moved s s' (fun j => - one ip j) nolk 0 0) s.
Proof.
  intros Hl. unfold iput. mstep. apply safe_bind. eapply (safe_conseq _ (fun _ s' => same s s')).
  - destruct (_ && _); [|mstep; apply fsame_refl]. apply safe_bind. eapply safe_conseq; [by apply acquire_moved|]. cbn beta. intros _ s1 [H1 Hk].
    mstep. mstep. mstep. mstep. eapply safe_conseq; [apply release_moved|].
    + mlen.
    + cbn beta. intros. mdone.
  - intros _ s1 H1. apply safe_modify.
    assert (H2 : moved s1 (setino ip (fun x => x <| i_ref := i_ref x - 1 |>) s1) (fun j => -1 * one ip j) nolk 0 0).
    { apply setino_ref; [mlen|simpl; lia|done]. }
    mdone.
Qed.

Lemma iunlockput_moved ip s :
  (ip < length (f_ino s))%nat -> returns (iunlockput ip) (fun _ s' => moved s s' (fun j => - one ip j) (lk1 ip false) 0 0) s.
Proof.
  intros Hl. unfold iunlockput. mstep. eapply safe_conseq; [apply iput_moved; mlen|]. cbn beta. intros. mdone.
Qed.

Lemma either_copyout_quiet dst t src out : quiet (either_copyout dst t src out).
Proof.
  intros s. unfold either_copyout. destruct dst; [mstep; apply fsame_refl|]. apply safe_bind.
  eapply safe_conseq; [apply liftum_moved, um_copyout_uv|]. cbn beta. intros. by mstep.
Qed.
Lemma either_copyin_quiet src t n : quiet (either_copyin src t n).
Proof. intros s. unfold either_copyin. destruct src; [mstep; apply fsame_refl|]. apply liftum_moved, um_copyin_uv. Qed.
#[local] Hint Extern 1 (safe _ (either_copyout _ _ _ _) _ _) => apply either_copyout_quiet : moved.
#[local] Hint Extern 1 (safe _ (either_copyin _ _ _) _ _) => apply either_copyin_quiet : moved.

Lemma readi_loop_quiet fuel ip dst n tot off out : quiet (readi_loop fuel ip dst n tot off out).
Proof.
  revert tot off out. induction fuel as [|fuel IH]; intros tot off out s; [done|]. simpl.
  assert (Hrec : forall a b c s', same s s' -> returns (readi_loop fuel ip dst n a b c) (fun _ s'' => same s s'') s').
  { intros a b c s' H. eapply safe_conseq; [apply IH|]. cbn beta. intros. mdone. }
  msteps; first [mdone | idtac].
  all: try (apply Hrec; mdone).
Qed.

Lemma readi_quiet ip dst off n : quiet (readi ip dst off n).
Proof. intros s. unfold readi. mstep. mstep; [mstep; apply fsame_refl|]. apply readi_loop_quiet. Qed.
#[local] Hint Extern 1 (safe _ (readi _ _ _ _) _ _) => apply readi_quiet : moved.

Lemma writei_loop_quiet fuel ip src n tot off : quiet (writei_loop fuel ip src n tot off).
Proof.
  revert tot off. induction fuel as [|fuel IH]; intros tot off s; [done|]. simpl.
  assert (Hrec : forall a b s', same s s' -> returns (writei_loop fuel ip src n a b) (fun _ s'' => same s s'') s').
  { intros a b s' H. eapply safe_conseq; [apply IH|]. cbn beta. intros. mdone. }
  msteps; first [mdone | idtac].
  all: try (apply Hrec; mdone).
Qed.
#[local] Hint Extern 1 (safe _ (writei_loop _ _ _ _ _ _) _ _) => apply writei_loop_quiet : moved.

Lemma writei_quiet ip src off n : quiet (writei ip src off n).
Proof. intros s. unfold writei. msteps; mdone. Qed.
#[local] Hint Extern 1 (safe _ (writei _ _ _ _) _ _) => apply writei_quiet : moved.

(** The inode a lookup gives comes with a reference. *)
Definition got {A} (f : A -> nat) (r : option A) : nat -> Z := match r with Some a => one (f a) | None => none end.
Definition inrange {A} (f : A -> nat) (r : option A) (n : nat) : Prop := match r with Some a => (f a < n)%nat | None => True end.
Ltac mfin := cbn [got inrange fst snd]; split_and?; first [done | mdone | mlen].

Lemma dirlookup_loop_moved fuel dp name off s :
  returns (dirlookup_loop fuel dp name off) (fun r s' => moved s s' (got fst r) nolk 0 0 /\ inrange fst r (length (f_ino s))) s.
Proof. revert off s. induction fuel as [|fuel IH]; intros off s; [done|]. simpl. msteps; mfin. Qed.
#[local] Hint Resolve dirlookup_loop_moved : moved.

Lemma dirlookup_moved dp name s :
  returns (dirlookup dp name) (fun r s' => moved s s' (got fst r) nolk 0 0 /\ inrange fst r (length (f_ino s))) s.
Proof. unfold dirlookup. msteps; mfin. Qed.
#[local] Hint Resolve dirlookup_moved : moved.

Lemma dirlink_loop_quiet fuel dp off : quiet (dirlink_loop fuel dp off).
Proof. revert off. induction fuel as [|fuel IH]; intros off s; [done|]. simpl. msteps; first [mdone | idtac]. eapply safe_conseq; [apply IH|]. cbn beta. intros. mdone. Qed.
#[local] Hint Extern 1 (safe _ (dirlink_loop _ _ _) _ _) => apply dirlink_loop_quiet : moved.

Lemma dirlink_quiet dp name n : quiet (dirlink dp name n).
Proof.
  intros s. unfold dirlink. mstep. destruct a as [[ip off]|]; cbn [got inrange fst] in *.
  - apply safe_bind. eapply safe_conseq; [apply iput_moved; mlen|]. cbn beta. intros. mstep. mdone.
  - msteps; mdone.
Qed.
#[local] Hint Extern 1 (safe _ (dirlink _ _ _) _ _) => apply dirlink_quiet : moved.

Lemma ialloc_moved d t s :
  returns (ialloc d t) (fun r s' => moved s s' (got id r) nolk 0 0 /\ inrange id r (length (f_ino s))) s.
Proof.
  unfold ialloc. mstep. apply (safe_floop _ (fun s' => same s s')); [apply fsame_refl| |].
  - intros k s1 H1. msteps; mfin.
  - intros s1 H1. mfin.
Qed.
#[local] Hint Resolve ialloc_moved : moved.

(** [namex] gives back every directory it passes through, and the reference to the inode it gives is the caller's. *)
Lemma namex_loop_moved fuel ip path np name s :
  (ip < length (f_ino s))%nat ->
  returns (namex_loop fuel ip path np name)
    (fun r s' => moved s s' (fun j => got id (fst r) j - one ip j) nolk 0 0 /\ inrange id (fst r) (length (f_ino s))) s.
Proof.
  revert ip path name s. induction fuel as [|fuel IH]; intros ip path name s Hl; [done|]. simpl.
  assert (Hput : forall s1 (n' : list Z) μ, moved s s1 none μ 0 0 -> (forall j, default (lk s j) (μ j) = default (lk s j) (lk1 ip true j)) -> lk s ip = false ->
    returns (iunlockput ip ;;; ret (@None nat, n')) (fun r s' => moved s s' (fun j => got id (fst r) j - one ip j) nolk 0 0 /\ inrange id (fst r) (length (f_ino s))) s1).
  { intros s1 n' μ H1 Hμ Hk. apply safe_bind. eapply safe_conseq; [apply iunlockput_moved; mlen|]. cbn beta. intros _ s2 H2. mstep. split; [|done].
    apply (moved_ext _ _ _ none _ (lk1 ip true) _ 0 _ 0) in H1; [mdone|done|done|done|done]. }
  destruct (skipelem path name) as [[path' name']|].
  - mstep. mstep. mstep; [apply (Hput _ _ (lk1 ip true)); done|]. mstep; [mstep; mstep; mfin|].
    mstep. destruct a0 as [[next off]|]; cbn [got inrange fst] in *.
    + apply safe_bind. eapply safe_conseq; [apply iunlockput_moved; mlen|]. cbn beta. intros. eapply safe_conseq; [apply IH; mlen|]. cbn beta. intros r s3 [Hm Hr].
      split; [mdone|mlen].
    + eapply (Hput _ _ (lk1 ip true)); [mdone|done|done].
  - destruct np; [|mstep; mfin]. apply safe_bind. eapply safe_conseq; [by apply iput_moved|]. cbn beta. intros. mstep. mfin.
Qed.

Lemma namex_moved cwd path np name s :
  (cwd < length (f_ino s))%nat ->
  returns (namex cwd path np name) (fun r s' => moved s s' (got id (fst r)) nolk 0 0 /\ inrange id (fst r) (length (f_ino s))) s.
Proof.
  intros Hl. unfold namex. apply safe_bind. eapply (safe_conseq _ (fun ip s' => moved s s' (one ip) nolk 0 0 /\ (ip < length (f_ino s))%nat)).
  - destruct (_ =? _); [apply iget_moved|]. eapply safe_conseq; [by apply idup_moved|]. by intros ? ? [? ->].
  - intros ip s1 [H1 H2]. eapply safe_conseq; [apply namex_loop_moved; mlen|]. cbn beta. intros r s2 [H3 H4]. split; [mdone|mlen].
Qed.

Lemma namei_moved cwd path s :
  (cwd < length (f_ino s))%nat ->
  returns (namei cwd path) (fun r s' => moved s s' (got id r) nolk 0 0 /\ inrange id r (length (f_ino s))) s.
Proof. intros Hl. unfold namei. apply safe_bind. eapply safe_conseq; [by apply namex_moved|]. cbn beta. intros [r n] s1 H. by mstep. Qed.

(** The start of the file system. *)
Lemma ireclaim_quiet dev : quiet (ireclaim dev).
Proof.
  intros s. unfold ireclaim. mstep. apply (safe_each _ (fun s' => same s s')); [apply fsame_refl|]. intros k s1 H1. mstep. mstep. apply safe_bind.
  eapply (safe_conseq _ (fun r s' => moved s s' (got id r) nolk 1 0 /\ inrange id r (length (f_ino s)))); [msteps; mfin|].
  cbn beta. intros [ip|] s3 [H3 Hr]; cbn [got inrange id] in *; [|msteps; mdone]. clear H1 H H0. do 2 mstep. mstep.
  match goal with H : lk ?s4 ip = false, H2 : moved ?s4 _ _ _ _ _ |- _ =>
    assert (Hk : lk s ip = false) by (assert (Hm : moved s s4 (one ip) nolk 0 1) by (clear H2; mdone); by rewrite (mv_lk _ _ _ _ _ _ Hm) in H) end.
  mstep. apply safe_bind.
  eapply safe_conseq; [apply iput_moved; mlen|]. cbn beta. intros. mstep. mdone.
Qed.

Lemma fsinit_quiet dev : quiet (fsinit dev).
Proof.
  assert (Hsb : forall s v, same s (s <| f_sb := v |>)) by (intros s v; destruct (fsame_refl s); split; done).
  intros s. unfold fsinit, readsb. apply safe_bind. mstep. mstep. apply safe_bind, safe_modify.
  match goal with |- safe _ _ _ (upd f_sb ?f ?s1) => pose proof (Hsb s1 (f (f_sb s1))) as H2; set (s2 := upd f_sb f s1) in * end.
  clearbody s2. mstep. mstep. mstep; [done|]. apply safe_bind. eapply safe_conseq; [apply lifttx_moved, tx_initlog_bal|]. cbn beta. intros.
  eapply safe_conseq; [apply ireclaim_quiet|]. cbn beta. intros. mdone.
Qed.
End Fs.

#[export] Hint Resolve ilock_moved iunlock_moved iget_moved dirlookup_moved ialloc_moved : moved.
#[export] Hint Extern 1 (safe _ (iupdate _) _ _) => apply iupdate_quiet : moved.
#[export] Hint Extern 1 (safe _ (readi _ _ _ _) _ _) => apply readi_quiet : moved.
#[export] Hint Extern 1 (safe _ (writei _ _ _ _) _ _) => apply writei_quiet : moved.
#[export] Hint Extern 1 (safe _ (dirlink _ _ _) _ _) => apply dirlink_quiet : moved.
#[export] Hint Extern 1 (safe _ (itrunc _) _ _) => apply itrunc_quiet : moved.
