(* ===== verification/LogBal.v ===== *)
(** The log and the buffer cache keep the counts of Balance.v: locked buffers and open operations. *)

From S2P Require Import CString Prelude Safe Bytes Ring Params Disk Sleeplock Bio LogTx Log LogSpec Tx Fs Balance.

Section Bal.
Context {D : Type} `{BD : BlockDev D}.
Implicit Types (st : bcache D) (s : lstate D) (b i : nat).

Definition locked1 (x : buf) : Z := if sl_locked (b_lock x) then 1 else 0.
Definition nlocked (l : list buf) : Z := zsum locked1 l.

(** All links lead to entries of the array. *)
Definition linked_up st : Prop :=
  length (bc_buf st) = 31%nat /\ forall i, (b_next (bufat st i) < 31)%nat /\ (b_prev (bufat st i) < 31)%nat.

Definition bmoved st st' (d : Z) : Prop := linked_up st -> linked_up st' /\ nlocked (bc_buf st') = nlocked (bc_buf st) + d.

Lemma bmoved_refl st : bmoved st st 0.
Proof. intros H. split; [done|lia]. Qed.

Lemma bmoved_trans st1 st2 st3 d1 d2 : bmoved st1 st2 d1 -> bmoved st2 st3 d2 -> bmoved st1 st3 (d1 + d2).
Proof. intros H1 H2 Hl. destruct (H1 Hl) as [Hl2 ?]. destruct (H2 Hl2). split; [done|lia]. Qed.

Lemma bmoved_eq st st' d d' : bmoved st st' d -> d = d' -> bmoved st st' d'.
Proof. by intros ? <-. Qed.

Lemma bufat_setbuf_at st i f j : bufat (setbuf i f st) j = if decide (j = i /\ (i < length (bc_buf st))%nat) then f (bufat st i) else bufat st j.
Proof.
  unfold setbuf, bufat. simpl. destruct (decide (i < length (bc_buf st))%nat) as [Hl|Hl].
  - destruct (decide (j = i)) as [->|Hne].
    + rewrite decide_True by done. apply nth_lookup_Some. by apply list_lookup_insert_eq.
    + rewrite decide_False by tauto. rewrite !nth_lookup, list_lookup_insert_ne by done. done.
  - rewrite decide_False by tauto. rewrite list_insert_ge by lia. done.
Qed.

Lemma setbuf_moved i f st d :
  (linked_up st -> (b_next (f (bufat st i)) < 31)%nat /\ (b_prev (f (bufat st i)) < 31)%nat) ->
  (linked_up st -> (i < 31)%nat -> locked1 (f (bufat st i)) = locked1 (bufat st i) + d) ->
  (linked_up st -> ~ (i < 31)%nat -> d = 0) -> bmoved st (setbuf i f st) d.
Proof.
  intros Hp Hk Hn Hl. pose proof Hl as [Hlen Hlink]. split; [split|].
  - simpl. by rewrite length_insert.
  - intros j. rewrite bufat_setbuf_at. case_decide; [by apply Hp|apply Hlink].
  - simpl. destruct (decide (i < 31)%nat) as [Hi|Hi].
    + destruct (lookup_lt_is_Some_2 (bc_buf st) i) as [x Hx]; [lia|]. unfold nlocked. rewrite (zsum_insert _ _ _ x) by done.
      specialize (Hk Hl Hi). unfold bufat in Hk. rewrite (nth_lookup_Some _ _ _ _ Hx) in Hk. unfold bufat. rewrite (nth_lookup_Some _ _ _ _ Hx). lia.
    + rewrite list_insert_ge by lia. rewrite (Hn Hl Hi). lia.
Qed.

(** An assignment to a field that is neither the lock nor a link, and one to a link. *)
Lemma setbuf_field i f st :
  (forall x, b_next (f x) = b_next x) -> (forall x, b_prev (f x) = b_prev x) -> (forall x, b_lock (f x) = b_lock x) -> bmoved st (setbuf i f st) 0.
Proof.
  intros H1 H2 H3. apply setbuf_moved; [rewrite H1, H2; intros [_ Hl]; apply Hl|intros; unfold locked1; rewrite H3; lia|done].
Qed.
Lemma setbuf_next i n st : (linked_up st -> (n < 31)%nat) -> bmoved st (setbuf i (fun x => x <| b_next := n |>) st) 0.
Proof. intros H. apply setbuf_moved; simpl; [intros Hl; split; [by apply H|apply Hl]|unfold locked1; simpl; lia|done]. Qed.
Lemma setbuf_prev i n st : (linked_up st -> (n < 31)%nat) -> bmoved st (setbuf i (fun x => x <| b_prev := n |>) st) 0.
Proof. intros H. apply setbuf_moved; simpl; [intros Hl; split; [apply Hl|by apply H]|unfold locked1; simpl; lia|done]. Qed.

Definition bquiet {A} (m : M (bcache D) A) : Prop := forall st, returns m (fun _ st' => bmoved st st' 0) st.

Lemma setbuf_quiet i f :
  (forall x, b_next (f x) = b_next x) -> (forall x, b_prev (f x) = b_prev x) -> (forall x, b_lock (f x) = b_lock x) -> bquiet (modify (setbuf i f)).
Proof. intros H1 H2 H3 st. apply safe_modify. by apply setbuf_field. Qed.

Lemma scan_range p step st fuel i r :
  linked_up st -> (forall x : nat, (step (bufat st x) < 31)%nat) -> (i < 31)%nat -> scan p step st fuel i = Some (Some r) -> (r < 31)%nat.
Proof.
  intros Hl Hs. revert i. induction fuel as [|fuel IH]; intros i Hi; simpl; [done|]. case_decide; [done|].
  destruct (p (bufat st i)); [by intros [= <-]|]. apply IH, Hs.
Qed.

Lemma acquire_bmoved i c pid st :
  (linked_up st -> (i < 31)%nat) -> returns (on_lock i (acquiresleep c pid)) (fun _ st' => bmoved st st' 1) st.
Proof.
  intros Hi. unfold on_lock, acquiresleep. apply safe_zoom. mstep. destruct (sl_locked (b_lock (bufat st i))) eqn:E; [done|]. mstep.
  apply setbuf_moved; simpl; [intros [_ H]; apply H|intros _ _; unfold locked1; simpl; rewrite E; lia|intros H ?; by specialize (Hi H)].
Qed.
End Bal.

(** Joins the changes to the cache. *)
Ltac bjoin :=
  repeat match goal with
  | H1 : bmoved ?s ?s1 _, H2 : bmoved ?s1 ?s2 _ |- bmoved ?s ?s3 _ =>
      let H := fresh "H" in pose proof (bmoved_trans _ _ _ _ _ H1 H2) as H; clear H1 H2
  end.
Ltac bdone :=
  bjoin;
  match goal with
  | H : bmoved ?s ?s' _ |- bmoved ?s ?s' _ => refine (bmoved_eq _ _ _ _ H _); lia
  | |- bmoved ?s ?s _ => apply bmoved_refl
  end.
Ltac bfield := eapply safe_conseq; [apply setbuf_quiet; intros; reflexivity|]; cbn beta; intros.

Section Ops.
Context {D : Type} `{BD : BlockDev D}.
Implicit Types (st : bcache D) (s : lstate D) (b i : nat).

Lemma bmoved_up {A} (m : M (bcache D) A) st d :
  (linked_up st -> returns m (fun _ st' => bmoved st st' d) st) -> returns m (fun _ st' => bmoved st st' d) st.
Proof. unfold safe. intros H. destruct (m st); try done. intros Hl. exact (H Hl Hl). Qed.

Lemma bmoved_up2 {A} (m : M (bcache D) A) st st1 d :
  (linked_up st -> returns m (fun _ st' => bmoved st st' d) st1) -> returns m (fun _ st' => bmoved st st' d) st1.
Proof. unfold safe. intros H. destruct (m st1); try done. intros Hl. exact (H Hl Hl). Qed.

Lemma bget_moved d n st : returns (bget d n) (fun b st' => bmoved st st' 1) st.
Proof.
  apply bmoved_up. intros Hl. unfold bget. mstep. destruct (scan _ b_next st 31 _) as [[b|]|] eqn:E1; [| |done].
  - assert (Hb : (b < 31)%nat) by exact (scan_range _ b_next st 31 _ b Hl (fun x => proj1 (proj2 Hl x)) (proj1 (proj2 Hl _)) E1).
    apply safe_bind. bfield. apply safe_bind. eapply safe_conseq; [by apply acquire_bmoved|cbn beta; intros; mstep; bdone].
  - destruct (scan _ b_prev st 31 _) as [[b|]|] eqn:E2; [|done|done].
    assert (Hb : (b < 31)%nat) by exact (scan_range _ b_prev st 31 _ b Hl (fun x => proj2 (proj2 Hl x)) (proj2 (proj2 Hl _)) E2).
    do 4 (apply safe_bind; bfield). apply safe_bind. eapply safe_conseq; [by apply acquire_bmoved|cbn beta; intros; mstep; bdone].
Qed.

Lemma disk_rw_quiet w b : bquiet (disk_rw w b).
Proof.
  intros st. unfold disk_rw. mstep. apply safe_bind, safe_zoom. unfold safe at 1. destruct (dev_rw _ _ _ _) as [x d| | | |]; try done.
  set (st1 := st <| bc_disk := d |>). assert (H1 : bmoved st st1 0) by (intros H; split; [exact H|simpl; lia]). bfield. bdone.
Qed.

Lemma bread_bmoved d n st : returns (bread d n) (fun _ st' => bmoved st st' 1) st.
Proof.
  unfold bread. apply safe_bind. eapply safe_conseq; [apply bget_moved|]. cbn beta. intros b st1 H1. mstep. mstep; [|mstep; bdone].
  apply safe_bind. eapply safe_conseq; [apply disk_rw_quiet|]. cbn beta. intros _ st2 H2. apply safe_bind. bfield. mstep. bdone.
Qed.

Lemma bset_lock st b lk : lk = b_lock (bufat st b) -> bmoved st (setbuf b (fun x => x <| b_lock := lk |>) st) 0.
Proof. intros ->. apply setbuf_moved; simpl; [intros [_ H]; apply H|intros; unfold locked1; simpl; lia|done]. Qed.

Lemma bwrite_quiet b : bquiet (bwrite b).
Proof.
  intros st. unfold bwrite. mstep. apply safe_bind. unfold on_lock at 1, holdingsleep. apply safe_zoom, safe_gets.
  pose proof (bset_lock st b _ eq_refl) as H1. mstep; [done|]. eapply safe_conseq; [apply disk_rw_quiet|]. cbn beta. intros. bdone.
Qed.

Lemma brelse_bmoved b st : returns (brelse b) (fun _ st' => bmoved st st' (-1)) st.
Proof.
  unfold brelse. mstep. apply safe_bind. unfold on_lock at 1, holdingsleep. apply safe_zoom, safe_gets.
  pose proof (bset_lock st b _ eq_refl) as H1. set (st1 := setbuf b _ st) in *.
  destruct (_ && _) eqn:E; simpl; [|done]. apply andb_true_iff in E as [E _].
  assert (Hb : (b < length (bc_buf st))%nat) by (destruct (decide (b < length (bc_buf st))%nat); [done|]; unfold bufat in E; by rewrite nth_overflow in E by lia).
  assert (E1 : b_lock (bufat st1 b) = b_lock (bufat st b)) by (subst st1; rewrite bufat_setbuf_at; by case_decide).
  apply safe_bind. unfold on_lock, releasesleep. apply safe_zoom, safe_modify. set (st2 := setbuf b _ st1).
  assert (H2 : bmoved st1 st2 (-1)).
  { apply setbuf_moved; simpl; [intros [_ H]; apply H| |].
    - intros _ _. unfold locked1. simpl. rewrite E1, E. lia.
    - intros [Hl _] ?. subst st1. simpl in Hl. rewrite length_insert in Hl. lia. }
  clearbody st1 st2. clear E1. apply safe_bind. bfield. mstep. mstep; [|mstep; bdone].
  assert (Hnext : forall st n, (linked_up st -> (b_next (bufat st n) < 31)%nat)) by (intros st' n Hl; apply Hl).
  assert (Hprev : forall st n, (linked_up st -> (b_prev (bufat st n) < 31)%nat)) by (intros st' n Hl; apply Hl).
  apply safe_bind, safe_modify. pose proof (setbuf_prev (b_next (bufat s' b)) _ s' (Hprev s' b)) as H3. set (st3 := setbuf _ _ s') in *. clearbody st3.
  apply safe_bind, safe_modify. pose proof (setbuf_next (b_prev (bufat st3 b)) _ st3 (Hnext st3 b)) as H4. set (st4 := setbuf _ _ st3) in *. clearbody st4.
  apply safe_bind, safe_modify. pose proof (setbuf_next b _ st4 (Hnext st4 HEAD)) as H5. set (st5 := setbuf _ _ st4) in *. clearbody st5.
  apply safe_bind, safe_modify. pose proof (setbuf_prev b HEAD st5 ltac:(unfold HEAD; lia)) as H6. set (st6 := setbuf _ _ st5) in *. clearbody st6.
  assert (Hb31 : linked_up st -> (b < 31)%nat) by (intros [Hl _]; lia).
  apply bmoved_up2. intros Hl.
  apply safe_bind, safe_modify. pose proof (setbuf_prev (b_next (bufat st6 HEAD)) b st6 (fun _ => Hb31 Hl)) as H7. set (st7 := setbuf _ _ st6) in *. clearbody st7.
  apply safe_modify. pose proof (setbuf_next HEAD b st7 (fun _ => Hb31 Hl)) as H8. bdone.
Qed.

(** ** The log *)

Definition lmoved s s' (b o : Z) : Prop :=
  bmoved (ls_cache s) (ls_cache s') b /\ lg_outstanding (ls_log s') = lg_outstanding (ls_log s) + o.

Lemma lmoved_refl s : lmoved s s 0 0.
Proof. split; [apply bmoved_refl|lia]. Qed.
Lemma lmoved_trans s1 s2 s3 (b1 b2 o1 o2 : Z) : lmoved s1 s2 b1 o1 -> lmoved s2 s3 b2 o2 -> lmoved s1 s3 (b1 + b2) (o1 + o2).
Proof. intros [H1 ?] [H2 ?]. split; [by eapply bmoved_trans|lia]. Qed.
Lemma lmoved_eq s s' (b b' o o' : Z) : lmoved s s' b o -> b = b' -> o = o' -> lmoved s s' b' o'.
Proof. by intros ? <- <-. Qed.

Lemma liftb_lmoved {A} (m : M (bcache D) A) s (b : Z) :
  returns m (fun _ st' => bmoved (ls_cache s) st' b) (ls_cache s) -> returns (liftb m) (fun _ s' => lmoved s s' b 0) s.
Proof. intros H. apply safe_zoom. eapply safe_conseq; [exact H|]. intros a st' Hb. split; [done|simpl; lia]. Qed.
Lemma lbread_lmoved d n s : returns (liftb (bread d n)) (fun _ s' => lmoved s s' 1 0) s.
Proof. apply liftb_lmoved, bread_bmoved. Qed.
Lemma lbrelse_lmoved b s : returns (liftb (brelse b)) (fun _ s' => lmoved s s' (-1) 0) s.
Proof. apply liftb_lmoved, brelse_bmoved. Qed.
Lemma lbwrite_lmoved b s : returns (liftb (bwrite b)) (fun _ s' => lmoved s s' 0 0) s.
Proof. apply liftb_lmoved, bwrite_quiet. Qed.
Lemma lbpin_lmoved b s : returns (liftb (bpin b)) (fun _ s' => lmoved s s' 0 0) s.
Proof. apply liftb_lmoved. unfold bpin. bfield. done. Qed.
Lemma lbunpin_lmoved b s : returns (liftb (bunpin b)) (fun _ s' => lmoved s s' 0 0) s.
Proof. apply liftb_lmoved. unfold bunpin. bfield. done. Qed.
Lemma bdata_lmoved b s : returns (bdata b) (fun _ s' => lmoved s s' 0 0) s.
Proof. unfold bdata. mstep. apply lmoved_refl. Qed.
Lemma bset_lmoved b d s : returns (bset b d) (fun _ s' => lmoved s s' 0 0) s.
Proof. unfold bset. mstep. split; [by apply setbuf_field|simpl; lia]. Qed.
Lemma setlog_lmoved f s : (forall l, lg_outstanding (f l) = lg_outstanding l) -> returns (modify (setlog f)) (fun _ s' => lmoved s s' 0 0) s.
Proof. intros H. apply safe_modify. split; [apply bmoved_refl|simpl; rewrite H; lia]. Qed.
Lemma setlh_lmoved f s : returns (modify (setlh f)) (fun _ s' => lmoved s s' 0 0) s.
Proof. apply safe_modify. split; [apply bmoved_refl|simpl; lia]. Qed.
End Ops.

Create HintDb lmoved.
#[export] Hint Resolve lbread_lmoved lbrelse_lmoved lbwrite_lmoved lbpin_lmoved lbunpin_lmoved bdata_lmoved bset_lmoved setlh_lmoved : lmoved.
Ltac ljoin :=
  repeat match goal with
  | H1 : lmoved ?s ?s1 _ _, H2 : lmoved ?s1 ?s2 _ _ |- lmoved ?s ?s3 _ _ =>
      let H := fresh "H" in pose proof (lmoved_trans _ _ _ _ _ _ _ H1 H2) as H; clear H1 H2
  end.
Ltac ldone :=
  ljoin;
  match goal with
  | H : lmoved ?s ?s' _ _ |- lmoved ?s ?s' _ _ => refine (lmoved_eq _ _ _ _ _ _ H _ _); lia
  | |- lmoved ?s ?s _ _ => apply lmoved_refl
  end.
Ltac lstep :=
  cbn beta;
  lazymatch goal with
  | |- safe _ (bind _ _) _ _ => apply safe_bind; lstep
  | |- safe _ (ret _) _ _ => apply safe_ret
  | |- safe _ get _ _ => apply safe_get
  | |- safe _ (panic _) _ _ => exact I
  | |- safe _ (sleepon _) _ _ => exact I
  | |- safe _ (if ?b then _ else _) _ _ => destruct b eqn:?
  | |- safe _ (modify (setlog _)) _ _ => eapply safe_conseq; [apply setlog_lmoved; intros; reflexivity|]; cbn beta; intros
  | |- safe _ _ _ _ => eapply safe_conseq; [solve [eauto 2 with lmoved]|]; cbn beta; intros
  end.
Ltac lsteps := repeat lstep.

Section Log.
Context {D : Type} `{BD : BlockDev D}.
Implicit Types s : lstate D.

(** A loop each of whose rounds gives back what it takes. *)
Lemma each_lmoved body i n s b :
  (forall k s', returns (body k) (fun _ s'' => lmoved s' s'' 0 0) s') ->
  forall s', lmoved s s' b 0 -> returns (each body i n) (fun _ s'' => lmoved s s'' b 0) s'.
Proof.
  intros Hb s' H. apply (safe_each _ (fun s'' => lmoved s s'' b 0)); [done|]. intros k s1 H1. eapply safe_conseq; [apply Hb|]. cbn beta. intros. ldone.
Qed.

Lemma install_trans_lmoved r s : returns (install_trans r) (fun _ s' => lmoved s s' 0 0) s.
Proof. unfold install_trans. lstep. apply each_lmoved; [|apply lmoved_refl]. intros k s1. lsteps; ldone. Qed.
Lemma write_log_lmoved s : returns write_log (fun _ s' => lmoved s s' 0 0) s.
Proof. unfold write_log. lstep. apply each_lmoved; [|apply lmoved_refl]. intros k s1. lsteps; ldone. Qed.
Lemma write_head_lmoved s : returns write_head (fun _ s' => lmoved s s' 0 0) s.
Proof.
  unfold write_head. do 4 lstep. apply safe_bind. eapply safe_conseq; [apply (each_lmoved _ _ _ s 1)|]; [|ldone|].
  - intros k s4. lsteps; ldone.
  - cbn beta. intros _ s4 H4. lsteps. ldone.
Qed.
#[local] Hint Resolve install_trans_lmoved write_log_lmoved write_head_lmoved : lmoved.

Lemma commit_lmoved s : returns commit (fun _ s' => lmoved s s' 0 0) s.
Proof. unfold commit. lsteps; ldone. Qed.
#[local] Hint Resolve commit_lmoved : lmoved.

Lemma begin_op_lmoved s : returns begin_op (fun _ s' => lmoved s s' 0 1) s.
Proof. unfold begin_op. lstep. lstep; [done|]. lstep; [done|]. apply safe_modify. split; [apply bmoved_refl|simpl; lia]. Qed.

Lemma end_op_lmoved s : returns end_op (fun _ s' => lmoved s s' 0 (-1)) s.
Proof.
  unfold end_op. apply safe_bind, safe_modify. set (s1 := setlog _ s).
  assert (H1 : lmoved s s1 0 (-1)) by (split; [apply bmoved_refl|simpl; lia]). clearbody s1. lsteps; ldone.
Qed.

Lemma log_write_lmoved b s : returns (log_write b) (fun _ s' => lmoved s s' 0 0) s.
Proof. unfold log_write. lsteps; ldone. Qed.

Lemma read_head_lmoved s : returns read_head (fun _ s' => lmoved s s' 0 0) s.
Proof.
  unfold read_head. do 4 lstep. apply safe_bind. eapply (safe_conseq _ (fun _ s' => lmoved s s' 1 0)); [destruct (LOGBLOCKS <? _); [done|apply safe_ret; ldone]|].
  cbn beta. intros _ s3 H3. apply safe_bind. eapply safe_conseq; [apply (each_lmoved _ _ _ s 1)|]; [|ldone|].
  - intros k s4. lsteps; ldone.
  - cbn beta. intros _ s4 H4. lsteps. ldone.
Qed.
#[local] Hint Resolve read_head_lmoved : lmoved.

Lemma initlog_lmoved d sb s : returns (initlog d sb) (fun _ s' => lmoved s s' 0 0) s.
Proof. unfold initlog, recover_from_log. change (BSIZE <=? LOGHEADER_SIZE) with false. lsteps. ldone. Qed.

Lemma lmoved_law s s' b o :
  lmoved s s' b o ->
  linked_up (ls_cache s) -> linked_up (ls_cache s') /\ nlocked (bc_buf (ls_cache s')) = nlocked (bc_buf (ls_cache s)) + b /\
    lg_outstanding (ls_log s') = lg_outstanding (ls_log s) + o.
Proof. intros [Hb Ho] Hl. destruct (Hb Hl). done. Qed.

#[export] Program Instance log_balance : TxBalance (lstate D) := {
  tx_fine s := linked_up (ls_cache s);
  tx_bufs s := nlocked (bc_buf (ls_cache s));
  tx_ops s := lg_outstanding (ls_log s) }.
Next Obligation. intros. eapply safe_conseq; [apply lbread_lmoved|]. intros ? ?. apply lmoved_law. Qed.
Next Obligation. intros. eapply safe_conseq; [apply lbrelse_lmoved|]. intros ? ?. apply lmoved_law. Qed.
Next Obligation. intros. eapply safe_conseq; [apply bdata_lmoved|]. intros ? ?. apply lmoved_law. Qed.
Next Obligation. intros. eapply safe_conseq; [apply bset_lmoved|]. intros ? ?. apply lmoved_law. Qed.
Next Obligation. intros. eapply safe_conseq; [apply log_write_lmoved|]. intros ? ?. apply lmoved_law. Qed.
Next Obligation. intros. eapply safe_conseq; [apply begin_op_lmoved|]. intros ? ?. apply lmoved_law. Qed.
Next Obligation. intros. eapply safe_conseq; [apply end_op_lmoved|]. intros ? ?. apply lmoved_law. Qed.
Next Obligation. intros. eapply safe_conseq; [apply initlog_lmoved|]. intros ? ?. apply lmoved_law. Qed.
End Log.
