(* ===== verification/Riscv.v ===== *)
(** Page and page-table arithmetic: the macros of kernel/riscv.h and
    kernel/memlayout.h on 64-bit words, and what they compute. *)

From S2P Require Import Prelude.

(** kernel/riscv.h:352 *)
Definition PGSIZE : Z := 4096.
(** kernel/riscv.h:353 *)
Definition PGSHIFT : Z := 12.
(** kernel/riscv.h:355 *)
Definition PGROUNDUP (sz : Z) : Z := Z.land (u64 (sz + PGSIZE - 1)) (Z.lnot (PGSIZE - 1)).
(** kernel/riscv.h:356 *)
Definition PGROUNDDOWN (a : Z) : Z := Z.land a (Z.lnot (PGSIZE - 1)).
(** kernel/riscv.h:358 *)
Definition PTE_V : Z := Z.shiftl 1 0.
(** kernel/riscv.h:359 *)
Definition PTE_R : Z := Z.shiftl 1 1.
(** kernel/riscv.h:360 *)
Definition PTE_W : Z := Z.shiftl 1 2.
(** kernel/riscv.h:361 *)
Definition PTE_X : Z := Z.shiftl 1 3.
(** kernel/riscv.h:362 *)
Definition PTE_U : Z := Z.shiftl 1 4.
(** kernel/riscv.h:364-365 *)
Definition PA2PTE (pa : Z) : Z := u64 (Z.shiftl (Z.shiftr pa 12) 10).
(** kernel/riscv.h:367 *)
Definition PTE2PA (pte : Z) : Z := u64 (Z.shiftl (Z.shiftr pte 10) 12).
(** kernel/riscv.h:369 *)
Definition PTE_FLAGS (pte : Z) : Z := Z.land pte 0x3FF.
(** kernel/riscv.h:371-372 *)
Definition PXMASK : Z := 0x1FF.
(** kernel/riscv.h:373 *)
Definition PXSHIFT (level : Z) : Z := PGSHIFT + 9 * level.
(** kernel/riscv.h:374 *)
Definition PX (level va : Z) : Z := Z.land (Z.shiftr va (PXSHIFT level)) PXMASK.
(** kernel/riscv.h:376-380 *)
Definition MAXVA : Z := Z.shiftl 1 (9 + 9 + 9 + 12 - 1).

(** kernel/memlayout.h:21 *)
Definition UART0 : Z := 0x10000000.
(** kernel/memlayout.h:25 *)
Definition VIRTIO0 : Z := 0x10001000.
(** kernel/memlayout.h:29 *)
Definition PLIC : Z := 0x0c000000.
(** kernel/memlayout.h:39 *)
Definition KERNBASE : Z := 0x80000000.
(** kernel/memlayout.h:40 *)
Definition PHYSTOP : Z := KERNBASE + 128 * 1024 * 1024.
(** kernel/memlayout.h:44 *)
Definition TRAMPOLINE : Z := MAXVA - PGSIZE.
(** kernel/memlayout.h:48 *)
Definition KSTACK (p : Z) : Z := TRAMPOLINE - (p + 1) * 2 * PGSIZE.
(** kernel/memlayout.h:59 *)
Definition TRAPFRAME : Z := TRAMPOLINE - PGSIZE.

(** The addresses the linker script kernel/kernel.ld provides: [etext], [_trampoline] and [end].  It
    places them in this order from [KERNBASE] on and aligns the first two to pages. *)
Class Image := {
  im_trampoline : Z;
  im_etext : Z;
  im_end : Z }.

Class ImageOk `{Image} : Prop := {
  im_tramp_page : im_trampoline mod PGSIZE = 0;
  im_etext_page : im_etext = im_trampoline + PGSIZE;
  im_base : KERNBASE <= im_trampoline;
  im_order : im_etext <= im_end;
  im_fits : im_end <= PHYSTOP }.

(** ** What the macros compute *)

Lemma land_ones_high a n : 0 <= n -> Z.land a (Z.lnot (2 ^ n - 1)) = a / 2 ^ n * 2 ^ n.
Proof.
  intros Hn. rewrite <-Z.ldiff_land. replace (2 ^ n - 1) with (Z.ones n) by (rewrite Z.ones_equiv; lia).
  rewrite Z.ldiff_ones_r by done. by rewrite Z.shiftl_mul_pow2, Z.shiftr_div_pow2.
Qed.

Lemma PGROUNDDOWN_eq a : PGROUNDDOWN a = a / 4096 * 4096.
Proof. unfold PGROUNDDOWN, PGSIZE. by apply (land_ones_high a 12). Qed.

Lemma PGROUNDUP_eq sz : 0 <= sz -> sz + 4096 <= 2 ^ 64 -> PGROUNDUP sz = (sz + 4095) / 4096 * 4096.
Proof.
  intros H1 H2. unfold PGROUNDUP, PGSIZE. rewrite u64_id by lia. rewrite (land_ones_high _ 12) by done.
  do 2 f_equal. lia.
Qed.

Lemma PX_eq level va : 0 <= level -> PX level va = va / 2 ^ (12 + 9 * level) mod 512.
Proof.
  intros. unfold PX, PXSHIFT, PGSHIFT, PXMASK. change 0x1FF with (Z.ones 9).
  rewrite Z.land_ones, Z.shiftr_div_pow2 by lia. done.
Qed.

Lemma PX_range level va : 0 <= PX level va < 512.
Proof. unfold PX, PXMASK. change 0x1FF with (Z.ones 9). rewrite Z.land_ones by lia. apply Z.mod_pos_bound. lia. Qed.

(** A page-table entry: a page's address and the flag bits. *)
Lemma PA2PTE_eq pa : 0 <= pa < 2 ^ 64 -> PA2PTE pa = pa / 4096 * 1024.
Proof.
  intros. unfold PA2PTE. rewrite Z.shiftr_div_pow2, Z.shiftl_mul_pow2 by lia.
  change (2 ^ 12) with 4096. change (2 ^ 10) with 1024. apply u64_id. lia.
Qed.

Lemma lor_low a f n : 0 <= n -> 0 <= f < 2 ^ n -> Z.lor (a * 2 ^ n) f = a * 2 ^ n + f.
Proof.
  intros Hn Hf. rewrite <-Z.lxor_lor, Z.add_nocarry_lxor; [done|..].
  all: apply Z.bits_inj'; intros i Hi; rewrite Z.land_spec, Z.bits_0.
  all: destruct (decide (i < n)); [rewrite Z.mul_pow2_bits_low by lia; done|].
  all: rewrite andb_comm; destruct (decide (f = 0)) as [->|]; [by rewrite Z.bits_0|].
  all: rewrite Z.bits_above_log2; [done|lia|]; apply Z.log2_lt_pow2; [lia|].
  all: eapply Z.lt_le_trans; [apply Hf|]; apply Z.pow_le_mono_r; lia.
Qed.

Definition mkpte (pa f : Z) : Z := pa / 4096 * 1024 + f.

Lemma PA2PTE_lor pa f : 0 <= pa < 2 ^ 64 -> 0 <= f < 1024 -> Z.lor (PA2PTE pa) f = mkpte pa f.
Proof. intros. rewrite PA2PTE_eq by done. by apply (lor_low _ _ 10). Qed.

Lemma PTE2PA_mkpte pa f : 0 <= pa < 2 ^ 64 -> pa mod 4096 = 0 -> 0 <= f < 1024 -> PTE2PA (mkpte pa f) = pa.
Proof.
  intros. unfold PTE2PA, mkpte. rewrite Z.shiftr_div_pow2, Z.shiftl_mul_pow2 by lia.
  change (2 ^ 12) with 4096. change (2 ^ 10) with 1024.
  replace ((pa / 4096 * 1024 + f) / 1024) with (pa / 4096) by lia. rewrite u64_id; lia.
Qed.

Lemma land_low a f n k : 0 <= k -> 0 <= f < 2 ^ k -> 0 <= n < 2 ^ k -> Z.land (a * 2 ^ k + f) n = Z.land f n.
Proof.
  intros Hk Hf Hn. apply Z.bits_inj'. intros i Hi. rewrite !Z.land_spec.
  destruct (decide (i < k)).
  - f_equal. rewrite <-(Z.mod_pow2_bits_low (a * 2 ^ k + f) k i) by lia.
    rewrite Z.add_comm, Z.mod_add by lia. by rewrite Z.mod_small.
  - replace (Z.testbit n i) with false; [by rewrite !andb_false_r|].
    destruct (decide (n = 0)) as [->|]; [by rewrite Z.bits_0|].
    symmetry. apply Z.bits_above_log2; [lia|]. apply Z.log2_lt_pow2; [lia|].
    eapply Z.lt_le_trans; [apply Hn|]. apply Z.pow_le_mono_r; lia.
Qed.

Lemma flags_mkpte pa f n : 0 <= f < 1024 -> 0 <= n < 1024 -> Z.land (mkpte pa f) n = Z.land f n.
Proof. intros. by apply (land_low _ _ _ 10). Qed.

Lemma mkpte_range pa f : 0 <= pa < 2 ^ 56 -> 0 <= f < 1024 -> 0 <= mkpte pa f < 2 ^ 54.
Proof. unfold mkpte. lia. Qed.

Lemma log2_lt a n : 0 < n -> 0 <= a < 2 ^ n -> Z.log2 a < n.
Proof. intros Hn Ha. destruct (decide (a = 0)) as [->|]; [done|]. apply Z.log2_lt_pow2; lia. Qed.

Lemma lor_range a b n : 0 < n -> 0 <= a < 2 ^ n -> 0 <= b < 2 ^ n -> 0 <= Z.lor a b < 2 ^ n.
Proof.
  intros Hn Ha Hb. assert (H0 : 0 <= Z.lor a b) by (apply Z.lor_nonneg; lia). split; [done|].
  destruct (decide (Z.lor a b = 0)) as [->|]; [lia|]. apply Z.log2_lt_pow2; [lia|].
  rewrite Z.log2_lor by lia. apply Z.max_lub_lt; by apply log2_lt.
Qed.
