(* ===== verification/Kalloc.v ===== *)
(** The physical page allocator, kernel/kalloc.c.

    Physical memory is a page of bytes for every page address; the free pages
    are linked through their first eight bytes, as in the C code.  [kmem.lock]
    makes each operation atomic and is not part of the state.  The allocator
    implements an abstract list of free pages, [free_list]. *)

From S2P Require Import Prelude Bytes Disk Riscv.

Abbreviation page := (list Z).

(** kernel/kalloc.c:17-24, with the memory behind it. *)
Record kmem := Kmem { km_pages : Z -> page; km_freelist : Z }.
#[export] Instance eta_kmem : Eta kmem := fun m => Kmem (km_pages m) (km_freelist m).

(** A 64-bit load and store, and the store of a page; the address of a page is a multiple of 4096. *)
Definition ld64 (m : kmem) (a : Z) : Z := get64 (km_pages m (PGROUNDDOWN a)) (a mod PGSIZE).
Definition st64 (a v : Z) : M kmem unit :=
  modify (fun m => m <| km_pages := bput (km_pages m) (PGROUNDDOWN a)
                                      (put64 (km_pages m (PGROUNDDOWN a)) (a mod PGSIZE) v) |>).
Definition stpage (a : Z) (p : page) : M kmem unit :=
  modify (fun m => m <| km_pages := bput (km_pages m) a p |>).

(** [memset(pa, c, PGSIZE)] on a page. *)
Definition fill (c : Z) : page := replicate (Z.to_nat PGSIZE) c.
Definition memset_page (pa c : Z) : M kmem unit := stpage pa (fill c).

Section Kalloc.
Context `{IM : Image}.

(** kernel/kalloc.c:46-63 *)
Definition kfree (pa : Z) : M kmem unit :=
  if negb (pa mod PGSIZE =? 0) || (pa <? im_end) || (PHYSTOP <=? pa) then panic "kfree" else
  memset_page pa 1 ;;;
  let* m := get in
  st64 pa (km_freelist m) ;;;
  modify (fun m => m <| km_freelist := pa |>).

(** kernel/kalloc.c:68-82 *)
Definition kalloc : M kmem Z :=
  let* m := get in
  let r := km_freelist m in
  if negb (r =? 0) then
    modify (fun m => m <| km_freelist := ld64 m r |>) ;;;
    memset_page r 5 ;;;
    ret r
  else ret r.

(** The loop of [freerange], kernel/kalloc.c:38-39. *)
Fixpoint freerange_loop (fuel : nat) (p pa_end : Z) : M kmem unit :=
  match fuel with
  | O => nofuel
  | S fuel' =>
      if u64 (p + PGSIZE) <=? pa_end then kfree p ;;; freerange_loop fuel' (u64 (p + PGSIZE)) pa_end
      else ret tt
  end.

(** kernel/kalloc.c:33-40 *)
Definition freerange (pa_start pa_end : Z) : M kmem unit :=
  let p := PGROUNDUP pa_start in
  freerange_loop (S (Z.to_nat ((pa_end - p) / PGSIZE))) p pa_end.

(** kernel/kalloc.c:26-31 *)
Definition kinit : M kmem unit := freerange im_end PHYSTOP.

(** ** The free list *)

(** A page the allocator manages. *)
Definition phys (pa : Z) : Prop := pa mod PGSIZE = 0 /\ im_end <= pa < PHYSTOP.

(** [l] is the chain of [next] pointers from [a]. *)
Fixpoint chain (m : kmem) (a : Z) (l : list Z) : Prop :=
  match l with
  | [] => a = 0
  | p :: l' => a = p /\ chain m (ld64 m p) l'
  end.

Record free_list (m : kmem) (l : list Z) : Prop := {
  fl_chain : chain m (km_freelist m) l;
  fl_nodup : NoDup l;
  fl_phys : Forall phys l;
  fl_pages : forall a, length (km_pages m a) = 4096%nat }.

Lemma free_pages_ok m l a : free_list m l -> Z.of_nat (length (km_pages m a)) = 4096.
Proof. intros H. by rewrite (fl_pages _ _ H). Qed.

Lemma phys_down pa : phys pa -> PGROUNDDOWN pa = pa.
Proof. intros [H _]. rewrite PGROUNDDOWN_eq. unfold PGSIZE in *. lia. Qed.

Lemma length_fill c : length (fill c) = 4096%nat.
Proof. apply length_replicate. Qed.

Lemma chain_ext m m' a l :
  (forall p, p ∈ l -> km_pages m' (PGROUNDDOWN p) = km_pages m (PGROUNDDOWN p)) -> chain m a l -> chain m' a l.
Proof.
  revert a. induction l as [|p l IH]; intros a E; [done|]. intros [-> H]. split; [done|].
  unfold ld64. rewrite E by left. apply IH; [|exact H]. intros q Hq. apply E. by right.
Qed.

Lemma free_down m l p : free_list m l -> p ∈ l -> PGROUNDDOWN p = p.
Proof. intros H Hp. apply phys_down. apply fl_phys in H. by eapply Forall_forall in H. Qed.

(** ** The operations *)
Context {IO : ImageOk}.

Lemma phys_pos pa : phys pa -> 0 < pa < 2 ^ 32.
Proof.
  intros [_ H]. pose proof im_base. pose proof im_order. rewrite im_etext_page in *.
  unfold PHYSTOP, KERNBASE, PGSIZE in *. lia.
Qed.

Lemma kalloc_spec m l :
  free_list m l ->
  wp kalloc (fun r m' =>
    match l with
    | [] => r = 0 /\ m' = m
    | p :: l' => r = p /\ free_list m' l' /\ km_pages m' = bput (km_pages m) p (fill 5)
    end) m.
Proof.
  intros H. unfold kalloc, memset_page, stpage. wp_steps. destruct l as [|p l].
  - destruct H as [Hc _ _ _]. simpl in Hc. rewrite Hc. by wp_steps.
  - pose proof H as [[Hr Hc] Hn Hp Hl]. apply NoDup_cons in Hn as [Hnin Hn].
    apply Forall_cons in Hp as [Hpp Hp]. pose proof (phys_pos _ Hpp). rewrite Hr.
    rewrite (proj2 (Z.eqb_neq p 0)) by lia. simpl. wp_steps. split_and!; [done| |done].
    split; simpl; [|done|done|].
    + eapply chain_ext; [|exact Hc]. intros q Hq. simpl. apply bput_ne.
      rewrite (free_down m (p :: l)); [|done|by right]. by intros ->.
    + intros a. unfold bput. case_decide; [apply length_fill|done].
Qed.

Lemma kfree_spec m l pa :
  free_list m l -> phys pa -> pa ∉ l ->
  wp (kfree pa) (fun _ m' => free_list m' (pa :: l) /\ forall a, a <> pa -> km_pages m' a = km_pages m a) m.
Proof.
  intros H Hp Hnin. unfold kfree, memset_page, stpage, st64. pose proof (phys_down _ Hp) as Hd. pose proof Hp as [Hal Hr].
  rewrite (proj2 (Z.eqb_eq _ _) Hal), (proj2 (Z.ltb_ge _ _)), (proj2 (Z.leb_gt _ _)) by lia. cbn [negb orb].
  wp_steps. rewrite Hd, Hal. simpl. rewrite bput_eq. split.
  - split; simpl.
    + split; [done|]. unfold ld64. simpl. rewrite Hd, bput_eq, Hal, get64_put64; [|lia|rewrite length_fill; lia].
      replace (u64 (km_freelist m)) with (km_freelist m).
      * eapply chain_ext; [|apply H]. intros q Hq. simpl. rewrite (free_down m l) by done.
        rewrite !bput_ne; [done|by intros ->..].
      * symmetry. apply u64_id. pose proof (fl_chain _ _ H) as Hc. pose proof (fl_phys _ _ H) as Hf.
        destruct l as [|q l]; [simpl in Hc; lia|]. destruct Hc as [-> _]. apply Forall_cons in Hf as [Hq _].
        pose proof (phys_pos _ Hq). lia.
    + constructor; [done|apply H].
    + constructor; [done|apply H].
    + intros a. unfold bput. case_decide; [|apply H].
      rewrite length_put64; [apply length_fill|lia|rewrite length_fill; lia].
  - intros a Ha. by rewrite !bput_ne.
Qed.

Lemma kfree_panics m pa : ~ phys pa -> panics (kfree pa) "kfree" m.
Proof.
  intros H. unfold panics, kfree. destruct (Z.eqb_spec (pa mod PGSIZE) 0), (Z.ltb_spec pa im_end), (Z.leb_spec PHYSTOP pa);
    try done. exfalso. apply H. split; [done|lia].
Qed.

Lemma freerange_spec fuel p m l :
  free_list m l -> phys p \/ p = PHYSTOP -> (forall q, q ∈ l -> q < p) -> (Z.to_nat ((PHYSTOP - p) / 4096) < fuel)%nat ->
  wp (freerange_loop fuel p PHYSTOP) (fun _ m' => exists l', free_list m' l' /\
    forall q, q ∈ l' <-> q ∈ l \/ phys q /\ p <= q) m.
Proof.
  revert p m l. induction fuel as [|fuel IH]; intros p m l H Hp Hlt Hf; [lia|].
  assert (Hr : p mod 4096 = 0 /\ 0 < p <= PHYSTOP).
  { destruct Hp as [Hp| ->]; [|by split]. pose proof (phys_pos _ Hp). destruct Hp. unfold PGSIZE in *. lia. }
  unfold PHYSTOP, KERNBASE in Hr, Hf. simpl. rewrite u64_id by (unfold PGSIZE; lia).
  destruct (Z.leb_spec (p + PGSIZE) PHYSTOP) as [Hle|Hgt]; unfold PGSIZE, PHYSTOP, KERNBASE in *.
  - destruct Hp as [Hp|]; [|lia]. wp_step.
    eapply wp_conseq; [apply (kfree_spec m l p); try done; intros Hin; apply Hlt in Hin; lia|].
    intros [] m' (H' & _). eapply wp_conseq; [apply (IH _ m' (p :: l)); try done|].
    + destruct (decide (p + 4096 = 2147483648 + 128 * 1024 * 1024)) as [E|]; [by right|left]. destruct Hp.
      split; unfold PGSIZE, PHYSTOP, KERNBASE in *; lia.
    + intros q Hq. apply elem_of_cons in Hq as [->|Hq]; [lia|]. specialize (Hlt q Hq). lia.
    + lia.
    + intros [] m2 (l' & H2 & E). exists l'. split; [done|]. intros q. rewrite E, elem_of_cons.
      split; [naive_solver lia|]. intros [Hq|[Hq Hpq]]; [by left; right|].
      destruct (decide (q = p)); [by left; left|]. right. split; [done|]. destruct Hq. unfold PGSIZE in *. lia.
  - wp_steps. exists l. split; [done|]. intros q. split; [by left|]. intros [Hq|[Hq Hpq]]; [done|].
    destruct Hq. unfold PGSIZE, PHYSTOP, KERNBASE in *. lia.
Qed.

(** The memory as the boot loader leaves it: pages of bytes, and an empty free list. *)
Definition mem_boot (m : kmem) : Prop :=
  km_freelist m = 0 /\ forall a, length (km_pages m a) = 4096%nat.

Lemma kinit_spec m :
  mem_boot m -> wp kinit (fun _ m' => exists l, free_list m' l /\ forall q, q ∈ l <-> phys q) m.
Proof.
  intros [H0 Hl]. unfold kinit, freerange. pose proof im_base. pose proof im_order. pose proof im_fits.
  pose proof im_etext_page as He. rewrite He in *. unfold PHYSTOP, KERNBASE, PGSIZE in *.
  rewrite PGROUNDUP_eq by lia. set (p := (im_end + 4095) / 4096 * 4096).
  assert (Hp : p mod 4096 = 0 /\ im_end <= p < im_end + 4096) by (unfold p; lia).
  eapply wp_conseq; [apply (freerange_spec _ p m [])|].
  - split; [done|by constructor|done|done].
  - unfold phys, PHYSTOP, KERNBASE, PGSIZE. lia.
  - intros q Hq. by apply elem_of_nil in Hq.
  - unfold PHYSTOP, KERNBASE. lia.
  - intros [] m' (l' & H' & E). exists l'. split; [done|]. intros q. rewrite E. split.
    + intros [Hq|[Hq _]]; [by apply elem_of_nil in Hq|done].
    + intros Hq. right. split; [done|]. destruct Hq. unfold PGSIZE in *. lia.
Qed.

(** ** The allocator and its clients

    A client allocates pages, writes to the pages it owns and frees them; [own] is the set of pages
    handed out and not yet freed. *)
Inductive kstep : kmem * gset Z -> kmem * gset Z -> Prop :=
  | ks_alloc m own r m' : kalloc m = Ok r m' -> r <> 0 -> kstep (m, own) (m', {[r]} ∪ own)
  | ks_full m own m' : kalloc m = Ok 0 m' -> kstep (m, own) (m', own)
  | ks_free m own pa m' : pa ∈ own -> kfree pa m = Ok tt m' -> kstep (m, own) (m', own ∖ {[pa]})
  | ks_write m own pa p m' : pa ∈ own -> length p = 4096%nat -> stpage pa p m = Ok tt m' ->
      kstep (m, own) (m', own).

(** Every page is on the free list or owned, never both. *)
Definition split_pages (s : kmem * gset Z) : Prop :=
  exists l, free_list s.1 l /\ (forall q, q ∈ l -> q ∉ s.2) /\ forall q, phys q <-> q ∈ l \/ q ∈ s.2.

Lemma kstep_split s s' : kstep s s' -> split_pages s -> split_pages s'.
Proof.
  intros [m own r m' E Hr|m own m' E|m own pa m' Hpa E|m own pa p m' Hpa Hlen E] (l & Hl & Hd & Hall); simpl in *.
  - pose proof (kalloc_spec m l Hl) as H. unfold wp in H. rewrite E in H.
    destruct l as [|p l]; [by destruct H|]. destruct H as (-> & Hl' & _). exists l. simpl. split_and!; [done| |].
    + pose proof (fl_nodup _ _ Hl) as Hn. apply NoDup_cons in Hn as [Hn _].
      intros q Hq. rewrite elem_of_union, elem_of_singleton. intros [->|Ho]; [done|]. apply (Hd q); [by right|done].
    + intros q. rewrite Hall, elem_of_cons, elem_of_union, elem_of_singleton. tauto.
  - pose proof (kalloc_spec m l Hl) as H. unfold wp in H. rewrite E in H. destruct l as [|p l].
    + destruct H as [_ ->]. by exists [].
    + destruct H as (<- & _). apply fl_phys, Forall_cons in Hl as [Hp _]. apply phys_pos in Hp. lia.
  - assert (Hp : phys pa) by (apply Hall; by right).
    assert (Hnin : pa ∉ l) by (intros Hin; by apply (Hd pa)).
    pose proof (kfree_spec m l pa Hl Hp Hnin) as H. unfold wp in H. rewrite E in H. destruct H as [Hl' _].
    exists (pa :: l). simpl. split_and!; [done| |].
    + intros q. rewrite elem_of_cons, elem_of_difference, elem_of_singleton. intros [->|Hq]; [tauto|].
      intros [Ho _]. by apply (Hd q).
    + intros q. rewrite Hall, elem_of_cons, elem_of_difference, elem_of_singleton.
      destruct (decide (q = pa)) as [->|]; tauto.
  - injection E as <-. exists l. simpl. split_and!; [|done|done]. destruct Hl as [Hc Hn Hp Hlen'].
    split; simpl; [|done|done|].
    + eapply chain_ext; [|exact Hc]. intros q Hq. simpl. apply bput_ne.
      rewrite phys_down by (by eapply Forall_forall in Hp). intros ->. by apply (Hd pa).
    + intros a. unfold bput. by case_decide.
Qed.

Lemma reachable_split s s' : rtc kstep s s' -> split_pages s -> split_pages s'.
Proof. induction 1; [done|]. intros. apply IHrtc. by eapply kstep_split. Qed.

(** C18. The allocator never hands out a page twice and never loses one.  From boot, after any sequence of
    allocations, writes to owned pages and frees of owned pages: the pages owned are all pages of the
    managed range; [kalloc] returns, with a filled page of that range that nobody owns, leaving the
    contents of every owned page alone, or 0 only when every page is owned; [kfree] of an owned page returns and
    leaves the others alone, and of anything outside the range panics. *)
Theorem kalloc_safe m0 m1 m own :
  mem_boot m0 -> kinit m0 = Ok tt m1 -> rtc kstep (m1, ∅) (m, own) ->
  (forall pa, pa ∈ own -> phys pa) /\
  wp kalloc (fun r m' =>
    ((r = 0 /\ forall pa, phys pa -> pa ∈ own) \/ (phys r /\ (r ∉ own) /\ km_pages m' r = fill 5)) /\
    forall pa, pa ∈ own -> km_pages m' pa = km_pages m pa) m /\
  (forall pa, pa ∈ own ->
     wp (kfree pa) (fun _ m' => forall q, q ∈ own -> q <> pa -> km_pages m' q = km_pages m q) m) /\
  (forall pa, ~ phys pa -> panics (kfree pa) "kfree" m).
Proof.
  intros Hb Hi Hr. assert (H1 : split_pages (m1, ∅)).
  { pose proof (kinit_spec m0 Hb) as H. unfold wp in H. rewrite Hi in H. destruct H as (l & Hl & E).
    exists l. simpl. split_and!; [done|set_solver|]. intros q. rewrite E. set_solver. }
  assert (H : split_pages (m, own)) by (by eapply reachable_split).
  destruct H as (l & Hl & Hd & Hall). simpl in *. split_and!.
  - intros pa Hpa. apply Hall. by right.
  - eapply wp_conseq; [by apply kalloc_spec|]. intros r m'. destruct l as [|p l].
    + intros [-> ->]. split; [left; split; [done|]|done]. intros pa Hpa. apply Hall in Hpa as [Hpa|]; [|done].
      by apply elem_of_nil in Hpa.
    + intros (-> & Hl' & ->). split; [right|].
      * split_and!; [apply Hall; by left; left|apply Hd; by left|apply bput_eq].
      * intros pa Hpa. apply bput_ne. intros ->. by apply (Hd p); [left|].
  - intros pa Hpa. eapply wp_conseq; [apply (kfree_spec m l pa); [done|apply Hall; by right|]|].
    + intros Hin. by apply (Hd pa).
    + intros [] m' [_ E] q _ Hne. by apply E.
  - intros pa. apply kfree_panics.
Qed.
End Kalloc.

(** A machine with three pages for the allocator: the second allocation gives the page below the first. *)
Module Demo.
Definition image : Image := {| im_trampoline := KERNBASE; im_etext := KERNBASE + PGSIZE; im_end := PHYSTOP - 3 * PGSIZE |}.

Lemma image_ok : @ImageOk image.
Proof. split; vm_compute; congruence. Qed.

Definition boot : kmem := Kmem (fun _ => fill 0) 0.
Definition started : kmem := final (@kinit image) boot.
Definition used : kmem := final kalloc started.
End Demo.

Lemma kalloc_safe_witness :
  wp kalloc (fun r m' => r <> PHYSTOP - PGSIZE /\ r <> 0) Demo.used.
Proof.
  destruct (@kalloc_safe Demo.image Demo.image_ok Demo.boot Demo.started Demo.used {[PHYSTOP - PGSIZE]}) as (_ & H & _).
  - split; [reflexivity|]. intros a. reflexivity.
  - vm_compute. reflexivity.
  - eapply rtc_l; [|apply rtc_refl]. rewrite <-(union_empty_r_L {[PHYSTOP - PGSIZE]}).
    apply ks_alloc; [vm_compute; reflexivity|vm_compute; congruence].
  - eapply wp_conseq; [exact H|]. intros r m' [[(-> & Hall)|(Hp & Ho & _)] _].
    + exfalso. specialize (Hall (PHYSTOP - 2 * PGSIZE)). apply elem_of_singleton in Hall; [vm_compute in Hall; congruence|].
      split; [reflexivity|]. split; vm_compute; congruence.
    + split; [intros ->; apply Ho; by apply elem_of_singleton|]. intros ->. destruct Hp as [_ [Hp _]]. by vm_compute in Hp.
Defined.
