(* ===== verification/Vm.v ===== *)
(** Virtual memory, kernel/vm.c: Sv39 page tables in physical memory.

    A page table is the address of a page holding 512 entries of eight bytes; the functions read and
    write the entries in the memory of the allocator.  [myproc()], which
    [vmfault] consults, is an argument; the TLB and the [satp] register are not part of the
    state. *)

From S2P Require Import Prelude Bytes Params Disk Riscv Kalloc.

(** The fields of [struct proc] that kernel/vm.c uses, kernel/proc.h:97-98. *)
Record vproc := Vproc { vp_sz : Z; vp_pagetable : Z }.

(** [(pte & bit) != 0] *)
Definition has (pte bit : Z) : bool := negb (Z.land pte bit =? 0).

Section Vm.
Context `{IM : Image}.

(** The loop of [walk], kernel/vm.c:103-114, entered with the given [level]. *)
Fixpoint walk_levels (level : nat) (pagetable va : Z) (alloc : bool) : M kmem Z :=
  match level with
  | O => ret (pagetable + 8 * PX 0 va)
  | S level' =>
      let pte := pagetable + 8 * PX (Z.of_nat level) va in
      let* m := get in
      if has (ld64 m pte) PTE_V then walk_levels level' (PTE2PA (ld64 m pte)) va alloc
      else if negb alloc then ret 0
      else
        let* pt := kalloc in
        if pt =? 0 then ret 0
        else
          memset_page pt 0 ;;;
          st64 pte (Z.lor (PA2PTE pt) PTE_V) ;;;
          walk_levels level' pt va alloc
  end.

(** kernel/vm.c:85-115 *)
Definition walk (pagetable va : Z) (alloc : bool) : M kmem Z :=
  if MAXVA <=? va then panic "walk" else walk_levels 2 pagetable va alloc.

(** kernel/vm.c:117-138 *)
Definition walkaddr (pagetable va : Z) : M kmem Z :=
  if MAXVA <=? va then ret 0 else
  let* pte := walk pagetable va false in
  if pte =? 0 then ret 0 else
  let* m := get in
  if negb (has (ld64 m pte) PTE_V) then ret 0
  else if negb (has (ld64 m pte) PTE_U) then ret 0
  else ret (PTE2PA (ld64 m pte)).

(** The loop of [mappages], kernel/vm.c:162-173. *)
Fixpoint mappages_loop (fuel : nat) (pagetable a last pa perm : Z) : M kmem Z :=
  match fuel with
  | O => nofuel
  | S fuel' =>
      let* pte := walk pagetable a true in
      if pte =? 0 then ret (-1) else
      let* m := get in
      if has (ld64 m pte) PTE_V then panic "mappages: remap" else
      st64 pte (Z.lor (Z.lor (PA2PTE pa) perm) PTE_V) ;;;
      if a =? last then ret 0
      else mappages_loop fuel' pagetable (u64 (a + PGSIZE)) last (u64 (pa + PGSIZE)) perm
  end.

(** kernel/vm.c:140-174 *)
Definition mappages (pagetable va size pa perm : Z) : M kmem Z :=
  if negb (va mod PGSIZE =? 0) then panic "mappages: va not aligned"
  else if negb (size mod PGSIZE =? 0) then panic "mappages: size not aligned"
  else if size =? 0 then panic "mappages: size"
  else mappages_loop (Z.to_nat (size / PGSIZE)) pagetable va (u64 (u64 (va + size) - PGSIZE)) pa perm.

(** kernel/vm.c:54-62 *)
Definition kvmmap (kpgtbl va pa sz perm : Z) : M kmem unit :=
  let* r := mappages kpgtbl va sz pa perm in
  if negb (r =? 0) then panic "kvmmap" else ret tt.

(** kernel/proc.c:29-44 *)
Definition proc_mapstacks (kpgtbl : Z) : M kmem unit :=
  each (fun p =>
    let* pa := kalloc in
    if pa =? 0 then panic "kalloc" else
    kvmmap kpgtbl (KSTACK p) pa PGSIZE (Z.lor PTE_R PTE_W)) 0 (Z.to_nat NPROC).

(** kernel/vm.c:20-52 *)
Definition kvmmake : M kmem Z :=
  let* kpgtbl := kalloc in
  memset_page kpgtbl 0 ;;;
  kvmmap kpgtbl UART0 UART0 PGSIZE (Z.lor PTE_R PTE_W) ;;;
  kvmmap kpgtbl VIRTIO0 VIRTIO0 PGSIZE (Z.lor PTE_R PTE_W) ;;;
  kvmmap kpgtbl PLIC PLIC 0x4000000 (Z.lor PTE_R PTE_W) ;;;
  kvmmap kpgtbl KERNBASE KERNBASE (im_etext - KERNBASE) (Z.lor PTE_R PTE_X) ;;;
  kvmmap kpgtbl im_etext im_etext (PHYSTOP - im_etext) (Z.lor PTE_R PTE_W) ;;;
  kvmmap kpgtbl TRAMPOLINE im_trampoline PGSIZE (Z.lor PTE_R PTE_X) ;;;
  proc_mapstacks kpgtbl ;;;
  ret kpgtbl.

(** kernel/vm.c:176-187 *)
Definition uvmcreate : M kmem Z :=
  let* pagetable := kalloc in
  if pagetable =? 0 then ret 0 else
  memset_page pagetable 0 ;;;
  ret pagetable.

(** The loop of [uvmunmap], kernel/vm.c:201-211. *)
Fixpoint uvmunmap_loop (fuel : nat) (pagetable a last : Z) (do_free : bool) : M kmem unit :=
  match fuel with
  | O => nofuel
  | S fuel' =>
      if a <? last then
        let* pte := walk pagetable a false in
        let* m := get in
        (if pte =? 0 then ret tt
         else if negb (has (ld64 m pte) PTE_V) then ret tt
         else
           (if do_free then kfree (PTE2PA (ld64 m pte)) else ret tt) ;;;
           st64 pte 0) ;;;
        uvmunmap_loop fuel' pagetable (u64 (a + PGSIZE)) last do_free
      else ret tt
  end.

(** kernel/vm.c:189-212 *)
Definition uvmunmap (pagetable va npages : Z) (do_free : bool) : M kmem unit :=
  if negb (va mod PGSIZE =? 0) then panic "uvmunmap: not aligned"
  else uvmunmap_loop (S (Z.to_nat npages)) pagetable va (u64 (va + npages * PGSIZE)) do_free.

(** kernel/vm.c:242-258 *)
Definition uvmdealloc (pagetable oldsz newsz : Z) : M kmem Z :=
  if oldsz <=? newsz then ret oldsz else
  (if PGROUNDUP newsz <? PGROUNDUP oldsz then
     let npages := s32 ((PGROUNDUP oldsz - PGROUNDUP newsz) / PGSIZE) in
     uvmunmap pagetable (PGROUNDUP newsz) (u64 npages) true
   else ret tt) ;;;
  ret newsz.

(** The loop of [uvmalloc], kernel/vm.c:226-239. *)
Fixpoint uvmalloc_loop (fuel : nat) (pagetable oldsz a newsz xperm : Z) : M kmem Z :=
  match fuel with
  | O => nofuel
  | S fuel' =>
      if a <? newsz then
        let* mem := kalloc in
        if mem =? 0 then
          uvmdealloc pagetable a oldsz ;;;
          ret 0
        else
          memset_page mem 0 ;;;
          let* r := mappages pagetable a PGSIZE mem (Z.lor (Z.lor PTE_R PTE_U) xperm) in
          if negb (r =? 0) then
            kfree mem ;;;
            uvmdealloc pagetable a oldsz ;;;
            ret 0
          else uvmalloc_loop fuel' pagetable oldsz (u64 (a + PGSIZE)) newsz xperm
      else ret newsz
  end.

(** kernel/vm.c:214-240 *)
Definition uvmalloc (pagetable oldsz newsz xperm : Z) : M kmem Z :=
  if newsz <? oldsz then ret oldsz else
  let oldsz := PGROUNDUP oldsz in
  uvmalloc_loop (S (Z.to_nat ((newsz - oldsz + PGSIZE - 1) / PGSIZE))) pagetable oldsz oldsz newsz xperm.

(** kernel/vm.c:260-278; [depth] is the number of levels below. *)
Fixpoint freewalk (depth : nat) (pagetable : Z) : M kmem unit :=
  match depth with
  | O => nofuel
  | S depth' =>
      each (fun i =>
        let* m := get in
        let pte := ld64 m (pagetable + 8 * i) in
        if has pte PTE_V && negb (has pte (Z.lor (Z.lor PTE_R PTE_W) PTE_X)) then
          freewalk depth' (PTE2PA pte) ;;;
          st64 (pagetable + 8 * i) 0
        else if has pte PTE_V then panic "freewalk: leaf"
        else ret tt) 0 512 ;;;
      kfree pagetable
  end.

(** kernel/vm.c:280-288 *)
Definition uvmfree (pagetable sz : Z) : M kmem unit :=
  (if 0 <? sz then uvmunmap pagetable 0 (PGROUNDUP sz / PGSIZE) true else ret tt) ;;;
  freewalk 3 pagetable.

(** The loop of [uvmcopy], kernel/vm.c:304-323, with its error exit. *)
Fixpoint uvmcopy_loop (fuel : nat) (old new i sz : Z) : M kmem Z :=
  match fuel with
  | O => nofuel
  | S fuel' =>
      let err := uvmunmap new 0 (i / PGSIZE) true ;;; ret (-1) in
      if i <? sz then
        let* pte := walk old i false in
        let* m := get in
        if (pte =? 0) || negb (has (ld64 m pte) PTE_V) then uvmcopy_loop fuel' old new (u64 (i + PGSIZE)) sz
        else
          let pa := PTE2PA (ld64 m pte) in
          let flags := PTE_FLAGS (ld64 m pte) in
          let* mem := kalloc in
          if mem =? 0 then err
          else
            let* m := get in
            stpage mem (km_pages m pa) ;;;
            let* r := mappages new i PGSIZE mem flags in
            if negb (r =? 0) then kfree mem ;;; err
            else uvmcopy_loop fuel' old new (u64 (i + PGSIZE)) sz
      else ret 0
  end.

(** kernel/vm.c:290-324 *)
Definition uvmcopy (old new sz : Z) : M kmem Z :=
  uvmcopy_loop (S (Z.to_nat ((sz + PGSIZE - 1) / PGSIZE))) old new 0 sz.

(** kernel/vm.c:326-337 *)
Definition uvmclear (pagetable va : Z) : M kmem unit :=
  let* pte := walk pagetable va false in
  if pte =? 0 then panic "uvmclear" else
  let* m := get in
  st64 pte (Z.land (ld64 m pte) (Z.lnot PTE_U)).

(** kernel/vm.c:475-486 *)
Definition ismapped (pagetable va : Z) : M kmem bool :=
  let* pte := walk pagetable va false in
  if pte =? 0 then ret false else
  let* m := get in
  if has (ld64 m pte) PTE_V then ret true else ret false.

(** kernel/vm.c:448-473 *)
Definition vmfault (p : vproc) (pagetable va : Z) : M kmem Z :=
  if vp_sz p <=? va then ret 0 else
  let va := PGROUNDDOWN va in
  let* b := ismapped pagetable va in
  if b then ret 0 else
  let* mem := kalloc in
  if mem =? 0 then ret 0 else
  memset_page mem 0 ;;;
  let* r := mappages (vp_pagetable p) va PGSIZE mem (Z.lor (Z.lor PTE_W PTE_U) PTE_R) in
  if negb (r =? 0) then kfree mem ;;; ret 0
  else ret mem.

(** [memmove] of [l] to, and of [n] bytes from, a physical address; the bytes are in one page. *)
Definition stbytes (pa : Z) (l : list Z) : M kmem unit :=
  let* m := get in
  stpage (PGROUNDDOWN pa) (splice (km_pages m (PGROUNDDOWN pa)) (pa mod PGSIZE) l).
Definition ldbytes (m : kmem) (pa n : Z) : list Z :=
  slice (km_pages m (PGROUNDDOWN pa)) (pa mod PGSIZE) n.

(** The loop of [copyout], kernel/vm.c:348-374, with [src] the bytes still to copy. *)
Fixpoint copyout_loop (fuel : nat) (p : vproc) (pagetable dstva : Z) (src : list Z) : M kmem Z :=
  match fuel with
  | O => nofuel
  | S fuel' =>
      let len := Z.of_nat (length src) in
      if 0 <? len then
        let va0 := PGROUNDDOWN dstva in
        if MAXVA <=? va0 then ret (-1) else
        let* pa0 := walkaddr pagetable va0 in
        let* pa0 := (if pa0 =? 0 then vmfault p pagetable va0 else ret pa0) in
        if pa0 =? 0 then ret (-1) else
        let* pte := walk pagetable va0 false in
        let* m := get in
        if pte =? 0 then undef "copyout: null pte"
        else if negb (has (ld64 m pte) PTE_W) then ret (-1)
        else
          let n := PGSIZE - (dstva - va0) in
          let n := if len <? n then len else n in
          stbytes (pa0 + (dstva - va0)) (take (Z.to_nat n) src) ;;;
          copyout_loop fuel' p pagetable (u64 (va0 + PGSIZE)) (drop (Z.to_nat n) src)
      else ret 0
  end.

(** kernel/vm.c:339-375 *)
Definition copyout (p : vproc) (pagetable dstva : Z) (src : list Z) : M kmem Z :=
  copyout_loop (S (length src)) p pagetable dstva src.

(** The loop of [copyin], kernel/vm.c:385-402; [dst] is what has been copied. *)
Fixpoint copyin_loop (fuel : nat) (p : vproc) (pagetable : Z) (dst : list Z) (srcva len : Z) : M kmem (list Z * Z) :=
  match fuel with
  | O => nofuel
  | S fuel' =>
      if 0 <? len then
        let va0 := PGROUNDDOWN srcva in
        let* pa0 := walkaddr pagetable va0 in
        let* pa0 := (if pa0 =? 0 then vmfault p pagetable va0 else ret pa0) in
        if pa0 =? 0 then ret (dst, -1) else
        let n := PGSIZE - (srcva - va0) in
        let n := if len <? n then len else n in
        let* m := get in
        copyin_loop fuel' p pagetable (dst ++ ldbytes m (pa0 + (srcva - va0)) n) (u64 (va0 + PGSIZE)) (len - n)
      else ret (dst, 0)
  end.

(** kernel/vm.c:377-403 *)
Definition copyin (p : vproc) (pagetable srcva len : Z) : M kmem (list Z * Z) :=
  copyin_loop (S (Z.to_nat len)) p pagetable [] srcva len.

(** The inner loop of [copyinstr], kernel/vm.c:424-437: the bytes up to and including a NUL, and whether there was one. *)
Fixpoint str_bytes (l : list Z) : list Z * bool :=
  match l with
  | [] => ([], false)
  | c :: l' => if c =? 0 then ([0], true) else let '(s, b) := str_bytes l' in (c :: s, b)
  end.

(** The loop of [copyinstr], kernel/vm.c:415-445. *)
Fixpoint copyinstr_loop (fuel : nat) (pagetable : Z) (dst : list Z) (srcva max : Z) : M kmem (list Z * Z) :=
  match fuel with
  | O => nofuel
  | S fuel' =>
      if 0 <? max then
        let va0 := PGROUNDDOWN srcva in
        let* pa0 := walkaddr pagetable va0 in
        if pa0 =? 0 then ret (dst, -1) else
        let n := PGSIZE - (srcva - va0) in
        let n := if max <? n then max else n in
        let* m := get in
        let '(s, got_null) := str_bytes (ldbytes m (pa0 + (srcva - va0)) n) in
        if got_null then ret (dst ++ s, 0)
        else copyinstr_loop fuel' pagetable (dst ++ s) (u64 (va0 + PGSIZE)) (max - n)
      else ret (dst, -1)
  end.

(** kernel/vm.c:405-446 *)
Definition copyinstr (pagetable srcva max : Z) : M kmem (list Z * Z) :=
  copyinstr_loop (S (Z.to_nat max)) pagetable [] srcva max.

(** kernel/proc.c:174-206; [trapframe] is [p->trapframe]. *)
Definition proc_pagetable (trapframe : Z) : M kmem Z :=
  let* pagetable := uvmcreate in
  if pagetable =? 0 then ret 0 else
  let* r := mappages pagetable TRAMPOLINE PGSIZE im_trampoline (Z.lor PTE_R PTE_X) in
  if r <? 0 then uvmfree pagetable 0 ;;; ret 0 else
  let* r := mappages pagetable TRAPFRAME PGSIZE trapframe (Z.lor PTE_R PTE_W) in
  if r <? 0 then uvmunmap pagetable TRAMPOLINE 1 false ;;; uvmfree pagetable 0 ;;; ret 0
  else ret pagetable.

(** kernel/proc.c:208-216 *)
Definition proc_freepagetable (pagetable sz : Z) : M kmem unit :=
  uvmunmap pagetable TRAMPOLINE 1 false ;;;
  uvmunmap pagetable TRAPFRAME 1 false ;;;
  uvmfree pagetable sz.
End Vm.
