(* ===== verification/VmPt.v ===== *)
(** Page tables as trees, and the correctness of [walk] and [mappages].

    A page table owns a finite set of table pages; [T] gives the table page for a
    level and a prefix of the virtual address.  [leaf] is the last-level entry of a virtual page, 0 where a
    table is missing.  The list of free pages and the table pages together never change as a multiset,
    so nothing leaks and nothing is used twice. *)

From S2P Require Import Prelude Bytes Params Disk Riscv Kalloc Vm.

Abbreviation tables := (gmap (nat * Z) Z).

Definition tpages (T : tables) : list Z := (map_to_list T).*2.

Lemma tpages_insert (T : tables) k pa : T !! k = None -> tpages (<[k := pa]> T) ≡ₚ pa :: tpages T.
Proof. intros H. unfold tpages. by rewrite map_to_list_insert. Qed.

Lemma elem_of_tpages (T : tables) pa : pa ∈ tpages T <-> exists k, T !! k = Some pa.
Proof.
  unfold tpages. rewrite list_elem_of_fmap. split.
  - intros ([k q] & -> & H). apply elem_of_map_to_list in H. by exists k.
  - intros [k H]. exists (k, pa). split; [done|]. by apply elem_of_map_to_list.
Qed.

Lemma tpages_inj (T : tables) k k' pa :
  NoDup (tpages T) -> T !! k = Some pa -> T !! k' = Some pa -> k = k'.
Proof.
  intros Hn H H'. destruct (decide (k = k')) as [|Hne]; [done|]. exfalso.
  rewrite <-(insert_delete_id T k pa H), tpages_insert in Hn by apply lookup_delete_eq.
  apply NoDup_cons in Hn as [Hn _]. apply Hn, elem_of_tpages. exists k'. by rewrite lookup_delete_ne.
Qed.

(** Entry [i] of the table page [pa]. *)
Definition entry (m : kmem) (pa i : Z) : Z := get64 (km_pages m pa) (8 * i).

Definition setent (m : kmem) (pa i v : Z) : kmem :=
  m <| km_pages := bput (km_pages m) pa (put64 (km_pages m pa) (8 * i) v) |>.

(** The position of a virtual address in the tables of a level. *)
Definition vkey (lv : nat) (va : Z) : nat * Z := (lv, va / 2 ^ (21 + 9 * Z.of_nat lv)).

(** The last-level entry of virtual page number [n]. *)
Definition leaf (m : kmem) (T : tables) (n : Z) : Z :=
  match T !! (0%nat, n / 512) with Some p => entry m p (n mod 512) | None => 0 end.

Section Pt.
Context `{IM : Image}.

Record pt_ok (m : kmem) (root : Z) (T : tables) (l : list Z) : Prop := {
  pt_free : free_list m l;
  pt_nodup : NoDup (l ++ tpages T);
  pt_root : T !! (2%nat, 0) = Some root;
  pt_phys k pa : T !! k = Some pa -> phys pa;
  pt_key lv q : is_Some (T !! (lv, q)) -> (lv <= 2)%nat /\ 0 <= q < 512 ^ (2 - Z.of_nat lv);
  pt_parent lv q : is_Some (T !! (lv, q)) -> (lv < 2)%nat -> is_Some (T !! (S lv, q / 512));
  pt_entry lv q pa i : T !! (S lv, q) = Some pa -> 0 <= i < 512 ->
    entry m pa i = match T !! (lv, q * 512 + i) with Some c => mkpte c PTE_V | None => 0 end }.

(** The page table has grown by pages from the free list and its leaf entries are now [L']; no page
    that was neither free nor a table has changed. *)
Record grows (m : kmem) (T : tables) (l : list Z) (m' : kmem) (root : Z) (T' : tables) (l' : list Z)
    (L' : Z -> Z) : Prop := {
  gr_ok : pt_ok m' root T' l';
  gr_sub : T ⊆ T';
  gr_pages : l' ++ tpages T' ≡ₚ l ++ tpages T;
  gr_leaf n : leaf m' T' n = L' n;
  gr_frame a : a ∉ l ++ tpages T -> km_pages m' a = km_pages m a }.

Context {IO : ImageOk}.

Lemma entry_addr pa i : phys pa -> 0 <= i < 512 ->
  PGROUNDDOWN (pa + 8 * i) = pa /\ (pa + 8 * i) mod PGSIZE = 8 * i.
Proof. intros [Ha _] Hi. rewrite PGROUNDDOWN_eq. unfold PGSIZE in *. lia. Qed.

Lemma ld64_entry m pa i : phys pa -> 0 <= i < 512 -> ld64 m (pa + 8 * i) = entry m pa i.
Proof. intros Hp Hi. unfold ld64. by destruct (entry_addr pa i Hp Hi) as [-> ->]. Qed.

Lemma st64_entry m pa i v (Q : unit -> kmem -> Prop) :
  phys pa -> 0 <= i < 512 -> Q tt (setent m pa i v) -> wp (st64 (pa + 8 * i) v) Q m.
Proof. intros Hp Hi HQ. unfold st64. wp_step. by destruct (entry_addr pa i Hp Hi) as [-> ->]. Qed.

Lemma entry_setent m pa i v pb j :
  length (km_pages m pa) = 4096%nat -> 0 <= i < 512 -> 0 <= j < 512 ->
  entry (setent m pa i v) pb j = if decide (pb = pa /\ j = i) then u64 v else entry m pb j.
Proof.
  intros Hl Hi Hj. unfold entry, setent. simpl. unfold bput. case_decide; subst.
  - case_decide as H; [destruct H as [_ ->]; rewrite get64_put64; [done|lia|rewrite Hl; lia]|].
    unfold get64, put64. rewrite slice_splice_other; rewrite ?length_le_bytes, ?Hl; try done; lia.
  - by rewrite decide_False by tauto.
Qed.

Lemma entry_zero pa m i : km_pages m pa = fill 0 -> 0 <= i < 512 -> entry m pa i = 0.
Proof.
  intros E Hi. unfold entry. rewrite E. unfold get64, fill, slice.
  rewrite drop_replicate, take_replicate. by destruct (_ `min` _)%nat as [|[|[|[|[|[|[|[|[|?]]]]]]]]] eqn:?; try done; lia.
Qed.

Lemma free_list_frame m m' l :
  free_list m l -> km_freelist m' = km_freelist m -> (forall a, a ∈ l -> km_pages m' a = km_pages m a) ->
  (forall a, length (km_pages m' a) = 4096%nat) -> free_list m' l.
Proof.
  intros H Ef Ep El. split; [|apply H|apply H|done]. rewrite Ef. eapply chain_ext; [|apply H].
  intros p Hp. rewrite (free_down m l) by done. by apply Ep.
Qed.

Lemma vkey_child lv va : 0 <= va ->
  va / 2 ^ (21 + 9 * Z.of_nat (S lv)) * 512 + PX (Z.of_nat (S lv)) va = va / 2 ^ (21 + 9 * Z.of_nat lv).
Proof.
  intros Hva. rewrite PX_eq by lia. replace (12 + 9 * Z.of_nat (S lv)) with (21 + 9 * Z.of_nat lv) by lia.
  replace (21 + 9 * Z.of_nat (S lv)) with (21 + 9 * Z.of_nat lv + 9) by lia.
  rewrite Z.pow_add_r, <-Z.div_div by lia. change (2 ^ 9) with 512. set (x := va / 2 ^ _). lia.
Qed.

Lemma has_mkpte_V c : has (mkpte c PTE_V) PTE_V = true.
Proof. unfold has. rewrite flags_mkpte by (vm_compute; split; congruence). done. Qed.

Lemma phys_pte pa f : phys pa -> 0 <= f < 1024 -> PTE2PA (mkpte pa f) = pa.
Proof. intros Hp Hf. pose proof (phys_pos _ Hp). apply PTE2PA_mkpte; [lia|apply Hp|done]. Qed.

(** What the entry met at a level of the walk says. *)
Lemma walk_entry m root T l lv va pa :
  pt_ok m root T l -> T !! vkey (S lv) va = Some pa -> 0 <= va ->
  ld64 m (pa + 8 * PX (Z.of_nat (S lv)) va) = match T !! vkey lv va with Some c => mkpte c PTE_V | None => 0 end.
Proof.
  intros H Hk Hva. pose proof (PX_range (Z.of_nat (S lv)) va) as Hpx.
  rewrite ld64_entry by (done || by eapply pt_phys).
  rewrite (pt_entry _ _ _ _ H lv _ pa _ Hk Hpx). by rewrite vkey_child.
Qed.

Lemma vkey_none m root T l lv va :
  pt_ok m root T l -> 0 <= va -> (lv < 2)%nat -> T !! vkey lv va = None -> T !! vkey 0 va = None.
Proof.
  intros H Hva Hlv Hn. destruct lv as [|[|?]]; [done| |lia].
  destruct (T !! vkey 0 va) eqn:E; [|done].
  destruct (pt_parent _ _ _ _ H 0 (va / 2 ^ 21)) as [q Hq]; [by exists z|lia|].
  unfold vkey in Hn. rewrite Z.div_div in Hq by lia. change (21 + 9 * Z.of_nat 1) with 30 in Hn.
  change (2 ^ 21 * 512) with (2 ^ 30) in Hq. congruence.
Qed.

(** The address [walk] returns. *)
Definition pte_addr (T : tables) (va : Z) : Z :=
  match T !! vkey 0 va with Some p => p + 8 * PX 0 va | None => 0 end.

Lemma walk_levels_lookup m root T l va lv pa :
  pt_ok m root T l -> 0 <= va -> (lv <= 2)%nat -> T !! vkey lv va = Some pa ->
  wp (walk_levels lv pa va false) (fun r m' => m' = m /\ r = pte_addr T va) m.
Proof.
  intros H Hva. revert pa. induction lv as [|lv IH]; intros pa Hlv Hk; cbn [walk_levels].
  - wp_steps. split; [done|]. unfold pte_addr. by rewrite Hk.
  - wp_steps. rewrite (walk_entry m root T l) by done. destruct (T !! vkey lv va) as [c|] eqn:E.
    + rewrite has_mkpte_V, phys_pte; [apply IH; [lia|done]|by eapply pt_phys|done].
    + change (has 0 PTE_V) with false. wp_steps. split; [done|].
      unfold pte_addr. by rewrite (vkey_none m root T l lv) by (done || lia).
Qed.

Lemma vkey_top va : 0 <= va < MAXVA -> vkey 2 va = (2%nat, 0).
Proof. intros H. unfold vkey. f_equal. change MAXVA with (2 ^ 38) in H. change (21 + 9 * Z.of_nat 2) with 39. apply Z.div_small. lia. Qed.

Lemma walk_lookup m root T l va :
  pt_ok m root T l -> 0 <= va < MAXVA ->
  wp (walk root va false) (fun r m' => m' = m /\ r = pte_addr T va) m.
Proof.
  intros H Hva. unfold walk. rewrite (proj2 (Z.leb_gt _ _)) by lia.
  eapply walk_levels_lookup; try done; [lia|]. rewrite vkey_top by done. apply H.
Qed.

Lemma pt_inj m root T l k k' pa : pt_ok m root T l -> T !! k = Some pa -> T !! k' = Some pa -> k = k'.
Proof. intros H. apply tpages_inj. pose proof (pt_nodup _ _ _ _ H) as Hn. by apply NoDup_app in Hn as (_ & _ & ?). Qed.

Lemma pt_not_free m root T l k pa : pt_ok m root T l -> T !! k = Some pa -> pa ∉ l.
Proof.
  intros H Hk Hin. pose proof (pt_nodup _ _ _ _ H) as Hn. apply NoDup_app in Hn as (_ & Hn & _).
  apply (Hn pa Hin), elem_of_tpages. by exists k.
Qed.

(** A zeroed page [c] becomes the table of an entry [i] that was empty. *)
Section AddTable.
Variables (m m1 : kmem) (root : Z) (T : tables) (l : list Z) (c : Z) (lv : nat) (q pa i : Z).
Hypothesis Hpt : pt_ok m root T (c :: l).
Hypothesis Hpa : T !! (S lv, q) = Some pa.
Hypothesis Hnew : T !! (lv, q * 512 + i) = None.
Hypothesis Hi : 0 <= i < 512.
Hypothesis Hfree : free_list m1 l.
Hypothesis Hpages : km_pages m1 = bput (km_pages m) c (fill 5).

Let T' : tables := <[(lv, q * 512 + i) := c]> T.
Let m2 : kmem := m1 <| km_pages := bput (km_pages m1) c (fill 0) |>.
Let m' : kmem := setent m2 pa i (mkpte c PTE_V).

Lemma add_c_phys : phys c.
Proof using Hpt. apply pt_free, fl_phys, Forall_cons in Hpt. by destruct Hpt. Qed.

Lemma add_c_new k p : T !! k = Some p -> p <> c.
Proof using Hpt. intros Hk ->. apply (pt_not_free _ _ _ _ _ _ Hpt Hk). by left. Qed.

Lemma add_len a : length (km_pages m2 a) = 4096%nat.
Proof using Hfree. unfold m2. simpl. unfold bput. case_decide; [apply length_fill|]. by apply (fl_pages _ _ Hfree). Qed.

Lemma add_pte : u64 (mkpte c PTE_V) = mkpte c PTE_V.
Proof using Hpt Hi IO. pose proof (phys_pos _ add_c_phys). apply u64_id. unfold mkpte. change PTE_V with 1. lia. Qed.

Lemma add_page a : a <> c -> a <> pa -> km_pages m' a = km_pages m a.
Proof using Hpages. intros H1 H2. unfold m', m2, setent. simpl. rewrite Hpages, !bput_ne by done. done. Qed.

Lemma add_entry k p j : T !! k = Some p -> 0 <= j < 512 ->
  entry m' p j = if decide (k = (S lv, q) /\ j = i) then mkpte c PTE_V else entry m p j.
Proof using Hpt Hpa Hi Hfree Hpages IO.
  intros Hk Hj. unfold m'. rewrite entry_setent by (done || apply add_len).
  assert (E : p = pa <-> k = (S lv, q)).
  { split; [intros ->; by eapply pt_inj|]. intros ->. congruence. }
  assert (E2 : entry m2 p j = entry m p j).
  { unfold entry, m2. simpl. rewrite Hpages, !bput_ne by (by eapply add_c_new). done. }
  destruct (decide (p = pa /\ j = i)) as [[-> ->]|Hn].
  - rewrite decide_True by (split; [by apply E|done]). apply add_pte.
  - rewrite decide_False; [done|]. rewrite <-E. done.
Qed.

Lemma add_entry_new j : 0 <= j < 512 -> entry m' c j = 0.
Proof using Hpt Hpa Hi Hfree Hpages IO.
  intros Hj. unfold m'. rewrite entry_setent by (done || apply add_len).
  rewrite decide_False by (intros [E _]; symmetry in E; revert E; by eapply add_c_new).
  apply entry_zero; [|done]. unfold m2. simpl. by rewrite bput_eq.
Qed.

Lemma add_free : free_list m' l.
Proof using Hpt Hpa Hi Hfree Hpages IO.
  pose proof (pt_free _ _ _ _ Hpt) as Hf. apply fl_nodup, NoDup_cons in Hf as [Hc _].
  apply (free_list_frame m1); [done|done| |].
  - intros a Ha. assert (a <> c) by by intros ->.
    rewrite add_page; [by rewrite Hpages, bput_ne|done|]. intros ->.
    apply (pt_not_free _ _ _ _ _ _ Hpt Hpa). by right.
  - intros a. unfold m', setent. cbn [km_pages upd eta_kmem]. destruct (decide (a = pa)) as [->|].
    + rewrite bput_eq, length_put64; [apply add_len|lia|rewrite add_len; lia].
    + rewrite bput_ne by done. apply add_len.
Qed.

Lemma add_tables_ok : pt_ok m' root T' l.
Proof using Hpt Hpa Hnew Hi Hfree Hpages IO.
  assert (Hlv : (lv < 2)%nat) by (destruct (pt_key _ _ _ _ Hpt (S lv) q) as [? _]; [by exists pa|lia]).
  split.
  - apply add_free.
  - unfold T'. rewrite tpages_insert by done. rewrite <-Permutation_middle. apply (pt_nodup _ _ _ _ Hpt).
  - unfold T'. rewrite lookup_insert_ne; [apply Hpt|]. intros [=]. lia.
  - intros k p. unfold T'. rewrite lookup_insert_Some. intros [[_ <-]|[_ Hk]]; [apply add_c_phys|by eapply pt_phys].
  - intros lv' q' [p Hk]. unfold T' in Hk. apply lookup_insert_Some in Hk as [[[= <- <-] _]|[_ Hk]].
    + destruct (pt_key _ _ _ _ Hpt (S lv) q) as [H1 H2]; [by exists pa|]. split; [lia|].
      replace (2 - Z.of_nat lv) with (Z.succ (2 - Z.of_nat (S lv))) by lia. rewrite Z.pow_succ_r by lia. lia.
    + apply (pt_key _ _ _ _ Hpt). by exists p.
  - intros lv' q' [p Hk] Hlv'. unfold T' in Hk |- *. apply lookup_insert_is_Some'. right.
    apply lookup_insert_Some in Hk as [[[= <- <-] _]|[_ Hk]].
    + replace ((q * 512 + i) / 512) with q by lia. by exists pa.
    + apply (pt_parent _ _ _ _ Hpt); [by exists p|done].
  - intros lv' q' p j Hk Hj. unfold T' in Hk. apply lookup_insert_Some in Hk as [[E <-]|[Hne Hk]].
    + rewrite add_entry_new by done. unfold T'. rewrite lookup_insert_ne by (intros [=]; injection E; lia).
      injection E as E1 E2. destruct (T !! (lv', q' * 512 + j)) eqn:Ec; [|done]. exfalso.
      destruct (pt_parent _ _ _ _ Hpt lv' (q' * 512 + j)) as [x Hx]; [by exists z|lia|].
      replace ((q' * 512 + j) / 512) with q' in Hx by lia. rewrite <-E1, <-E2 in Hx. congruence.
    + rewrite (add_entry _ _ _ Hk Hj). case_decide as Hd.
      * destruct Hd as [[= -> ->] ->]. unfold T'. by rewrite lookup_insert_eq.
      * rewrite (pt_entry _ _ _ _ Hpt _ _ _ _ Hk Hj). unfold T'. rewrite lookup_insert_ne; [done|].
        intros [= -> E]. apply Hd. assert (q' = q /\ j = i) as [-> ->] by lia. done.
Qed.

Lemma add_table : grows m T (c :: l) m' root T' l (leaf m T).
Proof using Hpt Hpa Hnew Hi Hfree Hpages IO.
  split.
  - apply add_tables_ok.
  - by apply insert_subseteq.
  - unfold T'. rewrite tpages_insert by done. by rewrite <-Permutation_middle.
  - intros n. unfold leaf, T'. destruct (decide ((lv, q * 512 + i) = (0%nat, n / 512))) as [E|E].
    + rewrite E, lookup_insert_eq. rewrite <-E, Hnew. apply add_entry_new. lia.
    + rewrite lookup_insert_ne by done. destruct (T !! (0%nat, n / 512)) as [p|] eqn:Hk; [|done].
      rewrite (add_entry _ _ _ Hk) by lia. rewrite decide_False; [done|]. by intros [[=] _].
  - intros a Ha. apply add_page.
    + intros ->. apply Ha. by left.
    + intros ->. apply Ha. right. apply elem_of_app. right. apply elem_of_tpages. by exists (S lv, q).
Qed.
End AddTable.

Lemma grows_refl m root T l : pt_ok m root T l -> grows m T l m root T l (leaf m T).
Proof. by split. Qed.

Lemma grows_trans m T l m1 root T1 l1 L1 m2 T2 l2 L2 :
  grows m T l m1 root T1 l1 L1 -> grows m1 T1 l1 m2 root T2 l2 L2 -> grows m T l m2 root T2 l2 L2.
Proof.
  intros [A1 B1 C1 D1 E1] [A2 B2 C2 D2 E2]. split; [done|by etrans|by etrans|done|].
  intros a Ha. rewrite E2, E1; [done|done|]. by rewrite C1.
Qed.

Lemma grows_ext m T l m' root T' l' L1 L2 :
  (forall n, L1 n = L2 n) -> grows m T l m' root T' l' L1 -> grows m T l m' root T' l' L2.
Proof. intros E []. split; try done. intros n. by rewrite <-E. Qed.

(** The tables that are new in [T'] lie on the path to the addresses [P]. *)
Definition tight (T T' : tables) (P : Z -> Prop) : Prop :=
  forall k, is_Some (T' !! k) -> is_Some (T !! k) \/ exists j va, (j < 2)%nat /\ P va /\ k = vkey j va.

Lemma tight_refl T P : tight T T P.
Proof. intros k Hk. by left. Qed.

Lemma tight_trans T T1 T2 (P P1 P2 : Z -> Prop) :
  tight T T1 P1 -> tight T1 T2 P2 -> (forall va, P1 va -> P va) -> (forall va, P2 va -> P va) -> tight T T2 P.
Proof. intros A B H1 H2 k Hk. destruct (B k Hk) as [Hk1|(j & va & ? & ? & ?)]; [destruct (A k Hk1) as [?|(j & va & ? & ? & ?)]; [by left|]|]; right; eauto 6. Qed.

Lemma tight_weaken T T' (P P' : Z -> Prop) : tight T T' P' -> (forall va, P' va -> P va) -> tight T T' P.
Proof. intros A H k Hk. destruct (A k Hk) as [?|(j & va & ? & ? & ?)]; [by left|right; eauto 6]. Qed.

Lemma tight_insert T lv va c : (lv < 2)%nat -> tight T (<[vkey lv va := c]> T) (fun a => a = va).
Proof. intros Hlv k Hk. apply lookup_insert_is_Some in Hk as [<-|[_ Hk]]; [right; eauto 6|by left]. Qed.

(** [walk] with allocation: the address of the last-level entry, or 0 when memory runs out. *)
Lemma walk_levels_alloc root va lv m T l pa :
  pt_ok m root T l -> 0 <= va -> (lv <= 2)%nat -> T !! vkey lv va = Some pa ->
  wp (walk_levels lv pa va true) (fun r m' => exists T' l', grows m T l m' root T' l' (leaf m T) /\ r = pte_addr T' va /\
    (T' !! vkey 0 va = None -> l' = []) /\ (length l <= length l' + lv)%nat /\ tight T T' (fun a => a = va)) m.
Proof.
  revert m T l pa. induction lv as [|lv IH]; intros m T l pa H Hva Hlv Hk; cbn [walk_levels].
  - wp_steps. exists T, l. split_and!; [by apply grows_refl| |congruence|lia|apply tight_refl]. unfold pte_addr. by rewrite Hk.
  - wp_steps. rewrite (walk_entry m root T l) by done. destruct (T !! vkey lv va) as [c|] eqn:E.
    + rewrite has_mkpte_V, phys_pte; [|by eapply pt_phys|done].
      eapply wp_conseq; [apply IH; [done..|lia|done]|]. intros r m' (T' & l' & ? & ? & ? & ? & ?). exists T', l'. split_and!; done || lia.
    + change (has 0 PTE_V) with false. cbn [negb]. wp_step.
      eapply wp_conseq; [apply kalloc_spec, H|]. intros r m1 Hr. destruct l as [|c l].
      * destruct Hr as [-> ->]. simpl. wp_steps.
        exists T, []. split_and!; [by apply grows_refl| |done|simpl; lia|apply tight_refl]. unfold pte_addr.
        by rewrite (vkey_none m root T [] lv) by (done || lia).
      * destruct Hr as (-> & Hf & Hp). pose proof (fl_phys _ _ (pt_free _ _ _ _ H)) as Hph.
        apply Forall_cons in Hph as [Hph _]. pose proof (phys_pos _ Hph).
        rewrite (proj2 (Z.eqb_neq c 0)) by lia. unfold memset_page, stpage. wp_steps.
        rewrite PA2PTE_lor by (done || lia).
        apply st64_entry; [by eapply pt_phys|apply PX_range|].
        pose proof (PX_range (Z.of_nat (S lv)) va) as Hpx.
        unfold vkey in E. rewrite <-vkey_child in E by done.
        pose proof (add_table m m1 root T l c lv _ pa _ H Hk E Hpx Hf Hp) as G.
        rewrite vkey_child in G by done.
        eapply wp_conseq; [eapply IH; [apply G|done|lia|apply lookup_insert_eq]|].
        intros r m3 (T3 & l3 & G3 & Hr3 & Hn3 & Hl3 & Ht3). exists T3, l3. split_and!; try done; [|simpl; lia|].
        2:{ eapply tight_trans; [eapply (tight_insert T lv va c); lia|exact Ht3|done..]. }
        eapply grows_trans; [exact G|]. eapply grows_ext; [|exact G3]. intros n. apply G.
Qed.

Lemma walk_alloc m root T l va :
  pt_ok m root T l -> 0 <= va < MAXVA ->
  wp (walk root va true) (fun r m' => exists T' l', grows m T l m' root T' l' (leaf m T) /\ r = pte_addr T' va /\
    (T' !! vkey 0 va = None -> l' = []) /\ (length l <= length l' + 2)%nat /\ tight T T' (fun a => a = va)) m.
Proof.
  intros H Hva. unfold walk. rewrite (proj2 (Z.leb_gt _ _)) by lia.
  apply walk_levels_alloc; [done|lia|lia|]. rewrite vkey_top by done. apply H.
Qed.

Lemma vkey_vpn va : 0 <= va -> vkey 0 va = (0%nat, va / 4096 / 512).
Proof. intros. unfold vkey. rewrite Z.div_div by lia. done. Qed.

Lemma PX_vpn va : 0 <= va -> PX 0 va = va / 4096 mod 512.
Proof. intros. by rewrite PX_eq. Qed.

(** Reading and storing the last-level entry. *)
Lemma pte_addr_pos m root T l va : pt_ok m root T l -> T !! vkey 0 va <> None -> pte_addr T va <> 0.
Proof.
  intros H Hn. unfold pte_addr. destruct (T !! vkey 0 va) as [p|] eqn:E; [|done].
  pose proof (phys_pos _ (pt_phys _ _ _ _ H _ _ E)). pose proof (PX_range 0 va). lia.
Qed.

Lemma ld64_leaf m root T l va p :
  pt_ok m root T l -> 0 <= va -> T !! vkey 0 va = Some p -> ld64 m (pte_addr T va) = leaf m T (va / 4096).
Proof.
  intros H Hva Hk. unfold pte_addr. rewrite Hk, ld64_entry by (by eapply pt_phys || apply PX_range).
  unfold leaf. rewrite <-vkey_vpn, Hk, PX_vpn by done. done.
Qed.

Lemma set_leaf m root T l va p v :
  pt_ok m root T l -> 0 <= va -> T !! vkey 0 va = Some p -> 0 <= v < 2 ^ 64 ->
  wp (st64 (pte_addr T va) v) (fun _ m' => grows m T l m' root T l (fun n => if decide (n = va / 4096) then v else leaf m T n) /\
    forall a, a ∉ tpages T -> km_pages m' a = km_pages m a) m.
Proof.
  intros H Hva Hk Hv. unfold pte_addr. rewrite Hk. pose proof (PX_range 0 va) as Hpx.
  pose proof (pt_phys _ _ _ _ H _ _ Hk) as Hp. apply st64_entry; [done|done|].
  set (m' := setent m p (PX 0 va) v). pose proof (fl_pages _ _ (pt_free _ _ _ _ H)) as Hlen.
  assert (He : forall pb j, 0 <= j < 512 -> entry m' pb j = if decide (pb = p /\ j = PX 0 va) then v else entry m pb j).
  { intros pb j Hj. unfold m'. rewrite entry_setent by done. by rewrite u64_id by lia. }
  assert (Hfr : forall a, a ∉ tpages T -> km_pages m' a = km_pages m a).
  { intros a Ha. apply bput_ne. intros ->. apply Ha, elem_of_tpages. by eexists. }
  split; [|done]. split; [|done|done| |].
  - split; try apply H.
    + apply (free_list_frame m); [apply H|done| |].
      * intros a Ha. apply bput_ne. intros ->. by eapply pt_not_free.
      * intros a. unfold m', setent. simpl. unfold bput. case_decide; [|done]. rewrite length_put64; rewrite ?Hlen; lia.
    + intros lv q pa i Hq Hi. rewrite He by done. rewrite decide_False; [by eapply pt_entry|].
      intros [-> _]. by pose proof (pt_inj _ _ _ _ _ _ _ H Hq Hk).
  - intros n. unfold leaf. destruct (T !! (0%nat, n / 512)) as [pn|] eqn:En.
    + rewrite He by lia. destruct (decide (n = va / 4096)) as [->|Hne].
      * rewrite <-vkey_vpn in En by done. rewrite decide_True; [done|]. split; [congruence|]. by rewrite PX_vpn.
      * rewrite decide_False; [done|]. intros [-> E]. rewrite PX_vpn in E by done.
        pose proof (pt_inj _ _ _ _ _ _ _ H En Hk) as E2. rewrite vkey_vpn in E2 by done. injection E2 as E2. lia.
    + rewrite decide_False; [done|]. intros ->. rewrite vkey_vpn in Hk by done. congruence.
  - intros a Ha. apply Hfr. intros Hin. apply Ha. apply elem_of_app. by right.
Qed.

(** The leaf entries after [k] pages from page number [n0] have been mapped to consecutive frames from [pa]. *)
Definition mapping (L : Z -> Z) (n0 k pa f : Z) (n : Z) : Z :=
  if decide (n0 <= n < n0 + k) then mkpte (pa + 4096 * (n - n0)) f else L n.

Lemma mapping_nil L n0 pa f n : mapping L n0 0 pa f n = L n.
Proof. unfold mapping. rewrite decide_False by lia. done. Qed.

Lemma mapping_cons L n0 k pa f n :
  0 <= k -> mapping (mapping L n0 1 pa f) (n0 + 1) k (pa + 4096) f n = mapping L n0 (k + 1) pa f n.
Proof.
  intros Hk. unfold mapping. repeat case_decide; try lia; try done; f_equal; lia.
Qed.

(** The flag bits [mappages] stores. *)
Definition vflags (perm : Z) : Z := Z.lor perm PTE_V.

Lemma vflags_range perm : 0 <= perm < 1024 -> 0 <= vflags perm < 1024.
Proof. intros H. apply (lor_range _ _ 10); [done|done|]. by vm_compute. Qed.

Lemma has_vflags pa perm : 0 <= perm < 1024 -> has (mkpte pa (vflags perm)) PTE_V = true.
Proof.
  intros Hf. unfold has. rewrite flags_mkpte by (by apply vflags_range || by vm_compute).
  apply negb_true_iff, Z.eqb_neq. intros E. assert (E2 : Z.testbit (Z.land (vflags perm) PTE_V) 0 = true).
  { unfold vflags. by rewrite Z.land_spec, Z.lor_spec, orb_true_r. }
  by rewrite E in E2.
Qed.

(** One iteration of [mappages]. *)
Lemma mappages_iter root perm fuel last m T l n0 pa (Q : Z -> kmem -> Prop) :
  pt_ok m root T l -> 0 <= n0 -> 4096 * n0 < MAXVA -> 0 <= pa < 2 ^ 56 -> 0 <= perm < 1024 ->
  has (leaf m T n0) PTE_V = false ->
  (forall m1 T1 l1, grows m T l m1 root T1 l1 (mapping (leaf m T) n0 1 pa (vflags perm)) ->
     (length l <= length l1 + 2)%nat -> tight T T1 (fun a => a = 4096 * n0) ->
     wp (if 4096 * n0 =? last then ret 0
         else mappages_loop fuel root (u64 (4096 * n0 + PGSIZE)) last (u64 (pa + PGSIZE)) perm) Q m1) ->
  (forall m1 T1, grows m T l m1 root T1 [] (mapping (leaf m T) n0 0 pa (vflags perm)) -> (length l <= 2)%nat ->
     tight T T1 (fun a => a = 4096 * n0) -> Q (-1) m1) ->
  wp (mappages_loop (S fuel) root (4096 * n0) last pa perm) Q m.
Proof.
  intros H Hn Hmax Hpa Hperm Hfree Hok Herr. cbn [mappages_loop]. wp_step.
  eapply wp_conseq; [apply (walk_alloc m root T l); [done|lia]|]. intros r m1 (T1 & l1 & G1 & -> & Hnone & Hlen & Htight).
  pose proof (gr_ok _ _ _ _ _ _ _ _ G1) as H1. destruct (T1 !! vkey 0 (4096 * n0)) as [p|] eqn:Hk.
  - rewrite (proj2 (Z.eqb_neq _ _)) by (eapply pte_addr_pos; [exact H1|by rewrite Hk]). wp_steps.
    rewrite (ld64_leaf m1 root T1 l1 _ p) by (done || lia). replace (4096 * n0 / 4096) with n0 by lia.
    rewrite (gr_leaf _ _ _ _ _ _ _ _ G1), Hfree by lia.
    pose proof (vflags_range perm Hperm).
    rewrite <-Z.lor_assoc. fold (vflags perm). rewrite PA2PTE_lor by lia.
    wp_step. eapply wp_conseq; [apply (set_leaf m1 root T1 l1 _ p); try done; [lia|unfold mkpte; lia]|].
    replace (4096 * n0 / 4096) with n0 by lia. intros [] m2 [G2 _]. apply (Hok m2 T1 l1); [|done..].
    eapply grows_trans; [exact G1|]. eapply grows_ext; [|exact G2]. intros n. simpl. unfold mapping.
    destruct (decide (n = n0)) as [->|]; [rewrite decide_True by lia; f_equal; lia|rewrite decide_False by lia; apply G1].
  - unfold pte_addr. rewrite Hk. simpl. wp_steps. rewrite Hnone in * by done. apply (Herr m1 T1); [|simpl in Hlen; lia|done].
    eapply grows_ext; [intros n; symmetry; apply mapping_nil|exact G1].
Qed.

(** [mappages] maps the pages one by one; it stops only when memory for a table runs out. *)
Lemma mappages_loop_spec root perm k m T l n0 pa :
  pt_ok m root T l -> 0 <= n0 -> 4096 * (n0 + Z.of_nat (S k)) <= MAXVA -> 0 <= pa -> pa + 4096 * Z.of_nat (S k) <= 2 ^ 56 ->
  0 <= perm < 1024 -> (forall n, n0 <= n < n0 + Z.of_nat (S k) -> has (leaf m T n) PTE_V = false) ->
  wp (mappages_loop (S k) root (4096 * n0) (4096 * (n0 + Z.of_nat k)) pa perm) (fun r m' => exists T' l' j,
    grows m T l m' root T' l' (mapping (leaf m T) n0 j pa (vflags perm)) /\
    (r = 0 /\ j = Z.of_nat (S k) \/ r = -1 /\ 0 <= j < Z.of_nat (S k) /\ l' = []) /\
    (length l <= length l' + 2 * S k)%nat /\ tight T T' (fun a => exists n, a = 4096 * n /\ n0 <= n < n0 + Z.of_nat (S k))) m.
Proof.
  change MAXVA with (2 ^ 38). revert m T l n0 pa.
  induction k as [|k IH]; intros m T l n0 pa H Hn Hmax Hpa Hpa' Hperm Hfree.
  all: apply (mappages_iter root perm _ _ m T l); try done; [change MAXVA with (2 ^ 38); lia|lia|apply Hfree; lia| |].
  2, 4: intros m1 T1 G Hlen Ht; exists T1, [], 0; split_and!; [done|right; split_and!; done || lia|simpl; lia|];
    (eapply tight_weaken; [exact Ht|]; intros va ->; exists n0; split; [done|lia]).
  - intros m1 T1 l1 G Hlen Ht. rewrite (proj2 (Z.eqb_eq _ _)) by lia. wp_steps. exists T1, l1, 1. split_and!; [done|by left|lia|].
    eapply tight_weaken; [exact Ht|]. intros va ->. exists n0. split; [done|lia].
  - intros m1 T1 l1 G Hlen Ht. rewrite (proj2 (Z.eqb_neq _ _)) by lia. rewrite !u64_id by (unfold PGSIZE; lia). unfold PGSIZE.
    replace (4096 * n0 + 4096) with (4096 * (n0 + 1)) by lia.
    replace (n0 + Z.of_nat (S k)) with (n0 + 1 + Z.of_nat k) by lia.
    eapply wp_conseq; [apply (IH m1 T1 l1)|]; try lia.
    + apply G.
    + intros n Hn'. rewrite (gr_leaf _ _ _ _ _ _ _ _ G). unfold mapping. rewrite decide_False by lia. apply Hfree. lia.
    + intros r m3 (T3 & l3 & j & G3 & Hres & Hlen3 & Ht3). exists T3, l3, (j + 1). split_and!; [| |lia|].
      3:{ eapply (tight_trans _ _ _ _ _ _ Ht Ht3); [intros va ->; exists n0; split; [done|lia]|].
          intros va (n & -> & Hn'). exists n. split; [done|lia]. }
      * eapply grows_trans; [exact G|]. eapply grows_ext; [|exact G3]. intros n.
        rewrite <-mapping_cons by lia. unfold mapping at 1 2. case_decide; [done|]. apply G.
      * destruct Hres as [[-> ->]|(-> & Hj & ->)]; [left|right]; split_and!; lia || done.
Qed.

Lemma mappages_spec m root T l n0 k pa perm :
  pt_ok m root T l -> 0 <= n0 -> 0 < k -> 4096 * (n0 + k) <= MAXVA -> 0 <= pa -> pa + 4096 * k <= 2 ^ 56 ->
  0 <= perm < 1024 -> (forall n, n0 <= n < n0 + k -> has (leaf m T n) PTE_V = false) ->
  wp (mappages root (4096 * n0) (4096 * k) pa perm) (fun r m' => exists T' l' j,
    grows m T l m' root T' l' (mapping (leaf m T) n0 j pa (vflags perm)) /\
    (r = 0 /\ j = k \/ r = -1 /\ 0 <= j < k /\ l' = []) /\ (length l <= length l' + 2 * Z.to_nat k)%nat /\
    tight T T' (fun a => exists n, a = 4096 * n /\ n0 <= n < n0 + k)) m.
Proof.
  intros H Hn Hk Hmax Hpa Hpa' Hperm Hfree. unfold mappages, PGSIZE. change MAXVA with (2 ^ 38) in *.
  rewrite !(proj2 (Z.eqb_eq _ 0)) by lia. rewrite (proj2 (Z.eqb_neq _ 0)) by lia. cbn [negb].
  rewrite (u64_id (4096 * n0 + 4096 * k)), u64_id by lia. replace (4096 * k / 4096) with k by lia.
  replace (4096 * n0 + 4096 * k - 4096) with (4096 * (n0 + Z.of_nat (pred (Z.to_nat k)))) by lia.
  replace (Z.to_nat k) with (S (pred (Z.to_nat k))) at 1 by lia.
  eapply wp_conseq; [apply (mappages_loop_spec root perm _ m T l); try done; change MAXVA with (2 ^ 38); try lia|].
  - intros n Hn'. apply Hfree. lia.
  - intros r m' (T' & l' & j & G & Hres & Hlen & Ht). exists T', l', j.
    replace (Z.of_nat (S (pred (Z.to_nat k)))) with k in Hres, Ht by lia. split_and!; [done|done|lia|done].
Qed.

(** The page-table entry [walk] finds for a virtual address, 0 if there is none. *)
Definition pte_of (m : kmem) (root va : Z) : Z :=
  match walk root va false m with
  | Ok a _ => if a =? 0 then 0 else ld64 m a
  | _ => 0
  end.

Lemma pte_of_leaf m root T l va :
  pt_ok m root T l -> 0 <= va < MAXVA -> pte_of m root va = leaf m T (va / 4096).
Proof.
  intros H Hva. unfold pte_of. pose proof (walk_lookup m root T l va H Hva) as W. unfold wp in W.
  destruct (walk root va false m); try done. destruct W as [-> ->].
  destruct (T !! vkey 0 va) as [p|] eqn:E.
  - rewrite (proj2 (Z.eqb_neq _ _)) by (eapply pte_addr_pos; [done|by rewrite E]).
    eapply ld64_leaf; [done|lia|done].
  - unfold pte_addr. rewrite E. simpl. unfold leaf. by rewrite <-vkey_vpn, E by lia.
Qed.

(** [mappages] installs exactly the translations asked for.  On a well-formed page table, for a
    page-aligned range in which nothing is mapped yet, it returns.  With result 0 the entry [walk] finds is, for every address of the
    range, the frame at the same distance from [pa] with the permissions and the valid bit, and for
    every other address what it was; with result -1 the free list is exhausted and addresses outside the range are
    unaffected.  Either way the page table is well formed again, every page is on the free list or
    in the table as before, and no other page of memory has changed.  An unaligned address or
    size, or an empty range, panics. *)
Theorem mappages_correct m root T l va size pa perm :
  pt_ok m root T l -> 0 <= va -> 0 <= size -> va + size <= MAXVA -> 0 <= pa -> pa + size <= 2 ^ 56 -> 0 <= perm < 1024 ->
  (forall a, va <= a < va + size -> has (pte_of m root a) PTE_V = false) ->
  if decide (va mod PGSIZE = 0 /\ size mod PGSIZE = 0 /\ size <> 0) then
    wp (mappages root va size pa perm) (fun r m' => exists T' l',
      pt_ok m' root T' l' /\ l' ++ tpages T' ≡ₚ l ++ tpages T /\
      (forall a, a ∉ l ++ tpages T -> km_pages m' a = km_pages m a) /\
      (forall a, 0 <= a < MAXVA -> ~ (va <= a < va + size) -> pte_of m' root a = pte_of m root a) /\
      (r = 0 /\ (forall a, va <= a < va + size ->
         pte_of m' root a = Z.lor (PA2PTE (pa + (PGROUNDDOWN a - va))) (Z.lor perm PTE_V)) \/
       r = -1 /\ l' = [])) m
  else exists msg, panics (mappages root va size pa perm) msg m.
Proof.
  intros H Hva Hsz Hmax Hpa Hpa' Hperm Hfree. unfold PGSIZE. case_decide as Hc.
  - destruct Hc as (Ha & Hs & Hne). set (n0 := va / 4096). set (k := size / 4096).
    replace va with (4096 * n0) in * by lia. replace size with (4096 * k) in * by lia.
    change MAXVA with (2 ^ 38) in *. eapply wp_conseq; [apply (mappages_spec m root T l n0 k pa perm); change MAXVA with (2 ^ 38); try done; try lia|].
    + intros n Hn. rewrite <-(Hfree (4096 * n)) by lia. rewrite (pte_of_leaf m root T l) by (change MAXVA with (2 ^ 38); done || lia).
      do 2 f_equal. lia.
    + intros r m' (T' & l' & j & G & Hres & _). exists T', l'. split_and!; try apply G.
      * intros a Ha1 Ha2. rewrite (pte_of_leaf m' root T' l'), (pte_of_leaf m root T l); try done; try apply G.
        rewrite (gr_leaf _ _ _ _ _ _ _ _ G). unfold mapping. rewrite decide_False by lia. done.
      * destruct Hres as [[-> ->]|(-> & Hj & ->)]; [left; split; [done|]|by right].
        intros a Ha1. rewrite (pte_of_leaf m' root T' l'); [|apply G|change MAXVA with (2 ^ 38); lia].
        rewrite (gr_leaf _ _ _ _ _ _ _ _ G). unfold mapping. rewrite decide_True by lia.
        rewrite PGROUNDDOWN_eq. fold (vflags perm). rewrite PA2PTE_lor by (by apply vflags_range || lia). f_equal. lia.
  - unfold panics, mappages, PGSIZE. destruct (Z.eqb_spec (va mod 4096) 0); [|by eexists].
    destruct (Z.eqb_spec (size mod 4096) 0); [|by eexists]. destruct (Z.eqb_spec size 0); [by eexists|].
    exfalso. by apply Hc.
Qed.
End Pt.
