(* ===== verification/VmUser.v ===== *)
(** User address spaces: [uvmunmap], [uvmalloc], [uvmdealloc] and their effect on the abstract
    address space, a finite map [A] from virtual page numbers to a frame and its flags.  The free pages, the table pages and
    the frames of the address space are disjoint and together constant. *)

From S2P Require Import Prelude Bytes Params Disk Riscv Kalloc Vm VmPt.

Abbreviation space := (gmap Z (Z * Z)).

(** Virtual page numbers below the trapframe. *)
Definition UPN : Z := TRAPFRAME / 4096.

Definition upages (A : space) : list Z := (fun x => x.2.1) <$> map_to_list A.

Lemma upages_insert (A : space) n pa f : A !! n = None -> upages (<[n := (pa, f)]> A) ≡ₚ pa :: upages A.
Proof. intros H. unfold upages. by rewrite map_to_list_insert. Qed.

Lemma upages_delete (A : space) n pa f : A !! n = Some (pa, f) -> upages A ≡ₚ pa :: upages (delete n A).
Proof. intros H. rewrite <-(insert_delete_id A n (pa, f) H) at 1. apply upages_insert, lookup_delete_eq. Qed.

Lemma elem_of_upages (A : space) pa : pa ∈ upages A <-> exists n f, A !! n = Some (pa, f).
Proof.
  unfold upages. rewrite list_elem_of_fmap. split.
  - intros ([n [q f]] & -> & H). apply elem_of_map_to_list in H. by exists n, f.
  - intros (n & f & H). exists (n, (pa, f)). split; [done|]. by apply elem_of_map_to_list.
Qed.

(** The last-level entry of an address space. *)
Definition apte (A : space) (n : Z) : Z := match A !! n with Some (pa, f) => mkpte pa f | None => 0 end.

(** The address space without the pages [n0] to [n0 + k]. *)
Definition gone (A : space) (n0 k : Z) : space := filter (fun x => ~ (n0 <= x.1 < n0 + k)) A.

Lemma lookup_gone A n0 k n : gone A n0 k !! n = if decide (n0 <= n < n0 + k) then None else A !! n.
Proof.
  unfold gone. rewrite map_lookup_filter. destruct (A !! n) as [x|] eqn:E; simpl.
  - case_guard as Hg; simpl in *; [by rewrite decide_False|]. rewrite decide_True; [done|lia].
  - by case_decide.
Qed.

Lemma gone_step A n0 k : 0 <= k -> gone (delete n0 A) (n0 + 1) k = gone A n0 (k + 1).
Proof.
  intros Hk. apply map_eq. intros n. rewrite !lookup_gone. destruct (decide (n = n0)) as [->|].
  - rewrite decide_False, decide_True by lia. apply lookup_delete_eq.
  - rewrite lookup_delete_ne by done. repeat case_decide; done || lia.
Qed.

Lemma gone_none A n0 k : 0 <= k -> A !! n0 = None -> gone A (n0 + 1) k = gone A n0 (k + 1).
Proof.
  intros Hk Hn. rewrite <-gone_step by done. by rewrite delete_id.
Qed.

Lemma gone_nil A n0 : gone A n0 0 = A.
Proof. apply map_eq. intros n. rewrite lookup_gone. rewrite decide_False by lia. done. Qed.

Lemma has_mkpte pa f b : 0 <= f < 1024 -> 0 <= b < 1024 -> has (mkpte pa f) b = has f b.
Proof. intros. unfold has. by rewrite flags_mkpte. Qed.

Section User.
Context `{IM : Image}.

Record as_ok (m : kmem) (root : Z) (T : tables) (A : space) (l : list Z) : Prop := {
  as_pt : pt_ok m root T l;
  as_leaf n : 0 <= n < UPN -> leaf m T n = apte A n;
  as_dom n pa f : A !! n = Some (pa, f) -> 0 <= n < UPN /\ phys pa /\ 0 <= f < 1024 /\ has f PTE_V = true;
  as_nodup : NoDup (l ++ tpages T ++ upages A) }.

Context {IO : ImageOk}.

Lemma as_free m root T A l : as_ok m root T A l -> free_list m l.
Proof. intros H. apply H. Qed.

Lemma as_page m root T A l n pa f :
  as_ok m root T A l -> A !! n = Some (pa, f) -> (pa ∉ l) /\ (pa ∉ tpages T).
Proof.
  intros H Hn. assert (Hu : pa ∈ upages A) by (apply elem_of_upages; by exists n, f).
  pose proof (as_nodup _ _ _ _ _ H) as Hd. apply NoDup_app in Hd as (_ & H1 & H2). apply NoDup_app in H2 as (_ & H2 & _).
  split; intros Hin; [|by apply (H2 pa)]. apply (H1 pa Hin). apply elem_of_app. by right.
Qed.

(** The tables are where they were; the free list may have changed. *)
Lemma pt_frame m root T l m' l' :
  pt_ok m root T l -> free_list m' l' -> NoDup (l' ++ tpages T) ->
  (forall a, a ∈ tpages T -> km_pages m' a = km_pages m a) ->
  pt_ok m' root T l' /\ forall n, leaf m' T n = leaf m T n.
Proof.
  intros H Hf Hn E. assert (He : forall k pa i, T !! k = Some pa -> entry m' pa i = entry m pa i).
  { intros k pa i Hk. unfold entry. rewrite E; [done|]. apply elem_of_tpages. by exists k. }
  split.
  - split; try done; try apply H. intros lv q pa i Hk Hi. rewrite (He _ _ _ Hk). by eapply pt_entry.
  - intros n. unfold leaf. destruct (T !! _) as [p|] eqn:Hk; [|done]. by eapply He.
Qed.

(** What [walk] without allocation says about an address space. *)
Lemma walk_as m root T A l n :
  as_ok m root T A l -> 0 <= n < UPN ->
  wp (walk root (4096 * n) false) (fun r m' => m' = m /\
    (r = 0 /\ A !! n = None \/ r <> 0 /\ ld64 m r = apte A n /\ r = pte_addr T (4096 * n) /\
     exists p, T !! vkey 0 (4096 * n) = Some p)) m.
Proof.
  intros H Hn. assert (Hva : 0 <= 4096 * n < MAXVA) by (change MAXVA with (2 ^ 38); change UPN with (2 ^ 26 - 2) in Hn; lia).
  eapply wp_conseq; [apply (walk_lookup m root T l); [apply H|done]|]. intros r m' [-> ->]. split; [done|].
  pose proof (as_leaf _ _ _ _ _ H n Hn) as Hl. destruct (T !! vkey 0 (4096 * n)) as [p|] eqn:E.
  - right. split_and!; [eapply pte_addr_pos; [apply H|by rewrite E]| |done|by exists p].
    rewrite (ld64_leaf m root T l _ p) by (apply H || done || lia). replace (4096 * n / 4096) with n by lia. done.
  - left. unfold pte_addr. rewrite E. split; [done|]. unfold leaf in Hl. rewrite vkey_vpn in E by lia.
    replace (4096 * n / 4096) with n in E by lia. rewrite E in Hl. unfold apte in Hl.
    destruct (A !! n) as [[pa f]|] eqn:EA; [|done]. destruct (as_dom _ _ _ _ _ H _ _ _ EA) as (_ & Hp & Hf & HV).
    exfalso. rewrite <-(has_mkpte pa) in HV by (done || by vm_compute). rewrite <-Hl in HV. done.
Qed.

Lemma apte_has A n m root T l pa f :
  as_ok m root T A l -> A !! n = Some (pa, f) ->
  has (apte A n) PTE_V = true /\ PTE2PA (apte A n) = pa /\ forall b, 0 <= b < 1024 -> has (apte A n) b = has f b.
Proof.
  intros H Hn. destruct (as_dom _ _ _ _ _ H _ _ _ Hn) as (_ & Hp & Hf & HV). unfold apte. rewrite Hn.
  split_and!; [by rewrite has_mkpte|by apply phys_pte|]. intros b Hb. by apply has_mkpte.
Qed.

Lemma UPN_eq : UPN = 2 ^ 26 - 2.
Proof. reflexivity. Qed.

(** Freeing one mapped page. *)
Lemma unmap_page m root T A l n pa f p :
  as_ok m root T A l -> A !! n = Some (pa, f) -> T !! vkey 0 (4096 * n) = Some p ->
  wp (kfree pa ;;; st64 (pte_addr T (4096 * n)) 0) (fun _ m' => as_ok m' root T (delete n A) (pa :: l) /\
    (forall a, a ∉ pa :: l -> a ∉ tpages T -> km_pages m' a = km_pages m a) /\
    forall n', n' <> n -> leaf m' T n' = leaf m T n') m.
Proof.
  intros H Hn Hk. destruct (as_dom _ _ _ _ _ H _ _ _ Hn) as (Hr & Hp & _). destruct (as_page _ _ _ _ _ _ _ _ H Hn) as [Hl Ht].
  wp_step. eapply wp_conseq; [by apply (kfree_spec m l); [apply H|..]|]. intros [] m1 [Hf1 E1].
  pose proof (as_nodup _ _ _ _ _ H) as Hnd. rewrite (upages_delete A n pa f Hn) in Hnd.
  assert (Hnd' : NoDup ((pa :: l) ++ tpages T ++ upages (delete n A))).
  { simpl. rewrite <-!Permutation_middle in Hnd. done. }
  destruct (pt_frame m root T l m1 (pa :: l)) as [Hpt1 Hleaf1]; [apply H|done| |intros a Ha; apply E1; by intros ->|].
  { rewrite app_assoc in Hnd'. by apply NoDup_app in Hnd' as (? & _). }
  rewrite UPN_eq in Hr.
  eapply wp_conseq; [apply (set_leaf m1 root T (pa :: l) _ p); try done; lia|]. replace (4096 * n / 4096) with n by lia.
  intros [] m2 [G E2]. split_and!.
  - split; [apply G| | |done].
    + intros n' Hn'. rewrite (gr_leaf _ _ _ _ _ _ _ _ G). unfold apte. case_decide; subst; [by rewrite lookup_delete_eq|].
      rewrite lookup_delete_ne, Hleaf1 by done. by apply H.
    + intros n' pa' f' Hd. apply lookup_delete_Some in Hd as [_ Hd]. by eapply as_dom.
  - intros a Ha Ha'. rewrite E2, E1; [done| |done]. intros ->. apply Ha. by left.
  - intros n' Hn'. rewrite (gr_leaf _ _ _ _ _ _ _ _ G), decide_False, Hleaf1 by done. done.
Qed.

(** [uvmunmap] with [do_free] gives the frames of the range back. *)
Record unmapped (m : kmem) (root : Z) (T : tables) (A : space) (l : list Z) (m' : kmem) (n0 k : Z) (l' : list Z) : Prop := {
  un_ok : as_ok m' root T (gone A n0 k) l';
  un_pages : l' ++ upages (gone A n0 k) ≡ₚ l ++ upages A;
  un_leaf n : ~ (n0 <= n < n0 + k) -> leaf m' T n = leaf m T n;
  un_frame a : a ∉ l' -> a ∉ tpages T -> km_pages m' a = km_pages m a }.

Lemma uvmunmap_loop_spec root T k m A l n0 :
  as_ok m root T A l -> 0 <= n0 -> n0 + Z.of_nat k <= UPN ->
  wp (uvmunmap_loop (S k) root (4096 * n0) (4096 * (n0 + Z.of_nat k)) true) (fun _ m' => exists l',
    unmapped m root T A l m' n0 (Z.of_nat k) l') m.
Proof.
  rewrite UPN_eq. revert m A l n0. induction k as [|k IH]; intros m A l n0 H Hn0 Hmax.
  - simpl. rewrite (proj2 (Z.ltb_ge _ _)) by lia. wp_steps. exists l. split; try done; by rewrite gone_nil.
  - change (uvmunmap_loop (S (S k))) with (fun (pt a last : Z) (fr : bool) => uvmunmap_loop (S (S k)) pt a last fr).
    cbn beta. remember (S k) as k1 eqn:Ek. cbn [uvmunmap_loop]. subst k1. rewrite (proj2 (Z.ltb_lt _ _)) by lia.
    rewrite u64_id by (unfold PGSIZE; lia). unfold PGSIZE. replace (4096 * n0 + 4096) with (4096 * (n0 + 1)) by lia.
    replace (n0 + Z.of_nat (S k)) with (n0 + 1 + Z.of_nat k) by lia.
    wp_step. eapply wp_conseq; [apply (walk_as m root T A l); [done|rewrite UPN_eq; lia]|].
    intros r m' (-> & Hr). wp_steps.
    destruct (A !! n0) as [[pa f]|] eqn:EA.
    + destruct Hr as [[_ ?]|(Hr0 & Hld & Hr & p & Hk)]; [done|]. rewrite (proj2 (Z.eqb_neq _ _) Hr0), Hld.
      destruct (apte_has A n0 m root T l pa f H EA) as (-> & -> & _). cbn [negb]. subst r.
      eapply wp_conseq; [by apply (unmap_page m root T A l n0 pa f p)|]. intros [] m1 (H1 & E1 & L1).
      eapply wp_conseq; [apply (IH m1 _ _ (n0 + 1) H1); lia|]. intros [] m2 (l2 & [K1 K2 K3 K4]). exists l2.
      assert (Eg : gone (delete n0 A) (n0 + 1) (Z.of_nat k) = gone A n0 (Z.of_nat (S k))).
      { rewrite gone_step by lia. f_equal. lia. }
      rewrite Eg in *. split; [done| | |].
      * rewrite K2, (upages_delete A n0 pa f EA), <-Permutation_middle. done.
      * intros n Hn. rewrite K3, L1 by lia. done.
      * intros a Ha Ht. rewrite K4 by done. apply E1; [|done]. intros Hin. apply Ha.
        assert (Hsub : a ∈ l2 ++ upages (gone A n0 (Z.of_nat (S k)))) by (rewrite K2; apply elem_of_app; by left).
        apply elem_of_app in Hsub as [|Hu]; [done|]. exfalso. apply elem_of_upages in Hu as (n & f' & Hu).
        rewrite <-Eg, lookup_gone in Hu. case_decide; [done|].
        destruct (as_page _ _ _ _ _ _ _ _ H1 Hu) as [Hu1 _]. done.
    + assert (Hskip : wp (if r =? 0 then ret tt else if negb (has (ld64 m r) PTE_V) then ret tt
                          else kfree (PTE2PA (ld64 m r)) ;;; st64 r 0) (fun _ m' => m' = m) m).
      { destruct Hr as [[-> _]|(Hr0 & Hld & _)]; [by wp_steps|]. rewrite (proj2 (Z.eqb_neq _ _) Hr0), Hld.
        unfold apte. rewrite EA. by wp_steps. }
      eapply wp_conseq; [exact Hskip|]. intros [] ? ->.
      eapply wp_conseq; [apply (IH m _ _ (n0 + 1) H); lia|]. intros [] m2 (l2 & [K1 K2 K3 K4]). exists l2.
      assert (Eg : gone A (n0 + 1) (Z.of_nat k) = gone A n0 (Z.of_nat (S k))).
      { rewrite gone_none by (done || lia). f_equal. lia. }
      rewrite Eg in *. split; try done. intros n Hn. apply K3. lia.
Qed.

Lemma uvmunmap_spec m root T A l n0 k :
  as_ok m root T A l -> 0 <= n0 -> 0 <= k -> n0 + k <= UPN ->
  wp (uvmunmap root (4096 * n0) k true) (fun _ m' => exists l', unmapped m root T A l m' n0 k l') m.
Proof.
  intros H Hn Hk Hmax. unfold uvmunmap, PGSIZE. rewrite (proj2 (Z.eqb_eq _ 0)) by lia. cbn [negb].
  rewrite UPN_eq in Hmax. rewrite u64_id by lia. replace (4096 * n0 + k * 4096) with (4096 * (n0 + Z.of_nat (Z.to_nat k))) by lia.
  eapply wp_conseq; [apply (uvmunmap_loop_spec root T (Z.to_nat k) m A l); [done|lia|rewrite UPN_eq; lia]|].
  rewrite Z2Nat.id by done. done.
Qed.

(** The number of pages a process of a size has. *)
Definition npg (sz : Z) : Z := (sz + 4095) / 4096.

Lemma npg_up sz : 0 <= sz <= TRAPFRAME -> PGROUNDUP sz = 4096 * npg sz.
Proof. intros H. change TRAPFRAME with (2 ^ 38 - 8192) in H. rewrite PGROUNDUP_eq by lia. unfold npg. lia. Qed.

Lemma npg_range sz : 0 <= sz <= TRAPFRAME -> 0 <= npg sz <= UPN.
Proof. intros H. change TRAPFRAME with (2 ^ 38 - 8192) in H. rewrite UPN_eq. unfold npg. lia. Qed.

Lemma uvmdealloc_spec m root T A l oldsz newsz :
  as_ok m root T A l -> 0 <= newsz -> 0 <= oldsz <= TRAPFRAME ->
  wp (uvmdealloc root oldsz newsz) (fun r m' => exists l', r = Z.min oldsz newsz /\
    unmapped m root T A l m' (npg newsz) (Z.max 0 (npg oldsz - npg newsz)) l') m.
Proof.
  intros H Hn Ho. unfold uvmdealloc. destruct (Z.leb_spec oldsz newsz) as [Hle|Hlt].
  - wp_steps. exists l. split; [lia|]. replace (Z.max 0 (npg oldsz - npg newsz)) with 0 by (unfold npg; lia).
    split; try done; by rewrite gone_nil.
  - pose proof (npg_range oldsz Ho). pose proof (npg_range newsz ltac:(lia)). pose proof UPN_eq as HU.
    rewrite !npg_up by lia. unfold PGSIZE.
    replace ((4096 * npg oldsz - 4096 * npg newsz) / 4096) with (npg oldsz - npg newsz) by lia.
    assert (npg newsz <= npg oldsz) by (unfold npg; lia).
    rewrite s32_id, u64_id by lia. destruct (Z.ltb_spec (4096 * npg newsz) (4096 * npg oldsz)).
    + wp_step. eapply wp_conseq; [apply (uvmunmap_spec m root T A l); done || lia|].
      intros [] m' [l' U]. wp_steps. exists l'. split; [lia|]. by rewrite Z.max_r by lia.
    + wp_steps. exists l. split; [lia|]. replace (Z.max 0 (npg oldsz - npg newsz)) with 0 by lia.
      split; try done; by rewrite gone_nil.
Qed.

(** The address space has changed to [A'] using only free pages. *)
Record evolved (m : kmem) (T : tables) (A : space) (l : list Z) (m' : kmem) (root : Z) (T' : tables) (A' : space)
    (l' : list Z) : Prop := {
  ev_ok : as_ok m' root T' A' l';
  ev_sub : T ⊆ T';
  ev_pages : l' ++ tpages T' ++ upages A' ≡ₚ l ++ tpages T ++ upages A;
  ev_top n : UPN <= n -> leaf m' T' n = leaf m T n;
  ev_frame a : a ∉ l -> a ∉ tpages T -> km_pages m' a = km_pages m a }.

Lemma evolved_refl m root T A l : as_ok m root T A l -> evolved m T A l m root T A l.
Proof. by split. Qed.

(** A fresh frame [c] with contents [d] is mapped at page [n], or given back when memory for a table runs out. *)
Lemma map_page {B} m m1 root T A l n c d perm (k1 k2 : M kmem B) (Q : B -> kmem -> Prop) :
  as_ok m root T A (c :: l) -> free_list m1 l -> (forall a, km_pages m1 a = bput (km_pages m) c d a) -> length d = 4096%nat ->
  0 <= n < UPN -> A !! n = None -> 0 <= perm < 1024 ->
  (forall m' T' l', evolved m T A (c :: l) m' root T' (<[n := (c, vflags perm)]> A) l' -> km_pages m' c = d ->
     (length l <= length l' + 2)%nat -> wp k2 Q m') ->
  (forall m' T', evolved m T A (c :: l) m' root T' A [c] -> (length l <= 2)%nat -> wp k1 Q m') ->
  wp (let* r := mappages root (4096 * n) PGSIZE c perm in if negb (r =? 0) then kfree c ;;; k1 else k2) Q m1.
Proof.
  intros H Hf1 Ep Hd Hn HA Hperm Hok Herr.
  pose proof (as_nodup _ _ _ _ _ H) as Hnd. pose proof UPN_eq as HU.
  assert (Hc : phys c) by (by apply as_free, fl_phys, Forall_cons in H as [? _]). pose proof (phys_pos _ Hc).
  assert (Hcl : (c ∉ l) /\ (c ∉ tpages T)).
  { simpl in Hnd. apply NoDup_cons in Hnd as [Hnd _]. rewrite !elem_of_app in Hnd. tauto. }
  destruct (pt_frame m root T (c :: l) m1 l) as [Hpt1 Hleaf1].
  { apply H. } { done. }
  { simpl in Hnd. apply NoDup_cons in Hnd as [_ Hnd]. rewrite app_assoc in Hnd. by apply NoDup_app in Hnd as (? & _). }
  { intros a Ha. rewrite Ep. apply bput_ne. intros ->. by apply Hcl. }
  wp_step. change PGSIZE with (4096 * 1). eapply wp_conseq; [apply (mappages_spec m1 root T l n 1 c perm)|]; try done; try lia.
  { change MAXVA with (2 ^ 38). lia. }
  { intros n' Hn'. replace n' with n by lia. rewrite Hleaf1, (as_leaf _ _ _ _ _ H) by done. unfold apte. by rewrite HA. }
  intros r m2 (T2 & l2 & j & [G1 G2 G3 G4 G5] & Hres & Hlen & _).
  assert (Ec : km_pages m2 c = d).
  { rewrite G5, Ep; [apply bput_eq|]. rewrite elem_of_app. tauto. }
  assert (Hfr : forall a, a ∉ c :: l -> a ∉ tpages T -> km_pages m2 a = km_pages m a).
  { intros a Ha Ht. rewrite elem_of_cons in Ha. rewrite G5, Ep by (rewrite elem_of_app; tauto). apply bput_ne. tauto. }
  destruct Hres as [[-> ->]|(-> & Hj & ->)]; cbn [negb Z.eqb].
  - apply (Hok m2 T2 l2); [|done|lia]. split; [|done| | |done].
    + split; [done| | |].
      * intros n' Hn'. rewrite G4. unfold mapping, apte. destruct (decide (n' = n)) as [->|].
        -- rewrite decide_True, lookup_insert_eq by lia. f_equal. lia.
        -- rewrite decide_False, lookup_insert_ne by lia. rewrite Hleaf1. by apply H.
      * intros n' pa f Hk. apply lookup_insert_Some in Hk as [[-> [= <- <-]]|[_ Hk]]; [|by eapply as_dom].
        split_and!; [lia..|done|by apply vflags_range|by apply vflags_range|].
        rewrite <-(has_mkpte 0); [by apply has_vflags|by apply vflags_range|by vm_compute].
      * rewrite upages_insert by done. rewrite app_assoc, G3. rewrite <-app_assoc, <-!Permutation_middle. done.
    + rewrite upages_insert by done. rewrite app_assoc, G3, <-app_assoc, <-!Permutation_middle. done.
    + intros n' Hn'. rewrite G4. unfold mapping. rewrite decide_False by lia. apply Hleaf1.
  - assert (j = 0) as -> by lia. simpl in G3. wp_step.
    eapply wp_conseq; [apply (kfree_spec m2 []); [apply G1|done|apply not_elem_of_nil]|].
    intros [] m3 [Hf3 E3].
    assert (HcT : c ∉ tpages T2) by (rewrite G3, elem_of_app; tauto).
    destruct (pt_frame m2 root T2 [] m3 [c]) as [Hpt3 Hleaf3].
    { done. } { done. }
    { apply NoDup_cons. split; [done|]. apply (pt_nodup _ _ _ _ G1). }
    { intros a Ha. apply E3. by intros ->. }
    assert (Hleaf : forall n', leaf m3 T2 n' = leaf m T n') by (intros n'; rewrite Hleaf3, G4, mapping_nil; apply Hleaf1).
    apply (Herr m3 T2); [|simpl in Hlen; lia]. split; [|done| |by intros|].
    + split; [done| |by apply H|].
      * intros n' Hn'. rewrite Hleaf. by apply H.
      * simpl. rewrite app_assoc, G3 || rewrite G3. rewrite <-app_assoc. done.
    + simpl. rewrite G3. rewrite <-app_assoc. done.
    + intros a Ha Ht. rewrite E3; [by apply Hfr|]. intros ->. apply Ha. by left.
Qed.

Lemma bput_twice (f : Z -> list Z) c d1 d2 a : bput (bput f c d1) c d2 a = bput f c d2 a.
Proof. unfold bput. by case_decide. Qed.

Lemma evolved_trans m0 T0 A0 l0 m1 T1 A1 l1 m2 root T2 A2 l2 :
  A0 ⊆ A1 -> evolved m0 T0 A0 l0 m1 root T1 A1 l1 -> evolved m1 T1 A1 l1 m2 root T2 A2 l2 ->
  evolved m0 T0 A0 l0 m2 root T2 A2 l2.
Proof.
  intros HA [H1 S1 P1 L1 F1] [H2 S2 P2 L2 F2]. split; [done|by etrans|by etrans|intros; rewrite L2, L1 by done; done|].
  intros a Hl Ht. assert (Hn : a ∉ l1 ++ tpages T1).
  { intros Hin. assert (Ha : a ∈ l0 ++ tpages T0 ++ upages A0).
    { rewrite <-P1. rewrite app_assoc. apply elem_of_app. by left. }
    rewrite !elem_of_app in Ha. destruct Ha as [?|[?|Hu]]; [done..|].
    apply elem_of_upages in Hu as (n & f & Hu). eapply lookup_weaken in Hu; [|exact HA].
    destruct (as_page _ _ _ _ _ _ _ _ H1 Hu). apply elem_of_app in Hin as []; done. }
  rewrite elem_of_app in Hn. rewrite F2, F1 by tauto. done.
Qed.

Lemma evolved_undo m0 T0 A0 l0 m1 root T1 A1 l1 m2 n0 k l2 :
  evolved m0 T0 A0 l0 m1 root T1 A1 l1 -> unmapped m1 root T1 A1 l1 m2 n0 k l2 -> gone A1 n0 k = A0 -> n0 + k <= UPN ->
  evolved m0 T0 A0 l0 m2 root T1 A0 l2.
Proof.
  intros [H1 S1 P1 L1 F1] [U1 U2 U3 U4] E Hk. rewrite E in *.
  assert (P : l2 ++ tpages T1 ++ upages A0 ≡ₚ l0 ++ tpages T0 ++ upages A0).
  { rewrite <-P1. rewrite (Permutation_app_comm (tpages T1)), app_assoc, U2.
    rewrite <-app_assoc. by rewrite (Permutation_app_comm (upages A1)). }
  split; [done|done|done| |].
  - intros n Hn. rewrite U3, L1 by lia. done.
  - intros a Hl Ht. rewrite !app_assoc in P. apply Permutation_app_inv_r in P.
    assert (Hn : a ∉ l2 ++ tpages T1) by (rewrite P; rewrite elem_of_app; tauto).
    rewrite elem_of_app in Hn. rewrite U4, F1 by tauto. done.
Qed.

(** [A'] is [A] with zeroed frames, with flags [f], at the pages [n0] to [n1]. *)
Definition zeroed (m' : kmem) (A A' : space) (n0 n1 f : Z) : Prop := forall n,
  if decide (n0 <= n < n1) then exists pa, A' !! n = Some (pa, f) /\ km_pages m' pa = fill 0 else A' !! n = A !! n.

Lemma zeroed_gone m' A A' n0 n1 f :
  zeroed m' A A' n0 n1 f -> (forall n, n0 <= n < n1 -> A !! n = None) -> n0 <= n1 -> gone A' n0 (n1 - n0) = A.
Proof.
  intros Hz Hn Hle. apply map_eq. intros n. rewrite lookup_gone. specialize (Hz n).
  destruct (decide (n0 <= n < n1)); [rewrite decide_True by lia; symmetry; by apply Hn|by rewrite decide_False by lia].
Qed.

Lemma zeroed_sub m' A A' n0 n1 f :
  zeroed m' A A' n0 n1 f -> (forall n, n0 <= n < n1 -> A !! n = None) -> A ⊆ A'.
Proof.
  intros Hz Hn. apply map_subseteq_spec. intros n x Hx. specialize (Hz n). case_decide; [|congruence].
  rewrite Hn in Hx by done. done.
Qed.

(** Growing an address space. *)
Section Uvmalloc.
Variables (m0 : kmem) (root : Z) (T0 : tables) (A0 : space) (l0 : list Z) (n0 newsz xperm : Z).
Let perm := Z.lor (Z.lor PTE_R PTE_U) xperm.
Let n1 := npg newsz.
Hypothesis Hn0 : 0 <= n0 <= n1.
Hypothesis Hsz : 0 <= newsz <= TRAPFRAME.
Hypothesis Hperm : 0 <= perm < 1024.
Hypothesis Hfresh : forall n, n0 <= n < n1 -> A0 !! n = None.

(** The result: all pages, or none. *)
Definition uvmalloc_post (r : Z) (m' : kmem) : Prop := exists T' A' l',
  evolved m0 T0 A0 l0 m' root T' A' l' /\
  (r = newsz /\ zeroed m' A0 A' n0 n1 (vflags perm) \/
   r = 0 /\ A' = A0 /\ (length l0 <= 3 * Z.to_nat (n1 - n0))%nat).

Lemma uvmalloc_undo {B} m T A l n (k : M kmem B) (Q : B -> kmem -> Prop) :
  evolved m0 T0 A0 l0 m root T A l -> zeroed m A0 A n0 n (vflags perm) -> n0 <= n <= n1 ->
  (forall m' l', evolved m0 T0 A0 l0 m' root T A0 l' -> wp k Q m') ->
  wp (uvmdealloc root (4096 * n) (4096 * n0) ;;; k) Q m.
Proof using Hn0 Hsz Hperm Hfresh IO.
  intros E Hz Hn Hk. pose proof (npg_range newsz Hsz) as Hr. rewrite UPN_eq in Hr. fold n1 in Hr. wp_step.
  eapply wp_conseq; [apply (uvmdealloc_spec m root T A l); [apply E|lia|change TRAPFRAME with (2 ^ 38 - 8192); lia]|].
  intros r m' (l' & _ & U). apply (Hk m' l').
  replace (npg (4096 * n0)) with n0 in U by (unfold npg; lia). replace (npg (4096 * n)) with n in U by (unfold npg; lia).
  rewrite Z.max_r in U by lia. eapply evolved_undo; [exact E|exact U| |rewrite UPN_eq; lia].
  eapply zeroed_gone; [exact Hz| |lia]. intros n' Hn'. apply Hfresh. lia.
Qed.

Lemma zeroed_step m T A l m' T' l' n c :
  as_ok m root T A (c :: l) -> evolved m T A (c :: l) m' root T' (<[n := (c, vflags perm)]> A) l' -> km_pages m' c = fill 0 ->
  n0 <= n -> zeroed m A0 A n0 n (vflags perm) -> zeroed m' A0 (<[n := (c, vflags perm)]> A) n0 (n + 1) (vflags perm).
Proof.
  intros H E Ec Hn Hz n'. specialize (Hz n'). destruct (decide (n' = n)) as [->|Hne].
  - rewrite decide_True by lia. exists c. by rewrite lookup_insert_eq.
  - rewrite lookup_insert_ne by done. destruct (decide (n0 <= n' < n)) as [Hlt|Hlt]; [rewrite decide_True by lia|by rewrite decide_False by lia].
    destruct Hz as (pa & Hk & Hp). exists pa. split; [done|].
    destruct (as_page _ _ _ _ _ _ _ _ H Hk). by rewrite (ev_frame _ _ _ _ _ _ _ _ _ E).
Qed.

Lemma uvmalloc_loop_spec fuel m T A l n :
  evolved m0 T0 A0 l0 m root T A l -> zeroed m A0 A n0 n (vflags perm) -> n0 <= n <= n1 -> (Z.to_nat (n1 - n) < fuel)%nat ->
  (length l0 <= length l + 3 * Z.to_nat (n - n0))%nat ->
  wp (uvmalloc_loop fuel root (4096 * n0) (4096 * n) newsz xperm) uvmalloc_post m.
Proof using Hn0 Hsz Hperm Hfresh IO.
  revert m T A l n. induction fuel as [|fuel IH]; intros m T A l n E Hz Hn Hf Hlen; [lia|].
  pose proof (npg_range newsz Hsz) as Hr. rewrite UPN_eq in Hr. fold n1 in Hr. change TRAPFRAME with (2 ^ 38 - 8192) in Hsz.
  cbn [uvmalloc_loop]. destruct (Z.ltb_spec (4096 * n) newsz) as [Hlt|Hge].
  - assert (Hn1 : n < n1) by (unfold n1, npg; lia). wp_step.
    eapply wp_conseq; [apply kalloc_spec, E|]. intros c m1 Hc. destruct l as [|p l].
    + destruct Hc as [-> ->]. simpl (0 =? 0). cbn match.
      eapply uvmalloc_undo; [exact E|exact Hz|lia|]. intros m' l' E'. wp_steps. exists T, A0, l'. split; [done|right].
      simpl in Hlen. split_and!; [done|done|lia].
    + destruct Hc as (-> & Hf1 & Ep1). pose proof (ev_ok _ _ _ _ _ _ _ _ _ E) as HA.
      assert (Hp : phys p) by (by apply as_free, fl_phys, Forall_cons in HA as [? _]). pose proof (phys_pos _ Hp).
      rewrite (proj2 (Z.eqb_neq p 0)) by lia. unfold memset_page, stpage. wp_step. wp_step. fold perm.
      assert (HAn : A !! n = None).
      { specialize (Hz n). rewrite decide_False in Hz by lia. rewrite Hz. apply Hfresh. lia. }
      eapply (map_page m _ root T A l n p (fill 0)); [done| | | |rewrite UPN_eq; lia|done|done| |].
      * eapply (free_list_frame m1); [done|done| |].
        { intros a Ha. simpl. apply bput_ne. intros ->. apply as_free, fl_nodup, NoDup_cons in HA. tauto. }
        { intros a. simpl. unfold bput. case_decide; [apply length_fill|apply (fl_pages _ _ Hf1)]. }
      * intros a. simpl. rewrite Ep1. apply bput_twice.
      * apply length_fill.
      * intros m2 T2 l2 E2 Ec Hl2. rewrite u64_id by (unfold PGSIZE; lia). unfold PGSIZE.
        replace (4096 * n + 4096) with (4096 * (n + 1)) by lia. apply (IH m2 T2 (<[n := (p, vflags perm)]> A) l2).
        -- eapply evolved_trans; [|exact E|exact E2]. eapply zeroed_sub; [exact Hz|]. intros n' Hn'. apply Hfresh. lia.
        -- by eapply zeroed_step; [exact HA|exact E2|done|lia|].
        -- lia.
        -- lia.
        -- simpl in Hlen. lia.
      * intros m2 T2 E2 Hl2. assert (HAA : A0 ⊆ A) by (eapply zeroed_sub; [exact Hz|]; intros n' Hn'; apply Hfresh; lia).
        pose proof (evolved_trans _ _ _ _ _ _ _ _ _ _ _ _ _ HAA E E2) as E3.
        eapply (uvmalloc_undo m2 T2 A [p] n); [exact E3| |lia|].
        { intros n'. specialize (Hz n'). case_decide; [|done]. destruct Hz as (pa & Hk & Hpa). exists pa. split; [done|].
          destruct (as_page _ _ _ _ _ _ _ _ HA Hk). by rewrite (ev_frame _ _ _ _ _ _ _ _ _ E2). }
        { intros m' l' E'. wp_steps. exists T2, A0, l'. split; [done|right]. simpl in Hlen. split_and!; [done|done|lia]. }
  - wp_steps. exists T, A, l. split; [done|left]. split; [done|].
    assert (n = n1) as <- by (unfold n1, npg in *; lia). done.
Qed.
End Uvmalloc.

(** A page of zeroes is an empty page table. *)
Lemma uvmcreate_spec m l :
  free_list m l ->
  wp uvmcreate (fun r m' =>
    match l with
    | [] => r = 0 /\ m' = m
    | c :: l' => r = c /\ as_ok m' c {[(2%nat, 0) := c]} ∅ l' /\ (forall a, a <> c -> km_pages m' a = km_pages m a) /\
        forall n, leaf m' {[(2%nat, 0) := c]} n = 0
    end) m.
Proof.
  intros H. unfold uvmcreate, memset_page, stpage. wp_step. eapply wp_conseq; [by apply kalloc_spec|]. intros r m1 Hr.
  destruct l as [|c l]; [destruct Hr as [-> ->]; by wp_steps|]. destruct Hr as (-> & Hf & Ep).
  assert (Hc : phys c) by (by apply fl_phys, Forall_cons in H as [? _]). pose proof (phys_pos _ Hc).
  pose proof (fl_nodup _ _ H) as Hn. pose proof (proj1 (NoDup_cons _ _) Hn) as [Hcl _].
  rewrite (proj2 (Z.eqb_neq c 0)) by lia. wp_steps. set (m2 := upd _ _ _).
  assert (Hpt : tpages {[(2%nat, 0) := c]} = [c]) by (unfold tpages; by rewrite map_to_list_singleton).
  assert (Hleaf : forall n, leaf m2 {[(2%nat, 0) := c]} n = 0) by (intros n; unfold leaf; by rewrite lookup_singleton_ne).
  assert (Hk : forall k pa, ({[(2%nat, 0) := c]} : tables) !! k = Some pa -> k = (2%nat, 0) /\ pa = c).
  { intros k pa Hk. apply lookup_singleton_Some in Hk as [<- <-]. done. }
  split_and!; [done| | |done].
  - split; [split| | |].
    + eapply (free_list_frame m1); [done|done| |].
      * intros a Ha. apply bput_ne. by intros ->.
      * intros a. unfold m2. simpl. unfold bput. case_decide; [apply length_fill|apply (fl_pages _ _ Hf)].
    + rewrite Hpt. rewrite (Permutation_app_comm l). done.
    + apply lookup_singleton_eq.
    + intros k pa Hp. by apply Hk in Hp as [_ ->].
    + intros lv q [x Hx]. apply Hk in Hx as [[= -> ->] _]. split; [lia|done].
    + intros lv q [x Hx] Hlv. apply Hk in Hx as [[= -> ->] _]. lia.
    + intros lv q pa i Hp Hi. apply Hk in Hp as [[= -> ->] ->]. rewrite lookup_singleton_ne by done.
      apply entry_zero; [apply bput_eq|done].
    + intros n Hn'. rewrite Hleaf. unfold apte. by rewrite lookup_empty.
    + intros n pa f Hx. by rewrite lookup_empty in Hx.
    + unfold upages. rewrite map_to_list_empty, Hpt. simpl. rewrite (Permutation_app_comm l). done.
  - intros a Ha. unfold m2. simpl. rewrite Ep, !bput_ne by done. done.
Qed.

Lemma uvmalloc_spec m root T A l oldsz newsz xperm :
  let perm := Z.lor (Z.lor PTE_R PTE_U) xperm in
  as_ok m root T A l -> 0 <= oldsz <= TRAPFRAME -> 0 <= newsz <= TRAPFRAME -> 0 <= xperm < 1024 ->
  (forall n, npg oldsz <= n < npg newsz -> A !! n = None) ->
  wp (uvmalloc root oldsz newsz xperm) (fun r m' =>
    if newsz <? oldsz then r = oldsz /\ m' = m
    else exists T' A' l', evolved m T A l m' root T' A' l' /\
      (r = newsz /\ zeroed m' A A' (npg oldsz) (npg newsz) (vflags perm) \/
       r = 0 /\ A' = A /\ (length l <= 3 * Z.to_nat (npg newsz - npg oldsz))%nat)) m.
Proof.
  intros perm H Ho Hn Hx Hfresh. unfold uvmalloc. destruct (Z.ltb_spec newsz oldsz) as [Hlt|Hge]; [by wp_steps|].
  rewrite npg_up by done. apply (uvmalloc_loop_spec m root T A l (npg oldsz) newsz xperm) with (T := T) (A := A) (l := l).
  - pose proof (npg_range oldsz Ho). unfold npg in *. lia.
  - done.
  - apply (lor_range _ _ 10); [done|by vm_compute|done].
  - done.
  - by apply evolved_refl.
  - intros n. by rewrite decide_False by lia.
  - unfold npg. lia.
  - unfold PGSIZE, npg. lia.
  - rewrite Z.sub_diag. simpl. lia.
Qed.
(** C26. [uvmalloc] grows an address space completely or not at all.  For sizes up to the trapframe with
    nothing mapped in between, it returns; with result [newsz] every page between the old and the new
    size is mapped to its own zeroed frame with the permissions asked for, and every other mapping is what
    it was; with result 0 every mapping is what it was, which happens only when at most three pages are free per
    page requested.  In both cases no page is lost or shared, the mappings above the user part are as before, and no page in
    use has changed.  Asked for a smaller size it returns the old one and does nothing. *)
Theorem uvmalloc_correct m root T A l oldsz newsz xperm :
  let perm := Z.lor (Z.lor PTE_R PTE_U) xperm in
  as_ok m root T A l -> 0 <= oldsz <= TRAPFRAME -> 0 <= newsz <= TRAPFRAME -> 0 <= xperm < 1024 ->
  (forall n, npg oldsz <= n < npg newsz -> A !! n = None) ->
  wp (uvmalloc root oldsz newsz xperm) (fun r m' =>
    if newsz <? oldsz then r = oldsz /\ m' = m
    else exists T' A' l', evolved m T A l m' root T' A' l' /\
      (r = newsz /\ zeroed m' A A' (npg oldsz) (npg newsz) (vflags perm) \/
       r = 0 /\ A' = A /\ (length l <= 3 * Z.to_nat (npg newsz - npg oldsz))%nat)) m.
Proof. apply uvmalloc_spec. Qed.
End User.
