(* ===== verification/VmCopy.v ===== *)
(** Copying an address space for [fork]: [uvmcopy]. *)

From S2P Require Import Prelude Bytes Params Disk Riscv Kalloc Vm VmPt VmUser.

Lemma vflags_id f : has f PTE_V = true -> vflags f = f.
Proof.
  unfold has, vflags. intros H. apply negb_true_iff, Z.eqb_neq in H. change PTE_V with 1 in *.
  apply Z.bits_inj'. intros n Hn. rewrite Z.lor_spec. destruct (decide (n = 0)) as [->|Hne].
  - rewrite orb_true_r. symmetry. destruct (Z.testbit f 0) eqn:E; [done|]. exfalso. apply H.
    apply Z.bits_inj'. intros i Hi. rewrite Z.land_spec, Z.bits_0. destruct (decide (i = 0)) as [->|]; [by rewrite E|].
    rewrite (Z.bits_above_log2 1 i); [by rewrite andb_false_r|done|simpl; lia].
  - rewrite (Z.bits_above_log2 1 n); [by rewrite orb_false_r|done|simpl; lia].
Qed.

Section Copy.
Context `{IM : Image} {IO : ImageOk}.

(** The pages of another address space, apart from the free list and from the one that changes. *)
Definition apart (T : tables) (A : space) (l : list Z) (To : tables) (Ao : space) : Prop :=
  NoDup ((l ++ tpages T ++ upages A) ++ tpages To ++ upages Ao).

Lemma other_evolved m T A l m' root T' A' l' ro To Ao :
  evolved m T A l m' root T' A' l' -> as_ok m ro To Ao l -> apart T A l To Ao ->
  as_ok m' ro To Ao l' /\ apart T' A' l' To Ao /\ forall a, a ∈ upages Ao -> km_pages m' a = km_pages m a.
Proof.
  intros E H Hd. pose proof (ev_pages _ _ _ _ _ _ _ _ _ E) as P.
  assert (Hd' : apart T' A' l' To Ao) by (unfold apart in *; by rewrite P).
  assert (Hsame : forall a, a ∈ tpages To ++ upages Ao -> km_pages m' a = km_pages m a).
  { intros a Ha. apply NoDup_app in Hd as (_ & Hd & _). apply (ev_frame _ _ _ _ _ _ _ _ _ E); intros Hin; apply (Hd a); try done;
      rewrite !elem_of_app; tauto. }
  assert (Hnd : NoDup (l' ++ tpages To ++ upages Ao)).
  { unfold apart in Hd'. apply NoDup_app in Hd' as (H1 & H2 & H3). apply NoDup_app in H1 as (H1 & _ & _).
    apply NoDup_app. split_and!; [done| |done]. intros a Ha. apply H2. rewrite elem_of_app. by left. }
  destruct (pt_frame m ro To l m' l') as [Hpt Hleaf]; [apply H|apply (ev_ok _ _ _ _ _ _ _ _ _ E)| | |].
  - rewrite app_assoc in Hnd. by apply NoDup_app in Hnd as (? & _).
  - intros a Ha. apply Hsame. rewrite elem_of_app. by left.
  - split_and!; [|done|intros a Ha; apply Hsame; rewrite elem_of_app; by right].
    split; [done| |apply H|done]. intros n Hn. rewrite Hleaf. by apply H.
Qed.

Section Uvmcopy.
Variables (m0 : kmem) (ro rn : Z) (To T0 : tables) (Ao A0 : space) (l0 : list Z) (sz : Z).
Hypothesis Hsz : 0 <= sz <= TRAPFRAME.
Hypothesis Ho : as_ok m0 ro To Ao l0.
Hypothesis Hfresh : forall n, 0 <= n < npg sz -> A0 !! n = None.

(** The pages below [n] have been copied: same flags, same contents. *)
Definition copied (m : kmem) (A : space) (n : Z) : Prop := forall i,
  if decide (0 <= i < n) then
    match Ao !! i with
    | Some (pa, f) => exists pa', A !! i = Some (pa', f) /\ km_pages m pa' = km_pages m0 pa
    | None => A !! i = None
    end
  else A !! i = A0 !! i.

Definition uvmcopy_post (r : Z) (m' : kmem) : Prop := exists T' A' l',
  evolved m0 T0 A0 l0 m' rn T' A' l' /\ as_ok m' ro To Ao l' /\ apart T' A' l' To Ao /\
  (forall a, a ∈ upages Ao -> km_pages m' a = km_pages m0 a) /\
  (r = 0 /\ copied m' A' (npg sz) \/ r = -1 /\ A' = A0 /\ (length l0 <= 3 * Z.to_nat (npg sz))%nat).

(** The state of the loop. *)
Record copying (m : kmem) (T : tables) (A : space) (l : list Z) (n : Z) : Prop := {
  cp_ev : evolved m0 T0 A0 l0 m rn T A l;
  cp_old : as_ok m ro To Ao l;
  cp_apart : apart T A l To Ao;
  cp_same a : a ∈ upages Ao -> km_pages m a = km_pages m0 a;
  cp_done : copied m A n }.

Lemma copied_gone m A n : 0 <= n <= npg sz -> copied m A n -> gone A 0 n = A0.
Proof using Hfresh.
  intros Hn Hc. apply map_eq. intros i. rewrite lookup_gone. specialize (Hc i).
  destruct (decide (0 <= i < n)) as [Hi|Hi]; [rewrite decide_True by lia|by rewrite decide_False by lia].
  symmetry. apply Hfresh. lia.
Qed.

Lemma copied_sub m A n : 0 <= n <= npg sz -> copied m A n -> A0 ⊆ A.
Proof using Hfresh.
  intros Hn Hc. apply map_subseteq_spec. intros i x Hx. specialize (Hc i). case_decide; [|congruence].
  rewrite Hfresh in Hx by lia. done.
Qed.

(** The error exit: the pages copied so far are given back. *)
Lemma uvmcopy_undo m T A l n :
  copying m T A l n -> 0 <= n < npg sz -> (length l0 <= 3 * Z.to_nat (npg sz))%nat ->
  wp (uvmunmap rn 0 (4096 * n / PGSIZE) true ;;; ret (-1)) uvmcopy_post m.
Proof using Hsz Hfresh IO.
  intros C Hn Hl. pose proof (npg_range sz Hsz) as Hr. pose proof C as [E Hold Hap Hsame Hc].
  replace (4096 * n / PGSIZE) with n by (unfold PGSIZE; lia). change 0 with (4096 * 0) at 1. wp_step.
  eapply wp_conseq; [apply (uvmunmap_spec m rn T A l); [apply E|lia..]|]. intros [] m' (l' & U). wp_steps.
  assert (E' : evolved m0 T0 A0 l0 m' rn T A0 l').
  { eapply evolved_undo; [exact E|exact U|apply (copied_gone m); [lia|done]|lia]. }
  exists T, A0, l'. destruct U as [U1 U2 U3 U4].
  assert (Hg : gone A 0 n = A0) by (apply (copied_gone m); [lia|done]). rewrite Hg in *.
  assert (Hap' : apart T A0 l' To Ao).
  { unfold apart in *. assert (P : l' ++ tpages T ++ upages A0 ≡ₚ l ++ tpages T ++ upages A).
    { rewrite (Permutation_app_comm (tpages T)), app_assoc, U2, <-app_assoc. by rewrite (Permutation_app_comm (upages A)). }
    by rewrite P. }
  assert (Hs : forall a, a ∈ tpages To ++ upages Ao -> km_pages m' a = km_pages m a).
  { intros a Ha. apply NoDup_app in Hap' as (_ & Hd & _). apply U4; intros Hin; apply (Hd a); try done; rewrite !elem_of_app; tauto. }
  split_and!; [done| |done| |right; split_and!; [done|done|lia]].
  - destruct (pt_frame m ro To l m' l') as [Hpt Hleaf]; [apply Hold|apply U1| | |].
    + unfold apart in Hap'. apply NoDup_app in Hap' as (H1 & H2 & H3). apply NoDup_app in H1 as (H1 & _ & _).
      apply NoDup_app in H3 as (H3 & _ & _). apply NoDup_app. split_and!; [done| |done].
      intros a Ha Hin. apply (H2 a); rewrite elem_of_app; by left.
    + intros a Ha. apply Hs. rewrite elem_of_app. by left.
    + split; [done| |apply Hold|].
      * intros i Hi. rewrite Hleaf. by apply Hold.
      * unfold apart in Hap'. apply NoDup_app in Hap' as (H1 & H2 & H3). apply NoDup_app in H1 as (H1 & _ & _).
        apply NoDup_app. split_and!; [done| |done]. intros a Ha. apply H2. rewrite elem_of_app. by left.
  - intros a Ha. rewrite Hs by (rewrite elem_of_app; by right). by apply Hsame.
Qed.

Lemma copying_evolved m T A l n m' T' A' l' :
  copying m T A l n -> 0 <= n <= npg sz -> evolved m T A l m' rn T' A' l' -> copied m' A' (n + 1) -> copying m' T' A' l' (n + 1).
Proof using Hfresh IO.
  intros [E Hold Hap Hsame Hc] Hn E' Hc'. destruct (other_evolved _ _ _ _ _ _ _ _ _ _ _ _ E' Hold Hap) as (H1 & H2 & H3).
  split; [|done|done| |done].
  - eapply evolved_trans; [|exact E|exact E']. by eapply copied_sub.
  - intros a Ha. rewrite H3 by done. by apply Hsame.
Qed.

(** A page that is not mapped is skipped. *)
Lemma copying_skip m T A l n : copying m T A l n -> 0 <= n < npg sz -> Ao !! n = None -> copying m T A l (n + 1).
Proof using Hfresh IO.
  intros C Hn HA. pose proof C as [E Hold Hap Hsame Hc].
  apply (copying_evolved m T A l n m T A l); try done; try lia.
  - apply evolved_refl, E.
  - intros i. specialize (Hc i). destruct (decide (i = n)) as [->|].
    + rewrite decide_True by lia. rewrite decide_False in Hc by lia. rewrite HA, Hc. apply Hfresh. lia.
    + destruct (decide (0 <= i < n)); [by rewrite decide_True by lia|by rewrite decide_False by lia].
Qed.

Lemma copied_step m T A l m' T' l' n c pa f :
  copied m A n -> as_ok m rn T A (c :: l) -> evolved m T A (c :: l) m' rn T' (<[n := (c, f)]> A) l' -> 0 <= n ->
  Ao !! n = Some (pa, f) -> km_pages m' c = km_pages m0 pa -> copied m' (<[n := (c, f)]> A) (n + 1).
Proof.
  intros Hc H E Hn HA Ec i. specialize (Hc i). destruct (decide (i = n)) as [->|Hne].
  - rewrite decide_True by lia. rewrite HA. exists c. by rewrite lookup_insert_eq.
  - rewrite lookup_insert_ne by done. destruct (decide (0 <= i < n)) as [Hi|Hi]; [rewrite decide_True by lia|by rewrite decide_False by lia].
    destruct (Ao !! i) as [[q g]|]; [|done]. destruct Hc as (q' & Hq & Ep). exists q'. split; [done|].
    destruct (as_page _ _ _ _ _ _ _ _ H Hq). by rewrite (ev_frame _ _ _ _ _ _ _ _ _ E).
Qed.

Lemma uvmcopy_loop_spec fuel m T A l n :
  copying m T A l n -> 0 <= n <= npg sz -> (Z.to_nat (npg sz - n) < fuel)%nat ->
  (length l0 <= length l + 3 * Z.to_nat n)%nat ->
  wp (uvmcopy_loop fuel ro rn (4096 * n) sz) uvmcopy_post m.
Proof using Hsz Hfresh IO.
  revert m T A l n. induction fuel as [|fuel IH]; intros m T A l n C Hn Hf Hlen; [lia|].
  pose proof C as [E Hold Hap Hsame Hc]. pose proof (npg_range sz Hsz) as Hr. pose proof UPN_eq as HU.
  change TRAPFRAME with (2 ^ 38 - 8192) in Hsz. cbn [uvmcopy_loop]. destruct (Z.ltb_spec (4096 * n) sz) as [Hlt|Hge].
  - assert (Hn1 : n < npg sz) by (unfold npg; lia). rewrite u64_id by (unfold PGSIZE; lia).
    replace (4096 * n + PGSIZE) with (4096 * (n + 1)) by (unfold PGSIZE; lia).
    wp_step. eapply wp_conseq; [apply (walk_as m ro To Ao l); [done|lia]|]. intros r ? [-> Hw]. wp_steps.
    destruct (Ao !! n) as [[pa f]|] eqn:EA.
    + destruct Hw as [[_ ?]|(Hr0 & Hld & _)]; [done|]. rewrite (proj2 (Z.eqb_neq _ _) Hr0), Hld.
      destruct (apte_has Ao n m ro To l pa f Hold EA) as (-> & -> & _). cbn [negb orb].
      destruct (as_dom _ _ _ _ _ Hold _ _ _ EA) as (_ & Hpa & Hfr & HV).
      assert (Ef : PTE_FLAGS (apte Ao n) = f).
      { unfold apte, PTE_FLAGS. rewrite EA, flags_mkpte by (done || by vm_compute).
        change 1023 with (Z.ones 10). rewrite Z.land_ones by done. apply Z.mod_small. done. }
      rewrite Ef. wp_step. eapply wp_conseq; [apply kalloc_spec, E|]. intros c m1 Hcm.
      destruct l as [|p l].
      * destruct Hcm as [-> ->]. simpl (0 =? 0). cbn match. simpl in Hlen. eapply uvmcopy_undo; [exact C|lia|lia].
      * destruct Hcm as (-> & Hf1 & Ep1). pose proof (ev_ok _ _ _ _ _ _ _ _ _ E) as HA.
        assert (Hp : phys p) by (by apply as_free, fl_phys, Forall_cons in HA as [? _]). pose proof (phys_pos _ Hp).
        rewrite (proj2 (Z.eqb_neq p 0)) by lia. unfold stpage. wp_steps.
        destruct (as_page _ _ _ _ _ _ _ _ Hold EA) as [Hpl _]. assert (Hne : pa <> p) by (intros ->; apply Hpl; by left).
        assert (Ed : km_pages m1 pa = km_pages m0 pa).
        { rewrite Ep1, bput_ne by done. apply Hsame, elem_of_upages. by exists n, f. }
        rewrite Ed. apply wp_bind_inv.
        eapply (map_page m _ rn T A l n p (km_pages m0 pa)); [done| | | |lia| |done| |].
        -- eapply (free_list_frame m1); [done|done| |].
           { intros a Ha. simpl. apply bput_ne. intros ->. apply as_free, fl_nodup, NoDup_cons in HA. tauto. }
           { intros a. simpl. unfold bput. case_decide; [|apply (fl_pages _ _ Hf1)]. rewrite <-Ed. apply (fl_pages _ _ Hf1). }
        -- intros a. simpl. rewrite Ep1. apply bput_twice.
        -- rewrite <-Ed. apply (fl_pages _ _ Hf1).
        -- specialize (Hc n). rewrite decide_False in Hc by lia. rewrite Hc. apply Hfresh. lia.
        -- rewrite (vflags_id f HV). intros m2 T2 l2 E2 Ec Hl2. simpl in Hlen. apply (IH m2 T2 (<[n := (p, f)]> A) l2); [|lia..].
           eapply (copying_evolved m T A (p :: l) n); try done.
           eapply copied_step; try done. lia.
        -- intros m2 T2 E2 Hl2. destruct (other_evolved _ _ _ _ _ _ _ _ _ _ _ _ E2 Hold Hap) as (H1 & H2 & H3).
           simpl in Hlen. eapply (uvmcopy_undo m2 T2 A [p] n); [|lia|lia]. split; [|done|done| |].
           ++ eapply evolved_trans; [eapply copied_sub; [|exact Hc]; lia|exact E|exact E2].
           ++ intros a Ha. rewrite H3 by done. by apply Hsame.
           ++ intros i. specialize (Hc i). case_decide; [|done]. destruct (Ao !! i) as [[q g]|]; [|done].
              destruct Hc as (q' & Hq & Eq). exists q'. split; [done|]. destruct (as_page _ _ _ _ _ _ _ _ HA Hq).
              by rewrite (ev_frame _ _ _ _ _ _ _ _ _ E2).
    + assert (Hskip : ((r =? 0) || negb (has (ld64 m r) PTE_V)) = true).
      { destruct Hw as [[-> _]|(_ & -> & _)]; [done|]. unfold apte. rewrite EA. apply orb_true_r. }
      rewrite Hskip. apply (IH m T A l); [|lia..]. apply copying_skip; done || lia.
  - wp_steps. assert (n = npg sz) as -> by (unfold npg in *; lia). exists T, A, l. split_and!; try done. by left.
Qed.
End Uvmcopy.

Lemma uvmcopy_spec m ro rn To Tn Ao An l sz :
  0 <= sz <= TRAPFRAME -> as_ok m ro To Ao l -> as_ok m rn Tn An l -> apart Tn An l To Ao ->
  (forall n, 0 <= n < npg sz -> An !! n = None) ->
  wp (uvmcopy ro rn sz) (fun r m' => exists T' A' l',
    evolved m Tn An l m' rn T' A' l' /\ as_ok m' ro To Ao l' /\ apart T' A' l' To Ao /\
    (forall n pa f, Ao !! n = Some (pa, f) -> km_pages m' pa = km_pages m pa) /\
    (r = 0 /\ (forall n, 0 <= n < npg sz ->
       match Ao !! n with
       | Some (pa, f) => exists pa', A' !! n = Some (pa', f) /\ pa' <> pa /\ km_pages m' pa' = km_pages m pa
       | None => A' !! n = None
       end) /\ (forall n, ~ (0 <= n < npg sz) -> A' !! n = An !! n) \/
     r = -1 /\ A' = An /\ (length l <= 3 * Z.to_nat (npg sz))%nat)) m.
Proof.
  intros Hsz Ho Hn Hap Hfresh. unfold uvmcopy. change 0 with (4096 * 0) at 1. pose proof (npg_range sz Hsz).
  eapply wp_conseq; [apply (uvmcopy_loop_spec m ro rn To Tn Ao An l sz Hsz Hfresh _ m Tn An l 0); [|lia|unfold PGSIZE, npg; lia|lia]|].
  - split; [by apply evolved_refl|done..|]. intros i. by rewrite decide_False by lia.
  - intros r m' (T' & A' & l' & E & H1 & H2 & H3 & Hres). exists T', A', l'.
    split_and!; [done|done|done| |].
    + intros n pa f Hk. apply H3, elem_of_upages. by exists n, f.
    + destruct Hres as [[-> Hc]|(-> & -> & Hl)]; [left|by right]. split_and!; [done| |].
      * intros n Hr. specialize (Hc n). rewrite decide_True in Hc by lia. destruct (Ao !! n) as [[pa f]|] eqn:EA; [|done].
        destruct Hc as (pa' & Hk & Ep). exists pa'. split_and!; [done| |done]. intros ->.
        unfold apart in H2. apply NoDup_app in H2 as (_ & Hd & _). apply (Hd pa).
        -- rewrite !elem_of_app. right. right. apply elem_of_upages. by exists n, f.
        -- rewrite elem_of_app. right. apply elem_of_upages. by exists n, f.
      * intros n Hr. specialize (Hc n). by rewrite decide_False in Hc by lia.
Qed.

(** C24. [uvmcopy] gives the child a copy of the parent's memory and no page of it.  For two address spaces
    that share nothing, where the child has nothing mapped below the size, it returns.  With result 0 the
    child has exactly the parent's pages below the size mapped, with the same permissions, in frames of
    its own with the same contents; with result -1, which happens only when at most three pages per page of the size are
    free, the child's mappings are what they were.  Either way the parent's mappings and memory are
    untouched, the two address spaces and the free list are still disjoint and no page is lost. *)
Theorem uvmcopy_correct m ro rn To Tn Ao An l sz :
  0 <= sz <= TRAPFRAME -> as_ok m ro To Ao l -> as_ok m rn Tn An l -> apart Tn An l To Ao ->
  (forall n, 0 <= n < npg sz -> An !! n = None) ->
  wp (uvmcopy ro rn sz) (fun r m' => exists T' A' l',
    as_ok m' ro To Ao l' /\ as_ok m' rn T' A' l' /\ apart T' A' l' To Ao /\
    l' ++ tpages T' ++ upages A' ≡ₚ l ++ tpages Tn ++ upages An /\
    (forall n pa f, Ao !! n = Some (pa, f) -> km_pages m' pa = km_pages m pa) /\
    (r = 0 /\ (forall n, 0 <= n < npg sz ->
       match Ao !! n with
       | Some (pa, f) => exists pa', A' !! n = Some (pa', f) /\ pa' <> pa /\ km_pages m' pa' = km_pages m pa
       | None => A' !! n = None
       end) /\ (forall n, ~ (0 <= n < npg sz) -> A' !! n = An !! n) \/
     r = -1 /\ A' = An /\ (length l <= 3 * Z.to_nat (npg sz))%nat)) m.
Proof.
  intros Hsz Ho Hn Hap Hfresh. eapply wp_conseq; [by apply uvmcopy_spec|].
  intros r m' (T' & A' & l' & [E1 _ E2 _ _] & H1 & H2 & H3 & Hres). exists T', A', l'. by split_and!.
Qed.
End Copy.
