(* ===== verification/VmFree.v ===== *)
(** Destroying an address space: [freewalk] and [uvmfree] give every page back. *)

From S2P Require Import Prelude Bytes Params Disk Riscv Kalloc Vm VmPt VmUser.

Section Free.
Context `{IM : Image} {IO : ImageOk}.

(** A page table of a level without valid last-level entries, with the pages of its tables; [cs i] are those below entry [i]. *)
Fixpoint tree (m : kmem) (lv : nat) (pa : Z) (ps : list Z) : Prop :=
  exists cs : Z -> list Z, ps = pa :: (seqZ 0 512 ≫= cs) /\ forall i, 0 <= i < 512 ->
    (has (entry m pa i) PTE_V = false /\ cs i = []) \/
    match lv with
    | O => False
    | S lv' => exists c, entry m pa i = mkpte c PTE_V /\ tree m lv' c (cs i)
    end.

Lemma tree_root m lv pa ps : tree m lv pa ps -> pa ∈ ps.
Proof. destruct lv; intros (cs & -> & _); by left. Qed.

Lemma elem_of_below (cs : Z -> list Z) i a : 0 <= i < 512 -> a ∈ cs i -> a ∈ seqZ 0 512 ≫= cs.
Proof. intros Hi Ha. apply list_elem_of_bind. exists i. split; [done|]. apply elem_of_seqZ. lia. Qed.

Lemma tree_frame m m' lv pa ps :
  (forall a, a ∈ ps -> km_pages m' a = km_pages m a) -> tree m lv pa ps -> tree m' lv pa ps.
Proof.
  revert pa ps. induction lv as [|lv IH]; intros pa ps E (cs & -> & H); exists cs; (split; [done|]); intros i Hi.
  all: assert (Ee : entry m' pa i = entry m pa i) by (unfold entry; by rewrite E by left); rewrite Ee.
  - by apply H.
  - destruct (H i Hi) as [?|(c & Ec & Ht)]; [by left|right]. exists c. split; [done|]. apply IH; [|done].
    intros a Ha. apply E. right. by eapply elem_of_below.
Qed.

(** The pages freed by the first [i] iterations of [freewalk]. *)
Definition freed (cs : Z -> list Z) (i : Z) : list Z := seqZ 0 i ≫= cs.

Lemma freed_S cs i : 0 <= i -> freed cs (i + 1) ≡ₚ freed cs i ++ cs i.
Proof.
  intros Hi. unfold freed. rewrite seqZ_app by lia. rewrite bind_app. replace (0 + i) with i by lia.
  simpl. by rewrite app_nil_r.
Qed.

Lemma freed_sub cs i a : i <= 512 -> a ∈ freed cs i -> a ∈ seqZ 0 512 ≫= cs.
Proof.
  intros Hi Ha. apply list_elem_of_bind in Ha as (j & Ha & Hj). apply elem_of_seqZ in Hj.
  eapply elem_of_below; [|exact Ha]. lia.
Qed.

(** The state of the loop of [freewalk] before iteration [i]. *)
Record walking (m0 : kmem) (pa : Z) (cs : Z -> list Z) (l : list Z) (i : Z) (m : kmem) : Prop := {
  wk_free : exists li, free_list m li /\ li ≡ₚ freed cs i ++ l;
  wk_frame a : a <> pa -> a ∉ freed cs i -> km_pages m a = km_pages m0 a;
  wk_entry j : i <= j < 512 -> entry m pa j = entry m0 pa j }.

Definition freewalk_post (m : kmem) (ps l : list Z) (_ : unit) (m' : kmem) : Prop :=
  (exists l', free_list m' l' /\ l' ≡ₚ ps ++ l) /\ forall a, a ∉ ps -> km_pages m' a = km_pages m a.

Lemma freewalk_body m0 pa cs l i m lv :
  0 <= i < 512 -> phys pa -> NoDup ((pa :: (seqZ 0 512 ≫= cs)) ++ l) -> Forall phys (seqZ 0 512 ≫= cs) ->
  (forall m c l', tree m lv c (cs i) -> free_list m l' -> NoDup (cs i ++ l') -> Forall phys (cs i) ->
     wp (freewalk (S lv) c) (freewalk_post m (cs i) l') m) ->
  (exists c, entry m0 pa i = mkpte c PTE_V /\ tree m0 lv c (cs i)) ->
  walking m0 pa cs l i m ->
  wp (freewalk (S lv) (PTE2PA (entry m pa i)) ;;; st64 (pa + 8 * i) 0) (fun _ => walking m0 pa cs l (i + 1)) m.
Proof.
  intros Hi Hpa Hnd Hph IH (c & Ec & Ht) [(li & Hf & Pl) Hfr He].
  assert (Hnd2 : NoDup (pa :: (freed cs 512 ++ l))) by exact Hnd. apply NoDup_cons in Hnd2 as [Hpn Hnd2].
  assert (Hsub : NoDup (freed cs (i + 1) ++ l)).
  { unfold freed in Hnd2 at 1. replace 512 with ((i + 1) + (512 - (i + 1))) in Hnd2 by lia.
    rewrite seqZ_app, bind_app in Hnd2 by lia. fold (freed cs (i + 1)) in Hnd2.
    rewrite <-app_assoc in Hnd2. rewrite (Permutation_app_comm (seqZ _ _ ≫= cs)) in Hnd2.
    rewrite app_assoc in Hnd2. by apply NoDup_app in Hnd2 as (? & _). }
  rewrite freed_S in Hsub by lia.
  assert (Hci : forall a, a ∈ cs i -> a <> pa /\ a ∉ freed cs i).
  { intros a Ha. split.
    - intros ->. apply Hpn. rewrite elem_of_app. left. unfold freed. by eapply elem_of_below.
    - intros Hin. rewrite <-app_assoc in Hsub. apply NoDup_app in Hsub as (_ & Hs & _). apply (Hs a Hin). rewrite elem_of_app. by left. }
  assert (Ht' : tree m lv c (cs i)) by (eapply tree_frame; [|exact Ht]; intros a Ha; by apply Hfr; apply Hci).
  assert (Hpc : Forall phys (cs i)).
  { apply Forall_forall. intros a Ha. rewrite Forall_forall in Hph. apply Hph. by eapply elem_of_below. }
  rewrite He, Ec by lia. assert (Hc : phys c) by (rewrite Forall_forall in Hpc; apply Hpc; by eapply tree_root).
  rewrite phys_pte by (done || by vm_compute). wp_step.
  eapply wp_conseq; [apply (IH m c li); try done; rewrite Pl, app_assoc, (Permutation_app_comm (cs i)); done|].
  intros [] m1 [(l1 & Hf1 & P1) Hfr1].
  assert (Hpc2 : pa ∉ cs i) by (intros Hin; by destruct (Hci pa Hin)).
  assert (Hpl : pa ∉ l1).
  { rewrite P1, Pl, !elem_of_app. intros [Hin|[Hin|Hin]]; [done| |].
    - apply Hpn. rewrite elem_of_app. left. eapply freed_sub; [|done]. lia.
    - apply Hpn. rewrite elem_of_app. by right. }
  apply st64_entry; [done|done|]. pose proof (fl_pages _ _ Hf1) as Hlen. split.
  - exists l1. split.
    + apply (free_list_frame m1); [done|done| |].
      * intros a Ha. apply bput_ne. by intros ->.
      * intros a. unfold setent. simpl. unfold bput. case_decide; [|done]. rewrite length_put64; rewrite ?Hlen; lia.
    + rewrite P1, Pl, freed_S by lia. rewrite app_assoc, (Permutation_app_comm (cs i)). done.
  - intros a Ha Hin. rewrite freed_S, elem_of_app in Hin by lia. unfold setent. simpl. rewrite bput_ne by done.
    rewrite Hfr1, Hfr by tauto. done.
  - intros j Hj. rewrite entry_setent by (done || lia). rewrite decide_False by lia.
    unfold entry. rewrite Hfr1 by done. apply He. lia.
Qed.

(** The table page itself is freed last. *)
Lemma freewalk_end m pa cs l m1 :
  phys pa -> NoDup ((pa :: (seqZ 0 512 ≫= cs)) ++ l) -> walking m pa cs l 512 m1 ->
  wp (kfree pa) (freewalk_post m (pa :: (seqZ 0 512 ≫= cs)) l) m1.
Proof.
  intros Hpa Hnd [(li & Hfi & Pl) Hfr _]. eapply wp_conseq; [apply (kfree_spec m1 li pa); [done|done|]|].
  - rewrite Pl. simpl in Hnd. by apply NoDup_cons in Hnd as [Hnd _].
  - intros [] m2 [Hf2 E2]. split.
    + exists (pa :: li). split; [done|]. by rewrite Pl.
    + intros a Ha. rewrite elem_of_cons in Ha. rewrite E2, Hfr by tauto. done.
Qed.

(** An entry that is not valid is passed over. *)
Lemma walking_skip m pa cs l i m1 : 0 <= i -> cs i = [] -> walking m pa cs l i m1 -> walking m pa cs l (i + 1) m1.
Proof.
  intros Hi Ecs [(li & Hfi & Pl) Hfr He].
  assert (E : freed cs (i + 1) ≡ₚ freed cs i) by (rewrite freed_S, Ecs, app_nil_r by lia; done). split.
  - exists li. split; [done|]. by rewrite E.
  - intros a Ha Hin. rewrite E in Hin. by apply Hfr.
  - intros j Hj. apply He. lia.
Qed.

Lemma freewalk_spec lv m pa ps l :
  tree m lv pa ps -> free_list m l -> NoDup (ps ++ l) -> Forall phys ps ->
  wp (freewalk (S lv) pa) (freewalk_post m ps l) m.
Proof.
  revert m pa ps l. induction lv as [|lv IH]; intros m pa ps l (cs & -> & H) Hf Hnd Hph.
  all: apply Forall_cons in Hph as [Hpa Hph]; cbn [freewalk]; wp_step; eapply (wp_each _ (walking m pa cs l)).
  all: try (split; [exists l; split; [done|]; unfold freed; by simpl|done|done]).
  all: change (0 + Z.of_nat 512) with 512; try (intros m1; by apply freewalk_end).
  all: intros i m1 Hi W; wp_steps; rewrite ld64_entry by done; pose proof (wk_entry _ _ _ _ _ _ W i ltac:(lia)) as He;
    destruct (H i Hi) as [[HV Ecs]|Hc].
  1, 3: rewrite He, HV; cbn [andb]; wp_steps; apply walking_skip; done || lia.
  - done.
  - pose proof Hc as (c & Ec & _). rewrite He, Ec, has_mkpte_V.
    replace (has (mkpte c PTE_V) (Z.lor (Z.lor PTE_R PTE_W) PTE_X)) with false by (rewrite has_mkpte; by vm_compute).
    cbn [andb negb]. rewrite <-Ec, <-He. apply (freewalk_body m pa cs l i m1 lv); try done.
    intros m2 c2 l2 T2 F2 N2 P2. by apply IH.
Qed.

(** ** The tree of a well-formed page table *)

Fixpoint sub (T : tables) (lv : nat) (q : Z) : list Z :=
  match T !! (lv, q) with
  | None => []
  | Some pa => pa :: match lv with O => seqZ 0 512 ≫= (fun _ => []) | S lv' => seqZ 0 512 ≫= (fun i => sub T lv' (q * 512 + i)) end
  end.

Lemma sub_none T lv q : T !! (lv, q) = None -> sub T lv q = [].
Proof. destruct lv; simpl; by intros ->. Qed.

Lemma sub_tree m root T l lv q pa :
  pt_ok m root T l -> (forall n, has (leaf m T n) PTE_V = false) -> 0 <= q -> T !! (lv, q) = Some pa -> tree m lv pa (sub T lv q).
Proof.
  intros H Hleaf. revert q pa. induction lv as [|lv IH]; intros q pa Hq Hk; cbn [sub tree]; rewrite Hk.
  - exists (fun _ => []). split; [done|]. intros i Hi. left. split; [|done]. specialize (Hleaf (q * 512 + i)). unfold leaf in Hleaf.
    replace ((q * 512 + i) / 512) with q in Hleaf by lia. rewrite Hk in Hleaf. by replace ((q * 512 + i) mod 512) with i in Hleaf by lia.
  - exists (fun i => sub T lv (q * 512 + i)). split; [done|]. intros i Hi. rewrite (pt_entry _ _ _ _ H lv q pa i Hk Hi).
    destruct (T !! (lv, q * 512 + i)) as [c|] eqn:Ec; [right|left; by rewrite sub_none]. exists c. split; [done|]. apply IH; [lia|done].
Qed.

Lemma sub_key T lv q y : 0 <= q -> y ∈ sub T lv q ->
  exists l' q', T !! (l', q') = Some y /\ (l' <= lv)%nat /\ 0 <= q' /\ q' / 512 ^ Z.of_nat (lv - l') = q.
Proof.
  revert q. induction lv as [|lv IH]; intros q Hq Hy; cbn [sub] in Hy; destruct (T !! (_, q)) as [pa|] eqn:Hk;
    try (by apply elem_of_nil in Hy); apply elem_of_cons in Hy as [->|Hy].
  1, 3: eexists _, q; split_and!; [exact Hk|lia|done|]; rewrite Nat.sub_diag; by rewrite Z.div_1_r.
  - apply list_elem_of_bind in Hy as (i & Hy & _). by apply elem_of_nil in Hy.
  - apply list_elem_of_bind in Hy as (i & Hy & Hi). apply elem_of_seqZ in Hi.
    destruct (IH (q * 512 + i) ltac:(lia) Hy) as (l' & q' & Hk' & Hl & Hq' & E). exists l', q'. split_and!; [done|lia|done|].
    replace (Z.of_nat (S lv - l')) with (Z.of_nat (lv - l') + 1) by lia. rewrite Z.pow_add_r, <-Z.div_div, E by lia.
    change (512 ^ 1) with 512. lia.
Qed.

Lemma sub_nodup m root T l lv q : pt_ok m root T l -> 0 <= q -> NoDup (sub T lv q).
Proof.
  intros H. revert q. induction lv as [|lv IH]; intros q Hq; cbn [sub]; destruct (T !! (_, q)) as [pa|] eqn:Hk; try by constructor.
  - apply NoDup_cons. split; [|apply NoDup_bind; [|constructor|apply NoDup_seqZ]].
    + intros Hin. apply list_elem_of_bind in Hin as (i & Hin & _). by apply elem_of_nil in Hin.
    + intros x1 x2 y _ _ Hy. by apply elem_of_nil in Hy.
  - apply NoDup_cons. split.
    + intros Hin. apply list_elem_of_bind in Hin as (i & Hin & Hi). apply elem_of_seqZ in Hi.
      destruct (sub_key T lv (q * 512 + i) pa ltac:(lia) Hin) as (l' & q' & Hk' & Hl & _).
      pose proof (pt_inj _ _ _ _ _ _ _ H Hk Hk') as [= <- _]. lia.
    + apply NoDup_bind; [|intros i Hi; apply elem_of_seqZ in Hi; apply IH; lia|apply NoDup_seqZ].
      intros i1 i2 y Hi1 Hi2 Hy1 Hy2. apply elem_of_seqZ in Hi1, Hi2.
      destruct (sub_key T lv (q * 512 + i1) y ltac:(lia) Hy1) as (l1 & q1 & Hk1 & _ & _ & E1).
      destruct (sub_key T lv (q * 512 + i2) y ltac:(lia) Hy2) as (l2 & q2 & Hk2 & _ & _ & E2).
      pose proof (pt_inj _ _ _ _ _ _ _ H Hk1 Hk2) as [= <- <-]. rewrite E1 in E2. lia.
Qed.

Lemma sub_child T lv q i y pa : T !! (S lv, q) = Some pa -> 0 <= i < 512 -> y ∈ sub T lv (q * 512 + i) -> y ∈ sub T (S lv) q.
Proof.
  intros Hk Hi Hy. cbn [sub]. rewrite Hk. right. apply list_elem_of_bind. exists i. split; [done|]. apply elem_of_seqZ. lia.
Qed.

Lemma sub_self T lv q pa : T !! (lv, q) = Some pa -> pa ∈ sub T lv q.
Proof. destruct lv; cbn [sub]; intros ->; by left. Qed.

Lemma sub_all m root T l : pt_ok m root T l -> sub T 2 0 ≡ₚ tpages T.
Proof.
  intros H. pose proof (pt_nodup _ _ _ _ H) as Hn. apply NoDup_app in Hn as (_ & _ & Hn).
  apply NoDup_Permutation; [by eapply sub_nodup|done|]. intros y. rewrite elem_of_tpages. split.
  - intros Hy. destruct (sub_key T 2 0 y ltac:(lia) Hy) as (l' & q' & Hk & _). by exists (l', q').
  - intros [[lv q] Hk]. destruct (pt_key _ _ _ _ H lv q) as [Hlv Hq]; [by exists y|].
    assert (Hc : forall lv' q', is_Some (T !! (lv', q')) -> (lv' < 2)%nat -> 0 <= q' -> y ∈ sub T lv' q' -> y ∈ sub T (S lv') (q' / 512)).
    { intros lv' q' Hs Hl Hq' Hy. destruct (pt_parent _ _ _ _ H lv' q' Hs Hl) as [pp Hpp].
      apply (sub_child T lv' (q' / 512) (q' mod 512) y pp Hpp); [lia|]. by replace (q' / 512 * 512 + q' mod 512) with q' by lia. }
    assert (Hs : is_Some (T !! (lv, q))) by by exists y. pose proof (sub_self _ _ _ _ Hk) as Hy.
    destruct lv as [|[|[|?]]]; [| | |lia].
    + change (512 ^ (2 - Z.of_nat 0)) with 262144 in Hq. pose proof (Hc 0%nat q Hs ltac:(lia) ltac:(lia) Hy) as Hy1.
      pose proof (pt_parent _ _ _ _ H 0 q Hs ltac:(lia)) as Hs1.
      pose proof (Hc 1%nat (q / 512) Hs1 ltac:(lia) ltac:(lia) Hy1) as Hy2. by replace (q / 512 / 512) with 0 in Hy2 by lia.
    + change (512 ^ (2 - Z.of_nat 1)) with 512 in Hq. pose proof (Hc 1%nat q Hs ltac:(lia) ltac:(lia) Hy) as Hy1.
      by replace (q / 512) with 0 in Hy1 by lia.
    + change (512 ^ (2 - Z.of_nat 2)) with 1 in Hq. by replace q with 0 in Hy by lia.
Qed.

(** [uvmfree] once the mappings above the user part are gone. *)
Lemma uvmfree_spec m root T A l sz :
  as_ok m root T A l -> 0 <= sz <= TRAPFRAME -> (forall n, is_Some (A !! n) -> n < npg sz) ->
  (forall n, UPN <= n -> has (leaf m T n) PTE_V = false) ->
  wp (uvmfree root sz) (fun _ m' => (exists l', free_list m' l' /\ l' ≡ₚ l ++ tpages T ++ upages A) /\
    forall a, a ∉ l ++ tpages T ++ upages A -> km_pages m' a = km_pages m a) m.
Proof.
  intros H Hsz Hdom Htop. pose proof (npg_range sz Hsz) as Hr. unfold uvmfree.
  assert (Hg : gone A 0 (npg sz) = ∅).
  { apply map_eq. intros n. rewrite lookup_gone, lookup_empty. case_decide as Hd; [done|].
    destruct (A !! n) as [[pa f]|] eqn:E; [|done]. destruct (as_dom _ _ _ _ _ H _ _ _ E) as [? _].
    specialize (Hdom n ltac:(by eexists)). lia. }
  assert (W : wp (if 0 <? sz then uvmunmap root 0 (PGROUNDUP sz / PGSIZE) true else ret tt)
                (fun _ m' => exists l', unmapped m root T A l m' 0 (npg sz) l') m).
  { rewrite npg_up by done. replace (4096 * npg sz / PGSIZE) with (npg sz) by (unfold PGSIZE; lia).
    destruct (Z.ltb_spec 0 sz); [change 0 with (4096 * 0) at 1; apply uvmunmap_spec; done || lia|].
    replace (npg sz) with 0 in * by (unfold npg; lia). wp_steps. exists l. split; try done; by rewrite gone_nil. }
  wp_step. eapply wp_conseq; [exact W|]. intros [] m1 (l1 & [U1 U2 U3 U4]). rewrite Hg in *.
  assert (Eu : upages ∅ = []) by (unfold upages; by rewrite map_to_list_empty). rewrite Eu, app_nil_r in U2.
  assert (Hl0 : forall n, has (leaf m1 T n) PTE_V = false).
  { intros n. destruct (decide (0 <= n < UPN)) as [Hn|Hn].
    - rewrite (as_leaf _ _ _ _ _ U1) by done. unfold apte. by rewrite lookup_empty.
    - destruct (decide (n < 0)) as [Hneg|].
      + unfold leaf. destruct (T !! (0%nat, n / 512)) eqn:E; [|done]. exfalso.
        destruct (pt_key _ _ _ _ (as_pt _ _ _ _ _ U1) 0 (n / 512)) as [_ Hk]; [by eexists|]. lia.
      + rewrite U3 by lia. apply Htop. lia. }
  pose proof (as_pt _ _ _ _ _ U1) as Hpt.
  eapply wp_conseq; [apply (freewalk_spec 2 m1 root (sub T 2 0) l1)|].
  - eapply sub_tree; [exact Hpt|done|lia|apply Hpt].
  - apply U1.
  - rewrite (sub_all _ _ _ _ Hpt), Permutation_app_comm. apply Hpt.
  - rewrite (sub_all _ _ _ _ Hpt). apply Forall_forall. intros a Ha. apply elem_of_tpages in Ha as [k Hk]. by eapply pt_phys.
  - intros [] m2 [(l2 & Hf2 & P2) Hfr2]. split.
    + exists l2. split; [done|]. rewrite P2, (sub_all _ _ _ _ Hpt), U2, !app_assoc.
      by rewrite (Permutation_app_comm (tpages T) l).
    + intros a Ha. rewrite !elem_of_app in Ha. rewrite Hfr2 by (rewrite (sub_all _ _ _ _ Hpt); tauto).
      apply U4; [|tauto]. rewrite U2, elem_of_app. tauto.
Qed.

(** [uvmunmap] of one page without freeing the frame. *)
Lemma unmap_keep m root T l n :
  pt_ok m root T l -> 0 <= n < 2 ^ 26 ->
  wp (uvmunmap root (4096 * n) 1 false) (fun _ m' => pt_ok m' root T l /\
    (forall n', n' <> n -> leaf m' T n' = leaf m T n') /\ has (leaf m' T n) PTE_V = false /\
    forall a, a ∉ tpages T -> km_pages m' a = km_pages m a) m.
Proof.
  intros H Hn. unfold uvmunmap, PGSIZE. rewrite (proj2 (Z.eqb_eq _ 0)) by lia. cbn [negb].
  rewrite u64_id by lia. change (Z.to_nat 1) with 1%nat. cbn [uvmunmap_loop]. rewrite (proj2 (Z.ltb_lt _ _)) by lia.
  assert (Hva : 0 <= 4096 * n < MAXVA) by (change MAXVA with (2 ^ 38); lia).
  wp_step. eapply wp_conseq; [by apply (walk_lookup m root T l)|]. intros r ? [-> ->]. wp_steps.
  assert (Hend : forall m1, wp (if u64 (4096 * n + PGSIZE) <? 4096 * n + 1 * 4096 then
      let* pte := walk root (u64 (4096 * n + PGSIZE)) false in let* m2 := get in
      (if pte =? 0 then ret tt else if negb (has (ld64 m2 pte) PTE_V) then ret tt else ret tt ;;; st64 pte 0) ;;; nofuel
      else ret tt) (fun _ m2 => m2 = m1) m1).
  { intros m1. rewrite u64_id, (proj2 (Z.ltb_ge _ _)) by (unfold PGSIZE; lia). by wp_steps. }
  replace (4096 * n / 4096) with n in * by lia.
  destruct (T !! vkey 0 (4096 * n)) as [p|] eqn:E.
  - rewrite (proj2 (Z.eqb_neq _ _)) by (eapply pte_addr_pos; [done|by rewrite E]).
    rewrite (ld64_leaf m root T l _ p) by (done || lia). replace (4096 * n / 4096) with n by lia.
    destruct (has (leaf m T n) PTE_V) eqn:HV; cbn [negb].
    + wp_steps. eapply wp_conseq; [apply (set_leaf m root T l _ p); done || lia|].
      replace (4096 * n / 4096) with n by lia. intros [] m1 [G Hfr]. eapply wp_conseq; [apply Hend|]. intros [] ? ->.
      split_and!; [apply G| | |done].
      * intros n' Hn'. rewrite (gr_leaf _ _ _ _ _ _ _ _ G). by rewrite decide_False.
      * rewrite (gr_leaf _ _ _ _ _ _ _ _ G). by rewrite decide_True.
    + wp_steps. eapply wp_conseq; [apply Hend|]. intros [] ? ->. by split_and!.
  - unfold pte_addr. rewrite E. simpl (0 =? 0). cbn match. wp_steps. eapply wp_conseq; [apply Hend|]. intros [] ? ->. split_and!; try done.
    unfold leaf. rewrite vkey_vpn in E by lia. replace (4096 * n / 4096) with n in E by lia. by rewrite E.
Qed.

Lemma as_unmap_keep m root T A l n :
  as_ok m root T A l -> UPN <= n < 2 ^ 26 ->
  wp (uvmunmap root (4096 * n) 1 false) (fun _ m' => as_ok m' root T A l /\
    (forall n', n' <> n -> leaf m' T n' = leaf m T n') /\ has (leaf m' T n) PTE_V = false /\
    forall a, a ∉ tpages T -> km_pages m' a = km_pages m a) m.
Proof.
  intros H Hn. pose proof UPN_eq. eapply wp_conseq; [apply (unmap_keep m root T l); [apply H|lia]|].
  intros [] m' (H1 & H2 & H3 & H4). split_and!; try done. split; [done| |apply H|apply H].
  intros n' Hn'. rewrite H2 by lia. by apply H.
Qed.

Lemma proc_freepagetable_spec m root T A l sz :
  as_ok m root T A l -> 0 <= sz <= TRAPFRAME -> (forall n, is_Some (A !! n) -> n < npg sz) ->
  (forall n, UPN + 1 < n -> has (leaf m T n) PTE_V = false) ->
  wp (proc_freepagetable root sz) (fun _ m' => (exists l', free_list m' l' /\ l' ≡ₚ l ++ tpages T ++ upages A) /\
    forall a, a ∉ l ++ tpages T ++ upages A -> km_pages m' a = km_pages m a) m.
Proof.
  intros H Hsz Hdom Htop. pose proof UPN_eq as HU. unfold proc_freepagetable.
  change TRAMPOLINE with (4096 * (UPN + 1)). change TRAPFRAME with (4096 * UPN).
  wp_step. eapply wp_conseq; [apply (as_unmap_keep m root T A l); done || lia|]. intros [] m1 (H1 & L1 & V1 & F1).
  wp_step. eapply wp_conseq; [apply (as_unmap_keep m1 root T A l); done || lia|]. intros [] m2 (H2 & L2 & V2 & F2).
  eapply wp_conseq; [apply (uvmfree_spec m2 root T A l); try done|].
  - intros n Hn. destruct (decide (n = UPN)) as [->|]; [done|]. rewrite L2 by done.
    destruct (decide (n = UPN + 1)) as [->|]; [done|]. rewrite L1 by done. apply Htop. lia.
  - intros [] m3 [Hf Hfr]. split; [done|]. intros a Ha. rewrite Hfr by done. rewrite !elem_of_app in Ha. rewrite F2, F1 by tauto. done.
Qed.

(** C30. [proc_freepagetable] gives back everything.  For an address space whose user pages lie below the
    size and which maps nothing above them but the trapframe and the trampoline, it returns, and the
    free list then consists of the pages that were free, all table pages and all user frames, each
    once; no other page has changed. *)
Theorem proc_freepagetable_correct m root T A l sz :
  as_ok m root T A l -> 0 <= sz <= TRAPFRAME -> (forall n, is_Some (A !! n) -> n < npg sz) ->
  (forall n, UPN + 1 < n -> has (leaf m T n) PTE_V = false) ->
  wp (proc_freepagetable root sz) (fun _ m' => (exists l', free_list m' l' /\ l' ≡ₚ l ++ tpages T ++ upages A) /\
    forall a, a ∉ l ++ tpages T ++ upages A -> km_pages m' a = km_pages m a) m.
Proof. apply proc_freepagetable_spec. Qed.

(** Mapping a page above the user part. *)
Lemma map_top m root T A l n pa perm :
  as_ok m root T A l -> UPN <= n < 2 ^ 26 -> 0 <= pa < 2 ^ 55 -> 0 <= perm < 1024 -> has (leaf m T n) PTE_V = false ->
  wp (mappages root (4096 * n) PGSIZE pa perm) (fun r m' => exists T' l' j,
    as_ok m' root T' A l' /\ grows m T l m' root T' l' (mapping (leaf m T) n j pa (vflags perm)) /\
    (r = 0 /\ j = 1 \/ r = -1 /\ j = 0 /\ l' = []) /\ (length l <= length l' + 2)%nat) m.
Proof.
  intros H Hn Hpa Hperm HV. pose proof UPN_eq. change PGSIZE with (4096 * 1).
  eapply wp_conseq; [apply (mappages_spec m root T l n 1 pa perm); try done; try lia|].
  - apply H.
  - change MAXVA with (2 ^ 38). lia.
  - intros n' Hn'. by replace n' with n by lia.
  - intros r m' (T' & l' & j & G & Hres & Hlen & _). exists T', l', j.
    split_and!; [|done|destruct Hres as [?|(-> & ? & ->)]; [by left|right; split_and!; lia || done]|lia].
    split; [apply G| |apply H|].
    + intros n' Hn'. rewrite (gr_leaf _ _ _ _ _ _ _ _ G). unfold mapping. rewrite decide_False by lia. by apply H.
    + rewrite app_assoc, (gr_pages _ _ _ _ _ _ _ _ G), <-app_assoc. apply H.
Qed.

(** The page table of a new process, or none, nothing lost, and at most five free pages. *)
Definition proc_pagetable_post (m : kmem) (l : list Z) (tf : Z) (r : Z) (m' : kmem) : Prop := exists l',
  free_list m' l' /\ (forall a, a ∉ l -> km_pages m' a = km_pages m a) /\
  (r = 0 /\ l' ≡ₚ l /\ (length l <= 5)%nat \/
   exists T, as_ok m' r T ∅ l' /\ l' ++ tpages T ≡ₚ l /\
     leaf m' T UPN = mkpte tf (vflags (Z.lor PTE_R PTE_W)) /\
     leaf m' T (UPN + 1) = mkpte im_trampoline (vflags (Z.lor PTE_R PTE_X)) /\
     forall n, UPN + 1 < n -> leaf m' T n = 0).

Lemma upages_empty : upages ∅ = [].
Proof. unfold upages. by rewrite map_to_list_empty. Qed.

Lemma proc_pagetable_undo m root T l m0 l0 tf :
  as_ok m root T ∅ l -> l ++ tpages T ≡ₚ l0 -> (length l0 <= 5)%nat -> (forall n, UPN <= n -> has (leaf m T n) PTE_V = false) ->
  (forall a, a ∉ l0 -> km_pages m a = km_pages m0 a) ->
  wp (uvmfree root 0 ;;; ret 0) (proc_pagetable_post m0 l0 tf) m.
Proof.
  intros H P H5 HV Hfr. wp_step. eapply wp_conseq; [apply (uvmfree_spec m root T ∅ l 0); try done|].
  - intros n Hn. rewrite lookup_empty in Hn. by destruct Hn.
  - rewrite upages_empty, app_nil_r. intros [] m' [(l' & Hf & P') F]. wp_steps. exists l'.
    split_and!; [done| |left; split_and!; [done|by rewrite P', P|done]]. intros a Ha. rewrite F by (by rewrite P). by apply Hfr.
Qed.

Lemma proc_pagetable_spec m l tf :
  free_list m l -> 0 <= tf < 2 ^ 55 -> wp (proc_pagetable tf) (proc_pagetable_post m l tf) m.
Proof.
  intros H Htf. pose proof UPN_eq as HU. pose proof im_base as Hb. pose proof im_fits as Hft. pose proof im_order as Hor. pose proof im_etext_page as Het.
  unfold KERNBASE, PHYSTOP, PGSIZE in *.
  unfold proc_pagetable. wp_step. eapply wp_conseq; [by apply uvmcreate_spec|]. intros root m1 Hr.
  destruct l as [|c l].
  { destruct Hr as [-> ->]. simpl (0 =? 0). cbn match. wp_steps. exists []. split_and!; [done|done|left; split_and!; done || simpl; lia]. }
  destruct Hr as (-> & H1 & F1 & L1). assert (Hc : phys c) by (by apply fl_phys, Forall_cons in H as [? _]).
  pose proof (phys_pos _ Hc). rewrite (proj2 (Z.eqb_neq c 0)) by lia.
  assert (P1 : l ++ tpages {[(2%nat, 0) := c]} ≡ₚ c :: l).
  { unfold tpages. rewrite map_to_list_singleton. simpl. by rewrite (Permutation_app_comm l). }
  assert (Hfr1 : forall a, a ∉ c :: l -> km_pages m1 a = km_pages m a) by (intros a Ha; apply F1; intros ->; apply Ha; by left).
  change TRAMPOLINE with (4096 * (UPN + 1)). change TRAPFRAME with (4096 * UPN).
  wp_step. eapply wp_conseq; [apply (map_top m1 c {[(2%nat, 0) := c]} ∅ l); [done|lia|unfold KERNBASE in *; lia|by vm_compute|by rewrite L1]|].
  intros r m2 (T2 & l2 & j & H2 & G2 & Hres2 & N2).
  assert (P2 : l2 ++ tpages T2 ≡ₚ c :: l) by (by rewrite (gr_pages _ _ _ _ _ _ _ _ G2)).
  assert (Hfr2 : forall a, a ∉ c :: l -> km_pages m2 a = km_pages m a).
  { intros a Ha. rewrite (gr_frame _ _ _ _ _ _ _ _ G2) by (by rewrite P1). by apply Hfr1. }
  assert (L2 : forall n, leaf m2 T2 n = mapping (fun _ => 0) (UPN + 1) j im_trampoline (vflags (Z.lor PTE_R PTE_X)) n).
  { intros n. rewrite (gr_leaf _ _ _ _ _ _ _ _ G2). unfold mapping. case_decide; [done|]. apply L1. }
  destruct Hres2 as [[-> ->]|(-> & -> & ->)]; cbn [Z.ltb Z.compare].
  2: { eapply proc_pagetable_undo; [exact H2|done|simpl in *; lia| |done]. intros n Hn. by rewrite L2, mapping_nil. }
  wp_step. eapply wp_conseq; [apply (map_top m2 c T2 ∅ l2); [done|lia|lia|by vm_compute|]|].
  { rewrite L2. unfold mapping. by rewrite decide_False by lia. }
  intros r m3 (T3 & l3 & j & H3 & G3 & Hres3 & N3).
  assert (P3 : l3 ++ tpages T3 ≡ₚ c :: l) by (by rewrite (gr_pages _ _ _ _ _ _ _ _ G3)).
  assert (Hfr3 : forall a, a ∉ c :: l -> km_pages m3 a = km_pages m a).
  { intros a Ha. rewrite (gr_frame _ _ _ _ _ _ _ _ G3) by (by rewrite P2). by apply Hfr2. }
  destruct Hres3 as [[-> ->]|(-> & -> & ->)]; cbn [Z.ltb Z.compare].
  - wp_steps. exists l3. split_and!; [apply H3|done|right]. exists T3. split_and!; [done|done|..].
    1, 2: rewrite (gr_leaf _ _ _ _ _ _ _ _ G3); unfold mapping.
    + rewrite decide_True by lia. f_equal. lia.
    + rewrite decide_False, L2 by lia. unfold mapping. rewrite decide_True by lia. f_equal. lia.
    + intros n Hn. rewrite (gr_leaf _ _ _ _ _ _ _ _ G3). unfold mapping. rewrite decide_False, L2 by lia.
      unfold mapping. by rewrite decide_False by lia.
  - wp_step. eapply wp_conseq; [apply (as_unmap_keep m3 c T3 ∅ []); done || lia|]. intros [] m4 (H4 & L4 & V4 & F4).
    eapply proc_pagetable_undo; [exact H4|done|simpl in *; lia| |].
    + intros n Hn. destruct (decide (n = UPN + 1)) as [->|]; [done|].
      rewrite L4, (gr_leaf _ _ _ _ _ _ _ _ G3), mapping_nil, L2 by done. unfold mapping. by rewrite decide_False by lia.
    + intros a Ha. rewrite F4; [by apply Hfr3|]. intros Hin. apply Ha. rewrite <-P3, elem_of_app. by right.
Qed.
End Free.
