(* ===== verification/VmKernel.v ===== *)
(** The kernel page table, kernel/vm.c: what [kvmmake] maps, and with which permissions. *)

From S2P Require Import Prelude Bytes Params Riscv Disk Kalloc Vm VmPt VmUser.

(** ** Where the tables of the kernel lie *)

(** The addresses that [kvmmake] maps: the devices, the memory, and the top of the address space. *)
Definition kregion (va : Z) : Prop :=
  PLIC <= va < VIRTIO0 + PGSIZE \/ KERNBASE <= va < PHYSTOP \/ MAXVA - 2 ^ 21 <= va < MAXVA.

(** Their tables: the root, three of the middle level, and 98 of the last. *)
Definition kkeys : list (nat * Z) :=
  (2%nat, 0) :: map (pair 1%nat) [0; 2; 255] ++ map (pair 0%nat) (seqZ 96 33 ++ seqZ 1024 64 ++ [131071]).

Lemma kregion_keys j va : kregion va -> (j < 2)%nat -> vkey j va ∈ kkeys.
Proof.
  intros Hr Hj. unfold kregion, PLIC, VIRTIO0, KERNBASE, PHYSTOP, PGSIZE in Hr. change MAXVA with (2 ^ 38) in Hr. unfold kkeys, vkey.
  apply elem_of_cons. right. apply elem_of_app. destruct j as [|j].
  - right. apply list_elem_of_fmap. eexists. split; [done|]. change (2 ^ (21 + 9 * Z.of_nat 0)) with 2097152.
    rewrite !elem_of_app, !elem_of_seqZ, list_elem_of_singleton. unfold KERNBASE in Hr. lia.
  - left. destruct j; [|lia]. apply list_elem_of_fmap. eexists. split; [done|]. change (2 ^ (21 + 9 * Z.of_nat 1)) with 1073741824.
    rewrite !elem_of_cons. unfold KERNBASE in Hr. lia.
Qed.

Lemma kkeys_size (T : tables) : (forall k, is_Some (T !! k) -> k ∈ kkeys) -> (size T <= 102)%nat.
Proof.
  intros Hk. rewrite <-(size_dom T). transitivity (size (list_to_set kkeys : gset (nat * Z))).
  - apply subseteq_size. intros k Hin. apply elem_of_list_to_set, Hk. by apply elem_of_dom.
  - vm_compute. lia.
Qed.

Lemma length_tpages (T : tables) : length (tpages T) = size T.
Proof. unfold tpages. rewrite length_fmap. by rewrite length_map_to_list. Qed.

(** ** The kernel's memory map *)

(** The process whose kernel stack a virtual address is in. *)
Definition kstack_of (va : Z) : option Z :=
  let d := TRAMPOLINE - PGROUNDDOWN va in
  if (d mod (2 * PGSIZE) =? 0) && (0 <? d) && (d <=? 2 * NPROC * PGSIZE) then Some (d / (2 * PGSIZE) - 1) else None.

(** The entry of the kernel page table for a virtual address: devices and memory where they are, the
    kernel's text read-only, the trampoline at the top, and below it the stacks, [stacks] in order. *)
Definition kpte `{Image} (stacks : list Z) (va : Z) : Z :=
  let rw pa := mkpte pa (vflags (Z.lor PTE_R PTE_W)) in
  let rx pa := mkpte pa (vflags (Z.lor PTE_R PTE_X)) in
  let page := PGROUNDDOWN va in
  if bool_decide (PLIC <= va < VIRTIO0 + PGSIZE) then rw page
  else if bool_decide (KERNBASE <= va < im_etext) then rx page
  else if bool_decide (im_etext <= va < PHYSTOP) then rw page
  else if bool_decide (TRAMPOLINE <= va < MAXVA) then rx im_trampoline
  else match kstack_of va with
       | Some p => match stacks !! Z.to_nat p with Some pa => rw pa | None => 0 end
       | None => 0
       end.

Section Kernel.
Context `{IM : Image} {IO : ImageOk}.

(** The kernel page table while it is built, from [N] free pages: its leaf entries are [L], and [S] are the pages taken for stacks. *)
Record kv (m : kmem) (root : Z) (T : tables) (l S : list Z) (N : nat) (L : Z -> Z) : Prop := {
  kv_pt : pt_ok m root T l;
  kv_keys k : is_Some (T !! k) -> k ∈ kkeys;
  kv_count : (length l + size T + length S = N)%nat;
  kv_nodup : NoDup (l ++ tpages T ++ S);
  kv_phys : Forall phys S;
  kv_leaf n : leaf m T n = L n }.

Lemma kvmmap_spec m root T l S N L n0 k pa perm :
  kv m root T l S N L -> (length S <= 64)%nat -> (167 <= N)%nat -> 0 <= n0 -> 0 < k -> 4096 * (n0 + k) <= MAXVA -> 0 <= pa ->
  pa + 4096 * k <= 2 ^ 56 -> 0 <= perm < 1024 -> (forall n, n0 <= n < n0 + k -> L n = 0 /\ kregion (4096 * n)) ->
  wp (kvmmap root (4096 * n0) pa (4096 * k) perm) (fun _ m' => exists T' l', kv m' root T' l' S N (mapping L n0 k pa (vflags perm))) m.
Proof.
  intros H HS HN Hn Hk Hmax Hpa Hpa' Hperm Hreg. unfold kvmmap. wp_step.
  eapply wp_conseq; [apply (mappages_spec m root T l n0 k pa perm); try done|].
  { apply H. }
  { intros n Hn'. rewrite (kv_leaf _ _ _ _ _ _ _ H). by rewrite (proj1 (Hreg n Hn')). }
  intros r m' (T' & l' & j & G & Hres & _ & Ht).
  assert (Hkeys : forall key, is_Some (T' !! key) -> key ∈ kkeys).
  { intros key Hkey. destruct (Ht key Hkey) as [?|(i & va & Hi & (n & -> & Hn') & ->)]; [by eapply kv_keys|].
    apply kregion_keys; [by apply Hreg|done]. }
  assert (Hcount : (length l' + size T' + length S = N)%nat).
  { pose proof (Permutation_length (gr_pages _ _ _ _ _ _ _ _ G)) as E. rewrite !length_app, !length_tpages in E.
    rewrite <-(kv_count _ _ _ _ _ _ _ H). lia. }
  destruct Hres as [[-> ->]|(-> & _ & ->)].
  - change (negb (0 =? 0)) with false. cbv iota. wp_step. exists T', l'. split; try done; try apply G.
    + rewrite app_assoc, (gr_pages _ _ _ _ _ _ _ _ G), <-app_assoc. apply H.
    + apply H.
    + intros n. rewrite (gr_leaf _ _ _ _ _ _ _ _ G). unfold mapping. case_decide; [done|]. apply H.
  - exfalso. pose proof (kkeys_size T' Hkeys). simpl in Hcount. lia.
Qed.

(** Taking a page for a stack. *)
Lemma kv_kalloc m root T l S N L :
  kv m root T l S N L -> (length S < 64)%nat -> (167 <= N)%nat ->
  wp kalloc (fun pa m' => exists l', kv m' root T l' (S ++ [pa]) N L /\ phys pa) m.
Proof.
  intros H HS HN. pose proof (kkeys_size T (kv_keys _ _ _ _ _ _ _ H)) as Hsz. pose proof (kv_count _ _ _ _ _ _ _ H) as Hc.
  destruct l as [|c l]; [simpl in Hc; lia|]. pose proof (kv_pt _ _ _ _ _ _ _ H) as Hp.
  eapply wp_conseq; [apply kalloc_spec, Hp|]. intros r m' (-> & Hf & Ep). pose proof (pt_nodup _ _ _ _ Hp) as Hnd.
  pose proof (kv_nodup _ _ _ _ _ _ _ H) as Hnd2. simpl in Hnd, Hnd2. apply NoDup_cons in Hnd as [Hc1 Hnd]. apply NoDup_cons in Hnd2 as [Hc2 Hnd2].
  destruct (pt_frame m root T (c :: l) m' l Hp Hf Hnd) as [Hp' Hl'].
  { intros a Ha. rewrite Ep. apply bput_ne. intros ->. apply Hc1. apply elem_of_app. by right. }
  assert (Hph : phys c) by (pose proof (fl_phys _ _ (pt_free _ _ _ _ Hp)) as Hph; by apply Forall_cons in Hph as [? _]).
  exists l. split; [|done]. split; try done.
  - apply H.
  - rewrite length_app. simpl in *. lia.
  - rewrite (app_assoc (tpages T)), app_assoc. apply NoDup_app. split_and!; [done| |apply NoDup_singleton].
    intros x Hx Hx'. apply list_elem_of_singleton in Hx' as ->. done.
  - apply Forall_app. split; [apply H|by apply Forall_singleton].
  - intros n. rewrite Hl'. apply H.
Qed.

(** The stacks of the first processes on top of a page table. *)
Definition kstacks (L : Z -> Z) (S : list Z) (n : Z) : Z :=
  match kstack_of (4096 * n) with
  | Some p => match S !! Z.to_nat p with Some pa => mkpte pa (vflags (Z.lor PTE_R PTE_W)) | None => L n end
  | None => L n
  end.

Lemma kstack_of_spec n p : kstack_of (4096 * n) = Some p <-> 0 <= p < NPROC /\ 4096 * n = KSTACK p.
Proof.
  unfold kstack_of, KSTACK. rewrite PGROUNDDOWN_eq, (Z.mul_comm 4096 n), Z.div_mul by done. change TRAMPOLINE with (4096 * (2 ^ 26 - 1)).
  unfold PGSIZE, NPROC. destruct (_ && _) eqn:E.
  - rewrite !andb_true_iff, Z.eqb_eq, Z.ltb_lt, Z.leb_le in E. split; [intros [= <-]; lia|]. intros [? ?]. f_equal. lia.
  - split; [done|]. intros [? ?]. exfalso. rewrite <-not_true_iff_false, !andb_true_iff, Z.eqb_eq, Z.ltb_lt, Z.leb_le in E. apply E. lia.
Qed.

Lemma kstacks_snoc L S pa n :
  (length S < 64)%nat ->
  mapping (kstacks L S) (KSTACK (Z.of_nat (length S)) / 4096) 1 pa (vflags (Z.lor PTE_R PTE_W)) n = kstacks L (S ++ [pa]) n.
Proof.
  intros HS. unfold mapping, kstacks. destruct (kstack_of (4096 * n)) as [p|] eqn:E.
  - apply kstack_of_spec in E as [Hp E]. unfold KSTACK, PGSIZE in *. change TRAMPOLINE with (4096 * (2 ^ 26 - 1)) in *.
    case_decide as Hn.
    + replace (Z.to_nat p) with (length S) by lia. rewrite list_lookup_middle by done. f_equal. lia.
    + destruct (decide (Z.to_nat p < length S)%nat) as [Hl|Hl]; [by rewrite lookup_app_l|].
      rewrite (lookup_ge_None_2 S), lookup_ge_None_2; [done| |lia]. rewrite length_app. simpl. lia.
  - rewrite decide_False; [done|]. intros Hn. assert (E2 : kstack_of (4096 * n) = Some (Z.of_nat (length S))); [|congruence].
    apply kstack_of_spec. unfold KSTACK, PGSIZE, NPROC in *. change TRAMPOLINE with (4096 * (2 ^ 26 - 1)) in *. lia.
Qed.

Lemma proc_mapstacks_spec m root T l N L :
  kv m root T l [] N L -> (167 <= N)%nat -> (forall n p, kstack_of (4096 * n) = Some p -> L n = 0) ->
  wp (proc_mapstacks root) (fun _ m' => exists T' l' S, kv m' root T' l' S N (kstacks L S) /\ Z.of_nat (length S) = NPROC) m.
Proof.
  intros H HN HL. unfold proc_mapstacks.
  apply (wp_each _ (fun j m' => exists T' l' S, kv m' root T' l' S N (kstacks L S) /\ Z.of_nat (length S) = j)).
  - exists T, l, []. split; [|done]. split; try apply H. intros n. rewrite (kv_leaf _ _ _ _ _ _ _ H). unfold kstacks. by destruct (kstack_of _).
  - clear m T l H. intros j m Hj (T & l & S & H & <-). change (Z.of_nat (Z.to_nat NPROC)) with 64 in Hj. wp_step.
    eapply wp_conseq; [eapply kv_kalloc; [done|lia|done]|]. intros pa m1 (l1 & H1 & Hpa).
    pose proof (phys_pos _ Hpa). rewrite (proj2 (Z.eqb_neq pa 0)) by lia. clear m l H.
    set (n0 := KSTACK (Z.of_nat (length S)) / 4096).
    assert (E0 : KSTACK (Z.of_nat (length S)) = 4096 * n0 /\ n0 = 2 ^ 26 - 1 - 2 * (Z.of_nat (length S) + 1)).
    { unfold n0, KSTACK, PGSIZE. change TRAMPOLINE with (4096 * (2 ^ 26 - 1)). lia. }
    destruct E0 as [E0 En]. rewrite E0. change PGSIZE with (4096 * 1). change MAXVA with (2 ^ 38).
    eapply wp_conseq; [apply (kvmmap_spec m1 root T l1 (S ++ [pa]) N (kstacks L S) n0 1 pa); try done|].
    + rewrite length_app. simpl. lia.
    + lia.
    + change MAXVA with (2 ^ 38). lia.
    + lia.
    + destruct Hpa as [_ [_ Hpa]]. unfold PHYSTOP, KERNBASE in Hpa. lia.
    + intros n Hn. assert (n = n0) as -> by lia. assert (Es : kstack_of (4096 * n0) = Some (Z.of_nat (length S))).
      { apply kstack_of_spec. unfold NPROC. lia. }
      split; [unfold kstacks; rewrite Es, Nat2Z.id, lookup_ge_None_2 by done; by eapply HL|].
      right. right. change MAXVA with (2 ^ 38). lia.
    + intros [] m2 (T2 & l2 & H2). exists T2, l2, (S ++ [pa]). split; [|rewrite length_app; simpl; lia].
      destruct H2. split; try done. intros n. rewrite <-kstacks_snoc by lia. done.
  - intros m' (T' & l' & S & H' & E). exists T', l', S. split; [done|]. by rewrite E.
Qed.

(** [kvmmap] of a whole region of addresses. *)
Lemma kvmmap_region m root T l N L va sz pa perm (Q : unit -> kmem -> Prop) :
  kv m root T l [] N L -> (167 <= N)%nat -> va mod 4096 = 0 -> sz mod 4096 = 0 -> 0 <= va -> 0 < sz -> va + sz <= MAXVA -> 0 <= pa ->
  pa + sz <= 2 ^ 56 -> 0 <= perm < 1024 -> (forall n, va <= 4096 * n < va + sz -> L n = 0 /\ kregion (4096 * n)) ->
  (forall m' T' l', kv m' root T' l' [] N (mapping L (va / 4096) (sz / 4096) pa (vflags perm)) -> Q tt m') ->
  wp (kvmmap root va pa sz perm) Q m.
Proof.
  intros H HN Hva Hsz H0 Hpos Hmax Hpa Hpa' Hperm Hreg HQ.
  replace (kvmmap root va pa sz perm) with (kvmmap root (4096 * (va / 4096)) pa (4096 * (sz / 4096)) perm) by (f_equal; lia).
  eapply wp_conseq; [apply (kvmmap_spec m root T l [] N L); try done; try lia|].
  - simpl. lia.
  - intros n Hn. apply Hreg. lia.
  - intros [] m' (T' & l' & H'). by eapply HQ.
Qed.

(** The first page is the empty table. *)
Lemma kv_empty m c l (k : Z -> M kmem Z) (Q : Z -> kmem -> Prop) :
  free_list m (c :: l) ->
  (forall m' T, kv m' c T l [] (S (length l)) (fun _ => 0) -> wp (k c) Q m') ->
  wp (let* r := kalloc in memset_page r 0 ;;; k r) Q m.
Proof.
  intros Hf Hk. pose proof (uvmcreate_spec m (c :: l) Hf) as W. pose proof (kalloc_spec m (c :: l) Hf) as K.
  unfold wp, uvmcreate, bind in *. destruct (kalloc m) as [r m1| | | |]; try done. destruct K as (-> & _).
  assert (Hc : phys c) by (by apply fl_phys, Forall_cons in Hf as [? _]). pose proof (phys_pos _ Hc).
  rewrite (proj2 (Z.eqb_neq c 0)) in W by lia. destruct (memset_page c 0 m1) as [[] m2| | | |]; try done.
  simpl in W. destruct W as (_ & HA & _ & Hl). apply (Hk m2 {[(2%nat, 0) := c]}). split; try done.
  - apply HA.
  - intros key [x Hx]. apply lookup_singleton_Some in Hx as [<- _]. by left.
  - rewrite map_size_singleton. simpl. lia.
  - rewrite app_nil_r. apply HA.
Qed.

(** The six regions, in the order [kvmmake] maps them. *)
Definition kbase : Z -> Z :=
  let rw := vflags (Z.lor PTE_R PTE_W) in
  let rx := vflags (Z.lor PTE_R PTE_X) in
  mapping (mapping (mapping (mapping (mapping (mapping (fun _ => 0)
    (UART0 / 4096) (4096 / 4096) UART0 rw) (VIRTIO0 / 4096) (4096 / 4096) VIRTIO0 rw) (PLIC / 4096) (0x4000000 / 4096) PLIC rw)
    (KERNBASE / 4096) ((im_etext - KERNBASE) / 4096) KERNBASE rx) (im_etext / 4096) ((PHYSTOP - im_etext) / 4096) im_etext rw)
    (TRAMPOLINE / 4096) (4096 / 4096) im_trampoline rx.

Lemma etext_at : im_etext < PHYSTOP -> exists e, im_etext = 4096 * e /\ im_trampoline = 4096 * (e - 1) /\ 2 ^ 19 < e < 2 ^ 19 + 2 ^ 15.
Proof.
  intros H. pose proof im_tramp_page as H1. pose proof im_etext_page as H2. pose proof im_base as H3.
  unfold PHYSTOP, KERNBASE, PGSIZE in *. exists (im_etext / 4096). rewrite H2 in *. lia.
Qed.

Ltac kside :=
  match goal with
  | |- forall n, _ => let n := fresh "n" in let Hn := fresh "Hn" in intros n Hn; split; [unfold mapping; repeat rewrite decide_False by lia; done|
      unfold kregion, PLIC, VIRTIO0, KERNBASE, PHYSTOP, PGSIZE; change MAXVA with (2 ^ 38); unfold KERNBASE; lia]
  | |- _ => done || lia
  end.

Lemma kvmmake_spec m l :
  free_list m l -> (167 <= length l)%nat ->
  wp kvmmake (fun root m' => exists T l' S, kv m' root T l' S (length l) (kstacks kbase S) /\ Z.of_nat (length S) = NPROC) m.
Proof.
  intros Hf HN. destruct l as [|c l]; [simpl in HN; lia|].
  assert (He : im_etext < PHYSTOP) by (apply fl_phys, Forall_cons in Hf as [[_ ?] _]; pose proof im_order; lia).
  destruct (etext_at He) as (e & Ee & Et & Hr). unfold kvmmake. apply (kv_empty m c l _ _ Hf). intros m0 T0 H0.
  assert (HN' : (167 <= S (length l))%nat) by done. assert (Ep : PHYSTOP = 4096 * (2 ^ 19 + 2 ^ 15)) by done.
  assert (Em : MAXVA = 2 ^ 38) by done. assert (Etr : TRAMPOLINE = 2 ^ 38 - 4096) by done.
  assert (Eu : UART0 = 0x10000000) by done. assert (Ev : VIRTIO0 = 0x10001000) by done.
  assert (Epl : PLIC = 0x0c000000) by done. assert (Ek : KERNBASE = 0x80000000) by done. change PGSIZE with 4096.
  wp_step. eapply kvmmap_region; [done|kside..|]. clear m0 T0 H0. intros m0 T0 l0 H0.
  wp_step. eapply kvmmap_region; [done|kside..|]. clear m0 T0 H0. intros m0 T0 l1 H0.
  wp_step. eapply kvmmap_region; [done|kside..|]. clear m0 T0 H0. intros m0 T0 l2 H0.
  wp_step. eapply kvmmap_region; [done|kside..|]. clear m0 T0 H0. intros m0 T0 l3 H0.
  wp_step. eapply kvmmap_region; [done|kside..|]. clear m0 T0 H0. intros m0 T0 l4 H0.
  wp_step. eapply kvmmap_region; [done|kside..|]. clear m0 T0 H0. intros m0 T0 l5 H0.
  wp_step. eapply wp_conseq; [apply (proc_mapstacks_spec _ _ _ _ _ _ H0 HN')|].
  - intros n p Hp. apply kstack_of_spec in Hp as [Hp Hn]. unfold KSTACK, PGSIZE, NPROC in *. unfold mapping.
    repeat rewrite decide_False by lia. done.
  - intros [] m1 (T1 & l' & S1 & H1 & Hlen). wp_step. exists T1, l', S1. split; [exact H1|done].
Qed.

Lemma kpte_eq stacks va :
  im_etext < PHYSTOP -> 0 <= va < MAXVA -> kpte stacks va = kstacks kbase stacks (va / 4096).
Proof.
  intros He Hva. destruct (etext_at He) as (e & Ee & Et & Hr). unfold kpte, kstacks.
  assert (Es : kstack_of (4096 * (va / 4096)) = kstack_of va) by (unfold kstack_of; rewrite !PGROUNDDOWN_eq; by replace (4096 * (va / 4096) / 4096) with (va / 4096) by lia).
  rewrite Es. rewrite PGROUNDDOWN_eq. destruct (kstack_of va) as [p|] eqn:E.
  - apply kstack_of_spec in Es as [Hp Hn]. unfold KSTACK, PGSIZE, NPROC in *.
    change TRAMPOLINE with (2 ^ 38 - 4096) in *. change MAXVA with (2 ^ 38) in *. unfold PLIC, VIRTIO0, PHYSTOP, KERNBASE in *.
    repeat rewrite bool_decide_false by lia. destruct (stacks !! _); [done|]. unfold kbase, mapping.
    change TRAMPOLINE with (2 ^ 38 - 4096). unfold PLIC, VIRTIO0, PHYSTOP, KERNBASE, UART0. by repeat rewrite decide_False by lia.
  - unfold kbase, mapping. change TRAMPOLINE with (2 ^ 38 - 4096). change MAXVA with (2 ^ 38) in *.
    unfold PLIC, VIRTIO0, PHYSTOP, KERNBASE, UART0, PGSIZE in *.
    repeat case_bool_decide; repeat (first [rewrite decide_False by lia | rewrite decide_True by lia | case_decide]);
      try done; try lia; f_equal; lia.
Qed.

(** An entry that a user program cannot use, and through which the text of the kernel is not written. *)
Definition kernel_only (pte : Z) : Prop :=
  has pte PTE_U = false /\ (has pte PTE_W = true -> has pte PTE_X = false /\ (PTE2PA pte < KERNBASE \/ im_etext <= PTE2PA pte)).

Lemma kernel_only_rw pa :
  pa mod 4096 = 0 -> 0 <= pa < 2 ^ 64 -> pa < KERNBASE \/ im_etext <= pa -> kernel_only (mkpte pa (vflags (Z.lor PTE_R PTE_W))).
Proof.
  intros Ha Hr Ht. unfold kernel_only. rewrite !has_mkpte by (by vm_compute). rewrite PTE2PA_mkpte by (done || by vm_compute). by split_and!.
Qed.

Lemma kpte_kernel_only stacks va : im_etext < PHYSTOP -> Forall phys stacks -> kernel_only (kpte stacks va).
Proof.
  intros He Hs. assert (Hrx : forall pa, kernel_only (mkpte pa (vflags (Z.lor PTE_R PTE_X)))).
  { intros pa. unfold kernel_only. by rewrite !has_mkpte by (by vm_compute). }
  assert (H0 : kernel_only 0) by (split; [done|discriminate]). destruct (etext_at He) as (e & Ee & _ & Hr).
  unfold kpte. rewrite PGROUNDDOWN_eq.
  repeat case_bool_decide; try done; try (apply kernel_only_rw; unfold PLIC, VIRTIO0, PGSIZE, PHYSTOP, KERNBASE in *; lia).
  destruct (kstack_of va) as [p|]; [|done]. destruct (stacks !! _) as [pa|] eqn:E; [|done].
  pose proof (Forall_lookup_1 _ _ _ _ Hs E) as Hp. pose proof (phys_pos _ Hp). pose proof im_order. destruct Hp as [Hp ?].
  apply kernel_only_rw; [done|lia|right; lia].
Qed.

(** The page below a kernel stack is a guard. *)
Lemma kpte_guard stacks p : im_etext < PHYSTOP -> 0 <= p < NPROC -> kpte stacks (KSTACK p - PGSIZE) = 0.
Proof.
  intros He Hp. destruct (etext_at He) as (e & Ee & _ & Hr). unfold kpte, kstack_of. rewrite PGROUNDDOWN_eq.
  unfold KSTACK, PGSIZE, NPROC in *. change TRAMPOLINE with (2 ^ 38 - 4096). change MAXVA with (2 ^ 38).
  unfold PLIC, VIRTIO0, KERNBASE, PHYSTOP. unfold KERNBASE. repeat rewrite bool_decide_false by lia.
  by rewrite (proj2 (Z.eqb_neq _ 0)) by lia.
Qed.

(** A list of all the pages of memory is as long as the memory is. *)
Lemma phys_length l n :
  NoDup l -> (forall q, phys q -> q ∈ l) -> im_end + (Z.of_nat n + 1) * PGSIZE <= PHYSTOP -> (n <= length l)%nat.
Proof.
  intros Hnd Hin Hn. set (p0 := (im_end + 4095) / 4096). set (ps := (fun i => 4096 * i) <$> seqZ p0 (Z.of_nat n)).
  replace n with (length ps) by (unfold ps; by rewrite length_fmap, length_seqZ, Nat2Z.id).
  apply submseteq_length, NoDup_submseteq.
  - apply NoDup_fmap_2; [|apply NoDup_seqZ]. intros x y ?. lia.
  - intros q Hq. apply list_elem_of_fmap in Hq as (i & -> & Hi). apply elem_of_seqZ in Hi. apply Hin. unfold phys, PGSIZE in *. lia.
Qed.

(** C19. From memory as the boot loader leaves it, with at least 168 pages above the kernel image,
    [kinit] and then [kvmmake] do not panic.  They build a page table whose entry for every virtual
    address is the one of the memory map [kpte]: devices and memory at their own addresses, the kernel's
    text readable and executable, everything else readable and writable, the trampoline in the last
    page, and one kernel stack for each process.  The stacks are distinct pages that nobody else can be
    given, an unmapped guard page lies below each, no user program can use any entry, and no entry that
    allows writing allows execution or leads to the kernel's text. *)
Theorem kvmmake_correct m :
  mem_boot m -> im_end + 168 * PGSIZE <= PHYSTOP ->
  wp (kinit ;;; kvmmake) (fun root m' => exists stacks l,
    (forall va, 0 <= va < MAXVA -> pte_of m' root va = kpte stacks va) /\
    Z.of_nat (length stacks) = NPROC /\ NoDup stacks /\ Forall phys stacks /\
    free_list m' l /\ (root ∉ l) /\ (root ∉ stacks) /\ (forall pa, pa ∈ stacks -> pa ∉ l) /\
    (forall p, 0 <= p < NPROC -> pte_of m' root (KSTACK p - PGSIZE) = 0) /\
    (forall va, 0 <= va < MAXVA -> kernel_only (pte_of m' root va))) m.
Proof.
  intros Hb Hn. wp_step. eapply wp_conseq; [by apply kinit_spec|]. intros [] m1 (l & Hl & Hq).
  assert (He : im_etext < PHYSTOP) by (pose proof im_order; unfold PGSIZE in Hn; lia).
  eapply wp_conseq; [apply (kvmmake_spec m1 l Hl)|].
  { apply phys_length; [apply Hl|intros q ?; by apply Hq|unfold PGSIZE in *; lia]. }
  intros root m' (T & l' & S & H & Hlen). exists S, l'. pose proof (kv_pt _ _ _ _ _ _ _ H) as Hp.
  assert (Hpte : forall va, 0 <= va < MAXVA -> pte_of m' root va = kpte S va).
  { intros va Hva. rewrite (pte_of_leaf m' root T l') by done. rewrite (kv_leaf _ _ _ _ _ _ _ H). by rewrite kpte_eq. }
  pose proof (kv_nodup _ _ _ _ _ _ _ H) as Hnd. apply NoDup_app in Hnd as (_ & Hd1 & Hnd). apply NoDup_app in Hnd as (_ & Hd2 & Hnd).
  assert (Hroot : root ∈ tpages T) by (apply elem_of_tpages; exists (2%nat, 0); apply Hp).
  split_and!; try done.
  - apply H.
  - apply Hp.
  - intros Hin. apply (Hd1 root Hin). apply elem_of_app. by left.
  - intros Hin. by apply (Hd2 root).
  - intros pa Hin Hin'. apply (Hd1 pa Hin'). apply elem_of_app. by right.
  - intros p Hpr. rewrite Hpte by (unfold KSTACK, NPROC, PGSIZE in *; change TRAMPOLINE with (2 ^ 38 - 4096); change MAXVA with (2 ^ 38); lia).
    by apply kpte_guard.
  - intros va Hva. rewrite Hpte by done. apply kpte_kernel_only; [done|apply H].
Qed.
End Kernel.
