(* ===== verification/VmBytes.v ===== *)
(** User memory as bytes: [copyout], [copyin] and the pages [vmfault] allocates on demand.

    [uview] is what a process sees: the byte of the frame a page is mapped to, and 0 in a page that is not
    allocated yet, so that allocating a page on demand does not change it. *)

From S2P Require Import Prelude Bytes Params Disk Riscv Kalloc Vm VmPt VmUser.

Definition uview (m : kmem) (A : space) (va : Z) : Z :=
  match A !! (va / 4096) with Some (pa, _) => nth (Z.to_nat (va mod 4096)) (km_pages m pa) 0 | None => 0 end.

(** The bytes [l] stored at [a]. *)
Definition uput (V : Z -> Z) (a : Z) (l : list Z) (x : Z) : Z :=
  if decide (a <= x < a + Z.of_nat (length l)) then nth (Z.to_nat (x - a)) l 0 else V x.

Lemma uput_nil V a x : uput V a [] x = V x.
Proof. unfold uput. rewrite decide_False by (simpl; lia). done. Qed.

Lemma uput_app V a l1 l2 x : uput (uput V a l1) (a + Z.of_nat (length l1)) l2 x = uput V a (l1 ++ l2) x.
Proof.
  unfold uput. rewrite length_app. repeat case_decide; try lia; try done.
  - rewrite app_nth2 by lia. f_equal. lia.
  - rewrite app_nth1 by lia. done.
Qed.

Lemma uput_ext V V' a l x : V x = V' x -> uput V a l x = uput V' a l x.
Proof. intros E. unfold uput. by case_decide. Qed.

Lemma nth_fill i : nth i (fill 0) 0 = 0.
Proof. rewrite nth_lookup. unfold fill. destruct (_ !! i) eqn:E; [|done]. by apply lookup_replicate in E as [-> _]. Qed.

Section UserBytes.
Context `{IM : Image}.

(** No page above the user part is accessible to the user. *)
Definition top_ok (m : kmem) (T : tables) : Prop := forall n, UPN <= n -> has (leaf m T n) PTE_U = false.

(** The address space has grown to [A'] by pages below the size [sz], and user memory now reads as [V']. *)
Record uchanged (sz : Z) (m : kmem) (T : tables) (A : space) (l : list Z) (m' : kmem) (root : Z) (T' : tables) (A' : space)
    (l' : list Z) (V' : Z -> Z) : Prop := {
  uc_ok : as_ok m' root T' A' l';
  uc_sub : A ⊆ A';
  uc_pages : l' ++ tpages T' ++ upages A' ≡ₚ l ++ tpages T ++ upages A;
  uc_new n : is_Some (A' !! n) -> is_Some (A !! n) \/ 4096 * n < sz;
  uc_top n : UPN <= n -> leaf m' T' n = leaf m T n;
  uc_view va : 0 <= va -> uview m' A' va = V' va;
  uc_frame a : a ∉ l ++ tpages T ++ upages A -> km_pages m' a = km_pages m a }.

Context {IO : ImageOk}.

Lemma uchanged_refl sz m root T A l : as_ok m root T A l -> uchanged sz m T A l m root T A l (uview m A).
Proof. split; try done. by left. Qed.

Lemma uchanged_trans sz m T A l m1 root T1 A1 l1 V1 m2 T2 A2 l2 V2 :
  uchanged sz m T A l m1 root T1 A1 l1 V1 -> uchanged sz m1 T1 A1 l1 m2 root T2 A2 l2 V2 -> uchanged sz m T A l m2 root T2 A2 l2 V2.
Proof.
  intros [a1 b1 c1 g1 d1 e1 f1] [a2 b2 c2 g2 d2 e2 f2]. split; [done|by etrans|by etrans| | |done|].
  - intros n [Hn|Hn]%g2; [by apply g1|by right].
  - intros n Hn. by rewrite d2, d1.
  - intros a Ha. rewrite f2, f1; [done|done|]. by rewrite c1.
Qed.

Lemma uchanged_ext sz m T A l m' root T' A' l' V V' :
  (forall va, 0 <= va -> V va = V' va) -> uchanged sz m T A l m' root T' A' l' V -> uchanged sz m T A l m' root T' A' l' V'.
Proof. intros E []. split; try done. intros va Hva. rewrite <-E; auto. Qed.

(** A new page of zeroes is not visible. *)
Lemma evolved_zero sz m T A l m' root T' A' l' :
  as_ok m root T A l -> evolved m T A l m' root T' A' l' -> A ⊆ A' ->
  (forall n pa f, A' !! n = Some (pa, f) -> A !! n = Some (pa, f) \/ A !! n = None /\ km_pages m' pa = fill 0 /\ 4096 * n < sz) ->
  uchanged sz m T A l m' root T' A' l' (uview m A).
Proof.
  intros H [E1 E2 E3 E4 E5] HA Hnew. split; try done.
  - intros n [[pa f] Hn]. destruct (Hnew _ _ _ Hn) as [E'|(_ & _ & E')]; [left; by exists (pa, f)|by right].
  - intros va Hva. unfold uview. destruct (A' !! (va / 4096)) as [[pa f]|] eqn:E.
    + destruct (Hnew _ _ _ E) as [E'|(-> & Ep & _)].
      * rewrite E'. destruct (as_page _ _ _ _ _ _ _ _ H E'). by rewrite E5.
      * rewrite Ep. apply nth_fill.
    + destruct (A !! (va / 4096)) as [x|] eqn:E'; [|done]. eapply lookup_weaken in E'; [|exact HA]. congruence.
  - intros a Ha. rewrite !elem_of_app in Ha. apply E5; tauto.
Qed.

(** Storing bytes in a mapped page. *)
Lemma upage_inj m root T A l n n' pa f f' :
  as_ok m root T A l -> A !! n = Some (pa, f) -> A !! n' = Some (pa, f') -> n = n'.
Proof.
  intros H Hn Hn'. destruct (decide (n = n')) as [|Hne]; [done|]. exfalso. pose proof (as_nodup _ _ _ _ _ H) as Hd.
  apply NoDup_app in Hd as (_ & _ & Hd). apply NoDup_app in Hd as (_ & _ & Hd).
  rewrite (upages_delete A n pa f Hn) in Hd. apply NoDup_cons in Hd as [Hd _]. apply Hd, elem_of_upages.
  exists n', f'. by rewrite lookup_delete_ne.
Qed.

Lemma as_store m root T A l n pa f d :
  as_ok m root T A l -> A !! n = Some (pa, f) -> length d = 4096%nat ->
  as_ok (m <| km_pages := bput (km_pages m) pa d |>) root T A l /\
  forall n', leaf (m <| km_pages := bput (km_pages m) pa d |>) T n' = leaf m T n'.
Proof.
  intros H Hn Hd. destruct (as_page _ _ _ _ _ _ _ _ H Hn) as [Hl Ht].
  destruct (pt_frame m root T l (m <| km_pages := bput (km_pages m) pa d |>) l) as [Hpt Hleaf].
  - apply H.
  - apply (free_list_frame m); [apply H|done| |].
    + intros a Ha. apply bput_ne. by intros ->.
    + intros a. simpl. unfold bput. case_decide; [done|]. apply (fl_pages _ _ (as_free _ _ _ _ _ H)).
  - apply (as_pt _ _ _ _ _ H).
  - intros a Ha. apply bput_ne. by intros ->.
  - split; [|done]. split; [done| |apply H|apply H]. intros n' Hn'. rewrite Hleaf. by apply H.
Qed.

Lemma stbytes_spec sz m root T A l n pa f off d :
  as_ok m root T A l -> A !! n = Some (pa, f) -> 0 <= off < 4096 -> off + Z.of_nat (length d) <= 4096 ->
  wp (stbytes (pa + off) d) (fun _ m' => uchanged sz m T A l m' root T A l (uput (uview m A) (4096 * n + off) d)) m.
Proof.
  intros H Hn Ho Hd. destruct (as_dom _ _ _ _ _ H _ _ _ Hn) as (Hr & Hp & _).
  unfold stbytes, stpage. wp_steps. destruct Hp as [Hal Hrange]. unfold PGSIZE in *.
  pose proof (fl_pages _ _ (as_free _ _ _ _ _ H) pa) as Hlen. rewrite PGROUNDDOWN_eq.
  replace ((pa + off) / 4096 * 4096) with pa by lia. replace ((pa + off) mod 4096) with off by lia.
  set (d' := splice (km_pages m pa) off d).
  assert (Hd' : length d' = 4096%nat) by (unfold d'; rewrite length_splice by (rewrite ?Hlen; lia); done).
  destruct (as_store m root T A l n pa f d' H Hn Hd') as [H' Hleaf]. split; try done.
  - by left.
  - intros va Hva. unfold uview. destruct (A !! (va / 4096)) as [[pb g]|] eqn:E.
    + destruct (decide (va / 4096 = n)) as [En|Hne].
      * rewrite En, Hn in E. injection E as <- <-. simpl. rewrite bput_eq. unfold d', uput. rewrite En, Hn.
        rewrite nth_splice by (rewrite ?Hlen; lia). repeat case_decide; try lia; f_equal; lia.
      * simpl. rewrite bput_ne by (intros ->; apply Hne; by eapply upage_inj). unfold uput.
        rewrite decide_False by lia. by rewrite E.
    + unfold uput. rewrite decide_False by (intros ?; assert (va / 4096 = n) as Ex by lia; congruence). by rewrite E.
  - intros a Ha. simpl. apply bput_ne. intros ->. apply Ha. rewrite !elem_of_app. right. right. apply elem_of_upages. by exists n, f.
Qed.

(** The frame of a page the user may access. *)
Definition uframe (A : space) (n : Z) : Z :=
  match A !! n with Some (pa, f) => if has f PTE_U then pa else 0 | None => 0 end.

Lemma walkaddr_spec m root T A l n :
  as_ok m root T A l -> top_ok m T -> 0 <= n -> wp (walkaddr root (4096 * n)) (fun r m' => m' = m /\ r = uframe A n) m.
Proof.
  intros H Htop Hn. pose proof UPN_eq as HU. unfold walkaddr.
  assert (Hout : ~ n < UPN -> uframe A n = 0).
  { intros Hge. unfold uframe. destruct (A !! n) as [[pa f]|] eqn:E; [|done]. destruct (as_dom _ _ _ _ _ H _ _ _ E). lia. }
  destruct (Z.leb_spec MAXVA (4096 * n)) as [Hm|Hm]; change MAXVA with (2 ^ 38) in Hm.
  { wp_steps. by rewrite Hout by lia. }
  destruct (decide (n < UPN)) as [Hlt|Hge].
  - wp_step. eapply wp_conseq; [apply (walk_as m root T A l); [done|lia]|]. intros r ? [-> Hr].
    destruct (A !! n) as [[pa f]|] eqn:E.
    + destruct Hr as [[_ ?]|(Hr0 & Hld & _)]; [done|]. rewrite (proj2 (Z.eqb_neq _ _) Hr0). wp_steps. rewrite Hld.
      destruct (apte_has A n m root T l pa f H E) as (-> & -> & Hb). cbn [negb]. rewrite Hb by (by vm_compute).
      unfold uframe. rewrite E. destruct (has f PTE_U); by wp_steps.
    + unfold uframe. rewrite E. destruct Hr as [[-> _]|(Hr0 & Hld & _)]; [by wp_steps|].
      rewrite (proj2 (Z.eqb_neq _ _) Hr0). wp_steps. rewrite Hld. unfold apte. rewrite E. by wp_steps.
  - rewrite Hout by lia. wp_step. eapply wp_conseq; [apply (walk_lookup m root T l); [apply H|change MAXVA with (2 ^ 38); lia]|].
    intros r ? [-> ->]. destruct (T !! vkey 0 (4096 * n)) as [p|] eqn:E.
    + rewrite (proj2 (Z.eqb_neq _ _)) by (eapply pte_addr_pos; [apply H|by rewrite E]). wp_steps.
      rewrite (ld64_leaf m root T l _ p) by (apply H || done || lia). replace (4096 * n / 4096) with n by lia.
      rewrite (Htop n) by lia. destruct (has (leaf m T n) PTE_V); by wp_steps.
    + unfold pte_addr. rewrite E. by wp_steps.
Qed.

Lemma ismapped_spec m root T A l n :
  as_ok m root T A l -> 0 <= n < UPN ->
  wp (ismapped root (4096 * n)) (fun b m' => m' = m /\ b = bool_decide (is_Some (A !! n))) m.
Proof.
  intros H Hn. unfold ismapped. wp_step. eapply wp_conseq; [by apply (walk_as m root T A l)|]. intros r ? [-> Hr].
  destruct (A !! n) as [[pa f]|] eqn:E.
  - destruct Hr as [[_ ?]|(Hr0 & Hld & _)]; [done|]. rewrite (proj2 (Z.eqb_neq _ _) Hr0). wp_steps. rewrite Hld.
    destruct (apte_has A n m root T l pa f H E) as (-> & _). by wp_steps.
  - destruct Hr as [[-> _]|(Hr0 & Hld & _)]; [by wp_steps|]. rewrite (proj2 (Z.eqb_neq _ _) Hr0). wp_steps. rewrite Hld.
    unfold apte. rewrite E. by wp_steps.
Qed.

(** The flags of a page allocated on demand. *)
Definition lazyf : Z := vflags (Z.lor (Z.lor PTE_W PTE_U) PTE_R).

(** [vmfault] allocates a page below the size that is not mapped; user memory reads as before. *)
Lemma vmfault_spec m root T A l n sz :
  as_ok m root T A l -> 0 <= n -> 0 <= sz <= TRAPFRAME ->
  wp (vmfault (Vproc sz root) root (4096 * n)) (fun r m' => exists T' A' l', uchanged sz m T A l m' root T' A' l' (uview m A) /\
    (r = 0 /\ A' = A /\ (sz <= 4096 * n \/ is_Some (A !! n) \/ (length l' <= 1)%nat) \/
     A !! n = None /\ A' = <[n := (r, lazyf)]> A /\ r <> 0 /\ 4096 * n < sz)) m.
Proof.
  intros H Hn Hsz. pose proof UPN_eq as HU. change TRAPFRAME with (2 ^ 38 - 8192) in Hsz. unfold vmfault.
  cbn [vp_sz vp_pagetable].
  assert (Hstop : exists T' A' l', uchanged sz m T A l m root T' A' l' (uview m A) /\ A' = A) by (exists T, A, l; split; [by apply uchanged_refl|done]).
  destruct (Z.leb_spec sz (4096 * n)) as [Hge|Hlt].
  { wp_steps. destruct Hstop as (T' & A' & l' & ? & ->). exists T', A, l'. split; [done|left]. tauto. }
  rewrite PGROUNDDOWN_eq. replace (4096 * n / 4096 * 4096) with (4096 * n) by lia.
  wp_step. eapply wp_conseq; [apply (ismapped_spec m root T A l); [done|lia]|]. intros b ? [-> ->].
  destruct (A !! n) as [x|] eqn:EA.
  { rewrite bool_decide_eq_true_2 by by eexists. wp_steps. destruct Hstop as (T' & A' & l' & ? & ->). exists T', A, l'. split; [done|left].
    split_and!; [done..|]. right. left. by eexists. }
  rewrite bool_decide_eq_false_2 by (intros [? ?]; done). wp_step. eapply wp_conseq; [apply kalloc_spec, H|]. intros c m1 Hc.
  destruct l as [|p l].
  { destruct Hc as [-> ->]. simpl (0 =? 0). cbn match. wp_steps. exists T, A, []. split; [by apply uchanged_refl|left]. split_and!; [done..|]. right. right. simpl. lia. }
  destruct Hc as (-> & Hf1 & Ep1). assert (Hp : phys p) by (by apply as_free, fl_phys, Forall_cons in H as [? _]).
  pose proof (phys_pos _ Hp). rewrite (proj2 (Z.eqb_neq p 0)) by lia. unfold memset_page, stpage. wp_step. wp_step.
  eapply (map_page m _ root T A l n p (fill 0)); [done| | | |lia|done|by vm_compute| |].
  - eapply (free_list_frame m1); [done|done| |].
    { intros a Ha. simpl. apply bput_ne. intros ->. apply as_free, fl_nodup, NoDup_cons in H. tauto. }
    { intros a. simpl. unfold bput. case_decide; [apply length_fill|apply (fl_pages _ _ Hf1)]. }
  - intros a. simpl. rewrite Ep1. apply bput_twice.
  - apply length_fill.
  - intros m2 T2 l2 E2 Ec Hl2. wp_steps. eexists T2, _, l2. split.
    + eapply evolved_zero; [done|exact E2|by apply insert_subseteq|]. intros n' pa f Hk.
      apply lookup_insert_Some in Hk as [[<- [= <- <-]]|[_ Hk]]; [by right|by left].
    + right. split_and!; [done|done|lia|done].
  - intros m2 T2 E2 Hl2. wp_steps. exists T2, A, [p]. split.
    + eapply evolved_zero; [done|exact E2|done|]. intros n' pa f Hk. by left.
    + left. split_and!; [done..|]. right. right. simpl. lia.
Qed.

(** The page the copy loops use: the frame of an accessible page, possibly allocated on the way. *)
Lemma uaccess_spec m root T A l n sz :
  as_ok m root T A l -> top_ok m T -> 0 <= n -> 0 <= sz <= TRAPFRAME ->
  wp (let* pa0 := walkaddr root (4096 * n) in if pa0 =? 0 then vmfault (Vproc sz root) root (4096 * n) else ret pa0)
    (fun r m' => exists T' A' l', uchanged sz m T A l m' root T' A' l' (uview m A) /\ uframe A' n = r /\
      (forall f, r <> 0 -> A !! n = None -> A' !! n = Some (r, f) -> has f PTE_W = true) /\
      (r = 0 -> A' = A /\ (sz <= 4096 * n \/ is_Some (A !! n) \/ (length l' <= 1)%nat)) /\
      (forall pa f, A !! n = Some (pa, f) -> A' !! n = Some (pa, f))) m.
Proof.
  intros H Htop Hn Hsz. wp_step. eapply wp_conseq; [by apply (walkaddr_spec m root T A l)|]. intros r ? [-> ->].
  destruct (Z.eqb_spec (uframe A n) 0) as [E|E].
  - eapply wp_conseq; [by apply (vmfault_spec m root T A l)|]. intros r m' (T' & A' & l' & U & Hres). exists T', A', l'. split; [done|].
    destruct Hres as [(-> & -> & Hr)|(HA & -> & Hr & Hlt)].
    + split_and!; try done.
    + split_and!.
      * unfold uframe. rewrite lookup_insert_eq. done.
      * intros f _ _ Hk. rewrite lookup_insert_eq in Hk. injection Hk as <-. by vm_compute.
      * intros ->. done.
      * intros pa f Hk. congruence.
  - wp_steps. exists T, A, l. split_and!; [by apply uchanged_refl|done| |by intros|done].
    intros f _ HA. unfold uframe in E. by rewrite HA in E.
Qed.

(** Why a copy stops before page [n]: the address is out of range, the page is not accessible, or it cannot be allocated. *)
Definition fault (A : space) (l : list Z) (sz n : Z) (write : bool) : Prop :=
  match A !! n with
  | Some (_, f) => has f PTE_U = false \/ (write = true /\ has f PTE_W = false)
  | None => sz <= 4096 * n \/ (length l <= 1)%nat
  end.

Lemma top_ok_uchanged sz m T A l m' root T' A' l' V : uchanged sz m T A l m' root T' A' l' V -> top_ok m T -> top_ok m' T'.
Proof. intros U Ht n Hn. rewrite (uc_top _ _ _ _ _ _ _ _ _ _ _ U) by done. by apply Ht. Qed.

Lemma uframe_zero m root T A l n r :
  as_ok m root T A l -> uframe A n = r -> r <> 0 -> exists f, A !! n = Some (r, f) /\ has f PTE_U = true.
Proof.
  intros H E Hr. unfold uframe in E. destruct (A !! n) as [[pa f]|]; [|lia]. destruct (has f PTE_U) eqn:HU; [|lia].
  subst pa. by exists f.
Qed.

(** The frame of page [n] for a copy, or the reason there is none. *)
Lemma uaccess_cases m root T A l n sz :
  as_ok m root T A l -> top_ok m T -> 0 <= n -> 0 <= sz <= TRAPFRAME ->
  wp (let* pa0 := walkaddr root (4096 * n) in if pa0 =? 0 then vmfault (Vproc sz root) root (4096 * n) else ret pa0)
    (fun r m' => exists T' A' l', uchanged sz m T A l m' root T' A' l' (uview m A) /\
      (r = 0 /\ (forall w, fault A' l' sz n w) \/
       r <> 0 /\ exists f, A' !! n = Some (r, f) /\ has f PTE_U = true)) m.
Proof.
  intros H Htop Hn Hsz. eapply wp_conseq; [by apply (uaccess_spec m root T A l)|].
  intros r m1 (T1 & A1 & l1 & U1 & Hfr & Hw & Hr0 & Hsame). exists T1, A1, l1. split; [done|].
  destruct (decide (r = 0)) as [->|Hr]; [left|right; split; [done|by eapply uframe_zero; [apply U1|..]]].
  split; [done|]. intros w. destruct (Hr0 eq_refl) as [-> Hreason]. unfold fault, uframe in *.
  destruct (A !! n) as [[pa f]|] eqn:EA.
  - left. destruct (has f PTE_U) eqn:HUf; [|done]. subst pa. destruct (as_dom _ _ _ _ _ H _ _ _ EA) as (_ & Hp & _).
    apply phys_pos in Hp. lia.
  - destruct Hreason as [?|[[? ?]|?]]; [by left|done|by right].
Qed.

Definition copyout_post (m : kmem) (root : Z) (T : tables) (A : space) (l : list Z) (sz dstva : Z) (src : list Z)
    (r : Z) (m' : kmem) : Prop := exists T' A' l' k,
  uchanged sz m T A l m' root T' A' l' (uput (uview m A) dstva (take k src)) /\
  (r = 0 /\ k = length src \/ r = -1 /\ (k < length src)%nat /\ fault A' l' sz ((dstva + Z.of_nat k) / 4096) true).

(** One page copied, and then the rest. *)
Lemma copyout_next m root T A l sz dstva src n c m2 T1 A1 l1 res m3 :
  0 < c <= Z.of_nat (length src) -> (c < Z.of_nat (length src) -> dstva - 4096 * n + c = 4096) ->
  uchanged sz m T A l m2 root T1 A1 l1 (uput (uview m A) dstva (take (Z.to_nat c) src)) ->
  copyout_post m2 root T1 A1 l1 sz (4096 * n + PGSIZE) (drop (Z.to_nat c) src) res m3 -> copyout_post m root T A l sz dstva src res m3.
Proof.
  intros Hc Hcl U12 (T3 & A3 & l3 & k & U3 & Hres). exists T3, A3, l3, (Z.to_nat c + k)%nat.
  assert (Hlt : length (take (Z.to_nat c) src) = Z.to_nat c) by (rewrite length_take; lia).
  assert (Hd : dstva + c = 4096 * n + PGSIZE \/ drop (Z.to_nat c) src = []).
  { destruct (decide (c < Z.of_nat (length src))); [left; unfold PGSIZE in *; lia|right]. apply drop_ge. lia. }
  rewrite length_drop in Hres. split.
  - eapply uchanged_trans; [exact U12|]. eapply uchanged_ext; [|exact U3]. intros va Hva'.
    rewrite (uput_ext _ _ _ _ _ (uc_view _ _ _ _ _ _ _ _ _ _ _ U12 va Hva')), <-take_take_drop.
    destruct Hd as [Hd|Hd]; [|by rewrite Hd, take_nil, uput_nil, app_nil_r].
    rewrite <-uput_app, Hlt. f_equal. lia.
  - destruct Hres as [[-> ->]|(-> & Hk & F)]; [left; split; [done|lia]|right]. split_and!; [done|lia|].
    destruct Hd as [Hd|Hd]; [|rewrite <-length_drop, Hd in Hk; simpl in Hk; lia].
    by replace (dstva + Z.of_nat (Z.to_nat c + k)) with (4096 * n + PGSIZE + Z.of_nat k) by lia.
Qed.

Lemma copyout_loop_spec root sz fuel m T A l dstva src :
  as_ok m root T A l -> top_ok m T -> 0 <= sz <= TRAPFRAME -> 0 <= dstva < 2 ^ 64 -> (length src < fuel)%nat ->
  wp (copyout_loop fuel (Vproc sz root) root dstva src) (copyout_post m root T A l sz dstva src) m.
Proof.
  revert m T A l dstva src. induction fuel as [|fuel IH]; intros m T A l dstva src H Htop Hsz Hva Hlen; [lia|].
  cbn [copyout_loop]. set (len := Z.of_nat (length src)).
  destruct (Z.ltb_spec 0 len) as [Hpos|Hz].
  2: { wp_steps. exists T, A, l, 0%nat. split; [|left; split; [done|lia]]. eapply uchanged_ext; [|by apply uchanged_refl].
       intros va. symmetry. apply uput_nil. }
  set (n := dstva / 4096). assert (En : PGROUNDDOWN dstva = 4096 * n) by (rewrite PGROUNDDOWN_eq; unfold n; lia). rewrite En.
  assert (Hn0 : 0 <= n) by (unfold n; lia).
  assert (Hstop : forall m1 T1 A1 l1, uchanged sz m T A l m1 root T1 A1 l1 (uview m A) -> fault A1 l1 sz n true ->
    copyout_post m root T A l sz dstva src (-1) m1).
  { intros m1 T1 A1 l1 U F. exists T1, A1, l1, 0%nat. split; [eapply uchanged_ext; [|exact U]; intros; symmetry; apply uput_nil|].
    right. rewrite Z.add_0_r. split_and!; [done|lia|done]. }
  assert (Hout : ~ n < UPN -> A !! n = None).
  { intros Hge. destruct (A !! n) as [[pa f]|] eqn:E; [|done]. destruct (as_dom _ _ _ _ _ H _ _ _ E). lia. }
  pose proof UPN_eq as HU. change TRAPFRAME with (2 ^ 38 - 8192) in Hsz.
  destruct (Z.leb_spec MAXVA (4096 * n)) as [Hm|Hm]; change MAXVA with (2 ^ 38) in Hm.
  { wp_steps. apply (Hstop m T A l); [by apply uchanged_refl|]. unfold fault. rewrite Hout by lia. left. lia. }
  pose proof (uaccess_cases m root T A l n sz H Htop Hn0 Hsz) as W. apply wp_bind_inv in W. wp_step.
  eapply wp_conseq; [exact W|]. clear W. intros pa0 m0 W. wp_step. eapply wp_conseq; [exact W|]. clear W m0.
  intros r m1 (T1 & A1 & l1 & U1 & [[-> F]|(Hr & f & EA1 & HUf)]).
  { wp_steps. by apply (Hstop m1 T1 A1 l1 U1). }
  rewrite (proj2 (Z.eqb_neq _ _) Hr). pose proof (uc_ok _ _ _ _ _ _ _ _ _ _ _ U1) as H1.
  destruct (as_dom _ _ _ _ _ H1 _ _ _ EA1) as (Hnr & _).
  wp_step. eapply wp_conseq; [by apply (walk_as m1 root T1 A1 l1)|]. intros pte ? [-> Hpte].
  destruct Hpte as [[_ ?]|(Hp0 & Hld & _)]; [congruence|]. wp_steps. rewrite (proj2 (Z.eqb_neq _ _) Hp0), Hld.
  destruct (apte_has A1 n m1 root T1 l1 r f H1 EA1) as (_ & _ & Hb). rewrite Hb by (by vm_compute).
  destruct (has f PTE_W) eqn:HW; cbn [negb].
  2: { wp_steps. apply (Hstop m1 T1 A1 l1 U1). unfold fault. rewrite EA1. by right. }
  set (off := dstva - 4096 * n). assert (Hoff : 0 <= off < 4096) by (unfold off, n; lia).
  set (c := if len <? PGSIZE - off then len else PGSIZE - off).
  assert (Hc : 0 < c <= len /\ off + c <= 4096 /\ (c < len -> off + c = 4096)) by (unfold c, PGSIZE; destruct (Z.ltb_spec len (4096 - off)); lia).
  assert (Hlt : length (take (Z.to_nat c) src) = Z.to_nat c) by (rewrite length_take; lia).
  wp_step. eapply wp_conseq; [apply (stbytes_spec sz m1 root T1 A1 l1 n r f off); [done|done|lia|rewrite Hlt; lia]|].
  intros [] m2 U2. replace (4096 * n + off) with dstva in U2 by (unfold off; lia).
  assert (U12 : uchanged sz m T A l m2 root T1 A1 l1 (uput (uview m A) dstva (take (Z.to_nat c) src))).
  { eapply uchanged_trans; [exact U1|]. destruct U2. split; try done. intros va Hva'. rewrite uc_view0 by done.
    unfold uput. case_decide; [done|]. by apply U1. }
  rewrite u64_id by (unfold PGSIZE; lia).
  eapply wp_conseq; [apply (IH m2 T1 A1 l1); [apply U2|by eapply top_ok_uchanged|done|unfold PGSIZE; lia|rewrite length_drop; lia]|].
  intros res m3. apply copyout_next with (c := c) (n := n); unfold off, len in *; done || lia.
Qed.

(** The bytes a process sees at an address. *)
Definition ubytes (V : Z -> Z) (va n : Z) : list Z := V <$> seqZ va n.

Lemma ubytes_app V va a b : 0 <= a -> 0 <= b -> ubytes V va a ++ ubytes V (va + a) b = ubytes V va (a + b).
Proof. intros. unfold ubytes. rewrite seqZ_app by lia. by rewrite fmap_app. Qed.

Lemma ubytes_put V va l : ubytes (uput V va l) va (Z.of_nat (length l)) = l.
Proof.
  apply list_eq. intros i. unfold ubytes. rewrite list_lookup_fmap. destruct (decide (i < length l)%nat) as [Hi|Hi].
  - assert (E : seqZ va (Z.of_nat (length l)) !! i = Some (va + Z.of_nat i)) by (apply lookup_seqZ; lia). rewrite E. simpl.
    unfold uput. rewrite decide_True by lia. replace (Z.to_nat (va + Z.of_nat i - va)) with i by lia.
    symmetry. by apply lookup_nth.
  - rewrite lookup_seqZ_ge by lia. symmetry. apply lookup_ge_None. lia.
Qed.

Lemma ldbytes_view m root T A l n pa f off c :
  as_ok m root T A l -> A !! n = Some (pa, f) -> 0 <= off -> 0 < c -> off + c <= 4096 ->
  ldbytes m (pa + off) c = ubytes (uview m A) (4096 * n + off) c.
Proof.
  intros H Hn Ho Hc Hle. destruct (as_dom _ _ _ _ _ H _ _ _ Hn) as (Hr & [Hal _] & _). unfold PGSIZE in Hal.
  pose proof (fl_pages _ _ (as_free _ _ _ _ _ H) pa) as Hlen. unfold ldbytes, PGSIZE. rewrite PGROUNDDOWN_eq.
  replace ((pa + off) / 4096 * 4096) with pa by lia. replace ((pa + off) mod 4096) with off by lia.
  apply list_eq. intros i. rewrite lookup_slice. unfold ubytes. rewrite list_lookup_fmap. case_decide as Hi.
  - assert (E : seqZ (4096 * n + off) c !! i = Some (4096 * n + off + Z.of_nat i)) by (apply lookup_seqZ; lia). rewrite E. simpl.
    unfold uview. replace ((4096 * n + off + Z.of_nat i) / 4096) with n by lia. rewrite Hn.
    replace (Z.to_nat ((4096 * n + off + Z.of_nat i) mod 4096)) with (Z.to_nat off + i)%nat by lia. apply lookup_nth. lia.
  - rewrite lookup_seqZ_ge by lia. done.
Qed.

Definition copyin_post (m : kmem) (root : Z) (T : tables) (A : space) (l : list Z) (sz srcva len : Z) (dst : list Z)
    (res : list Z * Z) (m' : kmem) : Prop := exists T' A' l' k,
  uchanged sz m T A l m' root T' A' l' (uview m A) /\ res.1 = dst ++ ubytes (uview m A) srcva k /\
  (res.2 = 0 /\ k = len \/ res.2 = -1 /\ 0 <= k < len /\ fault A' l' sz ((srcva + k) / 4096) false).

Lemma copyin_loop_spec root sz fuel m T A l dst srcva len :
  as_ok m root T A l -> top_ok m T -> 0 <= sz <= TRAPFRAME -> 0 <= srcva < 2 ^ 64 -> 0 <= len < Z.of_nat fuel ->
  wp (copyin_loop fuel (Vproc sz root) root dst srcva len) (copyin_post m root T A l sz srcva len dst) m.
Proof.
  revert m T A l dst srcva len. induction fuel as [|fuel IH]; intros m T A l dst srcva len H Htop Hsz Hva Hlen; [lia|].
  cbn [copyin_loop]. destruct (Z.ltb_spec 0 len) as [Hpos|Hz].
  2: { wp_steps. exists T, A, l, 0. split_and!; [by apply uchanged_refl|by rewrite app_nil_r|left; split; [done|lia]]. }
  set (n := srcva / 4096). assert (En : PGROUNDDOWN srcva = 4096 * n) by (rewrite PGROUNDDOWN_eq; unfold n; lia). rewrite En.
  assert (Hn0 : 0 <= n) by (unfold n; lia). pose proof UPN_eq as HU.
  pose proof (uaccess_cases m root T A l n sz H Htop Hn0 Hsz) as W. apply wp_bind_inv in W. wp_step.
  eapply wp_conseq; [exact W|]. clear W. intros pa0 m0 W. wp_step. eapply wp_conseq; [exact W|]. clear W m0.
  intros r m1 (T1 & A1 & l1 & U1 & [[-> F]|(Hr & f & EA1 & HUf)]).
  { wp_steps. exists T1, A1, l1, 0. rewrite Z.add_0_r. split_and!; [done|by rewrite app_nil_r|right]. split_and!; [done|lia|lia|apply F]. }
  rewrite (proj2 (Z.eqb_neq _ _) Hr). pose proof (uc_ok _ _ _ _ _ _ _ _ _ _ _ U1) as H1.
  destruct (as_dom _ _ _ _ _ H1 _ _ _ EA1) as (Hnr & _). wp_steps.
  set (off := srcva - 4096 * n). assert (Hoff : 0 <= off < 4096) by (unfold off, n; lia).
  set (c := if len <? PGSIZE - off then len else PGSIZE - off).
  assert (Hc : 0 < c <= len /\ off + c <= 4096 /\ (c < len -> off + c = 4096)) by (unfold c, PGSIZE; destruct (Z.ltb_spec len (4096 - off)); lia).
  rewrite (ldbytes_view m1 root T1 A1 l1 n r f) by (done || lia). replace (4096 * n + off) with srcva by (unfold off; lia).
  assert (Ev : forall va k, 0 <= va -> ubytes (uview m1 A1) va k = ubytes (uview m A) va k).
  { intros va k Hva'. apply list_fmap_ext. intros i x Hx. apply lookup_seqZ in Hx as [-> _]. apply U1. lia. }
  rewrite Ev by lia. rewrite u64_id by (unfold PGSIZE; lia).
  eapply wp_conseq; [apply (IH m1 T1 A1 l1); [done|by eapply top_ok_uchanged|done|unfold PGSIZE; lia|lia]|].
  intros res m3 (T3 & A3 & l3 & k & U3 & Hb & Hres). exists T3, A3, l3, (c + k).
  assert (Hk : 0 <= k) by (destruct Hres as [[_ ->]|(_ & ? & _)]; lia).
  assert (Hd : srcva + c = 4096 * n + PGSIZE \/ (k = 0 /\ c = len)) by (destruct (decide (c < len)); [left; unfold off, PGSIZE in *; lia|right; lia]).
  split_and!.
  - eapply uchanged_trans; [exact U1|]. eapply uchanged_ext; [|exact U3]. intros va Hva'. by apply U1.
  - rewrite Hb, Ev by (unfold PGSIZE; lia). rewrite <-app_assoc. f_equal. destruct Hd as [<-|[-> _]]; [by apply ubytes_app; lia|].
    rewrite Z.add_0_r. unfold ubytes at 2. simpl. by rewrite app_nil_r.
  - destruct Hres as [[-> ->]|(-> & Hk' & F)]; [left; split; [done|lia]|right]. split_and!; [done|lia|lia|].
    destruct Hd as [Hd|Hd]; [|lia]. by replace (srcva + (c + k)) with (4096 * n + PGSIZE + k) by lia.
Qed.

(** C27. [copyout] stores bytes in user memory and nowhere else.  For a process with a well-formed address
    space it returns.  With result 0 the process sees exactly the given bytes at the address and
    everything else as before; with result -1 it sees a proper prefix of them stored, and the page
    where it stopped is one the user may not write, is beyond the size, or could not be allocated.  No
    page is lost, mapped pages stay mapped where they were, and no page of anyone else has changed. *)
Theorem copyout_correct m root T A l sz dstva src :
  as_ok m root T A l -> top_ok m T -> 0 <= sz <= TRAPFRAME -> 0 <= dstva < 2 ^ 64 ->
  wp (copyout (Vproc sz root) root dstva src) (fun r m' => exists T' A' l' k,
    uchanged sz m T A l m' root T' A' l' (uput (uview m A) dstva (take k src)) /\
    (r = 0 /\ k = length src \/
     r = -1 /\ (k < length src)%nat /\ fault A' l' sz ((dstva + Z.of_nat k) / 4096) true)) m.
Proof. intros. apply (copyout_loop_spec root sz _ m T A l); try done. lia. Qed.

(** C28. [copyin] reads what the process sees.  It returns; with result 0 it has delivered the bytes the process
    sees at the address, with result -1 a proper prefix of them, up to a page the user may not read,
    beyond the size or that could not be allocated; nothing the process sees changes.  In
    particular, where bytes have been stored by [copyout], [copyin] with result 0 delivers
    those bytes. *)
Theorem copyin_correct m root T A l sz va len :
  as_ok m root T A l -> top_ok m T -> 0 <= sz <= TRAPFRAME -> 0 <= va < 2 ^ 64 -> 0 <= len ->
  wp (copyin (Vproc sz root) root va len) (fun res m' => exists T' A' l' k,
    uchanged sz m T A l m' root T' A' l' (uview m A) /\ res.1 = ubytes (uview m A) va k /\
    (res.2 = 0 /\ k = len \/ res.2 = -1 /\ 0 <= k < len /\ fault A' l' sz ((va + k) / 4096) false)) m /\
  (forall src m1 T1 A1 l1, uchanged sz m T A l m1 root T1 A1 l1 (uput (uview m A) va src) -> len = Z.of_nat (length src) ->
     wp (copyin (Vproc sz root) root va len) (fun res _ => res.2 = 0 -> res.1 = src) m1).
Proof.
  intros H Htop Hsz Hva Hlen. split.
  - unfold copyin. apply (copyin_loop_spec root sz _ m T A l); try done. lia.
  - intros src m1 T1 A1 l1 U ->. unfold copyin.
    eapply wp_conseq; [apply (copyin_loop_spec root sz _ m1 T1 A1 l1); try done; [apply U|by eapply top_ok_uchanged|lia]|].
    intros res m2 (T2 & A2 & l2 & k & _ & Hb & Hres) H0. destruct Hres as [[_ ->]|[? _]]; [|lia]. rewrite Hb. simpl.
    transitivity (ubytes (uput (uview m A) va src) va (Z.of_nat (length src))); [|apply ubytes_put].
    apply list_fmap_ext. intros i x Hx. apply lookup_seqZ in Hx as [-> _]. apply U. lia.
Qed.
End UserBytes.
