(* ===== verification/VmDemo.v ===== *)
(** A small machine, sixteen pages of memory above the kernel, on which the hypotheses of the
    virtual-memory theorems hold. *)

From S2P Require Import Prelude Bytes Params Disk Riscv Kalloc Vm VmPt VmUser VmCopy VmFree VmBytes VmKernel.

Definition vimage : Image := {| im_trampoline := KERNBASE; im_etext := KERNBASE + PGSIZE; im_end := PHYSTOP - 16 * PGSIZE |}.

#[local] Existing Instance vimage.

#[local] Instance vimage_ok : ImageOk.
Proof. split; vm_compute; congruence. Qed.

Definition vm_boot : kmem := Kmem (fun _ => fill 0) 0.
Definition vm_started : kmem := final kinit vm_boot.

(** The trapframe page, and the first page table with the memory it leaves. *)
Definition tf : Z := PHYSTOP - PGSIZE.
Definition vm_tf : kmem := final kalloc vm_started.
Definition root1 : Z := PHYSTOP - 2 * PGSIZE.
Definition vm_one : kmem := final (proc_pagetable tf) vm_tf.

Lemma vm_started_ok : exists l, free_list vm_started l /\ forall q, q ∈ l <-> phys q.
Proof. apply (wp_final kinit (fun m => exists l, free_list m l /\ forall q, q ∈ l <-> phys q)). by apply kinit_spec. Qed.

Lemma vm_tf_ok : exists l, free_list vm_tf l /\ (tf ∉ l) /\ forall q, q ∈ l -> phys q.
Proof.
  unfold vm_tf. destruct vm_started_ok as (l & Hl & Hq). assert (E : result kalloc vm_started = Some tf) by (vm_compute; reflexivity).
  pose proof (wp_result _ _ _ _ (kalloc_spec vm_started l Hl) E) as H. cbn beta in H.
  destruct l as [|p l]; [exfalso; destruct H as [H _]; discriminate H|].
  destruct H as (Ep & Hl' & _). exists l. split; [exact Hl'|split].
  - apply fl_nodup, NoDup_cons in Hl as [Hn _]. rewrite Ep. exact Hn.
  - intros q Hin. apply Hq. by right.
Qed.

Lemma vm_one_ok : exists T l, as_ok vm_one root1 T ∅ l /\ (tf ∉ l) /\ top_ok vm_one T /\
  forall n, UPN + 1 < n -> has (leaf vm_one T n) PTE_V = false.
Proof.
  unfold vm_one. destruct vm_tf_ok as (l & Hl & Htf & Hq).
  assert (E : result (proc_pagetable tf) vm_tf = Some root1) by (vm_compute; reflexivity).
  pose proof (wp_result _ _ _ _ (proc_pagetable_spec vm_tf l tf Hl ltac:(vm_compute; split; congruence)) E) as H.
  destruct H as (l' & Hl' & _ & [[E0 _]|(T & HA & P & L1 & L2 & L3)]); [exfalso; discriminate E0|].
  exists T, l'. split; [exact HA|split; [|split]].
  - intros Hin. apply Htf. rewrite <-P, elem_of_app. by left.
  - intros n Hn. destruct (decide (n = UPN)) as [->|]; [rewrite L1; vm_compute; reflexivity|].
    destruct (decide (n = UPN + 1)) as [->|]; [rewrite L2; vm_compute; reflexivity|]. rewrite L3 by lia. reflexivity.
  - intros n Hn. rewrite L3 by lia. reflexivity.
Qed.

(** One page of memory in the first address space, and a second, empty one. *)
Definition vm_grown : kmem := final (uvmalloc root1 0 4096 PTE_W) vm_one.
Definition root2 : Z := PHYSTOP - 8 * PGSIZE.
Definition vm_two : kmem := final (proc_pagetable tf) vm_grown.

Lemma vm_grown_ok : exists T A l, as_ok vm_grown root1 T A l /\ is_Some (A !! 0).
Proof.
  unfold vm_grown. destruct vm_one_ok as (T & l & HA & _).
  assert (E : result (uvmalloc root1 0 4096 PTE_W) vm_one = Some 4096) by (vm_compute; reflexivity).
  assert (H : wp (uvmalloc root1 0 4096 PTE_W) (fun r m' => exists T' A' l', as_ok m' root1 T' A' l' /\ (r = 4096 -> is_Some (A' !! 0))) vm_one).
  { eapply wp_conseq; [apply (uvmalloc_spec vm_one root1 T ∅ l 0 4096 PTE_W HA)|].
    1, 2, 3: vm_compute; split; congruence.
    - intros n _. apply lookup_empty.
    - simpl. intros r m' (T' & A' & l' & Ev & Hres). exists T', A', l'. split; [exact (ev_ok _ _ _ _ _ _ _ _ _ Ev)|].
      intros ->. destruct Hres as [[_ Hz]|[E0 _]]; [|discriminate E0]. specialize (Hz 0). rewrite decide_True in Hz by (vm_compute; split; congruence).
      destruct Hz as (pa & Hk & _). by eexists. }
  destruct (wp_result _ _ _ _ H E) as (T' & A' & l' & H1 & H2). exists T', A', l'. split; [exact H1|exact (H2 eq_refl)].
Qed.

Lemma vm_two_ok : exists To Ao Tn l, as_ok vm_two root1 To Ao l /\ as_ok vm_two root2 Tn ∅ l /\ apart Tn ∅ l To Ao /\ is_Some (Ao !! 0).
Proof.
  unfold vm_two. destruct vm_grown_ok as (T & A & l & HA & HS).
  assert (E : result (proc_pagetable tf) vm_grown = Some root2) by (vm_compute; reflexivity).
  destruct (wp_result _ _ _ _ (proc_pagetable_spec vm_grown l tf (as_free _ _ _ _ _ HA) ltac:(vm_compute; split; congruence)) E)
    as (l' & Hl' & Hfr & [[E0 _]|(Tn & HN & P & _)]); [exfalso; discriminate E0|].
  pose proof (as_nodup _ _ _ _ _ HA) as Hnd. rewrite <-P in Hnd. rewrite <-app_assoc in Hnd.
  assert (Hsub : NoDup (l' ++ tpages T ++ upages A)).
  { apply NoDup_app in Hnd as (H1 & H2 & H3). apply NoDup_app in H3 as (_ & _ & H3). apply NoDup_app.
    split; [exact H1|split; [|exact H3]]. intros a Ha Hin. apply (H2 a Ha). rewrite elem_of_app. by right. }
  destruct (pt_frame vm_grown root1 T l (final (proc_pagetable tf) vm_grown) l') as [Hpt Hleaf].
  - exact (as_pt _ _ _ _ _ HA).
  - exact Hl'.
  - rewrite app_assoc in Hsub. by apply NoDup_app in Hsub as (? & _).
  - intros a Ha. apply Hfr. pose proof (as_nodup _ _ _ _ _ HA) as Hn2. apply NoDup_app in Hn2 as (_ & Hn2 & _).
    intros Hin. apply (Hn2 a Hin). rewrite elem_of_app. by left.
  - exists T, A, Tn, l'. split; [|split; [exact HN|split; [|exact HS]]].
    + split; [exact Hpt| |exact (as_dom _ _ _ _ _ HA)|exact Hsub].
      intros n Hn. rewrite Hleaf. exact (as_leaf _ _ _ _ _ HA n Hn).
    + unfold apart. rewrite upages_empty, app_nil_r, <-app_assoc. exact Hnd.
Qed.

#[local] Opaque vm_two vm_grown vm_one vm_tf vm_started.

Lemma uvmalloc_correct_witness :
  wp (uvmalloc root1 0 8192 PTE_W) (fun r m' => r = 8192 \/ r = 0) vm_one.
Proof.
  destruct vm_one_ok as (T & l & HA & _).
  eapply wp_conseq; [apply (uvmalloc_correct vm_one root1 T ∅ l 0 8192 PTE_W)|].
  - exact HA.
  - vm_compute. split; congruence.
  - vm_compute. split; congruence.
  - vm_compute. split; congruence.
  - intros n _. apply lookup_empty.
  - simpl. intros r m' (T' & A' & l' & _ & [[-> _]|[-> _]]); [left|right]; reflexivity.
Defined.

Lemma proc_freepagetable_correct_witness :
  exists l0, wp (proc_freepagetable root1 0) (fun _ m' => exists l', free_list m' l' /\ l' ≡ₚ l0 /\ root1 ∈ l') vm_one.
Proof.
  destruct vm_one_ok as (T & l & HA & _ & _ & Htop). exists (l ++ tpages T ++ upages ∅).
  eapply wp_conseq; [apply (proc_freepagetable_correct vm_one root1 T ∅ l 0)|].
  - exact HA.
  - vm_compute. split; congruence.
  - intros n [x Hx]. rewrite lookup_empty in Hx. discriminate Hx.
  - exact Htop.
  - intros [] m' [(l' & Hf & P) _]. exists l'. split; [exact Hf|split; [exact P|]]. rewrite P, !elem_of_app.
    right. left. apply elem_of_tpages. exists (2%nat, 0). exact (pt_root _ _ _ _ (as_pt _ _ _ _ _ HA)).
Defined.

Lemma mappages_correct_witness :
  wp (mappages root1 0x1000 0x2000 0x80000000 (Z.lor PTE_R PTE_U)) (fun r m' => r = 0 ->
    pte_of m' root1 0x2008 = Z.lor (PA2PTE 0x80001000) (Z.lor (Z.lor PTE_R PTE_U) PTE_V)) vm_one.
Proof.
  destruct vm_one_ok as (T & l & HA & _).
  pose proof (mappages_correct vm_one root1 T l 0x1000 0x2000 0x80000000 (Z.lor PTE_R PTE_U)) as H.
  rewrite decide_True in H by (vm_compute; split_and!; congruence).
  eapply wp_conseq; [apply H|].
  - exact (as_pt _ _ _ _ _ HA).
  - lia.
  - lia.
  - vm_compute. congruence.
  - lia.
  - vm_compute. congruence.
  - vm_compute. split; congruence.
  - intros a Ha. rewrite (pte_of_leaf vm_one root1 T l).
    + rewrite (as_leaf _ _ _ _ _ HA) by (rewrite UPN_eq; lia). reflexivity.
    + exact (as_pt _ _ _ _ _ HA).
    + change MAXVA with (2 ^ 38). lia.
  - intros r m' (T' & l' & _ & _ & _ & _ & Hres) ->. destruct Hres as [[_ Hres]|[E _]]; [|discriminate E].
    rewrite Hres by lia. reflexivity.
Defined.

Lemma copyout_correct_witness :
  wp (copyout (Vproc 4096 root1) root1 16 [104; 105]) (fun r m' => r = -1 \/ exists A', uview m' A' 16 = 104 /\ uview m' A' 17 = 105) vm_one.
Proof.
  destruct vm_one_ok as (T & l & HA & _ & Htop & _).
  eapply wp_conseq; [apply (copyout_correct vm_one root1 T ∅ l 4096 16 [104; 105])|].
  - exact HA.
  - exact Htop.
  - vm_compute. split; congruence.
  - lia.
  - intros r m' (T' & A' & l' & k & U & [[-> ->]|[-> _]]); [right|left; reflexivity]. exists A'.
    rewrite !(uc_view _ _ _ _ _ _ _ _ _ _ _ U) by lia. split; reflexivity.
Defined.

Lemma copyin_correct_witness :
  wp (copyin (Vproc 4096 root1) root1 16 2) (fun res m' => res.2 = 0 -> res.1 = [0; 0]) vm_one.
Proof.
  destruct vm_one_ok as (T & l & HA & _ & Htop & _).
  destruct (copyin_correct vm_one root1 T ∅ l 4096 16 2) as [H _].
  - exact HA.
  - exact Htop.
  - vm_compute. split; congruence.
  - lia.
  - lia.
  - eapply wp_conseq; [exact H|]. intros res m' (T' & A' & l' & k & U & E & [[_ ->]|[E2 _]]) H0; [|rewrite H0 in E2; discriminate E2].
    rewrite E. reflexivity.
Defined.

Lemma uvmcopy_correct_witness :
  wp (uvmcopy root1 root2 4096) (fun r m' => r = -1 \/ exists pa pa', pa' <> pa /\ km_pages m' pa' = km_pages vm_two pa) vm_two.
Proof.
  destruct vm_two_ok as (To & Ao & Tn & l & HO & HN & HD & HS).
  eapply wp_conseq; [apply (uvmcopy_correct vm_two root1 root2 To Tn Ao ∅ l 4096)|].
  - vm_compute. split; congruence.
  - exact HO.
  - exact HN.
  - exact HD.
  - intros n _. apply lookup_empty.
  - intros r m' (T' & A' & l' & _ & _ & _ & _ & _ & [(-> & Hc & _)|[-> _]]); [right|left; reflexivity].
    specialize (Hc 0 ltac:(vm_compute; split; congruence)). destruct HS as [[pa f] HS]. rewrite HS in Hc.
    destruct Hc as (pa' & _ & Hne & Ep). exists pa, pa'. split; [exact Hne|exact Ep].
Defined.

(** A kernel of two pages, with the rest of the memory free. *)
Definition kimage : Image := {| im_trampoline := KERNBASE; im_etext := KERNBASE + PGSIZE; im_end := KERNBASE + 2 * PGSIZE |}.

Lemma kimage_ok : @ImageOk kimage.
Proof. split; vm_compute; congruence. Qed.

Lemma vm_boot_ok : mem_boot vm_boot.
Proof. split; [reflexivity|]. intros a. apply length_fill. Qed.

Lemma kimage_room : @im_end kimage + 168 * PGSIZE <= PHYSTOP.
Proof. vm_compute. congruence. Qed.

Lemma kimage_text stacks : @kpte kimage stacks KERNBASE = Z.lor (PA2PTE KERNBASE) (Z.lor (Z.lor PTE_R PTE_X) PTE_V).
Proof. vm_compute. reflexivity. Qed.

(** [kvmmake_correct] on that machine: [kvmmake] returns, the first page of the text is readable and
    executable, and the page below the first stack is not mapped. *)
Lemma kvmmake_correct_witness :
  exists root m', (@kinit kimage ;;; @kvmmake kimage) vm_boot = Ok root m' /\
    pte_of m' root KERNBASE = Z.lor (PA2PTE KERNBASE) (Z.lor (Z.lor PTE_R PTE_X) PTE_V) /\ pte_of m' root (KSTACK 0 - PGSIZE) = 0.
Proof.
  refine (proj1 (wp_returns (@kinit kimage ;;; @kvmmake kimage) (fun root m' =>
    pte_of m' root KERNBASE = Z.lor (PA2PTE KERNBASE) (Z.lor (Z.lor PTE_R PTE_X) PTE_V) /\ pte_of m' root (KSTACK 0 - PGSIZE) = 0) vm_boot) _).
  refine (wp_conseq _ _ _ _ (@kvmmake_correct kimage kimage_ok vm_boot vm_boot_ok kimage_room) _).
  intros root m' (stacks & l & Hpte & _ & _ & _ & _ & _ & _ & _ & Hg & _). split.
  - rewrite (Hpte KERNBASE (conj (proj1 (Z.leb_le 0 KERNBASE) eq_refl) eq_refl)). exact (kimage_text stacks).
  - exact (Hg 0 (conj (Z.le_refl 0) eq_refl)).
Defined.
