(* ===== verification/Spinlock.v ===== *)
(** Spin locks and interrupt nesting, kernel/spinlock.c.

    The first part gives the functions as a single CPU runs them.  The second part is the lock shared by all
    CPUs: a step relation with one step for every access to the lock word or its owner field, so that
    the accesses of different CPUs interleave; mutual exclusion is an invariant of it. *)

From S2P Require Import Prelude Params.

(** The interrupt state of a CPU, kernel/proc.h:25-26, and the interrupt-enable bit of [sstatus]. *)
Record cpu := Cpu { c_noff : Z; c_intena : bool; c_intr : bool }.
#[export] Instance eta_cpu : Eta cpu := fun c => Cpu (c_noff c) (c_intena c) (c_intr c).

(** kernel/spinlock.h:2-8; the owner is the number of a CPU. *)
Record spinlock := Spinlock { lk_locked : Z; lk_cpu : option nat }.
#[export] Instance eta_spinlock : Eta spinlock := fun l => Spinlock (lk_locked l) (lk_cpu l).

(** kernel/riscv.h:285-290 *)
Definition intr_on : M cpu unit := modify (fun c => c <| c_intr := true |>).
(** kernel/riscv.h:292-297 *)
Definition intr_off : M cpu unit := modify (fun c => c <| c_intr := false |>).
(** kernel/riscv.h:299-305 *)
Definition intr_get : M cpu bool := gets c_intr.

(** kernel/spinlock.c:88-100 *)
Definition push_off : M cpu unit :=
  let* old := intr_get in
  intr_off ;;;
  let* c := get in
  (if c_noff c =? 0 then modify (fun c => c <| c_intena := old |>) else ret tt) ;;;
  modify (fun c => c <| c_noff := c_noff c + 1 |>).

(** kernel/spinlock.c:102-113 *)
Definition pop_off : M cpu unit :=
  let* i := intr_get in
  if i then panic "pop_off - interruptible" else
  let* c := get in
  if c_noff c <? 1 then panic "pop_off" else
  modify (fun c => c <| c_noff := c_noff c - 1 |>) ;;;
  let* c := get in
  if (c_noff c =? 0) && c_intena c then intr_on else ret tt.

(** kernel/spinlock.c:11-17 *)
Definition initlock : spinlock := Spinlock 0 None.

(** kernel/spinlock.c:74-82 *)
Definition holding (me : nat) (lk : spinlock) : bool :=
  negb (lk_locked lk =? 0) && bool_decide (lk_cpu lk = Some me).

(** One CPU and a lock. *)
Record cpulock := Cpulock { cl_cpu : cpu; cl_lock : spinlock }.
#[export] Instance eta_cpulock : Eta cpulock := fun s => Cpulock (cl_cpu s) (cl_lock s).

Definition on_cpu {A} (m : M cpu A) : M cpulock A := zoom cl_cpu (fun c s => s <| cl_cpu := c |>) m.

(** kernel/spinlock.c:19-43; without another CPU to release the lock, spinning does not end. *)
Definition acquire (me : nat) : M cpulock unit :=
  on_cpu push_off ;;;
  let* s := get in
  if holding me (cl_lock s) then panic "acquire" else
  if negb (lk_locked (cl_lock s) =? 0) then nofuel else
  modify (fun s => s <| cl_lock := cl_lock s <| lk_locked := 1 |> |>) ;;;
  modify (fun s => s <| cl_lock := cl_lock s <| lk_cpu := Some me |> |>).

(** kernel/spinlock.c:45-72 *)
Definition release (me : nat) : M cpulock unit :=
  let* s := get in
  if negb (holding me (cl_lock s)) then panic "release" else
  modify (fun s => s <| cl_lock := cl_lock s <| lk_cpu := None |> |>) ;;;
  modify (fun s => s <| cl_lock := cl_lock s <| lk_locked := 0 |> |>) ;;;
  on_cpu pop_off.

(** ** Interrupts nest *)

(** Inside [push_off], interrupts are off; the first one has remembered whether they were on. *)
Definition cpu_ok (c : cpu) : Prop := 0 <= c_noff c /\ (0 < c_noff c -> c_intr c = false).

Fixpoint nest (n : nat) (body : M cpu unit) : M cpu unit :=
  match n with O => body | S n' => push_off ;;; nest n' body ;;; pop_off end.

Lemma push_off_spec c :
  cpu_ok c -> wp push_off (fun _ c' => c' = Cpu (c_noff c + 1) (if c_noff c =? 0 then c_intr c else c_intena c) false) c.
Proof.
  intros [H0 H1]. unfold push_off, intr_get, intr_off. wp_steps. simpl.
  destruct (Z.eqb_spec (c_noff c) 0); by wp_steps.
Qed.

Lemma pop_off_spec n i :
  0 < n -> wp pop_off (fun _ c' => c' = Cpu (n - 1) i ((n =? 1) && i)) (Cpu n i false).
Proof.
  intros Hn. unfold pop_off, intr_get, intr_on. wp_steps. cbn [c_intr]. cbn match. wp_steps. cbn [c_noff].
  rewrite (proj2 (Z.ltb_ge _ _)) by lia. wp_steps. cbn [c_noff c_intena upd eta_cpu].
  replace (n - 1 =? 0) with (n =? 1) by (destruct (Z.eqb_spec n 1), (Z.eqb_spec (n - 1) 0); lia).
  destruct (n =? 1), i; by wp_steps.
Qed.

Lemma nest_spec n body c :
  cpu_ok c -> (forall c', 0 < c_noff c' -> c_intr c' = false -> wp body (fun _ c'' => c'' = c') c') ->
  (0 < n)%nat -> wp (nest n body) (fun _ c' => c' = Cpu (c_noff c) (if c_noff c =? 0 then c_intr c else c_intena c)
                       (c_intr c)) c.
Proof.
  revert c. induction n as [|n IH]; intros c Hc Hb Hn; [lia|]. cbn [nest]. destruct Hc as [Hc0 Hc1].
  wp_step. eapply wp_conseq; [by apply push_off_spec|]. intros [] c1 ->.
  assert (Hm : wp (nest n body) (fun _ c' => c' = Cpu (c_noff c + 1) (if c_noff c =? 0 then c_intr c else c_intena c) false)
    (Cpu (c_noff c + 1) (if c_noff c =? 0 then c_intr c else c_intena c) false)).
  { destruct n as [|n]; [apply Hb; simpl; lia || done|].
    eapply wp_conseq; [apply IH; [split; simpl; [lia|done]|done|lia]|]. intros [] c' ->. simpl.
    rewrite (proj2 (Z.eqb_neq (c_noff c + 1) 0)) by lia. done. }
  wp_step. eapply wp_conseq; [exact Hm|]. intros [] c1 ->. eapply wp_conseq; [apply pop_off_spec; lia|]. intros [] c2 ->.
  replace (c_noff c + 1 - 1) with (c_noff c) by lia. f_equal.
  destruct (Z.eqb_spec (c_noff c) 0) as [E|E].
  - rewrite E. done.
  - rewrite (proj2 (Z.eqb_neq (c_noff c + 1) 1)) by lia. simpl. symmetry. apply Hc1. lia.
Qed.

(** [push_off] and [pop_off] nest.  Any depth of matched pairs around code that leaves the interrupt state
    alone runs that code with interrupts off, and in the end the depth is what it was and
    interrupts are on exactly if they were on before; an unmatched [pop_off] panics, and so does one with
    interrupts on. *)
Theorem push_pop_nest n body c :
  cpu_ok c -> (0 < n)%nat ->
  (forall c', 0 < c_noff c' -> c_intr c' = false -> wp body (fun _ c'' => c'' = c') c') ->
  wp (nest n body) (fun _ c' => c_noff c' = c_noff c /\ c_intr c' = c_intr c) c /\
  (c_intr c = false -> c_noff c = 0 -> panics pop_off "pop_off" c) /\
  (c_intr c = true -> panics pop_off "pop_off - interruptible" c).
Proof.
  intros Hc Hn Hb. split_and!.
  - eapply wp_conseq; [by apply nest_spec|]. by intros [] c' ->.
  - intros Hi H0. unfold panics, pop_off, intr_get, bind, gets, get. rewrite Hi. by rewrite H0.
  - intros Hi. unfold panics, pop_off, intr_get, bind, gets, get. by rewrite Hi.
Qed.

Lemma push_pop_nest_witness :
  wp (nest 3 (ret tt)) (fun _ c' => c_noff c' = 0 /\ c_intr c' = true) (Cpu 0 false true).
Proof.
  destruct (push_pop_nest 3 (ret tt) (Cpu 0 false true)) as (H & _).
  - split; simpl; lia.
  - lia.
  - intros c' _ _. reflexivity.
  - exact H.
Defined.

(** ** Mutual exclusion *)

(** Where a CPU is: outside, in the spin loop of [acquire] after the check of [holding], after the swap that won the lock,
    in the critical section, in [release] between clearing the owner and the lock word. *)
Inductive pc := Outside | Spinning | Won | Inside | Leaving.

#[export] Instance pc_eq_dec : EqDecision pc.
Proof. solve_decision. Defined.

(** The next access of CPU [me] to the lock, kernel/spinlock.c:22-72; [None] is a panic. *)
Definition lock_step (me : nat) (p : pc) (lk : spinlock) : option (pc * spinlock) :=
  match p with
  | Outside => if holding me lk then None else Some (Spinning, lk)
  | Spinning =>
      let old := lk_locked lk in
      let lk := lk <| lk_locked := 1 |> in
      if negb (old =? 0) then Some (Spinning, lk) else Some (Won, lk)
  | Won => Some (Inside, lk <| lk_cpu := Some me |>)
  | Inside => if negb (holding me lk) then None else Some (Leaving, lk <| lk_cpu := None |>)
  | Leaving => Some (Outside, lk <| lk_locked := 0 |>)
  end.

Record shared := Shared { sh_pc : nat -> pc; sh_lock : spinlock }.

(** CPU [me] takes its next step. *)
Definition sstep (me : nat) (s : shared) : option shared :=
  match lock_step me (sh_pc s me) (sh_lock s) with
  | None => None
  | Some (p, lk) => Some (Shared (fun i => if decide (i = me) then p else sh_pc s i) lk)
  end.

(** The CPUs take steps in the order of a schedule. *)
Fixpoint interleave (sched : list nat) (s : shared) : option shared :=
  match sched with
  | [] => Some s
  | me :: sched' => match sstep me s with None => None | Some s' => interleave sched' s' end
  end.

Definition shared0 : shared := Shared (fun _ => Outside) initlock.

Definition owns (p : pc) : bool := match p with Won | Inside | Leaving => true | _ => false end.

Record shared_ok (s : shared) : Prop := {
  so_one i j : owns (sh_pc s i) = true -> owns (sh_pc s j) = true -> i = j;
  so_word : lk_locked (sh_lock s) = 0 \/ lk_locked (sh_lock s) = 1;
  so_locked i : owns (sh_pc s i) = true -> lk_locked (sh_lock s) = 1;
  so_free : lk_locked (sh_lock s) = 1 -> exists i, owns (sh_pc s i) = true;
  so_cpu i : lk_cpu (sh_lock s) = Some i <-> sh_pc s i = Inside }.

Lemma shared_holding s i : shared_ok s -> holding i (sh_lock s) = bool_decide (sh_pc s i = Inside).
Proof.
  intros H. unfold holding. destruct (decide (sh_pc s i = Inside)) as [E|E].
  - rewrite (so_locked _ H i) by (by rewrite E). rewrite !bool_decide_eq_true_2; [done|done|by apply H].
  - rewrite !(bool_decide_eq_false_2); [apply andb_false_r|done|by rewrite (so_cpu _ H)].
Qed.

(** A CPU that waits leaves lock and owner as they are. *)
Lemma waiting_ok me s p lk :
  shared_ok s -> owns (sh_pc s me) = false -> owns p = false -> lk_locked lk = lk_locked (sh_lock s) -> lk_cpu lk = lk_cpu (sh_lock s) ->
  shared_ok (Shared (fun i => if decide (i = me) then p else sh_pc s i) lk).
Proof.
  intros H Ho Hp El Ec. split; simpl; rewrite ?El, ?Ec.
  - intros i j. destruct (decide (i = me)), (decide (j = me)); try congruence. apply H.
  - apply H.
  - intros i. destruct (decide (i = me)); [congruence|]. apply H.
  - intros E1. destruct (so_free _ H E1) as [i Hi]. exists i. rewrite decide_False; [done|]. congruence.
  - intros i. rewrite (so_cpu _ H). destruct (decide (i = me)) as [->|]; [|done]. split; intros E; rewrite E in *; done.
Qed.

(** The owner of the lock may change the recorded CPU. *)
Lemma owner_ok me s p lk :
  shared_ok s -> owns (sh_pc s me) = true -> owns p = true -> lk_locked lk = lk_locked (sh_lock s) ->
  (forall i, lk_cpu lk = Some i <-> i = me /\ p = Inside) -> shared_ok (Shared (fun i => if decide (i = me) then p else sh_pc s i) lk).
Proof.
  intros H Ho Hp El Ec. split; simpl; rewrite ?El.
  - intros i j. destruct (decide (i = me)), (decide (j = me)); subst; try done; intros; by apply (so_one _ H).
  - apply H.
  - intros i _. by apply (so_locked _ H me).
  - intros _. exists me. by rewrite decide_True.
  - intros i. rewrite Ec. destruct (decide (i = me)); [tauto|]. split; [tauto|]. intros Ei. exfalso.
    assert (i = me); [|done]. apply (so_one _ H); [by rewrite Ei|done].
Qed.

Lemma sstep_ok me s : shared_ok s -> exists s', sstep me s = Some s' /\ shared_ok s'.
Proof.
  intros H. pose proof (shared_holding s me H) as Hh. unfold sstep, lock_step.
  pose proof (so_cpu _ H) as Hc. pose proof (so_one _ H) as H1. pose proof (so_locked _ H) as Hl. destruct (sh_pc s me) eqn:E.
  - rewrite Hh, bool_decide_eq_false_2 by done. eexists. split; [done|]. apply waiting_ok; by rewrite ?E.
  - destruct (Z.eqb_spec (lk_locked (sh_lock s)) 0) as [E0|E0]; simpl.
    + assert (Hno : forall i, owns (sh_pc s i) = false).
      { intros i. destruct (owns (sh_pc s i)) eqn:Ei; [|done]. apply Hl in Ei. lia. }
      eexists. split; [done|]. split; simpl.
      * intros i j. destruct (decide (i = me)), (decide (j = me)); subst; try done; by rewrite Hno.
      * by right.
      * done.
      * intros _. exists me. by rewrite decide_True.
      * intros i. rewrite Hc. destruct (decide (i = me)); subst; [by rewrite E|done].
    + eexists. split; [done|]. apply waiting_ok; rewrite ?E; try done. simpl. destruct (so_word _ H); lia.
  - eexists. split; [done|]. apply owner_ok; rewrite ?E; try done. intros i. simpl. split; [by intros [= ->]|by intros [-> _]].
  - rewrite Hh, bool_decide_eq_true_2 by done. simpl. eexists. split; [done|]. apply owner_ok; rewrite ?E; try done. intros i. simpl. split; [done|by intros [_ ?]].
  - eexists. split; [done|]. assert (Hme : owns (sh_pc s me) = true) by by rewrite E. assert (Hno : forall i, i <> me -> owns (sh_pc s i) = false).
    { intros i Hi. destruct (owns (sh_pc s i)) eqn:Ei; [|done]. exfalso. apply Hi. by apply H1. }
    split; simpl.
    + intros i j. destruct (decide (i = me)); [done|]. by rewrite Hno.
    + by left.
    + intros i. destruct (decide (i = me)); [done|]. by rewrite Hno.
    + lia.
    + intros i. rewrite Hc. destruct (decide (i = me)); subst; [by rewrite E|done].
Qed.

Lemma interleave_ok sched s : shared_ok s -> exists s', interleave sched s = Some s' /\ shared_ok s'.
Proof.
  revert s. induction sched as [|me sched IH]; intros s H; [by exists s|]. simpl.
  destruct (sstep_ok me s H) as (s1 & -> & H1). by apply IH.
Qed.

(** C23. Mutual exclusion.  Whatever the order in which the CPUs' accesses to a lock interleave, starting from
    [initlock], no [acquire] and no matched [release] panics, at most one CPU is in the
    critical section, and [holding] answers truthfully on every CPU. *)
Theorem spinlock_mutex sched :
  exists s, interleave sched shared0 = Some s /\
    (forall i j, sh_pc s i = Inside -> sh_pc s j = Inside -> i = j) /\
    forall i, holding i (sh_lock s) = bool_decide (sh_pc s i = Inside).
Proof.
  destruct (interleave_ok sched shared0) as (s & E & H).
  - split; simpl; try done; try lia.
  - exists s. split_and!; [done| |intros i; by apply shared_holding].
    intros i j Hi Hj. apply (so_one _ H); [by rewrite Hi|by rewrite Hj].
Qed.
