(* ===== verification/Proc.v ===== *)
(** Processes, kernel/proc.c: the process table with the memory the processes own.

    The state is the table, the physical memory and the index of the process running on this CPU.  The locks [p->lock],
    [wait_lock] and [pid_lock] make the sections between them atomic and are not part of the state; the context switch
    itself is a step of the scheduler relation in Sched.v. *)

From S2P Require Import Prelude Bytes Params Disk Riscv Kalloc Vm CString.

(** kernel/proc.h:82 *)
Inductive procstate := UNUSED | USED | SLEEPING | RUNNABLE | RUNNING | ZOMBIE.

#[export] Instance procstate_eq_dec : EqDecision procstate.
Proof. solve_decision. Defined.

(** kernel/proc.h:85-107; pointers into the process, file and inode tables are indices, a null pointer is
    [None]; the context is the list of its fourteen registers. *)
Record proc := Proc {
  p_state : procstate;
  p_chan : option chan;
  p_killed : Z;
  p_xstate : Z;
  p_pid : Z;
  p_parent : option nat;
  p_kstack : Z;
  p_sz : Z;
  p_pagetable : Z;
  p_trapframe : Z;
  p_context : list Z;
  p_ofile : list (option nat);
  p_cwd : option nat;
  p_name : list Z }.
#[export] Instance eta_proc : Eta proc := fun p =>
  Proc (p_state p) (p_chan p) (p_killed p) (p_xstate p) (p_pid p) (p_parent p) (p_kstack p) (p_sz p) (p_pagetable p)
    (p_trapframe p) (p_context p) (p_ofile p) (p_cwd p) (p_name p).

(** A process of the zero-initialised data segment. *)
Definition proc0 : proc :=
  Proc UNUSED None 0 0 0 None 0 0 0 0 (replicate 14 0) (replicate (Z.to_nat NOFILE) None) None (replicate 16 0).

(** kernel/proc.c:11-16, the physical memory, and [myproc()]. *)
Record pstate := Pstate {
  ps_mem : kmem;
  ps_proc : list proc;
  ps_initproc : option nat;
  ps_nextpid : Z;
  ps_cur : nat }.
#[export] Instance eta_pstate : Eta pstate := fun s =>
  Pstate (ps_mem s) (ps_proc s) (ps_initproc s) (ps_nextpid s) (ps_cur s).

Definition procat (s : pstate) (i : nat) : proc := nth i (ps_proc s) proc0.
Definition setproc (i : nat) (f : proc -> proc) (s : pstate) : pstate :=
  s <| ps_proc := <[i := f (procat s i)]> (ps_proc s) |>.
Definition liftmem {A} (m : M kmem A) : M pstate A := zoom ps_mem (fun m s => s <| ps_mem := m |>) m.

(** kernel/proc.c:46-59 *)
Definition procinit : M pstate unit :=
  each (fun i => modify (setproc (Z.to_nat i) (fun p => p <| p_state := UNUSED |> <| p_kstack := KSTACK i |>)))
    0 (Z.to_nat NPROC).

(** kernel/proc.c:81-90 *)
Definition myproc : M pstate nat := gets ps_cur.

(** kernel/proc.c:92-103 *)
Definition allocpid : M pstate Z :=
  let* s := get in
  let pid := ps_nextpid s in
  modify (fun s => s <| ps_nextpid := s32 (ps_nextpid s + 1) |>) ;;;
  ret pid.

Section Proc.
Context `{IM : Image}.

(** The address of [forkret]. *)
Variable forkret : Z.

(** kernel/proc.c:152-172 *)
Definition freeproc (i : nat) : M pstate unit :=
  let* s := get in
  (if negb (p_trapframe (procat s i) =? 0) then liftmem (kfree (p_trapframe (procat s i))) else ret tt) ;;;
  modify (setproc i (fun p => p <| p_trapframe := 0 |>)) ;;;
  let* s := get in
  (if negb (p_pagetable (procat s i) =? 0) then
     liftmem (proc_freepagetable (p_pagetable (procat s i)) (p_sz (procat s i)))
   else ret tt) ;;;
  modify (setproc i (fun p =>
    p <| p_pagetable := 0 |> <| p_sz := 0 |> <| p_pid := 0 |> <| p_parent := None |> <| p_name := aset (p_name p) 0 0 |>
      <| p_chan := None |> <| p_killed := 0 |> <| p_xstate := 0 |> <| p_state := UNUSED |>)).

(** The search of [allocproc] for an unused entry, kernel/proc.c:114-121. *)
Fixpoint find_unused (l : list proc) (i : nat) : option nat :=
  match l with
  | [] => None
  | p :: l' => if decide (p_state p = UNUSED) then Some i else find_unused l' (S i)
  end.

(** kernel/proc.c:105-150 *)
Definition allocproc : M pstate (option nat) :=
  let* s := get in
  match find_unused (ps_proc s) 0 with
  | None => ret None
  | Some i =>
      let* pid := allocpid in
      modify (setproc i (fun p => p <| p_pid := pid |> <| p_state := USED |>)) ;;;
      let* tf := liftmem kalloc in
      modify (setproc i (fun p => p <| p_trapframe := tf |>)) ;;;
      if tf =? 0 then freeproc i ;;; ret None else
      let* pt := liftmem (proc_pagetable tf) in
      modify (setproc i (fun p => p <| p_pagetable := pt |>)) ;;;
      if pt =? 0 then freeproc i ;;; ret None else
      modify (setproc i (fun p => p <| p_context := forkret :: (p_kstack p + PGSIZE) :: replicate 12 0 |>)) ;;;
      ret (Some i)
  end.

(** kernel/proc.c:234-252 *)
Definition growproc (n : Z) : M pstate Z :=
  let* i := myproc in
  let* s := get in
  let p := procat s i in
  let sz := p_sz p in
  if 0 <? n then
    let* sz := liftmem (uvmalloc (p_pagetable p) sz (u64 (sz + n)) PTE_W) in
    if sz =? 0 then ret (-1)
    else modify (setproc i (fun p => p <| p_sz := sz |>)) ;;; ret 0
  else if n <? 0 then
    let* sz := liftmem (uvmdealloc (p_pagetable p) sz (u64 (sz + n))) in
    modify (setproc i (fun p => p <| p_sz := sz |>)) ;;; ret 0
  else
    modify (setproc i (fun p => p <| p_sz := sz |>)) ;;; ret 0.

(** [*dst = *src] for [struct trapframe]s, 288 bytes each at the start of a page, and the offset of [a0]. *)
Definition TRAPFRAME_SIZE : Z := 288.
Definition TF_A0 : Z := 112.
Definition copy_trapframe (dst src : Z) : M kmem unit :=
  let* m := get in
  stpage dst (splice (km_pages m dst) 0 (slice (km_pages m src) 0 TRAPFRAME_SIZE)).

(** The part of [kfork] that makes the child's memory, kernel/proc.c:261-280. *)
Definition fork_mem : M pstate (option nat) :=
  let* cur := myproc in
  let* r := allocproc in
  match r with
  | None => ret None
  | Some np =>
      let* s := get in
      let p := procat s cur in
      let* c := liftmem (uvmcopy (p_pagetable p) (p_pagetable (procat s np)) (p_sz p)) in
      if c <? 0 then freeproc np ;;; ret None else
      modify (setproc np (fun q => q <| p_sz := p_sz p |>)) ;;;
      liftmem (copy_trapframe (p_trapframe (procat s np)) (p_trapframe p)) ;;;
      liftmem (st64 (p_trapframe (procat s np) + TF_A0) 0) ;;;
      ret (Some np)
  end.

(** The loop body of [wakeup], kernel/proc.c:577-581. *)
Definition wake (c : chan) (p : proc) : proc :=
  if decide (p_state p = SLEEPING /\ p_chan p = Some c) then p <| p_state := RUNNABLE |> else p.

(** kernel/proc.c:568-584 *)
Definition wakeup (c : chan) : M pstate unit :=
  each (fun k =>
    let* cur := myproc in
    if decide (Z.to_nat k = cur) then ret tt
    else modify (setproc (Z.to_nat k) (wake c))) 0 (Z.to_nat NPROC).

(** kernel/proc.c:305-318 *)
Definition reparent (i : nat) : M pstate unit :=
  each (fun k =>
    let* s := get in
    if decide (p_parent (procat s (Z.to_nat k)) = Some i) then
      modify (setproc (Z.to_nat k) (fun p => p <| p_parent := ps_initproc s |>)) ;;;
      match ps_initproc s with Some j => wakeup (ChProc j) | None => ret tt end
    else ret tt) 0 (Z.to_nat NPROC).

(** kernel/proc.c:586-608 *)
Definition kkill (pid : Z) : M pstate Z :=
  let* r := floop (fun k =>
    let* s := get in
    let i := Z.to_nat k in
    if p_pid (procat s i) =? pid then
      modify (setproc i (fun p => p <| p_killed := 1 |>)) ;;;
      let* s := get in
      (if decide (p_state (procat s i) = SLEEPING) then modify (setproc i (fun p => p <| p_state := RUNNABLE |>)) else ret tt) ;;;
      ret (Some 0)
    else ret None) 0 (Z.to_nat NPROC) in
  match r with Some v => ret v | None => ret (-1) end.

(** kernel/proc.c:610-616 *)
Definition setkilled (i : nat) : M pstate unit := modify (setproc i (fun p => p <| p_killed := 1 |>)).

(** kernel/proc.c:618-627 *)
Definition killed (i : nat) : M pstate Z := gets (fun s => p_killed (procat s i)).

(** The part of [kexit] after the files are closed, kernel/proc.c:345-361: the process is a zombie when the
    scheduler takes over. *)
Definition exit_zombie (status : Z) : M pstate unit :=
  let* i := myproc in
  reparent i ;;;
  let* s := get in
  (match p_parent (procat s i) with Some j => wakeup (ChProc j) | None => ret tt end) ;;;
  modify (setproc i (fun p => p <| p_xstate := status |> <| p_state := ZOMBIE |>)).

(** The scan of [kwait] for an exited child, kernel/proc.c:377-401: a result, or whether there are children. *)
Definition wait_scan (addr : Z) : M pstate (Z + bool) :=
  let* cur := myproc in
  let* r := floop (fun k =>
    let* s := get in
    let pp := procat s (Z.to_nat k) in
    if decide (p_parent pp = Some cur /\ p_state pp = ZOMBIE) then
      let p := procat s cur in
      let* r := (if addr =? 0 then ret 0
                 else liftmem (copyout (Vproc (p_sz p) (p_pagetable p)) (p_pagetable p) addr (le_bytes 4 (p_xstate pp)))) in
      if r <? 0 then ret (Some (-1))
      else freeproc (Z.to_nat k) ;;; ret (Some (p_pid pp))
    else ret None) 0 (Z.to_nat NPROC) in
  match r with
  | Some v => ret (inl v)
  | None => let* s := get in ret (inr (existsb (fun p => bool_decide (p_parent p = Some cur)) (ps_proc s)))
  end.

(** One round of [kwait], kernel/proc.c:365-412; a process with children that have not exited sleeps on itself. *)
Definition kwait (addr : Z) : M pstate Z :=
  let* cur := myproc in
  let* r := wait_scan addr in
  match r with
  | inl v => ret v
  | inr havekids =>
      let* k := killed cur in
      if negb havekids || negb (k =? 0) then ret (-1) else sleepon (ChProc cur)
  end.

(** [p->state] as [procdump] prints it, kernel/proc.c:665-672. *)
Definition state_name (st : procstate) : string :=
  match st with
  | UNUSED => "unused" | USED => "used" | SLEEPING => "sleep " | RUNNABLE => "runble" | RUNNING => "run   " | ZOMBIE => "zombie"
  end.
End Proc.
