(* ===== verification/ProcMem.v ===== *)
(** Isolation of processes: the physical pages of the processes and the free pages are disjoint, and every operation on
    the process table keeps them so. *)

From S2P Require Import CString Prelude Bytes Params Disk Riscv Kalloc Vm VmPt VmUser VmCopy VmFree VmBytes Proc.

Abbreviation aspace := (option (tables * space)).

(** The pages of a process: its trapframe, its page table and its memory. *)
Definition spages (p : proc) (g : aspace) : list Z :=
  (if p_trapframe p =? 0 then [] else [p_trapframe p]) ++ match g with Some (T, A) => tpages T ++ upages A | None => [] end.

Definition slots (s : pstate) (G : nat -> aspace) : list (list Z) := imap (fun i p => spages p (G i)) (ps_proc s).

Definition gput (G : nat -> aspace) (i : nat) (g : aspace) (j : nat) : aspace := if decide (j = i) then g else G j.

(** ** Lists of page lists *)

Lemma concat_insert (ls : list (list Z)) i x :
  (i < length ls)%nat -> concat (<[i := x]> ls) ≡ₚ x ++ concat (<[i := []]> ls).
Proof.
  revert i. induction ls as [|y ls IH]; intros [|i] Hi; simpl in *; try lia; [done|].
  rewrite IH by lia. rewrite !app_assoc. by rewrite (Permutation_app_comm y x).
Qed.

Lemma concat_lookup (ls : list (list Z)) i x :
  ls !! i = Some x -> concat ls ≡ₚ x ++ concat (<[i := []]> ls).
Proof.
  intros Hx. rewrite <-concat_insert by (by eapply lookup_lt_Some). by rewrite list_insert_id.
Qed.

Lemma elem_of_concat (ls : list (list Z)) a : a ∈ concat ls <-> exists i x, ls !! i = Some x /\ a ∈ x.
Proof.
  rewrite list_elem_of_In, in_concat. split.
  - intros (x & Hx & Ha). apply list_elem_of_In, list_elem_of_lookup in Hx as [i Hx]. exists i, x. split; [done|by apply list_elem_of_In].
  - intros (i & x & Hx & Ha). exists x. split; [|by apply list_elem_of_In]. apply list_elem_of_In. by eapply list_elem_of_lookup_2.
Qed.

(** The child's trapframe: the parent's registers, with [a0] zero. *)
Lemma forked_trapframe (q pg : page) k :
  length q = 4096%nat -> length pg = 4096%nat -> 0 <= k < 36 ->
  get64 (put64 (splice q 0 (slice pg 0 TRAPFRAME_SIZE)) TF_A0 0) (8 * k) = if decide (k = 14) then 0 else get64 pg (8 * k).
Proof.
  intros Hq Hp Hk. unfold TF_A0, TRAPFRAME_SIZE. assert (Hs : length (slice pg 0 288) = 288%nat) by (rewrite length_slice; lia).
  assert (Hsp : length (splice q 0 (slice pg 0 288)) = 4096%nat) by (rewrite length_splice; lia).
  destruct (decide (k = 14)) as [->|Hne]; [apply get64_put64; lia|]. unfold get64, put64.
  rewrite slice_splice_other by (rewrite ?length_le_bytes; lia). f_equal. apply list_eq. intros i.
  rewrite !lookup_slice. case_decide; [|done]. rewrite lookup_splice, decide_True by lia. rewrite lookup_slice, decide_True by lia.
  f_equal. lia.
Qed.

Section Iso.
Context `{IM : Image} {IO : ImageOk}.
Implicit Types s : pstate.

(** What the trapframe and trampoline entries of a page table are. *)
Record tops (m : kmem) (T : tables) (tf : Z) : Prop := {
  tp_frame : leaf m T UPN = mkpte tf (vflags (Z.lor PTE_R PTE_W));
  tp_tramp : leaf m T (UPN + 1) = mkpte im_trampoline (vflags (Z.lor PTE_R PTE_X));
  tp_above n : UPN + 1 < n -> leaf m T n = 0 }.

(** One entry of the process table. *)
Record slot_ok (m : kmem) (l : list Z) (p : proc) (g : aspace) : Prop := {
  sl_tf : p_trapframe p <> 0 -> phys (p_trapframe p);
  sl_unused : p_state p = UNUSED -> p_trapframe p = 0 /\ g = None /\ p_sz p = 0;
  sl_space : match g with
    | None => p_pagetable p = 0
    | Some (T, A) => p_pagetable p <> 0 /\ p_trapframe p <> 0 /\ as_ok m (p_pagetable p) T A l /\ tops m T (p_trapframe p) /\
        0 <= p_sz p <= TRAPFRAME /\ forall n, is_Some (A !! n) -> n < npg (p_sz p)
    end }.

(** All pages that the allocator manages. *)
Variable W : list Z.

Record iso s (l : list Z) (G : nat -> aspace) : Prop := {
  is_len : length (ps_proc s) = 64%nat;
  is_free : free_list (ps_mem s) l;
  is_nodup : NoDup (l ++ concat (slots s G));
  is_all : l ++ concat (slots s G) ≡ₚ W;
  is_slot i : (i < 64)%nat -> slot_ok (ps_mem s) l (procat s i) (G i) }.

(** A slot none of whose pages has changed. *)
Lemma slot_frame m l p g m' l' :
  slot_ok m l p g -> free_list m' l' -> NoDup (l' ++ spages p g) ->
  (forall a, a ∈ spages p g -> km_pages m' a = km_pages m a) -> slot_ok m' l' p g.
Proof.
  intros [H1 H2 H3] Hf Hn E. split; [done|done|]. destruct g as [[T A]|]; [|done].
  destruct H3 as (Hpt & Htf & HA & Ht & Hsz & Hd). unfold spages in *.
  assert (Hn' : NoDup (l' ++ tpages T ++ upages A)).
  { apply NoDup_app in Hn as (Hn1 & Hn2 & Hn3). apply NoDup_app in Hn3 as (_ & _ & Hn3). apply NoDup_app. split_and!; [done| |done].
    intros a Ha Hin. apply (Hn2 a Ha). rewrite elem_of_app. by right. }
  destruct (pt_frame m (p_pagetable p) T l m' l') as [Hpt' Hleaf].
  - apply HA.
  - done.
  - rewrite app_assoc in Hn'. by apply NoDup_app in Hn' as (? & _).
  - intros a Ha. apply E. rewrite !elem_of_app. tauto.
  - split_and!; try done; try lia.
    + split; [done| |apply HA|done]. intros n Hnr. rewrite Hleaf. by apply HA.
    + destruct Ht as [Ht1 Ht2 Ht3]. split; [by rewrite Hleaf|by rewrite Hleaf|]. intros n Hnr. rewrite Hleaf. by apply Ht3.
Qed.

Lemma slots_lookup s G i : length (ps_proc s) = 64%nat -> (i < 64)%nat -> slots s G !! i = Some (spages (procat s i) (G i)).
Proof.
  intros Hl Hi. unfold slots, procat. rewrite list_lookup_imap, (lookup_nth _ i proc0) by lia. done.
Qed.

Lemma length_slots s G : length (slots s G) = length (ps_proc s).
Proof. unfold slots. by rewrite length_imap. Qed.

Lemma slots_put s G i p g m' :
  (i < length (ps_proc s))%nat ->
  slots (s <| ps_mem := m' |> <| ps_proc := <[i := p]> (ps_proc s) |>) (gput G i g) = <[i := spages p g]> (slots s G).
Proof.
  intros Hi. apply list_eq. intros j. unfold slots. simpl. rewrite list_lookup_imap. destruct (decide (j = i)) as [->|Hne].
  - rewrite !list_lookup_insert_eq by (rewrite ?length_imap; done). simpl. unfold gput. by rewrite decide_True.
  - rewrite !list_lookup_insert_ne by done. rewrite list_lookup_imap. unfold gput. by rewrite decide_False.
Qed.

Lemma procat_put s i p m' j :
  (i < length (ps_proc s))%nat ->
  procat (s <| ps_mem := m' |> <| ps_proc := <[i := p]> (ps_proc s) |>) j = if decide (j = i) then p else procat s j.
Proof.
  intros Hi. unfold procat. simpl. case_decide; subst; [by apply nth_list_insert_eq|by apply nth_list_insert_ne].
Qed.

(** One process changes, using only its own pages and free pages. *)
Lemma iso_step s l G i p' g' m' l' :
  iso s l G -> (i < 64)%nat -> free_list m' l' ->
  l' ++ spages p' g' ≡ₚ l ++ spages (procat s i) (G i) ->
  (forall a, a ∉ l ++ spages (procat s i) (G i) -> km_pages m' a = km_pages (ps_mem s) a) ->
  slot_ok m' l' p' g' ->
  iso (s <| ps_mem := m' |> <| ps_proc := <[i := p']> (ps_proc s) |>) l' (gput G i g').
Proof.
  intros [Hlen Hf Hn Hw Hs] Hi Hf' P Hfr Hok.
  pose proof (slots_lookup s G i Hlen Hi) as Hli. pose proof (length_slots s G) as Hls.
  assert (Pn : l' ++ concat (<[i := spages p' g']> (slots s G)) ≡ₚ l ++ concat (slots s G)).
  { rewrite concat_insert by lia. rewrite (concat_lookup (slots s G) i _ Hli), !app_assoc. by rewrite P. }
  assert (Hnew : NoDup (l' ++ concat (<[i := spages p' g']> (slots s G)))) by (by rewrite Pn).
  split; [simpl; by rewrite length_insert|done|rewrite slots_put by lia; done|rewrite slots_put by lia; by rewrite Pn|].
  intros j Hj. rewrite procat_put by lia. unfold gput. simpl (ps_mem _). destruct (decide (j = i)) as [->|Hne]; [done|].
  pose proof (slots_lookup s G j Hlen Hj) as Hlj.
  apply (slot_frame (ps_mem s) l); [by apply Hs|done| |].
  - rewrite (concat_lookup _ j (spages (procat s j) (G j))) in Hnew by (by rewrite list_lookup_insert_ne).
    rewrite app_assoc in Hnew. by apply NoDup_app in Hnew as (? & _).
  - intros a Ha. apply Hfr. intros Hin. rewrite (concat_lookup _ i _ Hli) in Hn. rewrite app_assoc in Hn.
    apply NoDup_app in Hn as (_ & Hn & _). apply (Hn a Hin). apply elem_of_concat. exists j, (spages (procat s j) (G j)).
    by rewrite list_lookup_insert_ne.
Qed.

(** ** Changes of one entry *)
Lemma procat_setproc s i f j :
  (i < length (ps_proc s))%nat -> procat (setproc i f s) j = if decide (j = i) then f (procat s i) else procat s j.
Proof.
  intros Hi. unfold setproc, procat. simpl. case_decide; subst; [by apply nth_list_insert_eq|by apply nth_list_insert_ne].
Qed.

Lemma iso_ext s l G s' G' :
  iso s l G -> ps_mem s' = ps_mem s -> ps_proc s' = ps_proc s -> (forall i, (i < 64)%nat -> G' i = G i) -> iso s' l G'.
Proof.
  intros [H1 H2 H3 Hw H4] Em Ep Eg.
  assert (slots s' G' = slots s G) as Es.
  { unfold slots. rewrite Ep. apply list_eq. intros i. rewrite !list_lookup_imap.
    destruct (ps_proc s !! i) as [p|] eqn:E; [|done]. simpl. apply lookup_lt_Some in E. by rewrite Eg by lia. }
  split; [congruence|by rewrite Em|by rewrite Es|by rewrite Es|]. intros i Hi. rewrite Eg by done. unfold procat. rewrite Ep, Em. by apply H4.
Qed.

(** An update that leaves the memory of the entry alone. *)
Definition keeps (p p' : proc) : Prop :=
  p_trapframe p' = p_trapframe p /\ p_pagetable p' = p_pagetable p /\ p_sz p' = p_sz p /\
  (p_state p' = UNUSED -> p_state p = UNUSED).

Lemma iso_keep s l G i f :
  iso s l G -> (i < 64)%nat -> keeps (procat s i) (f (procat s i)) -> iso (setproc i f s) l G.
Proof.
  intros H Hi (K1 & K2 & K3 & K4). assert (Esp : spages (f (procat s i)) (G i) = spages (procat s i) (G i)) by (unfold spages; by rewrite K1).
  eapply iso_ext; [apply (iso_step s l G i (f (procat s i)) (G i) (ps_mem s) l H Hi); try done|done|done|].
  - apply H.
  - by rewrite Esp.
  - pose proof (is_slot _ _ _ H i Hi) as [S1 S2 S3]. split; rewrite ?K1, ?K2, ?K3; auto.
  - intros j Hj. unfold gput. by case_decide; subst.
Qed.

Lemma find_unused_spec l k i :
  find_unused l k = Some i -> exists j p, i = (k + j)%nat /\ l !! j = Some p /\ p_state p = UNUSED.
Proof.
  revert k. induction l as [|p l IH]; intros k; simpl; [done|]. case_decide as Hd.
  - intros [= <-]. exists 0%nat, p. split_and!; [lia|done|done].
  - intros (j & q & -> & Hj & Hq)%IH. exists (S j), q. split_and!; [lia|done|done].
Qed.

(** What an operation on the entry [i] leaves alone. *)
Record only (i : nat) s s' : Prop := {
  on_proc j : j <> i -> procat s' j = procat s j;
  on_cur : ps_cur s' = ps_cur s;
  on_init : ps_initproc s' = ps_initproc s }.

Lemma only_trans i s1 s2 s3 : only i s1 s2 -> only i s2 s3 -> only i s1 s3.
Proof. intros [A1 A2 A3] [B1 B2 B3]. split; [|congruence..]. intros j Hj. rewrite B1 by done. by apply A1. Qed.

Lemma only_set i s f m : (i < length (ps_proc s))%nat -> only i s (setproc i f (s <| ps_mem := m |>)).
Proof.
  intros Hi. split; [|done|done]. intros j Hj. unfold procat, setproc. simpl. by apply nth_list_insert_ne.
Qed.

(** The memory of the other processes is untouched. *)
Definition others_kept (i : nat) s (G : nat -> aspace) (m' : kmem) : Prop :=
  forall j a, (j < 64)%nat -> j <> i -> a ∈ spages (procat s j) (G j) -> km_pages m' a = km_pages (ps_mem s) a.

Lemma iso_others s l G i m' :
  iso s l G -> (i < 64)%nat -> (forall a, a ∉ l ++ spages (procat s i) (G i) -> km_pages m' a = km_pages (ps_mem s) a) ->
  others_kept i s G m'.
Proof.
  intros [Hlen Hf Hn Hw Hs] Hi E j a Hj Hne Ha. apply E. intros Hin.
  rewrite (concat_lookup _ i _ (slots_lookup s G i Hlen Hi)), app_assoc in Hn. apply NoDup_app in Hn as (_ & Hd & _).
  apply (Hd a Hin). apply elem_of_concat. exists j, (spages (procat s j) (G j)).
  rewrite list_lookup_insert_ne by done. split; [by apply slots_lookup|done].
Qed.

(** [iso_step] for one entry updated by a function. *)
Lemma iso_put s l G i f g' m' l' :
  iso s l G -> (i < 64)%nat -> free_list m' l' ->
  l' ++ spages (f (procat s i)) g' ≡ₚ l ++ spages (procat s i) (G i) ->
  (forall a, a ∉ l ++ spages (procat s i) (G i) -> km_pages m' a = km_pages (ps_mem s) a) ->
  slot_ok m' l' (f (procat s i)) g' ->
  let s' := setproc i f (s <| ps_mem := m' |>) in
  iso s' l' (gput G i g') /\ only i s s' /\ procat s' i = f (procat s i) /\ others_kept i s G m'.
Proof.
  intros H Hi Hf P E Hs s'. pose proof (is_len _ _ _ H). split_and!.
  - exact (iso_step s l G i (f (procat s i)) g' m' l' H Hi Hf P E Hs).
  - apply only_set. lia.
  - unfold s'. rewrite procat_setproc by (simpl; lia). by rewrite decide_True.
  - by apply iso_others with (l := l).
Qed.

(** ** [freeproc] *)
Definition freed_proc (p : proc) : proc :=
  p <| p_trapframe := 0 |> <| p_pagetable := 0 |> <| p_sz := 0 |> <| p_pid := 0 |> <| p_parent := None |> <| p_name := aset (p_name p) 0 0 |>
    <| p_chan := None |> <| p_killed := 0 |> <| p_xstate := 0 |> <| p_state := UNUSED |>.

Lemma wp_liftmem {B} (m : M kmem B) (Q : B -> pstate -> Prop) s :
  wp m (fun a m' => Q a (s <| ps_mem := m' |>)) (ps_mem s) -> wp (liftmem m) Q s.
Proof. intros H. unfold liftmem. by apply wp_zoom. Qed.

Lemma setproc_twice i f g s :
  (i < length (ps_proc s))%nat -> setproc i g (setproc i f s) = setproc i (fun p => g (f p)) s.
Proof.
  intros Hi. unfold setproc, procat. simpl. rewrite nth_list_insert_eq by done. by rewrite list_insert_insert_eq.
Qed.

(** Freeing the memory of an entry. *)
Lemma free_pages_spec s l G i :
  iso s l G -> (i < 64)%nat ->
  let p := procat s i in
  wp ((if negb (p_trapframe p =? 0) then kfree (p_trapframe p) else ret tt) ;;;
      (if negb (p_pagetable p =? 0) then proc_freepagetable (p_pagetable p) (p_sz p) else ret tt))
    (fun _ m' => exists l', free_list m' l' /\ l' ≡ₚ l ++ spages p (G i) /\
      forall a, a ∉ l ++ spages p (G i) -> km_pages m' a = km_pages (ps_mem s) a) (ps_mem s).
Proof.
  intros H Hi p. pose proof (is_slot _ _ _ H i Hi) as [S1 S2 S3]. fold p in S1, S2, S3. pose proof (is_free _ _ _ H) as Hf.
  assert (Hnd : NoDup (l ++ spages p (G i))).
  { pose proof (is_nodup _ _ _ H) as Hn. rewrite (concat_lookup _ i _ (slots_lookup s G i (is_len _ _ _ H) Hi)), app_assoc in Hn.
    by apply NoDup_app in Hn as (? & _). }
  set (tfp := if p_trapframe p =? 0 then [] else [p_trapframe p]).
  assert (W1 : wp (if negb (p_trapframe p =? 0) then kfree (p_trapframe p) else ret tt) (fun _ m1 =>
    free_list m1 (tfp ++ l) /\ forall a, a ∉ tfp -> km_pages m1 a = km_pages (ps_mem s) a) (ps_mem s)).
  { unfold spages in Hnd. fold tfp in Hnd. unfold tfp in *. destruct (Z.eqb_spec (p_trapframe p) 0) as [E|E]; cbn [negb].
    - wp_steps. done.
    - eapply wp_conseq; [apply (kfree_spec (ps_mem s) l); [done|by apply S1|]|].
      + intros Hin. apply NoDup_app in Hnd as (_ & Hd & _). apply (Hd _ Hin). by left.
      + intros [] m1 [F1 E1]. split; [done|]. intros a Ha. apply E1. intros ->. apply Ha. by left. }
  wp_step. eapply wp_conseq; [exact W1|]. intros [] m1 [F1 E1]. unfold spages in *. fold tfp in Hnd |- *.
  destruct (G i) as [[T A]|].
  - destruct S3 as (Hpt & Htf & HA & [Tp1 Tp2 Tp3] & Hsz & Hd). rewrite (proj2 (Z.eqb_neq _ _) Hpt). cbn [negb].
    assert (Pn : tfp ++ l ++ tpages T ++ upages A ≡ₚ l ++ tfp ++ tpages T ++ upages A).
    { rewrite !app_assoc. by rewrite (Permutation_app_comm tfp l). }
    assert (Hnd1 : NoDup ((tfp ++ l) ++ tpages T ++ upages A)) by (rewrite <-app_assoc; by rewrite Pn).
    destruct (pt_frame (ps_mem s) (p_pagetable p) T l m1 (tfp ++ l)) as [Hpt1 Hleaf1]; [apply HA|done| | |].
    { rewrite app_assoc in Hnd1. by apply NoDup_app in Hnd1 as (? & _). }
    { intros a Ha. apply E1. intros Hin. apply NoDup_app in Hnd1 as (_ & Hd1 & _). apply (Hd1 a); rewrite elem_of_app; by left. }
    assert (HA1 : as_ok m1 (p_pagetable p) T A (tfp ++ l)).
    { split; [done| |apply HA|done]. intros n Hn. rewrite Hleaf1. by apply HA. }
    eapply wp_conseq; [apply (proc_freepagetable_spec m1 _ T A (tfp ++ l) (p_sz p) HA1); try done|].
    + intros n Hn. rewrite Hleaf1, Tp3 by done. done.
    + intros [] m2 [(l2 & F2 & P2) E2]. exists l2. rewrite <-app_assoc in P2, E2. split_and!; [done|by rewrite P2, Pn|].
      intros a Ha. rewrite <-Pn in Ha. rewrite E2 by done. apply E1. intros Hin. apply Ha. rewrite !elem_of_app. by left.
  - rewrite S3. simpl. wp_steps. exists (tfp ++ l). rewrite app_nil_r. split_and!; [done|apply Permutation_app_comm|].
    intros a Ha. apply E1. intros Hin. apply Ha. rewrite elem_of_app. by right.
Qed.

Lemma freeproc_spec s l G i :
  iso s l G -> (i < 64)%nat ->
  wp (freeproc i) (fun _ s' => exists l', iso s' l' (gput G i None) /\ only i s s' /\ others_kept i s G (ps_mem s') /\
    procat s' i = freed_proc (procat s i)) s.
Proof.
  intros H Hi. pose proof (free_pages_spec s l G i H Hi) as HW. cbv zeta in HW. apply wp_bind_inv in HW.
  pose proof (is_len _ _ _ H) as Hlen. unfold freeproc. wp_steps. set (p := procat s i) in *.
  assert (W' : wp (if negb (p_trapframe p =? 0) then liftmem (kfree (p_trapframe p)) else ret tt)
    (fun _ s1 => exists m1, s1 = s <| ps_mem := m1 |> /\ wp (if negb (p_pagetable p =? 0) then proc_freepagetable (p_pagetable p) (p_sz p) else ret tt)
      (fun _ m' => exists l', free_list m' l' /\ l' ≡ₚ l ++ spages p (G i) /\
        forall a, a ∉ l ++ spages p (G i) -> km_pages m' a = km_pages (ps_mem s) a) m1) s).
  { destruct (negb (p_trapframe p =? 0)).
    - apply wp_liftmem. eapply wp_conseq; [exact HW|]. intros [] m1 W1. by exists m1.
    - unfold wp in HW at 1. simpl in HW. wp_steps. exists (ps_mem s). by destruct s. }
  eapply wp_conseq; [exact W'|]. clear HW W'. intros [] s1 (m1 & -> & W1). wp_steps.
  set (s2 := setproc i (fun p => p <| p_trapframe := 0 |>) (s <| ps_mem := m1 |>)).
  assert (Ep : procat s2 i = p <| p_trapframe := 0 |>) by (unfold s2; rewrite procat_setproc by (simpl; lia); by rewrite decide_True).
  rewrite Ep. change (p_pagetable (p <| p_trapframe := 0 |>)) with (p_pagetable p). change (p_sz (p <| p_trapframe := 0 |>)) with (p_sz p).
  assert (W2 : wp (if negb (p_pagetable p =? 0) then liftmem (proc_freepagetable (p_pagetable p) (p_sz p)) else ret tt)
    (fun _ s3 => exists m', s3 = s2 <| ps_mem := m' |> /\ exists l', free_list m' l' /\ l' ≡ₚ l ++ spages p (G i) /\
        forall a, a ∉ l ++ spages p (G i) -> km_pages m' a = km_pages (ps_mem s) a) s2).
  { destruct (negb (p_pagetable p =? 0)).
    - apply wp_liftmem. eapply wp_conseq; [exact W1|]. intros [] m' Hm'. exists m'. by split.
    - unfold wp in W1. simpl in W1. wp_steps. exists m1. by split. }
  eapply wp_conseq; [exact W2|]. intros [] s3 (m' & -> & l' & Hf' & P' & E'). wp_steps. exists l'.
  destruct (iso_put s l G i freed_proc None m' l' H Hi Hf') as (R1 & R2 & R3 & R4); [|done|done|].
  { unfold spages. simpl. by rewrite app_nil_r, P'. }
  assert (Es : setproc i (fun p => p <| p_pagetable := 0 |> <| p_sz := 0 |> <| p_pid := 0 |> <| p_parent := None |> <| p_name := aset (p_name p) 0 0 |>
      <| p_chan := None |> <| p_killed := 0 |> <| p_xstate := 0 |> <| p_state := UNUSED |>) (s2 <| ps_mem := m' |>) =
    setproc i freed_proc (s <| ps_mem := m' |>)).
  { unfold setproc, s2, procat. simpl. unfold setproc. simpl. rewrite nth_list_insert_eq by lia. rewrite list_insert_insert_eq. done. }
  rewrite Es. by split_and!.
Qed.

(** ** [allocproc] *)
Definition alloc_post s (l : list Z) (G : nat -> aspace) (r : option nat) s' : Prop :=
  match r with
  | None => exists l', iso s' l' G /\ ps_cur s' = ps_cur s /\
      (forall j a, (j < 64)%nat -> a ∈ spages (procat s j) (G j) -> km_pages (ps_mem s') a = km_pages (ps_mem s) a) /\
      (forall j, (j < 64)%nat -> p_state (procat s j) <> UNUSED -> procat s' j = procat s j) /\
      forall j, (j < 64)%nat -> p_state (procat s j) = UNUSED -> p_state (procat s' j) = UNUSED
  | Some i => exists T l', iso s' l' (gput G i (Some (T, ∅))) /\ (i < 64)%nat /\ only i s s' /\ others_kept i s G (ps_mem s') /\
      p_state (procat s i) = UNUSED /\ p_state (procat s' i) = USED /\ p_sz (procat s' i) = 0
  end.

Variable forkret : Z.

(** The entry being built is thrown away. *)
Lemma alloc_undo s l G i s1 l1 g1 :
  iso s l G -> (i < 64)%nat -> p_state (procat s i) = UNUSED ->
  iso s1 l1 (gput G i g1) -> only i s s1 -> others_kept i s G (ps_mem s1) ->
  wp (freeproc i ;;; ret (None : option nat)) (fun r s' => r = None /\ alloc_post s l G None s') s1.
Proof.
  intros H Hi Hu H1 O1 K1. destruct (sl_unused _ _ _ _ (is_slot _ _ _ H i Hi) Hu) as (Etf & Eg & _).
  wp_step. eapply wp_conseq; [exact (freeproc_spec s1 l1 _ i H1 Hi)|]. intros [] s2 (l2 & H2 & O2 & K2 & E2). wp_steps. split; [done|]. exists l2.
  pose proof (only_trans _ _ _ _ O1 O2) as O. split_and!.
  - eapply iso_ext; [exact H2|done|done|]. intros j Hj. unfold gput. by destruct (decide (j = i)) as [->|].
  - apply O.
  - intros j a Hj Ha. destruct (decide (j = i)) as [->|Hne].
    + rewrite Eg in Ha. unfold spages in Ha. rewrite Etf in Ha. by apply elem_of_nil in Ha.
    + rewrite <-(K1 j a Hj Hne Ha). apply (K2 j); [done|done|]. unfold gput. rewrite decide_False by done. by rewrite (on_proc _ _ _ O1).
  - intros j Hj Hst. apply O. by intros ->.
  - intros j Hj Hst. destruct (decide (j = i)) as [->|Hne]; [by rewrite E2|]. by rewrite (on_proc _ _ _ O).
Qed.

Lemma slot_free m l p m' l' : free_list m' l' -> slot_ok m l p None -> slot_ok m' l' p None.
Proof. intros Hf [H1 H2 H3]. by split. Qed.

(** The trapframe page of a new entry. *)
Lemma alloc_trapframe s l G i :
  iso s l G -> (i < 64)%nat -> p_state (procat s i) = USED -> p_trapframe (procat s i) = 0 -> G i = None -> 
  wp (let* tf := liftmem kalloc in modify (setproc i (fun p => p <| p_trapframe := tf |>)) ;;; ret tf)
    (fun tf s' => exists l', iso s' l' G /\ only i s s' /\ others_kept i s G (ps_mem s') /\
      procat s' i = (procat s i) <| p_trapframe := tf |> /\ (tf <> 0 -> phys tf)) s.
Proof.
  intros H Hi Hst Htf Hg. pose proof (is_slot _ _ _ H i Hi) as [S1 S2 S3]. rewrite Hg in S3.
  wp_step. apply wp_liftmem. eapply wp_conseq; [apply (kalloc_spec _ l), H|]. intros tf m1 Hk. wp_steps.
  assert (K : exists l', free_list m1 l' /\ (tf <> 0 -> phys tf) /\
    (l' ++ spages (procat s i <| p_trapframe := tf |>) None ≡ₚ l) /\ forall a, a ∉ l -> km_pages m1 a = km_pages (ps_mem s) a).
  { destruct l as [|c l].
    - destruct Hk as [-> ->]. exists []. split_and!; [apply H|done|done|done].
    - destruct Hk as (-> & Hf & E). exists l. pose proof (fl_phys _ _ (is_free _ _ _ H)) as Hp. apply Forall_cons in Hp as [Hp _].
      pose proof (phys_pos _ Hp). split_and!; [done|done| |].
      + unfold spages. simpl. rewrite (proj2 (Z.eqb_neq c 0)) by lia. by rewrite app_nil_r, Permutation_app_comm.
      + intros a Ha. rewrite E. apply bput_ne. intros ->. apply Ha. by left. }
  destruct K as (l' & Hf & Hp & P & E). exists l'.
  assert (Esp : spages (procat s i) (G i) = []) by (unfold spages; by rewrite Htf, Hg).
  destruct (iso_put s l G i (fun p => p <| p_trapframe := tf |>) None m1 l' H Hi Hf) as (R1 & R2 & R3 & R4).
  - by rewrite Esp, app_nil_r, P.
  - intros a. rewrite Esp, app_nil_r. apply E.
  - split; simpl; [done|by rewrite Hst|done].
  - split_and!; try done. eapply iso_ext; [exact R1|done|done|]. intros j Hj. unfold gput. by case_decide; subst.
Qed.

(** The page table of a new entry. *)
Lemma alloc_pagetable s l G i tf :
  iso s l G -> (i < 64)%nat -> p_state (procat s i) = USED -> p_trapframe (procat s i) = tf -> tf <> 0 -> G i = None -> p_sz (procat s i) = 0 ->
  wp (let* pt := liftmem (proc_pagetable tf) in modify (setproc i (fun p => p <| p_pagetable := pt |>)) ;;; ret pt)
    (fun pt s' => exists l' g, iso s' l' (gput G i g) /\ only i s s' /\ others_kept i s G (ps_mem s') /\
      procat s' i = (procat s i) <| p_pagetable := pt |> /\ (pt <> 0 -> exists T, g = Some (T, ∅))) s.
Proof.
  intros H Hi Hst Htf Hne Hg Hsz. pose proof (is_slot _ _ _ H i Hi) as [S1 S2 S3]. rewrite Hg in S3.
  wp_step. apply wp_liftmem. eapply wp_conseq; [apply (proc_pagetable_spec _ l tf); [apply H|]|].
  { rewrite <-Htf in *. pose proof (phys_pos _ (S1 Hne)). lia. }
  intros pt m1 (l' & Hf & E & Hres). wp_steps. exists l'.
  assert (E' : forall a, a ∉ l ++ spages (procat s i) (G i) -> km_pages m1 a = km_pages (ps_mem s) a).
  { intros a Ha. apply E. intros Hin. apply Ha. rewrite elem_of_app. by left. }
  destruct Hres as [(-> & P & _)|(T & HA & P & L1 & L2 & L3)].
  - exists None. destruct (iso_put s l G i (fun p => p <| p_pagetable := 0 |>) None m1 l' H Hi Hf) as (R1 & R2 & R3 & R4).
    + unfold spages. simpl. by rewrite Hg, P.
    + done.
    + split; simpl; [done|by rewrite Hst|done].
    + by split_and!.
  - exists (Some (T, ∅)). destruct (iso_put s l G i (fun p => p <| p_pagetable := pt |>) (Some (T, ∅)) m1 l' H Hi Hf) as (R1 & R2 & R3 & R4).
    + unfold spages. rewrite upages_empty, Hg, !app_nil_r. simpl. rewrite <-P, <-!app_assoc. f_equiv. apply Permutation_app_comm.
    + done.
    + split; simpl; [done|by rewrite Hst|]. rewrite Htf, Hsz. split_and!; try done.
      * pose proof (pt_phys _ _ _ _ (as_pt _ _ _ _ _ HA) _ _ (pt_root _ _ _ _ (as_pt _ _ _ _ _ HA))) as Hp. apply phys_pos in Hp. lia.
      * intros n Hn. rewrite lookup_empty in Hn. by destruct Hn.
    + split_and!; try done. by exists T.
Qed.

Lemma others_trans i s G s1 G1 m2 :
  only i s s1 -> (forall j, j <> i -> G1 j = G j) -> others_kept i s G (ps_mem s1) -> others_kept i s1 G1 m2 -> others_kept i s G m2.
Proof.
  intros O EG K1 K2 j a Hj Hne Ha. rewrite <-(K1 j a Hj Hne Ha). apply (K2 j a Hj Hne). by rewrite (on_proc _ _ _ O), EG.
Qed.

Lemma gput_ne G i g j : j <> i -> gput G i g j = G j.
Proof. intros H. unfold gput. by rewrite decide_False. Qed.
Lemma gput_eq G i g : gput G i g i = g.
Proof. unfold gput. by rewrite decide_True. Qed.

Lemma allocproc_spec s l G : iso s l G -> wp (allocproc forkret) (alloc_post s l G) s.
Proof.
  intros H. unfold allocproc. wp_step. wp_step. destruct (find_unused (ps_proc s) 0) as [i|] eqn:Ef.
  2:{ wp_steps. exists l. by split_and!. }
  apply find_unused_spec in Ef as (j & p & -> & Hj & Hu). rewrite Nat.add_0_l. rename j into i.
  pose proof (is_len _ _ _ H) as Hlen. assert (Hi : (i < 64)%nat) by (apply lookup_lt_Some in Hj; lia).
  assert (Hp : procat s i = p) by (unfold procat; by apply nth_lookup_Some). rewrite <-Hp in Hu. clear p Hj Hp.
  destruct (sl_unused _ _ _ _ (is_slot _ _ _ H i Hi) Hu) as (Etf & Eg & Esz).
  unfold allocpid. wp_steps.
  set (s0 := s <| ps_nextpid := s32 (ps_nextpid s + 1) |>).
  assert (H0 : iso s0 l G) by (by apply (iso_ext s l G)).
  set (s1 := setproc i (fun p => p <| p_pid := ps_nextpid s |> <| p_state := USED |>) s0).
  assert (H1 : iso s1 l G) by (apply iso_keep; [done|done|by split_and!]).
  assert (O1 : only i s s1) by (split; [|done|done]; intros j Hj; by apply nth_list_insert_ne).
  assert (P1 : procat s1 i = procat s i <| p_pid := ps_nextpid s |> <| p_state := USED |>).
  { unfold s1. rewrite procat_setproc by (simpl; lia). by rewrite decide_True. }
  pose proof (alloc_trapframe s1 l G i H1 Hi) as W1. rewrite P1 in W1. specialize (W1 eq_refl Etf Eg).
  apply wp_bind_inv in W1. eapply wp_conseq; [exact W1|]. clear W1. intros tf s2' W1. cbn beta in W1. apply wp_bind_inv in W1.
  wp_step. eapply wp_conseq; [exact W1|]. clear W1 s2'. intros [] s2 (l2 & H2 & O2 & K2 & P2 & Htf).
  pose proof (only_trans _ _ _ _ O1 O2) as O2'. pose proof (others_trans i s G s1 G _ O1 (fun _ _ => eq_refl) ltac:(done) K2) as K2'.
  destruct (Z.eqb_spec tf 0) as [->|Hne].
  { eapply wp_conseq; [apply (alloc_undo s l G i s2 l2 (G i)); try done|by intros ? ? [-> ?]].
    eapply iso_ext; [exact H2|done|done|]. intros j Hj. unfold gput. by case_decide; subst. }
  pose proof (alloc_pagetable s2 l2 G i tf H2 Hi) as W2. rewrite P2 in W2. specialize (W2 eq_refl eq_refl Hne Eg Esz).
  apply wp_bind_inv in W2. wp_step. eapply wp_conseq; [exact W2|]. clear W2. intros pt s3' W2. cbn beta in W2. apply wp_bind_inv in W2.
  wp_step. eapply wp_conseq; [exact W2|]. clear W2 s3'. intros [] s3 (l3 & g & H3 & O3 & K3 & P3 & Hg).
  pose proof (only_trans _ _ _ _ O2' O3) as O3'. pose proof (others_trans i s G s2 G _ O2' (fun _ _ => eq_refl) K2' K3) as K3'.
  destruct (Z.eqb_spec pt 0) as [->|Hpt]; [eapply wp_conseq; [by apply (alloc_undo s l G i s3 l3 g)|by intros ? ? [-> ?]]|].
  destruct (Hg Hpt) as [T ->]. wp_steps. exists T, l3.
  assert (Hlen3 : (i < length (ps_proc s3))%nat) by (rewrite (is_len _ _ _ H3); lia).
  split_and!; try done.
  - apply iso_keep; [done|done|]. by split_and!.
  - eapply only_trans; [exact O3'|]. split; [|done|done]. intros j Hj. by apply nth_list_insert_ne.
  - rewrite procat_setproc, decide_True by done. simpl. by rewrite P3.
  - rewrite procat_setproc, decide_True by done. simpl. by rewrite P3.
Qed.

(** ** Changes of the memory of one process *)
Lemma iso_two s l G i j :
  iso s l G -> (i < 64)%nat -> (j < 64)%nat -> i <> j -> NoDup ((l ++ spages (procat s i) (G i)) ++ spages (procat s j) (G j)).
Proof.
  intros [Hlen Hf Hn Hw Hs] Hi Hj Hne. pose proof (slots_lookup s G i Hlen Hi) as Li. pose proof (slots_lookup s G j Hlen Hj) as Lj.
  rewrite (concat_lookup _ i _ Li), (concat_lookup (<[i:=[]]> (slots s G)) j (spages (procat s j) (G j))) in Hn by (by rewrite list_lookup_insert_ne).
  rewrite !app_assoc in Hn. by apply NoDup_app in Hn as (? & _).
Qed.

Lemma iso_mem s l G i g' m' l' :
  iso s l G -> (i < 64)%nat -> free_list m' l' ->
  l' ++ spages (procat s i) g' ≡ₚ l ++ spages (procat s i) (G i) ->
  (forall a, a ∉ l ++ spages (procat s i) (G i) -> km_pages m' a = km_pages (ps_mem s) a) ->
  slot_ok m' l' (procat s i) g' ->
  iso (s <| ps_mem := m' |>) l' (gput G i g') /\ others_kept i s G m'.
Proof.
  intros H Hi Hf P E Hs. split; [|by apply (iso_others s l)].
  eapply iso_ext; [exact (iso_step s l G i (procat s i) g' m' l' H Hi Hf P E Hs)|done| |done].
  simpl. symmetry. apply list_insert_id. unfold procat. rewrite (lookup_nth _ i proc0); [done|]. rewrite (is_len _ _ _ H). lia.
Qed.

(** A page that is neither free nor part of a page table is written. *)
Lemma iso_write s l G i m' :
  iso s l G -> (i < 64)%nat -> p_trapframe (procat s i) <> 0 -> km_freelist m' = km_freelist (ps_mem s) ->
  (forall a, length (km_pages m' a) = 4096%nat) ->
  (forall a, a <> p_trapframe (procat s i) -> km_pages m' a = km_pages (ps_mem s) a) ->
  iso (s <| ps_mem := m' |>) l G /\ others_kept i s G m'.
Proof.
  intros H Hi Htf Hfl Hlen E. pose proof (is_slot _ _ _ H i Hi) as S. pose proof (is_nodup _ _ _ H) as Hn.
  rewrite (concat_lookup _ i _ (slots_lookup s G i (is_len _ _ _ H) Hi)), app_assoc in Hn. apply NoDup_app in Hn as (Hn & _).
  assert (Hsp : spages (procat s i) (G i) = p_trapframe (procat s i) :: match G i with Some (T, A) => tpages T ++ upages A | None => [] end).
  { unfold spages. by rewrite (proj2 (Z.eqb_neq _ _) Htf). }
  assert (Hfree : free_list m' l).
  { apply (free_list_frame (ps_mem s)); [apply H|done| |done]. intros a Ha. apply E. intros ->.
    apply NoDup_app in Hn as (_ & Hd & _). apply (Hd _ Ha). rewrite Hsp. by left. }
  destruct (iso_mem s l G i (G i) m' l H Hi Hfree) as [R1 R2]; [done| | |].
  - intros a Ha. apply E. intros ->. apply Ha. rewrite Hsp, elem_of_app. right. by left.
  - destruct S as [S1 S2 S3]. split; [done|done|]. destruct (G i) as [[T A]|] eqn:Eg; [|done].
    destruct S3 as (Hpt & _ & HA & [Tp1 Tp2 Tp3] & Hsz & Hd). rewrite Hsp in Hn.
    destruct (pt_frame (ps_mem s) (p_pagetable (procat s i)) T l m' l) as [Hpt' Hleaf]; [apply HA|done|apply HA| |].
    + intros a Ha. apply E. intros ->. apply NoDup_app in Hn as (_ & _ & Hn). apply NoDup_cons in Hn as [Hn _]. apply Hn.
      rewrite elem_of_app. by left.
    + split_and!; try done; try lia; [split; [done| |apply HA|apply HA]|split]; try (by rewrite Hleaf).
      * intros n Hr. rewrite Hleaf. by apply HA.
      * intros n Hr. rewrite Hleaf. by apply Tp3.
  - split; [|done]. eapply iso_ext; [exact R1|done|done|]. intros j Hj. unfold gput. by case_decide; subst.
Qed.

(** ** [fork_mem] *)

(** The child [np] made by [fork_mem]: its memory and registers are those of the parent. *)
Record forked s (G : nat -> aspace) (Ao : space) (np : nat) s' (A : space) : Prop := {
  fk_np : (np < 64)%nat;
  fk_unused : p_state (procat s np) = UNUSED;
  fk_used : p_state (procat s' np) = USED;
  fk_only : only np s s';
  fk_sz : p_sz (procat s' np) = p_sz (procat s (ps_cur s));
  fk_space n : match Ao !! n with
    | Some (pa, f) => exists pa', A !! n = Some (pa', f) /\ pa' <> pa /\ km_pages (ps_mem s') pa' = km_pages (ps_mem s) pa
    | None => A !! n = None
    end;
  fk_regs k : 0 <= k < 36 -> get64 (km_pages (ps_mem s') (p_trapframe (procat s' np))) (8 * k) =
    if decide (k = 14) then 0 else get64 (km_pages (ps_mem s) (p_trapframe (procat s (ps_cur s)))) (8 * k);
  fk_others : others_kept np s G (ps_mem s') }.

Definition fork_post s (l : list Z) (G : nat -> aspace) (Ao : space) (r : option nat) s' : Prop :=
  match r with
  | None => alloc_post s l G None s'
  | Some np => exists T A l', iso s' l' (gput G np (Some (T, A))) /\ forked s G Ao np s' A
  end.

(** Copying the trapframe. *)
Lemma fork_frame s l G np tf :
  iso s l G -> (np < 64)%nat -> p_trapframe (procat s np) <> 0 -> tf <> p_trapframe (procat s np) ->
  wp (liftmem (copy_trapframe (p_trapframe (procat s np)) tf) ;;; liftmem (st64 (p_trapframe (procat s np) + TF_A0) 0))
    (fun _ s' => exists m', s' = s <| ps_mem := m' |> /\ iso s' l G /\ others_kept np s G m' /\
      (forall a, a <> p_trapframe (procat s np) -> km_pages m' a = km_pages (ps_mem s) a) /\
      forall k, 0 <= k < 36 -> get64 (km_pages m' (p_trapframe (procat s np))) (8 * k) =
        if decide (k = 14) then 0 else get64 (km_pages (ps_mem s) tf) (8 * k)) s.
Proof.
  intros H Hnp Htf Hne. pose proof (sl_tf _ _ _ _ (is_slot _ _ _ H np Hnp) Htf) as Hp. set (a := p_trapframe (procat s np)) in *.
  wp_step. apply wp_liftmem. unfold copy_trapframe, stpage. wp_steps. apply wp_liftmem. unfold st64. wp_steps.
  assert (Hd : PGROUNDDOWN (a + TF_A0) = a /\ (a + TF_A0) mod PGSIZE = TF_A0).
  { rewrite PGROUNDDOWN_eq. destruct Hp as [Hp _]. unfold PGSIZE, TF_A0 in *. lia. }
  simpl. destruct Hd as [-> ->]. rewrite bput_eq. pose proof (fl_pages _ _ (is_free _ _ _ H)) as Hl.
  set (d := put64 _ _ _).
  assert (Hld : length d = 4096%nat).
  { assert (Hs : length (slice (km_pages (ps_mem s) tf) 0 TRAPFRAME_SIZE) = 288%nat) by (unfold TRAPFRAME_SIZE; rewrite length_slice; rewrite ?Hl; lia).
    assert (Hq : length (splice (km_pages (ps_mem s) a) 0 (slice (km_pages (ps_mem s) tf) 0 TRAPFRAME_SIZE)) = 4096%nat) by (rewrite length_splice; rewrite ?Hl; lia).
    unfold d, TF_A0. rewrite length_put64; rewrite ?Hq; lia. }
  match goal with |- context [Pstate ?x _ _ _ _] => set (m1 := x) end. assert (E : forall b, km_pages m1 b = bput (km_pages (ps_mem s)) a d b) by (intros b; apply bput_twice).
  destruct (iso_write s l G np m1 H Hnp Htf) as [R1 R2].
  - done.
  - intros b. rewrite E. unfold bput. by case_decide.
  - intros b Hb. rewrite E. by apply bput_ne.
  - exists m1. split_and!; [done|done|done|intros b Hb; rewrite E; by apply bput_ne|].
    intros k Hk. rewrite E, bput_eq. by apply forked_trapframe.
Qed.

(** The space of an entry has evolved. *)
Lemma slot_evolved m l p T A m' l' T' A' :
  slot_ok m l p (Some (T, A)) -> evolved m T A l m' (p_pagetable p) T' A' l' -> (forall n, is_Some (A' !! n) -> n < npg (p_sz p)) ->
  slot_ok m' l' p (Some (T', A')).
Proof.
  intros [S1 S2 S3] E Hd. destruct S3 as (Hpt & Htf & HA & [Tp1 Tp2 Tp3] & Hsz & _). pose proof UPN_eq.
  split; [done|by intros (_ & ? & _)%S2|]. split_and!; try done; try lia; [apply E|].
  split; [rewrite (ev_top _ _ _ _ _ _ _ _ _ E) by lia..|]; [done|done|].
  intros n Hn. rewrite (ev_top _ _ _ _ _ _ _ _ _ E) by lia. by apply Tp3.
Qed.

Lemma spages_space p T A : p_trapframe p <> 0 -> spages p (Some (T, A)) = p_trapframe p :: tpages T ++ upages A.
Proof. intros H. unfold spages. by rewrite (proj2 (Z.eqb_neq _ _) H). Qed.

Lemma iso_apart s l G i j Ti Ai Tj Aj :
  iso s l G -> (i < 64)%nat -> (j < 64)%nat -> i <> j -> G i = Some (Ti, Ai) -> G j = Some (Tj, Aj) ->
  apart Ti Ai l Tj Aj /\ p_trapframe (procat s i) <> p_trapframe (procat s j) /\ (p_trapframe (procat s j) ∉ tpages Ti ++ upages Ai).
Proof.
  intros H Hi Hj Hne Ei Ej. pose proof (iso_two s l G i j H Hi Hj Hne) as Hn.
  pose proof (sl_space _ _ _ _ (is_slot _ _ _ H i Hi)) as Si. pose proof (sl_space _ _ _ _ (is_slot _ _ _ H j Hj)) as Sj.
  rewrite Ei in Si, Hn. rewrite Ej in Sj, Hn. rewrite !spages_space in Hn by (apply Si || apply Sj). split_and!.
  - unfold apart. eapply sublist_NoDup; [exact Hn|]. rewrite <-!app_assoc. apply sublist_app; [done|]. simpl. rewrite <-!app_assoc.
    apply sublist_cons, sublist_app; [done|]. apply sublist_app; [done|]. apply sublist_cons. done.
  - intros E. apply NoDup_app in Hn as (_ & Hd & _). apply (Hd (p_trapframe (procat s i))); [|rewrite E; by left].
    rewrite elem_of_app. right. by left.
  - intros Hin. apply NoDup_app in Hn as (_ & Hd & _). apply (Hd (p_trapframe (procat s j))); [|by left].
    rewrite elem_of_app. right. by right.
Qed.

(** The copy of the parent's memory in the new entry. *)
Lemma fork_copy s l G np T0 To Ao :
  iso s l G -> (np < 64)%nat -> (ps_cur s < 64)%nat -> np <> ps_cur s -> G np = Some (T0, ∅) -> G (ps_cur s) = Some (To, Ao) ->
  p_sz (procat s np) = 0 ->
  wp (uvmcopy (p_pagetable (procat s (ps_cur s))) (p_pagetable (procat s np)) (p_sz (procat s (ps_cur s)))) (fun r m' => exists l' T A,
    others_kept np s G m' /\
    (r = -1 /\ iso (s <| ps_mem := m' |>) l' (gput G np (Some (T, A))) \/
     r = 0 /\ iso (setproc np (fun q => q <| p_sz := p_sz (procat s (ps_cur s)) |>) (s <| ps_mem := m' |>)) l' (gput G np (Some (T, A))) /\
     forall n, match Ao !! n with
       | Some (pa, f) => exists pa', A !! n = Some (pa', f) /\ pa' <> pa /\ km_pages m' pa' = km_pages (ps_mem s) pa
       | None => A !! n = None
       end)) (ps_mem s).
Proof.
  intros H Hnp Hcur Hne En Eo Hsz. pose proof (is_slot _ _ _ H np Hnp) as Sn. pose proof (is_slot _ _ _ H _ Hcur) as So.
  rewrite En in Sn. rewrite Eo in So. destruct (sl_space _ _ _ _ So) as (_ & _ & HAo & _ & Hszo & Hdo).
  pose proof (sl_space _ _ _ _ Sn) as (Hptn & Htfn & HAn & _).
  destruct (iso_apart s l G np (ps_cur s) T0 ∅ To Ao H Hnp Hcur Hne En Eo) as (Hap & _).
  eapply wp_conseq; [apply (uvmcopy_spec _ _ _ To T0 Ao ∅ l); done|].
  intros r m' (T & A & l' & Ev & HAo' & Hap' & Hfr & Hres). exists l', T, A.
  assert (Hperm : l' ++ tpages T ++ upages A ≡ₚ l ++ tpages T0 ++ upages ∅) by apply Ev.
  assert (Hframe : forall a, a ∉ l ++ spages (procat s np) (G np) -> km_pages m' a = km_pages (ps_mem s) a).
  { intros a Ha. rewrite En, spages_space in Ha by done. rewrite elem_of_app, elem_of_cons, elem_of_app in Ha. apply Ev; tauto. }
  assert (Hpn : forall q, p_trapframe q = p_trapframe (procat s np) -> l' ++ spages q (Some (T, A)) ≡ₚ l ++ spages (procat s np) (G np)).
  { intros q Eq. rewrite En, !spages_space by congruence. rewrite Eq. by rewrite <-!Permutation_middle, Hperm. }
  pose proof (as_free _ _ _ _ _ HAo') as Hf'. split; [by apply (iso_others s l)|].
  destruct Hres as [(-> & Hin & Hout)|(-> & -> & _)]; [right|left].
  - destruct (iso_put s l G np (fun q => q <| p_sz := p_sz (procat s (ps_cur s)) |>) (Some (T, A)) m' l' H Hnp Hf') as (R1 & _).
    + by apply Hpn.
    + done.
    + pose proof (npg_range _ Hszo).
      assert (Hdn : forall n, is_Some (A !! n) -> n < npg (p_sz (procat s (ps_cur s)))).
      { intros n Hn. destruct (decide (0 <= n < npg (p_sz (procat s (ps_cur s))))) as [|Hb]; [lia|].
        rewrite Hout, lookup_empty in Hn by done. by destruct Hn. }
      apply (slot_evolved (ps_mem s) l _ T0 ∅); [|exact Ev|done].
      destruct Sn as [S1 S2 S3]. split; [done|by intros (_ & ? & _)%S2|]. destruct S3 as (? & ? & ? & ? & _).
      split_and!; try done; [apply Hszo|apply Hszo|]. intros n Hn. rewrite lookup_empty in Hn. by destruct Hn.
    + split_and!; [done|done|]. intros n. destruct (decide (0 <= n < npg (p_sz (procat s (ps_cur s))))) as [Hb|Hb]; [by apply Hin|].
      rewrite Hout, lookup_empty by done. destruct (Ao !! n) as [[pa f]|] eqn:E; [|done].
      destruct (as_dom _ _ _ _ _ HAo _ _ _ E). pose proof (Hdo n (mk_is_Some _ _ E)). lia.
  - destruct (iso_mem s l G np (Some (T, ∅)) m' l' H Hnp Hf') as [R1 _]; [by apply Hpn|done| |by split].
    apply (slot_evolved (ps_mem s) l _ T0 ∅); [done|done|]. intros n Hn. rewrite lookup_empty in Hn. by destruct Hn.
Qed.

Lemma gput_twice G i g g' j : gput (gput G i g) i g' j = gput G i g' j.
Proof. unfold gput. by case_decide. Qed.

(** The facts of a completed fork. *)
Lemma forked_intro s l G np s1 m2 s2 m3 To Ao T A l2 :
  iso s l G -> (np < 64)%nat -> (ps_cur s < 64)%nat -> G (ps_cur s) = Some (To, Ao) -> np <> ps_cur s ->
  p_state (procat s np) = UNUSED -> p_state (procat s1 np) = USED -> only np s s2 ->
  others_kept np s G (ps_mem s1) -> others_kept np s G m2 -> ps_mem s2 = m2 ->
  procat s2 np = procat s1 np <| p_sz := p_sz (procat s (ps_cur s)) |> ->
  slot_ok m2 l2 (procat s2 np) (Some (T, A)) -> NoDup (spages (procat s2 np) (Some (T, A))) -> 
  (forall n, match Ao !! n with
     | Some (pa, f) => exists pa', A !! n = Some (pa', f) /\ pa' <> pa /\ km_pages m2 pa' = km_pages (ps_mem s1) pa
     | None => A !! n = None
     end) ->
  (forall a, a <> p_trapframe (procat s2 np) -> km_pages m3 a = km_pages m2 a) ->
  (forall k, 0 <= k < 36 -> get64 (km_pages m3 (p_trapframe (procat s2 np))) (8 * k) =
        if decide (k = 14) then 0 else get64 (km_pages m2 (p_trapframe (procat s (ps_cur s)))) (8 * k)) ->
  others_kept np s G m3 -> forked s G Ao np (s2 <| ps_mem := m3 |>) A.
Proof.
  intros H Hnp Hcur Eo Hne Hun Hus O K1 K2 Em P2 S2 Hnd Hsp E3 Hregs K3. pose proof (not_eq_sym Hne) as Hne'.
  pose proof (sl_space _ _ _ _ (is_slot _ _ _ H _ Hcur)) as So. rewrite Eo in So. destruct So as (_ & Htfo & _).
  destruct (sl_space _ _ _ _ S2) as (_ & Htf & _). rewrite spages_space in Hnd by done. apply NoDup_cons in Hnd as [Hnd _].
  assert (Hin : forall a, a ∈ p_trapframe (procat s (ps_cur s)) :: tpages To ++ upages Ao -> a ∈ spages (procat s (ps_cur s)) (G (ps_cur s))).
  { intros a. by rewrite Eo, spages_space. }
  split; try done.
  - change (procat (s2 <| ps_mem := m3 |>) np) with (procat s2 np). by rewrite P2.
  - split; [|apply O|apply O]. intros j Hj. by apply O.
  - change (procat (s2 <| ps_mem := m3 |>) np) with (procat s2 np). by rewrite P2.
  - intros n. specialize (Hsp n). destruct (Ao !! n) as [[pa f]|] eqn:EA; [|done].
    destruct Hsp as (pa' & HA' & Hnpa & Epa). exists pa'. split_and!; [done|done|]. simpl. rewrite E3, Epa.
    + apply (K1 (ps_cur s)); [done|done|]. apply Hin. right. rewrite elem_of_app, !elem_of_upages. right. by exists n, f.
    + intros ->. apply Hnd. rewrite elem_of_app, !elem_of_upages. right. by exists n, f.
  - intros k Hk. change (procat (s2 <| ps_mem := m3 |>) np) with (procat s2 np). simpl. rewrite Hregs by done.
    rewrite (K2 (ps_cur s)); [done|done|done|]. apply Hin. by left.
Qed.

Lemma fork_mem_spec s l G To Ao :
  iso s l G -> (ps_cur s < 64)%nat -> G (ps_cur s) = Some (To, Ao) ->
  wp (fork_mem forkret) (fork_post s l G Ao) s.
Proof.
  intros H Hcur Eo. unfold fork_mem, myproc. wp_step. wp_step. wp_step. eapply wp_conseq; [by apply allocproc_spec|].
  intros [np|] s1 H1; [|by wp_steps]. destruct H1 as (T0 & l1 & H1 & Hnp & O1 & K1 & Hun & Hus & Hsz).
  assert (Hne : np <> ps_cur s).
  { intros ->. destruct (sl_unused _ _ _ _ (is_slot _ _ _ H _ Hcur) Hun) as (_ & Eg & _). congruence. }
  assert (Ec : ps_cur s1 = ps_cur s) by apply O1. assert (Epc : procat s1 (ps_cur s) = procat s (ps_cur s)) by (by apply O1).
  pose proof (fork_copy s1 l1 _ np T0 To Ao H1 Hnp) as W1. rewrite Ec in W1.
  rewrite gput_eq, gput_ne in W1 by done. specialize (W1 Hcur Hne eq_refl Eo Hsz).
  wp_step. wp_step. wp_step. apply wp_liftmem. eapply wp_conseq; [exact W1|]. clear W1.
  intros r m2 (l2 & T & A & K2 & Hres).
  pose proof (others_trans np s G s1 _ m2 O1 (fun j Hj => gput_ne G np _ j Hj) K1 K2) as K2'.
  destruct Hres as [[-> H2]|(-> & H2 & Hsp)].
  - simpl (-1 <? 0). cbn match. eapply wp_conseq; [eapply (alloc_undo s l G np _ l2 (Some (T, A))); try done|by intros ? ? [-> ?]].
    + eapply iso_ext; [exact H2|done|done|]. intros j _. by rewrite gput_twice.
    + split; [|apply O1|apply O1]. intros j Hj. by apply O1.
  - change (0 <? 0) with false. cbn match. wp_step. wp_step.
    set (s2 := setproc np (fun q => q <| p_sz := p_sz (procat s1 (ps_cur s)) |>) (s1 <| ps_mem := m2 |>)) in *.
    assert (Hl1 : (np < length (ps_proc s1))%nat) by (rewrite (is_len _ _ _ H1); lia).
    assert (P2 : procat s2 np = procat s1 np <| p_sz := p_sz (procat s1 (ps_cur s)) |>).
    { unfold s2. rewrite procat_setproc by done. by rewrite decide_True. }
    assert (O2 : only np s s2) by (eapply only_trans; [exact O1|by apply only_set]).
    pose proof (iso_apart s2 l2 _ np (ps_cur s) T A To Ao H2 Hnp Hcur Hne) as Hap. rewrite gput_eq, !gput_ne in Hap by done.
    destruct (Hap eq_refl Eo) as (Ha1 & Ha2 & Ha3). rewrite (on_proc _ _ _ O2 _ (not_eq_sym Hne)) in Ha2, Ha3.
    pose proof (is_slot _ _ _ H2 np Hnp) as S2. rewrite !gput_eq in S2. destruct (sl_space _ _ _ _ S2) as (_ & Htf & _).
    pose proof (fork_frame s2 l2 _ np (p_trapframe (procat s (ps_cur s))) H2 Hnp Htf (not_eq_sym Ha2)) as W2. rewrite P2 in W2.
    rewrite Epc. apply wp_bind_inv in W2. wp_step. eapply wp_conseq; [exact W2|]. clear W2. intros [] s3' W2. cbn beta in W2.
    wp_step. eapply wp_conseq; [exact W2|]. clear W2 s3'. intros [] s3 (m3 & -> & H3 & K3 & E3 & Hregs). wp_steps.
    exists T, A, l2. split; [eapply iso_ext; [exact H3|done|done|intros j _; by rewrite gput_twice]|].
    apply (forked_intro s l G np s1 m2 s2 m3 To Ao T A l2); try done.
    + by rewrite P2, Epc.
    + pose proof (iso_two s2 l2 _ np (ps_cur s) H2 Hnp Hcur Hne) as Hn. rewrite !gput_eq in Hn.
      apply NoDup_app in Hn as (Hn & _). by apply NoDup_app in Hn as (_ & _ & Hn).
    + by rewrite P2.
    + by rewrite P2.
    + eapply (others_trans np s G s2); [done| |exact K2'|exact K3]. intros j Hj. by rewrite !gput_ne.
Qed.

(** ** [growproc] *)
Lemma evolved_unmapped m root T A l m' n0 k l' :
  unmapped m root T A l m' n0 k l' -> 0 <= n0 -> n0 + k <= UPN ->
  l' ++ tpages T ++ upages (gone A n0 k) ≡ₚ l ++ tpages T ++ upages A /\ (forall n, UPN <= n -> leaf m' T n = leaf m T n) /\
  forall a, a ∉ l ++ tpages T ++ upages A -> km_pages m' a = km_pages m a.
Proof.
  intros [H1 H2 H3 H4] Hn Hk.
  assert (P : l' ++ tpages T ++ upages (gone A n0 k) ≡ₚ l ++ tpages T ++ upages A).
  { rewrite !(Permutation_app_comm (tpages T)), !app_assoc. by rewrite H2. }
  split_and!; [done|intros n Hr; apply H3; lia|]. intros a Ha. rewrite <-P in Ha. rewrite !elem_of_app in Ha. apply H4; tauto.
Qed.

(** An entry whose space is [T'] and [A'] afterwards. *)
Lemma iso_space s l G i T A m' l' T' A' f :
  iso s l G -> (i < 64)%nat -> G i = Some (T, A) ->
  p_state (f (procat s i)) = p_state (procat s i) -> p_trapframe (f (procat s i)) = p_trapframe (procat s i) ->
  p_pagetable (f (procat s i)) = p_pagetable (procat s i) ->
  as_ok m' (p_pagetable (procat s i)) T' A' l' ->
  l' ++ tpages T' ++ upages A' ≡ₚ l ++ tpages T ++ upages A ->
  (forall n, UPN <= n -> leaf m' T' n = leaf (ps_mem s) T n) ->
  (forall a, a ∉ l ++ tpages T ++ upages A -> km_pages m' a = km_pages (ps_mem s) a) ->
  0 <= p_sz (f (procat s i)) <= TRAPFRAME -> (forall n, is_Some (A' !! n) -> n < npg (p_sz (f (procat s i)))) ->
  let s' := setproc i f (s <| ps_mem := m' |>) in
  iso s' l' (gput G i (Some (T', A'))) /\ only i s s' /\ procat s' i = f (procat s i) /\ others_kept i s G m'.
Proof.
  intros H Hi Eg F1 F2 F3 HA P L E Hsz Hd. pose proof (is_slot _ _ _ H i Hi) as [S1 S2 S3]. rewrite Eg in S3.
  destruct S3 as (Hpt & Htf & HA0 & [Tp1 Tp2 Tp3] & _). pose proof UPN_eq.
  apply (iso_put s l); [done|done|by eapply as_free| | |].
  - rewrite Eg, !spages_space by congruence. rewrite F2. by rewrite <-!Permutation_middle, P.
  - intros a Ha. apply E. rewrite Eg, spages_space in Ha by done. rewrite elem_of_app, elem_of_cons in Ha. rewrite elem_of_app. tauto.
  - split; rewrite ?F1, ?F2, ?F3; [done|by intros (_ & ? & _)%S2; congruence|]. split_and!; try done; try lia.
    split; [by rewrite L by lia|by rewrite L by lia|]. intros n Hn. rewrite L by lia. by apply Tp3.
Qed.

(** The size [growproc] leaves: shrinking below zero does nothing. *)
Definition grown (sz n : Z) : Z := if sz + n <? 0 then sz else sz + n.

Lemma shrink_spec s l G T A n :
  iso s l G -> (ps_cur s < 64)%nat -> G (ps_cur s) = Some (T, A) ->
  let p := procat s (ps_cur s) in - 2 ^ 31 <= n <= 0 ->
  wp (if n <? 0 then
        let* sz := liftmem (uvmdealloc (p_pagetable p) (p_sz p) (u64 (p_sz p + n))) in
        modify (setproc (ps_cur s) (fun p => p <| p_sz := sz |>)) ;;; ret 0
      else modify (setproc (ps_cur s) (fun q => q <| p_sz := p_sz p |>)) ;;; ret 0) (fun r s' => exists l' T' A',
    iso s' l' (gput G (ps_cur s) (Some (T', A'))) /\ only (ps_cur s) s s' /\ others_kept (ps_cur s) s G (ps_mem s') /\
    (r = -1 /\ 0 < n /\ A' = A /\ procat s' (ps_cur s) = p \/
     r = 0 /\ procat s' (ps_cur s) = p <| p_sz := grown (p_sz p) n |> /\
      A' = gone A (npg (grown (p_sz p) n)) (npg (p_sz p) - npg (grown (p_sz p) n)))) s.
Proof.
  intros H Hcur Eg p Hn. pose proof (is_slot _ _ _ H _ Hcur) as S0. rewrite Eg in S0. fold p in S0.
  destruct (sl_space _ _ _ _ S0) as (Hpt & Htf & HA & Htop & Hsz & Hd). pose proof UPN_eq as HU. pose proof (npg_range _ Hsz) as Hr.
  assert (Hg : 0 <= grown (p_sz p) n <= p_sz p) by (unfold grown; destruct (Z.ltb_spec (p_sz p + n) 0); lia).
  assert (Hng : npg (grown (p_sz p) n) <= npg (p_sz p)) by (unfold npg; lia). assert (Hn0 : 0 <= npg (grown (p_sz p) n)) by (unfold npg; lia).
  (* what is left to show once the pages are unmapped *)
  assert (Hfin : forall m' l', unmapped (ps_mem s) (p_pagetable p) T A l m' (npg (grown (p_sz p) n)) (npg (p_sz p) - npg (grown (p_sz p) n)) l' ->
    wp (modify (setproc (ps_cur s) (fun q => q <| p_sz := grown (p_sz p) n |>)) ;;; ret 0) (fun r s' => exists l' T' A',
    iso s' l' (gput G (ps_cur s) (Some (T', A'))) /\ only (ps_cur s) s s' /\ others_kept (ps_cur s) s G (ps_mem s') /\
    (r = -1 /\ 0 < n /\ A' = A /\ procat s' (ps_cur s) = p \/
     r = 0 /\ procat s' (ps_cur s) = p <| p_sz := grown (p_sz p) n |> /\
      A' = gone A (npg (grown (p_sz p) n)) (npg (p_sz p) - npg (grown (p_sz p) n)))) (s <| ps_mem := m' |>)).
  { intros m' l' U. destruct (evolved_unmapped _ _ _ _ _ _ _ _ _ U) as (P & L & E); [lia|lia|]. wp_steps.
    destruct (iso_space s l G _ T A m' l' T (gone A (npg (grown (p_sz p) n)) (npg (p_sz p) - npg (grown (p_sz p) n)))
      (fun q => q <| p_sz := grown (p_sz p) n |>) H Hcur Eg) as (R1 & R2 & R3 & R4); try done.
    - apply U.
    - simpl. lia.
    - intros k Hk. simpl. rewrite lookup_gone in Hk. case_decide; [by destruct Hk|]. apply Hd in Hk. lia.
    - exists l', T, (gone A (npg (grown (p_sz p) n)) (npg (p_sz p) - npg (grown (p_sz p) n))). split_and!; try done. by right. }
  change TRAPFRAME with (2 ^ 38 - 8192) in Hsz. destruct (Z.ltb_spec n 0) as [Hneg|Hz].
  - wp_step. apply wp_liftmem.
    eapply wp_conseq; [apply (uvmdealloc_spec _ _ T A l); [done|apply u64_range|change TRAPFRAME with (2 ^ 38 - 8192); lia]|].
    intros r m' (l' & -> & U). unfold grown in *. destruct (Z.ltb_spec (p_sz p + n) 0) as [Hb|Hb].
    + replace (u64 (p_sz p + n)) with (p_sz p + n + 2 ^ 64) in * by (unfold u64; lia).
      rewrite Z.min_l by lia. apply (Hfin m' l'). rewrite Z.sub_diag. replace (Z.max 0 _) with 0 in U by (unfold npg; lia).
      destruct U as [U1 U2 U3 U4]. rewrite gone_nil in U1, U2. split; rewrite ?gone_nil; try done. intros k _. apply U3. lia.
    + rewrite u64_id in * by lia. rewrite Z.min_r by lia. apply (Hfin m' l'). rewrite Z.max_r in U by lia. exact U.
  - assert (n = 0) as -> by lia. assert (Eq : grown (p_sz p) 0 = p_sz p) by (unfold grown; rewrite Z.add_0_r; by destruct (p_sz p <? 0)).
    rewrite Eq in Hfin. specialize (Hfin (ps_mem s) l). rewrite Eq. destruct s. apply Hfin. rewrite Z.sub_diag. split; rewrite ?gone_nil; try done.
Qed.

Lemma growproc_spec s l G T A n :
  iso s l G -> (ps_cur s < 64)%nat -> G (ps_cur s) = Some (T, A) ->
  let p := procat s (ps_cur s) in
  - 2 ^ 31 <= n < 2 ^ 31 -> p_sz p + n <= TRAPFRAME ->
  wp (growproc n) (fun r s' => exists l' T' A',
    iso s' l' (gput G (ps_cur s) (Some (T', A'))) /\ only (ps_cur s) s s' /\ others_kept (ps_cur s) s G (ps_mem s') /\
    (r = -1 /\ 0 < n /\ A' = A /\ procat s' (ps_cur s) = p \/
     r = 0 /\ procat s' (ps_cur s) = p <| p_sz := grown (p_sz p) n |> /\
     (if 0 <? n then zeroed (ps_mem s') A A' (npg (p_sz p)) (npg (p_sz p + n)) (vflags (Z.lor (Z.lor PTE_R PTE_U) PTE_W))
      else A' = gone A (npg (grown (p_sz p) n)) (npg (p_sz p) - npg (grown (p_sz p) n))))) s.
Proof.
  intros H Hcur Eg p Hn Hmax. pose proof (is_slot _ _ _ H _ Hcur) as S0. rewrite Eg in S0. fold p in S0.
  destruct (sl_space _ _ _ _ S0) as (Hpt & Htf & HA & Htop & Hsz & Hd). pose proof UPN_eq as HU.
  change TRAPFRAME with (2 ^ 38 - 8192) in Hsz, Hmax.
  assert (Hdn : forall k, A !! k <> None -> k < npg (p_sz p)) by (intros k Hk; apply Hd; by apply not_eq_None_Some).
  unfold growproc, myproc. wp_step. wp_step. wp_step. wp_step. fold p.
  destruct (Z.ltb_spec 0 n) as [Hpos|Hneg].
  - wp_step. apply wp_liftmem. rewrite u64_id by lia.
    eapply wp_conseq; [apply (uvmalloc_spec _ _ T A l); [done|change TRAPFRAME with (2 ^ 38 - 8192); lia..|by vm_compute|]|].
    { intros k Hk. destruct (A !! k) eqn:E; [|done]. specialize (Hdn k). rewrite E in Hdn. pose proof (Hdn ltac:(done)). lia. }
    intros r m' Hr. rewrite (proj2 (Z.ltb_ge _ _)) in Hr by lia. destruct Hr as (T' & A' & l' & Ev & Hr).
    assert (Hfr : forall a, a ∉ l ++ tpages T ++ upages A -> km_pages m' a = km_pages (ps_mem s) a).
    { intros a Ha. rewrite !elem_of_app in Ha. apply Ev; tauto. }
    destruct Hr as [[-> Hz]|(-> & -> & _)].
    + rewrite (proj2 (Z.eqb_neq _ _)) by lia. wp_steps. exists l', T', A'.
      destruct (iso_space s l G _ T A m' l' T' A' (fun q => q <| p_sz := p_sz p + n |>) H Hcur Eg) as (R1 & R2 & R3 & R4); try done.
      * apply Ev.
      * apply Ev.
      * apply Ev.
      * change TRAPFRAME with (2 ^ 38 - 8192). simpl. lia.
      * intros k Hk. simpl. specialize (Hz k). destruct (decide (npg (p_sz p) <= k < npg (p_sz p + n))); [lia|].
        rewrite Hz in Hk. apply Hd in Hk. unfold npg in *. lia.
      * split_and!; try done. right. unfold grown. by rewrite (proj2 (Z.ltb_ge (p_sz p + n) 0)) by lia.
    + change (0 =? 0) with true. cbn match. wp_steps. exists l', T', A.
      destruct (iso_mem s l G (ps_cur s) (Some (T', A)) m' l' H Hcur) as (R1 & R2).
      * by eapply as_free, ev_ok.
      * fold p. rewrite Eg, !spages_space by done. by rewrite <-!Permutation_middle, (ev_pages _ _ _ _ _ _ _ _ _ Ev).
      * intros a Ha. apply Hfr. fold p in Ha. rewrite Eg, spages_space in Ha by done. rewrite elem_of_app, elem_of_cons in Ha. rewrite elem_of_app. tauto.
      * by eapply slot_evolved.
      * split_and!; try done. by left.
  - apply (shrink_spec s l G T A n); done || lia.
Qed.
End Iso.
