(* ===== verification/ProcOps.v ===== *)
(** What the operations on the process table of kernel/proc.c do to the entries: [wakeup], [reparent], [kkill] and the
    end of [kexit]. *)

From S2P Require Import CString Prelude Bytes Params Disk Riscv Kalloc Vm Proc.

Section Table.
Implicit Types s : pstate.

(** ** Loops over the table *)
Lemma procs_ext s s' :
  ps_mem s' = ps_mem s -> ps_proc s' = ps_proc s -> ps_initproc s' = ps_initproc s -> ps_nextpid s' = ps_nextpid s -> ps_cur s' = ps_cur s -> s' = s.
Proof. destruct s, s'. simpl. congruence. Qed.

(** The table after the first [k] entries have been updated by [f]. *)
Definition upto (f : nat -> proc -> proc) (k : Z) (l : list proc) : list proc :=
  imap (fun i p => if decide (Z.of_nat i < k) then f i p else p) l.

Lemma upto_0 f l : upto f 0 l = l.
Proof.
  apply list_eq. intros i. unfold upto. rewrite list_lookup_imap. destruct (l !! i); [|done]. simpl. by rewrite decide_False by lia.
Qed.

Lemma upto_all f k l : Z.of_nat (length l) <= k -> upto f k l = imap f l.
Proof.
  intros Hk. apply list_eq. intros i. unfold upto. rewrite !list_lookup_imap. destruct (l !! i) eqn:E; [|done]. simpl.
  apply lookup_lt_Some in E. by rewrite decide_True by lia.
Qed.

Lemma nth_upto f k l i : (i < length l)%nat -> nth i (upto f k l) proc0 = if decide (Z.of_nat i < k) then f i (nth i l proc0) else nth i l proc0.
Proof.
  intros Hi. rewrite nth_lookup. unfold upto. rewrite list_lookup_imap, (lookup_nth l i proc0) by done. done.
Qed.

Lemma nth_imap f l i : (i < length l)%nat -> nth i (imap f l) proc0 = f i (nth i l proc0).
Proof. intros Hi. rewrite nth_lookup, list_lookup_imap, (lookup_nth l i proc0) by done. done. Qed.

Lemma upto_step f k l : 0 <= k < Z.of_nat (length l) ->
  <[Z.to_nat k := f (Z.to_nat k) (nth (Z.to_nat k) (upto f k l) proc0)]> (upto f k l) = upto f (k + 1) l.
Proof.
  intros Hk. assert (Hl : (Z.to_nat k < length l)%nat) by lia. rewrite nth_upto, decide_False by lia. apply list_eq. intros i.
  destruct (decide (i = Z.to_nat k)) as [->|Hne].
  - rewrite list_lookup_insert_eq by (unfold upto; rewrite length_imap; lia). unfold upto. rewrite list_lookup_imap, (lookup_nth l _ proc0) by lia.
    simpl. by rewrite decide_True by lia.
  - rewrite list_lookup_insert_ne by done. unfold upto. rewrite !list_lookup_imap. destruct (l !! i); [|done]. simpl.
    repeat case_decide; done || lia.
Qed.

(** A loop whose rounds update the entries one by one. *)
Lemma wp_table (body : Z -> M pstate unit) f s :
  length (ps_proc s) = 64%nat ->
  (forall k l, 0 <= k < 64 -> length l = 64%nat ->
     wp (body k) (fun _ s' => s' = setproc (Z.to_nat k) (f (Z.to_nat k)) (s <| ps_proc := l |>)) (s <| ps_proc := l |>)) ->
  wp (each body 0 (Z.to_nat NPROC)) (fun _ s' => s' = s <| ps_proc := imap f (ps_proc s) |>) s.
Proof.
  intros Hlen Hb. apply (wp_each _ (fun k s' => s' = s <| ps_proc := upto f k (ps_proc s) |>)).
  - rewrite upto_0. by destruct s.
  - intros k s' Hk ->. change (Z.of_nat (Z.to_nat NPROC)) with 64 in Hk. eapply wp_conseq; [apply Hb; [lia|unfold upto; by rewrite length_imap]|].
    intros [] s' ->. unfold setproc, procat. simpl. rewrite upto_step by lia. done.
  - intros s' ->. rewrite upto_all; [done|]. by rewrite Hlen.
Qed.

(** ** [wakeup] *)
Definition woken (c : chan) (cur : nat) (i : nat) (p : proc) : proc := if decide (i = cur) then p else wake c p.

Lemma setproc_id i s f : (i < length (ps_proc s))%nat -> f (procat s i) = procat s i -> setproc i f s = s.
Proof.
  intros Hi E. apply procs_ext; try done. simpl. rewrite E. apply list_insert_id. by apply lookup_nth.
Qed.

Lemma wakeup_spec c s :
  length (ps_proc s) = 64%nat ->
  wp (wakeup c) (fun _ s' => s' = s <| ps_proc := imap (woken c (ps_cur s)) (ps_proc s) |>) s.
Proof.
  intros Hlen. unfold wakeup. apply wp_table; [done|]. intros k l Hk Hl. unfold myproc. wp_step. wp_step. cbn beta. simpl (ps_cur _).
  unfold woken. destruct (decide (Z.to_nat k = ps_cur s)) as [E|E].
  - wp_steps. symmetry. apply setproc_id; [simpl; lia|done].
  - by wp_steps.
Qed.

(** ** [reparent] *)
Definition has_child (i : nat) (l : list proc) : bool := existsb (fun p => bool_decide (p_parent p = Some i)) l.

Definition adopt (i ip : nat) (p : proc) : proc := if decide (p_parent p = Some i) then p <| p_parent := Some ip |> else p.

(** An entry after [reparent(i)] has handled the first [k], of which [b] says whether one was a child. *)
Definition adopted (i ip cur : nat) (k : Z) (b : bool) (j : nat) (p : proc) : proc :=
  let p1 := if decide (Z.of_nat j < k) then adopt i ip p else p in
  if b then woken (ChProc ip) cur j p1 else p1.

Lemma woken_parent c cur j p : p_parent (woken c cur j p) = p_parent p.
Proof. unfold woken, wake. destruct (decide (j = cur)); [done|]. by destruct (decide _). Qed.

Lemma woken_twice c cur j p : woken c cur j (woken c cur j p) = woken c cur j p.
Proof.
  unfold woken, wake. destruct (decide (j = cur)); [done|]. destruct (decide (p_state p = SLEEPING /\ p_chan p = Some c)); [|by rewrite decide_False].
  rewrite decide_False; [done|]. simpl. by intros [? _].
Qed.

Lemma woken_adopt c cur j p x : woken c cur j (woken c cur j p <| p_parent := x |>) = woken c cur j (p <| p_parent := x |>).
Proof.
  unfold woken, wake. destruct (decide (j = cur)); [done|]. destruct p as [st ch k xs pid par ks sz pt tf ctx fs cwd nm]. simpl.
  destruct (decide (st = SLEEPING /\ ch = Some c)) as [Hd|Hd]; simpl; [|by rewrite decide_False].
  destruct (decide (RUNNABLE = SLEEPING /\ ch = Some c)) as [[? _]|]; done.
Qed.

Lemma adopt_other i ip p : p_parent p <> Some i -> adopt i ip p = p.
Proof. intros H. unfold adopt. by rewrite decide_False. Qed.

Lemma adopted_parent i ip cur k b j p : p_parent (adopted i ip cur k b j p) = p_parent (if decide (Z.of_nat j < k) then adopt i ip p else p).
Proof. unfold adopted. destruct b; [apply woken_parent|done]. Qed.

Lemma has_child_take i l k : (k < length l)%nat -> has_child i (take (S k) l) = has_child i (take k l) || bool_decide (p_parent (nth k l proc0) = Some i).
Proof.
  intros Hk. unfold has_child. rewrite (take_S_r l k (nth k l proc0)) by (by apply lookup_nth). rewrite existsb_app. simpl. by rewrite orb_false_r.
Qed.

Lemma adopt_step i ip cur k b l :
  0 <= k < Z.of_nat (length l) -> p_parent (nth (Z.to_nat k) l proc0) = Some i ->
  imap (woken (ChProc ip) cur) (<[Z.to_nat k := nth (Z.to_nat k) (imap (adopted i ip cur k b) l) proc0 <| p_parent := Some ip |>]>
    (imap (adopted i ip cur k b) l)) = imap (adopted i ip cur (k + 1) true) l.
Proof.
  intros Hk Hc. apply list_eq. intros j. rewrite !list_lookup_imap. destruct (decide (j = Z.to_nat k)) as [->|Hne].
  - rewrite list_lookup_insert_eq by (rewrite length_imap; lia). rewrite nth_imap, (lookup_nth l _ proc0) by lia. simpl. f_equal.
    unfold adopted. rewrite decide_False, decide_True by lia. unfold adopt. rewrite decide_True by done.
    destruct b; [apply woken_adopt|done].
  - rewrite list_lookup_insert_ne by done. rewrite list_lookup_imap. destruct (l !! j) as [p|]; [|done]. simpl. f_equal. unfold adopted.
    assert ((Z.of_nat j < k + 1) <-> (Z.of_nat j < k)) as E by lia. rewrite (decide_ext _ _ _ _ E).
    destruct b; [apply woken_twice|done].
Qed.

Lemma reparent_spec i ip s :
  length (ps_proc s) = 64%nat -> ps_initproc s = Some ip -> i <> ip ->
  wp (reparent i) (fun _ s' => s' = s <| ps_proc := imap (adopted i ip (ps_cur s) 64 (has_child i (ps_proc s))) (ps_proc s) |>) s.
Proof.
  intros Hlen Hip Hne. unfold reparent.
  apply (wp_each _ (fun k s' => 0 <= k /\ s' = s <| ps_proc := imap (adopted i ip (ps_cur s) k (has_child i (take (Z.to_nat k) (ps_proc s)))) (ps_proc s) |>)).
  - split; [done|]. apply procs_ext; try done. simpl. apply list_eq. intros j. rewrite list_lookup_imap. destruct (ps_proc s !! j); [|done].
    simpl. unfold adopted. by rewrite decide_False by lia.
  - intros k s' Hk [_ ->]. change (Z.of_nat (Z.to_nat NPROC)) with 64 in Hk. set (l := ps_proc s) in *.
    set (b := has_child i (take (Z.to_nat k) l)).
    assert (Eb : has_child i (take (Z.to_nat (k + 1)) l) = b || bool_decide (p_parent (nth (Z.to_nat k) l proc0) = Some i)).
    { replace (Z.to_nat (k + 1)) with (S (Z.to_nat k)) by lia. apply has_child_take. lia. }
    assert (Epar : p_parent (nth (Z.to_nat k) (imap (adopted i ip (ps_cur s) k b) l) proc0) = p_parent (nth (Z.to_nat k) l proc0)).
    { rewrite nth_imap by lia. by rewrite adopted_parent, decide_False by lia. }
    wp_step. wp_step. unfold procat at 1. simpl (ps_proc _). simpl (ps_initproc _). rewrite Hip.
    destruct (decide _) as [Hc|Hc]; rewrite Epar in Hc.
    + rewrite bool_decide_true, orb_true_r in Eb by done. wp_step. wp_step. eapply wp_conseq; [apply wakeup_spec|].
      { simpl. by rewrite length_insert, length_imap. }
      intros [] s' ->. split; [lia|]. apply procs_ext; try done. simpl. rewrite Eb. apply adopt_step; [lia|done].
    + rewrite bool_decide_false, orb_false_r in Eb by done. wp_steps. split; [lia|]. apply procs_ext; try done. simpl. rewrite Eb.
      apply list_eq. intros j. rewrite !list_lookup_imap. destruct (l !! j) as [p|] eqn:Ej; [|done]. simpl. f_equal. unfold adopted.
      destruct (decide (j = Z.to_nat k)) as [->|]; [|by repeat case_decide; done || lia].
      rewrite decide_False, decide_True by lia. rewrite adopt_other; [done|]. by rewrite <-(nth_lookup_Some _ _ proc0 _ Ej).
  - intros s' [_ ->]. change (0 + Z.of_nat (Z.to_nat NPROC)) with 64. rewrite take_ge by (rewrite Hlen; lia). done.
Qed.

(** ** [kexit] *)

(** The entry of another process after process [i] has exited. *)
Definition bereaved (i ip par : nat) (kids : bool) (p : proc) : proc :=
  let p1 := adopt i ip p in
  if decide (p_state p = SLEEPING /\ (p_chan p = Some (ChProc par) \/ kids = true /\ p_chan p = Some (ChProc ip)))
  then p1 <| p_state := RUNNABLE |> else p1.

Lemma woken_bereaved i ip par kids cur j p :
  j <> cur -> Z.of_nat j < 64 -> woken (ChProc par) cur j (adopted i ip cur 64 kids j p) = bereaved i ip par kids p.
Proof.
  intros Hj H64. unfold woken, adopted, bereaved. rewrite decide_False, decide_True by done.
  assert (Es : p_state (adopt i ip p) = p_state p /\ p_chan (adopt i ip p) = p_chan p) by (unfold adopt; by case_decide).
  destruct Es as [Es Ec]. destruct kids; unfold woken, wake; rewrite ?decide_False by done; rewrite <-?Es, <-?Ec;
    generalize (adopt i ip p); intros q; destruct q as [st ch k xs pid pr ks sz pt tf ctx fs cwd nm]; simpl;
    repeat (destruct (decide _); simpl in * ); naive_solver.
Qed.

Definition exited (status : Z) (p : proc) : proc := p <| p_xstate := status |> <| p_state := ZOMBIE |>.

Definition after_exit (status : Z) (i ip par : nat) (kids : bool) (j : nat) (p : proc) : proc :=
  if decide (j = i) then exited status p else bereaved i ip par kids p.

Lemma exit_zombie_spec status s i ip par :
  length (ps_proc s) = 64%nat -> ps_initproc s = Some ip -> ps_cur s = i -> (i < 64)%nat -> i <> ip ->
  p_parent (procat s i) = Some par -> par <> i ->
  wp (exit_zombie status) (fun _ s' => s' = s <| ps_proc := imap (after_exit status i ip par (has_child i (ps_proc s))) (ps_proc s) |>) s.
Proof.
  intros Hlen Hip Hcur Hi Hne Hpar Hpi. unfold exit_zombie, myproc. wp_step. wp_step. rewrite Hcur. wp_step.
  eapply wp_conseq; [by apply (reparent_spec i ip)|]. intros [] s1 ->. wp_step. wp_step. rewrite Hcur.
  set (kids := has_child i (ps_proc s)).
  assert (Epar : p_parent (procat (s <| ps_proc := imap (adopted i ip i 64 kids) (ps_proc s) |>) i) = Some par).
  { unfold procat. simpl. rewrite nth_imap by lia. rewrite adopted_parent, decide_True by lia. rewrite adopt_other; [done|].
    unfold procat in Hpar. rewrite Hpar. congruence. }
  rewrite Epar. wp_step. eapply wp_conseq; [apply wakeup_spec; simpl; by rewrite length_imap|]. intros [] s2 ->. wp_steps.
  apply procs_ext; try done. simpl. rewrite Hcur. unfold procat. simpl. apply list_eq. intros j. rewrite list_lookup_imap.
  destruct (decide (j = i)) as [->|Hj].
  - rewrite list_lookup_insert_eq by (rewrite !length_imap; lia). rewrite (lookup_nth (ps_proc s) _ proc0) by lia. simpl.
    unfold after_exit. rewrite decide_True by done. f_equal. rewrite !nth_imap by (rewrite ?length_imap; lia). unfold woken. rewrite decide_True by done.
    unfold adopted. rewrite decide_True by lia. rewrite adopt_other by (unfold procat in Hpar; rewrite Hpar; congruence).
    destruct kids; [|done]. unfold woken. by rewrite decide_True.
  - rewrite list_lookup_insert_ne by done. rewrite !list_lookup_imap. destruct (ps_proc s !! j) as [p|] eqn:Ej; [|done]. simpl.
    unfold after_exit. rewrite decide_False by done. f_equal. apply woken_bereaved; [done|]. apply lookup_lt_Some in Ej. lia.
Qed.

(** ** [kkill] *)
Definition doomed (p : proc) : proc :=
  let q := p <| p_killed := 1 |> in if decide (p_state p = SLEEPING) then q <| p_state := RUNNABLE |> else q.

Lemma kkill_spec pid s :
  length (ps_proc s) = 64%nat ->
  wp (kkill pid) (fun r s' =>
    (r = -1 /\ s' = s /\ forall j, (j < 64)%nat -> p_pid (procat s j) <> pid) \/
    (r = 0 /\ exists i, (i < 64)%nat /\ p_pid (procat s i) = pid /\ (forall j, (j < i)%nat -> p_pid (procat s j) <> pid) /\ s' = setproc i doomed s)) s.
Proof.
  intros Hlen. unfold kkill. wp_step.
  apply (wp_floop _ (fun k s' => 0 <= k /\ s' = s /\ forall j, Z.of_nat j < k -> p_pid (procat s j) <> pid)
    (fun r s' => r = 0 /\ exists i, (i < 64)%nat /\ p_pid (procat s i) = pid /\ (forall j, (j < i)%nat -> p_pid (procat s j) <> pid) /\ s' = setproc i doomed s)).
  - split_and!; [done|done|]. intros j Hj. lia.
  - intros k s' Hk (_ & -> & Hbef). change (Z.of_nat (Z.to_nat NPROC)) with 64 in Hk. wp_step. wp_step. set (i := Z.to_nat k).
    destruct (Z.eqb_spec (p_pid (procat s i)) pid) as [E|E].
    + wp_step. wp_step. wp_step. wp_step.
      assert (Ep : procat (setproc i (fun p => p <| p_killed := 1 |>) s) i = procat s i <| p_killed := 1 |>).
      { unfold procat, setproc. simpl. apply nth_list_insert_eq. lia. }
      rewrite Ep. assert (Hfin : forall f, setproc i f (setproc i (fun p => p <| p_killed := 1 |>) s) = setproc i (fun p => f (p <| p_killed := 1 |>)) s).
      { intros f. unfold setproc, procat. simpl. rewrite nth_list_insert_eq by lia. by rewrite list_insert_insert_eq. }
      assert (Hpost : exists i0, (i0 < 64)%nat /\ p_pid (procat s i0) = pid /\ (forall j, (j < i0)%nat -> p_pid (procat s j) <> pid) /\ setproc i doomed s = setproc i0 doomed s).
      { exists i. split_and!; [lia|done| |done]. intros j Hj. apply Hbef. lia. }
      wp_step. simpl (p_state _). unfold doomed in Hpost at 1. destruct (decide (p_state (procat s i) = SLEEPING)) as [Hs|Hs].
      * wp_steps. split; [done|]. rewrite Hfin. unfold setproc at 1 in Hpost. rewrite decide_True in Hpost by done. exact Hpost.
      * wp_steps. split; [done|]. unfold setproc at 1 in Hpost. rewrite decide_False in Hpost by done. exact Hpost.
    + wp_steps. split_and!; [lia|done|]. intros j Hj. destruct (decide (j = i)) as [->|]; [done|]. apply Hbef. lia.
  - intros s' (_ & -> & Hb). wp_steps. left. split_and!; [done|done|]. intros j Hj. apply Hb. change (0 + Z.of_nat (Z.to_nat NPROC)) with 64. lia.
  - intros r s' [-> Hr]. wp_steps. by right.
Qed.

(** C32. An exiting process leaves a zombie and no orphans.  When a process other than the first one exits, the rest of [kexit]
    returns: its own entry keeps everything but the exit status and the state, which is
    [ZOMBIE]; its children, and only they, get the first process as their parent, so that no other entry names the
    exited process any more; its parent, if it sleeps in [wait], is woken, as is the first process
    there when it has been given a child; and nothing else changes in the table, in memory or elsewhere. *)
Theorem exit_correct status s ip par :
  length (ps_proc s) = 64%nat -> (ps_cur s < 64)%nat -> ps_initproc s = Some ip -> ps_cur s <> ip ->
  p_parent (procat s (ps_cur s)) = Some par -> par <> ps_cur s ->
  wp (exit_zombie status) (fun _ s' =>
    procat s' (ps_cur s) = procat s (ps_cur s) <| p_xstate := status |> <| p_state := ZOMBIE |> /\
    s' = s <| ps_proc := ps_proc s' |> /\
    forall j, (j < 64)%nat -> j <> ps_cur s ->
      let p := procat s j in
      let p' := procat s' j in
      p_parent p' <> Some (ps_cur s) /\
      p_parent p' = (if decide (p_parent p = Some (ps_cur s)) then Some ip else p_parent p) /\
      (p_state p = SLEEPING -> p_chan p = Some (ChProc par) -> p_state p' = RUNNABLE) /\
      (p_state p = SLEEPING -> p_chan p = Some (ChProc ip) -> has_child (ps_cur s) (ps_proc s) = true -> p_state p' = RUNNABLE) /\
      (p_state p' <> p_state p -> p_state p = SLEEPING /\ (p_chan p = Some (ChProc par) \/ p_chan p = Some (ChProc ip))) /\
      p' = p <| p_parent := p_parent p' |> <| p_state := p_state p' |>) s.
Proof.
  intros Hlen Hcur Hip Hne Hpar Hpne. eapply wp_conseq; [by apply (exit_zombie_spec status s (ps_cur s) ip par)|]. intros [] s' ->.
  set (i := ps_cur s) in *. set (b := has_child i (ps_proc s)).
  assert (E : forall j, (j < 64)%nat -> procat (s <| ps_proc := imap (after_exit status i ip par b) (ps_proc s) |>) j = after_exit status i ip par b j (procat s j)).
  { intros j Hj. unfold procat. simpl. apply nth_imap. lia. }
  split_and!; [rewrite E by done; unfold after_exit; by rewrite decide_True|done|]. intros j Hj Hji. cbv zeta. rewrite E by done.
  unfold after_exit. rewrite decide_False by done. generalize (procat s j). intros p. unfold bereaved, adopt.
  destruct p as [st ch k xs pid pr ks sz pt tf ctx fs cwd nm]. simpl.
  destruct (decide (pr = Some i)); destruct (decide (st = SLEEPING /\ (ch = Some (ChProc par) \/ b = true /\ ch = Some (ChProc ip)))); simpl; naive_solver.
Qed.
End Table.
