(* ===== verification/ProcIso.v ===== *)
(** Isolation as a theorem about runs: the memory operations of the processes, interleaved in any order, keep the
    processes' memory apart and never panic. *)

From S2P Require Import CString Prelude Bytes Params Disk Riscv Kalloc Vm VmPt VmUser VmCopy VmFree VmBytes Proc ProcMem ProcOps.

Section Runs.
Context `{IM : Image} {IO : ImageOk}.
Variable forkret : Z.
Variable W : list Z.
Implicit Types (s : pstate) (G : nat -> aspace).

Abbreviation iso := (iso W).

(** ** More operations on the invariant *)
Lemma iso_quiet s l G s' :
  iso s l G -> ps_mem s' = ps_mem s -> length (ps_proc s') = 64%nat ->
  (forall j, (j < 64)%nat -> keeps (procat s j) (procat s' j)) -> iso s' l G.
Proof.
  intros [H1 H2 H3 H4 H5] Em Hl K.
  assert (Es : slots s' G = slots s G).
  { apply list_eq. intros j. destruct (decide (j < 64)%nat) as [Hj|Hj].
    - rewrite !slots_lookup by done. f_equal. unfold spages. by destruct (K j Hj) as (-> & _).
    - rewrite !lookup_ge_None_2; [done|rewrite length_slots; lia..]. }
  split; [done|by rewrite Em|by rewrite Es|by rewrite Es|]. intros j Hj. rewrite Em. destruct (H5 j Hj) as [S1 S2 S3].
  destruct (K j Hj) as (K1 & K2 & K3 & K4). split; rewrite ?K1, ?K2, ?K3; auto.
Qed.

Lemma tops_top_ok m T tf : tops m T tf -> 0 <= tf < 2 ^ 55 -> top_ok m T.
Proof.
  intros [H1 H2 H3] Htf n Hn. destruct (decide (n = UPN)) as [->|]; [|destruct (decide (n = UPN + 1)) as [->|]].
  - rewrite H1, has_mkpte by (by vm_compute). by vm_compute.
  - rewrite H2, has_mkpte by (by vm_compute). by vm_compute.
  - rewrite H3 by lia. by vm_compute.
Qed.

Lemma slot_top_ok s l G i T A : iso s l G -> (i < 64)%nat -> G i = Some (T, A) -> top_ok (ps_mem s) T.
Proof.
  intros H Hi Eg. pose proof (is_slot _ _ _ _ H i Hi) as [S1 _ S3]. rewrite Eg in S3. destruct S3 as (_ & Htf & _ & Ht & _).
  eapply tops_top_ok; [exact Ht|]. pose proof (phys_pos _ (S1 Htf)). lia.
Qed.

(** The running process's space has changed as [copyout], [copyin] and [vmfault] change it. *)
Lemma iso_uchanged s l G i T A m' T' A' l' V :
  iso s l G -> (i < 64)%nat -> G i = Some (T, A) ->
  uchanged (p_sz (procat s i)) (ps_mem s) T A l m' (p_pagetable (procat s i)) T' A' l' V ->
  iso (s <| ps_mem := m' |>) l' (gput G i (Some (T', A'))) /\ others_kept i s G m'.
Proof.
  intros H Hi Eg U. pose proof (is_slot _ _ _ _ H i Hi) as S0. rewrite Eg in S0. destruct (sl_space _ _ _ _ S0) as (Hpt & Htf & HA & [Tp1 Tp2 Tp3] & Hsz & Hd).
  pose proof UPN_eq. destruct U as [U1 U2 U3 U4 U5 U6 U7].
  apply iso_mem with (l := l); [done|done|by eapply as_free| | |].
  - rewrite Eg, !spages_space by done. by rewrite <-!Permutation_middle, U3.
  - intros a Ha. apply U7. rewrite Eg, spages_space in Ha by done. rewrite elem_of_app, elem_of_cons in Ha. rewrite elem_of_app. tauto.
  - split; [apply S0|by intros (_ & ? & _)%(sl_unused _ _ _ _ S0)|]. split_and!; try done; try lia.
    + split; [rewrite U5 by lia; done|rewrite U5 by lia; done|]. intros n Hn. rewrite U5 by lia. by apply Tp3.
    + intros n [Hn|Hn]%U4; [by apply Hd|]. unfold npg. lia.
Qed.

(** ** [kwait] *)
Lemma copyout_slot s l G i T A va src :
  iso s l G -> (i < 64)%nat -> G i = Some (T, A) -> 0 <= va < 2 ^ 64 ->
  let p := procat s i in
  wp (liftmem (copyout (Vproc (p_sz p) (p_pagetable p)) (p_pagetable p) va src)) (fun r s' => exists m' l' T' A' k,
    s' = s <| ps_mem := m' |> /\ iso s' l' (gput G i (Some (T', A'))) /\ others_kept i s G m' /\
    (forall x, 0 <= x -> uview m' A' x = uput (uview (ps_mem s) A) va (take k src) x) /\ (r = 0 /\ k = length src \/ r = -1)) s.
Proof.
  intros H Hi Eg Hva p. pose proof (is_slot _ _ _ _ H i Hi) as S0. rewrite Eg in S0. destruct (sl_space _ _ _ _ S0) as (_ & _ & HA & _ & Hsz & _).
  apply wp_liftmem. unfold copyout. eapply wp_conseq; [apply (copyout_loop_spec _ _ _ _ T A l); [done|by eapply slot_top_ok|done|done|lia]|].
  intros r m' (T' & A' & l' & k & U & Hr). destruct (iso_uchanged s l G i T A m' T' A' l' _ H Hi Eg U) as [R1 R2].
  exists m', l', T', A', k. split_and!; try done; [apply U|]. destruct Hr as [?|(? & _)]; [by left|by right].
Qed.

Definition dead_child s (k : nat) : Prop := p_parent (procat s k) = Some (ps_cur s) /\ p_state (procat s k) = ZOMBIE.

(** The child [k] is reaped: its status is in the parent's memory at [addr] and its entry is free. *)
Record reaped s G (A : space) (addr : Z) (k : nat) s' (A' : space) : Prop := {
  rp_entry : procat s' k = freed_proc (procat s k);
  rp_others j : j <> k -> procat s' j = procat s j;
  rp_cur : ps_cur s' = ps_cur s;
  rp_view x : 0 <= x -> uview (ps_mem s') A' x =
    if addr =? 0 then uview (ps_mem s) A x else uput (uview (ps_mem s) A) addr (le_bytes 4 (p_xstate (procat s k))) x;
  rp_kept j a : (j < 64)%nat -> j <> k -> j <> ps_cur s -> a ∈ spages (procat s j) (G j) -> km_pages (ps_mem s') a = km_pages (ps_mem s) a }.

Definition scan_post s (l : list Z) G (A : space) (addr : Z) (v : Z) s' : Prop :=
  exists k l' G' T' A', (k < 64)%nat /\ dead_child s k /\ (forall j, (j < k)%nat -> ~ dead_child s j) /\
    iso s' l' G' /\ G' (ps_cur s) = Some (T', A') /\ (forall j, j <> k -> j <> ps_cur s -> G' j = G j) /\
    (v = -1 /\ addr <> 0 /\ G' k = G k /\ (exists m', s' = s <| ps_mem := m' |> /\ others_kept (ps_cur s) s G m') \/
     v = p_pid (procat s k) /\ G' k = None /\ reaped s G A addr k s' A').

(** The memory of the parent does not change when the child is freed. *)
Lemma uview_kept s l G i T A m' :
  iso s l G -> (i < 64)%nat -> G i = Some (T, A) -> (forall a, a ∈ spages (procat s i) (G i) -> km_pages m' a = km_pages (ps_mem s) a) ->
  forall x, uview m' A x = uview (ps_mem s) A x.
Proof.
  intros H Hi Eg E x. unfold uview. destruct (A !! (x / 4096)) as [[pa f]|] eqn:EA; [|done]. rewrite E; [done|].
  pose proof (sl_space _ _ _ _ (is_slot _ _ _ _ H i Hi)) as S. rewrite Eg in S |- *. rewrite spages_space by apply S. right. rewrite elem_of_app, !elem_of_upages.
  right. by exists (x / 4096), f.
Qed.

Lemma reap_spec s l G T A addr k :
  iso s l G -> (ps_cur s < 64)%nat -> G (ps_cur s) = Some (T, A) -> 0 <= addr < 2 ^ 64 -> (k < 64)%nat -> k <> ps_cur s ->
  dead_child s k -> (forall j, (j < k)%nat -> ~ dead_child s j) ->
  let p := procat s (ps_cur s) in
  wp (let* r := (if addr =? 0 then ret 0
                 else liftmem (copyout (Vproc (p_sz p) (p_pagetable p)) (p_pagetable p) addr (le_bytes 4 (p_xstate (procat s k))))) in
      if r <? 0 then ret (Some (-1)) else freeproc k ;;; ret (Some (p_pid (procat s k))))
    (fun r s' => match r with Some v => scan_post s l G A addr v s' | None => False end) s.
Proof.
  intros H Hcur Eg Ha Hk Hne Hd Hfirst p.
  assert (W1 : wp (if addr =? 0 then ret 0
                 else liftmem (copyout (Vproc (p_sz p) (p_pagetable p)) (p_pagetable p) addr (le_bytes 4 (p_xstate (procat s k)))))
    (fun r s1 => exists m1 l1 T1 A1 d, s1 = s <| ps_mem := m1 |> /\ iso s1 l1 (gput G (ps_cur s) (Some (T1, A1))) /\ others_kept (ps_cur s) s G m1 /\
      (forall x, 0 <= x -> uview m1 A1 x = uput (uview (ps_mem s) A) addr (take d (le_bytes 4 (p_xstate (procat s k)))) x) /\
      (r = 0 /\ d = (if addr =? 0 then 0%nat else 4%nat) \/ r = -1 /\ addr <> 0)) s).
  { destruct (Z.eqb_spec addr 0) as [->|Hne0].
    - wp_steps. exists (ps_mem s), l, T, A, 0%nat. split_and!; [by destruct s| |done| |by left].
      + eapply iso_ext; [exact H|done|done|]. intros j _. unfold gput. by case_decide; subst.
      + intros x _. symmetry. apply uput_nil.
    - eapply wp_conseq; [by apply (copyout_slot s l G (ps_cur s) T A)|]. intros r s1 (m1 & l1 & T1 & A1 & d & ? & ? & ? & ? & Hr).
      exists m1, l1, T1, A1, d. split_and!; try done. destruct Hr as [[-> ->]| ->]; [left|right]; done. }
  wp_step. eapply wp_conseq; [exact W1|]. clear W1. intros r s1 (m1 & l1 & T1 & A1 & d & -> & H1 & K1 & V1 & Hr).
  destruct Hr as [[-> Ed]|[-> Hne0]].
  2:{ change (-1 <? 0) with true. cbn match. wp_steps. exists k, l1, (gput G (ps_cur s) (Some (T1, A1))), T1, A1.
      split_and!; try done; [by apply gput_eq|intros; by apply gput_ne|]. left. split_and!; try done; [by apply gput_ne|by exists m1]. }
  change (0 <? 0) with false. cbn match. wp_step. eapply wp_conseq; [exact (freeproc_spec W _ l1 _ k H1 Hk)|].
  intros [] s2 (l2 & H2 & O2 & K2 & E2). wp_steps.
  exists k, l2, (gput (gput G (ps_cur s) (Some (T1, A1))) k None), T1, A1. split_and!; try done.
  - by rewrite gput_ne, gput_eq by done.
  - intros j Hj1 Hj2. by rewrite !gput_ne.
  - right. split_and!; [done|by rewrite gput_eq|]. split; [done|apply O2|apply O2| |].
    + intros x Hx. rewrite (uview_kept _ _ _ _ T1 A1 (ps_mem s2) H1 Hcur).
      * simpl. rewrite V1 by done. rewrite Ed. destruct (addr =? 0); [apply uput_nil|]. by rewrite take_ge by (by rewrite length_le_bytes).
      * apply gput_eq.
      * intros a Ha'. apply (K2 (ps_cur s)); done || by apply not_eq_sym.
    + intros j a Hj Hjk Hjc Ha'. rewrite (K2 j a); [by apply (K1 j)|done|done|]. by rewrite gput_ne.
Qed.

Lemma wait_scan_spec s l G T A addr :
  iso s l G -> (ps_cur s < 64)%nat -> G (ps_cur s) = Some (T, A) -> 0 <= addr < 2 ^ 64 -> p_state (procat s (ps_cur s)) <> ZOMBIE ->
  wp (wait_scan addr) (fun r s' =>
    match r with
    | inr b => s' = s /\ b = has_child (ps_cur s) (ps_proc s) /\ forall j, (j < 64)%nat -> ~ dead_child s j
    | inl v => scan_post s l G A addr v s'
    end) s.
Proof.
  intros H Hcur Eg Ha Hst. unfold wait_scan, myproc. wp_step. wp_step. wp_step.
  apply (wp_floop _ (fun k s' => 0 <= k /\ s' = s /\ forall j, Z.of_nat j < k -> ~ dead_child s j) (scan_post s l G A addr)).
  - split_and!; [done|done|]. intros j Hj. lia.
  - intros k s' Hk (_ & -> & Hbef). change (Z.of_nat (Z.to_nat NPROC)) with 64 in Hk. wp_step. wp_step.
    destruct (decide (p_parent (procat s (Z.to_nat k)) = Some (ps_cur s) /\ p_state (procat s (Z.to_nat k)) = ZOMBIE)) as [Hd|Hd].
    + eapply wp_conseq; [apply (reap_spec s l G T A addr (Z.to_nat k)); try done; [lia| |]|].
      * intros E. destruct Hd as [_ Hz]. congruence.
      * intros j Hj. apply Hbef. lia.
      * by intros [v|] s' Hs'.
    + wp_steps. split_and!; [lia|done|]. intros j Hj. destruct (decide (j = Z.to_nat k)) as [->|]; [done|]. apply Hbef. lia.
  - intros s' (_ & -> & Hb). wp_steps. split_and!; [done|done|]. intros j Hj. apply Hb. change (0 + Z.of_nat (Z.to_nat NPROC)) with 64. lia.
  - intros v s' Hv. by wp_steps.
Qed.

(** ** The operations of a run *)

(** What the kernel does for the running process, the switch to another one, and the start of the first.  A
    store and a load of user memory are what [copyout] and [copyin] do, for the process itself and for the kernel on its
    behalf. *)
Inductive pop :=
  | PUserinit | PSwitch (i : nat) | PFork | PGrow (n : Z) | PLazy (n : Z) | PStore (va : Z) (src : list Z) | PLoad (va len : Z)
  | PExit (status : Z) | PWait (addr : Z) | PKill (pid : Z) | PWakeup (c : chan).

Definition run_pop (op : pop) : M pstate unit :=
  let* s := get in
  let cur := ps_cur s in
  let p := procat s cur in
  match op with
  | PUserinit =>
      let* r := allocproc forkret in
      match r with
      | Some i => modify (fun s => s <| ps_initproc := Some i |>) ;;; modify (setproc i (fun p => p <| p_state := RUNNABLE |>))
      | None => ret tt
      end
  | PSwitch i =>
      modify (setproc cur (fun p => if decide (p_state p = RUNNING) then p <| p_state := RUNNABLE |> else p)) ;;;
      modify (setproc i (fun p => p <| p_state := RUNNING |>)) ;;;
      modify (fun s => s <| ps_cur := i |>)
  | PFork =>
      let* r := fork_mem forkret in
      match r with
      | Some np => modify (setproc np (fun p => p <| p_parent := Some cur |> <| p_state := RUNNABLE |>))
      | None => ret tt
      end
  | PGrow n => growproc n ;;; ret tt
  | PLazy n => modify (setproc cur (fun p => p <| p_sz := p_sz p + n |>))
  | PStore va src => liftmem (copyout (Vproc (p_sz p) (p_pagetable p)) (p_pagetable p) va src) ;;; ret tt
  | PLoad va len => liftmem (copyin (Vproc (p_sz p) (p_pagetable p)) (p_pagetable p) va len) ;;; ret tt
  | PExit status => exit_zombie status
  | PWait addr => kwait addr ;;; ret tt
  | PKill pid => kkill pid ;;; ret tt
  | PWakeup c => wakeup c
  end.

(** When an operation may happen. *)
Definition pop_ok s (op : pop) : Prop :=
  let p := procat s (ps_cur s) in
  match op with
  | PUserinit => True
  | PSwitch i => (i < 64)%nat /\ p_state (procat s i) = RUNNABLE
  | PFork | PKill _ | PWakeup _ => p_state p = RUNNING
  | PGrow n => p_state p = RUNNING /\ - 2 ^ 31 <= n < 2 ^ 31 /\ p_sz p + n <= TRAPFRAME
  | PLazy n => p_state p = RUNNING /\ 0 <= n < 2 ^ 31 /\ p_sz p + n <= TRAPFRAME
  | PStore va _ => p_state p = RUNNING /\ 0 <= va < 2 ^ 64
  | PLoad va len => p_state p = RUNNING /\ 0 <= va < 2 ^ 64 /\ 0 <= len
  | PExit _ => p_state p = RUNNING /\ exists ip par, ps_initproc s = Some ip /\ ps_cur s <> ip /\ p_parent p = Some par /\ par <> ps_cur s
  | PWait addr => p_state p = RUNNING /\ 0 <= addr < 2 ^ 64
  end.

(** A process that goes to sleep. *)
Definition asleep (c : chan) s : pstate := setproc (ps_cur s) (fun p => p <| p_chan := Some c |> <| p_state := SLEEPING |>) s.

Inductive pstep : pstate -> pstate -> Prop :=
  | pstep_ok s op s' : pop_ok s op -> run_pop op s = Ok tt s' -> pstep s s'
  | pstep_sleep s op c s' : pop_ok s op -> run_pop op s = Sleep c s' -> pstep s (asleep c s').

(** ** What every run keeps *)
Definition live (st : procstate) : Prop := st = SLEEPING \/ st = RUNNABLE \/ st = RUNNING.

Record good s (l : list Z) G : Prop := {
  gd_iso : iso s l G;
  gd_cur : (ps_cur s < 64)%nat;
  gd_live i : (i < 64)%nat -> live (p_state (procat s i)) -> is_Some (G i) }.

(** The processes other than the running one keep their memory. *)
Definition kept s G s' G' : Prop := forall j, (j < 64)%nat -> j <> ps_cur s -> is_Some (G j) -> p_pagetable (procat s' j) <> 0 ->
  G' j = G j /\ p_pagetable (procat s' j) = p_pagetable (procat s j) /\
  forall a, a ∈ spages (procat s j) (G j) -> km_pages (ps_mem s') a = km_pages (ps_mem s) a.

Definition goes s G s' : Prop := exists l' G', good s' l' G' /\ kept s G s' G'.

Lemma good_quiet s l G s' :
  good s l G -> ps_mem s' = ps_mem s -> length (ps_proc s') = 64%nat -> (ps_cur s' < 64)%nat ->
  (forall j, (j < 64)%nat -> keeps (procat s j) (procat s' j) /\ (live (p_state (procat s' j)) -> live (p_state (procat s j)))) -> goes s G s'.
Proof.
  intros [H1 H2 H3] Em Hl Hc K. exists l, G. split.
  - split; [eapply iso_quiet; [exact H1|done|done|]; intros j Hj; by apply K|done|]. intros i Hi Hv. apply H3; [done|]. by apply K.
  - intros j Hj Hne Hg Hpt. split_and!; [done| |by rewrite Em]. destruct (K j Hj) as [(_ & Ep & _) _]. done.
Qed.

(** The running process changes, and nobody else. *)
Lemma good_self s l G s' l' g' :
  good s l G -> iso s' l' (gput G (ps_cur s) (Some g')) -> only (ps_cur s) s s' -> others_kept (ps_cur s) s G (ps_mem s') -> goes s G s'.
Proof.
  intros [H1 H2 H3] H' O K. exists l', (gput G (ps_cur s) (Some g')). split.
  - split; [done|by rewrite (on_cur _ _ _ O)|]. intros i Hi Hv. destruct (decide (i = ps_cur s)) as [->|Hne]; [by rewrite gput_eq|].
    rewrite gput_ne by done. apply H3; [done|]. by rewrite <-(on_proc _ _ _ O).
  - intros j Hj Hne Hg _. split_and!; [by apply gput_ne|by rewrite (on_proc _ _ _ O)|]. intros a Ha. by apply (K j).
Qed.

Lemma live_space s l G (H : good s l G) : p_state (procat s (ps_cur s)) = RUNNING -> exists T A, G (ps_cur s) = Some (T, A).
Proof.
  intros Hr. destruct (gd_live _ _ _ H (ps_cur s) (gd_cur _ _ _ H)) as [[T A] E]; [right; by right|]. by exists T, A.
Qed.

(** A new entry [i] becomes runnable. *)
Lemma good_new s l G s1 l1 i f T A :
  good s l G -> (i < 64)%nat -> p_state (procat s i) = UNUSED -> iso s1 l1 (gput G i (Some (T, A))) -> only i s s1 -> others_kept i s G (ps_mem s1) ->
  keeps (procat s1 i) (f (procat s1 i)) ->
  goes s G (setproc i f s1).
Proof.
  intros [H1 H2 H3] Hi Hun H' O K Hf. pose proof (is_len _ _ _ _ H') as Hlen.
  assert (E : forall j, procat (setproc i f s1) j = if decide (j = i) then f (procat s1 i) else procat s1 j) by (intros j; apply procat_setproc; lia).
  exists l1, (gput G i (Some (T, A))). split.
  - split; [by apply iso_keep|simpl; rewrite (on_cur _ _ _ O); done|]. intros j Hj Hv. destruct (decide (j = i)) as [->|Hne]; [by rewrite gput_eq|].
    rewrite gput_ne by done. apply H3; [done|]. rewrite E, decide_False, (on_proc _ _ _ O) in Hv by done. done.
  - intros j Hj Hne Hg _. assert (Hji : j <> i).
    { intros ->. destruct (sl_unused _ _ _ _ (is_slot _ _ _ _ H1 i Hi) Hun) as (_ & E0 & _). rewrite E0 in Hg. by destruct Hg. }
    rewrite E, decide_False, (on_proc _ _ _ O) by done. split_and!; [by apply gput_ne|done|]. intros a Ha. simpl. by apply (K j).
Qed.

Lemma good_none s l G s' : good s l G -> alloc_post W s l G None s' -> goes s G s'.
Proof.
  intros [H1 H2 H3] (l' & H' & Hc & K & E & Hu). exists l', G. split.
  - split; [done|by rewrite Hc|]. intros i Hi Hv. apply H3; [done|]. destruct (decide (p_state (procat s i) = UNUSED)) as [Ei|Ei].
    + rewrite (Hu i Hi Ei) in Hv. by destruct Hv as [|[|]].
    + by rewrite <-E.
  - intros j Hj Hne [g Hg] _. split_and!; [done| |intros a Ha; by apply (K j)]. rewrite E; [done|done|].
    intros Ei. destruct (sl_unused _ _ _ _ (is_slot _ _ _ _ H1 j Hj) Ei) as (_ & E0 & _). congruence.
Qed.

(** ** Every operation returns or sleeps, and keeps the invariant *)
Definition outcome_ok {B} (m : M pstate B) (R : pstate -> Prop) s : Prop :=
  match m s with Ok _ s' => R s' | Sleep c s' => R (asleep c s') | _ => False end.

Lemma outcome_wp {B} (m : M pstate B) R s : wp m (fun _ => R) s -> outcome_ok m R s.
Proof. unfold wp, outcome_ok. by destruct (m s). Qed.

Lemma goes_ext s G s1 s2 : goes s G s1 -> ps_mem s2 = ps_mem s1 -> ps_proc s2 = ps_proc s1 -> ps_cur s2 = ps_cur s1 -> goes s G s2.
Proof.
  intros (l & G' & [H1 H2 H3] & K) Em Ep Ec. exists l, G'. split.
  - split; [by eapply iso_ext|by rewrite Ec|]. intros i. unfold procat. rewrite Ep. apply H3.
  - intros j. unfold procat. rewrite Ep, Em. apply K.
Qed.

Lemma only_mem i s m : only i s (s <| ps_mem := m |>).
Proof. by split. Qed.

Lemma userinit_good s l G : good s l G -> wp (run_pop PUserinit) (fun _ => goes s G) s.
Proof.
  intros H. unfold run_pop. wp_step. wp_step. wp_step. eapply wp_conseq; [apply (allocproc_spec W); apply H|].
  intros [i|] s1 H1; [|wp_steps; by eapply good_none]. destruct H1 as (T & l1 & H1 & Hi & O1 & K1 & Hun & Hus & Hsz). wp_steps.
  eapply goes_ext; [apply (good_new s l G s1 l1 i (fun p => p <| p_state := RUNNABLE |>) T ∅); done|done..].
Qed.

Lemma switch_good s l G i : good s l G -> pop_ok s (PSwitch i) -> wp (run_pop (PSwitch i)) (fun _ => goes s G) s.
Proof.
  intros H [Hi Hr]. unfold run_pop. wp_steps. pose proof (is_len _ _ _ _ (gd_iso _ _ _ H)) as Hlen. pose proof (gd_cur _ _ _ H) as Hc.
  set (f := fun p => if decide (p_state p = RUNNING) then p <| p_state := RUNNABLE |> else p).
  assert (Hf : forall p, keeps p (f p) /\ (live (p_state (f p)) -> live (p_state p))).
  { intros p. unfold f. destruct (decide (p_state p = RUNNING)) as [E|E]; [|by split]. split; [by split_and!|]. intros _. right. by right. }
  eapply good_quiet; [exact H|done|simpl; by rewrite !length_insert|done|]. intros j Hj.
  assert (E : procat (setproc i (fun p => p <| p_state := RUNNING |>) (setproc (ps_cur s) f s) <| ps_cur := i |>) j =
    if decide (j = i) then procat (setproc (ps_cur s) f s) i <| p_state := RUNNING |> else procat (setproc (ps_cur s) f s) j).
  { apply procat_setproc. simpl. rewrite length_insert. lia. }
  rewrite E. destruct (decide (j = i)) as [->|Hne]; rewrite procat_setproc by lia.
  - split; [|intros _; right; by left]. destruct (decide (i = ps_cur s)) as [->|]; [|by split_and!]. destruct (Hf (procat s (ps_cur s))) as [(? & ? & ? & ?) _]. by split_and!.
  - destruct (decide (j = ps_cur s)) as [->|]; [apply Hf|]. split; [by split_and!|done].
Qed.

Lemma fork_good s l G : good s l G -> pop_ok s PFork -> wp (run_pop PFork) (fun _ => goes s G) s.
Proof.
  intros H Hr. destruct (live_space s l G H Hr) as (T & A & Eg). unfold run_pop. wp_step. wp_step. wp_step.
  eapply wp_conseq; [apply (fork_mem_spec W forkret s l G T A); [apply H|apply H|done]|].
  intros [np|] s1 H1; [|wp_steps; by eapply good_none]. destruct H1 as (T1 & A1 & l1 & H1 & F). wp_steps.
  apply (good_new s l G s1 l1 np (fun p => p <| p_parent := Some (ps_cur s) |> <| p_state := RUNNABLE |>) T1 A1); try done; apply F.
Qed.

Lemma grow_good s l G n : good s l G -> pop_ok s (PGrow n) -> wp (run_pop (PGrow n)) (fun _ => goes s G) s.
Proof.
  intros H (Hr & Hn & Hmax). destruct (live_space s l G H Hr) as (T & A & Eg). unfold run_pop. wp_step. wp_step. wp_step.
  eapply wp_conseq; [apply (growproc_spec W s l G T A n); [apply H|apply H|done|done|done]|].
  intros r s1 (l1 & T1 & A1 & H1 & O1 & K1 & _). wp_steps. by eapply good_self.
Qed.

Lemma lazy_good s l G n : good s l G -> pop_ok s (PLazy n) -> wp (run_pop (PLazy n)) (fun _ => goes s G) s.
Proof.
  intros H (Hr & Hn & Hmax). destruct (live_space s l G H Hr) as (T & A & Eg). unfold run_pop. wp_steps.
  pose proof (gd_iso _ _ _ H) as HI. pose proof (is_slot _ _ _ _ HI _ (gd_cur _ _ _ H)) as S0. rewrite Eg in S0.
  destruct (sl_space _ _ _ _ S0) as (_ & _ & HA & _ & Hsz & Hd).
  destruct (iso_space W s l G (ps_cur s) T A (ps_mem s) l T A (fun p => p <| p_sz := p_sz p + n |>)) as (R1 & R2 & R3 & R4); try done.
  - apply H.
  - simpl. lia.
  - intros k Hk. simpl. apply Hd in Hk. unfold npg in *. lia.
  - eapply goes_ext; [by eapply good_self|done..].
Qed.

Lemma store_good s l G va src : good s l G -> pop_ok s (PStore va src) -> wp (run_pop (PStore va src)) (fun _ => goes s G) s.
Proof.
  intros H (Hr & Hva). destruct (live_space s l G H Hr) as (T & A & Eg). unfold run_pop. wp_step. wp_step. wp_step.
  eapply wp_conseq; [apply (copyout_slot s l G (ps_cur s) T A); [apply H|apply H|done|done]|].
  intros r s1 (m1 & l1 & T1 & A1 & k & -> & H1 & K1 & _). wp_steps. by eapply good_self; [..|apply only_mem|].
Qed.

Lemma load_good s l G va len : good s l G -> pop_ok s (PLoad va len) -> wp (run_pop (PLoad va len)) (fun _ => goes s G) s.
Proof.
  intros H (Hr & Hva & Hlen). destruct (live_space s l G H Hr) as (T & A & Eg). unfold run_pop. wp_step. wp_step. wp_step. apply wp_liftmem.
  pose proof (gd_iso _ _ _ H) as HI. pose proof (is_slot _ _ _ _ HI _ (gd_cur _ _ _ H)) as S0. rewrite Eg in S0.
  destruct (sl_space _ _ _ _ S0) as (_ & _ & HA & _ & Hsz & Hd). unfold copyin.
  eapply wp_conseq; [apply (copyin_loop_spec _ _ _ _ T A l); [done|exact (slot_top_ok s l G _ T A HI (gd_cur _ _ _ H) Eg)|done|done|lia]|].
  intros r m1 (T1 & A1 & l1 & k & U & _). wp_steps. destruct (iso_uchanged s l G (ps_cur s) T A m1 T1 A1 l1 _ HI (gd_cur _ _ _ H) Eg U) as [R1 R2].
  by eapply good_self; [..|apply only_mem|].
Qed.

Lemma after_exit_keeps status i ip par kids j p : (j = i -> p_state p = RUNNING) ->
  keeps p (after_exit status i ip par kids j p) /\ (live (p_state (after_exit status i ip par kids j p)) -> live (p_state p)).
Proof.
  intros Hr. unfold after_exit, exited, bereaved, adopt, keeps, live. destruct p as [st ch k xs pid pr ks sz pt tf ctx fs cwd nm]. simpl in *.
  repeat (destruct (decide _); simpl); naive_solver.
Qed.

Lemma exit_good s l G status : good s l G -> pop_ok s (PExit status) -> wp (run_pop (PExit status)) (fun _ => goes s G) s.
Proof.
  intros H (Hr & ip & par & Hip & Hne & Hpar & Hpne). unfold run_pop. wp_step. wp_step.
  pose proof (is_len _ _ _ _ (gd_iso _ _ _ H)) as Hlen. pose proof (gd_cur _ _ _ H) as Hc.
  eapply wp_conseq; [apply (exit_zombie_spec status s (ps_cur s) ip par); done|]. intros [] s1 ->.
  eapply good_quiet; [exact H|done|simpl; by rewrite length_imap|done|]. intros j Hj. unfold procat at 2 3. simpl. rewrite nth_imap by lia.
  apply after_exit_keeps. by intros ->.
Qed.

Lemma kill_good s l G pid : good s l G -> wp (run_pop (PKill pid)) (fun _ => goes s G) s.
Proof.
  intros H. unfold run_pop. wp_step. wp_step. wp_step. pose proof (is_len _ _ _ _ (gd_iso _ _ _ H)) as Hlen. pose proof (gd_cur _ _ _ H) as Hc.
  eapply wp_conseq; [by apply kkill_spec|]. intros r s1 [(_ & -> & _)|(_ & i & Hi & _ & _ & ->)]; wp_steps.
  - eapply good_quiet; [exact H|done..|]. intros j _. split; [by split_and!|done].
  - eapply good_quiet; [exact H|done|simpl; by rewrite length_insert|done|]. intros j Hj. rewrite procat_setproc by lia.
    destruct (decide (j = i)) as [->|]; [|by split]. unfold doomed, live. destruct (decide (p_state (procat s i) = SLEEPING)); by repeat split; auto.
Qed.

Lemma wakeup_good s l G c : good s l G -> wp (run_pop (PWakeup c)) (fun _ => goes s G) s.
Proof.
  intros H. unfold run_pop. wp_step. wp_step. pose proof (is_len _ _ _ _ (gd_iso _ _ _ H)) as Hlen. pose proof (gd_cur _ _ _ H) as Hc.
  eapply wp_conseq; [by apply wakeup_spec|]. intros [] s1 ->.
  eapply good_quiet; [exact H|done|simpl; by rewrite length_imap|done|]. intros j Hj. unfold procat at 2 3. simpl. rewrite nth_imap by lia.
  fold (procat s j). unfold woken, wake, live. destruct (decide (j = ps_cur s)); [by split|].
  destruct (decide (p_state (procat s j) = SLEEPING /\ p_chan (procat s j) = Some c)) as [[E _]|]; [|by split]. split; [by split_and!|auto].
Qed.

Lemma scan_good s l G T A addr v s' : good s l G -> G (ps_cur s) = Some (T, A) -> scan_post s l G A addr v s' -> goes s G s'.
Proof.
  intros [H1 H2 H3] Eg (k & l' & G' & T' & A' & Hk & Hd & _ & H' & Eg' & EG & Hv). exists l', G'.
  assert (Hcase : ps_cur s' = ps_cur s /\ (forall j, (j < 64)%nat -> live (p_state (procat s' j)) -> live (p_state (procat s j)) /\ (j <> ps_cur s -> G' j = G j)) /\ kept s G s' G').
  { destruct Hv as [(_ & _ & Ek & m' & -> & K)|(_ & Ek & [R1 R2 R3 R4 R5])].
    - assert (EG' : forall j, j <> ps_cur s -> G' j = G j) by (intros j Hj; destruct (decide (j = k)) as [->|]; [done|by apply EG]).
      split_and!; [done|intros j Hj Hl; split; [done|by apply EG']|].
      intros j Hj Hne _ _. split_and!; [by apply EG'|done|]. intros a Ha. by apply (K j).
    - split_and!; [done| |].
      + intros j Hj Hl. destruct (decide (j = k)) as [->|Hne]; [rewrite R1 in Hl; by destruct Hl as [|[|]]|].
        rewrite R2 in Hl by done. split; [done|]. intros Hj'. by apply EG.
      + intros j Hj Hne _ Hpt. destruct (decide (j = k)) as [->|Hnk]; [by rewrite R1 in Hpt|].
        split_and!; [by apply EG|by rewrite R2|]. intros a Ha. by apply (R5 j). }
  destruct Hcase as (Hc & Hl & K). split; [|done]. split; [done|by rewrite Hc|]. intros i Hi Hv'. destruct (Hl i Hi Hv') as [Hlv EGi].
  destruct (decide (i = ps_cur s)) as [->|Hne]; [by rewrite Eg'|]. rewrite EGi by done. by apply H3.
Qed.

Lemma wait_good s l G addr : good s l G -> pop_ok s (PWait addr) -> outcome_ok (run_pop (PWait addr)) (goes s G) s.
Proof.
  intros H (Hr & Ha). destruct (live_space s l G H Hr) as (T & A & Eg). pose proof (gd_iso _ _ _ H) as HI. pose proof (gd_cur _ _ _ H) as Hc.
  pose proof (wait_scan_spec s l G T A addr HI Hc Eg Ha) as Hs. rewrite Hr in Hs. specialize (Hs ltac:(done)). unfold wp in Hs.
  unfold outcome_ok, run_pop, bind, get. cbn. unfold kwait, bind, myproc, gets. destruct (wait_scan addr s) as [[v|b] s1| | | |] eqn:E; try done.
  - cbn. by eapply scan_good.
  - destruct Hs as (-> & -> & _). cbn. unfold killed, gets. cbn.
    destruct (negb _ || negb _); cbn.
    + eapply good_quiet; [exact H|done..|apply HI|done|]. intros j _. split; [by split_and!|done].
    + pose proof (is_len _ _ _ _ HI) as Hlen. eapply good_quiet; [exact H|done|simpl; by rewrite length_insert|done|].
      intros j Hj. unfold asleep. rewrite procat_setproc by lia. destruct (decide (j = ps_cur s)) as [->|]; [|by split; [split_and!|]].
      split; [split_and!; done|]. intros _. right. by right.
Qed.

Lemma pop_good s l G op : good s l G -> pop_ok s op -> outcome_ok (run_pop op) (goes s G) s.
Proof.
  intros H Hp. destruct op; [apply outcome_wp..|by eapply wait_good|apply outcome_wp|apply outcome_wp].
  - by eapply userinit_good.
  - by eapply switch_good.
  - by eapply fork_good.
  - by eapply grow_good.
  - by eapply lazy_good.
  - by eapply store_good.
  - by eapply load_good.
  - by eapply exit_good.
  - by eapply kill_good.
  - by eapply wakeup_good.
Qed.

Lemma pstep_good s l G s' : good s l G -> pstep s s' -> goes s G s'.
Proof.
  intros H Hs. destruct Hs as [s op s' Hp E|s op c s' Hp E]; pose proof (pop_good s l G op H Hp) as Ho; unfold outcome_ok in Ho; by rewrite E in Ho.
Qed.

(** ** What the processes see *)

(** The frame of page [n] of process [i], as the page-table walk finds it, and the byte at an address. *)
Definition uframe_of s (i : nat) (n : Z) : option Z :=
  let pt := p_pagetable (procat s i) in
  if pt =? 0 then None
  else match walkaddr pt (4096 * n) (ps_mem s) with Ok pa _ => if pa =? 0 then None else Some pa | _ => None end.

Definition ubyte s (i : nat) (va : Z) : option Z :=
  match uframe_of s i (va / 4096) with
  | Some pa => Some (nth (Z.to_nat (va mod 4096)) (km_pages (ps_mem s) pa) 0)
  | None => None
  end.

Lemma uframe_of_spec s l G i n : iso s l G -> (i < 64)%nat -> 0 <= n ->
  uframe_of s i n = match G i with Some (T, A) => if uframe A n =? 0 then None else Some (uframe A n) | None => None end.
Proof.
  intros H Hi Hn. pose proof (is_slot _ _ _ _ H i Hi) as S0. unfold uframe_of. destruct (G i) as [[T A]|] eqn:Eg.
  - destruct (sl_space _ _ _ _ S0) as (Hpt & _ & HA & _). rewrite (proj2 (Z.eqb_neq _ _) Hpt).
    pose proof (walkaddr_spec _ _ T A l n HA (slot_top_ok s l G i T A H Hi Eg) Hn) as Hw. unfold wp in Hw.
    destruct (walkaddr _ _ _) as [pa m'| | | |]; try done. by destruct Hw as [_ ->].
  - pose proof (sl_space _ _ _ _ S0) as ->. done.
Qed.

Lemma uframe_upages A n pa : uframe A n = pa -> pa <> 0 -> exists f, A !! n = Some (pa, f).
Proof. unfold uframe. destruct (A !! n) as [[q f]|]; [|congruence]. destruct (has f PTE_U); [intros ->; by exists f|congruence]. Qed.

Lemma frames_apart s l G i j n k pa : iso s l G -> (i < 64)%nat -> (j < 64)%nat -> 0 <= n -> 0 <= k ->
  uframe_of s i n = Some pa -> uframe_of s j k = Some pa -> i = j /\ n = k.
Proof.
  intros H Hi Hj Hn Hk Ei Ej. rewrite (uframe_of_spec s l G) in Ei, Ej by done.
  destruct (G i) as [[Ti Ai]|] eqn:EGi; [|done]. destruct (G j) as [[Tj Aj]|] eqn:EGj; [|done].
  destruct (Z.eqb_spec (uframe Ai n) 0) as [|Hi0]; [done|]. destruct (Z.eqb_spec (uframe Aj k) 0) as [|Hj0]; [done|].
  injection Ei as Ei. injection Ej as Ej. destruct (uframe_upages Ai n pa Ei) as [f Hf]; [congruence|]. destruct (uframe_upages Aj k pa Ej) as [g Hg]; [congruence|].
  destruct (decide (i = j)) as [->|Hne].
  - split; [done|]. rewrite EGi in EGj. injection EGj as <- <-. pose proof (is_slot _ _ _ _ H j Hj) as S0. rewrite EGi in S0.
    destruct (sl_space _ _ _ _ S0) as (_ & _ & HA & _). by eapply upage_inj.
  - exfalso. destruct (iso_apart W s l G i j Ti Ai Tj Aj H Hi Hj Hne EGi EGj) as (Hap & _). unfold apart in Hap.
    apply NoDup_app in Hap as (_ & Hd & _). apply (Hd pa); rewrite !elem_of_app, !elem_of_upages; [right; right; by exists n, f|right; by exists k, g].
Qed.

(** A process whose pages have not changed sees the same bytes. *)
Lemma same_bytes s l G s' l' G' j va : iso s l G -> iso s' l' G' -> (j < 64)%nat -> 0 <= va -> G' j = G j ->
  (forall a, a ∈ spages (procat s j) (G j) -> km_pages (ps_mem s') a = km_pages (ps_mem s) a) -> ubyte s' j va = ubyte s j va.
Proof.
  intros H H' Hj Hva EG Ea. pose proof (sl_space _ _ _ _ (is_slot _ _ _ _ H j Hj)) as S0.
  unfold ubyte. rewrite (uframe_of_spec s l G), (uframe_of_spec s' l' G'), EG by (done || lia).
  destruct (G j) as [[T A]|]; [|done]. destruct (Z.eqb_spec (uframe A (va / 4096)) 0) as [|H0]; [done|]. f_equal. f_equal. apply Ea.
  destruct (uframe_upages A _ _ eq_refl H0) as [f Hf]. rewrite spages_space by apply S0. right. rewrite elem_of_app, !elem_of_upages. right.
  by exists (va / 4096), f.
Qed.

Lemma kept_byte s l G s' l' G' j va : iso s l G -> iso s' l' G' -> kept s G s' G' -> (j < 64)%nat -> j <> ps_cur s -> 0 <= va ->
  p_pagetable (procat s j) <> 0 -> p_pagetable (procat s' j) <> 0 -> ubyte s' j va = ubyte s j va.
Proof.
  intros H H' K Hj Hne Hva Hp Hp'. pose proof (sl_space _ _ _ _ (is_slot _ _ _ _ H j Hj)) as S0.
  assert (Hg : is_Some (G j)) by (destruct (G j); [by eexists|congruence]). destruct (K j Hj Hne Hg Hp') as (EG & Ept & Ea).
  by apply (same_bytes s l G s' l' G').
Qed.

End Runs.

Section Isolation.
Context `{IM : Image} {IO : ImageOk}.
Variable forkret : Z.

(** The table as [procinit] leaves it, with some pages free. *)
Record booted (s : pstate) : Prop := {
  bt_procs : ps_proc s = imap (fun i p => p <| p_state := UNUSED |> <| p_kstack := KSTACK (Z.of_nat i) |>) (replicate 64 proc0);
  bt_cur : ps_cur s = 0%nat;
  bt_free : exists l, free_list (ps_mem s) l }.

Lemma booted_good s l : booted s -> free_list (ps_mem s) l -> good l s l (fun _ => None).
Proof.
  intros [B1 B2 _] Hf.
  assert (Hp : forall i, (i < 64)%nat -> procat s i = proc0 <| p_state := UNUSED |> <| p_kstack := KSTACK (Z.of_nat i) |>).
  { intros i Hi. unfold procat. rewrite B1. rewrite nth_lookup, list_lookup_imap, lookup_replicate_2 by done. done. }
  assert (Hl : length (ps_proc s) = 64%nat) by (by rewrite B1, length_imap, length_replicate).
  assert (Hs : concat (slots s (fun _ => None)) = []).
  { destruct (concat _) as [|a rest] eqn:Ec; [done|exfalso]. assert (Ha : a ∈ concat (slots s (fun _ => None))) by (rewrite Ec; by left).
    apply elem_of_concat in Ha as (i & x & Hx & Ha). pose proof (lookup_lt_Some _ _ _ Hx) as Hi.
    rewrite length_slots, Hl in Hi. rewrite slots_lookup in Hx by done. injection Hx as <-. rewrite Hp in Ha by done. by apply elem_of_nil in Ha. }
  split; [split|by rewrite B2; lia|].
  - done.
  - done.
  - rewrite Hs, app_nil_r. apply Hf.
  - by rewrite Hs, app_nil_r.
  - intros i Hi. rewrite Hp by done. by split.
  - intros i Hi Hv. rewrite Hp in Hv by done. by destruct Hv as [|[|]].
Qed.

Lemma run_good s0 s : booted s0 -> rtc (pstep forkret) s0 s -> exists W l G, good W s l G.
Proof.
  intros B Hr. destruct (bt_free _ B) as (l0 & Hf). assert (H : exists W l G, good W s0 l G) by (exists l0, l0, (fun _ => None); by apply booted_good).
  clear B Hf. induction Hr as [|s0 s1 s Hs _ IH]; [done|]. apply IH. destruct H as (W & l & G & H).
  destruct (pstep_good forkret W s0 l G s1 H Hs) as (l' & G' & H' & _). by exists W, l', G'.
Qed.

(** C9. Processes are isolated.  In every state the kernel reaches from boot by starting the first process,
    forking, growing and shrinking processes (eagerly and lazily, up to the trapframe), storing to and loading from user memory
    with the page faults that causes, exiting, waiting, killing, waking up and switching between processes, in any order:
    no physical page is mapped for the user by two processes or at two places of one; each of these operations
    returns or puts the process to sleep, so none panics; and what one process does leaves every byte
    that another one sees as it was. *)
Theorem processes_isolated s0 s :
  booted s0 -> rtc (pstep forkret) s0 s ->
  (forall i j n k pa, (i < 64)%nat -> (j < 64)%nat -> 0 <= n -> 0 <= k ->
     uframe_of s i n = Some pa -> uframe_of s j k = Some pa -> i = j /\ n = k) /\
  (forall op, pop_ok s op -> match run_pop forkret op s with Ok _ _ | Sleep _ _ => True | _ => False end) /\
  (forall s' j va, pstep forkret s s' -> (j < 64)%nat -> j <> ps_cur s -> 0 <= va ->
     p_pagetable (procat s j) <> 0 -> p_pagetable (procat s' j) <> 0 -> ubyte s' j va = ubyte s j va).
Proof.
  intros B Hr. destruct (run_good s0 s B Hr) as (W & l & G & H). pose proof (gd_iso _ _ _ _ H) as HI. split_and!.
  - intros i j n k pa Hi Hj Hn Hk Ei Ej. exact (frames_apart W s l G i j n k pa HI Hi Hj Hn Hk Ei Ej).
  - intros op Hp. pose proof (pop_good forkret W s l G op H Hp) as Ho. unfold outcome_ok in Ho. by destruct (run_pop forkret op s).
  - intros s' j va Hs Hj Hne Hva Hp Hp'. destruct (pstep_good forkret W s l G s' H Hs) as (l' & G' & H' & K).
    exact (kept_byte W s l G s' l' G' j va HI (gd_iso _ _ _ _ H') K Hj Hne Hva Hp Hp').
Qed.

(** ** Fork *)
Lemma forked_bytes W s l G s' l' T A To Ao np va :
  iso W s l G -> (ps_cur s < 64)%nat -> G (ps_cur s) = Some (To, Ao) -> iso W s' l' (gput G np (Some (T, A))) -> forked s G Ao np s' A -> 0 <= va ->
  ubyte s' np va = ubyte s (ps_cur s) va.
Proof.
  intros H Hc Eg H' F Hva. unfold ubyte. rewrite (uframe_of_spec W s' l' (gput G np (Some (T, A)))), (uframe_of_spec W s l G) by (done || apply F || lia).
  rewrite gput_eq, Eg. pose proof (fk_space _ _ _ _ _ _ F (va / 4096)) as Hs. unfold uframe.
  pose proof (is_slot _ _ _ _ H _ Hc) as S0. rewrite Eg in S0. destruct (sl_space _ _ _ _ S0) as (_ & _ & HA & _).
  pose proof (is_slot _ _ _ _ H' np (fk_np _ _ _ _ _ _ F)) as S1. rewrite gput_eq in S1. destruct (sl_space _ _ _ _ S1) as (_ & _ & HA' & _).
  destruct (Ao !! (va / 4096)) as [[pa f]|] eqn:E; [|by rewrite Hs]. destruct Hs as (pa' & E' & _ & Ep). rewrite E'. destruct (has f PTE_U); [|done].
  destruct (as_dom _ _ _ _ _ HA _ _ _ E) as (_ & Hp & _). destruct (as_dom _ _ _ _ _ HA' _ _ _ E') as (_ & Hp' & _).
  apply phys_pos in Hp, Hp'. rewrite !(proj2 (Z.eqb_neq _ _)) by lia. by rewrite Ep.
Qed.

(** C25. A forked child starts as a copy of its parent.  In every reachable state, for the running process,
    the part of [kfork] that makes the child returns.  When it succeeds the child's entry was unused, and
    the child sees at every address exactly what the parent sees, has the parent's size, and in
    its trapframe the parent's registers except [a0], which is zero; everybody else, parent included,
    keeps its entry and sees the same bytes.  When it fails every process in use keeps
    its entry and its memory. *)
Theorem fork_correct s0 s :
  booted s0 -> rtc (pstep forkret) s0 s -> p_state (procat s (ps_cur s)) = RUNNING ->
  wp (fork_mem forkret) (fun r s' =>
    (forall j va, (j < 64)%nat -> r <> Some j -> p_state (procat s j) <> UNUSED -> 0 <= va ->
       procat s' j = procat s j /\ ubyte s' j va = ubyte s j va) /\
    match r with
    | None => True
    | Some np => (np < 64)%nat /\ p_state (procat s np) = UNUSED /\ p_state (procat s' np) = USED /\
        p_sz (procat s' np) = p_sz (procat s (ps_cur s)) /\
        (forall va, 0 <= va -> ubyte s' np va = ubyte s (ps_cur s) va) /\
        (forall k, 0 <= k < 36 -> get64 (km_pages (ps_mem s') (p_trapframe (procat s' np))) (8 * k) =
           if decide (k = 14) then 0 else get64 (km_pages (ps_mem s) (p_trapframe (procat s (ps_cur s)))) (8 * k))
    end) s.
Proof.
  intros B Hr Hrun. destruct (run_good s0 s B Hr) as (W & l & G & H). pose proof (gd_iso _ _ _ _ H) as HI. pose proof (gd_cur _ _ _ _ H) as Hc.
  destruct (live_space W s l G H Hrun) as (To & Ao & Eg).
  eapply wp_conseq; [apply (fork_mem_spec W forkret s l G To Ao); done|]. intros [np|] s' Hs'.
  - destruct Hs' as (T & A & l' & H' & F). split.
    + intros j va Hj Hne Hst Hva. assert (Hjn : j <> np) by congruence. split; [by apply F|].
      apply (same_bytes W s l G s' l' (gput G np (Some (T, A)))); try done; [by apply gput_ne|]. intros a Ha. by apply (fk_others _ _ _ _ _ _ F j).
    + split_and!; try apply F. intros va Hva. by eapply (forked_bytes W s l G s' l' T A To Ao).
  - destruct Hs' as (l' & H' & _ & K & E & _). split; [|done]. intros j va Hj _ Hst Hva. split; [by apply E|].
    apply (same_bytes W s l G s' l' G); try done. intros a Ha. by apply (K j).
Qed.

(** ** Wait *)

Lemma ubyte_view W s l G i T A va b : iso W s l G -> (i < 64)%nat -> G i = Some (T, A) -> 0 <= va -> ubyte s i va = Some b -> uview (ps_mem s) A va = b.
Proof.
  intros H Hi Eg Hva. unfold ubyte. rewrite (uframe_of_spec W s l G), Eg by (done || lia). destruct (Z.eqb_spec (uframe A (va / 4096)) 0) as [|H0]; [done|].
  intros [= <-]. destruct (uframe_upages A _ _ eq_refl H0) as [f Hf]. unfold uview. by rewrite Hf.
Qed.

Lemma has_child_spec i l : has_child i l = true <-> exists k p, l !! k = Some p /\ p_parent p = Some i.
Proof.
  unfold has_child. rewrite existsb_exists. split.
  - intros (p & Hin & Hb). apply list_elem_of_In, list_elem_of_lookup in Hin as [k Hk]. exists k, p. by apply bool_decide_eq_true in Hb.
  - intros (k & p & Hk & Hp). exists p. split; [|by apply bool_decide_eq_true]. apply list_elem_of_In. by eapply list_elem_of_lookup_2.
Qed.

End Isolation.
