(* ===== verification/ProcDemo.v ===== *)
(** A run of two processes on the small machine: the first process starts, grows, stores two bytes and forks; the
    child exits and the parent waits for it.  The theorems on processes apply along it. *)

From S2P Require Import CString Prelude Bytes Params Disk Riscv Kalloc Vm VmPt VmUser VmCopy VmFree VmBytes VmDemo Proc ProcMem ProcOps ProcIso.

#[local] Existing Instance vimage.
#[local] Existing Instance vimage_ok.

Definition table0 : list proc := imap (fun i p => p <| p_state := UNUSED |> <| p_kstack := KSTACK (Z.of_nat i) |>) (replicate 64 proc0).
Definition d0 : pstate := Pstate vm_started table0 None 1 0.
Definition go (op : pop) (s : pstate) : pstate := final (run_pop 0x80001000 op) s.
Definition d1 : pstate := go PUserinit d0.
Definition d2 : pstate := go (PSwitch 0) d1.
Definition d3 : pstate := go (PGrow 4096) d2.
Definition d4 : pstate := go (PStore 16 [104; 105]) d3.
Definition d5 : pstate := go PFork d4.
Definition d6 : pstate := go (PSwitch 1) d5.
Definition d7 : pstate := go (PExit 7) d6.
Definition d8 : pstate := go (PSwitch 0) d7.

Lemma d0_booted : booted d0.
Proof. split; [reflexivity|reflexivity|]. destruct vm_started_ok as (l & Hl & _). exists l. exact Hl. Qed.

Lemma go_step s op : pop_ok s op -> result (run_pop 0x80001000 op) s = Some tt -> pstep 0x80001000 s (go op s).
Proof. intros Hp Hr. apply (pstep_ok _ s op); [exact Hp|]. apply result_final. exact Hr. Qed.

Lemma d4_reached : rtc (pstep 0x80001000) d0 d4.
Proof.
  apply (rtc_l _ _ d1); [apply go_step; [exact I|vm_compute; reflexivity]|].
  apply (rtc_l _ _ d2); [apply go_step; [split; [lia|vm_compute; reflexivity]|vm_compute; reflexivity]|].
  apply (rtc_l _ _ d3); [apply go_step; [split; [vm_compute; reflexivity|split; [lia|vm_compute; congruence]]|vm_compute; reflexivity]|].
  apply (rtc_l _ _ d4); [apply go_step; [split; [vm_compute; reflexivity|lia]|vm_compute; reflexivity]|].
  apply rtc_refl.
Qed.

Lemma d8_reached : rtc (pstep 0x80001000) d0 d8.
Proof.
  transitivity d4; [exact d4_reached|].
  apply (rtc_l _ _ d5); [apply go_step; [vm_compute; reflexivity|vm_compute; reflexivity]|].
  apply (rtc_l _ _ d6); [apply go_step; [split; [lia|vm_compute; reflexivity]|vm_compute; reflexivity]|].
  apply (rtc_l _ _ d7).
  { apply go_step; [|vm_compute; reflexivity]. split; [vm_compute; reflexivity|]. exists 0%nat, 0%nat.
    split; [vm_compute; reflexivity|split; [vm_compute; congruence|split; [vm_compute; reflexivity|vm_compute; congruence]]]. }
  apply (rtc_l _ _ d8); [apply go_step; [split; [lia|vm_compute; reflexivity]|vm_compute; reflexivity]|].
  apply rtc_refl.
Qed.

#[local] Opaque d1 d2 d3 d4 d5 d6 d7 d8.

Lemma processes_isolated_witness :
  uframe_of d8 0 0 = Some (PHYSTOP - 5 * PGSIZE) /\ uframe_of d8 1 0 <> Some (PHYSTOP - 5 * PGSIZE) /\
  match run_pop 0x80001000 PFork d8 with Ok _ _ | Sleep _ _ => True | _ => False end.
Proof.
  assert (E : uframe_of d8 0 0 = Some (PHYSTOP - 5 * PGSIZE)) by (vm_compute; reflexivity).
  destruct (processes_isolated 0x80001000 d0 d8 d0_booted d8_reached) as (H1 & H2 & _). split; [exact E|split].
  - intros E1. destruct (H1 0%nat 1%nat 0 0 (PHYSTOP - 5 * PGSIZE)) as [Heq _]; [lia|lia|lia|lia|exact E|exact E1|discriminate Heq].
  - apply H2. vm_compute. reflexivity.
Defined.

Lemma fork_correct_witness :
  wp (fork_mem 0x80001000) (fun r s' => r = Some 1%nat -> ubyte s' 1 16 = Some 104 /\ ubyte s' 1 17 = Some 105) d4.
Proof.
  assert (Hr : p_state (procat d4 (ps_cur d4)) = RUNNING) by (vm_compute; reflexivity).
  assert (E1 : ubyte d4 (ps_cur d4) 16 = Some 104) by (vm_compute; reflexivity).
  assert (E2 : ubyte d4 (ps_cur d4) 17 = Some 105) by (vm_compute; reflexivity).
  eapply wp_conseq; [exact (fork_correct 0x80001000 d0 d4 d0_booted d4_reached Hr)|].
  intros r s' [_ H] Er. rewrite Er in H. destruct H as (_ & _ & _ & _ & Hb & _). rewrite !Hb by lia. split; [exact E1|exact E2].
Defined.


Lemma exit_correct_witness :
  wp (exit_zombie 7) (fun _ s' => procat s' 1 = procat d6 1 <| p_xstate := 7 |> <| p_state := ZOMBIE |>) d6.
Proof.
  assert (Hc : ps_cur d6 = 1%nat) by (vm_compute; reflexivity).
  assert (H1 : length (ps_proc d6) = 64%nat) by (vm_compute; reflexivity).
  assert (H2 : ps_initproc d6 = Some 0%nat) by (vm_compute; reflexivity).
  assert (H3 : p_parent (procat d6 1) = Some 0%nat) by (vm_compute; reflexivity).
  pose proof (exit_correct 7 d6 0 0 H1) as H. rewrite Hc in H. specialize (H ltac:(lia) H2 ltac:(discriminate) H3 ltac:(discriminate)).
  eapply wp_conseq; [exact H|]. intros [] s' [E _]. exact E.
Defined.
