(* ===== verification/Sched.v ===== *)
(** Scheduling and sleeping, kernel/proc.c: [scheduler], [sched], [yield], [sleep], [wakeup], and the ends of [kexit] and [kkill],
    on several CPUs.

    A CPU is in the scheduler loop or runs the kernel code of a process; where it is in that code is its position, and one
    step takes it to the next acquisition or release of a lock.  [swtch] leaves the code of a process at a resume point
    saved in its context.  A spin lock is its owner (Spinlock.v shows that its accesses make it one).

    Sleeping is tied to a condition: process code enters the critical section of the condition's lock [c], sleeps on
    the channel of [c] while the condition is false, makes it true and wakes the sleepers, or makes it false. *)

From S2P Require Import Prelude Params Spinlock Proc.

(** A lock: [p->lock], or the lock of a condition. *)
Inductive lid := LProc (i : nat) | LCond (c : nat).
#[export] Instance lid_eq_dec : EqDecision lid.
Proof. solve_decision. Defined.

(** Where [swtch] returns to: in [sleep], in [yield], in [kexit], or at [forkret]. *)
Inductive resume := RSleep (c : nat) | RYield | RExit | RFork.

(** Positions in process code.  [PRun]: no lock is held.  [PCrit c]: the critical section of [c].  The others are inside the functions they name. *)
Inductive ppos :=
  | PRun | PCrit (c : nat)
  | PSleep1 (c : nat) | PSleep2 (c : nat) | PSleep3 (c : nat) | PSleep4 (c : nat) | PSleep5 (c : nat)
  | PYield2 | PYield3 | PForkret
  | PWake (c n : nat) | PWake2 (c n : nat)
  | PKill2 (j : nat)
  | PExit2 (c : nat) | PExit3.

(** Positions of a CPU: in [scheduler] before looking at process [j], with its lock, and after it has switched back; or in the code of a process. *)
Inductive cpos := SLoop (j : nat) | SLocked (j : nat) | SBack (j : nat) | SRun (i : nat) (p : ppos).

(** What process code does where it has a choice. *)
Inductive act := AEnter (c : nat) | AYield | AKill (j : nat) | ASleep | ASignal | AConsume | ALeave | AExit.

Record sst := Sst {
  ss_state : nat -> procstate;
  ss_chan : nat -> option nat;
  ss_ctx : nat -> option (resume * bool);
  ss_lock : lid -> option nat;
  ss_cpu : nat -> cpu;
  ss_cproc : nat -> option nat;
  ss_pos : nat -> cpos;
  ss_cond : nat -> bool }.
#[export] Instance eta_sst : Eta sst := fun s =>
  Sst (ss_state s) (ss_chan s) (ss_ctx s) (ss_lock s) (ss_cpu s) (ss_cproc s) (ss_pos s) (ss_cond s).

(** [f[i] = v] *)
Definition fset {K A} `{EqDecision K} (f : K -> A) (i : K) (v : A) : K -> A := fun j => if decide (j = i) then v else f j.
Lemma fset_eq {K A} `{EqDecision K} (f : K -> A) i v : fset f i v i = v.
Proof. unfold fset. by rewrite decide_True. Qed.
Lemma fset_ne {K A} `{EqDecision K} (f : K -> A) i v j : j <> i -> fset f i v j = f j.
Proof. intros. unfold fset. by rewrite decide_False. Qed.

Definition nproc : nat := Z.to_nat NPROC.

Section Sched.
Implicit Types (s : sst) (k i j n c : nat).

Definition setpos k (p : cpos) : M sst unit := modify (fun s => s <| ss_pos := fset (ss_pos s) k p |>).
Definition setstate i (st : procstate) : M sst unit := modify (fun s => s <| ss_state := fset (ss_state s) i st |>).
Definition setchan i (c : option nat) : M sst unit := modify (fun s => s <| ss_chan := fset (ss_chan s) i c |>).
Definition setcond c (b : bool) : M sst unit := modify (fun s => s <| ss_cond := fset (ss_cond s) c b |>).
Definition setcproc k (p : option nat) : M sst unit := modify (fun s => s <| ss_cproc := fset (ss_cproc s) k p |>).
Definition setlock (l : lid) (o : option nat) : M sst unit := modify (fun s => s <| ss_lock := fset (ss_lock s) l o |>).
Definition oncpu {A} k (m : M cpu A) : M sst A := zoom (fun s => ss_cpu s k) (fun x s => s <| ss_cpu := fset (ss_cpu s) k x |>) m.

(** [acquire] on CPU [k], kernel/spinlock.c:20-42; a CPU that finds the lock taken spins: it does not get to its next position. *)
Definition lacquire k (l : lid) : M sst unit :=
  let* s := get in
  if decide (ss_lock s l = Some k) then panic "acquire"
  else match ss_lock s l with
  | Some _ => sleepon (ChAddr 0)
  | None => oncpu k push_off ;;; setlock l (Some k)
  end.

(** [release] on CPU [k], kernel/spinlock.c:45-71 *)
Definition lrelease k (l : lid) : M sst unit :=
  let* s := get in
  if decide (ss_lock s l = Some k) then setlock l None ;;; oncpu k pop_off
  else panic "release".

(** kernel/proc.c:470-487, up to the switch. *)
Definition sched k i (r : resume) : M sst unit :=
  let* s := get in
  if negb (bool_decide (ss_lock s (LProc i) = Some k)) then panic "sched p->lock"
  else if negb (c_noff (ss_cpu s k) =? 1) then panic "sched locks"
  else if decide (ss_state s i = RUNNING) then panic "sched RUNNING"
  else if c_intr (ss_cpu s k) then panic "sched interruptible"
  else
    modify (fun s => s <| ss_ctx := fset (ss_ctx s) i (Some (r, c_intena (ss_cpu s k))) |>) ;;;
    setpos k (SBack i).

(** The code a process resumes with. *)
Definition resumed (r : resume) : option ppos :=
  match r with RSleep c => Some (PSleep4 c) | RYield => Some PYield3 | RFork => Some PForkret | RExit => None end.

(** The switch of the scheduler to process [i], and the end of [sched], kernel/proc.c:446 and 486: a process that has run
    before gets its [intena] back. *)
Definition swtch_to k i : M sst unit :=
  let* s := get in
  match ss_ctx s i with
  | None => undef "context"
  | Some (r, intena) =>
      match resumed r with
      | None => panic "zombie exit"
      | Some p =>
          modify (fun s => s <| ss_ctx := fset (ss_ctx s) i None |>) ;;;
          (match r with
           | RFork => ret tt
           | _ => oncpu k (modify (fun x => x <| c_intena := intena |>))
           end) ;;;
          setpos k (SRun i p)
      end
  end.

Definition next j : nat := if decide (S j < nproc)%nat then S j else 0.

(** The scheduler, kernel/proc.c:428-459: the next step of CPU [k]. *)
Definition sched_step k (p : cpos) : M sst unit :=
  match p with
  | SLoop j =>
      (if decide (j = 0%nat) then oncpu k (intr_on ;;; intr_off) else ret tt) ;;;
      lacquire k (LProc j) ;;; setpos k (SLocked j)
  | SLocked j =>
      let* s := get in
      if decide (ss_state s j = RUNNABLE) then
        setstate j RUNNING ;;; setcproc k (Some j) ;;; swtch_to k j
      else lrelease k (LProc j) ;;; setpos k (SLoop (next j))
  | SBack j => setcproc k None ;;; lrelease k (LProc j) ;;; setpos k (SLoop (next j))
  | SRun _ _ => ret tt
  end.

(** [sleep], kernel/proc.c:540-566, from the call to the return. *)
Definition sleep_step k i (p : ppos) : M sst unit :=
  match p with
  | PSleep1 c => lacquire k (LProc i) ;;; setpos k (SRun i (PSleep2 c))
  | PSleep2 c => lrelease k (LCond c) ;;; setpos k (SRun i (PSleep3 c))
  | PSleep3 c => setchan i (Some c) ;;; setstate i SLEEPING ;;; sched k i (RSleep c)
  | PSleep4 c => setchan i None ;;; lrelease k (LProc i) ;;; setpos k (SRun i (PSleep5 c))
  | PSleep5 c => lacquire k (LCond c) ;;; setpos k (SRun i (PCrit c))
  | _ => ret tt
  end.

(** [wakeup], kernel/proc.c:571-584: the loop at process [n]. *)
Definition wakeup_step k i (p : ppos) : M sst unit :=
  match p with
  | PWake c n =>
      if decide (n < nproc)%nat then
        if decide (n = i) then setpos k (SRun i (PWake c (S n)))
        else lacquire k (LProc n) ;;; setpos k (SRun i (PWake2 c n))
      else setpos k (SRun i (PCrit c))
  | PWake2 c n =>
      let* s := get in
      (if decide (ss_state s n = SLEEPING /\ ss_chan s n = Some c) then setstate n RUNNABLE else ret tt) ;;;
      lrelease k (LProc n) ;;; setpos k (SRun i (PWake c (S n)))
  | _ => ret tt
  end.

(** [yield], kernel/proc.c:491-498, after the lock is taken. *)
Definition yield_step k i (p : ppos) : M sst unit :=
  match p with
  | PYield2 => setstate i RUNNABLE ;;; sched k i RYield
  | PYield3 => lrelease k (LProc i) ;;; setpos k (SRun i PRun)
  | _ => ret tt
  end.

(** The end of [kexit], kernel/proc.c:352-362, with [wait_lock] held. *)
Definition exit_step k i (p : ppos) : M sst unit :=
  match p with
  | PExit2 c => setstate i ZOMBIE ;;; lrelease k (LCond c) ;;; setpos k (SRun i PExit3)
  | PExit3 => sched k i RExit
  | _ => ret tt
  end.

(** The visit of [kkill] to its victim, kernel/proc.c:595-605, after the lock is taken. *)
Definition kill_step k i j : M sst unit :=
  let* s := get in
  (if decide (ss_state s j = SLEEPING) then setstate j RUNNABLE else ret tt) ;;;
  lrelease k (LProc j) ;;; setpos k (SRun i PRun).

(** The next step of the code of process [i] on CPU [k]. *)
Definition proc_step k i (p : ppos) (a : act) : M sst unit :=
  match p with
  | PRun =>
      match a with
      | AEnter c => lacquire k (LCond c) ;;; setpos k (SRun i (PCrit c))
      | AYield => lacquire k (LProc i) ;;; setpos k (SRun i PYield2)
      | AKill j => if decide (j < nproc)%nat then lacquire k (LProc j) ;;; setpos k (SRun i (PKill2 j)) else ret tt
      | _ => ret tt
      end
  | PCrit c =>
      match a with
      | ASleep => let* s := get in if ss_cond s c then ret tt else setpos k (SRun i (PSleep1 c))
      | ASignal => setcond c true ;;; setpos k (SRun i (PWake c 0))
      | AConsume => setcond c false
      | ALeave => lrelease k (LCond c) ;;; setpos k (SRun i PRun)
      | AExit => lacquire k (LProc i) ;;; setpos k (SRun i (PExit2 c))
      | _ => ret tt
      end
  | PSleep1 _ | PSleep2 _ | PSleep3 _ | PSleep4 _ | PSleep5 _ => sleep_step k i p
  | PYield2 | PYield3 => yield_step k i p
  | PWake _ _ | PWake2 _ _ => wakeup_step k i p
  | PKill2 j => kill_step k i j
  | PExit2 _ | PExit3 => exit_step k i p
  | PForkret => lrelease k (LProc i) ;;; setpos k (SRun i PRun)
  end.

(** The next step of CPU [k]. *)
Definition cpu_step k (a : act) : M sst unit :=
  let* s := get in
  match ss_pos s k with
  | SRun i p => proc_step k i p a
  | p => sched_step k p
  end.
End Sched.

(** The CPUs take steps in any order. *)
Inductive sched_run (s0 : sst) : sst -> Prop :=
  | run_start : sched_run s0 s0
  | run_step s k a s' : sched_run s0 s -> cpu_step k a s = Ok tt s' -> sched_run s0 s'.

(** Every CPU enters its scheduler; the processes [ready] have been created by [fork] and wait for their first turn. *)
Definition sched0 (ready : list nat) : sst :=
  Sst (fun i => if decide (i ∈ ready) then RUNNABLE else UNUSED) (fun _ => None)
      (fun i => if decide (i ∈ ready) then Some (RFork, false) else None) (fun _ => None)
      (fun _ => Cpu 0 false false) (fun _ => None) (fun _ => SLoop 0) (fun _ => false).
