(* ===== verification/SchedSpec.v ===== *)
(** Scheduling is safe and loses no wakeup. *)

From S2P Require Import Prelude Safe Params Spinlock Proc Sched.

(** ** The invariant *)

(** The locks held at a position. *)
Definition holds (p : cpos) : list lid :=
  match p with
  | SLoop _ => []
  | SLocked j | SBack j => [LProc j]
  | SRun i p =>
      match p with
      | PRun | PSleep5 _ => []
      | PCrit c | PSleep1 c | PWake c _ => [LCond c]
      | PSleep2 c | PExit2 c => [LProc i; LCond c]
      | PSleep3 _ | PSleep4 _ | PYield2 | PYield3 | PForkret | PExit3 => [LProc i]
      | PWake2 c n => [LProc n; LCond c]
      | PKill2 j => [LProc j]
      end
  end.

Definition at_exit (p : ppos) : bool := match p with PExit3 => true | _ => false end.

(** A [wakeup] on the channel of [c] that has not passed process [n]. *)
Definition waker (p : ppos) : option (nat * nat) :=
  match p with PWake c n | PWake2 c n => Some (c, n) | _ => None end.

(** Process [i] sleeps on [c], or is past the point of no return. *)
Definition sleeping_on (s : sst) (i c : nat) : Prop :=
  (exists k, ss_pos s k = SRun i (PSleep3 c)) \/ (ss_state s i = SLEEPING /\ ss_chan s i = Some c).

Definition woken_soon (s : sst) (i c : nat) : Prop :=
  exists k j p n, ss_pos s k = SRun j p /\ waker p = Some (c, n) /\ (n <= i)%nat /\ j <> i.

Record sinv (s : sst) : Prop := {
  si_lock l k : ss_lock s l = Some k <-> l ∈ holds (ss_pos s k);
  si_cpu k : cpu_ok (ss_cpu s k) /\ c_noff (ss_cpu s k) = Z.of_nat (length (holds (ss_pos s k)));
  si_run k i p : ss_pos s k = SRun i p -> ss_ctx s i = None /\ ss_cproc s k = Some i /\ ss_state s i = (if at_exit p then ZOMBIE else RUNNING);
  si_one k k' i p p' : ss_pos s k = SRun i p -> ss_pos s k' = SRun i p' -> k = k';
  si_running i : ss_state s i = RUNNING -> exists k p, ss_pos s k = SRun i p;
  si_runnable i : ss_state s i = RUNNABLE -> exists r b, ss_ctx s i = Some (r, b) /\ r <> RExit;
  si_sleeping i : ss_state s i = SLEEPING -> exists c b, ss_ctx s i = Some (RSleep c, b) /\ ss_chan s i = Some c /\ (i < nproc)%nat;
  si_range k i p : ss_pos s k = SRun i p -> (i < nproc)%nat;
  si_loop k j : ss_pos s k = SLoop j \/ ss_pos s k = SLocked j -> (j < nproc)%nat;
  si_cond k i c : ss_pos s k = SRun i (PSleep1 c) \/ ss_pos s k = SRun i (PSleep2 c) -> ss_cond s c = false;
  si_wake i c : sleeping_on s i c -> ss_cond s c = false \/ woken_soon s i c }.

Section Inv.
Implicit Types (s : sst) (k i j n c : nat).

(** ** Locks *)

Lemma holds_le p : (length (holds p) <= 2)%nat.
Proof. destruct p as [| | |i []]; simpl; lia. Qed.

(** The effect of taking a lock and of giving it back on a CPU at position [p]. *)
Definition locked k (l : lid) (p : cpos) (x : cpu) s : sst :=
  s <| ss_cpu := fset (ss_cpu s) k x |> <| ss_lock := fset (ss_lock s) l (Some k) |> <| ss_pos := fset (ss_pos s) k p |>.
Definition unlocked k (l : lid) (p : cpos) (x : cpu) s : sst :=
  s <| ss_lock := fset (ss_lock s) l None |> <| ss_cpu := fset (ss_cpu s) k x |> <| ss_pos := fset (ss_pos s) k p |>.

(** The part of the invariant that is about locks and CPUs. *)
Definition core s : Prop :=
  (forall l k, ss_lock s l = Some k <-> l ∈ holds (ss_pos s k)) /\
  (forall k, cpu_ok (ss_cpu s k) /\ c_noff (ss_cpu s k) = Z.of_nat (length (holds (ss_pos s k)))).

Lemma sinv_core s : sinv s -> core s.
Proof. intros []. done. Qed.

Lemma core_acquire s k l p' (Q : sst -> Prop) :
  core s -> l ∉ holds (ss_pos s k) -> holds p' ≡ₚ l :: holds (ss_pos s k) ->
  (forall x, core (locked k l p' x s) -> Q (locked k l p' x s)) ->
  safe nofault (lacquire k l ;;; setpos k p') (fun _ => Q) s.
Proof.
  intros [Hl Hc] Hn Hp HQ. apply safe_bind. unfold lacquire. do 2 safe_step. rewrite decide_False by (by rewrite Hl).
  destruct (ss_lock s l) as [k'|] eqn:El; [by apply safe_sleep|]. apply safe_bind. unfold oncpu. apply safe_zoom, safe_wp.
  destruct (Hc k) as [Hok Hnoff]. eapply wp_conseq; [by apply push_off_spec|]. intros [] c' ->. unfold setlock, setpos. safe_steps.
  apply HQ. split; simpl.
  - intros l' k'. unfold fset. destruct (decide (l' = l)) as [->|], (decide (k' = k)) as [->|].
    + rewrite Hp. set_solver.
    + split; [congruence|]. rewrite <-Hl, El. done.
    + rewrite Hp, Hl. set_solver.
    + apply Hl.
  - intros k'. unfold fset. destruct (decide (k' = k)) as [->|]; [|apply Hc]. rewrite Hp. simpl. destruct Hok. split; [split; simpl; [lia|done]|lia].
Qed.

Lemma core_release s k l p' (Q : sst -> Prop) :
  core s -> holds (ss_pos s k) ≡ₚ l :: holds p' -> l ∉ holds p' ->
  (forall x, core (unlocked k l p' x s) -> Q (unlocked k l p' x s)) ->
  safe nofault (lrelease k l ;;; setpos k p') (fun _ => Q) s.
Proof.
  intros [Hl Hc] Hp Hn HQ. apply safe_bind. unfold lrelease. do 2 safe_step. rewrite decide_True by (rewrite Hl, Hp; set_solver).
  unfold setlock. do 2 safe_step. unfold oncpu. apply safe_zoom, safe_wp. simpl.
  destruct (Hc k) as [[Hok1 Hok2] Hnoff]. rewrite Hp in Hnoff. simpl in Hnoff.
  destruct (ss_cpu s k) as [noff intena intr] eqn:Ec. simpl in *. rewrite Hok2 in * by lia.
  eapply wp_conseq; [apply pop_off_spec; lia|]. intros [] c' ->. unfold setpos. safe_steps. apply HQ. split; simpl.
  - intros l' k'. unfold fset. destruct (decide (l' = l)) as [->|], (decide (k' = k)) as [->|].
    + done.
    + split; [done|]. rewrite <-Hl. intros E. assert (ss_lock s l = Some k) by (rewrite Hl, Hp; set_solver). congruence.
    + rewrite Hl, Hp. set_solver.
    + apply Hl.
  - intros k'. unfold fset. destruct (decide (k' = k)) as [->|]; [|apply Hc]. simpl. split; [|lia]. split; simpl; [lia|].
    intros. by rewrite (proj2 (Z.eqb_neq _ _)) by lia.
Qed.

(** ** Moves *)

Definition same_procs s s' : Prop :=
  ss_state s' = ss_state s /\ ss_chan s' = ss_chan s /\ ss_ctx s' = ss_ctx s /\ ss_cproc s' = ss_cproc s /\ ss_cond s' = ss_cond s.

(** The code of process [i] moves on. *)
Lemma sinv_move s s' k i p p' :
  sinv s -> ss_pos s k = SRun i p -> same_procs s s' -> ss_pos s' = fset (ss_pos s) k (SRun i p') -> core s' ->
  at_exit p' = at_exit p ->
  (forall c, p' = PSleep1 c \/ p' = PSleep2 c -> ss_cond s c = false) ->
  (forall c, p' = PSleep3 c -> p = PSleep2 c) ->
  (forall c n i', waker p = Some (c, n) -> (n <= i')%nat -> i' <> i -> sleeping_on s i' c -> exists n', waker p' = Some (c, n') /\ (n' <= i')%nat) ->
  sinv s'.
Proof.
  intros I Hk (E1 & E2 & E3 & E4 & E5) Ep [Hl Hc] Hx Hcond H3 Hw.
  assert (Hpos : forall k', ss_pos s' k' = if decide (k' = k) then SRun i p' else ss_pos s k') by (by rewrite Ep).
  assert (Hrun : forall k' i' q, ss_pos s' k' = SRun i' q -> exists q', ss_pos s k' = SRun i' q' /\ at_exit q' = at_exit q).
  { intros k' i' q. rewrite Hpos. case_decide; [|by eauto]. intros [= <- <-]. subst. by eauto. }
  split; try done.
  - intros k' i' q Hq. destruct (Hrun _ _ _ Hq) as (q' & Hq' & <-). rewrite E1, E3, E4. by apply I.
  - intros k1 k2 i' q1 q2 H1 H2. destruct (Hrun _ _ _ H1) as (q1' & ? & _), (Hrun _ _ _ H2) as (q2' & ? & _). by eapply (si_one s I).
  - intros i' Hi'. rewrite E1 in Hi'. destruct (si_running s I i' Hi') as (k' & q & Hq).
    destruct (decide (k' = k)) as [->|]; [exists k, p'|exists k', q]; rewrite Hpos; [rewrite decide_True by done; congruence|by rewrite decide_False].
  - intros i'. rewrite E1, E3. apply I.
  - intros i'. rewrite E1, E2, E3. apply I.
  - intros k' i' q Hq. destruct (Hrun _ _ _ Hq) as (q' & Hq' & _). by eapply (si_range s I).
  - intros k' j. rewrite Hpos. case_decide; [naive_solver|]. apply I.
  - intros k' i' c. rewrite Hpos, E5. case_decide; [|apply I]. intros [[= -> ->]|[= -> ->]]; apply Hcond; tauto.
  - intros i' c Hs. assert (Hs' : sleeping_on s i' c \/ p' = PSleep3 c).
    { destruct Hs as [[k' Hk']|Hs]; [|left; right; by rewrite <-E1, <-E2]. rewrite Hpos in Hk'. case_decide; [right; congruence|]. left. left. by exists k'. }
    rewrite E5. destruct Hs' as [Hs'|Hs']; [|left; apply (si_cond s I k i); right; by rewrite Hk, (H3 c)].
    destruct (si_wake s I i' c Hs') as [?|(k0 & j & q & n & Hq & Hn & Hle & Hne)]; [by left|]. right.
    destruct (decide (k0 = k)) as [->|].
    + assert (j = i /\ q = p) as [-> ->] by (split; congruence). destruct (Hw c n i' Hn Hle (not_eq_sym Hne) Hs') as (n' & ? & ?).
      exists k, i, p', n'. rewrite Hpos, decide_True by done. done.
    + exists k0, j, q, n. rewrite Hpos, decide_False by done. done.
Qed.

(** The scheduler moves on. *)
Lemma sinv_sched s s' k p' :
  sinv s -> (forall i p, ss_pos s k <> SRun i p) -> (forall i p, p' <> SRun i p) ->
  ss_state s' = ss_state s -> ss_chan s' = ss_chan s -> ss_ctx s' = ss_ctx s -> ss_cond s' = ss_cond s ->
  (forall k', k' <> k -> ss_cproc s' k' = ss_cproc s k') ->
  ss_pos s' = fset (ss_pos s) k p' -> core s' -> (forall j, p' = SLoop j \/ p' = SLocked j -> (j < nproc)%nat) -> sinv s'.
Proof.
  intros I Hk Hp' E1 E2 E3 E5 E4 Ep [Hl Hc] Hj.
  assert (Hpos : forall k' i' q, ss_pos s' k' = SRun i' q <-> ss_pos s k' = SRun i' q).
  { intros k' i' q. rewrite Ep. unfold fset. case_decide; [|done]. subst. split; intros H; [by destruct (Hp' i' q)|by destruct (Hk i' q)]. }
  assert (Hs : forall i c, sleeping_on s' i c <-> sleeping_on s i c).
  { intros i c. unfold sleeping_on. rewrite E1, E2. by setoid_rewrite Hpos. }
  assert (Hw : forall i c, woken_soon s' i c <-> woken_soon s i c) by (intros i c; unfold woken_soon; by setoid_rewrite Hpos).
  split; try done.
  - intros k' i q Hq. rewrite E1, E3. rewrite Hpos in Hq. rewrite E4; [by apply I|]. intros ->. by destruct (Hk i q).
  - intros k1 k2 i q1 q2. rewrite !Hpos. apply I.
  - intros i. rewrite E1. setoid_rewrite Hpos. apply I.
  - intros i. rewrite E1, E3. apply I.
  - intros i. rewrite E1, E2, E3. apply I.
  - intros k' i q. rewrite Hpos. apply I.
  - intros k' j. rewrite Ep. unfold fset. case_decide; [apply Hj|apply I].
  - intros k' i c. rewrite !Hpos, E5. apply I.
  - intros i c. rewrite Hs, Hw, E5. apply I.
Qed.

(** ** Changes to processes and conditions *)

Lemma sinv_wake s n : sinv s -> ss_state s n = SLEEPING -> sinv (s <| ss_state := fset (ss_state s) n RUNNABLE |>).
Proof.
  intros I Hn. destruct (si_sleeping s I n Hn) as (c0 & b0 & Hctx & _).
  split; try apply I; simpl.
  - intros k i p Hp. destruct (si_run s I k i p Hp) as (H1 & H2 & H3). rewrite fset_ne; [done|]. intros ->. congruence.
  - intros i. unfold fset. case_decide; [done|]. apply I.
  - intros i. unfold fset. case_decide; [|apply I]. subst. intros _. exists (RSleep c0), b0. done.
  - intros i. unfold fset. case_decide; [done|]. apply I.
  - intros i c Hs. apply I. destruct Hs as [?|[Hs ?]]; [by left|]. right. simpl in Hs. unfold fset in Hs. case_decide; done.
Qed.

Lemma sinv_chan s k i p : sinv s -> ss_pos s k = SRun i p -> sinv (s <| ss_chan := fset (ss_chan s) i None |>).
Proof.
  intros I Hk. destruct (si_run s I k i p Hk) as (_ & _ & Hst).
  assert (Hne : forall i', ss_state s i' = SLEEPING -> i' <> i) by (intros i' Hi' ->; destruct (at_exit p); congruence).
  split; try apply I; simpl.
  - intros i' Hi'. rewrite fset_ne by auto. by apply I.
  - intros i' c Hs. apply I. destruct Hs as [?|[Hs Hc]]; [by left|]. right. simpl in *. split; [done|]. rewrite fset_ne in Hc by auto. done.
Qed.

Lemma sinv_consume s c : sinv s -> sinv (s <| ss_cond := fset (ss_cond s) c false |>).
Proof.
  intros I. split; try apply I; simpl.
  - intros k i c' H. unfold fset. case_decide; [done|]. by eapply (si_cond s I).
  - intros i c' H. unfold fset. case_decide; [by left|]. by apply (si_wake s I).
Qed.

Lemma sinv_signal s k i c :
  sinv s -> ss_pos s k = SRun i (PCrit c) ->
  sinv (s <| ss_cond := fset (ss_cond s) c true |> <| ss_pos := fset (ss_pos s) k (SRun i (PWake c 0)) |>).
Proof.
  intros I Hk. destruct (si_run s I k i _ Hk) as (_ & _ & Hst). simpl in Hst.
  set (s0 := s <| ss_pos := fset (ss_pos s) k (SRun i (PWake c 0)) |>).
  assert (I0 : sinv s0).
  { apply (sinv_move s s0 k i (PCrit c) (PWake c 0) I Hk); try done; [|naive_solver]. split.
    - intros l k'. simpl. rewrite (si_lock s I). unfold fset. case_decide; [|done]. subst. by rewrite Hk.
    - intros k'. simpl. unfold fset. case_decide; [|apply I]. subst. pose proof (si_cpu s I k) as H. by rewrite Hk in H. }
  split; try apply I0; simpl.
  - intros k' i' c' Hq. unfold fset at 1. case_decide; [|by eapply (si_cond s0 I0)]. subst. exfalso.
    assert (Hl : ss_lock s (LCond c) = Some k) by (apply I; rewrite Hk; set_solver).
    revert Hq. unfold fset. case_decide; [naive_solver|]. intros Hq.
    assert (ss_lock s (LCond c) = Some k') by (apply I; destruct Hq as [-> | ->]; set_solver). congruence.
  - intros i' c' Hq. unfold fset at 1. case_decide; [|by apply (si_wake s0 I0)]. subst. right. exists k, i, (PWake c 0), 0%nat.
    simpl. rewrite fset_eq. split_and!; [done|done|lia|]. intros ->. destruct Hq as [[k' Hk']|[Hs _]]; [|simpl in Hs; congruence].
    simpl in Hk'. unfold fset in Hk'. case_decide; [done|]. by pose proof (si_one s I k k' i' _ _ Hk Hk').
Qed.

(** ** Switching *)

(** Process [i] leaves its CPU. *)
Lemma sinv_out s s' k i p st r b :
  sinv s -> ss_pos s k = SRun i p -> holds (SRun i p) = [LProc i] -> waker p = None ->
  (forall i', ss_state s' i' = if decide (i' = i) then st else ss_state s i') ->
  (forall i', i' <> i -> ss_chan s' i' = ss_chan s i') ->
  (forall i', ss_ctx s' i' = if decide (i' = i) then Some (r, b) else ss_ctx s i') ->
  ss_cproc s' = ss_cproc s -> ss_cond s' = ss_cond s -> ss_cpu s' = ss_cpu s -> ss_lock s' = ss_lock s ->
  ss_pos s' = fset (ss_pos s) k (SBack i) ->
  (st = RUNNABLE /\ r <> RExit) \/ (st = SLEEPING /\ exists c, p = PSleep3 c /\ r = RSleep c /\ ss_chan s' i = Some c) \/ st = ZOMBIE ->
  sinv s'.
Proof.
  intros I Hk Hh Hw E1 E2 E3 E4 E5 E6 E7 Ep Hst.
  assert (Hpos : forall k' i' q, ss_pos s' k' = SRun i' q -> k' <> k /\ ss_pos s k' = SRun i' q /\ i' <> i).
  { intros k' i' q. rewrite Ep. unfold fset. case_decide; [done|]. intros Hq. split_and!; [done|done|]. intros ->. by pose proof (si_one s I k k' i _ _ Hk Hq). }
  assert (Hpos' : forall k' i' q, i' <> i -> ss_pos s k' = SRun i' q -> ss_pos s' k' = SRun i' q).
  { intros k' i' q Hne Hq. rewrite Ep, fset_ne; [done|]. intros ->. congruence. }
  assert (Hnr : st <> RUNNING) by naive_solver.
  split.
  - intros l k'. rewrite E7, (si_lock s I), Ep. unfold fset. case_decide; [|done]. subst. by rewrite Hk, Hh.
  - intros k'. rewrite E6, Ep. unfold fset. case_decide; [|apply I]. subst. pose proof (si_cpu s I k) as H. by rewrite Hk, Hh in H.
  - intros k' i' q Hq. apply Hpos in Hq as (_ & Hq & Hne). rewrite E1, E3, E4, !decide_False by done. by apply I.
  - intros k1 k2 i' q1 q2 H1 H2. apply Hpos in H1 as (_ & H1 & _), H2 as (_ & H2 & _). by eapply (si_one s I).
  - intros i'. rewrite E1. case_decide; [done|]. intros Hr. destruct (si_running s I i' Hr) as (k' & q & Hq). exists k', q. by apply Hpos'.
  - intros i'. rewrite E1, E3. case_decide; [|apply I]. naive_solver.
  - intros i'. rewrite E1, E3. case_decide; [subst i'|rewrite E2 by done; apply I]. intros ->.
    destruct Hst as [[? _]|[(_ & c & -> & -> & Hc)|?]]; [done| |done]. exists c, b. split_and!; [done|done|]. by eapply (si_range s I).
  - intros k' i' q Hq. apply Hpos in Hq as (_ & Hq & _). by eapply (si_range s I).
  - intros k' j. rewrite Ep. unfold fset. case_decide; [naive_solver|apply I].
  - intros k' i' c Hq. rewrite E5. apply (si_cond s I k' i'). destruct Hq as [Hq|Hq]; apply Hpos in Hq as (_ & Hq & _); tauto.
  - intros i' c Hs. rewrite E5. assert (Hs' : sleeping_on s i' c).
    { destruct Hs as [[k' Hq]|[Hs Hc]]; [apply Hpos in Hq as (_ & Hq & _); left; by exists k'|]. rewrite E1 in Hs. case_decide.
      - subst. left. exists k. destruct Hst as [[? _]|[(_ & c' & -> & _ & Hc')|?]]; [done| |done]. rewrite Hk. congruence.
      - right. split; [done|]. by rewrite <-E2. }
    destruct (si_wake s I i' c Hs') as [?|(k0 & j & q & n & Hq & Hn & Hle & Hne)]; [by left|]. right. exists k0, j, q, n.
    split; [|done]. apply Hpos'; [|done]. intros ->. assert (k0 = k) as -> by (by eapply (si_one s I)). congruence.
Qed.

(** Process [j] gets a CPU. *)
Lemma sinv_in s s' k j r b p :
  sinv s -> ss_pos s k = SLocked j -> ss_state s j = RUNNABLE -> ss_ctx s j = Some (r, b) -> resumed r = Some p ->
  ss_state s' = fset (ss_state s) j RUNNING -> ss_chan s' = ss_chan s -> ss_ctx s' = fset (ss_ctx s) j None ->
  ss_cproc s' = fset (ss_cproc s) k (Some j) -> ss_cond s' = ss_cond s -> ss_lock s' = ss_lock s ->
  (forall k', c_noff (ss_cpu s' k') = c_noff (ss_cpu s k') /\ c_intr (ss_cpu s' k') = c_intr (ss_cpu s k')) ->
  ss_pos s' = fset (ss_pos s) k (SRun j p) -> sinv s'.
Proof.
  intros I Hk Hst Hctx Hr E1 E2 E3 E4 E5 E6 E7 Ep.
  assert (Hp : holds (SRun j p) = [LProc j] /\ at_exit p = false /\ waker p = None /\ (forall c, p <> PSleep1 c /\ p <> PSleep2 c /\ p <> PSleep3 c)).
  { destruct r; simplify_eq/=; done. }
  destruct Hp as (Hh & Hx & Hw & Hne).
  assert (Hno : forall k' q, ss_pos s k' <> SRun j q) by (intros k' q Hq; destruct (si_run s I k' j q Hq) as (H & _); congruence).
  assert (Hpos : forall k', ss_pos s' k' = if decide (k' = k) then SRun j p else ss_pos s k') by (by rewrite Ep).
  assert (Hkeep : forall k' i q, ss_pos s k' = SRun i q -> ss_pos s' k' = SRun i q).
  { intros k' i q Hq. rewrite Hpos. case_decide; [congruence|done]. }
  split.
  - intros l k'. rewrite E6, (si_lock s I), Hpos. case_decide; [|done]. subst. by rewrite Hk, Hh.
  - intros k'. destruct (si_cpu s I k') as [[H1 H2] H3], (E7 k') as [F1 F2]. unfold cpu_ok. rewrite F1, F2, Hpos.
    split; [done|]. case_decide; [|done]. subst. rewrite Hh, H3. by rewrite Hk.
  - intros k' i q. rewrite Hpos, E1, E3, E4. destruct (decide (k' = k)) as [->|Hkk].
    + intros [= <- <-]. rewrite !fset_eq. by rewrite Hx.
    + intros Hq. rewrite !fset_ne by (done || (intros ->; by destruct (Hno k' q))). by apply I.
  - intros k1 k2 i q1 q2. rewrite !Hpos. repeat case_decide; subst; try done; try (by apply I).
    + intros [= <- _] Hq. by destruct (Hno k2 q2).
    + intros Hq [= <- _]. by destruct (Hno k1 q1).
  - intros i. rewrite E1. unfold fset. case_decide; [intros _; subst; exists k, p; rewrite Hpos; by rewrite decide_True|].
    intros Hi. destruct (si_running s I i Hi) as (k' & q & Hq). exists k', q. by apply Hkeep.
  - intros i. rewrite E1, E3. unfold fset. case_decide; [done|]. apply I.
  - intros i. rewrite E1, E2, E3. unfold fset. case_decide; [done|]. apply I.
  - intros k' i q. rewrite Hpos. case_decide; [|apply I]. intros [= <- _]. apply (si_loop s I k). by right.
  - intros k' i. rewrite Hpos. case_decide; [naive_solver|apply I].
  - intros k' i c. rewrite Hpos, E5. case_decide; [|apply I]. intros [[= _ Hq]|[= _ Hq]]; naive_solver.
  - intros i c Hs. rewrite E5. assert (Hs' : sleeping_on s i c).
    { destruct Hs as [[k' Hq]|[Hs Hc]].
      - rewrite Hpos in Hq. case_decide; [naive_solver|]. left. by exists k'.
      - rewrite E1 in Hs. unfold fset in Hs. case_decide; [done|]. right. by rewrite <-E2. }
    destruct (si_wake s I i c Hs') as [?|(k0 & i0 & q & n & Hq & Hn)]; [by left|]. right. exists k0, i0, q, n. split; [by apply Hkeep|done].
Qed.

Lemma sched_run_safe s k i r (Q : sst -> Prop) :
  ss_lock s (LProc i) = Some k -> c_noff (ss_cpu s k) = 1 -> c_intr (ss_cpu s k) = false -> ss_state s i <> RUNNING ->
  Q (s <| ss_ctx := fset (ss_ctx s) i (Some (r, c_intena (ss_cpu s k))) |> <| ss_pos := fset (ss_pos s) k (SBack i) |>) ->
  safe nofault (sched k i r) (fun _ => Q) s.
Proof.
  intros Hl Hn Hi Hs HQ. unfold sched. do 2 safe_step. rewrite bool_decide_eq_true_2 by done. simpl. rewrite Hn, Hi. simpl.
  rewrite decide_False by done. unfold setpos. safe_steps. exact HQ.
Qed.

(** What [sched] checks holds at a position where only [p->lock] is held. *)
Lemma sinv_sched_checks s k i p :
  sinv s -> ss_pos s k = SRun i p -> holds (SRun i p) = [LProc i] ->
  ss_lock s (LProc i) = Some k /\ c_noff (ss_cpu s k) = 1 /\ c_intr (ss_cpu s k) = false.
Proof.
  intros I Hk Hh. destruct (si_cpu s I k) as [[H1 H2] H3]. rewrite Hk, Hh in H3. simpl in H3.
  split_and!; [apply I; rewrite Hk, Hh; set_solver|done|apply H2; lia].
Qed.

(** ** Every step *)

(** A process takes or gives back a lock and moves on. *)
Lemma step_acquire s k i p l p' :
  sinv s -> ss_pos s k = SRun i p -> l ∉ holds (SRun i p) -> holds (SRun i p') ≡ₚ l :: holds (SRun i p) ->
  at_exit p' = at_exit p -> (forall c, p' = PSleep1 c \/ p' = PSleep2 c -> ss_cond s c = false) -> (forall c, p' <> PSleep3 c) ->
  (forall c n, waker p = Some (c, n) -> waker p' = Some (c, n)) ->
  safe nofault (lacquire k l ;;; setpos k (SRun i p')) (fun _ => sinv) s.
Proof.
  intros I Hk Hn Hh Hx Hc H3 Hw. apply core_acquire; [by apply sinv_core|by rewrite Hk|by rewrite Hk|].
  intros x Hcore. eapply (sinv_move s _ k i p p' I Hk); [done|done|done|done|done| |].
  - intros c E. by destruct (H3 c).
  - intros c n i' E Hle _ _. exists n. split; [by apply Hw|done].
Qed.

Lemma step_release s k i p l p' :
  sinv s -> ss_pos s k = SRun i p -> holds (SRun i p) ≡ₚ l :: holds (SRun i p') -> l ∉ holds (SRun i p') ->
  at_exit p' = at_exit p -> (forall c, p' <> PSleep1 c /\ p' <> PSleep2 c) -> (forall c, p' = PSleep3 c -> p = PSleep2 c) ->
  (forall c n i', waker p = Some (c, n) -> (n <= i')%nat -> i' <> i -> sleeping_on s i' c -> exists n', waker p' = Some (c, n') /\ (n' <= i')%nat) ->
  safe nofault (lrelease k l ;;; setpos k (SRun i p')) (fun _ => sinv) s.
Proof.
  intros I Hk Hh Hn Hx Hc H3 Hw. apply core_release; [by apply sinv_core|by rewrite Hk|done|].
  intros x Hcore. eapply (sinv_move s _ k i p p' I Hk); [done|done|done|done| |done|done].
  intros c [E|E]; by destruct (Hc c).
Qed.

Lemma step_goto s k i p p' :
  sinv s -> ss_pos s k = SRun i p -> holds (SRun i p') = holds (SRun i p) ->
  at_exit p' = at_exit p -> (forall c, p' = PSleep1 c \/ p' = PSleep2 c -> ss_cond s c = false) -> (forall c, p' <> PSleep3 c) ->
  (forall c n i', waker p = Some (c, n) -> (n <= i')%nat -> i' <> i -> sleeping_on s i' c -> exists n', waker p' = Some (c, n') /\ (n' <= i')%nat) ->
  safe nofault (setpos k (SRun i p')) (fun _ => sinv) s.
Proof.
  intros I Hk Hh Hx Hc H3 Hw. unfold setpos. safe_step. eapply (sinv_move s _ k i p p' I Hk); [done|done| |done|done| |done].
  - split.
    + intros l k'. simpl. rewrite (si_lock s I). unfold fset. case_decide; [|done]. subst. by rewrite Hk, Hh.
    + intros k'. simpl. unfold fset. case_decide; [|apply I]. subst. pose proof (si_cpu s I k) as H. by rewrite Hk, <-Hh in H.
  - intros c E. by destruct (H3 c).
Qed.

Lemma sinv_cpu s k x :
  sinv s -> c_noff x = c_noff (ss_cpu s k) -> cpu_ok x -> sinv (s <| ss_cpu := fset (ss_cpu s) k x |>).
Proof.
  intros I Hn Hx. split; try apply I. intros k'. simpl. unfold fset. case_decide; [|apply I]. subst. rewrite Hn. split; [done|]. apply I.
Qed.

Lemma sinv_cproc s k v : sinv s -> (forall i q, ss_pos s k <> SRun i q) -> sinv (s <| ss_cproc := fset (ss_cproc s) k v |>).
Proof.
  intros I Hk. split; try apply I. intros k' i p Hp. simpl. rewrite fset_ne; [by apply I|]. intros ->. by destruct (Hk i p).
Qed.

Lemma next_lt j : (next j < nproc)%nat.
Proof. unfold next. case_decide; [done|]. vm_compute. lia. Qed.

Lemma step_back s k j :
  sinv s -> (forall i q, ss_pos s k <> SRun i q) -> holds (ss_pos s k) = [LProc j] ->
  safe nofault (lrelease k (LProc j) ;;; setpos k (SLoop (next j))) (fun _ => sinv) s.
Proof.
  intros I Hk Hh. apply core_release; [by apply sinv_core|by rewrite Hh|set_solver|]. intros x Hcore.
  apply (sinv_sched s _ k (SLoop (next j)) I Hk); try done. intros j' [[= <-]|?]; [apply next_lt|done].
Qed.

Lemma scheduler_safe s k p : sinv s -> ss_pos s k = p -> (forall i q, p <> SRun i q) -> safe nofault (sched_step k p) (fun _ => sinv) s.
Proof.
  intros I Hk Hp. destruct p as [j|j|j|i q]; simpl; [| | |by destruct (Hp i q)].
  - assert (Hacq : forall s, sinv s -> ss_pos s k = SLoop j -> safe nofault (lacquire k (LProc j) ;;; setpos k (SLocked j)) (fun _ => sinv) s).
    { clear s I Hk. intros s I Hk. apply core_acquire; [by apply sinv_core|rewrite Hk; set_solver|by rewrite Hk|]. intros x Hcore.
      apply (sinv_sched s _ k (SLocked j) I); try done; [by rewrite Hk|]. intros j' [?|[= <-]]; [done|]. apply (si_loop s I k). by left. }
    eapply (safe_seq _ _ _ (fun _ s' => sinv s' /\ ss_pos s' k = SLoop j)); [|intros [] s' [? ?]; by apply Hacq].
    case_decide; [|by safe_step]. unfold oncpu, intr_on, intr_off. safe_steps. split; [|done].
    apply sinv_cpu; [done|done|]. destruct (si_cpu s I k) as [[H0 _] _]. by split.
  - do 2 safe_step. case_decide as Hst; [|apply step_back; [done|by rewrite Hk|by rewrite Hk]].
    destruct (si_runnable s I j Hst) as (r & b & Hctx & Hr). unfold setstate, setcproc, swtch_to. safe_steps. simpl. rewrite Hctx.
    destruct (resumed r) as [p|] eqn:Hres; [|by destruct r]. unfold setpos, oncpu.
    destruct r; safe_steps; (eapply (sinv_in s _ k j _ b p I Hk Hst Hctx Hres); try done); intros k'; simpl; unfold fset; case_decide; by subst.
  - apply safe_bind. unfold setcproc. safe_step. apply step_back; [|simpl; by rewrite Hk|simpl; by rewrite Hk].
    apply sinv_cproc; [done|by rewrite Hk].
Qed.

Ltac side := first [done | set_solver | naive_solver].

Lemma sleep_safe s k i p :
  sinv s -> ss_pos s k = SRun i p -> safe nofault (sleep_step k i p) (fun _ => sinv) s.
Proof.
  intros I Hk. destruct p; simpl; try (by safe_step).
  - eapply step_acquire; [done|done|set_solver|done|done| |side|side].
    intros c' [?|[= <-]]; [done|]. apply (si_cond s I k i). by left.
  - eapply step_release; [done|done|by apply Permutation_swap|side|done|side|side|side].
  - destruct (sinv_sched_checks s k i _ I Hk eq_refl) as (Hl & Hn & Hi). unfold setchan, setstate. do 4 safe_step.
    apply sched_run_safe; simpl; [done|done|done|by rewrite fset_eq|].
    eapply (sinv_out s _ k i _ SLEEPING (RSleep c)); [done|done|done|done|by intros| |by intros|done..|]; simpl.
    + intros i' Hne. by rewrite fset_ne.
    + right. left. split; [done|]. exists c. by rewrite fset_eq.
  - apply safe_bind. unfold setchan. safe_step. eapply (step_release _ k i (PSleep4 c)); [by apply (sinv_chan s k i (PSleep4 c))|done|done|side|done|side|side|side].
  - eapply step_acquire; [done|done|set_solver|done|done|side|side|side].
Qed.

Lemma wakeup_safe s k i p :
  sinv s -> ss_pos s k = SRun i p -> safe nofault (wakeup_step k i p) (fun _ => sinv) s.
Proof.
  intros I Hk. destruct p as [| | | | | | | | | |c n|c n| | |]; simpl; try (by safe_step).
  - case_decide as Hn.
    + case_decide as Hi.
      * eapply step_goto; [done|done|done|done|side|side|]. simpl. intros c' n' i' [= <- <-] Hle Hne _. exists (S n). split; [done|lia].
      * eapply step_acquire; [done|done|set_solver|done|done|side|side|side].
    + eapply step_goto; [done|done|done|done|side|side|]. simpl. intros c' n' i' [= <- <-] Hle Hne Hs. exfalso.
      assert (i' < nproc)%nat; [|lia]. destruct Hs as [[k' Hs]|[Hs _]]; [by apply (si_range s I) in Hs|].
      by destruct (si_sleeping s I i' Hs) as (? & ? & _ & _ & ?).
  - assert (Hown : forall k', ss_pos s k' <> SRun n (PSleep3 c)).
    { intros k' Hp. assert (ss_lock s (LProc n) = Some k) by (apply I; rewrite Hk; set_solver).
      assert (ss_lock s (LProc n) = Some k') by (apply I; rewrite Hp; set_solver). assert (k' = k) by congruence. subst. congruence. }
    apply safe_bind. safe_step.
    eapply (safe_seq _ _ _ (fun _ s' => sinv s' /\ ss_pos s' k = SRun i (PWake2 c n) /\ ~ sleeping_on s' n c)).
    + case_decide as Hs; [|safe_step; split_and!; [done|done|]; intros [[k' Hp]|?]; [by apply (Hown k')|by destruct Hs]].
      destruct Hs as [Hs _]. unfold setstate. safe_step. split_and!; [by apply sinv_wake|done|]. intros [[k' Hp]|[Hs' _]]; [by apply (Hown k')|].
      simpl in Hs'. by rewrite fset_eq in Hs'.
    + intros [] s' (I' & Hk' & Hns). eapply step_release; [done|done|done|side|done|side|side|]. simpl. intros c' n' i' [= <- <-] Hle Hne Hs.
      exists (S n). split; [done|]. destruct (decide (i' = n)) as [->|]; [done|lia].
Qed.

Lemma yield_safe s k i p :
  sinv s -> ss_pos s k = SRun i p -> safe nofault (yield_step k i p) (fun _ => sinv) s.
Proof.
  intros I Hk. destruct p; simpl; try (by safe_step).
  - destruct (sinv_sched_checks s k i _ I Hk eq_refl) as (Hl & Hn & Hi). unfold setstate. do 2 safe_step.
    apply sched_run_safe; simpl; [done|done|done|by rewrite fset_eq|].
    eapply (sinv_out s _ k i _ RUNNABLE RYield); try done. by left.
  - eapply step_release; [done|done|done|side|done|side|side|side].
Qed.

Lemma kill_safe s k i j :
  sinv s -> ss_pos s k = SRun i (PKill2 j) -> safe nofault (kill_step k i j) (fun _ => sinv) s.
Proof.
  intros I Hk. unfold kill_step. apply safe_bind. safe_step.
  eapply (safe_seq _ _ _ (fun _ s' => sinv s' /\ ss_pos s' k = SRun i (PKill2 j))).
  - case_decide; [|by safe_step]. unfold setstate. safe_step. split; [by apply sinv_wake|done].
  - intros [] s' [I' Hk']. eapply step_release; [done|done|done|side|done|side|side|side].
Qed.

(** The state of an exiting process changes when it is already past everything that looks at it. *)
Lemma sinv_exit s s' k i c x :
  sinv s -> ss_pos s k = SRun i (PExit2 c) -> core s' ->
  s' = unlocked k (LCond c) (SRun i PExit3) x (s <| ss_state := fset (ss_state s) i ZOMBIE |>) -> sinv s'.
Proof.
  intros I Hk [Hl Hc] ->. set (s' := unlocked _ _ _ _ _) in *. destruct (si_run s I k i _ Hk) as (_ & _ & Hst). simpl in Hst.
  assert (Hpos : forall k', ss_pos s' k' = if decide (k' = k) then SRun i PExit3 else ss_pos s k') by done.
  assert (Hstate : forall i', ss_state s' i' = if decide (i' = i) then ZOMBIE else ss_state s i') by done.
  assert (Hrun : forall k' i' q, ss_pos s' k' = SRun i' q -> exists q', ss_pos s k' = SRun i' q').
  { intros k' i' q. rewrite Hpos. case_decide; [|by eauto]. intros [= <- <-]. subst. by eauto. }
  split; try done.
  - intros k' i' q. rewrite Hpos, Hstate. destruct (decide (k' = k)) as [->|].
    + intros [= <- <-]. rewrite decide_True by done. destruct (si_run s I k i _ Hk) as (? & ? & _). done.
    + intros Hq. rewrite decide_False by (intros ->; by pose proof (si_one s I k k' i _ _ Hk Hq)). by apply I.
  - intros k1 k2 i' q1 q2 H1 H2. destruct (Hrun _ _ _ H1), (Hrun _ _ _ H2). by eapply (si_one s I).
  - intros i'. rewrite Hstate. case_decide; [done|]. intros Hi'. destruct (si_running s I i' Hi') as (k' & q & Hq).
    exists k', q. rewrite Hpos, decide_False; [done|]. intros ->. congruence.
  - intros i'. rewrite Hstate. case_decide; [done|]. apply I.
  - intros i'. rewrite Hstate. case_decide; [done|]. apply I.
  - intros k' i' q Hq. destruct (Hrun _ _ _ Hq) as [q' ?]. by eapply (si_range s I).
  - intros k' j. rewrite Hpos. case_decide; [naive_solver|apply I].
  - intros k' i' c'. rewrite Hpos. case_decide; [naive_solver|apply I].
  - intros i' c' Hs. assert (Hs' : sleeping_on s i' c').
    { destruct Hs as [[k' Hq]|[Hs Hc']]; [rewrite Hpos in Hq; case_decide; [done|left; by exists k']|].
      right. rewrite Hstate in Hs. by case_decide. }
    destruct (si_wake s I i' c' Hs') as [?|(k0 & j & q & n & Hq & Hn & ?)]; [by left|]. right. exists k0, j, q, n.
    split; [|done]. rewrite Hpos, decide_False; [done|]. intros ->. assert (q = PExit2 c) by congruence. by subst.
Qed.

Lemma exit_safe s k i p :
  sinv s -> ss_pos s k = SRun i p -> safe nofault (exit_step k i p) (fun _ => sinv) s.
Proof.
  intros I Hk. destruct p; simpl; try (by safe_step).
  - apply safe_bind. unfold setstate. safe_step. apply core_release; simpl.
    + apply (sinv_core s) in I. done.
    + rewrite Hk. simpl. apply Permutation_swap.
    + set_solver.
    + intros x Hcore. by eapply (sinv_exit s _ k i).
  - destruct (sinv_sched_checks s k i _ I Hk eq_refl) as (Hl & Hn & Hi). destruct (si_run s I k i _ Hk) as (_ & _ & Hst). simpl in Hst.
    apply sched_run_safe; [done|done|done|by rewrite Hst|].
    eapply (sinv_out s _ k i _ ZOMBIE RExit); try done; [|by right; right]. intros i'. simpl. case_decide; by subst.
Qed.

Lemma cpu_step_safe s k a : sinv s -> safe nofault (cpu_step k a) (fun _ => sinv) s.
Proof.
  intros I. unfold cpu_step. apply safe_bind. safe_step. destruct (ss_pos s k) as [j|j|j|i p] eqn:Hk; try (by apply scheduler_safe).
  destruct p; unfold proc_step; try (by apply sleep_safe); try (by apply yield_safe); try (by apply wakeup_safe); try (by apply exit_safe).
  - destruct a as [c| |j| | | | |]; try (by safe_step).
    + eapply step_acquire; [done|done|set_solver|done|done|side|side|side].
    + eapply step_acquire; [done|done|set_solver|done|done|side|side|side].
    + case_decide; [|by safe_step]. eapply step_acquire; [done|done|set_solver|done|done|side|side|side].
  - destruct a; try (by safe_step).
    + apply safe_bind. safe_step. destruct (ss_cond s c) eqn:Hc; [by safe_step|]. eapply step_goto; [done|done|done|done| |side|side].
      intros c' [[= <-]|?]; done.
    + unfold setcond, setpos. safe_steps. exact (sinv_signal s k i c I Hk).
    + unfold setcond. safe_step. by apply sinv_consume.
    + eapply step_release; [done|done|done|side|done|side|side|side].
    + eapply step_acquire; [done|done|set_solver|done|done|side|side|side].
  - eapply step_release; [done|done|done|side|done|side|side|side].
  - by apply kill_safe.
Qed.
End Inv.

(** ** The theorems *)

Lemma sinv_init ready : sinv (sched0 ready).
Proof.
  split; simpl; try done.
  - intros l k. split; [done|]. by rewrite elem_of_nil.
  - intros i. case_decide; done.
  - intros i. case_decide; [|done]. intros _. by exists RFork, false.
  - intros i. case_decide; done.
  - intros k j [[= <-]|?]; [|done]. vm_compute. lia.
  - intros i c _. by left.
Qed.

Lemma sinv_run ready s : sched_run (sched0 ready) s -> sinv s.
Proof.
  induction 1 as [|s k a s' _ IH E]; [apply sinv_init|]. pose proof (cpu_step_safe s k a IH) as H. unfold safe in H. by rewrite E in H.
Qed.

(** C5. Scheduling is safe.  However the steps of the CPUs interleave: (1) a CPU can always take its next step or spins on a lock; no step panics or switches to a context that is not
    there, so [acquire], [release] and every check of [sched] pass; (2) a process runs on at most one CPU, which knows it
    as its process; (3) a process in state RUNNING is on a CPU, and one that is RUNNABLE is on none and has a context
    to be resumed at; (4) [p->lock] held across the switch still excludes: two CPUs are never both at positions that hold the same lock. *)
Theorem sched_safe ready s :
  sched_run (sched0 ready) s ->
  (forall k a, (exists s', cpu_step k a s = Ok tt s') \/ exists c s', cpu_step k a s = Sleep c s') /\
  (forall k k' i p p', ss_pos s k = SRun i p -> ss_pos s k' = SRun i p' -> k = k' /\ ss_cproc s k = Some i) /\
  (forall i, ss_state s i = RUNNING -> exists k p, ss_pos s k = SRun i p) /\
  (forall i, ss_state s i = RUNNABLE -> is_Some (ss_ctx s i) /\ forall k p, ss_pos s k <> SRun i p) /\
  (forall k k' l, l ∈ holds (ss_pos s k) -> l ∈ holds (ss_pos s k') -> k = k').
Proof.
  intros Hr. pose proof (sinv_run ready s Hr) as I. split_and!.
  - intros k a. pose proof (cpu_step_safe s k a I) as H. unfold safe in H. destruct (cpu_step k a s) as [[] s'| |c s'| |] eqn:E; try done; by eauto.
  - intros k k' i p p' H1 H2. split; [by eapply (si_one s I)|by apply (si_run s I k i p)].
  - apply I.
  - intros i Hi. destruct (si_runnable s I i Hi) as (r & b & -> & _). split; [done|]. intros k p Hp.
    destruct (si_run s I k i p Hp) as (_ & _ & Hs). destruct (at_exit p); congruence.
  - intros k k' l H1 H2. apply (si_lock s I) in H1, H2. congruence.
Qed.

(** C6. No wakeup is lost.  A process that finds its condition false goes to sleep in two steps, after it has released
    the condition's lock; whatever happens in between on other CPUs, when the condition holds and its lock is free no process is
    asleep on its channel: it was woken, or will look at the condition again before it sleeps. *)
Theorem no_lost_wakeup ready s i c :
  sched_run (sched0 ready) s -> ss_cond s c = true -> ss_lock s (LCond c) = None ->
  ~ (ss_state s i = SLEEPING /\ ss_chan s i = Some c) /\ (forall k, ss_pos s k <> SRun i (PSleep3 c)).
Proof.
  intros Hr Hc Hl. pose proof (sinv_run ready s Hr) as I.
  assert (Hn : ~ sleeping_on s i c).
  { intros Hs. destruct (si_wake s I i c Hs) as [?|(k & j & p & n & Hp & Hw & _)]; [congruence|].
    assert (ss_lock s (LCond c) = Some k); [|congruence]. apply I. rewrite Hp. destruct p; simplify_eq/=; set_solver. }
  split; [intros ?; apply Hn; by right|]. intros k Hk. apply Hn. left. by exists k.
Qed.

(** ** Two CPUs and two processes *)

Fixpoint exec (l : list (nat * act)) (s : sst) : option sst :=
  match l with
  | [] => Some s
  | (k, a) :: l' => match cpu_step k a s with Ok _ s' => exec l' s' | _ => None end
  end.

Lemma exec_run l s0 s s' : sched_run s0 s -> exec l s = Some s' -> sched_run s0 s'.
Proof.
  revert s. induction l as [|[k a] l IH]; intros s Hr; simpl; [by intros [= <-]|].
  destruct (cpu_step k a s) as [[] s1| | | |] eqn:E; try done. apply IH. by eapply run_step.
Qed.

(** Process 0 sleeps on condition 5 between the two halves of process 1's [wakeup] being called: it releases the lock, process 1
    takes it, makes the condition true and starts to wake; process 0 gets to [sched] before its turn comes. *)
Definition schedule : list (nat * act) :=
  let go k n := replicate n (k, AYield) in
  go 0%nat 3%nat ++ [(0%nat, AEnter 5%nat); (0%nat, ASleep)] ++
  go 1%nat 5%nat ++
  go 0%nat 2%nat ++ [(1%nat, AEnter 5%nat); (1%nat, ASignal)] ++
  go 0%nat 2%nat ++ go 1%nat 128%nat ++ [(1%nat, ALeave)].

Definition schedule_end : sst := default (sched0 [0; 1]%nat) (exec schedule (sched0 [0; 1]%nat)).
Lemma schedule_run : sched_run (sched0 [0; 1]%nat) schedule_end.
Proof.
  apply (exec_run schedule _ (sched0 [0; 1]%nat)); [constructor|]. unfold schedule_end.
  assert (H : is_Some (exec schedule (sched0 [0; 1]%nat))) by (vm_compute; by eexists). destruct H as [s ->]. done.
Qed.

Lemma sched_safe_witness :
  ss_pos schedule_end 1%nat = SRun 1 PRun /\ forall k p, ss_pos schedule_end k = SRun 1 p -> k = 1%nat.
Proof.
  assert (H1 : ss_pos schedule_end 1%nat = SRun 1 PRun) by (vm_compute; reflexivity). split; [exact H1|]. intros k p Hk.
  destruct (sched_safe [0; 1]%nat schedule_end schedule_run) as (_ & H & _). by destruct (H k 1%nat 1%nat p PRun Hk H1).
Defined.

Lemma no_lost_wakeup_witness :
  ss_state schedule_end 0%nat = RUNNABLE /\ ~ (ss_state schedule_end 0%nat = SLEEPING /\ ss_chan schedule_end 0%nat = Some 5%nat).
Proof.
  split; [vm_compute; reflexivity|].
  apply (no_lost_wakeup [0; 1]%nat schedule_end 0 5 schedule_run); vm_compute; reflexivity.
Defined.
