(* ===== verification/Pipe.v ===== *)
(** Pipes, kernel/pipe.c: a ring buffer of 512 bytes between two file descriptors.

    What a pipe needs of the running process, its memory, its [killed] flag and [wakeup], is the interface
    [Caller]; Proc.v implements it.  [pi->lock] makes each stretch between two sleeps one step.  A pipe
    implements a bounded queue of bytes, [queue]. *)

From S2P Require Import CString Prelude Bytes Params Disk Sleeplock Tx Fs.

(** What pipes, the console and the file layer use of the running process. *)
Class Caller (U : Type) := {
  cl_um :: UserMem U;
  cl_killed : M U Z;
  cl_wakeup : chan -> M U unit }.

(** kernel/pipe.c:11 *)
Definition PIPESIZE : Z := 512.

(** kernel/pipe.c:13-20 *)
Record pipe := Pipe { pp_data : list Z; pp_nread : Z; pp_nwrite : Z; pp_readopen : Z; pp_writeopen : Z }.
#[export] Instance eta_pipe : Eta pipe := fun p => Pipe (pp_data p) (pp_nread p) (pp_nwrite p) (pp_readopen p) (pp_writeopen p).

(** A pipe with the process that uses it. *)
Record pst (U : Type) := Pst { pt_pipe : pipe; pt_u : U }.
Arguments Pst {U}.
Arguments pt_pipe {U}.
Arguments pt_u {U}.
#[export] Instance eta_pst {U} : Eta (pst U) := fun s => Pst (pt_pipe s) (pt_u s).

Section Pipe.
Context {U : Type} `{CL : Caller U}.
Implicit Types s : pst U.

Definition liftu {A} (m : M U A) : M (pst U) A := zoom pt_u (fun u s => s <| pt_u := u |>) m.
Definition onpipe (f : pipe -> pipe) : M (pst U) unit := modify (fun s => s <| pt_pipe := f (pt_pipe s) |>).

(** The loop of [pipewrite], kernel/pipe.c:83-98, from byte [i] on: [inl] with the result, or [inr] when it
    goes to sleep on [&pi->nwrite] with [i] bytes written, to go on from there. *)
Fixpoint pipewrite_loop (fuel : nat) (pi addr n i : Z) : M (pst U) (Z + Z) :=
  match fuel with
  | O => nofuel
  | S fuel' =>
      if i <? n then
        let* s := get in
        let* k := liftu cl_killed in
        if (pp_readopen (pt_pipe s) =? 0) || negb (k =? 0) then ret (inl (-1))
        else if pp_nwrite (pt_pipe s) =? u32 (pp_nread (pt_pipe s) + PIPESIZE) then
          liftu (cl_wakeup (ChPipeRead pi)) ;;;
          ret (inr i)
        else
          let* r := liftu (um_copyin (u64 (addr + i)) 1) in
          if snd r =? -1 then liftu (cl_wakeup (ChPipeRead pi)) ;;; ret (inl i)
          else
            onpipe (fun p => p <| pp_data := aset (pp_data p) (pp_nwrite p mod PIPESIZE) (nth 0 (fst r) 0) |>
                               <| pp_nwrite := u32 (pp_nwrite p + 1) |>) ;;;
            pipewrite_loop fuel' pi addr n (i + 1)
      else
        liftu (cl_wakeup (ChPipeRead pi)) ;;;
        ret (inl i)
  end.

(** kernel/pipe.c:76-103; [i] is 0 in a new call. *)
Definition pipewrite (pi addr n i : Z) : M (pst U) (Z + Z) := pipewrite_loop (S (Z.to_nat (n - i))) pi addr n i.

(** The copy loop of [piperead], kernel/pipe.c:120-126. *)
Fixpoint piperead_loop (fuel : nat) (addr n i : Z) : M (pst U) Z :=
  match fuel with
  | O => nofuel
  | S fuel' =>
      if i <? n then
        let* s := get in
        if pp_nread (pt_pipe s) =? pp_nwrite (pt_pipe s) then ret i
        else
          let ch := aget (pp_data (pt_pipe s)) (pp_nread (pt_pipe s) mod PIPESIZE) in
          onpipe (fun p => p <| pp_nread := u32 (pp_nread p + 1) |>) ;;;
          let* r := liftu (um_copyout (u64 (addr + i)) [ch]) in
          if r =? -1 then ret i else piperead_loop fuel' addr n (i + 1)
      else ret i
  end.

(** kernel/pipe.c:105-130; a reader that sleeps starts over when it is woken. *)
Definition piperead (pi addr n : Z) : M (pst U) Z :=
  let* s := get in
  if (pp_nread (pt_pipe s) =? pp_nwrite (pt_pipe s)) && negb (pp_writeopen (pt_pipe s) =? 0) then
    let* k := liftu cl_killed in
    if negb (k =? 0) then ret (-1) else sleepon (ChPipeRead pi)
  else
    let* i := piperead_loop (S (Z.to_nat n)) addr n 0 in
    liftu (cl_wakeup (ChPipeWrite pi)) ;;;
    ret i.

(** kernel/pipe.c:58-74; whether the page of the pipe is to be freed. *)
Definition pipeclose (pi : Z) (writable : bool) : M (pst U) bool :=
  (if writable then
     onpipe (fun p => p <| pp_writeopen := 0 |>) ;;; liftu (cl_wakeup (ChPipeRead pi))
   else
     onpipe (fun p => p <| pp_readopen := 0 |>) ;;; liftu (cl_wakeup (ChPipeWrite pi))) ;;;
  let* s := get in
  ret ((pp_readopen (pt_pipe s) =? 0) && (pp_writeopen (pt_pipe s) =? 0)).
End Pipe.
