(* ===== verification/PipeSpec.v ===== *)
(** A pipe is a bounded queue: the refinement of kernel/pipe.c to a list of at most 512 bytes, and no process
    asleep on a pipe that has what it waits for. *)

From S2P Require Import CString Prelude Bytes Params Disk Sleeplock Tx Fs Pipe.

(** What the pipe relies on of the running process: its memory reads as a function from addresses to bytes, and
    [wakeup] leaves nobody asleep on the channel. *)
Class CallerSpec (U : Type) {CL : Caller U} := {
  cl_ok : U -> Prop;
  cl_view : U -> Z -> Z;
  cl_dead : U -> bool;
  cl_waits : U -> chan -> Prop;
  cl_killed_spec u : cl_ok u -> wp cl_killed (fun k u' => u' = u /\ (k =? 0) = negb (cl_dead u)) u;
  cl_wakeup_spec u c : cl_ok u -> wp (cl_wakeup c) (fun _ u' => cl_ok u' /\ (forall a, cl_view u' a = cl_view u a) /\
    cl_dead u' = cl_dead u /\ forall c', cl_waits u' c' <-> cl_waits u c' /\ c' <> c) u;
  cl_copyin_spec u a : cl_ok u -> 0 <= a < 2 ^ 64 -> wp (um_copyin a 1) (fun r u' => cl_ok u' /\ (forall a, 0 <= a -> cl_view u' a = cl_view u a) /\
    cl_dead u' = cl_dead u /\ (forall c', cl_waits u' c' <-> cl_waits u c') /\ (r = ([cl_view u a], 0) \/ snd r = -1)) u;
  cl_copyout_spec u a b : cl_ok u -> 0 <= a < 2 ^ 64 -> wp (um_copyout a [b]) (fun r u' => cl_ok u' /\
    cl_dead u' = cl_dead u /\ (forall c', cl_waits u' c' <-> cl_waits u c') /\
    (r = 0 /\ (forall x, 0 <= x -> cl_view u' x = if decide (x = a) then b else cl_view u x) \/
     r = -1 /\ forall x, 0 <= x -> cl_view u' x = cl_view u x)) u }.

(** ** The queue *)
Definition plen (p : pipe) : Z := u32 (pp_nwrite p - pp_nread p).
Definition queue (p : pipe) : list Z := (fun k => aget (pp_data p) ((pp_nread p + k) mod PIPESIZE)) <$> seqZ 0 (plen p).

Record pipe_ok (p : pipe) : Prop := {
  po_data : length (pp_data p) = 512%nat;
  po_nread : 0 <= pp_nread p < 2 ^ 32;
  po_nwrite : 0 <= pp_nwrite p < 2 ^ 32;
  po_len : plen p <= 512 }.

Lemma length_queue p : length (queue p) = Z.to_nat (plen p).
Proof. unfold queue. by rewrite length_fmap, length_seqZ. Qed.

(** The tests of the code: full and empty. *)
Lemma pipe_full p : pipe_ok p -> (pp_nwrite p =? u32 (pp_nread p + PIPESIZE)) = (plen p =? 512).
Proof. intros [H1 H2 H3 H4]. unfold plen, PIPESIZE, u32 in *. apply eq_true_iff_eq. rewrite !Z.eqb_eq. lia. Qed.

Lemma pipe_empty p : pipe_ok p -> (pp_nread p =? pp_nwrite p) = (plen p =? 0).
Proof. intros [H1 H2 H3 H4]. unfold plen, u32 in *. apply eq_true_iff_eq. rewrite !Z.eqb_eq. lia. Qed.

Definition pushed (c : Z) (p : pipe) : pipe :=
  p <| pp_data := aset (pp_data p) (pp_nwrite p mod PIPESIZE) c |> <| pp_nwrite := u32 (pp_nwrite p + 1) |>.
Definition popped (p : pipe) : pipe := p <| pp_nread := u32 (pp_nread p + 1) |>.

Lemma pushed_ok c p : pipe_ok p -> plen p <> 512 -> pipe_ok (pushed c p) /\ queue (pushed c p) = queue p ++ [c].
Proof.
  intros [H1 H2 H3 H4] Hl. assert (El : plen (pushed c p) = plen p + 1) by (unfold plen, pushed, u32 in *; simpl; lia).
  split.
  - split; simpl; [by rewrite length_aset|done|unfold u32; lia|]. rewrite El. lia.
  - assert (Hp : 0 <= plen p) by (unfold plen, u32; lia). unfold queue. rewrite El, seqZ_app by lia. rewrite fmap_app. f_equal.
    + apply list_fmap_ext. intros i k Hk. apply lookup_seqZ in Hk as [-> Hi]. unfold pushed, PIPESIZE. simpl. apply aget_aset_ne; [lia|lia|].
      unfold plen, u32 in *. lia.
    + change (seqZ (0 + plen p) 1) with [Z.of_nat 0 + (0 + plen p)]. unfold pushed, PIPESIZE. simpl. f_equal. unfold plen, u32 in *.
      replace ((pp_nread p + _) mod 512) with (pp_nwrite p mod 512) by lia. apply aget_aset_eq. lia.
Qed.

Lemma popped_ok p : pipe_ok p -> plen p <> 0 ->
  pipe_ok (popped p) /\ queue p = aget (pp_data p) (pp_nread p mod PIPESIZE) :: queue (popped p).
Proof.
  intros [H1 H2 H3 H4] Hl. assert (Hp : 0 <= plen p) by (unfold plen, u32; lia).
  assert (El : plen (popped p) = plen p - 1) by (unfold plen, popped, u32 in *; simpl; lia). split.
  - split; simpl; [done|unfold u32; lia|done|]. rewrite El. lia.
  - unfold queue. rewrite El. replace (plen p) with (1 + (plen p - 1)) at 1 by lia. rewrite seqZ_app by lia. rewrite fmap_app. simpl.
    rewrite Z.add_0_r. f_equal. apply list_eq. intros i. rewrite !list_lookup_fmap. destruct (decide (Z.of_nat i < plen p - 1)) as [Hi|Hi].
    + rewrite (proj2 (lookup_seqZ 1 _ i (1 + Z.of_nat i))) by lia. rewrite (proj2 (lookup_seqZ 0 _ i (0 + Z.of_nat i))) by lia. simpl.
      f_equal. f_equal. unfold popped, PIPESIZE, u32. simpl. lia.
    + by rewrite !lookup_seqZ_ge by lia.
Qed.

(** The bytes from [addr + i] on, and memory with bytes stored at [addr], with the wrap-around of addresses. *)
Definition sent (V : Z -> Z) (addr i k : Z) : list Z := (fun j => V (u64 (addr + j))) <$> seqZ i k.
Definition stored (V : Z -> Z) (addr : Z) (l : list Z) (x : Z) : Z :=
  let j := u64 (x - addr) in if j <? Z.of_nat (length l) then nth (Z.to_nat j) l 0 else V x.

Lemma stored_snoc V V' V'' addr l b x :
  0 <= x < 2 ^ 64 -> Z.of_nat (length l) < 2 ^ 63 -> V' x = stored V addr l x ->
  V'' x = (if decide (x = u64 (addr + Z.of_nat (length l))) then b else V' x) -> V'' x = stored V addr (l ++ [b]) x.
Proof.
  intros Hx Hl E1 E2. rewrite E2. clear E2 V''. unfold stored in *. rewrite length_app. simpl.
  destruct (decide (x = u64 (addr + Z.of_nat (length l)))) as [E|E].
  - assert (Ej : u64 (x - addr) = Z.of_nat (length l)) by (rewrite E; unfold u64; lia). rewrite Ej, (proj2 (Z.ltb_lt _ _)) by lia.
    rewrite app_nth2 by lia. replace (Z.to_nat _ - length l)%nat with 0%nat by lia. done.
  - assert (Ej : u64 (x - addr) <> Z.of_nat (length l)) by (intros Ej; apply E; unfold u64 in *; lia). rewrite E1.
    destruct (Z.ltb_spec (u64 (x - addr)) (Z.of_nat (length l))).
    + rewrite (proj2 (Z.ltb_lt _ _)) by lia. pose proof (u64_range (x - addr)). by rewrite app_nth1 by lia.
    + by rewrite (proj2 (Z.ltb_ge _ _)) by lia.
Qed.

Section PipeSpec.
Context {U : Type} `{CS : CallerSpec U}.
Implicit Types (s : pst U) (u : U).

Lemma wp_liftu {A} (m : M U A) (Q : A -> pst U -> Prop) s :
  wp m (fun a u => Q a (s <| pt_u := u |>)) (pt_u s) -> wp (liftu m) Q s.
Proof. intros H. unfold liftu. by apply wp_zoom. Qed.

(** The caller is still there, with the same memory. *)
Definition same_caller u u' : Prop := cl_ok u' /\ (forall a, 0 <= a -> cl_view u' a = cl_view u a) /\ cl_dead u' = cl_dead u.
(** Everybody asleep on [c] has been woken, and nobody else. *)
Definition woke u u' (c : chan) : Prop := forall c', cl_waits u' c' <-> cl_waits u c' /\ c' <> c.

Definition write_post (pi addr n i : Z) s (r : Z + Z) s' : Prop :=
  let p := pt_pipe s in let p' := pt_pipe s' in
  exists k, 0 <= k /\ i + k <= n /\ pipe_ok p' /\ same_caller (pt_u s) (pt_u s') /\
    pp_readopen p' = pp_readopen p /\ pp_writeopen p' = pp_writeopen p /\
    queue p' = queue p ++ sent (cl_view (pt_u s)) addr i k /\
    match r with
    | inl v => v = -1 /\ s' = s /\ (pp_readopen p = 0 \/ cl_dead (pt_u s) = true) \/
               v = i + k /\ woke (pt_u s) (pt_u s') (ChPipeRead pi)
    | inr j => j = i + k /\ j < n /\ plen p' = 512 /\ pp_readopen p <> 0 /\ cl_dead (pt_u s) = false /\
               woke (pt_u s) (pt_u s') (ChPipeRead pi)
    end.

Lemma wakeup_post s c (Q : unit -> pst U -> Prop) :
  cl_ok (pt_u s) -> (forall u', same_caller (pt_u s) u' -> woke (pt_u s) u' c -> Q tt (s <| pt_u := u' |>)) ->
  wp (liftu (cl_wakeup c)) Q s.
Proof.
  intros Hok HQ. apply wp_liftu. eapply wp_conseq; [by apply cl_wakeup_spec|]. intros [] u' (H1 & H2 & H3 & H4). apply HQ; [by split_and!|done].
Qed.

Lemma same_refl u : cl_ok u -> same_caller u u.
Proof. done. Qed.
Lemma same_trans u1 u2 u3 : same_caller u1 u2 -> same_caller u2 u3 -> same_caller u1 u3.
Proof. intros (A1 & A2 & A3) (B1 & B2 & B3). split_and!; [done| |congruence]. intros a Ha. rewrite B2 by done. by apply A2. Qed.

Lemma sent_cons V addr i k : 0 <= k -> sent V addr i (1 + k) = V (u64 (addr + i)) :: sent V addr (i + 1) k.
Proof. intros Hk. unfold sent. by rewrite seqZ_cons, Z.sub_1_r, Z.pred_succ || (rewrite seqZ_cons by lia; simpl; do 3 f_equal; lia). Qed.

Lemma pipewrite_spec pi addr n i s :
  pipe_ok (pt_pipe s) -> cl_ok (pt_u s) -> 0 <= i <= n -> wp (pipewrite pi addr n i) (write_post pi addr n i s) s.
Proof.
  unfold pipewrite. remember (S (Z.to_nat (n - i))) as fuel eqn:Ef. assert (Hfuel : (Z.to_nat (n - i) < fuel)%nat) by lia. clear Ef.
  revert i s Hfuel. induction fuel as [|fuel IH]; intros i s Hfuel Hp Hu Hi; [lia|]. cbn [pipewrite_loop].
  assert (Hnil : queue (pt_pipe s) = queue (pt_pipe s) ++ sent (cl_view (pt_u s)) addr i 0) by (unfold sent; simpl; by rewrite app_nil_r).
  destruct (Z.ltb_spec i n) as [Hlt|Hge].
  2:{ wp_step. apply wakeup_post; [done|]. intros u' S' W'. wp_steps. exists 0. split_and!; try done; try lia. right. split; [lia|done]. }
  wp_step. wp_step. wp_step. apply wp_liftu. eapply wp_conseq; [by apply cl_killed_spec|]. intros k u' [-> Ek]. rewrite Ek.
  assert (Es : s <| pt_u := pt_u s |> = s) by (by destruct s). rewrite Es. clear Es.
  destruct ((pp_readopen (pt_pipe s) =? 0) || negb (negb (cl_dead (pt_u s)))) eqn:Eg.
  { wp_steps. exists 0. split_and!; try done; try lia. left. split_and!; [done|done|]. apply orb_true_iff in Eg as [E|E]; [left; lia|right; by destruct (cl_dead (pt_u s))]. }
  apply orb_false_iff in Eg as [Ero Ed]. apply Z.eqb_neq in Ero. apply negb_false_iff, negb_true_iff in Ed.
  rewrite pipe_full by done. destruct (Z.eqb_spec (plen (pt_pipe s)) 512) as [Hfull|Hroom].
  { wp_step. apply wakeup_post; [done|]. intros u' S' W'. wp_steps. exists 0. split_and!; try done; lia. }
  wp_step. apply wp_liftu. eapply wp_conseq; [apply cl_copyin_spec; [done|apply u64_range]|].
  intros r u' (O1 & V1 & D1 & W1 & Hr). destruct Hr as [->|Er].
  2:{ rewrite Er. change (-1 =? -1) with true. cbn match. wp_step. apply wakeup_post; [done|]. intros u2 S2 W2. wp_steps.
      exists 0. split_and!; try done; try lia; [by eapply same_trans; [|exact S2]; split_and!|]. right. split; [lia|].
      intros c'. rewrite (W2 c'). simpl. by rewrite W1. }
  cbn [snd fst]. change (0 =? -1) with false. cbn match. wp_step. unfold onpipe at 1. wp_step. change (nth 0 _ 0) with (cl_view (pt_u s) (u64 (addr + i))). set (b := cl_view (pt_u s) (u64 (addr + i))).
  destruct (pushed_ok b (pt_pipe s) Hp Hroom) as [Hp1 Hq1].
  match goal with |- wp _ _ ?x => set (s1 := x) end. assert (E1 : pt_pipe s1 = pushed b (pt_pipe s)) by done. assert (E2 : pt_u s1 = u') by done.
  clearbody s1. rewrite <-E1 in Hp1, Hq1. rewrite <-E2 in O1, V1, D1, W1. clear E2 u'.
  assert (S1 : same_caller (pt_u s) (pt_u s1)) by done.
  eapply wp_conseq; [apply IH; [lia|exact Hp1|exact O1|lia]|].
  intros r s' (k2 & H1 & H2 & H3 & H4 & H5 & H6 & H7 & H8). exists (1 + k2).
  assert (Esent : sent (cl_view (pt_u s1)) addr (i + 1) k2 = sent (cl_view (pt_u s)) addr (i + 1) k2).
  { apply list_fmap_ext. intros j x Hx. apply V1, u64_range. }
  rewrite E1 in H5, H6. split_and!; try done; try lia.
  - by eapply same_trans.
  - rewrite H7, Hq1, sent_cons, <-app_assoc by done. simpl. by rewrite Esent.
  - rewrite E1, D1 in H8. destruct r as [v|j].
    + destruct H8 as [(_ & _ & [Hc|Hc])|[-> Hw]]; [simpl in Hc; lia|congruence|]. right. split; [lia|]. intros c'. rewrite (Hw c'). by rewrite W1.
    + destruct H8 as (-> & Hj & Hl & Hro & Hd & Hw). split_and!; try done; try lia. intros c'. rewrite (Hw c'). by rewrite W1.
Qed.

(** The copy loop takes [c] from the front of the queue into the caller's memory; when a store fails
    the byte at hand, [lost], is gone. *)
Definition loop_post (V : Z -> Z) (got : list Z) (addr n i : Z) s (v : Z) s' : Prop :=
  let p := pt_pipe s in let p' := pt_pipe s' in
  exists c lost, v = i + Z.of_nat (length c) /\ queue p = c ++ lost ++ queue p' /\ pipe_ok p' /\
    pp_readopen p' = pp_readopen p /\ pp_writeopen p' = pp_writeopen p /\
    cl_ok (pt_u s') /\ cl_dead (pt_u s') = cl_dead (pt_u s) /\ (forall ch, cl_waits (pt_u s') ch <-> cl_waits (pt_u s) ch) /\
    (forall x, 0 <= x < 2 ^ 64 -> cl_view (pt_u s') x = stored V addr (got ++ c) x) /\ v <= n /\
    (lost = [] /\ (v = n \/ queue p' = []) \/ v < n /\ exists b, lost = [b]).

Lemma piperead_loop_spec V got addr n i fuel s :
  pipe_ok (pt_pipe s) -> cl_ok (pt_u s) -> 0 <= i <= n -> n < 2 ^ 31 -> (Z.to_nat (n - i) < fuel)%nat -> Z.of_nat (length got) = i ->
  (forall x, 0 <= x < 2 ^ 64 -> cl_view (pt_u s) x = stored V addr got x) ->
  wp (piperead_loop fuel addr n i) (loop_post V got addr n i s) s.
Proof.
  revert got i s. induction fuel as [|fuel IH]; intros got i s Hp Hu Hi Hn Hf Hg HV; [lia|]. cbn [piperead_loop].
  destruct (Z.ltb_spec i n) as [Hlt|Hge].
  2:{ wp_steps. exists [], []. rewrite app_nil_r. split_and!; try done; try (simpl; lia). left. split; [done|left; lia]. }
  wp_step. wp_step. rewrite pipe_empty by done. destruct (Z.eqb_spec (plen (pt_pipe s)) 0) as [He|Hne].
  { wp_steps. exists [], []. rewrite app_nil_r. split_and!; try done; try (simpl; lia). left. split; [done|right].
    apply nil_length_inv. rewrite length_queue, He. done. }
  destruct (popped_ok (pt_pipe s) Hp Hne) as [Hp1 Hq1]. set (b := aget _ _) in *. fold b.
  wp_step. unfold onpipe at 1. wp_step.
  match goal with |- wp _ _ ?x => set (s1 := x) end. assert (E1 : pt_pipe s1 = popped (pt_pipe s)) by done. assert (E2 : pt_u s1 = pt_u s) by done.
  clearbody s1. rewrite <-E1 in Hp1, Hq1. wp_step. apply wp_liftu. rewrite E2.
  eapply wp_conseq; [apply cl_copyout_spec; [done|apply u64_range]|]. intros r u' (O1 & D1 & W1 & Hr).
  set (s2 := s1 <| pt_u := u' |>). assert (Es2 : pt_pipe s2 = pt_pipe s1 /\ pt_u s2 = u') by done. destruct Es2 as [Ep2 Eu2]. clearbody s2.
  assert (Hro : pp_readopen (pt_pipe s1) = pp_readopen (pt_pipe s) /\ pp_writeopen (pt_pipe s1) = pp_writeopen (pt_pipe s)) by (by rewrite E1).
  destruct Hro as [Hro1 Hro2].
  destruct Hr as [[-> Vr]|[-> Vr]].
  - change (0 =? -1) with false. cbn match.
    eapply wp_conseq; [apply (IH (got ++ [b]) (i + 1) s2); rewrite ?Ep2, ?Eu2; try done; try lia; [rewrite length_app; simpl; lia|]|].
    { intros x Hx. apply (stored_snoc V (cl_view (pt_u s)) _ addr got b x); [done|lia|by apply HV|]. rewrite Vr by lia. by rewrite Hg. }
    intros v s' (c & lost & H1 & H2 & H3 & H4 & H5 & H6 & H7 & H8 & H9 & H10 & H11). rewrite Ep2 in H2, H4, H5. rewrite Eu2 in H7, H8.
    exists (b :: c), lost. split_and!; try done; try congruence.
    + simpl. lia.
    + rewrite Hq1, H2. done.
    + intros ch. rewrite H8. apply W1.
    + intros x Hx. rewrite H9 by done. by rewrite <-app_assoc.
  - change (-1 =? -1) with true. cbn match. wp_steps. exists [], [b]. rewrite app_nil_r. split_and!; rewrite ?Ep2, ?Eu2; try done; try (simpl; lia).
    + intros x Hx. rewrite Vr by lia. by apply HV.
    + right. split; [lia|by exists b].
Qed.

Definition read_post (pi addr n : Z) s (o : outcome (pst U) Z) : Prop :=
  let p := pt_pipe s in
  match o with
  | Ok v s' =>
      v = -1 /\ s' = s /\ queue p = [] /\ pp_writeopen p <> 0 /\ cl_dead (pt_u s) = true \/
      exists s1, loop_post (cl_view (pt_u s)) [] addr n 0 s v s1 /\ pt_pipe s' = pt_pipe s1 /\
        same_caller (pt_u s1) (pt_u s') /\ woke (pt_u s) (pt_u s') (ChPipeWrite pi) /\ ~ (queue p = [] /\ pp_writeopen p <> 0)
  | Sleep c s' => c = ChPipeRead pi /\ s' = s /\ queue p = [] /\ pp_writeopen p <> 0 /\ cl_dead (pt_u s) = false
  | _ => False
  end.

Lemma queue_nil p : pipe_ok p -> queue p = [] <-> plen p = 0.
Proof.
  intros Hp. split.
  - intros E. apply (f_equal length) in E. rewrite length_queue in E. simpl in E. assert (0 <= plen p) by (unfold plen, u32; lia). lia.
  - intros E. apply nil_length_inv. by rewrite length_queue, E.
Qed.

Lemma piperead_spec pi addr n s :
  pipe_ok (pt_pipe s) -> cl_ok (pt_u s) -> 0 <= n < 2 ^ 31 -> read_post pi addr n s (piperead pi addr n s).
Proof.
  intros Hp Hu Hn. pose proof (queue_nil _ Hp) as Hq. unfold piperead. unfold bind at 1, get. rewrite pipe_empty by done.
  destruct ((plen (pt_pipe s) =? 0) && negb (pp_writeopen (pt_pipe s) =? 0)) eqn:Eg.
  - apply andb_true_iff in Eg as [E1 E2]. apply Z.eqb_eq, Hq in E1. apply negb_true_iff, Z.eqb_neq in E2.
    pose proof (cl_killed_spec (pt_u s) Hu) as Hk. unfold wp in Hk. unfold bind, liftu, zoom. destruct (cl_killed (pt_u s)) as [k u'| | | |]; try done.
    destruct Hk as [-> ->]. assert (Es : s <| pt_u := pt_u s |> = s) by (by destruct s). rewrite Es. destruct (cl_dead (pt_u s)) eqn:Ed; cbn.
    + left. by split_and!.
    + by split_and!.
  - assert (Hne : ~ (queue (pt_pipe s) = [] /\ pp_writeopen (pt_pipe s) <> 0)).
    { rewrite Hq. intros [E1 E2]. apply andb_false_iff in Eg as [E|E]; [lia|]. apply negb_false_iff in E. lia. }
    pose proof (piperead_loop_spec (cl_view (pt_u s)) [] addr n 0 (S (Z.to_nat n)) s Hp Hu) as Hl.
    assert (Hv : forall x, 0 <= x < 2 ^ 64 -> cl_view (pt_u s) x = stored (cl_view (pt_u s)) addr [] x).
    { intros x Hx. unfold stored. simpl. by rewrite (proj2 (Z.ltb_ge _ _)) by apply u64_range. }
    specialize (Hl ltac:(lia) ltac:(lia) ltac:(lia) eq_refl Hv). unfold wp in Hl. unfold bind.
    destruct (piperead_loop _ _ _ _ s) as [v s1| | | |] eqn:E; try done. pose proof Hl as Hl'.
    destruct Hl' as (c & lost & H1 & H2 & H3 & H4 & H5 & H6 & H7 & H8 & H9 & H10 & H11).
    pose proof (cl_wakeup_spec (pt_u s1) (ChPipeWrite pi) H6) as Hw. unfold wp in Hw. unfold liftu, zoom.
    destruct (cl_wakeup (ChPipeWrite pi) (pt_u s1)) as [[] u2| | | |]; try done. destruct Hw as (W1 & W2 & W3 & W4).
    right. exists s1. split; [exact Hl|split; [done|split; [|split; [|done]]]].
    + split_and!; [done| |done]. intros a _. apply W2.
    + intros c'. simpl. by rewrite W4, H8.
Qed.

(** ** The stream of bytes *)

(** The uses of one pipe, by any callers: [hist p a b], in which writers have put the bytes [a] and readers have taken [b].  What a
    write puts are the bytes of the writer's memory up to the count it returns or sleeps with; what
    a read takes are the bytes the reader finds in its memory afterwards, and the byte that is lost when a store
    fails. *)
Inductive hist (pi : Z) : pipe -> list Z -> list Z -> Prop :=
  | hist_new d : length d = 512%nat -> hist pi (Pipe d 0 0 1 1) [] []
  | hist_write p a b u addr n i r p' u' : hist pi p a b -> cl_ok u -> 0 <= i <= n -> 0 <= n < 2 ^ 31 ->
      pipewrite pi addr n i (Pst p u) = Ok r (Pst p' u') ->
      hist pi p' (a ++ sent (cl_view u) addr i (match r with inl v => if v =? -1 then 0 else v - i | inr j => j - i end)) b
  | hist_read p a b u addr n v p' u' : hist pi p a b -> cl_ok u -> 0 <= n < 2 ^ 31 ->
      piperead pi addr n (Pst p u) = Ok v (Pst p' u') ->
      hist pi p' a (b ++ sent (cl_view u') addr 0 v ++ (if (0 <=? v) && (v <? n) then take 1 (drop (Z.to_nat v) (queue p)) else []))
  | hist_close p a b u w r p' u' : hist pi p a b -> cl_ok u -> pipeclose pi w (Pst p u) = Ok r (Pst p' u') -> hist pi p' a b.

Lemma pipeclose_spec pi w s : cl_ok (pt_u s) -> wp (pipeclose pi w) (fun r s' =>
  pt_pipe s' = (if w then pt_pipe s <| pp_writeopen := 0 |> else pt_pipe s <| pp_readopen := 0 |>) /\
  same_caller (pt_u s) (pt_u s') /\ woke (pt_u s) (pt_u s') (if w then ChPipeRead pi else ChPipeWrite pi) /\
  r = (pp_readopen (pt_pipe s') =? 0) && (pp_writeopen (pt_pipe s') =? 0)) s.
Proof.
  intros Hu. unfold pipeclose, onpipe. destruct w; wp_step; wp_step; wp_step; (apply wakeup_post; [done|]); intros u' S' W'; wp_steps; by split_and!.
Qed.

Lemma queue_flags p p' : pp_data p' = pp_data p -> pp_nread p' = pp_nread p -> pp_nwrite p' = pp_nwrite p -> queue p' = queue p /\ (pipe_ok p -> pipe_ok p').
Proof.
  intros E1 E2 E3. assert (El : plen p' = plen p) by (unfold plen; congruence). split; [unfold queue; by rewrite E1, E2, El|].
  intros [H1 H2 H3 H4]. split; congruence.
Qed.

Lemma stored_sent V V' addr c : Z.of_nat (length c) < 2 ^ 63 -> (forall x, 0 <= x < 2 ^ 64 -> V' x = stored V addr c x) ->
  sent V' addr 0 (Z.of_nat (length c)) = c.
Proof.
  intros Hc E. apply list_eq. intros i. unfold sent. rewrite list_lookup_fmap. destruct (decide (i < length c)%nat) as [Hi|Hi].
  - rewrite (proj2 (lookup_seqZ 0 _ i (0 + Z.of_nat i))) by lia. simpl. rewrite E by apply u64_range. unfold stored.
    replace (u64 (u64 (addr + (0 + Z.of_nat i)) - addr)) with (Z.of_nat i) by (unfold u64; lia).
    rewrite (proj2 (Z.ltb_lt (Z.of_nat i) (Z.of_nat (length c)))) by lia. rewrite Nat2Z.id. symmetry. by apply lookup_nth.
  - rewrite lookup_seqZ_ge by lia. symmetry. apply lookup_ge_None. lia.
Qed.

Lemma hist_ok pi p a b : hist pi p a b -> pipe_ok p /\ a = b ++ queue p.
Proof.
  induction 1 as [d Hd|p a b u addr n i r p' u' _ [Hp ->] Hu Hi Hn E|p a b u addr n v p' u' _ [Hp ->] Hu Hn E|p a b u w r p' u' _ [Hp ->] Hu E].
  - split; [split; [done|simpl; lia|simpl; lia|by vm_compute]|done].
  - pose proof (pipewrite_spec pi addr n i (Pst p u) Hp Hu Hi) as Hw. unfold wp in Hw. rewrite E in Hw.
    destruct Hw as (k & Hk1 & Hk2 & Hp' & _ & _ & _ & Hq & Hr). simpl in *. split; [done|]. rewrite Hq, app_assoc. f_equal.
    destruct r as [v|j]; [destruct Hr as [(-> & Es & _)|[-> _]]|destruct Hr as [-> _]].
    + injection Es as -> _. change (-1 =? -1) with true. cbn match. assert (length (sent (cl_view u) addr i k) = 0%nat).
      { apply (f_equal length) in Hq. rewrite length_app in Hq. lia. }
      symmetry. by apply nil_length_inv.
    + rewrite (proj2 (Z.eqb_neq _ _)) by lia. f_equal. lia.
    + f_equal. lia.
  - pose proof (piperead_spec pi addr n (Pst p u) Hp Hu Hn) as Hr. rewrite E in Hr. simpl in Hr.
    destruct Hr as [(-> & Es & Hq & _)|(s1 & Hl & Ep & (_ & Sv & _) & _)].
    + injection Es as -> ->. split; [done|]. simpl. unfold sent. simpl. by rewrite app_nil_r.
    + destruct Hl as (c & lost & -> & Hq & Hp1 & _ & _ & _ & _ & _ & HV & Hle & Hlost). simpl in *. rewrite Z.add_0_l in *. subst p'. split; [done|].
      rewrite Hq. rewrite <-app_assoc. f_equal.
      assert (Hc : sent (cl_view u') addr 0 (Z.of_nat (length c)) = c).
      { apply (stored_sent (cl_view u)); [lia|]. intros x Hx. rewrite Sv by lia. by apply HV. }
      rewrite Hc, <-app_assoc. f_equal. rewrite Nat2Z.id, drop_app_length, (proj2 (Z.leb_le 0 _)) by lia. simpl.
      destruct Hlost as [[-> [Hn'|Hq']]|[Hlt [b' ->]]].
      * rewrite (proj2 (Z.ltb_ge _ _)) by lia. done.
      * rewrite Hq'. by destruct (_ <? n).
      * rewrite (proj2 (Z.ltb_lt _ _)) by lia. done.
  - pose proof (pipeclose_spec pi w (Pst p u) Hu) as Hc. unfold wp in Hc. rewrite E in Hc. destruct Hc as (Ep & _). simpl in Ep.
    destruct (queue_flags p p') as [Eq Ho]; [by rewrite Ep; destruct w..|]. rewrite Eq. split; [by apply Ho|done].
Qed.

(** C11. A pipe is a queue of at most 512 bytes: it delivers exactly the bytes written, in order.  After any sequence of writes
    (also resumed ones), reads and closes, by any processes, through the ring buffer with its 32-bit counters that wrap around, the bytes the readers
    have taken followed by the bytes still in the ring are exactly the bytes the writers have put; the
    ring never holds more than 512.  A reader's memory holds the bytes it was delivered, except
    that a byte is lost when the store of it fails. *)
Theorem pipe_stream pi p a b : hist pi p a b -> a = b ++ queue p /\ (length (queue p) <= 512)%nat.
Proof.
  intros H. destruct (hist_ok pi p a b H) as [[H1 H2 H3 H4] E]. split; [done|]. rewrite length_queue. lia.
Qed.

(** Who sleeps on a pipe has nothing to do there. *)
Definition no_lost (pi : Z) (p : pipe) (waits : chan -> Prop) : Prop :=
  (waits (ChPipeRead pi) -> queue p = [] /\ pp_writeopen p <> 0) /\
  (waits (ChPipeWrite pi) -> length (queue p) = 512%nat /\ pp_readopen p <> 0).

End PipeSpec.
