(* ===== verification/ProcCaller.v ===== *)
(** The running process as pipes and files see it: Proc.v and Vm.v implement the interface of Pipe.v. *)

From S2P Require Import CString Prelude Bytes Params Disk Riscv Kalloc Vm VmPt VmUser VmCopy VmFree VmBytes Proc ProcMem ProcOps ProcIso Tx Fs Pipe PipeSpec.

Section Caller.
Context `{IM : Image}.

(** [either_copyout] and [either_copyin] with a user address, kernel/proc.c:628-659, and [killed(myproc())]. *)
#[export] Instance proc_um : UserMem pstate := {
  um_copyout va l := let* s := get in let p := procat s (ps_cur s) in liftmem (copyout (Vproc (p_sz p) (p_pagetable p)) (p_pagetable p) va l);
  um_copyin va n := let* s := get in let p := procat s (ps_cur s) in liftmem (copyin (Vproc (p_sz p) (p_pagetable p)) (p_pagetable p) va n) }.

#[export] Instance proc_caller : Caller pstate := {
  cl_um := proc_um;
  cl_killed := let* cur := myproc in killed cur;
  cl_wakeup := wakeup }.

Context {IO : ImageOk}.
Implicit Types s : pstate.

(** ** What the process sees *)
Definition ready s : Prop := (exists W l G, good W s l G) /\ p_state (procat s (ps_cur s)) = RUNNING.

Definition cview s (a : Z) : Z :=
  if TRAPFRAME <=? a then 0
  else let pte := pte_of (ps_mem s) (p_pagetable (procat s (ps_cur s))) a in
       if pte =? 0 then 0 else nth (Z.to_nat (a mod 4096)) (km_pages (ps_mem s) (PTE2PA pte)) 0.

Definition waits_on s (c : chan) : Prop :=
  exists j, (j < 64)%nat /\ j <> ps_cur s /\ p_state (procat s j) = SLEEPING /\ p_chan (procat s j) = Some c.

Lemma cview_uview W s l G T A a : good W s l G -> G (ps_cur s) = Some (T, A) -> 0 <= a -> cview s a = uview (ps_mem s) A a.
Proof.
  intros H Eg Ha. pose proof (is_slot _ _ _ _ (gd_iso _ _ _ _ H) _ (gd_cur _ _ _ _ H)) as S0. rewrite Eg in S0.
  destruct (sl_space _ _ _ _ S0) as (_ & _ & HA & _). unfold cview, uview. pose proof UPN_eq as HU.
  destruct (Z.leb_spec TRAPFRAME a) as [Hge|Hlt]; change TRAPFRAME with (2 ^ 38 - 8192) in *.
  - destruct (A !! (a / 4096)) as [[pa f]|] eqn:E; [|done]. destruct (as_dom _ _ _ _ _ HA _ _ _ E). lia.
  - rewrite (pte_of_leaf _ _ T l); [|apply HA|change MAXVA with (2 ^ 38); lia]. rewrite (as_leaf _ _ _ _ _ HA) by lia. unfold apte.
    destruct (A !! (a / 4096)) as [[pa f]|] eqn:E; [|done]. destruct (as_dom _ _ _ _ _ HA _ _ _ E) as (_ & Hp & Hf & HV).
    pose proof (phys_pos _ Hp) as Hpos. destruct Hp as [Hal _]. unfold PGSIZE in Hal. rewrite PTE2PA_mkpte by lia.
    rewrite (proj2 (Z.eqb_neq _ _)); [done|]. unfold mkpte. lia.
Qed.

(** ** The laws *)
Lemma goes_ready W s l G s' : good W s l G -> goes W s G s' -> p_state (procat s' (ps_cur s')) = RUNNING -> ready s'.
Proof. intros _ (l' & G' & H' & _) Hr. split; [by exists W, l', G'|done]. Qed.

Lemma ready_wakeup s c : ready s -> wp (wakeup c) (fun _ s' => ready s' /\ (forall a, cview s' a = cview s a) /\
  negb (p_killed (procat s' (ps_cur s')) =? 0) = negb (p_killed (procat s (ps_cur s)) =? 0) /\
  forall c', waits_on s' c' <-> waits_on s c' /\ c' <> c) s.
Proof.
  intros [(W & l & G & H) Hr]. pose proof (is_len _ _ _ _ (gd_iso _ _ _ _ H)) as Hlen. pose proof (gd_cur _ _ _ _ H) as Hc.
  pose proof (wakeup_good 0 W s l G c H) as Hg. unfold run_pop in Hg. apply wp_bind_inv in Hg.
  pose proof (wakeup_spec c s Hlen) as Hw. unfold wp in Hg, Hw |- *. unfold get in Hg. destruct (wakeup c s) as [[] s'| | | |]; try done.
  set (s1 := s <| ps_proc := imap (woken c (ps_cur s)) (ps_proc s) |>) in *.
  assert (Ep : forall j, (j < 64)%nat -> procat s1 j = woken c (ps_cur s) j (procat s j)) by (intros j Hj; apply nth_imap; lia).
  assert (Ecur : procat s1 (ps_cur s) = procat s (ps_cur s)) by (rewrite Ep by done; unfold woken; by rewrite decide_True).
  rewrite Hw in Hg |- *. clear Hw s'. split_and!.
  - eapply goes_ready; [exact H|exact Hg|]. change (ps_cur s1) with (ps_cur s). by rewrite Ecur.
  - intros a. unfold cview. change (ps_mem s1) with (ps_mem s). change (ps_cur s1) with (ps_cur s). by rewrite Ecur.
  - change (ps_cur s1) with (ps_cur s). by rewrite Ecur.
  - intros c'. unfold waits_on. change (ps_cur s1) with (ps_cur s). split.
    + intros (j & Hj & Hne & Hs & Hch). rewrite Ep in Hs, Hch by done. unfold woken, wake in Hs, Hch. rewrite decide_False in Hs, Hch by done.
      destruct (decide (p_state (procat s j) = SLEEPING /\ p_chan (procat s j) = Some c)) as [|Hd]; [done|].
      split; [by exists j|]. intros ->. by apply Hd.
    + intros [(j & Hj & Hne & Hs & Hch) Hcc]. exists j. rewrite Ep by done. unfold woken, wake. rewrite decide_False by done.
      rewrite decide_False; [by split_and!|]. intros [_ E]. congruence.
Qed.

(** A change of the memory of the running process only. *)
Lemma ready_mem W s l G T A m' T' A' l' V :
  good W s l G -> p_state (procat s (ps_cur s)) = RUNNING -> G (ps_cur s) = Some (T, A) ->
  uchanged (p_sz (procat s (ps_cur s))) (ps_mem s) T A l m' (p_pagetable (procat s (ps_cur s))) T' A' l' V ->
  ready (s <| ps_mem := m' |>) /\ forall a, 0 <= a -> cview (s <| ps_mem := m' |>) a = V a.
Proof.
  intros H Hr Eg U. destruct (iso_uchanged W s l G _ T A m' T' A' l' V (gd_iso _ _ _ _ H) (gd_cur _ _ _ _ H) Eg U) as [R1 R2].
  assert (Hg : good W (s <| ps_mem := m' |>) l' (gput G (ps_cur s) (Some (T', A')))).
  { split; [done|apply H|]. intros i Hi Hl. destruct (decide (i = ps_cur s)) as [->|]; [by rewrite gput_eq|]. rewrite gput_ne by done. by apply (gd_live _ _ _ _ H). }
  split; [split; [by exists W, l', (gput G (ps_cur s) (Some (T', A')))|done]|]. intros a Ha.
  rewrite (cview_uview W _ l' (gput G (ps_cur s) (Some (T', A'))) T' A'); [|done|apply gput_eq|done]. by apply U.
Qed.

Lemma ready_space s : ready s -> exists W l G T A, good W s l G /\ G (ps_cur s) = Some (T, A) /\
  as_ok (ps_mem s) (p_pagetable (procat s (ps_cur s))) T A l /\ top_ok (ps_mem s) T /\ 0 <= p_sz (procat s (ps_cur s)) <= TRAPFRAME.
Proof.
  intros [(W & l & G & H) Hr]. destruct (live_space W s l G H Hr) as (T & A & Eg). exists W, l, G, T, A.
  pose proof (is_slot _ _ _ _ (gd_iso _ _ _ _ H) _ (gd_cur _ _ _ _ H)) as S0. rewrite Eg in S0. destruct (sl_space _ _ _ _ S0) as (_ & _ & HA & _ & Hsz & _).
  split_and!; try done; [|apply Hsz..]. exact (slot_top_ok W s l G _ T A (gd_iso _ _ _ _ H) (gd_cur _ _ _ _ H) Eg).
Qed.

Lemma ready_copyin s a : ready s -> 0 <= a < 2 ^ 64 -> wp (um_copyin a 1) (fun r s' => exists m', s' = s <| ps_mem := m' |> /\ ready s' /\
  (forall x, 0 <= x -> cview s' x = cview s x) /\ (r = ([cview s a], 0) \/ snd r = -1)) s.
Proof.
  intros Hs Ha. destruct (ready_space s Hs) as (W & l & G & T & A & H & Eg & HA & Ht & Hsz). simpl. wp_step. wp_step. apply wp_liftmem. unfold copyin.
  eapply wp_conseq; [apply (copyin_loop_spec _ _ _ _ T A l); [done|done|done|done|lia]|].
  intros r m' (T' & A' & l' & k & U & Hb & Hr). exists m'. destruct (ready_mem W s l G T A m' T' A' l' _ H (proj2 Hs) Eg U) as [R1 R2].
  pose proof (fun x Hx => cview_uview W s l G T A x H Eg Hx) as EV. split_and!; [done|done| |].
  - intros x Hx. by rewrite R2, EV.
  - destruct Hr as [[E ->]|[E _]]; [left|by right]. rewrite EV by lia. destruct r as [d v]. simpl in *. subst. done.
Qed.

Lemma ready_copyout s a b : ready s -> 0 <= a < 2 ^ 64 -> wp (um_copyout a [b]) (fun r s' => exists m', s' = s <| ps_mem := m' |> /\ ready s' /\
  (r = 0 /\ (forall x, 0 <= x -> cview s' x = if decide (x = a) then b else cview s x) \/ r = -1 /\ forall x, 0 <= x -> cview s' x = cview s x)) s.
Proof.
  intros Hs Ha. destruct (ready_space s Hs) as (W & l & G & T & A & H & Eg & HA & Ht & Hsz). simpl. wp_step. wp_step. apply wp_liftmem. unfold copyout.
  eapply wp_conseq; [apply (copyout_loop_spec _ _ _ _ T A l); [done|done|done|done|simpl; lia]|].
  intros r m' (T' & A' & l' & k & U & Hr). exists m'. destruct (ready_mem W s l G T A m' T' A' l' _ H (proj2 Hs) Eg U) as [R1 R2].
  pose proof (fun x Hx => cview_uview W s l G T A x H Eg Hx) as EV. split_and!; [done|done|].
  destruct Hr as [[-> ->]|(-> & Hk & _)]; [left|right]; (split; [done|]); intros x Hx; rewrite R2, EV by done.
  - simpl. unfold uput. simpl. destruct (decide (x = a)) as [->|]; [rewrite decide_True by lia; by rewrite Z.sub_diag|by rewrite decide_False by lia].
  - simpl in Hk. assert (k = 0%nat) as -> by lia. apply uput_nil.
Qed.

#[export] Instance proc_caller_spec : CallerSpec pstate.
Proof.
  refine {| cl_ok := ready; cl_view := cview; cl_dead s := negb (p_killed (procat s (ps_cur s)) =? 0); cl_waits := waits_on |}.
  - intros s Hs. simpl. unfold myproc, killed. wp_steps. split; [done|]. by destruct (p_killed _ =? 0).
  - intros s c Hs. by apply ready_wakeup.
  - intros s a Hs Ha. eapply wp_conseq; [by apply ready_copyin|]. intros r s' (m' & -> & H1 & H2 & H3). by split_and!.
  - intros s a b Hs Ha. eapply wp_conseq; [by apply ready_copyout|]. intros r s' (m' & -> & H1 & H2). by split_and!.
Defined.
End Caller.
