(* ===== verification/Console.v ===== *)
(** The console: the UART driver kernel/uart.c and the line discipline kernel/console.c.

    The device is the trace of the values written to its registers, the characters that wait to be received, and
    whether the transmitter is idle.  [tx_lock] and [cons.lock] make each stretch between two sleeps one
    step.  A function that sleeps in the middle of its work returns how far it got. *)

From S2P Require Import CString Prelude Bytes Params Disk Sleeplock Tx Fs Pipe.

(** kernel/uart.c:22-36 *)
Module Uart.
Definition RHR : Z := 0.
Definition THR : Z := 0.
Definition IER : Z := 1.
Definition IER_RX_ENABLE : Z := 1.
Definition IER_TX_ENABLE : Z := 2.
Definition FCR : Z := 2.
Definition FCR_FIFO_ENABLE : Z := 1.
Definition FCR_FIFO_CLEAR : Z := 6.
Definition LCR : Z := 3.
Definition LCR_EIGHT_BITS : Z := 3.
Definition LCR_BAUD_LATCH : Z := 128.
End Uart.
Import Uart.

(** kernel/uart.c:41-47, with the device. *)
Record uart := MkUart {
  u_busy : Z;
  u_trace : list (Z * Z);
  u_rx : list Z;
  u_idle : bool;
  u_panicked : bool }.
#[export] Instance eta_uart : Eta uart := fun u => MkUart (u_busy u) (u_trace u) (u_rx u) (u_idle u) (u_panicked u).

(** kernel/console.c:48 *)
Definition INPUT_BUF_SIZE : Z := 128.

(** kernel/console.c:44-53 *)
Record cons := Cons { c_buf : list Z; c_r : Z; c_w : Z; c_e : Z }.
#[export] Instance eta_cons : Eta cons := fun c => Cons (c_buf c) (c_r c) (c_w c) (c_e c).

Record cst (U : Type) := Cst { cs_cons : cons; cs_uart : uart; cs_u : U }.
Arguments Cst {U}.
Arguments cs_cons {U}.
Arguments cs_uart {U}.
Arguments cs_u {U}.
#[export] Instance eta_cst {U} : Eta (cst U) := fun s => Cst (cs_cons s) (cs_uart s) (cs_u s).

(** kernel/console.c:25-26 *)
Definition BACKSPACE : Z := 256.
Definition Ctl (x : Z) : Z := x - 64.

Section Console.
Context {U : Type} `{CL : Caller U}.
Implicit Types s : cst U.

Definition liftc {A} (m : M U A) : M (cst U) A := zoom cs_u (fun u s => s <| cs_u := u |>) m.
Definition onuart (f : uart -> uart) : M (cst U) unit := modify (fun s => s <| cs_uart := f (cs_uart s) |>).
Definition oncons (f : cons -> cons) : M (cst U) unit := modify (fun s => s <| cs_cons := f (cs_cons s) |>).

(** [WriteReg(reg, v)], kernel/uart.c:39 *)
Definition WriteReg (reg v : Z) : M (cst U) unit := onuart (fun u => u <| u_trace := u_trace u ++ [(reg, u8 v)] |>).

(** kernel/uart.c:49-75 *)
Definition uartinit : M (cst U) unit :=
  WriteReg IER 0 ;;;
  WriteReg LCR LCR_BAUD_LATCH ;;;
  WriteReg 0 3 ;;;
  WriteReg 1 0 ;;;
  WriteReg LCR LCR_EIGHT_BITS ;;;
  WriteReg FCR (Z.lor FCR_FIFO_ENABLE FCR_FIFO_CLEAR) ;;;
  WriteReg IER (Z.lor IER_TX_ENABLE IER_RX_ENABLE).

(** kernel/uart.c:80-99, from byte [i] on: [None] when all are sent, or the byte at which it sleeps on [&tx_chan]. *)
Fixpoint uartwrite (buf : list Z) (i : Z) (n : nat) : M (cst U) (option Z) :=
  match n with
  | O => ret None
  | S n' =>
      let* s := get in
      if negb (u_busy (cs_uart s) =? 0) then ret (Some i)
      else
        WriteReg THR (aget buf i) ;;;
        onuart (fun u => u <| u_busy := 1 |>) ;;;
        uartwrite buf (i + 1) n'
  end.

(** kernel/uart.c:106-124: after a panic it spins for ever; otherwise the character goes out when the device is idle. *)
Definition uartputc_sync (c : Z) : M (cst U) unit :=
  let* s := get in
  if u_panicked (cs_uart s) then nofuel else WriteReg THR c.

(** kernel/uart.c:128-137 *)
Definition uartgetc : M (cst U) Z :=
  let* s := get in
  match u_rx (cs_uart s) with
  | c :: rest => onuart (fun u => u <| u_rx := rest |>) ;;; ret c
  | [] => ret (-1)
  end.

(** kernel/console.c:33-42 *)
Definition consputc (c : Z) : M (cst U) unit :=
  if c =? BACKSPACE then uartputc_sync 8 ;;; uartputc_sync 32 ;;; uartputc_sync 8
  else uartputc_sync c.

(** The inner loop of the kill-line key, kernel/console.c:149-153. *)
Fixpoint kill_line (fuel : nat) : M (cst U) unit :=
  match fuel with
  | O => nofuel
  | S fuel' =>
      let* s := get in
      let c := cs_cons s in
      if negb (c_e c =? c_w c) && negb (aget (c_buf c) (u32 (c_e c - 1) mod INPUT_BUF_SIZE) =? 10) then
        oncons (fun c => c <| c_e := u32 (c_e c - 1) |>) ;;;
        consputc BACKSPACE ;;;
        kill_line fuel'
      else ret tt
  end.

(** kernel/console.c:139-183; [procdump] only prints. *)
Definition consoleintr (c : Z) : M (cst U) unit :=
  if c =? Ctl 80 then ret tt
  else if c =? Ctl 85 then
    let* s := get in
    kill_line (S (Z.to_nat (u32 (c_e (cs_cons s) - c_w (cs_cons s)))))
  else if (c =? Ctl 72) || (c =? 127) then
    let* s := get in
    if negb (c_e (cs_cons s) =? c_w (cs_cons s)) then
      oncons (fun c => c <| c_e := u32 (c_e c - 1) |>) ;;;
      consputc BACKSPACE
    else ret tt
  else
    let* s := get in
    if negb (c =? 0) && (u32 (c_e (cs_cons s) - c_r (cs_cons s)) <? INPUT_BUF_SIZE) then
      let c := if c =? 13 then 10 else c in
      consputc c ;;;
      oncons (fun k => k <| c_buf := aset (c_buf k) (c_e k mod INPUT_BUF_SIZE) c |> <| c_e := u32 (c_e k + 1) |>) ;;;
      let* s := get in
      if (c =? 10) || (c =? Ctl 68) || (u32 (c_e (cs_cons s) - c_r (cs_cons s)) =? INPUT_BUF_SIZE) then
        oncons (fun k => k <| c_w := c_e k |>) ;;;
        liftc (cl_wakeup ChCons)
      else ret tt
    else ret tt.

(** The receive loop of [uartintr], kernel/uart.c:155-161. *)
Fixpoint uart_receive (fuel : nat) : M (cst U) unit :=
  match fuel with
  | O => nofuel
  | S fuel' =>
      let* c := uartgetc in
      if c =? -1 then ret tt else consoleintr c ;;; uart_receive fuel'
  end.

(** kernel/uart.c:142-162 *)
Definition uartintr : M (cst U) unit :=
  let* s := get in
  (if u_idle (cs_uart s) then
     onuart (fun u => u <| u_busy := 0 |>) ;;;
     liftc (cl_wakeup ChUart)
   else ret tt) ;;;
  uart_receive (S (length (u_rx (cs_uart s)))).

(** [either_copyin] and [either_copyout], kernel/proc.c:628-659, for bytes at [src + tot] and [dst + tot]. *)
Definition cons_copyin (src : ksrc) (tot len : Z) : M (cst U) (list Z * Z) :=
  match src with
  | SKernel l => ret (slice l tot len, 0)
  | SUser va => liftc (um_copyin (u64 (va + tot)) len)
  end.
Definition cons_copyout (dst : kdst) (tot c : Z) (out : list Z) : M (cst U) (Z * list Z) :=
  match dst with
  | DKernel => ret (0, out ++ [c])
  | DUser va => let* r := liftc (um_copyout (u64 (va + tot)) [c]) in ret (r, out)
  end.

(** Where [consolewrite] is: at its loop with [i] bytes done, or inside [uartwrite] with [j] bytes of the chunk at [i] sent. *)
Inductive cwrite := CwLoop (i : Z) | CwChunk (i : Z) (buf : list Z) (nn j : Z).

(** kernel/console.c:58-75, from where it is: [inl] with the result, [inr] when it sleeps for the transmitter. *)
Fixpoint consolewrite (fuel : nat) (src : ksrc) (n : Z) (st : cwrite) : M (cst U) (Z + cwrite) :=
  match fuel with
  | O => nofuel
  | S fuel' =>
      match st with
      | CwLoop i =>
          if i <? n then
            let nn := if n - i <? 32 then n - i else 32 in
            let* r := cons_copyin src i nn in
            if snd r =? -1 then ret (inl i) else consolewrite fuel' src n (CwChunk i (fst r) nn 0)
          else ret (inl i)
      | CwChunk i buf nn j =>
          let* r := uartwrite buf j (Z.to_nat (nn - j)) in
          match r with
          | Some j' => ret (inr (CwChunk i buf nn j'))
          | None => consolewrite fuel' src n (CwLoop (i + nn))
          end
      end
  end.

(** The loop of [consoleread], kernel/console.c:92-130, with [n] of [target] bytes to go: [inl] with the result, [inr n] when it sleeps on
    [&cons.r].  A byte is a [char], so [c] is at most 255. *)
Fixpoint consoleread_loop (fuel : nat) (dst : kdst) (target n : Z) (out : list Z) : M (cst U) ((Z + Z) * list Z) :=
  match fuel with
  | O => nofuel
  | S fuel' =>
      if 0 <? n then
        let* s := get in
        if c_r (cs_cons s) =? c_w (cs_cons s) then
          let* k := liftc cl_killed in
          if negb (k =? 0) then ret (inl (-1), out) else ret (inr n, out)
        else
          let c := aget (c_buf (cs_cons s)) (c_r (cs_cons s) mod INPUT_BUF_SIZE) in
          oncons (fun k => k <| c_r := u32 (c_r k + 1) |>) ;;;
          if c =? Ctl 68 then
            (if u32 n <? target then oncons (fun k => k <| c_r := u32 (c_r k - 1) |>) else ret tt) ;;;
            ret (inl (target - n), out)
          else
            let* '(r, out) := cons_copyout dst (target - n) c out in
            if r =? -1 then ret (inl (target - n), out)
            else if c =? 10 then ret (inl (target - (n - 1)), out)
            else consoleread_loop fuel' dst target (n - 1) out
      else ret (inl (target - n), out)
  end.

(** kernel/console.c:83-131; [n] is [target] in a new call. *)
Definition consoleread (dst : kdst) (target n : Z) (out : list Z) : M (cst U) ((Z + Z) * list Z) :=
  consoleread_loop (S (Z.to_nat n)) dst target n out.

(** kernel/console.c:185-196 *)
Definition consoleinit : M (cst U) unit := uartinit.
End Console.
