(* ===== verification/ConsoleSpec.v ===== *)
(** The console edits lines: kernel/console.c refines an editor that keeps the bytes ready to be read and the
    line being typed. *)

From S2P Require Import CString Prelude Bytes Params Disk Sleeplock Tx Fs Pipe PipeSpec Console.

(** ** The editor *)

(** The bytes ready to be read, and the line being typed. *)
Record editor := Editor { ed_ready : list Z; ed_line : list Z }.

(** What a key does. *)
Definition edit (c : Z) (e : editor) : editor :=
  if c =? Ctl 80 then e
  else if c =? Ctl 85 then Editor (ed_ready e) []
  else if (c =? Ctl 72) || (c =? 127) then Editor (ed_ready e) (removelast (ed_line e))
  else if negb (c =? 0) && bool_decide (length (ed_ready e) + length (ed_line e) < 128)%nat then
    let c := if c =? 13 then 10 else c in
    let line := ed_line e ++ [c] in
    if (c =? 10) || (c =? Ctl 68) || bool_decide (length (ed_ready e) + length line = 128)%nat
    then Editor (ed_ready e ++ line) [] else Editor (ed_ready e) line
  else e.

(** A read of at most [n] bytes: the bytes delivered, those left, and whether the read is over.  A line ends at its newline; an end-of-file
    key ends it too and is left for the next read unless nothing was delivered. *)
Fixpoint rline (n : nat) (got : bool) (q : list Z) : list Z * list Z * bool :=
  match n, q with
  | O, _ => ([], q, true)
  | S _, [] => ([], [], false)
  | S n', c :: q' =>
      if c =? Ctl 68 then ([], if got then q else q', true)
      else if c =? 10 then ([c], q', true)
      else let '(d, rest, b) := rline n' true q' in (c :: d, rest, b)
  end.

(** ** The ring *)
Definition clen (a b : Z) : Z := u32 (b - a).
Definition cbytes (k : cons) (a b : Z) : list Z := (fun i => aget (c_buf k) ((a + i) mod 128)) <$> seqZ 0 (clen a b).
Definition abs (k : cons) : editor := Editor (cbytes k (c_r k) (c_w k)) (cbytes k (c_w k) (c_e k)).

Record cons_ok (k : cons) : Prop := {
  co_buf : length (c_buf k) = 128%nat;
  co_r : 0 <= c_r k < 2 ^ 32;
  co_w : 0 <= c_w k < 2 ^ 32;
  co_e : 0 <= c_e k < 2 ^ 32;
  co_len : clen (c_r k) (c_w k) + clen (c_w k) (c_e k) <= 128;
  co_line : Forall (fun c => c <> 10) (cbytes k (c_w k) (c_e k)) }.

Lemma clen_range a b : 0 <= clen a b < 2 ^ 32.
Proof. apply u32_range. Qed.

Lemma length_cbytes k a b : length (cbytes k a b) = Z.to_nat (clen a b).
Proof. unfold cbytes. by rewrite length_fmap, length_seqZ. Qed.

(** The bytes of two stretches that meet. *)
Lemma cbytes_app k a b c : 0 <= a < 2 ^ 32 -> clen a b + clen b c < 2 ^ 32 -> cbytes k a b ++ cbytes k b c = cbytes k a c.
Proof.
  intros Ha H. pose proof (clen_range a b). pose proof (clen_range b c).
  assert (El : clen a c = clen a b + clen b c) by (unfold clen, u32 in *; lia). unfold cbytes at 3. rewrite El, seqZ_app, fmap_app by lia. f_equal.
  apply list_eq. intros i. unfold cbytes. rewrite !list_lookup_fmap. destruct (decide (Z.of_nat i < clen b c)) as [Hi|Hi].
  - rewrite (proj2 (lookup_seqZ 0 _ i (0 + Z.of_nat i))) by lia. rewrite (proj2 (lookup_seqZ _ _ i (0 + clen a b + Z.of_nat i))) by lia. simpl. f_equal. f_equal.
    unfold clen, u32. lia.
  - by rewrite !lookup_seqZ_ge by lia.
Qed.

(** One more byte at the end, and one fewer. *)
Lemma cbytes_snoc k a e : 0 <= a < 2 ^ 32 -> 0 <= e < 2 ^ 32 -> clen a e < 128 ->
  cbytes k a (u32 (e + 1)) = cbytes k a e ++ [aget (c_buf k) (e mod 128)].
Proof.
  intros Ha He Hl. assert (E1 : clen e (u32 (e + 1)) = 1) by (unfold clen, u32; lia). rewrite <-(cbytes_app k a e (u32 (e + 1))) by lia. f_equal.
  unfold cbytes. rewrite E1. change (seqZ 0 1) with [0]. simpl. by rewrite Z.add_0_r.
Qed.

Lemma cbytes_removelast k a e : 0 <= a < 2 ^ 32 -> 0 <= e < 2 ^ 32 -> 0 < clen a e <= 128 ->
  cbytes k a e = cbytes k a (u32 (e - 1)) ++ [aget (c_buf k) (u32 (e - 1) mod 128)].
Proof.
  intros Ha He Hl. assert (E1 : u32 (u32 (e - 1) + 1) = e) by (unfold u32; lia). rewrite <-E1 at 1. apply cbytes_snoc; [done|apply u32_range|].
  unfold clen, u32 in *. lia.
Qed.

Lemma cbytes_cons k a e : 0 <= a < 2 ^ 32 -> 0 <= e < 2 ^ 32 -> 0 < clen a e <= 128 ->
  cbytes k a e = aget (c_buf k) (a mod 128) :: cbytes k (u32 (a + 1)) e.
Proof.
  intros Ha He Hl. assert (E1 : clen a (u32 (a + 1)) = 1) by (unfold clen, u32; lia).
  rewrite <-(cbytes_app k a (u32 (a + 1)) e) by (unfold clen, u32 in *; lia). unfold cbytes at 1. rewrite E1. change (seqZ 0 1) with [0]. simpl.
  by rewrite Z.add_0_r.
Qed.

(** A byte outside a stretch is written. *)
Lemma cbytes_aset k a b e v : length (c_buf k) = 128%nat -> 0 <= a < 2 ^ 32 -> 0 <= e < 2 ^ 32 -> clen a b <= clen a e < 128 ->
  cbytes (k <| c_buf := aset (c_buf k) (e mod 128) v |>) a b = cbytes k a b.
Proof.
  intros Hb Ha He Hl. apply list_fmap_ext. intros i x Hx. apply lookup_seqZ in Hx as [-> Hx]. simpl. apply aget_aset_ne; [lia|lia|].
  unfold clen, u32 in *. lia.
Qed.

Section ConsoleSpec.
Context {U : Type} `{CS : CallerSpec U}.
Implicit Types (s : cst U) (k : cons).

(** The caller and the ring are as before, the device has seen some more writes. *)
Definition printed s s' : Prop :=
  cs_cons s' = cs_cons s /\ cs_u s' = cs_u s /\ u_panicked (cs_uart s') = u_panicked (cs_uart s) /\ u_rx (cs_uart s') = u_rx (cs_uart s).

Lemma consputc_spec c s : u_panicked (cs_uart s) = false -> wp (consputc c) (fun _ => printed s) s.
Proof.
  intros Hp. unfold consputc, uartputc_sync, WriteReg, onuart. destruct (c =? BACKSPACE).
  - wp_step. wp_step. wp_step. rewrite Hp. wp_step. wp_step. wp_step. wp_step. simpl (u_panicked _). rewrite Hp. wp_step. wp_step. wp_step. simpl (u_panicked _).
    rewrite Hp. by wp_steps.
  - wp_step. wp_step. rewrite Hp. by wp_steps.
Qed.

Record intr_post s s' : Prop := {
  ip_ok : cons_ok (cs_cons s');
  ip_panicked : u_panicked (cs_uart s') = false;
  ip_rx : u_rx (cs_uart s') = u_rx (cs_uart s);
  ip_r : c_r (cs_cons s') = c_r (cs_cons s);
  ip_same : same_caller (cs_u s) (cs_u s') }.

(** Nobody sleeps for input that is there. *)
Definition cons_no_lost s : Prop := cl_waits (cs_u s) ChCons -> ed_ready (abs (cs_cons s)) = [].

Lemma abs_ready_e k e : ed_ready (abs (k <| c_e := e |>)) = ed_ready (abs k).
Proof. done. Qed.

Lemma erase_ok k : cons_ok k -> c_e k <> c_w k ->
  cons_ok (k <| c_e := u32 (c_e k - 1) |>) /\ abs (k <| c_e := u32 (c_e k - 1) |>) = Editor (ed_ready (abs k)) (removelast (ed_line (abs k))) /\
  0 < clen (c_w k) (c_e k) /\ clen (c_w k) (u32 (c_e k - 1)) = clen (c_w k) (c_e k) - 1.
Proof.
  intros [H1 H2 H3 H4 H5 H6] Hne. pose proof (clen_range (c_r k) (c_w k)) as Hcr.
  assert (Hpos : 0 < clen (c_w k) (c_e k) <= 128) by (unfold clen, u32 in *; lia).
  assert (El : clen (c_w k) (u32 (c_e k - 1)) = clen (c_w k) (c_e k) - 1) by (unfold clen, u32 in *; lia).
  pose proof (cbytes_removelast k (c_w k) (c_e k) H3 H4 Hpos) as Eb. split_and!; [|unfold abs; simpl; f_equal|lia|done].
  - split; simpl; try done; [apply u32_range|lia|].
    change (Forall (fun c => c <> 10) (cbytes k (c_w k) (u32 (c_e k - 1)))). rewrite Eb in H6. by apply Forall_app in H6 as [? _].
  - change (cbytes k (c_w k) (u32 (c_e k - 1)) = removelast (cbytes k (c_w k) (c_e k))). by rewrite Eb, removelast_last.
Qed.

Lemma kill_line_spec fuel s :
  cons_ok (cs_cons s) -> u_panicked (cs_uart s) = false -> cl_ok (cs_u s) -> (Z.to_nat (clen (c_w (cs_cons s)) (c_e (cs_cons s))) < fuel)%nat ->
  wp (kill_line fuel) (fun _ s' => intr_post s s' /\ cs_u s' = cs_u s /\ abs (cs_cons s') = Editor (ed_ready (abs (cs_cons s))) []) s.
Proof.
  revert s. induction fuel as [|fuel IH]; intros s Hok Hp Hu Hf; [lia|]. cbn [kill_line]. wp_step. wp_step. set (k := cs_cons s) in *.
  assert (Hnl : c_e k <> c_w k -> aget (c_buf k) (u32 (c_e k - 1) mod INPUT_BUF_SIZE) <> 10).
  { intros Hne. destruct (erase_ok k Hok Hne) as (_ & _ & Hpos & _). pose proof (co_len _ Hok). pose proof (clen_range (c_r k) (c_w k)).
    pose proof (co_line _ Hok) as Hl. rewrite cbytes_removelast in Hl by (apply Hok || lia). apply Forall_app in Hl as [_ Hl]. by inversion Hl. }
  destruct (Z.eqb_spec (c_e k) (c_w k)) as [E|Hne]; cbn [negb andb].
  - wp_steps. split; [split; done|]. split; [done|]. unfold abs. f_equal. apply nil_length_inv. rewrite length_cbytes. fold k. rewrite E. unfold clen, u32. by rewrite Z.sub_diag.
  - rewrite (proj2 (Z.eqb_neq _ _)) by (by apply Hnl). cbn [negb]. unfold oncons. wp_step. wp_step.
    destruct (erase_ok k Hok Hne) as (H1 & H2 & H3 & H4). match goal with |- wp _ _ ?x => set (s1 := x) end.
    assert (E1 : cs_cons s1 = k <| c_e := u32 (c_e k - 1) |> /\ cs_u s1 = cs_u s /\ u_panicked (cs_uart s1) = false /\ u_rx (cs_uart s1) = u_rx (cs_uart s)) by done.
    clearbody s1. destruct E1 as (E1 & E2 & E3 & E3').
    wp_step. eapply wp_conseq; [by apply consputc_spec|]. intros [] s2 (P1 & P2 & P3 & P4).
    rewrite E1 in P1. rewrite E2 in P2. rewrite E3 in P3. rewrite E3' in P4.
    eapply wp_conseq; [apply IH; rewrite ?P1, ?P2, ?P3; simpl; try done; lia|]. intros [] s3 ([Q1 Q2 Q3 Q4 Q5] & Q6 & Q7).
    rewrite P1 in Q4, Q7. rewrite P2 in Q5, Q6. split; [split; try done; congruence|]. split; [done|]. rewrite Q7. by rewrite H2.
Qed.

(** A key that is stored. *)
Definition typed (c : Z) k : cons := k <| c_buf := aset (c_buf k) (c_e k mod INPUT_BUF_SIZE) c |> <| c_e := u32 (c_e k + 1) |>.

Lemma typed_ok c k : cons_ok k -> clen (c_r k) (c_e k) < 128 ->
  abs (typed c k) = Editor (ed_ready (abs k)) (ed_line (abs k) ++ [c]) /\
  (c <> 10 -> cons_ok (typed c k)) /\
  cons_ok (typed c k <| c_w := c_e (typed c k) |>) /\
  abs (typed c k <| c_w := c_e (typed c k) |>) = Editor (ed_ready (abs k) ++ ed_line (abs k) ++ [c]) [] /\
  clen (c_r k) (u32 (c_e k + 1)) = clen (c_r k) (c_e k) + 1 /\
  clen (c_r k) (c_e k) = clen (c_r k) (c_w k) + clen (c_w k) (c_e k).
Proof.
  intros [H1 H2 H3 H4 H5 H6] Hl. pose proof (clen_range (c_r k) (c_w k)) as Hcr. pose proof (clen_range (c_w k) (c_e k)) as Hcw.
  assert (Ere : clen (c_r k) (c_e k) = clen (c_r k) (c_w k) + clen (c_w k) (c_e k)) by (unfold clen, u32 in *; lia).
  assert (Ere1 : clen (c_r k) (u32 (c_e k + 1)) = clen (c_r k) (c_e k) + 1) by (unfold clen, u32 in *; lia).
  assert (Ewe1 : clen (c_w k) (u32 (c_e k + 1)) = clen (c_w k) (c_e k) + 1) by (unfold clen, u32 in *; lia).
  set (k' := k <| c_buf := aset (c_buf k) (c_e k mod 128) c |>).
  assert (Er : cbytes k' (c_r k) (c_w k) = cbytes k (c_r k) (c_w k)) by (apply cbytes_aset; done || lia).
  assert (Ew : cbytes k' (c_w k) (u32 (c_e k + 1)) = cbytes k (c_w k) (c_e k) ++ [c]).
  { rewrite cbytes_snoc by (done || lia). unfold k' at 1. rewrite cbytes_aset by (done || lia). f_equal. f_equal. apply aget_aset_eq. lia. }
  assert (Ewhole : cbytes k' (c_r k) (u32 (c_e k + 1)) = cbytes k (c_r k) (c_w k) ++ cbytes k (c_w k) (c_e k) ++ [c]).
  { rewrite <-(cbytes_app k' (c_r k) (c_w k)) by lia. by rewrite Er, Ew. }
  assert (Enil : cbytes k' (u32 (c_e k + 1)) (u32 (c_e k + 1)) = []).
  { apply nil_length_inv. rewrite length_cbytes. unfold clen, u32. by rewrite Z.sub_diag. }
  split_and!; try done.
  - unfold abs. f_equal; [exact Er|exact Ew].
  - intros Hc. split; simpl; try done; [by rewrite length_aset|apply u32_range|lia|].
    change (Forall (fun c => c <> 10) (cbytes k' (c_w k) (u32 (c_e k + 1)))). rewrite Ew. apply Forall_app. split; [done|by apply Forall_singleton].
  - split; simpl; try done; [by rewrite length_aset|apply u32_range|apply u32_range| |].
    + unfold clen at 2. rewrite Z.sub_diag. change (u32 0) with 0. lia.
    + change (Forall (fun c => c <> 10) (cbytes k' (u32 (c_e k + 1)) (u32 (c_e k + 1)))). by rewrite Enil.
  - unfold abs. f_equal; [exact Ewhole|exact Enil].
Qed.

Lemma length_abs k : length (ed_ready (abs k)) = Z.to_nat (clen (c_r k) (c_w k)) /\ length (ed_line (abs k)) = Z.to_nat (clen (c_w k) (c_e k)).
Proof. split; apply length_cbytes. Qed.

(** Where a stored key may be. *)
Lemma store_spec c s :
  cons_ok (cs_cons s) -> u_panicked (cs_uart s) = false -> cl_ok (cs_u s) -> clen (c_r (cs_cons s)) (c_e (cs_cons s)) < 128 ->
  wp (consputc c ;;;
      oncons (typed c) ;;;
      let* s := get in
      if (c =? 10) || (c =? Ctl 68) || (u32 (c_e (cs_cons s) - c_r (cs_cons s)) =? INPUT_BUF_SIZE) then
        oncons (fun k => k <| c_w := c_e k |>) ;;;
        liftc (cl_wakeup ChCons)
      else ret tt) (fun _ s' => intr_post s s' /\
    abs (cs_cons s') = (let e := abs (cs_cons s) in let line := ed_line e ++ [c] in
      if (c =? 10) || (c =? Ctl 68) || bool_decide (length (ed_ready e) + length line = 128)%nat
      then Editor (ed_ready e ++ line) [] else Editor (ed_ready e) line) /\ (cons_no_lost s -> cons_no_lost s')) s.
Proof.
  intros Hok Hp Hu Hroom. wp_step. eapply wp_conseq; [by apply consputc_spec|]. intros [] s1 (P1 & P2 & P3 & P4). rewrite Hp in P3.
  unfold oncons. wp_step. wp_step. wp_step. wp_step. match goal with |- wp _ _ ?x => set (s2 := x) end.
  set (k := cs_cons s) in *. assert (E2 : cs_cons s2 = typed c k) by (unfold s2; simpl; by rewrite P1).
  assert (E2' : cs_u s2 = cs_u s /\ u_panicked (cs_uart s2) = false /\ u_rx (cs_uart s2) = u_rx (cs_uart s)) by done. destruct E2' as (E2u & E2p & E2r).
  clearbody s2. destruct (typed_ok c k Hok Hroom) as (A1 & A2 & A3 & A4 & A5 & A6).
  pose proof (clen_range (c_r k) (c_w k)) as Hcr. pose proof (clen_range (c_w k) (c_e k)) as Hcw. destruct (length_abs k) as [L1 L2].
  assert (Etest : (u32 (c_e (cs_cons s2) - c_r (cs_cons s2)) =? INPUT_BUF_SIZE) =
    bool_decide (length (ed_ready (abs k)) + length (ed_line (abs k) ++ [c]) = 128)%nat).
  { rewrite E2. change (u32 (c_e (typed c k) - c_r (typed c k))) with (clen (c_r k) (u32 (c_e k + 1))). rewrite A5, length_app, L1, L2.
    simpl (length [c]). unfold INPUT_BUF_SIZE. case_bool_decide; [apply Z.eqb_eq|apply Z.eqb_neq]; lia. }
  rewrite Etest. cbv zeta. destruct ((c =? 10) || (c =? Ctl 68) || _) eqn:Et.
  - wp_step. wp_step. match goal with |- wp _ _ ?x => set (s3 := x) end.
    assert (E3 : cs_cons s3 = typed c k <| c_w := c_e (typed c k) |>) by (unfold s3; simpl; by rewrite E2).
    assert (E3' : cs_u s3 = cs_u s /\ u_panicked (cs_uart s3) = false /\ u_rx (cs_uart s3) = u_rx (cs_uart s)) by done. destruct E3' as (E3u & E3p & E3r).
    clearbody s3. unfold liftc. apply wp_zoom. rewrite E3u. eapply wp_conseq; [by apply cl_wakeup_spec|]. intros [] u' (W1 & W2 & W3 & W4).
    split; [split; simpl; rewrite ?E3; try done; split_and!; try done; intros a _; apply W2|]. split; [simpl; by rewrite E3, A4|].
    intros _ Hw. simpl in Hw. by apply W4 in Hw as [_ ?].
  - apply orb_false_iff in Et as [Et _]. apply orb_false_iff in Et as [Et _]. apply Z.eqb_neq in Et. wp_steps.
    split; [split; rewrite ?E2; try done; [by apply A2|by rewrite E2u]|]. split; [by rewrite E2|].
    unfold cons_no_lost. rewrite E2, E2u, A1. done.
Qed.

Lemma consoleintr_spec c s :
  cons_ok (cs_cons s) -> u_panicked (cs_uart s) = false -> cl_ok (cs_u s) ->
  wp (consoleintr c) (fun _ s' => intr_post s s' /\ abs (cs_cons s') = edit c (abs (cs_cons s)) /\ (cons_no_lost s -> cons_no_lost s')) s.
Proof.
  intros Hok Hp Hu. unfold consoleintr, edit. set (k := cs_cons s) in *.
  assert (Hsame : intr_post s s) by (split; done).
  destruct (c =? Ctl 80); [by wp_steps|]. destruct (c =? Ctl 85).
  { wp_step. wp_step. eapply wp_conseq; [apply kill_line_spec; try done; unfold clen; fold k; lia|]. intros [] s' (H1 & H2 & H3).
    split_and!; [done|done|]. unfold cons_no_lost. rewrite H2, H3. done. }
  destruct ((c =? Ctl 72) || (c =? 127)).
  { wp_step. wp_step. fold k. destruct (Z.eqb_spec (c_e k) (c_w k)) as [E|Hne]; cbn [negb].
    - wp_steps. split_and!; [done| |done]. assert (El : ed_line (abs k) = []).
      { apply nil_length_inv. rewrite (proj2 (length_abs k)), E. unfold clen. by rewrite Z.sub_diag. }
      fold k. rewrite El. destruct (abs k) as [q l] eqn:Ea. simpl in *. by subst.
    - unfold oncons. wp_step. wp_step. match goal with |- wp _ _ ?x => set (s1 := x) end.
      assert (E1 : cs_cons s1 = k <| c_e := u32 (c_e k - 1) |> /\ cs_u s1 = cs_u s /\ u_panicked (cs_uart s1) = false /\ u_rx (cs_uart s1) = u_rx (cs_uart s)) by done.
      destruct E1 as (E1 & E2 & E3 & E4). clearbody s1. destruct (erase_ok k Hok Hne) as (H1 & H2 & _).
      eapply wp_conseq; [by apply consputc_spec|]. intros [] s2 (P1 & P2 & P3 & P4). rewrite E1 in P1. rewrite E2 in P2. rewrite E3 in P3.
      split; [split; rewrite ?P1, ?P2; try done; congruence|]. split; [by rewrite P1|]. unfold cons_no_lost. rewrite P1, P2, H2. done. }
  wp_step. wp_step. fold k. change (u32 (c_e k - c_r k)) with (clen (c_r k) (c_e k)). pose proof (co_len _ Hok) as Hl.
  assert (Ere : clen (c_r k) (c_e k) = clen (c_r k) (c_w k) + clen (c_w k) (c_e k)) by (unfold clen, u32 in *; lia).
  pose proof (clen_range (c_r k) (c_w k)) as Hcr. pose proof (clen_range (c_w k) (c_e k)) as Hcw. destruct (length_abs k) as [L1 L2].
  assert (Et : (clen (c_r k) (c_e k) <? INPUT_BUF_SIZE) = bool_decide (length (ed_ready (abs k)) + length (ed_line (abs k)) < 128)%nat).
  { rewrite L1, L2. unfold INPUT_BUF_SIZE. case_bool_decide; [apply Z.ltb_lt|apply Z.ltb_ge]; lia. }
  rewrite Et. destruct (negb (c =? 0) && _) eqn:Eg; [|by wp_steps]. apply andb_true_iff in Eg as [_ Eg]. rewrite <-Et in Eg. apply Z.ltb_lt in Eg.
  eapply wp_conseq; [by apply store_spec|]. intros [] s' H. exact H.
Qed.

(** ** [consoleread] *)
Definition read_res (V : Z -> Z) (addr target n : Z) (got : list Z) s (res : (Z + Z) * list Z) s' : Prop :=
  let q := ed_ready (abs (cs_cons s)) in
  let '(d, rest, b) := rline (Z.to_nat n) (negb (n =? target)) q in
  cons_ok (cs_cons s') /\ ed_line (abs (cs_cons s')) = ed_line (abs (cs_cons s)) /\ cs_uart s' = cs_uart s /\
  cl_ok (cs_u s') /\ cl_dead (cs_u s') = cl_dead (cs_u s) /\ (forall c, cl_waits (cs_u s') c <-> cl_waits (cs_u s) c) /\
  (ed_ready (abs (cs_cons s')) = rest /\ (forall x, 0 <= x < 2 ^ 64 -> cl_view (cs_u s') x = stored V addr (got ++ d) x) /\
   fst res = (if b then inl (target - n + Z.of_nat (length d)) else if cl_dead (cs_u s) then inl (-1) else inr (n - Z.of_nat (length d))) \/
   exists d1 c d2, d = d1 ++ c :: d2 /\ ed_ready (abs (cs_cons s')) = drop (S (length d1)) q /\
     (forall x, 0 <= x < 2 ^ 64 -> cl_view (cs_u s') x = stored V addr (got ++ d1) x) /\ fst res = inl (target - n + Z.of_nat (length d1))).

Lemma take_ok k : cons_ok k -> c_r k <> c_w k ->
  let k' := k <| c_r := u32 (c_r k + 1) |> in
  cons_ok k' /\ ed_line (abs k') = ed_line (abs k) /\ ed_ready (abs k) = aget (c_buf k) (c_r k mod INPUT_BUF_SIZE) :: ed_ready (abs k') /\
  k' <| c_r := u32 (c_r k' - 1) |> = k.
Proof.
  intros [H1 H2 H3 H4 H5 H6] Hne k'. pose proof (clen_range (c_w k) (c_e k)) as Hcw. assert (Hpos : 0 < clen (c_r k) (c_w k) <= 128) by (unfold clen, u32 in *; lia).
  split_and!; try done.
  - split; simpl; try done; [apply u32_range|]. unfold clen, u32 in *. lia.
  - by apply cbytes_cons.
  - destruct k as [bf r w e]. unfold k'. simpl in *. f_equal. unfold u32. lia.
Qed.

(** One character read that does not end the line, and then the rest. *)
Lemma read_res_next V addr target n got s s2 c res s3 :
  0 < n <= target -> c <> Ctl 68 -> c <> 10 -> ed_ready (abs (cs_cons s)) = c :: ed_ready (abs (cs_cons s2)) ->
  ed_line (abs (cs_cons s2)) = ed_line (abs (cs_cons s)) -> cs_uart s2 = cs_uart s -> cl_dead (cs_u s2) = cl_dead (cs_u s) ->
  (forall c', cl_waits (cs_u s2) c' <-> cl_waits (cs_u s) c') ->
  read_res V addr target (n - 1) (got ++ [c]) s2 res s3 -> read_res V addr target n got s res s3.
Proof.
  intros Hn Hd H10 Eq El Et Ed Ew Hres. unfold read_res in *. replace (Z.to_nat n) with (S (Z.to_nat (n - 1))) by lia. rewrite Eq. cbn [rline].
  rewrite (proj2 (Z.eqb_neq c (Ctl 68))), (proj2 (Z.eqb_neq c 10)) by done. rewrite (proj2 (Z.eqb_neq (n - 1) target)) in Hres by lia. cbn [negb] in Hres.
  destruct (rline (Z.to_nat (n - 1)) true (ed_ready (abs (cs_cons s2)))) as [[d rest] b]. destruct Hres as (R1 & R2 & R3 & R4 & R5 & R6 & R7).
  split_and!; try done; try congruence; [intros c'; rewrite R6; apply Ew|]. destruct R7 as [(Q1 & Q2 & Q3)|(d1 & c1 & d2 & Q1 & Q2 & Q3 & Q4)]; [left|right].
  - split_and!; [done|by rewrite <-app_assoc in Q2|]. rewrite Q3, Ed. destruct b; [simpl; f_equal; lia|]. destruct (cl_dead (cs_u s)); [done|]. simpl. f_equal. lia.
  - exists (c :: d1), c1, d2. split_and!; [by rewrite Q1|done|by rewrite <-app_assoc in Q3|]. rewrite Q4. simpl. f_equal. lia.
Qed.

Lemma consoleread_loop_spec V addr target n got out fuel s :
  cons_ok (cs_cons s) -> cl_ok (cs_u s) -> 0 <= n <= target -> 0 <= target < 2 ^ 31 -> (Z.to_nat n < fuel)%nat -> Z.of_nat (length got) = target - n ->
  (forall x, 0 <= x < 2 ^ 64 -> cl_view (cs_u s) x = stored V addr got x) ->
  wp (consoleread_loop fuel (DUser addr) target n out) (read_res V addr target n got s) s.
Proof.
  revert n got s. induction fuel as [|fuel IH]; intros n got s Hok Hu Hn Ht Hf Hg HV; [lia|]. cbn [consoleread_loop].
  destruct (Z.ltb_spec 0 n) as [Hpos|Hz].
  2:{ wp_steps. assert (n = 0) as -> by lia. unfold read_res. simpl. split_and!; try done. left. rewrite app_nil_r. split_and!; try done. f_equal. lia. }
  replace (Z.to_nat n) with (S (Z.to_nat (n - 1))) by lia. wp_step. wp_step. set (k := cs_cons s) in *.
  destruct (Z.eqb_spec (c_r k) (c_w k)) as [E|Hne].
  - assert (Eq : ed_ready (abs k) = []) by (apply nil_length_inv; rewrite (proj1 (length_abs k)), E; unfold clen; by rewrite Z.sub_diag).
    wp_step. unfold liftc. apply wp_zoom. eapply wp_conseq; [by apply cl_killed_spec|]. intros kd u' [-> Ek].
    assert (Hres : read_res V addr target n got s ((if cl_dead (cs_u s) then inl (-1) else inr n), out) s).
    { unfold read_res. fold k. rewrite Eq. replace (Z.to_nat n) with (S (Z.to_nat (n - 1))) by lia. simpl. split_and!; try done.
      left. rewrite app_nil_r. split_and!; try done. destruct (cl_dead (cs_u s)); [done|]. f_equal. lia. }
    assert (Es : s <| cs_u := cs_u s |> = s) by (by destruct s). rewrite Es, Ek. destruct (cl_dead (cs_u s)); by wp_steps.
  - destruct (take_ok k Hok Hne) as (T1 & T2 & T3 & T4). set (c := aget _ _) in *. fold c.
    unfold oncons at 1. wp_step. wp_step. match goal with |- wp _ _ ?x => set (s1 := x) end.
    assert (E1 : cs_cons s1 = k <| c_r := u32 (c_r k + 1) |>) by done. assert (E1' : cs_u s1 = cs_u s /\ cs_uart s1 = cs_uart s) by done. destruct E1' as [E1u E1t].
    clearbody s1. rewrite <-E1 in T1, T2, T3, T4. destruct (Z.eqb_spec c (Ctl 68)) as [Ec|Ec].
    + rewrite u32_id by lia. destruct (Z.ltb_spec n target) as [Hlt|Hge].
      * unfold oncons. wp_steps. match goal with |- read_res _ _ _ _ _ _ _ ?x => set (s2 := x) end. assert (E2 : cs_cons s2 = k) by exact T4.
        assert (E2' : cs_u s2 = cs_u s /\ cs_uart s2 = cs_uart s) by (split; [exact E1u|exact E1t]). destruct E2' as [E2u E2t]. clearbody s2.
        unfold read_res. fold k. replace (Z.to_nat n) with (S (Z.to_nat (n - 1))) by lia. rewrite T3. cbn [rline].
        rewrite Ec, Z.eqb_refl, (proj2 (Z.eqb_neq n target)) by lia. cbn [negb]. rewrite E2, E2u.
        split_and!; try done. left. rewrite app_nil_r. split_and!; try done; [by rewrite T3, Ec|simpl; f_equal; lia].
      * wp_steps. unfold read_res. fold k. replace (Z.to_nat n) with (S (Z.to_nat (n - 1))) by lia. rewrite T3. cbn [rline].
        rewrite Ec, Z.eqb_refl, (proj2 (Z.eqb_eq n target)) by lia. cbn [negb]. rewrite E1u. split_and!; try done. left. rewrite app_nil_r.
        split_and!; try done. simpl. f_equal. lia.
    + unfold cons_copyout. wp_step. wp_step. unfold liftc. apply wp_zoom. rewrite E1u. eapply wp_conseq; [apply cl_copyout_spec; [done|apply u64_range]|].
      intros r u' (O1 & D1 & W1 & Hr). wp_steps. match goal with |- wp _ _ ?x => set (s2 := x) end.
      assert (E2 : cs_cons s2 = cs_cons s1 /\ cs_u s2 = u' /\ cs_uart s2 = cs_uart s) by (split_and!; [done|done|exact E1t]). destruct E2 as (E2 & E2u & E2t). clearbody s2.
      destruct Hr as [[-> Vr]|[-> Vr]].
      * change (0 =? -1) with false. cbn match. 
        assert (HV2 : forall x, 0 <= x < 2 ^ 64 -> cl_view u' x = stored V addr (got ++ [c]) x).
        { intros x Hx. apply (stored_snoc V (cl_view (cs_u s)) _ addr got c x); [done|lia|by apply HV|]. rewrite Vr by lia. by rewrite Hg. }
        destruct (Z.eqb_spec c 10) as [E10|E10].
        -- wp_steps. unfold read_res. fold k. replace (Z.to_nat n) with (S (Z.to_nat (n - 1))) by lia. rewrite T3. cbn [rline].
           rewrite (proj2 (Z.eqb_neq c (Ctl 68))), (proj2 (Z.eqb_eq c 10)) by done. rewrite E2, E2u. split_and!; try done. left. split_and!; try done. simpl. f_equal. lia.
        -- eapply wp_conseq; [apply (IH (n - 1) (got ++ [c]) s2); rewrite ?E2, ?E2u; try done; try lia; rewrite length_app; simpl; lia|].
           intros res s3. apply (read_res_next V addr target n got s s2 c); rewrite ?E2, ?E2u; try done; lia.
      * change (-1 =? -1) with true. cbn match. wp_steps. unfold read_res. fold k. replace (Z.to_nat n) with (S (Z.to_nat (n - 1))) by lia. rewrite T3. cbn [rline].
        rewrite (proj2 (Z.eqb_neq c (Ctl 68))) by done. assert (Hview : forall x, 0 <= x < 2 ^ 64 -> cl_view u' x = stored V addr (got ++ []) x).
        { intros x Hx. rewrite app_nil_r, Vr by lia. by apply HV. }
        destruct (c =? 10); [|destruct (rline (Z.to_nat (n - 1)) true _) as [[d rest] b]]; rewrite E2, E2u; (split_and!; try done); right.
        -- exists [], c, []. split_and!; try done. simpl. f_equal. lia.
        -- exists [], c, d. split_and!; try done. simpl. f_equal. lia.
Qed.

(** ** Interrupts *)
Definition edit_all (ks : list Z) (e : editor) : editor := fold_left (fun e c => edit c e) ks e.

Lemma uart_receive_spec fuel s :
  cons_ok (cs_cons s) -> u_panicked (cs_uart s) = false -> cl_ok (cs_u s) -> Forall (fun c => 0 <= c) (u_rx (cs_uart s)) ->
  (length (u_rx (cs_uart s)) < fuel)%nat ->
  wp (uart_receive fuel) (fun _ s' => cons_ok (cs_cons s') /\ u_rx (cs_uart s') = [] /\ same_caller (cs_u s) (cs_u s') /\
    abs (cs_cons s') = edit_all (u_rx (cs_uart s)) (abs (cs_cons s)) /\ (cons_no_lost s -> cons_no_lost s')) s.
Proof.
  revert s. induction fuel as [|fuel IH]; intros s Hok Hp Hu Hk Hf; [lia|]. cbn [uart_receive]. wp_step. unfold uartgetc, onuart. wp_step. wp_step.
  destruct (u_rx (cs_uart s)) as [|c rest] eqn:Er.
  - wp_steps. change (-1 =? -1) with true. cbn match. wp_steps. by rewrite Er.
  - wp_steps. apply Forall_cons in Hk as [Hc Hk]. rewrite (proj2 (Z.eqb_neq c (-1))) by lia. match goal with |- wp _ _ ?x => set (s1 := x) end.
    assert (E1 : cs_cons s1 = cs_cons s /\ cs_u s1 = cs_u s /\ u_panicked (cs_uart s1) = false /\ u_rx (cs_uart s1) = rest) by done.
    destruct E1 as (E1 & E2 & E3 & E4). clearbody s1.
    wp_step. eapply wp_conseq; [apply consoleintr_spec; rewrite ?E1, ?E2; done|]. intros [] s2 ([Q1 Q2 Q3 Q4 Q5] & A2 & N2).
    rewrite E4 in Q3. rewrite E1 in A2. rewrite E2 in Q5.
    eapply wp_conseq; [apply IH; rewrite ?Q3; try done; [apply Q5|simpl in Hf; lia]|]. intros [] s3 (R1 & R2 & R3 & R4 & R5).
    split_and!; [done|done|by eapply same_trans|rewrite R4, Q3, A2; done|]. intros N. apply R5, N2. unfold cons_no_lost. by rewrite E1, E2.
Qed.

Lemma uartintr_spec s :
  cons_ok (cs_cons s) -> u_panicked (cs_uart s) = false -> cl_ok (cs_u s) -> Forall (fun c => 0 <= c) (u_rx (cs_uart s)) ->
  wp uartintr (fun _ s' => cons_ok (cs_cons s') /\ u_rx (cs_uart s') = [] /\ same_caller (cs_u s) (cs_u s') /\
    abs (cs_cons s') = edit_all (u_rx (cs_uart s)) (abs (cs_cons s)) /\ (cons_no_lost s -> cons_no_lost s')) s.
Proof.
  intros Hok Hp Hu Hk. unfold uartintr. wp_step. wp_step. wp_step.
  assert (W : wp (if u_idle (cs_uart s) then onuart (fun u => u <| u_busy := 0 |>) ;;; liftc (cl_wakeup ChUart) else ret tt)
    (fun _ s1 => cs_cons s1 = cs_cons s /\ u_panicked (cs_uart s1) = false /\ u_rx (cs_uart s1) = u_rx (cs_uart s) /\ same_caller (cs_u s) (cs_u s1) /\
      (cons_no_lost s -> cons_no_lost s1)) s).
  { destruct (u_idle (cs_uart s)); [|by wp_steps]. unfold onuart, liftc. wp_step. wp_step. apply wp_zoom. eapply wp_conseq; [by apply cl_wakeup_spec|].
    intros [] u' (W1 & W2 & W3 & W4). simpl. split; [done|split; [done|split; [done|split]]].
    { by split_and!. }
    unfold cons_no_lost. simpl. intros N Hw. apply N. by apply W4 in Hw as [? _]. }
  eapply wp_conseq; [exact W|]. intros [] s1 (E1 & E2 & E3 & E4 & N1).
  eapply wp_conseq; [apply uart_receive_spec; rewrite ?E1, ?E3; try done; [apply E4|lia]|].
  intros [] s2 (R1 & R2 & R3 & R4 & R5). rewrite E1, E3 in R4. split_and!; try done; [by eapply same_trans|auto].
Qed.

(** C13. The console is a line editor.  After an interrupt has delivered any keys, the ring buffer with its three
    wrapping indices stands for what a simple editor makes of them, in which backspace erases the last character of the line being typed, control-u
    the whole line, return and end-of-file complete it, and a full buffer of 128 completes it too; no reader is asleep
    while a completed line is there.  A read of [n] bytes then delivers to the process exactly the bytes up to the end of the first
    line, the end-of-file key or [n], and leaves the rest for the next read; it asks to sleep, or returns -1 to a killed
    process, only when the ready bytes end before that; if a store into the process fails it delivers the bytes before and loses the one at hand. *)
Theorem console_refines addr n s :
  cons_ok (cs_cons s) -> u_panicked (cs_uart s) = false -> cl_ok (cs_u s) -> Forall (fun c => 0 <= c) (u_rx (cs_uart s)) -> cons_no_lost s ->
  0 <= n < 2 ^ 31 ->
  wp uartintr (fun _ s1 =>
    let e := edit_all (u_rx (cs_uart s)) (abs (cs_cons s)) in
    abs (cs_cons s1) = e /\ cons_no_lost s1 /\
    wp (consoleread (DUser addr) n n []) (fun res s' =>
      let '(d, rest, over) := rline (Z.to_nat n) false (ed_ready e) in
      cons_ok (cs_cons s') /\ ed_line (abs (cs_cons s')) = ed_line e /\
      (ed_ready (abs (cs_cons s')) = rest /\ (forall x, 0 <= x < 2 ^ 64 -> cl_view (cs_u s') x = stored (cl_view (cs_u s1)) addr d x) /\
       fst res = (if over then inl (Z.of_nat (length d)) else if cl_dead (cs_u s1) then inl (-1) else inr (n - Z.of_nat (length d))) \/
       exists d1 c d2, d = d1 ++ c :: d2 /\ ed_ready (abs (cs_cons s')) = drop (S (length d1)) (ed_ready e) /\
         (forall x, 0 <= x < 2 ^ 64 -> cl_view (cs_u s') x = stored (cl_view (cs_u s1)) addr d1 x) /\ fst res = inl (Z.of_nat (length d1)))) s1) s.
Proof.
  intros Hok Hp Hu Hk N Hn. eapply wp_conseq; [by apply uartintr_spec|]. intros [] s1 (R1 & R2 & (R3 & _) & R4 & R5). cbv zeta.
  split_and!; [done|by apply R5|]. unfold consoleread.
  assert (Hv : forall x, 0 <= x < 2 ^ 64 -> cl_view (cs_u s1) x = stored (cl_view (cs_u s1)) addr [] x).
  { intros x Hx. unfold stored. simpl. by rewrite (proj2 (Z.ltb_ge _ _)) by apply u64_range. }
  eapply wp_conseq; [apply (consoleread_loop_spec (cl_view (cs_u s1)) addr n n [] []); done || (simpl; lia)|].
  intros res s' Hres. unfold read_res in Hres. rewrite R4, Z.eqb_refl in Hres. cbn [negb] in Hres.
  destruct (rline (Z.to_nat n) false _) as [[d rest] b]. rewrite Z.sub_diag in Hres. destruct Hres as (Q1 & Q2 & _ & _ & _ & _ & Q3). by split_and!.
Qed.
End ConsoleSpec.
