(* ===== verification/PipeDemo.v ===== *)
(** A process of the small machine writes two bytes of its memory into a new pipe. *)

From S2P Require Import CString Prelude Bytes Params Disk Riscv Kalloc Vm VmPt VmUser VmDemo Proc ProcMem ProcOps ProcIso ProcDemo Tx Fs Pipe PipeSpec ProcCaller Console ConsoleSpec.

#[local] Existing Instance vimage.
#[local] Existing Instance vimage_ok.

Definition pipe_new : pipe := Pipe (replicate 512 0) 0 0 1 1.
Definition pipe_start : pst pstate := Pst pipe_new d4.
Definition pipe_used : pst pstate := final (pipewrite 4096 16 2 0) pipe_start.

Lemma d4_ready : ready d4.
Proof.
  split; [|vm_compute; reflexivity].
  destruct (run_good 0x80001000 d0 d4 d0_booted d4_reached) as (W & l & G & H). by exists W, l, G.
Qed.

Lemma pipe_used_hist : hist 4096 (pt_pipe pipe_used) (sent (cl_view d4) 16 0 2) [].
Proof.
  assert (E : result (pipewrite 4096 16 2 0) pipe_start = Some (inl 2)) by (vm_compute; reflexivity). apply result_final in E.
  assert (Ee : final (pipewrite 4096 16 2 0) pipe_start = Pst (pt_pipe pipe_used) (pt_u pipe_used)) by (unfold pipe_used; destruct (final _ _); reflexivity).
  rewrite Ee in E. apply (hist_write 4096 pipe_new [] [] d4 16 2 0 (inl 2) (pt_pipe pipe_used) (pt_u pipe_used)).
  - apply hist_new. reflexivity.
  - exact d4_ready.
  - lia.
  - lia.
  - exact E.
Qed.

#[local] Opaque pipe_used d4.

Lemma pipe_stream_witness : queue (pt_pipe pipe_used) = [104; 105] /\ sent (cl_view d4) 16 0 2 = [104; 105].
Proof.
  assert (E : queue (pt_pipe pipe_used) = [104; 105]) by (vm_compute; reflexivity).
  destruct (pipe_stream 4096 _ _ _ pipe_used_hist) as [H _]. split; [exact E|]. rewrite H, E. reflexivity.
Defined.


(** The keys h, i, backspace, o, return at the console. *)
Definition cons_start : cst pstate :=
  Cst (Cons (replicate 128 0) 0 0 0) (MkUart 0 [] [104; 105; 127; 111; 13] true false) d4.

Lemma console_refines_witness :
  wp uartintr (fun _ s1 => abs (cs_cons s1) = Editor [104; 111; 10] [] /\
    wp (consoleread (DUser 16) 100 100 []) (fun res s' => fst res = inl 3 -> cview (cs_u s') 17 = 111) s1) cons_start.
Proof.
  assert (H1 : cons_ok (cs_cons cons_start)) by (split; simpl; [reflexivity|lia|lia|lia|vm_compute; congruence|constructor]).
  assert (H2 : cl_ok (cs_u cons_start)) by exact d4_ready.
  assert (H3 : Forall (fun c => 0 <= c) (u_rx (cs_uart cons_start))) by (simpl; repeat constructor; lia).
  assert (H4 : cons_no_lost cons_start) by (intros _; reflexivity).
  eapply wp_conseq; [exact (console_refines 16 100 cons_start H1 eq_refl H2 H3 H4 ltac:(lia))|].
  intros [] s1 (E1 & _ & W). split; [exact E1|]. eapply wp_conseq; [exact W|].
  intros res s' (_ & _ & [(_ & Hv & _)|(d1 & c & d2 & Ed & _ & _ & Er)]) Hr.
  - change (cl_view (cs_u s') 17 = 111). rewrite (Hv 17) by lia. reflexivity.
  - rewrite Er in Hr. injection Hr as Hr. apply (f_equal length) in Ed. rewrite length_app in Ed. simpl in Ed. lia.
Defined.
