(* ===== verification/File.v ===== *)
(** Open files, kernel/file.c, with the allocation of pipes, kernel/pipe.c, over the whole kernel state: the file
    system with the processes in it, the file table, the pipes and the console.

    A file pointer is the index of its entry in the table, a pipe pointer the address of the page it lives in.  [ftable.lock]
    makes each operation on the table one step.  A call that sleeps in the middle of a transfer ends in [Sleep]. *)

From S2P Require Import CString Prelude Bytes Params Disk Sleeplock Tx Fs Riscv Kalloc Vm Proc Pipe Console ProcCaller.

(** kernel/file.h:2 *)
Inductive fdtype := FD_NONE | FD_PIPE | FD_INODE | FD_DEVICE.
#[export] Instance fdtype_eq_dec : EqDecision fdtype.
Proof. solve_decision. Defined.

(** kernel/file.h:1-10 *)
Record file := File {
  fl_type : fdtype;
  fl_ref : Z;
  fl_readable : bool;
  fl_writable : bool;
  fl_pipe : Z;
  fl_ip : option nat;
  fl_off : Z;
  fl_major : Z }.
#[export] Instance eta_file : Eta file := fun f =>
  File (fl_type f) (fl_ref f) (fl_readable f) (fl_writable f) (fl_pipe f) (fl_ip f) (fl_off f) (fl_major f).

Definition file0 : file := File FD_NONE 0 false false 0 None 0 0.

(** kernel/file.h:40 *)
Definition CONSOLE : Z := 1.

(** The kernel. *)
Record kern (X : Type) := Kern {
  k_fs : fsys X pstate;
  k_file : list file;
  k_pipe : gmap Z pipe;
  k_cons : cons;
  k_uart : uart;
  k_ticks : Z }.
Arguments Kern {X}.
Arguments k_fs {X}.
Arguments k_file {X}.
Arguments k_pipe {X}.
Arguments k_cons {X}.
Arguments k_uart {X}.
Arguments k_ticks {X}.
#[export] Instance eta_kern {X} : Eta (kern X) := fun s => Kern (k_fs s) (k_file s) (k_pipe s) (k_cons s) (k_uart s) (k_ticks s).

(** [safestrcpy(p->name, src, sizeof(p->name))]: the name lies at 0 and the source behind it. *)
Definition copy_name (name src : list Z) : list Z :=
  let m : bmem := fun a => if a <? 16 then aget name a else aget src (a - 16) in
  map (safestrcpy m 0 16 16) (seqZ 0 16).

Section File.
Context `{IM : Image} {X : Type} `{TO : TxOps X}.
Implicit Types s : kern X.

(** The parts of the kernel. *)
Definition onfs {A} (m : M (fsys X pstate) A) : M (kern X) A := zoom k_fs (fun f s => s <| k_fs := f |>) m.
Definition onps {A} (m : M pstate A) : M (kern X) A := onfs (liftum m).
Definition onmem {A} (m : M kmem A) : M (kern X) A := onps (liftmem m).
Definition ontx {A} (m : M X A) : M (kern X) A := onfs (lifttx m).
Definition onpi {A} (pi : Z) (m : M (pst pstate) A) : M (kern X) A :=
  let* s := get in
  match k_pipe s !! pi with
  | None => undef "pipe"
  | Some p =>
      zoom (fun s => Pst p (f_um (k_fs s)))
        (fun t s => s <| k_fs := k_fs s <| f_um := pt_u t |> |> <| k_pipe := <[pi := pt_pipe t]> (k_pipe s) |>) m
  end.
Definition oncs {A} (m : M (cst pstate) A) : M (kern X) A :=
  zoom (fun s => Cst (k_cons s) (k_uart s) (f_um (k_fs s)))
    (fun t s => s <| k_cons := cs_cons t |> <| k_uart := cs_uart t |> <| k_fs := k_fs s <| f_um := cs_u t |> |>) m.

Definition kps s : pstate := f_um (k_fs s).
Definition curproc s : proc := procat (kps s) (ps_cur (kps s)).
Definition setcur (f : proc -> proc) : M (kern X) unit := onps (let* p := get in modify (setproc (ps_cur p) f)).

Definition fileat s (f : nat) : file := nth f (k_file s) file0.
Definition setfile (f : nat) (g : file -> file) s : kern X := s <| k_file := <[f := g (fileat s f)]> (k_file s) |>.

(** The search of [filealloc], kernel/file.c:35-41. *)
Fixpoint find_free (l : list file) (i : nat) : option nat :=
  match l with
  | [] => None
  | f :: l' => if fl_ref f =? 0 then Some i else find_free l' (S i)
  end.

(** kernel/file.c:29-44 *)
Definition filealloc : M (kern X) (option nat) :=
  let* s := get in
  match find_free (k_file s) 0 with
  | Some i => modify (setfile i (fun f => f <| fl_ref := 1 |>)) ;;; ret (Some i)
  | None => ret None
  end.

(** kernel/file.c:47-56 *)
Definition filedup (f : nat) : M (kern X) nat :=
  let* s := get in
  if fl_ref (fileat s f) <? 1 then panic "filedup"
  else modify (setfile f (fun f => f <| fl_ref := fl_ref f + 1 |>)) ;;; ret f.

(** The end of [pipeclose], kernel/pipe.c:69-73: the page of a pipe closed at both ends is freed. *)
Definition kpipeclose (pi : Z) (writable : bool) : M (kern X) unit :=
  let* b := onpi pi (pipeclose pi writable) in
  if b then modify (fun s => s <| k_pipe := delete pi (k_pipe s) |>) ;;; onmem (kfree pi) else ret tt.

(** kernel/file.c:59-83 *)
Definition fileclose (f : nat) : M (kern X) unit :=
  let* s := get in
  if fl_ref (fileat s f) <? 1 then panic "fileclose"
  else
    modify (setfile f (fun f => f <| fl_ref := fl_ref f - 1 |>)) ;;;
    let* s := get in
    if 0 <? fl_ref (fileat s f) then ret tt
    else
      let ff := fileat s f in
      modify (setfile f (fun f => f <| fl_ref := 0 |> <| fl_type := FD_NONE |>)) ;;;
      match fl_type ff with
      | FD_PIPE => kpipeclose (fl_pipe ff) (fl_writable ff)
      | FD_INODE | FD_DEVICE =>
          match fl_ip ff with
          | Some ip => ontx tx_begin_op ;;; onfs (iput ip) ;;; ontx tx_end_op
          | None => undef "ip"
          end
      | FD_NONE => ret tt
      end.

(** [struct stat] as it is copied to user memory: the padding before the size is not defined by the source and is given as zero. *)
Definition stat_bytes (st : stat) : list Z :=
  le_bytes 4 (st_dev st) ++ le_bytes 4 (st_ino st) ++ le_bytes 2 (st_type st) ++ le_bytes 2 (st_nlink st) ++ le_bytes 4 0 ++ le_bytes 8 (st_size st).

(** kernel/file.c:87-102 *)
Definition filestat (f : nat) (addr : Z) : M (kern X) Z :=
  let* s := get in
  let ff := fileat s f in
  match fl_type ff with
  | FD_INODE | FD_DEVICE =>
      match fl_ip ff with
      | None => undef "ip"
      | Some ip =>
          onfs (ilock (Some ip)) ;;;
          let* st := onfs (stati ip) in
          onfs (iunlock (Some ip)) ;;;
          let* r := onps (um_copyout addr (stat_bytes st)) in
          if r <? 0 then ret (-1) else ret 0
      end
  | _ => ret (-1)
  end.

(** kernel/file.c:106-130 *)
Definition fileread (f : nat) (addr n : Z) : M (kern X) Z :=
  let* s := get in
  let ff := fileat s f in
  if negb (fl_readable ff) then ret (-1)
  else match fl_type ff with
  | FD_PIPE => onpi (fl_pipe ff) (piperead (fl_pipe ff) addr n)
  | FD_DEVICE =>
      if (fl_major ff <? 0) || (NDEV <=? fl_major ff) || negb (fl_major ff =? CONSOLE) then ret (-1)
      else
        let* r := oncs (consoleread (DUser addr) n n []) in
        match fst r with inl v => ret v | inr _ => sleepon ChCons end
  | FD_INODE =>
      match fl_ip ff with
      | None => undef "ip"
      | Some ip =>
          onfs (ilock (Some ip)) ;;;
          let* r := onfs (readi ip (DUser addr) (fl_off ff) (u32 n)) in
          (if 0 <? fst r then modify (setfile f (fun f => f <| fl_off := u32 (fl_off f + fst r) |>)) else ret tt) ;;;
          onfs (iunlock (Some ip)) ;;;
          ret (fst r)
      end
  | FD_NONE => panic "fileread"
  end.

(** The loop of [filewrite] for an inode, kernel/file.c:151-171: the count [i]. *)
Fixpoint filewrite_loop (fuel : nat) (f ip : nat) (addr n i : Z) : M (kern X) Z :=
  match fuel with
  | O => nofuel
  | S fuel' =>
      if i <? n then
        let max := ((MAXOPBLOCKS - 1 - 1 - 2) / 2) * BSIZE in
        let n1 := if max <? n - i then max else n - i in
        ontx tx_begin_op ;;;
        onfs (ilock (Some ip)) ;;;
        let* s := get in
        let* r := onfs (writei ip (SUser (u64 (addr + i))) (fl_off (fileat s f)) n1) in
        (if 0 <? r then modify (setfile f (fun f => f <| fl_off := u32 (fl_off f + r) |>)) else ret tt) ;;;
        onfs (iunlock (Some ip)) ;;;
        ontx tx_end_op ;;;
        if negb (r =? n1) then ret i else filewrite_loop fuel' f ip addr n (i + r)
      else ret i
  end.

(** kernel/file.c:134-179 *)
Definition filewrite (f : nat) (addr n : Z) : M (kern X) Z :=
  let* s := get in
  let ff := fileat s f in
  if negb (fl_writable ff) then ret (-1)
  else match fl_type ff with
  | FD_PIPE =>
      let* r := onpi (fl_pipe ff) (pipewrite (fl_pipe ff) addr n 0) in
      match r with inl v => ret v | inr _ => sleepon (ChPipeWrite (fl_pipe ff)) end
  | FD_DEVICE =>
      if (fl_major ff <? 0) || (NDEV <=? fl_major ff) || negb (fl_major ff =? CONSOLE) then ret (-1)
      else
        let* r := oncs (consolewrite (S (S (Z.to_nat (2 * n)))) (SUser addr) n (CwLoop 0)) in
        match r with inl v => ret v | inr _ => sleepon ChUart end
  | FD_INODE =>
      match fl_ip ff with
      | None => undef "ip"
      | Some ip =>
          let* i := filewrite_loop (S (Z.to_nat n)) f ip addr n 0 in
          ret (if i =? n then n else -1)
      end
  | FD_NONE => panic "filewrite"
  end.

(** The failure path of [pipealloc], kernel/pipe.c:48-55. *)
Definition pipealloc_bad (pi : Z) (f0 f1 : option nat) : M (kern X) (option (nat * nat)) :=
  (if negb (pi =? 0) then onmem (kfree pi) else ret tt) ;;;
  (match f0 with Some f => fileclose f | None => ret tt end) ;;;
  (match f1 with Some f => fileclose f | None => ret tt end) ;;;
  ret None.

(** kernel/pipe.c:22-56; the data of a new pipe is what [kalloc] leaves in the page. *)
Definition pipealloc : M (kern X) (option (nat * nat)) :=
  let* f0 := filealloc in
  match f0 with
  | None => pipealloc_bad 0 None None
  | Some a =>
      let* f1 := filealloc in
      match f1 with
      | None => pipealloc_bad 0 f0 None
      | Some b =>
          let* pi := onmem kalloc in
          if pi =? 0 then pipealloc_bad 0 f0 f1
          else
            modify (fun s => s <| k_pipe := <[pi := Pipe (replicate (Z.to_nat PIPESIZE) 5) 0 0 1 1]> (k_pipe s) |>) ;;;
            modify (setfile a (fun f => f <| fl_type := FD_PIPE |> <| fl_readable := true |> <| fl_writable := false |> <| fl_pipe := pi |>)) ;;;
            modify (setfile b (fun f => f <| fl_type := FD_PIPE |> <| fl_readable := false |> <| fl_writable := true |> <| fl_pipe := pi |>)) ;;;
            ret (Some (a, b))
      end
  end.

(** ** The parts of kernel/proc.c that use files *)
Variable forkret : Z.

(** The loop of [kfork] over the open files, kernel/proc.c:282-285. *)
Definition fork_files (cur np : nat) : M (kern X) unit :=
  each (fun i =>
    let* s := get in
    match nth (Z.to_nat i) (p_ofile (procat (kps s) cur)) None with
    | None => ret tt
    | Some f =>
        let* g := filedup f in
        onps (modify (setproc np (fun p => p <| p_ofile := <[Z.to_nat i := Some g]> (p_ofile p) |>)))
    end) 0 (Z.to_nat NOFILE).

(** kernel/proc.c:256-302 *)
Definition kfork : M (kern X) Z :=
  let* s := get in
  let cur := ps_cur (kps s) in
  let* r := onps (fork_mem forkret) in
  match r with
  | None => ret (-1)
  | Some np =>
      fork_files cur np ;;;
      let* s := get in
      match p_cwd (procat (kps s) cur) with
      | None => undef "cwd"
      | Some cwd =>
          let* c := onfs (idup cwd) in
          onps (modify (setproc np (fun p => p <| p_cwd := Some c |>))) ;;;
          onps (modify (setproc np (fun p => p <| p_name := copy_name (p_name p) (p_name (procat (kps s) cur)) |>))) ;;;
          let* s := get in
          let pid := p_pid (procat (kps s) np) in
          onps (modify (setproc np (fun p => p <| p_parent := Some cur |>))) ;;;
          onps (modify (setproc np (fun p => p <| p_state := RUNNABLE |>))) ;;;
          ret pid
      end
  end.

(** The loop of [kexit] over the open files, kernel/proc.c:331-337. *)
Definition exit_files (cur : nat) : M (kern X) unit :=
  each (fun fd =>
    let* s := get in
    match nth (Z.to_nat fd) (p_ofile (procat (kps s) cur)) None with
    | None => ret tt
    | Some f =>
        fileclose f ;;;
        onps (modify (setproc cur (fun p => p <| p_ofile := <[Z.to_nat fd := None]> (p_ofile p) |>)))
    end) 0 (Z.to_nat NOFILE).

(** kernel/proc.c:320-363, up to the switch to the scheduler. *)
Definition kexit (status : Z) : M (kern X) unit :=
  let* s := get in
  let cur := ps_cur (kps s) in
  if decide (ps_initproc (kps s) = Some cur) then panic "init exiting"
  else
    exit_files cur ;;;
    ontx tx_begin_op ;;;
    let* s := get in
    (match p_cwd (procat (kps s) cur) with Some cwd => onfs (iput cwd) | None => undef "cwd" end) ;;;
    ontx tx_end_op ;;;
    onps (modify (setproc cur (fun p => p <| p_cwd := None |>))) ;;;
    onps (exit_zombie status).

(** kernel/proc.c:219-231; [allocproc] does not fail at boot. *)
Definition userinit : M (kern X) unit :=
  let* r := onps (allocproc forkret) in
  match r with
  | None => undef "allocproc"
  | Some p =>
      onps (modify (fun u => u <| ps_initproc := Some p |>)) ;;;
      let* ip := onfs (namei 0 [SLASH]) in
      onps (modify (setproc p (fun q => q <| p_cwd := ip |>))) ;;;
      onps (modify (setproc p (fun q => q <| p_state := RUNNABLE |>)))
  end.
End File.
