(* ===== verification/Syscall.v ===== *)
(** Entering the kernel: the arguments of system calls, kernel/syscall.c, and loading a program,
    kernel/exec.c, over the kernel state of File.v. *)

From S2P Require Import CString Prelude Bytes Params Disk Sleeplock Tx Fs Riscv Kalloc Vm Proc Pipe Console ProcCaller File.

(** The bytes of a string up to its NUL. *)
Fixpoint cstr (l : list Z) : list Z :=
  match l with
  | [] => []
  | c :: l' => if c =? 0 then [] else c :: cstr l'
  end.

(** kernel/elf.h:3 *)
Definition ELF_MAGIC : Z := 0x464C457F.
(** kernel/elf.h:37 *)
Definition ELF_PROG_LOAD : Z := 1.

(** kernel/elf.h:5-22, the fields [kexec] uses. *)
Record elfhdr := Elfhdr { e_magic : Z; e_entry : Z; e_phoff : Z; e_phnum : Z }.
Definition get_elfhdr (b : list Z) : elfhdr := Elfhdr (get32 b 0) (get64 b 24) (get64 b 32) (get16 b 56).
Definition ELFHDR_SIZE : Z := 64.

(** kernel/elf.h:24-34, the fields [kexec] uses. *)
Record proghdr := Proghdr { ph_type : Z; ph_flags : Z; ph_off : Z; ph_vaddr : Z; ph_filesz : Z; ph_memsz : Z }.
Definition get_proghdr (b : list Z) : proghdr := Proghdr (get32 b 0) (get32 b 4) (get64 b 8) (get64 b 16) (get64 b 32) (get64 b 40).
Definition PROGHDR_SIZE : Z := 56.

(** Offsets in [struct trapframe], kernel/proc.h:43-80 *)
Definition TF_EPC : Z := 24.
Definition TF_SP : Z := 48.
Definition TF_A1 : Z := 120.
Definition TF_A7 : Z := 168.

(** kernel/exec.c:13-21 *)
Definition flags2perm (flags : Z) : Z :=
  let perm := if negb (Z.land flags 1 =? 0) then PTE_X else 0 in
  if negb (Z.land flags 2 =? 0) then Z.lor perm PTE_W else perm.

(** The last element of a path, kernel/exec.c:125-127. *)
Fixpoint last_elem (s last : list Z) : list Z :=
  match s with
  | [] => last
  | c :: s' => if c =? 0 then last else last_elem s' (if c =? SLASH then s' else last)
  end.

Section Syscall.
Context `{IM : Image} {X : Type} `{TO : TxOps X}.
Implicit Types s : kern X.

(** ** Arguments *)

(** kernel/syscall.c:11-20 *)
Definition fetchaddr (addr : Z) : M (kern X) (option Z) :=
  let* s := get in
  let sz := p_sz (curproc s) in
  if (sz <=? addr) || (sz <? u64 (addr + 8)) then ret None
  else
    let* r := onps (um_copyin addr 8) in
    if negb (snd r =? 0) then ret None else ret (Some (le_val (fst r))).

(** kernel/syscall.c:24-31: the string, whose length is the result. *)
Definition fetchstr (addr max : Z) : M (kern X) (option (list Z)) :=
  let* s := get in
  let* r := onmem (copyinstr (p_pagetable (curproc s)) addr max) in
  if snd r <? 0 then ret None else ret (Some (cstr (fst r))).

(** kernel/syscall.c:33-53 *)
Definition argraw (n : Z) : M (kern X) Z :=
  let* s := get in
  if (0 <=? n) && (n <=? 5) then ret (get64 (km_pages (ps_mem (kps s)) (p_trapframe (curproc s))) (TF_A0 + 8 * n))
  else panic "argraw".

(** kernel/syscall.c:56-60 *)
Definition argint (n : Z) : M (kern X) Z := let* v := argraw n in ret (s32 v).

(** kernel/syscall.c:65-69 *)
Definition argaddr (n : Z) : M (kern X) Z := argraw n.

(** kernel/syscall.c:74-80 *)
Definition argstr (n max : Z) : M (kern X) (option (list Z)) :=
  let* addr := argaddr n in
  fetchstr addr max.

(** The working directory of the running process. *)
Definition cwd : M (kern X) nat :=
  let* s := get in
  match p_cwd (curproc s) with Some c => ret c | None => undef "cwd" end.
Definition namei_ (path : list Z) : M (kern X) (option nat) := let* c := cwd in onfs (namei c path).
Definition nameiparent_ (path : list Z) : M (kern X) (option nat * list Z) :=
  let* c := cwd in onfs (nameiparent c path (replicate (Z.to_nat DIRSIZ) 0)).

(** ** [exec] *)

(** kernel/exec.c:154-173 *)
Fixpoint loadseg (fuel : nat) (pagetable va : Z) (ip : nat) (offset sz i : Z) : M (kern X) Z :=
  match fuel with
  | O => nofuel
  | S fuel' =>
      if i <? sz then
        let* pa := onmem (walkaddr pagetable (u64 (va + i))) in
        if pa =? 0 then panic "loadseg: address should exist"
        else
          let n := if sz - i <? PGSIZE then sz - i else PGSIZE in
          let* r := onfs (readi ip DKernel (u32 (offset + i)) n) in
          onmem (stbytes pa (snd r)) ;;;
          if negb (u32 (fst r) =? n) then ret (-1) else loadseg fuel' pagetable va ip offset sz (u32 (i + PGSIZE))
      else ret 0
  end.

(** The failure path of [kexec], kernel/exec.c:140-147. *)
Definition exec_bad (pagetable sz : Z) (ip : option nat) : M (kern X) Z :=
  (if negb (pagetable =? 0) then onmem (proc_freepagetable pagetable sz) else ret tt) ;;;
  match ip with
  | Some ip => onfs (iunlockput ip) ;;; ontx tx_end_op ;;; ret (-1)
  | None => ret (-1)
  end.

(** The loop of [kexec] over the program headers, kernel/exec.c:59-76: the size, and whether it failed. *)
Fixpoint exec_load (n : nat) (pagetable : Z) (ip : nat) (off sz : Z) : M (kern X) (Z * bool) :=
  match n with
  | O => ret (sz, true)
  | S n' =>
      let* r := onfs (readi ip DKernel (u32 off) PROGHDR_SIZE) in
      let ph := get_proghdr (snd r) in
      if negb (fst r =? PROGHDR_SIZE) then ret (sz, false)
      else if negb (ph_type ph =? ELF_PROG_LOAD) then exec_load n' pagetable ip (s32 (off + PROGHDR_SIZE)) sz
      else if ph_memsz ph <? ph_filesz ph then ret (sz, false)
      else if u64 (ph_vaddr ph + ph_memsz ph) <? ph_vaddr ph then ret (sz, false)
      else if negb (ph_vaddr ph mod PGSIZE =? 0) then ret (sz, false)
      else
        let* sz1 := onmem (uvmalloc pagetable sz (u64 (ph_vaddr ph + ph_memsz ph)) (flags2perm (ph_flags ph))) in
        if sz1 =? 0 then ret (sz, false)
        else
          let* l := loadseg (S (Z.to_nat (u32 (ph_filesz ph) / PGSIZE + 1))) pagetable (ph_vaddr ph) ip (u32 (ph_off ph)) (u32 (ph_filesz ph)) 0 in
          if l <? 0 then ret (sz1, false) else exec_load n' pagetable ip (s32 (off + PROGHDR_SIZE)) sz1
  end.

(** The running process as [vmfault] sees it. *)
Definition vproc_ s : vproc := Vproc (p_sz (curproc s)) (p_pagetable (curproc s)).

(** The loop of [kexec] that pushes the argument strings, kernel/exec.c:98-108: the stack pointer and the addresses, or failure. *)
Fixpoint exec_args (pagetable stackbase : Z) (argv : list (list Z)) (argc sp : Z) (ustack : list Z) : M (kern X) (option (Z * list Z)) :=
  match argv with
  | [] => ret (Some (sp, ustack))
  | a :: argv' =>
      if MAXARG <=? argc then ret None
      else
        let sp := u64 (sp - (Z.of_nat (length a) + 1)) in
        let sp := u64 (sp - sp mod 16) in
        if sp <? stackbase then ret None
        else
          let* s := get in
          let* r := onmem (copyout (vproc_ s) pagetable sp (a ++ [0])) in
          if r <? 0 then ret None else exec_args pagetable stackbase argv' (argc + 1) sp (ustack ++ [sp])
  end.

(** The end of [kexec], kernel/exec.c:119-138. *)
Definition exec_commit (path : list Z) (pagetable sz sp argc entry oldsz : Z) : M (kern X) Z :=
  let* s := get in
  let tf := p_trapframe (curproc s) in
  onmem (st64 (tf + TF_A1) sp) ;;;
  setcur (fun p => p <| p_name := copy_name (p_name p) (last_elem path path) |>) ;;;
  let oldpagetable := p_pagetable (curproc s) in
  setcur (fun p => p <| p_pagetable := pagetable |> <| p_sz := sz |>) ;;;
  onmem (st64 (tf + TF_EPC) entry) ;;;
  onmem (st64 (tf + TF_SP) sp) ;;;
  onmem (proc_freepagetable oldpagetable oldsz) ;;;
  ret argc.

(** The stack of the new image, kernel/exec.c:81-117, then [exec_commit]. *)
Definition exec_stack (path : list Z) (argv : list (list Z)) (pagetable sz entry : Z) : M (kern X) Z :=
  let* s := get in
  let oldsz := p_sz (curproc s) in
  let sz := PGROUNDUP sz in
  let* sz1 := onmem (uvmalloc pagetable sz (u64 (sz + (USERSTACK + 1) * PGSIZE)) PTE_W) in
  if sz1 =? 0 then exec_bad pagetable sz None
  else
    onmem (uvmclear pagetable (u64 (sz1 - (USERSTACK + 1) * PGSIZE))) ;;;
    let stackbase := u64 (sz1 - USERSTACK * PGSIZE) in
    let* r := exec_args pagetable stackbase argv 0 sz1 [] in
    match r with
    | None => exec_bad pagetable sz1 None
    | Some (sp, ustack) =>
        let argc := Z.of_nat (length argv) in
        let sp := u64 (sp - (argc + 1) * 8) in
        let sp := u64 (sp - sp mod 16) in
        if sp <? stackbase then exec_bad pagetable sz1 None
        else
          let* s := get in
          let* r := onmem (copyout (vproc_ s) pagetable sp (concat (map (le_bytes 8) (ustack ++ [0])))) in
          if r <? 0 then exec_bad pagetable sz1 None
          else exec_commit path pagetable sz1 sp argc entry oldsz
    end.

(** kernel/exec.c:26-148 *)
Definition kexec (path : list Z) (argv : list (list Z)) : M (kern X) Z :=
  ontx tx_begin_op ;;;
  let* ip := namei_ path in
  match ip with
  | None => ontx tx_end_op ;;; ret (-1)
  | Some ip =>
      onfs (ilock (Some ip)) ;;;
      let* r := onfs (readi ip DKernel 0 ELFHDR_SIZE) in
      let elf := get_elfhdr (snd r) in
      if negb (fst r =? ELFHDR_SIZE) then exec_bad 0 0 (Some ip)
      else if negb (e_magic elf =? ELF_MAGIC) then exec_bad 0 0 (Some ip)
      else
        let* s := get in
        let* pagetable := onmem (proc_pagetable (p_trapframe (curproc s))) in
        if pagetable =? 0 then exec_bad 0 0 (Some ip)
        else
          let* '(sz, ok) := exec_load (Z.to_nat (e_phnum elf)) pagetable ip (s32 (e_phoff elf)) 0 in
          if negb ok then exec_bad pagetable sz (Some ip)
          else
            onfs (iunlockput ip) ;;;
            ontx tx_end_op ;;;
            exec_stack path argv pagetable sz (e_entry elf)
  end.
End Syscall.
