(* ===== verification/Sysfile.v ===== *)
(** The system calls on files, kernel/sysfile.c.  A call gives the value the trap handler puts in [a0]. *)

From S2P Require Import CString Prelude Bytes Params Disk Sleeplock Tx Fs Riscv Kalloc Vm Proc Pipe Console ProcCaller File Syscall.

(** ["."] and [".."]. *)
Definition DOT : list Z := [46].
Definition DOTDOT : list Z := [46; 46].

Section Sysfile.
Context `{IM : Image} {X : Type} `{TO : TxOps X}.
Implicit Types s : kern X.

Definition inode_ (ip : nat) : M (kern X) inode := gets (fun s => inoat (k_fs s) ip).
Definition setino_ (ip : nat) (f : inode -> inode) : M (kern X) unit := onfs (modify (setino ip f)).
Definition setofile (fd : Z) (f : option nat) : M (kern X) unit :=
  setcur (fun p => p <| p_ofile := <[Z.to_nat fd := f]> (p_ofile p) |>).

(** kernel/sysfile.c:21-35: the descriptor and the file. *)
Definition argfd (n : Z) : M (kern X) (option (Z * nat)) :=
  let* fd := argint n in
  if (fd <? 0) || (NOFILE <=? fd) then ret None
  else
    let* s := get in
    match nth (Z.to_nat fd) (p_ofile (curproc s)) None with
    | None => ret None
    | Some f => ret (Some (fd, f))
    end.

(** kernel/sysfile.c:39-52 *)
Definition fdalloc (f : nat) : M (kern X) Z :=
  let* r := floop (fun fd =>
    let* s := get in
    match nth (Z.to_nat fd) (p_ofile (curproc s)) None with
    | None => setofile fd (Some f) ;;; ret (Some fd)
    | Some _ => ret None
    end) 0 (Z.to_nat NOFILE) in
  ret (match r with Some fd => fd | None => -1 end).

(** kernel/sysfile.c:54-66 *)
Definition sys_dup : M (kern X) Z :=
  let* r := argfd 0 in
  match r with
  | None => ret (-1)
  | Some (_, f) =>
      let* fd := fdalloc f in
      if fd <? 0 then ret (-1) else filedup f ;;; ret fd
  end.

(** kernel/sysfile.c:68-80 *)
Definition sys_read : M (kern X) Z :=
  let* p := argaddr 1 in
  let* n := argint 2 in
  let* r := argfd 0 in
  match r with
  | None => ret (-1)
  | Some (_, f) => fileread f p n
  end.

(** kernel/sysfile.c:82-95 *)
Definition sys_write : M (kern X) Z :=
  let* p := argaddr 1 in
  let* n := argint 2 in
  let* r := argfd 0 in
  match r with
  | None => ret (-1)
  | Some (_, f) => filewrite f p n
  end.

(** kernel/sysfile.c:97-108 *)
Definition sys_close : M (kern X) Z :=
  let* r := argfd 0 in
  match r with
  | None => ret (-1)
  | Some (fd, f) => setofile fd None ;;; fileclose f ;;; ret 0
  end.

(** kernel/sysfile.c:110-120 *)
Definition sys_fstat : M (kern X) Z :=
  let* st := argaddr 1 in
  let* r := argfd 0 in
  match r with
  | None => ret (-1)
  | Some (_, f) => filestat f st
  end.

(** The failure path of [sys_link], kernel/sysfile.c:163-169. *)
Definition link_bad (ip : nat) : M (kern X) Z :=
  onfs (ilock (Some ip)) ;;;
  setino_ ip (fun i => i <| i_nlink := s16 (i_nlink i - 1) |>) ;;;
  onfs (iupdate ip) ;;;
  onfs (iunlockput ip) ;;;
  ontx tx_end_op ;;;
  ret (-1).

(** The second half of [sys_link], kernel/sysfile.c:149-161: the new entry for [ip]. *)
Definition link_entry (ip : nat) (new : list Z) : M (kern X) Z :=
  let* '(dp, name) := nameiparent_ new in
  match dp with
  | None => link_bad ip
  | Some dp =>
      onfs (ilock (Some dp)) ;;;
      let* d := inode_ dp in
      let* i := inode_ ip in
      let* r := (if negb (i_dev d =? i_dev i) then ret (-1) else onfs (dirlink dp name (i_inum i))) in
      if r <? 0 then onfs (iunlockput dp) ;;; link_bad ip
      else
        onfs (iunlockput dp) ;;;
        onfs (iput ip) ;;;
        ontx tx_end_op ;;;
        ret 0
  end.

(** kernel/sysfile.c:123-170 *)
Definition sys_link : M (kern X) Z :=
  let* old := argstr 0 MAXPATH in
  match old with
  | None => ret (-1)
  | Some old =>
      let* new := argstr 1 MAXPATH in
      match new with
      | None => ret (-1)
      | Some new =>
          ontx tx_begin_op ;;;
          let* ip := namei_ old in
          match ip with
          | None => ontx tx_end_op ;;; ret (-1)
          | Some ip =>
              onfs (ilock (Some ip)) ;;;
              let* i := inode_ ip in
              if i_type i =? T_DIR then onfs (iunlockput ip) ;;; ontx tx_end_op ;;; ret (-1)
              else
                setino_ ip (fun i => i <| i_nlink := s16 (i_nlink i + 1) |>) ;;;
                onfs (iupdate ip) ;;;
                onfs (iunlock (Some ip)) ;;;
                link_entry ip new
          end
      end
  end.

(** The loop of [isdirempty], kernel/sysfile.c:179-184. *)
Fixpoint isdirempty_loop (fuel : nat) (dp : nat) (off : Z) : M (kern X) bool :=
  match fuel with
  | O => nofuel
  | S fuel' =>
      let* i := inode_ dp in
      if off <? i_size i then
        let* r := onfs (readi dp DKernel off DIRENT_SIZE) in
        if negb (fst r =? DIRENT_SIZE) then panic "isdirempty: readi"
        else if negb (de_inum (snd r) =? 0) then ret false
        else isdirempty_loop fuel' dp (off + DIRENT_SIZE)
      else ret true
  end.

(** kernel/sysfile.c:173-186 *)
Definition isdirempty (dp : nat) : M (kern X) bool :=
  let* i := inode_ dp in
  isdirempty_loop (S (Z.to_nat (i_size i / DIRENT_SIZE))) dp (2 * DIRENT_SIZE).

(** The failure path of [sys_unlink], kernel/sysfile.c:239-242. *)
Definition unlink_bad (dp : nat) : M (kern X) Z :=
  onfs (iunlockput dp) ;;;
  ontx tx_end_op ;;;
  ret (-1).

(** The removal in [sys_unlink], kernel/sysfile.c:213-237: the entry of [ip] at [off] in [dp]. *)
Definition unlink_entry (dp ip : nat) (off : Z) : M (kern X) Z :=
  onfs (ilock (Some ip)) ;;;
  let* i := inode_ ip in
  if i_nlink i <? 1 then panic "unlink: nlink < 1"
  else
    let* e := (if i_type i =? T_DIR then isdirempty ip else ret true) in
    if negb e then onfs (iunlockput ip) ;;; unlink_bad dp
    else
      let* r := onfs (writei dp (SKernel (replicate (Z.to_nat DIRENT_SIZE) 0)) off DIRENT_SIZE) in
      if negb (r =? DIRENT_SIZE) then panic "unlink: writei"
      else
        let* i := inode_ ip in
        (if i_type i =? T_DIR then
           setino_ dp (fun i => i <| i_nlink := s16 (i_nlink i - 1) |>) ;;;
           onfs (iupdate dp)
         else ret tt) ;;;
        onfs (iunlockput dp) ;;;
        setino_ ip (fun i => i <| i_nlink := s16 (i_nlink i - 1) |>) ;;;
        onfs (iupdate ip) ;;;
        onfs (iunlockput ip) ;;;
        ontx tx_end_op ;;;
        ret 0.

(** kernel/sysfile.c:188-243 *)
Definition sys_unlink : M (kern X) Z :=
  let* path := argstr 0 MAXPATH in
  match path with
  | None => ret (-1)
  | Some path =>
      ontx tx_begin_op ;;;
      let* '(dp, name) := nameiparent_ path in
      match dp with
      | None => ontx tx_end_op ;;; ret (-1)
      | Some dp =>
          onfs (ilock (Some dp)) ;;;
          if (namecmp name DOT =? 0) || (namecmp name DOTDOT =? 0) then unlink_bad dp
          else
            let* r := onfs (dirlookup dp name) in
            match r with
            | None => unlink_bad dp
            | Some (ip, off) => unlink_entry dp ip off
            end
      end
  end.

(** The failure path of [create], kernel/sysfile.c:295-301. *)
Definition create_fail (dp ip : nat) : M (kern X) (option nat) :=
  setino_ ip (fun i => i <| i_nlink := 0 |>) ;;;
  onfs (iupdate ip) ;;;
  onfs (iunlockput ip) ;;;
  onfs (iunlockput dp) ;;;
  ret None.

(** The entries of a new inode, kernel/sysfile.c:276-293. *)
Definition create_links (dp ip : nat) (name : list Z) (type : Z) : M (kern X) (option nat) :=
  let* i := inode_ ip in
  let* d := inode_ dp in
  let* r := (if type =? T_DIR then
               let* r := onfs (dirlink ip DOT (i_inum i)) in
               if r <? 0 then ret r else onfs (dirlink ip DOTDOT (i_inum d))
             else ret 0) in
  if r <? 0 then create_fail dp ip
  else
    let* r := onfs (dirlink dp name (i_inum i)) in
    if r <? 0 then create_fail dp ip
    else
      (if type =? T_DIR then
         setino_ dp (fun i => i <| i_nlink := s16 (i_nlink i + 1) |>) ;;;
         onfs (iupdate dp)
       else ret tt) ;;;
      onfs (iunlockput dp) ;;;
      ret (Some ip).

(** kernel/sysfile.c:245-302 *)
Definition create (path : list Z) (type major minor : Z) : M (kern X) (option nat) :=
  let* '(dp, name) := nameiparent_ path in
  match dp with
  | None => ret None
  | Some dp =>
      onfs (ilock (Some dp)) ;;;
      let* r := onfs (dirlookup dp name) in
      match r with
      | Some (ip, _) =>
          onfs (iunlockput dp) ;;;
          onfs (ilock (Some ip)) ;;;
          let* i := inode_ ip in
          if (type =? T_FILE) && ((i_type i =? T_FILE) || (i_type i =? T_DEVICE)) then ret (Some ip)
          else onfs (iunlockput ip) ;;; ret None
      | None =>
          let* d := inode_ dp in
          let* ip := onfs (ialloc (i_dev d) type) in
          match ip with
          | None => onfs (iunlockput dp) ;;; ret None
          | Some ip =>
              onfs (ilock (Some ip)) ;;;
              setino_ ip (fun i => i <| i_major := major |> <| i_minor := minor |> <| i_nlink := 1 |>) ;;;
              onfs (iupdate ip) ;;;
              create_links dp ip name type
          end
      end
  end.

(** A file for the locked inode [ip] in [sys_open], kernel/sysfile.c:344-370. *)
Definition open_file (ip : nat) (omode : Z) : M (kern X) Z :=
  let* f := filealloc in
  let* fd := (match f with Some f => fdalloc f | None => ret (-1) end) in
  if fd <? 0 then
    (match f with Some f => fileclose f | None => ret tt end) ;;;
    onfs (iunlockput ip) ;;;
    ontx tx_end_op ;;;
    ret (-1)
  else match f with
  | None => undef "f"
  | Some f =>
      let* i := inode_ ip in
      modify (setfile f (fun f => if i_type i =? T_DEVICE then f <| fl_type := FD_DEVICE |> <| fl_major := i_major i |>
                                  else f <| fl_type := FD_INODE |> <| fl_off := 0 |>)) ;;;
      modify (setfile f (fun f => f <| fl_ip := Some ip |> <| fl_readable := Z.land omode O_WRONLY =? 0 |>
                                    <| fl_writable := negb (Z.land omode O_WRONLY =? 0) || negb (Z.land omode O_RDWR =? 0) |>)) ;;;
      (if negb (Z.land omode O_TRUNC =? 0) && (i_type i =? T_FILE) then onfs (itrunc ip) else ret tt) ;;;
      onfs (iunlock (Some ip)) ;;;
      ontx tx_end_op ;;;
      ret fd
  end.

(** kernel/sysfile.c:304-371 *)
Definition sys_open : M (kern X) Z :=
  let* omode := argint 1 in
  let* path := argstr 0 MAXPATH in
  match path with
  | None => ret (-1)
  | Some path =>
      ontx tx_begin_op ;;;
      let* ip := (if negb (Z.land omode O_CREATE =? 0) then create path T_FILE 0 0
                  else
                    let* ip := namei_ path in
                    match ip with
                    | None => ret None
                    | Some ip =>
                        onfs (ilock (Some ip)) ;;;
                        let* i := inode_ ip in
                        if (i_type i =? T_DIR) && negb (omode =? O_RDONLY) then onfs (iunlockput ip) ;;; ret None
                        else ret (Some ip)
                    end) in
      match ip with
      | None => ontx tx_end_op ;;; ret (-1)
      | Some ip =>
          let* i := inode_ ip in
          if (i_type i =? T_DEVICE) && ((i_major i <? 0) || (NDEV <=? i_major i)) then
            onfs (iunlockput ip) ;;; ontx tx_end_op ;;; ret (-1)
          else open_file ip omode
      end
  end.

(** The tail of [sys_mkdir] and [sys_mknod], kernel/sysfile.c:400-406. *)
Definition created (ip : option nat) : M (kern X) Z :=
  match ip with
  | None => ontx tx_end_op ;;; ret (-1)
  | Some ip => onfs (iunlockput ip) ;;; ontx tx_end_op ;;; ret 0
  end.

(** kernel/sysfile.c:373-387 *)
Definition sys_mkdir : M (kern X) Z :=
  ontx tx_begin_op ;;;
  let* path := argstr 0 MAXPATH in
  let* ip := (match path with None => ret None | Some path => create path T_DIR 0 0 end) in
  created ip.

(** kernel/sysfile.c:389-407; the numbers are passed as [short]. *)
Definition sys_mknod : M (kern X) Z :=
  ontx tx_begin_op ;;;
  let* major := argint 1 in
  let* minor := argint 2 in
  let* path := argstr 0 MAXPATH in
  let* ip := (match path with None => ret None | Some path => create path T_DEVICE (s16 major) (s16 minor) end) in
  created ip.

(** kernel/sysfile.c:409-432 *)
Definition sys_chdir : M (kern X) Z :=
  ontx tx_begin_op ;;;
  let* path := argstr 0 MAXPATH in
  let* ip := (match path with None => ret None | Some path => namei_ path end) in
  match ip with
  | None => ontx tx_end_op ;;; ret (-1)
  | Some ip =>
      onfs (ilock (Some ip)) ;;;
      let* i := inode_ ip in
      if negb (i_type i =? T_DIR) then onfs (iunlockput ip) ;;; ontx tx_end_op ;;; ret (-1)
      else
        onfs (iunlock (Some ip)) ;;;
        let* c := cwd in
        onfs (iput c) ;;;
        ontx tx_end_op ;;;
        setcur (fun p => p <| p_cwd := Some ip |>) ;;;
        ret 0
  end.

(** The loop of [sys_exec] that fetches the arguments, kernel/sysfile.c:446-462: the pages with their strings, and whether it went well. *)
Fixpoint exec_fetch (n : nat) (uargv i : Z) (argv : list (Z * list Z)) : M (kern X) (list (Z * list Z) * bool) :=
  match n with
  | O => ret (argv, false)
  | S n' =>
      let* uarg := fetchaddr (u64 (uargv + 8 * i)) in
      match uarg with
      | None => ret (argv, false)
      | Some uarg =>
          if uarg =? 0 then ret (argv, true)
          else
            let* pa := onmem kalloc in
            if pa =? 0 then ret (argv, false)
            else
              let* a := fetchstr uarg PGSIZE in
              match a with
              | None => ret (argv ++ [(pa, [])], false)
              | Some a => onmem (stbytes pa (a ++ [0])) ;;; exec_fetch n' uargv (i + 1) (argv ++ [(pa, a)])
              end
      end
  end.

(** The loops of [sys_exec] that free the pages, kernel/sysfile.c:466-467. *)
Fixpoint exec_free (argv : list (Z * list Z)) : M (kern X) unit :=
  match argv with
  | [] => ret tt
  | (pa, _) :: argv' => onmem (kfree pa) ;;; exec_free argv'
  end.

(** kernel/sysfile.c:434-475; what a failed [fetchstr] leaves in its page is overwritten when the page is freed. *)
Definition sys_exec : M (kern X) Z :=
  let* uargv := argaddr 1 in
  let* path := argstr 0 MAXPATH in
  match path with
  | None => ret (-1)
  | Some path =>
      let* '(argv, ok) := exec_fetch (Z.to_nat MAXARG) uargv 0 [] in
      if ok then
        let* r := kexec path (map snd argv) in
        exec_free argv ;;;
        ret r
      else exec_free argv ;;; ret (-1)
  end.

(** kernel/sysfile.c:477-505 *)
Definition sys_pipe : M (kern X) Z :=
  let* fdarray := argaddr 0 in
  let* r := pipealloc in
  match r with
  | None => ret (-1)
  | Some (rf, wf) =>
      let* fd0 := fdalloc rf in
      let* fd1 := (if fd0 <? 0 then ret (-1) else fdalloc wf) in
      if fd1 <? 0 then
        (if 0 <=? fd0 then setofile fd0 None else ret tt) ;;;
        fileclose rf ;;; fileclose wf ;;; ret (-1)
      else
        let* r := onps (um_copyout fdarray (le_bytes 4 fd0)) in
        let* r := (if r <? 0 then ret r else onps (um_copyout (u64 (fdarray + 4)) (le_bytes 4 fd1))) in
        if r <? 0 then
          setofile fd0 None ;;; setofile fd1 None ;;;
          fileclose rf ;;; fileclose wf ;;; ret (-1)
        else ret 0
  end.
End Sysfile.
