(* ===== verification/Sysproc.v ===== *)
(** The system calls on processes, kernel/sysproc.c, and the dispatcher, kernel/syscall.c. *)

From S2P Require Import CString Prelude Bytes Params Disk Sleeplock Tx Fs Riscv Kalloc Vm Proc Pipe Console ProcCaller File Syscall Sysfile.

(** kernel/vm.h:1 *)
Definition SBRK_EAGER : Z := 1.

(** kernel/syscall.h:2-22, the system calls in the order of their numbers. *)
Inductive sysno :=
  | SYS_fork | SYS_exit | SYS_wait | SYS_pipe | SYS_read | SYS_kill | SYS_exec | SYS_fstat | SYS_chdir | SYS_dup | SYS_getpid
  | SYS_sbrk | SYS_pause | SYS_uptime | SYS_open | SYS_write | SYS_mknod | SYS_unlink | SYS_link | SYS_mkdir | SYS_close.

#[export] Instance sysno_eq_dec : EqDecision sysno.
Proof. solve_decision. Defined.

(** The table [syscalls], kernel/syscall.c:107-129. *)
Definition syscalls (num : Z) : option sysno :=
  if (0 <? num) && (num <? 22) then
    nth (Z.to_nat num) (None :: map Some
      [SYS_fork; SYS_exit; SYS_wait; SYS_pipe; SYS_read; SYS_kill; SYS_exec; SYS_fstat; SYS_chdir; SYS_dup; SYS_getpid;
       SYS_sbrk; SYS_pause; SYS_uptime; SYS_open; SYS_write; SYS_mknod; SYS_unlink; SYS_link; SYS_mkdir; SYS_close]) None
  else None.

(** How a system call ends: with a value for [a0]; with the process gone; or with [pause] waiting since tick [t]. *)
Inductive sysret := SVal (v : Z) | SExit | SPause (t : Z).

Section Sysproc.
Context `{IM : Image} {X : Type} `{TO : TxOps X}.
Variable forkret : Z.
Implicit Types s : kern X.

(** kernel/sysproc.c:10-17 *)
Definition sys_exit : M (kern X) unit := let* n := argint 0 in kexit n.

(** kernel/sysproc.c:19-23 *)
Definition sys_getpid : M (kern X) Z := gets (fun s => p_pid (curproc s)).

(** kernel/sysproc.c:25-29 *)
Definition sys_fork : M (kern X) Z := kfork forkret.

(** kernel/sysproc.c:31-37 *)
Definition sys_wait : M (kern X) Z := let* p := argaddr 0 in onps (kwait p).

(** kernel/sysproc.c:39-63 *)
Definition sys_sbrk : M (kern X) Z :=
  let* n := argint 0 in
  let* t := argint 1 in
  let* s := get in
  let addr := p_sz (curproc s) in
  if (t =? SBRK_EAGER) || (n <? 0) then
    let* r := onps (growproc n) in
    if r <? 0 then ret (-1) else ret addr
  else if u64 (addr + n) <? addr then ret (-1)
  else setcur (fun p => p <| p_sz := u64 (p_sz p + n) |>) ;;; ret addr.

(** The loop of [sys_pause], kernel/sysproc.c:76-82: one test, [inr] when the process goes to sleep. *)
Definition pause_loop (n ticks0 : Z) : M (kern X) (Z + Z) :=
  let* s := get in
  if u32 (k_ticks s - ticks0) <? n then
    let* k := onps (killed (ps_cur (kps s))) in
    if negb (k =? 0) then ret (inl (-1)) else ret (inr ticks0)
  else ret (inl 0).

(** kernel/sysproc.c:65-85 *)
Definition sys_pause : M (kern X) (Z + Z) :=
  let* n := argint 0 in
  let n := if n <? 0 then 0 else n in
  let* ticks0 := gets k_ticks in
  pause_loop n ticks0.

(** kernel/sysproc.c:87-94 *)
Definition sys_kill : M (kern X) Z := let* pid := argint 0 in onps (kkill pid).

(** kernel/sysproc.c:98-107 *)
Definition sys_uptime : M (kern X) Z := gets k_ticks.

Definition val (m : M (kern X) Z) : M (kern X) sysret := let* v := m in ret (SVal v).

(** The call through the table in [syscall], kernel/syscall.c:141. *)
Definition sys_call (c : sysno) : M (kern X) sysret :=
  match c with
  | SYS_fork => val sys_fork
  | SYS_exit => sys_exit ;;; ret SExit
  | SYS_wait => val sys_wait
  | SYS_pipe => val sys_pipe
  | SYS_read => val sys_read
  | SYS_kill => val sys_kill
  | SYS_exec => val sys_exec
  | SYS_fstat => val sys_fstat
  | SYS_chdir => val sys_chdir
  | SYS_dup => val sys_dup
  | SYS_getpid => val sys_getpid
  | SYS_sbrk => val sys_sbrk
  | SYS_pause => let* r := sys_pause in ret (match r with inl v => SVal v | inr t => SPause t end)
  | SYS_uptime => val sys_uptime
  | SYS_open => val sys_open
  | SYS_write => val sys_write
  | SYS_mknod => val sys_mknod
  | SYS_unlink => val sys_unlink
  | SYS_link => val sys_link
  | SYS_mkdir => val sys_mkdir
  | SYS_close => val sys_close
  end.

(** [p->trapframe->a0 = v], the process being the one that entered the call. *)
Definition set_a0 (p : nat) (v : Z) : M (kern X) unit :=
  let* s := get in onmem (st64 (p_trapframe (procat (kps s) p) + TF_A0) (u64 v)).

(** kernel/syscall.c:131-147; the message about an unknown call is left out. *)
Definition syscall : M (kern X) sysret :=
  let* s := get in
  let p := ps_cur (kps s) in
  let num := s32 (get64 (km_pages (ps_mem (kps s)) (p_trapframe (procat (kps s) p))) TF_A7) in
  match syscalls num with
  | Some c =>
      let* r := sys_call c in
      match r with
      | SVal v => set_a0 p v ;;; ret r
      | _ => ret r
      end
  | None => set_a0 p (-1) ;;; ret (SVal (-1))
  end.
End Sysproc.
