(* ===== verification/Trap.v ===== *)
(** Traps, kernel/trap.c and kernel/plic.c: what the kernel does with a system call, an interrupt or an exception, and how it returns to the process.

    The state is the kernel with the disk driver and the registers of the CPU the trap is taken on.  Where [usertrap] gives the CPU to another process, or
    a call waits, it ends with what it waits for; [usertrap_end] is the rest of it. *)

From S2P Require Import CString Prelude Bytes Params Disk Virtio Sleeplock Tx Fs Riscv Kalloc Vm Proc Pipe Console ProcCaller File Syscall Sysfile Sysproc.

(** The control and status registers, the clock, and the registers of the interrupt controller for this CPU: what a read of the claim register gives, and what was written to it. *)
Record csrs := Csrs {
  c_sstatus : Z;
  c_stvec : Z;
  c_sepc : Z;
  c_scause : Z;
  c_stval : Z;
  c_satp : Z;
  c_tp : Z;
  c_time : Z;
  c_stimecmp : Z;
  c_claim : Z;
  c_complete : list Z }.
#[export] Instance eta_csrs : Eta csrs := fun c =>
  Csrs (c_sstatus c) (c_stvec c) (c_sepc c) (c_scause c) (c_stval c) (c_satp c) (c_tp c) (c_time c) (c_stimecmp c) (c_claim c) (c_complete c).

(** kernel/riscv.h:44 *)
Definition SSTATUS_SPP : Z := Z.shiftl 1 8.
(** kernel/riscv.h:45 *)
Definition SSTATUS_SPIE : Z := Z.shiftl 1 5.
(** kernel/riscv.h:47 *)
Definition SSTATUS_SIE : Z := Z.shiftl 1 1.
(** kernel/riscv.h:223-225 *)
Definition MAKE_SATP (pagetable : Z) : Z := Z.lor (Z.shiftl 8 60) (Z.shiftr pagetable 12).
(** kernel/memlayout.h:22 *)
Definition UART0_IRQ : Z := 10.
(** kernel/memlayout.h:26 *)
Definition VIRTIO0_IRQ : Z := 1.

(** The offsets of the fields of [struct trapframe] that the kernel needs on the next trap. *)
Definition TF_KERNEL_SATP : Z := 0.
Definition TF_KERNEL_SP : Z := 8.
Definition TF_KERNEL_TRAP : Z := 16.
Definition TF_KERNEL_HARTID : Z := 32.

Record tstate (X : Type) := Tstate { t_k : kern X; t_disk : vdisk; t_csr : csrs }.
Arguments Tstate {X}.
Arguments t_k {X}.
Arguments t_disk {X}.
Arguments t_csr {X}.
#[export] Instance eta_tstate {X} : Eta (tstate X) := fun t => Tstate (t_k t) (t_disk t) (t_csr t).

(** How [usertrap] goes: back to the process, with the value for [satp]; the process has exited; it is in [yield]; or a [pause] waits since tick [t]. *)
Inductive utrap := UReturn (satp : Z) | UExit | UYield | UPause (t : Z).

Section Trap.
Context `{IM : Image} {X : Type} `{TO : TxOps X}.
(** The addresses of [forkret], [kernelvec] and [usertrap], and where [uservec] is in the trampoline page. *)
Variables forkret kernelvec usertrap_addr uservec_off : Z.
Implicit Types t : tstate X.

Definition onk {A} (m : M (kern X) A) : M (tstate X) A := zoom t_k (fun k t => t <| t_k := k |>) m.
Definition ondisk {A} (m : M vdisk A) : M (tstate X) A := zoom t_disk (fun d t => t <| t_disk := d |>) m.
Definition csr {A} (f : csrs -> A) : M (tstate X) A := gets (fun t => f (t_csr t)).
Definition setcsr (f : csrs -> csrs) : M (tstate X) unit := modify (fun t => t <| t_csr := f (t_csr t) |>).

(** A field of the trapframe of a process. *)
Definition tf_get (p : nat) (off : Z) : M (tstate X) Z := onk (gets (fun s => ld64 (ps_mem (kps s)) (p_trapframe (procat (kps s) p) + off))).
Definition tf_set (p : nat) (off v : Z) : M (tstate X) unit := onk (let* s := get in onmem (st64 (p_trapframe (procat (kps s) p) + off) (u64 v))).

(** kernel/riscv.h:286-290 *)
Definition intr_on : M (tstate X) unit := setcsr (fun c => c <| c_sstatus := Z.lor (c_sstatus c) SSTATUS_SIE |>).
(** kernel/riscv.h:293-297 *)
Definition intr_off : M (tstate X) unit := setcsr (fun c => c <| c_sstatus := Z.ldiff (c_sstatus c) SSTATUS_SIE |>).

(** kernel/plic.c:33-39 *)
Definition plic_claim : M (tstate X) Z := csr (fun c => s32 (c_claim c)).
(** kernel/plic.c:42-47 *)
Definition plic_complete (irq : Z) : M (tstate X) unit := setcsr (fun c => c <| c_complete := c_complete c ++ [u32 irq] |>).

(** kernel/trap.c:164-178 *)
Definition clockintr : M (tstate X) unit :=
  let* tp := csr c_tp in
  (if s32 tp =? 0 then
     onk (modify (fun s => s <| k_ticks := u32 (k_ticks s + 1) |>)) ;;;
     onk (onps (wakeup ChTicks))
   else ret tt) ;;;
  setcsr (fun c => c <| c_stimecmp := u64 (c_time c + 1000000) |>).

(** kernel/trap.c:185-218; the message about an interrupt nobody expects is left out. *)
Definition devintr : M (tstate X) Z :=
  let* scause := csr c_scause in
  if scause =? 0x8000000000000009 then
    let* irq := plic_claim in
    (if irq =? UART0_IRQ then onk (oncs uartintr)
     else if irq =? VIRTIO0_IRQ then ondisk virtio_disk_intr
     else ret tt) ;;;
    (if negb (irq =? 0) then plic_complete irq else ret tt) ;;;
    ret 1
  else if scause =? 0x8000000000000005 then
    clockintr ;;;
    ret 2
  else ret 0.

(** kernel/trap.c:99-131 *)
Definition prepare_return : M (tstate X) unit :=
  let* t := get in
  let p := ps_cur (kps (t_k t)) in
  intr_off ;;;
  setcsr (fun c => c <| c_stvec := TRAMPOLINE + uservec_off |>) ;;;
  let* satp := csr c_satp in
  tf_set p TF_KERNEL_SATP satp ;;;
  tf_set p TF_KERNEL_SP (p_kstack (procat (kps (t_k t)) p) + PGSIZE) ;;;
  tf_set p TF_KERNEL_TRAP usertrap_addr ;;;
  let* tp := csr c_tp in
  tf_set p TF_KERNEL_HARTID tp ;;;
  setcsr (fun c => c <| c_sstatus := Z.lor (Z.ldiff (c_sstatus c) SSTATUS_SPP) SSTATUS_SPIE |>) ;;;
  let* epc := tf_get p TF_EPC in
  setcsr (fun c => c <| c_sepc := epc |>).

(** The end of [usertrap], kernel/trap.c:87-94, from the call of [prepare_return] on. *)
Definition usertrap_end (p : nat) : M (tstate X) Z :=
  prepare_return ;;;
  let* t := get in
  ret (MAKE_SATP (p_pagetable (procat (kps (t_k t)) p))).

(** kernel/trap.c:80-85, with [which_dev], and the rest. *)
Definition usertrap_out (p : nat) (which_dev : Z) : M (tstate X) utrap :=
  let* k := onk (onps (killed p)) in
  if negb (k =? 0) then onk (kexit (-1)) ;;; ret UExit
  else if which_dev =? 2 then ret UYield
  else let* satp := usertrap_end p in ret (UReturn satp).

(** kernel/trap.c:71-72: [vmfault] for the process. *)
Definition fault_in (p : nat) (stval : Z) : M (tstate X) Z :=
  let* t := get in
  let q := procat (kps (t_k t)) p in
  onk (onmem (vmfault (Vproc (p_sz q) (p_pagetable q)) (p_pagetable q) stval)).

(** kernel/trap.c:37-94; the messages are left out. *)
Definition usertrap : M (tstate X) utrap :=
  let* sstatus := csr c_sstatus in
  if negb (Z.land sstatus SSTATUS_SPP =? 0) then panic "usertrap: not from user mode" else
  setcsr (fun c => c <| c_stvec := kernelvec |>) ;;;
  let* t := get in
  let p := ps_cur (kps (t_k t)) in
  let* sepc := csr c_sepc in
  tf_set p TF_EPC sepc ;;;
  let* scause := csr c_scause in
  if scause =? 8 then
    let* k := onk (onps (killed p)) in
    if negb (k =? 0) then onk (kexit (-1)) ;;; ret UExit
    else
      let* epc := tf_get p TF_EPC in
      tf_set p TF_EPC (epc + 4) ;;;
      intr_on ;;;
      let* r := onk (syscall forkret) in
      match r with
      | SVal _ => usertrap_out p 0
      | SExit => ret UExit
      | SPause t => ret (UPause t)
      end
  else
    let* which_dev := devintr in
    if negb (which_dev =? 0) then usertrap_out p which_dev
    else
      let* mem :=
        if (scause =? 15) || (scause =? 13) then
          let* stval := csr c_stval in
          fault_in p stval
        else ret 0 in
      if negb (mem =? 0) then usertrap_out p 0
      else
        onk (onps (setkilled p)) ;;;
        usertrap_out p 0.

(** The end of [kerneltrap], kernel/trap.c:158-161. *)
Definition kerneltrap_end (sepc sstatus : Z) : M (tstate X) unit := setcsr (fun c => c <| c_sepc := sepc |> <| c_sstatus := sstatus |>).
(** kernel/trap.c:135-162; [running] when a process runs on the CPU, [None] when it gives up the CPU, [kerneltrap_end] being the rest. *)
Definition kerneltrap (running : bool) : M (tstate X) (option unit) :=
  let* sepc := csr c_sepc in
  let* sstatus := csr c_sstatus in
  if Z.land sstatus SSTATUS_SPP =? 0 then panic "kerneltrap: not from supervisor mode"
  else if negb (Z.land sstatus SSTATUS_SIE =? 0) then panic "kerneltrap: interrupts enabled"
  else
    let* which_dev := devintr in
    if which_dev =? 0 then panic "kerneltrap"
    else if (which_dev =? 2) && running then ret None
    else kerneltrap_end sepc sstatus ;;; ret (Some tt).
End Trap.
