(* ===== verification/ProcView.v ===== *)
(** What a process owns, and which operations of kernel/proc.c, kernel/pipe.c and kernel/console.c leave it alone.

    [pv] is the table of the processes' open files and working directories, with the running process.  Only [fork], [exit],
    [wait] and the system calls on files change it. *)

From S2P Require Import CString Prelude Safe Bytes Params Disk Sleeplock Tx Fs Riscv Kalloc Vm Proc Pipe Console ProcCaller Balance.

Definition dead (p : proc) : bool := match p_state p with UNUSED | ZOMBIE => true | _ => false end.

Record pown := Pown { po_dead : bool; po_ofile : list (option nat); po_cwd : option nat }.
Definition own (p : proc) : pown := Pown (dead p) (p_ofile p) (p_cwd p).

(** What a process that does not run owns. *)
Definition pown0 : pown := Pown true (replicate 16 None) None.

Definition pv (u : pstate) : list pown * nat := (map own (ps_proc u), ps_cur u).
Definition ownat (v : list pown * nat) (i : nat) : pown := nth i (fst v) pown0.
Definition putown (i : nat) (o : pown) (v : list pown * nat) : list pown * nat := (<[i := o]> (fst v), snd v).

Abbreviation pquiet m := (forall u, returns m (fun _ u' => pv u' = pv u) u).

Lemma own_procat u i : own (procat u i) = ownat (pv u) i.
Proof. unfold ownat, procat, pv. simpl. change pown0 with (own proc0). by rewrite map_nth. Qed.

Lemma pv_setproc i f u : pv (setproc i f u) = putown i (own (f (procat u i))) (pv u).
Proof. unfold pv, putown, setproc. simpl. by rewrite list_fmap_insert. Qed.

Lemma putown_id i o v : ownat v i = o -> putown i o v = v.
Proof.
  intros <-. destruct v as [l c]. unfold putown, ownat. simpl. f_equal. destruct (decide (i < length l)%nat) as [H|H].
  - apply list_insert_id. destruct (lookup_lt_is_Some_2 l i H) as [x Hx]. by rewrite (nth_lookup_Some _ _ _ _ Hx).
  - by rewrite list_insert_ge by lia.
Qed.

Lemma putown_putown i o o' v : putown i o (putown i o' v) = putown i o v.
Proof. unfold putown. simpl. by rewrite list_insert_insert_eq. Qed.

Lemma ownat_putown i o v j : (i < length (fst v))%nat -> ownat (putown i o v) j = if decide (j = i) then o else ownat v j.
Proof.
  intros H. unfold ownat, putown. simpl. rewrite !nth_lookup. destruct (decide (j = i)) as [->|]; [by rewrite list_lookup_insert_eq|].
  by rewrite list_lookup_insert_ne.
Qed.

Lemma setproc_pv i f u : own (f (procat u i)) = own (procat u i) -> pv (setproc i f u) = pv u.
Proof. intros E. rewrite pv_setproc, E. apply putown_id. by rewrite own_procat. Qed.

Lemma liftmem_pv {A} (m : M kmem A) : pquiet (liftmem m).
Proof. intros u. apply safe_zoom. unfold safe. by destruct (m (ps_mem u)). Qed.

Section View.
Context `{IM : Image}.
Implicit Types (u : pstate) (i : nat).

#[export] Instance proc_view : UmView pstate.
Proof. refine {| uv := pv |}; intros; apply safe_bind, safe_get, liftmem_pv. Defined.

Lemma own_wake c p : own (wake c p) = own p.
Proof. unfold wake. case_decide as E; [|done]. destruct E as [E _]. unfold own, dead. simpl. by rewrite E. Qed.

Lemma wakeup_pv c : pquiet (wakeup c).
Proof.
  intros u. unfold wakeup. apply (safe_each _ (fun u' => pv u' = pv u)); [done|]. intros k u1 H1. apply safe_bind, safe_gets.
  case_decide; [done|]. apply safe_modify. rewrite setproc_pv; [done|apply own_wake].
Qed.

Lemma growproc_pv n : pquiet (growproc n).
Proof.
  intros u. unfold growproc. apply safe_bind, safe_gets, safe_bind, safe_get. cbn beta zeta. destruct (0 <? n); [|destruct (n <? 0)].
  1,2: apply safe_bind; eapply safe_conseq; [apply liftmem_pv|]; cbn beta; intros sz u1 <-; try (destruct (sz =? 0); [done|]).
  all: safe_steps; by apply setproc_pv.
Qed.

Lemma kkill_pv pid : pquiet (kkill pid).
Proof.
  intros u. unfold kkill. apply safe_bind. apply (safe_floop _ (fun u' => pv u' = pv u)); [done| |intros; by apply safe_ret].
  intros k u1 H1. apply safe_bind, safe_get. cbn beta zeta. destruct (_ =? pid); [|done]. apply safe_bind, safe_modify, safe_bind, safe_get.
  set (u2 := setproc _ _ u1). assert (H2 : pv u2 = pv u) by (subst u2; rewrite setproc_pv; done). clearbody u2.
  apply safe_bind. case_decide as E; safe_steps; [|done]. rewrite setproc_pv; [done|]. unfold own, dead. simpl. by rewrite E.
Qed.

(** [freeproc] leaves the files of the process and its directory as they are. *)
Lemma freeproc_pv i u :
  returns (freeproc i) (fun _ u' => pv u' = putown i (Pown true (p_ofile (procat u i)) (p_cwd (procat u i))) (pv u)) u.
Proof.
  assert (Hlift : forall {A} (b : bool) (m : M kmem A) (d : M pstate A) u1, (forall u2, returns d (fun _ u' => pv u' = pv u2) u2) ->
    returns (if b then liftmem m else d) (fun _ u' => pv u' = pv u1) u1) by (intros A [] m d u1 Hd; [apply liftmem_pv|apply Hd]).
  unfold freeproc. apply safe_bind, safe_get, safe_bind. eapply safe_conseq; [by apply Hlift|]. cbn beta. intros _ u1 H1.
  apply safe_bind, safe_modify, safe_bind, safe_get. set (u2 := setproc _ _ u1).
  assert (H2 : pv u2 = pv u) by (subst u2; by rewrite setproc_pv). clearbody u2. clear u1 H1.
  apply safe_bind. eapply safe_conseq; [by apply Hlift|]. cbn beta. intros _ u3 H3. apply safe_modify. rewrite pv_setproc, H3, H2. f_equal.
  assert (E : own (procat u3 i) = own (procat u i)) by (rewrite !own_procat; congruence). unfold own in E. injection E as _ E1 E2.
  unfold own, dead. simpl. by rewrite E1, E2.
Qed.

Lemma freeproc_dead_pv i u : dead (procat u i) = true -> returns (freeproc i) (fun _ u' => pv u' = pv u) u.
Proof.
  intros Hd. eapply safe_conseq; [apply freeproc_pv|]. cbn beta. intros _ u' ->. apply putown_id. rewrite <-own_procat. unfold own. by rewrite Hd.
Qed.

Lemma kwait_pv addr : pquiet (kwait addr).
Proof.
  intros u. unfold kwait. apply safe_bind, safe_gets. apply (safe_seq _ _ _ (fun _ u' => pv u' = pv u)).
  - unfold wait_scan. apply safe_bind, safe_gets. apply (safe_seq _ _ _ (fun _ u' => pv u' = pv u)); [|intros [] u1 H1; by safe_steps].
    apply (safe_floop _ (fun u' => pv u' = pv u)); [done| |done]. intros k u1 H1. apply safe_bind, safe_get. cbn beta zeta.
    case_decide as E; [|done]. destruct E as [_ E]. apply (safe_seq _ _ _ (fun _ u' => exists m, u' = u1 <| ps_mem := m |>)).
    { destruct (addr =? 0); [apply safe_ret; exists (ps_mem u1); by destruct u1|]. apply safe_zoom.
      unfold safe. destruct (copyout _ _ _ _ _); try done. by eexists. }
    intros r u2 [m ->]. destruct (r <? 0); [done|]. apply safe_bind. eapply safe_conseq; [apply freeproc_dead_pv|].
    + change (procat (u1 <| ps_mem := m |>) (Z.to_nat k)) with (procat u1 (Z.to_nat k)). unfold dead. by rewrite E.
    + cbn beta. intros _ u3 H3. apply safe_ret. exact (eq_trans H3 H1).
  - intros [v|kids] u1 H1; [done|]. apply safe_bind, safe_gets. cbn beta. destruct (negb kids || _); done.
Qed.

Lemma reparent_pv i : pquiet (reparent i).
Proof.
  intros u. unfold reparent. apply (safe_each _ (fun u' => pv u' = pv u)); [done|]. intros k u1 H1. apply safe_bind, safe_get.
  case_decide; [|done]. apply safe_bind, safe_modify. set (u2 := setproc _ _ u1).
  assert (H2 : pv u2 = pv u) by (subst u2; by rewrite setproc_pv). clearbody u2.
  destruct (ps_initproc u1); [|done]. eapply safe_conseq; [apply wakeup_pv|]. cbn beta. congruence.
Qed.

Lemma exit_zombie_pv status u :
  returns (exit_zombie status) (fun _ u' => pv u' = putown (ps_cur u) (Pown true (p_ofile (procat u (ps_cur u))) (p_cwd (procat u (ps_cur u)))) (pv u)) u.
Proof.
  unfold exit_zombie. apply safe_bind, safe_gets. apply safe_bind. eapply safe_conseq; [apply reparent_pv|]. cbn beta. intros _ u1 H1.
  apply safe_bind, safe_get. apply (safe_seq _ _ _ (fun _ u' => pv u' = pv u)).
  - destruct (p_parent _); [|done]. eapply safe_conseq; [apply wakeup_pv|]. cbn beta. congruence.
  - intros _ u2 H2. apply safe_modify. rewrite pv_setproc, H2. f_equal.
    assert (E : own (procat u2 (ps_cur u)) = own (procat u (ps_cur u))) by (rewrite !own_procat; congruence). unfold own in E. injection E as _ E1 E2.
    unfold own, dead. simpl. by rewrite E1, E2.
Qed.

(** *** A new process *)

(** The slot [i] goes from a process that does not run to one that does, with what is left in it. *)
Definition born u u' i : Prop :=
  (i < length (ps_proc u))%nat /\ dead (procat u i) = true /\ pv u' = putown i (Pown false (p_ofile (procat u i)) (p_cwd (procat u i))) (pv u).

Lemma find_unused_range l k i : find_unused l k = Some i -> (k <= i < k + length l)%nat /\ p_state (nth (i - k) l proc0) = UNUSED.
Proof.
  revert k. induction l as [|p l IH]; intros k; simpl; [done|]. case_decide as E.
  - intros [= <-]. rewrite Nat.sub_diag. split; [lia|done].
  - intros H. destruct (IH _ H) as [H1 H2]. split; [lia|]. destruct (i - k)%nat eqn:En; [lia|]. by replace (i - S k)%nat with n in H2 by lia.
Qed.

Lemma born_free u u' i : born u u' i -> returns (freeproc i) (fun _ u'' => pv u'' = pv u) u'.
Proof.
  intros (Hi & Hd & Hv). eapply safe_conseq; [apply freeproc_pv|]. cbn beta. intros _ u1 ->. rewrite Hv, putown_putown.
  assert (E : own (procat u' i) = Pown false (p_ofile (procat u i)) (p_cwd (procat u i))).
  { rewrite own_procat, Hv, ownat_putown, decide_True; [done|done|]. simpl. by rewrite length_map. }
  unfold own in E. injection E as _ E1 E2. apply putown_id. rewrite <-own_procat. unfold own. by rewrite Hd, E1, E2.
Qed.

Lemma born_set u u1 i f : born u u1 i -> own (f (procat u1 i)) = own (procat u1 i) -> born u (setproc i f u1) i.
Proof. intros (? & ? & Hv) E. split_and!; [done..|]. by rewrite setproc_pv. Qed.

Lemma born_mem {A} (m : M kmem A) u u1 i : born u u1 i -> returns (liftmem m) (fun _ u' => born u u' i) u1.
Proof. intros (? & ? & Hv). eapply safe_conseq; [apply liftmem_pv|]. cbn beta. intros a u2 H2. split_and!; [done..|congruence]. Qed.

Lemma allocproc_pv forkret u :
  returns (allocproc forkret) (fun r u' => match r with Some i => born u u' i | None => pv u' = pv u end) u.
Proof.
  unfold allocproc. apply safe_bind, safe_get. destruct (find_unused (ps_proc u) 0) as [i|] eqn:E; [|done].
  apply find_unused_range in E as [Hi Hs]. rewrite Nat.sub_0_r in Hs. unfold allocpid. safe_steps.
  set (u1 := setproc i _ _). assert (H1 : born u u1 i).
  { split_and!; [lia|unfold dead, procat; by rewrite Hs|]. subst u1. rewrite pv_setproc. done. }
  clearbody u1. eapply safe_conseq; [by apply born_mem|]. cbn beta. intros tf u2 H2. safe_steps.
  apply (born_set _ _ _ (fun p => p <| p_trapframe := tf |>)) in H2; [|done]. set (u3 := setproc i _ u2) in *. clearbody u3.
  destruct (tf =? 0); [apply safe_bind; eapply safe_conseq; [by eapply born_free|]; done|].
  safe_steps. eapply safe_conseq; [by apply born_mem|]. cbn beta. intros pt u4 H4. safe_steps.
  apply (born_set _ _ _ (fun p => p <| p_pagetable := pt |>)) in H4; [|done]. set (u5 := setproc i _ u4) in *. clearbody u5.
  destruct (pt =? 0); [apply safe_bind; eapply safe_conseq; [by eapply born_free|]; done|]. safe_steps. by apply born_set.
Qed.

Lemma fork_mem_pv forkret u :
  returns (fork_mem forkret) (fun r u' => match r with Some i => born u u' i | None => pv u' = pv u end) u.
Proof.
  unfold fork_mem. apply safe_bind, safe_gets, safe_bind. eapply safe_conseq; [apply allocproc_pv|]. cbn beta. intros [i|] u1 H1; [|done].
  safe_steps. eapply safe_conseq; [by apply born_mem|]. cbn beta. intros c u2 H2.
  destruct (c <? 0); [apply safe_bind; eapply safe_conseq; [by eapply born_free|]; done|]. safe_steps.
  apply (born_set _ _ _ (fun q => q <| p_sz := p_sz (procat u1 (ps_cur u)) |>)) in H2; [|done]. set (u3 := setproc i _ u2) in *. clearbody u3.
  eapply safe_conseq; [by apply born_mem|]. cbn beta. intros _ u4 H4. apply safe_bind. eapply safe_conseq; [by apply born_mem|]. done.
Qed.

(** *** Pipes and the console *)

Lemma killed_pv : pquiet cl_killed.
Proof. intros u. done. Qed.
Lemma killed_at_pv i : pquiet (killed i).
Proof. intros u. done. Qed.
Lemma cwakeup_pv c : pquiet (cl_wakeup c).
Proof. apply wakeup_pv. Qed.
Lemma copyout_pv a l : pquiet (um_copyout a l).
Proof. intros u. apply safe_bind, safe_get, liftmem_pv. Qed.
Lemma copyin_pv a n : pquiet (um_copyin a n).
Proof. intros u. apply safe_bind, safe_get, liftmem_pv. Qed.
End View.

Create HintDb pview.
#[export] Hint Resolve liftmem_pv wakeup_pv growproc_pv kkill_pv kwait_pv killed_pv killed_at_pv cwakeup_pv : pview.
#[export] Hint Extern 1 (forall _, safe _ (um_copyout _ _) _ _) => apply copyout_pv : pview.
#[export] Hint Extern 1 (forall _, safe _ (um_copyin _ _) _ _) => apply copyin_pv : pview.
#[export] Hint Extern 1 (safe _ (um_copyout _ _) _ _) => apply copyout_pv : pview.
#[export] Hint Extern 1 (safe _ (um_copyin _ _) _ _) => apply copyin_pv : pview.

Section Users.
Context `{IM : Image}.

(** Code over a pipe or the console that leaves the processes alone. *)
Definition tquiet {A} (m : M (pst pstate) A) : Prop := forall t v, pv (pt_u t) = v -> returns m (fun _ t' => pv (pt_u t') = v) t.
Definition cquiet {A} (m : M (cst pstate) A) : Prop := forall t v, pv (cs_u t) = v -> returns m (fun _ t' => pv (cs_u t') = v) t.

Lemma liftu_quiet {A} (m : M pstate A) : pquiet m -> tquiet (liftu m).
Proof. intros H t v <-. apply safe_zoom. eapply safe_conseq; [apply H|]. done. Qed.
Lemma onpipe_quiet f : tquiet (onpipe f).
Proof. intros t v <-. done. Qed.
Lemma liftc_quiet {A} (m : M pstate A) : pquiet m -> cquiet (liftc m).
Proof. intros H t v <-. apply safe_zoom. eapply safe_conseq; [apply H|]. done. Qed.

Ltac tq :=
  cbn beta zeta;
  lazymatch goal with
  | |- safe _ (bind _ _) _ _ => apply safe_bind; tq
  | |- safe _ (ret _) _ _ => apply safe_ret
  | |- safe _ get _ _ => apply safe_get
  | |- safe _ (sleepon _) _ _ => exact I
  | |- safe _ (if ?b then _ else _) _ _ => destruct b
  | |- safe _ (match ?b with _ => _ end) _ _ => destruct b
  | |- safe _ (liftu _) _ _ => eapply safe_conseq; [by eapply liftu_quiet; [eauto with pview|]|]; cbn beta; intros ? ? ?
  | |- safe _ (liftc _) _ _ => eapply safe_conseq; [by eapply liftc_quiet; [eauto with pview|]|]; cbn beta; intros ? ? ?
  | |- safe _ _ _ _ => apply safe_modify
  end.

Lemma pipewrite_quiet pi addr n i : tquiet (pipewrite pi addr n i).
Proof.
  unfold pipewrite. generalize (S (Z.to_nat (n - i))) as fuel. intros fuel. revert i. induction fuel as [|fuel IH]; intros i t v H; [done|]. cbn [pipewrite_loop].
  repeat (done || tq). by apply IH.
Qed.

Lemma piperead_loop_quiet fuel addr n i : tquiet (piperead_loop fuel addr n i).
Proof. revert i. induction fuel as [|fuel IH]; intros i t v H; [done|]. cbn [piperead_loop]. repeat (done || tq). by apply IH. Qed.

Lemma piperead_quiet pi addr n : tquiet (piperead pi addr n).
Proof. intros t v H. unfold piperead. repeat (done || tq). apply safe_bind. eapply safe_conseq; [by apply piperead_loop_quiet|]. cbn beta. intros. repeat (done || tq). Qed.

Lemma pipeclose_quiet pi w : tquiet (pipeclose pi w).
Proof. intros t v H. unfold pipeclose. apply safe_bind. destruct w; repeat (done || tq). Qed.

Lemma uartwrite_quiet buf i n : cquiet (uartwrite buf i n).
Proof. revert i. induction n as [|n IH]; intros i t v H; [done|]. cbn [uartwrite]. repeat (done || tq). by apply IH. Qed.

Lemma consolewrite_quiet fuel src n st : cquiet (consolewrite fuel src n st).
Proof.
  revert st. induction fuel as [|fuel IH]; intros st t v H; [done|]. cbn [consolewrite]. destruct st as [i|i buf nn j].
  - destruct (i <? n); [|done]. apply safe_bind. unfold cons_copyin. destruct src; repeat (done || tq); by apply IH.
  - apply safe_bind. eapply safe_conseq; [by apply uartwrite_quiet|]. cbn beta. intros [j'|] t1 H1; [done|by apply IH].
Qed.

Lemma consoleread_quiet dst target n out : cquiet (consoleread dst target n out).
Proof.
  unfold consoleread. generalize (S (Z.to_nat n)) as fuel. intros fuel. revert n out.
  induction fuel as [|fuel IH]; intros n out t v H; [done|]. cbn [consoleread_loop]. unfold cons_copyout. repeat (done || tq).
  all: by apply IH.
Qed.

(** The interrupt of the console. *)
Lemma consputc_quiet c : cquiet (consputc c).
Proof. intros t v H. unfold consputc, uartputc_sync. repeat (done || tq). Qed.

Lemma kill_line_quiet fuel : cquiet (kill_line fuel).
Proof.
  induction fuel as [|fuel IH]; intros t v H; [done|]. cbn [kill_line]. do 2 tq; [|done]. tq. apply safe_bind. eapply safe_conseq; [by apply consputc_quiet|]. cbn beta. intros _ t1 H1. by apply IH.
Qed.

Lemma consoleintr_quiet c : cquiet (consoleintr c).
Proof.
  intros t v H. unfold consoleintr. destruct (c =? Ctl 80); [done|]. destruct (c =? Ctl 85); [tq; by apply kill_line_quiet|]. destruct (_ || _).
  - do 2 tq; [|done]. tq. by apply consputc_quiet.
  - do 2 tq; [|done]. cbn zeta. apply safe_bind. eapply safe_conseq; [by apply consputc_quiet|]. cbn beta. intros _ t1 H1. repeat (done || tq).
Qed.

Lemma uartintr_quiet : cquiet uartintr.
Proof.
  assert (Hr : forall fuel, cquiet (uart_receive fuel)).
  { induction fuel as [|fuel IH]; intros t v H; [done|]. cbn [uart_receive]. apply safe_bind. unfold uartgetc.
    assert (Hc : forall c t1, pv (cs_u t1) = v -> returns (if c =? -1 then ret tt else consoleintr c ;;; uart_receive fuel) (fun _ t' => pv (cs_u t') = v) t1).
    { intros c t1 H1. destruct (c =? -1); [done|]. apply safe_bind. eapply safe_conseq; [by apply consoleintr_quiet|]. cbn beta. intros _ t2 H2. by apply IH. }
    do 2 tq; [by apply Hc|]. tq. apply safe_ret. by apply Hc. }
  intros t v H. unfold uartintr. tq. apply safe_bind. destruct (u_idle _); repeat (done || tq); by apply Hr.
Qed.
End Users.
