(* ===== verification/KBalance.v ===== *)
(** The kernel's books: every reference to an open file and to an inode is owned.

    A file is referenced by the descriptors of the processes, an inode by the open files and the working directories.  [fsurplus]
    and [isurplus] are the references that no table owns, which the code running in the kernel holds.  [kmoved c s s' tf ti μ b o]
    says how the books change between two states; the lemmas give the change each function of kernel/file.c makes when it returns. *)

From S2P Require Import CString Prelude Safe Bytes Params Disk Sleeplock Tx Fs Riscv Kalloc Vm Proc Pipe Console ProcCaller Balance ProcView File.

(** How often a process holds file [f], whether its directory is [ip], and whether an open file is for inode [ip]. *)
Definition fd1 (f : nat) (x : option nat) : Z := if decide (x = Some f) then 1 else 0.
Definition holds_fd (f : nat) (o : pown) : Z := zsum (fd1 f) (po_ofile o).
Definition holds_cwd (ip : nat) (o : pown) : Z := fd1 ip (po_cwd o).
Definition is_ino (t : fdtype) : bool := match t with FD_INODE | FD_DEVICE => true | _ => false end.
Definition holds_ino (ip : nat) (fl : file) : Z := if is_ino (fl_type fl) then fd1 ip (fl_ip fl) else 0.

Lemma holds_fd_0 f : holds_fd f pown0 = 0.
Proof. done. Qed.

Section Books.
Context `{IM : Image} {X : Type} `{TB : TxBalance X}.
Implicit Types (s : kern X) (f ip : nat).

Definition kv s : list pown * nat := pv (kps s).
Definition fsurplus s f : Z := fl_ref (fileat s f) - zsum (holds_fd f) (fst (kv s)).
Definition isurplus s ip : Z := rf (k_fs s) ip - zsum (holds_ino ip) (k_file s) - zsum (holds_cwd ip) (fst (kv s)).
Definition nino s : nat := length (f_ino (k_fs s)).

(** The tables of files and processes are in order. *)
Definition file_ok (n : nat) (fl : file) : Prop :=
  (fl_ref fl = 0 -> fl_type fl = FD_NONE) /\ (is_ino (fl_type fl) = true -> forall ip, fl_ip fl = Some ip -> (ip < n)%nat).
Definition own_ok (n : nat) (o : pown) : Prop :=
  length (po_ofile o) = 16%nat /\ (forall ip, po_cwd o = Some ip -> (ip < n)%nat) /\ (po_dead o = true -> o = pown0).

Record kwf s : Prop := {
  kw_file f : file_ok (nino s) (fileat s f);
  kw_own i : own_ok (nino s) (ownat (kv s) i) }.

(** Checked entry by entry. *)
Lemma kwf_intro s : Forall (file_ok (nino s)) (k_file s) -> Forall (own_ok (nino s)) (fst (kv s)) -> kwf s.
Proof.
  intros Hf Ho. split.
  - intros f. unfold fileat. rewrite nth_lookup. destruct (k_file s !! f) as [x|] eqn:E; [by eapply Forall_lookup_1 in Hf|done].
  - intros i. unfold ownat. rewrite nth_lookup. destruct (fst (kv s) !! i) as [x|] eqn:E; [by eapply Forall_lookup_1 in Ho|by split_and!].
Qed.

(** A process is running. *)
Definition alive s : Prop := po_dead (ownat (kv s) (snd (kv s))) = false.
Definition good_k s : Prop := kwf s /\ alive s.

Record kmoved (c : bool) s s' (tf ti : nat -> Z) (μ : nat -> option bool) (b o : Z) : Prop := {
  km_good : good_k s';
  km_f f : fsurplus s' f = fsurplus s f + tf f;
  km_i ip : isurplus s' ip = isurplus s ip + ti ip;
  km_lk ip : lk (k_fs s') ip = default (lk (k_fs s) ip) (μ ip);
  km_tx : tx_moved (f_tx (k_fs s)) (f_tx (k_fs s')) b o;
  km_len : nino s' = nino s;
  km_cur : snd (kv s') = snd (kv s);
  km_kv : c = true -> kv s' = kv s }.

Abbreviation ksame s s' := (kmoved true s s' none none nolk 0 0).

Lemma tx_same (x : X) : tx_moved x x 0 0.
Proof. intros H. split_and!; [done|lia|lia]. Qed.

Lemma ksame_refl s : good_k s -> ksame s s.
Proof. intros H. split; try done; unfold none; intros; try lia. apply tx_same. Qed.

Lemma kmoved_trans c1 c2 s1 s2 s3 tf1 tf2 ti1 ti2 μ1 μ2 b1 b2 o1 o2 :
  kmoved c1 s1 s2 tf1 ti1 μ1 b1 o1 -> kmoved c2 s2 s3 tf2 ti2 μ2 b2 o2 ->
  kmoved (c1 && c2) s1 s3 (fun j => tf1 j + tf2 j) (fun j => ti1 j + ti2 j) (fun j => match μ2 j with Some x => Some x | None => μ1 j end) (b1 + b2) (o1 + o2).
Proof.
  intros [] []. split; try done; try congruence.
  - intros f. rewrite km_f1, km_f0. lia.
  - intros ip. rewrite km_i1, km_i0. lia.
  - intros ip. rewrite km_lk1. destruct (μ2 ip); [done|]. apply km_lk0.
  - intros Hf. destruct (km_tx0 Hf) as (Hf2 & ? & ?). destruct (km_tx1 Hf2) as (? & ? & ?). split_and!; [done|lia|lia].
  - intros [-> ->]%andb_prop. by rewrite km_kv1, km_kv0.
Qed.

Lemma kmoved_ext c c' s s' tf tf' ti ti' μ μ' b b' o o' :
  kmoved c s s' tf ti μ b o -> (c' = true -> c = true) -> (forall j, tf j = tf' j) -> (forall j, ti j = ti' j) ->
  (forall j, default (lk (k_fs s) j) (μ j) = default (lk (k_fs s) j) (μ' j)) -> b = b' -> o = o' -> kmoved c' s s' tf' ti' μ' b' o'.
Proof. intros [] Hc Hf Hi Hm -> ->. split; try done; try (intros j); [by rewrite <-Hf|by rewrite <-Hi|by rewrite <-Hm|auto]. Qed.

Lemma good_same s s' : nino s' = nino s -> k_file s' = k_file s -> kv s' = kv s -> good_k s -> good_k s'.
Proof.
  intros En Ef Ev [Hw Ha]. split; [split|]; [intros f; unfold fileat; rewrite En, Ef; apply Hw|intros i; rewrite En, Ev; apply Hw|unfold alive; by rewrite Ev].
Qed.

(** The parts the books are about are the same. *)
Lemma parts_same s s' :
  f_ino (k_fs s') = f_ino (k_fs s) -> f_tx (k_fs s') = f_tx (k_fs s) -> k_file s' = k_file s -> kv s' = kv s -> good_k s -> ksame s s'.
Proof.
  intros Ei Et Ef Ev Hs. destruct (ksame_refl s Hs). split; try done.
  - apply (good_same s); [unfold nino; by rewrite Ei|done..].
  - intros f. unfold fsurplus, fileat. rewrite Ef, Ev. apply km_f0.
  - intros ip. unfold isurplus, rf, inoat. rewrite Ei, Ef, Ev. apply km_i0.
  - intros ip. unfold lk, inoat. by rewrite Ei.
  - by rewrite Et.
  - unfold nino. by rewrite Ei.
  - by rewrite Ev.
Qed.

(** ** File-system code *)

Definition fsonly s s' : Prop := s' = s <| k_fs := k_fs s' |>.

Lemma onfs_safe {A} (m : M (fsys X pstate) A) Q s :
  returns m Q (k_fs s) -> returns (onfs m) (fun a s' => Q a (k_fs s') /\ fsonly s s') s.
Proof. intros H. apply safe_zoom. eapply safe_conseq; [exact H|]. intros a f Hq. by split. Qed.

Lemma moved_kmoved s s' δ μ b o :
  good_k s -> moved (k_fs s) (k_fs s') δ μ b o -> fsonly s s' -> kmoved true s s' none δ μ b o.
Proof.
  intros [Hw Ha] [] E. assert (Ekv : kv s' = kv s) by exact mv_um.
  assert (Efl : k_file s' = k_file s) by (by rewrite E). assert (Efa : forall f, fileat s' f = fileat s f) by (intros f; unfold fileat; by rewrite Efl).
  assert (El : nino s' = nino s) by exact mv_len. split; try done.
  - by apply (good_same s).
  - intros f. unfold fsurplus, none. rewrite Efa, Ekv. lia.
  - intros ip. unfold isurplus. rewrite mv_rf, Efl, Ekv. lia.
  - by rewrite Ekv.
Qed.

(** ** Files *)

Lemma fileat_setfile s f g j : fileat (setfile f g s) j = if decide (j = f /\ (f < length (k_file s))%nat) then g (fileat s f) else fileat s j.
Proof.
  unfold setfile, fileat. simpl. destruct (decide (f < length (k_file s))%nat) as [Hl|Hl].
  - destruct (decide (j = f)) as [->|Hne].
    + rewrite decide_True by done. apply nth_lookup_Some. by apply list_lookup_insert_eq.
    + rewrite decide_False by tauto. rewrite !nth_lookup, list_lookup_insert_ne by done. done.
  - rewrite decide_False by tauto. rewrite list_insert_ge by lia. done.
Qed.

Lemma fileat_range s f : fl_ref (fileat s f) <> 0 -> (f < length (k_file s))%nat.
Proof. intros H. destruct (decide (f < length (k_file s))%nat); [done|]. destruct H. unfold fileat. by rewrite nth_overflow by lia. Qed.

Lemma setfile_kmoved s f g :
  good_k s -> (f < length (k_file s))%nat -> file_ok (nino s) (g (fileat s f)) ->
  kmoved true s (setfile f g s) (fun j => (fl_ref (g (fileat s f)) - fl_ref (fileat s f)) * one f j)
    (fun ip => holds_ino ip (fileat s f) - holds_ino ip (g (fileat s f))) nolk 0 0.
Proof.
  intros [Hw Ha] Hl Hg. split; try done.
  - split; [split|done]; [|apply Hw]. intros j. rewrite fileat_setfile. case_decide; [exact Hg|apply Hw].
  - intros j. unfold fsurplus, one. change (kv (setfile f g s)) with (kv s). rewrite fileat_setfile. destruct (decide (j = f)) as [->|].
    + rewrite decide_True by done. lia.
    + rewrite decide_False by tauto. lia.
  - intros ip. unfold isurplus. change (kv (setfile f g s)) with (kv s). change (rf (k_fs (setfile f g s)) ip) with (rf (k_fs s) ip).
    unfold setfile. simpl. destruct (lookup_lt_is_Some_2 _ _ Hl) as [x Hx].
    assert (Ex : fileat s f = x) by (by apply nth_lookup_Some). rewrite (zsum_insert _ _ _ x) by done. rewrite Ex. lia.
  - apply tx_same.
Qed.

(** ** Processes *)

Lemma ownat_range s i : po_dead (ownat (kv s) i) = false -> (i < length (fst (kv s)))%nat.
Proof. intros H. destruct (decide (i < length (fst (kv s)))%nat); [done|]. unfold ownat in H. by rewrite nth_overflow in H by lia. Qed.

Lemma setown_kmoved s s' i o :
  good_k s -> k_fs s' = k_fs s <| f_um := kps s' |> -> k_file s' = k_file s -> kv s' = putown i o (kv s) ->
  (i < length (fst (kv s)))%nat -> own_ok (nino s) o -> po_dead o = false ->
  kmoved false s s' (fun f => holds_fd f (ownat (kv s) i) - holds_fd f o) (fun ip => holds_cwd ip (ownat (kv s) i) - holds_cwd ip o) nolk 0 0.
Proof.
  intros [Hw Ha] Hf Hfl Hv Hi Ho Hd. assert (En : nino s' = nino s) by (unfold nino; by rewrite Hf).
  assert (Hfa : forall f, fileat s' f = fileat s f) by (intros f; unfold fileat; by rewrite Hfl).
  destruct (lookup_lt_is_Some_2 _ _ Hi) as [x Hx]. assert (Ex : ownat (kv s) i = x) by (by apply nth_lookup_Some). split; try done.
  - split; [split|].
    + intros f. rewrite En, Hfa. apply Hw.
    + intros j. rewrite En, Hv, ownat_putown by done. case_decide; [done|apply Hw].
    + unfold alive. rewrite Hv, ownat_putown by done. simpl. case_decide; [done|apply Ha].
  - intros f. unfold fsurplus. rewrite Hfa, Hv. simpl. rewrite (zsum_insert _ _ _ x) by done. rewrite Ex. lia.
  - intros ip. unfold isurplus, rf, inoat. rewrite Hf, Hfl, Hv. simpl. rewrite (zsum_insert _ _ _ x) by done. rewrite Ex. lia.
  - intros ip. unfold lk, inoat. by rewrite Hf.
  - rewrite Hf. apply tx_same.
  - by rewrite Hv.
Qed.
End Books.
Abbreviation ksame s s' := (kmoved true s s' none none nolk 0 0).

(** ** Running through the code *)

Create HintDb kmoved.
Ltac kgood := first [assumption | eapply km_good; eassumption].
(** The inode table keeps its length. *)
Ltac klen :=
  unfold nino in *;
  repeat match goal with
  | H : kmoved _ ?s ?s' _ _ _ _ _ |- context [length (f_ino (k_fs ?s'))] => rewrite (km_len _ _ _ _ _ _ _ _ H : length _ = length _)
  | H : kmoved _ ?s ?s' _ _ _ _ _, H' : context [length (f_ino (k_fs ?s'))] |- _ => rewrite (km_len _ _ _ _ _ _ _ _ H : length _ = length _) in H'
  end; first [done | lia].
(** What was seen of the locks, as of the first state. *)
Ltac klk :=
  repeat match goal with
  | H : kmoved _ ?s ?s' _ _ _ _ _, H' : lk (k_fs ?s') _ = _ |- _ => rewrite (km_lk _ _ _ _ _ _ _ _ H) in H'
  | H : kmoved _ ?s ?s' _ _ _ _ _, H' : context [lk (k_fs ?s') _] |- _ =>
      lazymatch type of H' with kmoved _ _ _ _ _ _ _ _ => fail | _ => rewrite (km_lk _ _ _ _ _ _ _ _ H) in H' end
  end.
Ltac kjoin :=
  repeat match goal with
  | H1 : kmoved _ ?s ?s1 _ _ _ _ _, H2 : kmoved _ ?s1 ?s2 _ _ _ _ _ |- kmoved _ ?s ?s3 _ _ _ _ _ =>
      let H := fresh "H" in pose proof (kmoved_trans _ _ _ _ _ _ _ _ _ _ _ _ _ _ _ H1 H2) as H; clear H1 H2; cbn beta in H
  end.
Ltac ksolve :=
  intros; cbn beta; unfold got, one, none, lk1, nolk, id, holds_ino, holds_cwd, fd1 in *; cbn beta in *; repeat case_decide; cbn [default from_option id andb fst snd] in *;
  simplify_eq; first [done | lia | congruence | idtac].
Ltac kdone :=
  klk; kjoin;
  match goal with
  | H : kmoved _ ?s ?s' _ _ _ _ _ |- kmoved _ ?s ?s' _ _ _ _ _ => refine (kmoved_ext _ _ _ _ _ _ _ _ _ _ _ _ _ _ H _ _ _ _ _ _); ksolve
  | |- kmoved _ ?s ?s _ _ _ _ _ => refine (kmoved_ext _ _ _ _ _ _ _ _ _ _ _ _ _ _ (ksame_refl s _) _ _ _ _ _ _); [kgood|ksolve..]
  end.

#[export] Hint Extern 2 (safe _ (liftum _) _ _) => apply liftum_moved; eauto 2 with pview : moved.
#[export] Hint Extern 2 (safe _ (iput _) _ _) => apply iput_moved; klen : moved.
#[export] Hint Extern 2 (safe _ (iunlockput _) _ _) => apply iunlockput_moved; klen : moved.
#[export] Hint Extern 2 (safe _ (idup _) _ _) => apply idup_moved; klen : moved.
#[export] Hint Extern 2 (safe _ (namei _ _) _ _) => apply namei_moved; klen : moved.
#[export] Hint Extern 2 (safe _ (modify (setino _ _)) _ _) => apply setino_quiet; intros; reflexivity : moved.

Lemma stati_same {X U : Type} `{TB : TxBalance X} `{UV : UmView U} ip (s : fsys X U) : returns (stati ip) (fun _ s' => same s s') s.
Proof. apply safe_gets, fsame_refl. Qed.
#[export] Hint Resolve stati_same : moved.

(** A call of file-system code. *)
Ltac kfs :=
  eapply safe_conseq; [apply onfs_safe; solve [eauto 3 with moved]|];
  let Hm := fresh "Hm" in let Hq := fresh "Hq" in let Hf := fresh "Hf" in
  cbn beta; intros ? ? [Hq Hf]; cbn beta in Hq; destruct_and?;
  match goal with H : moved (k_fs ?s) _ _ _ _ _ |- _ => assert (Hm : good_k s) by kgood; apply (moved_kmoved _ _ _ _ _ _ Hm) in H; [clear Hm Hf; rename H into Hm|exact Hf] end.
Ltac kcall := eapply safe_conseq; [solve [eauto 3 with kmoved]|]; cbn beta; intros; destruct_and?.
Ltac kcase b := tryif is_var b then destruct b; cbn [got inrange fst snd id] in * else destruct b eqn:?.
Ltac kstep :=
  cbn beta zeta;
  lazymatch goal with
  | |- safe _ (bind _ _) _ _ => apply safe_bind; kstep
  | |- safe _ (ret _) _ _ => apply safe_ret
  | |- safe _ get _ _ => apply safe_get
  | |- safe _ (gets _) _ _ => apply safe_gets
  | |- safe _ (sleepon _) _ _ => exact I
  | |- safe _ (panic _) _ _ => exact I
  | |- safe _ (undef _) _ _ => exact I
  | |- safe _ nofuel _ _ => exact I
  | |- safe _ (onfs _) _ _ => kfs
  | |- safe _ (ontx _) _ _ => unfold ontx; kfs
  | |- safe _ (onps _) _ _ => unfold onps; kfs
  | |- safe _ (onmem _) _ _ => unfold onmem, onps; kfs
  | |- safe _ (if ?b then _ else _) _ _ => destruct b eqn:?
  | |- safe _ (let '(_, _) := ?b in _) _ _ => kcase b
  | |- safe _ (match ?b with Some _ => _ | None => _ end) _ _ => kcase b
  | |- safe _ _ _ _ => kcall
  end.
Ltac ksteps := repeat kstep.

Section Files.
Context `{IM : Image} {X : Type} `{TB : TxBalance X}.
Implicit Types (s : kern X) (f ip : nat).

Definition kquiet {A} (m : M (kern X) A) : Prop := forall s, good_k s -> returns m (fun _ s' => ksame s s') s.

(** A pipe comes, changes or goes. *)
Lemma kpipe_same s p : good_k s -> ksame s (s <| k_pipe := p |>).
Proof. intros H. by apply parts_same. Qed.

Lemma onpi_quiet {A} pi (m : M (pst pstate) A) : tquiet m -> kquiet (onpi pi m).
Proof.
  intros Hm s Hs. unfold onpi. apply safe_bind, safe_get. destruct (k_pipe s !! pi) as [p|]; [|done].
  apply safe_zoom. eapply safe_conseq; [by apply Hm|]. cbn beta. intros a t Ht. by apply parts_same.
Qed.

Lemma oncs_quiet {A} (m : M (cst pstate) A) : cquiet m -> kquiet (oncs m).
Proof.
  intros Hm s Hs. apply safe_zoom. eapply safe_conseq; [by apply Hm|]. cbn beta. intros a t Ht. by apply parts_same.
Qed.

(** An assignment to a field of a file other than the count, the type and the inode. *)
Definition keeps_owner (g : file -> file) : Prop := forall x, fl_ref (g x) = fl_ref x /\ fl_type (g x) = fl_type x /\ fl_ip (g x) = fl_ip x.

Lemma setfile_ge s f g : ~ (f < length (k_file s))%nat -> setfile f g s = s.
Proof. intros H. destruct s. unfold setfile. cbn in *. f_equal. by rewrite list_insert_ge by lia. Qed.

Lemma setfile_same s f g : good_k s -> keeps_owner g -> ksame s (setfile f g s).
Proof.
  intros Hs Hg. destruct (decide (f < length (k_file s))%nat) as [Hl|Hl]; [|rewrite setfile_ge by done; by apply ksame_refl].
  destruct (Hg (fileat s f)) as (E1 & E2 & E3). refine (kmoved_ext _ _ _ _ _ _ _ _ _ _ _ _ _ _ (setfile_kmoved s f g Hs Hl _) _ _ _ _ _ _); try done.
  - unfold file_ok. rewrite E1, E2, E3. apply Hs.
  - intros j. rewrite E1. unfold none. lia.
  - intros j. unfold holds_ino, none. rewrite E2, E3. lia.
Qed.

Lemma setfile_setfile s f g h : setfile f h (setfile f g s) = setfile f (fun x => h (g x)) s.
Proof.
  destruct (decide (f < length (k_file s))%nat) as [Hl|Hl].
  - unfold setfile at 1 3. rewrite fileat_setfile, decide_True by done. unfold setfile. cbn. by rewrite list_insert_insert_eq.
  - rewrite (setfile_ge s f (fun x => h (g x))), (setfile_ge s f g) by done. by apply setfile_ge.
Qed.

(** *** kernel/file.c *)

Lemma find_free_range l k i : find_free l k = Some i -> (k <= i < k + length l)%nat /\ fl_ref (nth (i - k) l file0) = 0.
Proof.
  revert k. induction l as [|x l IH]; intros k; simpl; [done|]. destruct (Z.eqb_spec (fl_ref x) 0) as [E|E].
  - intros [= <-]. rewrite Nat.sub_diag. split; [lia|done].
  - intros H. destruct (IH _ H) as [H1 H2]. split; [lia|]. destruct (i - k)%nat eqn:En; [lia|]. by replace (i - S k)%nat with n in H2 by lia.
Qed.

(** A new file: its entry was free. *)
Definition fresh s s' f : Prop := (f < length (k_file s))%nat /\ fl_ref (fileat s f) = 0 /\ s' = setfile f (fun x => x <| fl_ref := 1 |>) s.

Lemma filealloc_kmoved s :
  good_k s -> returns filealloc (fun r s' => kmoved true s s' (got id r) none nolk 0 0 /\ match r with Some f => fresh s s' f | None => s' = s end) s.
Proof.
  intros Hs. unfold filealloc. apply safe_bind, safe_get. destruct (find_free (k_file s) 0) as [f|] eqn:E; [|apply safe_ret; split; [by apply ksame_refl|done]].
  apply find_free_range in E as [Hf Hr]. rewrite Nat.sub_0_r in Hr. change (fl_ref (fileat s f) = 0) in Hr. apply safe_bind, safe_modify, safe_ret.
  split; [|split_and!; [lia|done..]]. assert (Ht : fl_type (fileat s f) = FD_NONE) by (by apply Hs).
  refine (kmoved_ext _ _ _ _ _ _ _ _ _ _ _ _ _ _ (setfile_kmoved s f _ Hs _ _) _ _ _ _ _ _); try done; [lia| | |].
  - split; [done|]. simpl. by rewrite Ht.
  - intros j. simpl. unfold id. lia.
  - intros j. unfold holds_ino. simpl. rewrite Ht. done.
Qed.

Lemma filedup_kmoved f s : good_k s -> returns (filedup f) (fun r s' => kmoved true s s' (one f) none nolk 0 0 /\ r = f) s.
Proof.
  intros Hs. unfold filedup. apply safe_bind, safe_get. destruct (Z.ltb_spec (fl_ref (fileat s f)) 1); [done|]. apply safe_bind, safe_modify, safe_ret. split; [|done].
  refine (kmoved_ext _ _ _ _ _ _ _ _ _ _ _ _ _ _ (setfile_kmoved s f _ Hs _ _) _ _ _ _ _ _); try done.
  - apply fileat_range. lia.
  - split; simpl; [lia|apply Hs].
  - intros j. simpl. lia.
  - intros j. unfold holds_ino, none. simpl. lia.
Qed.

Lemma kpipeclose_quiet pi w : kquiet (kpipeclose pi w).
Proof.
  intros s Hs. unfold kpipeclose. apply safe_bind. eapply safe_conseq; [apply onpi_quiet; [apply pipeclose_quiet|done]|]. cbn beta. intros b s1 H1.
  destruct b; [|done]. apply safe_bind, safe_modify. pose proof (kpipe_same s1 (delete pi (k_pipe s1)) ltac:(kgood)) as H2. set (s2 := s1 <| k_pipe := _ |>) in *. clearbody s2. kstep. kdone.
Qed.

Lemma fileclose_kmoved f s : good_k s -> returns (fileclose f) (fun _ s' => kmoved true s s' (fun j => - one f j) none nolk 0 0) s.
Proof.
  intros Hs. unfold fileclose. apply safe_bind, safe_get. destruct (Z.ltb_spec (fl_ref (fileat s f)) 1) as [|Hr]; [done|].
  assert (Hl : (f < length (k_file s))%nat) by (apply fileat_range; lia). apply safe_bind, safe_modify, safe_bind, safe_get. rewrite fileat_setfile, decide_True by done.
  set (ff := fileat s f <| fl_ref := fl_ref (fileat s f) - 1 |>).
  change (fl_ref ff) with (fl_ref (fileat s f) - 1). change (fl_type ff) with (fl_type (fileat s f)). change (fl_ip ff) with (fl_ip (fileat s f)).
  destruct (Z.ltb_spec 0 (fl_ref (fileat s f) - 1)) as [Hp|Hp].
  { apply safe_ret. refine (kmoved_ext _ _ _ _ _ _ _ _ _ _ _ _ _ _ (setfile_kmoved s f _ Hs Hl _) _ _ _ _ _ _); try done.
    - split; simpl; [lia|apply Hs].
    - intros j. simpl. lia.
    - intros j. unfold holds_ino, none. simpl. lia. }
  apply safe_bind, safe_modify. rewrite setfile_setfile. cbn beta.
  pose proof (setfile_kmoved s f (fun x => x <| fl_ref := fl_ref x - 1 |> <| fl_ref := 0 |> <| fl_type := FD_NONE |>) Hs Hl ltac:(by split)) as H1.
  set (s1 := setfile f _ s) in *. clearbody s1. cbn [fl_ref] in H1. replace (fl_ref (fileat s f)) with 1 in H1 by lia.
  pose proof (kw_file s (proj1 Hs) f) as [_ Hip]. unfold holds_ino in H1. cbn [fl_type is_ino] in H1.
  destruct (fl_type (fileat s f)) eqn:Et; cbn [is_ino] in H1, Hip.
  - apply safe_ret. kdone.
  - eapply safe_conseq; [apply kpipeclose_quiet; kgood|]. cbn beta. intros _ s2 H2. kdone.
  - destruct (fl_ip (fileat s f)) as [ip|]; [|done]. pose proof (Hip eq_refl ip eq_refl). ksteps. kdone.
  - destruct (fl_ip (fileat s f)) as [ip|]; [|done]. pose proof (Hip eq_refl ip eq_refl). ksteps. kdone.
Qed.

Lemma filestat_quiet f addr : kquiet (filestat f addr).
Proof. intros s Hs. unfold filestat. ksteps. destruct (fl_type _); try (apply safe_ret; kdone); ksteps; kdone. Qed.

Lemma setfile_off_quiet f v : kquiet (modify (setfile f (fun x => x <| fl_off := u32 (fl_off x + v) |>))).
Proof. intros s Hs. apply safe_modify. by apply setfile_same. Qed.

Lemma fileread_quiet f addr n : kquiet (fileread f addr n).
Proof.
  intros s Hs. unfold fileread. ksteps; [apply ksame_refl; kgood|]. destruct (fl_type _).
  - done.
  - by apply onpi_quiet; [apply piperead_quiet|].
  - kstep; [|done]. kstep. kstep. apply (safe_seq _ _ _ (fun _ s' => kmoved true s s' none none (lk1 n0 true) 0 0)).
    + destruct (0 <? _); [eapply safe_conseq; [apply setfile_off_quiet; kgood|]; cbn beta; intros|apply safe_ret]; kdone.
    + intros _ s4 H4. ksteps. kdone.
  - kstep; [apply safe_ret; kdone|]. apply safe_bind. eapply safe_conseq; [apply oncs_quiet; [apply consoleread_quiet|done]|]. cbn beta. intros [[]] s1 H1; [|done]. done.
Qed.

Lemma filewrite_loop_quiet fuel f ip addr n i : kquiet (filewrite_loop fuel f ip addr n i).
Proof.
  revert i. induction fuel as [|fuel IH]; intros i s Hs; [done|]. cbn [filewrite_loop]. kstep; [|apply safe_ret; kdone].
  kstep. kstep. kstep. kstep. apply (safe_seq _ _ _ (fun _ s' => kmoved true s s' none none (lk1 ip true) 0 1)).
  - destruct (0 <? _); [eapply safe_conseq; [apply setfile_off_quiet; kgood|]; cbn beta; intros|apply safe_ret]; kdone.
  - intros _ s4 H4. kstep. kstep. kstep; [apply safe_ret; kdone|]. eapply safe_conseq; [apply IH; kgood|]. cbn beta. intros. kdone.
Qed.

Lemma filewrite_quiet f addr n : kquiet (filewrite f addr n).
Proof.
  intros s Hs. unfold filewrite. ksteps; [apply ksame_refl; kgood|]. destruct (fl_type _).
  - done.
  - apply safe_bind. eapply safe_conseq; [apply onpi_quiet; [apply pipewrite_quiet|done]|]. cbn beta. intros [] s1 H1; done.
  - kstep; [|done]. apply safe_bind. eapply safe_conseq; [by apply filewrite_loop_quiet|]. done.
  - kstep; [apply safe_ret; kdone|]. apply safe_bind. eapply safe_conseq; [apply oncs_quiet; [apply consolewrite_quiet|done]|]. cbn beta. intros [] s1 H1; done.
Qed.

Lemma pipealloc_bad_kmoved pi (f0 f1 : option nat) s :
  good_k s -> returns (pipealloc_bad pi f0 f1) (fun r s' => kmoved true s s' (fun j => - got id f0 j - got id f1 j) none nolk 0 0 /\ r = None) s.
Proof.
  intros Hs. unfold pipealloc_bad. apply (safe_seq _ _ _ (fun _ s' => ksame s s')); [kstep; [kstep|apply safe_ret]; kdone|]. intros _ s1 H1.
  apply (safe_seq _ _ _ (fun _ s' => kmoved true s s' (fun j => - got id f0 j) none nolk 0 0)).
  { destruct f0; [eapply safe_conseq; [apply fileclose_kmoved; kgood|]; cbn beta; intros|apply safe_ret]; kdone. }
  intros _ s2 H2. apply (safe_seq _ _ _ (fun _ s' => kmoved true s s' (fun j => - got id f0 j - got id f1 j) none nolk 0 0)).
  { destruct f1; [eapply safe_conseq; [apply fileclose_kmoved; kgood|]; cbn beta; intros|apply safe_ret]; kdone. }
  done.
Qed.

(** A new file becomes an end of a pipe. *)
Lemma setpipe_same s f g :
  good_k s -> fl_type (fileat s f) = FD_NONE -> (forall x, fl_ref (g x) = fl_ref x) -> (forall x, fl_type (g x) = FD_PIPE) ->
  fl_ref (fileat s f) <> 0 -> ksame s (setfile f g s).
Proof.
  intros Hs Ht Hr Hp Hz. refine (kmoved_ext _ _ _ _ _ _ _ _ _ _ _ _ _ _ (setfile_kmoved s f g Hs _ _) _ _ _ _ _ _); try done.
  - by apply fileat_range.
  - split; [by rewrite Hr|]. by rewrite Hp.
  - intros j. rewrite Hr. unfold none. lia.
  - intros j. unfold holds_ino. by rewrite Ht, Hp.
Qed.

Definition got2 (r : option (nat * nat)) (j : nat) : Z := match r with Some (a, b) => one a j + one b j | None => 0 end.

Lemma pipealloc_kmoved s : good_k s -> returns pipealloc (fun r s' => kmoved true s s' (got2 r) none nolk 0 0) s.
Proof.
  intros Hs. unfold pipealloc. apply safe_bind. eapply safe_conseq; [by apply filealloc_kmoved|]. cbn beta. intros [a|] s1 [H1 F1].
  2: { eapply safe_conseq; [apply pipealloc_bad_kmoved; kgood|]. cbn beta. intros r s2 [H2 ->]. kdone. }
  apply safe_bind. eapply safe_conseq; [apply filealloc_kmoved; kgood|]. cbn beta. intros [b|] s2 [H2 F2].
  2: { eapply safe_conseq; [apply pipealloc_bad_kmoved; kgood|]. cbn beta. intros r s3 [H3 ->]. kdone. }
  destruct F1 as (La & Ra & E1), F2 as (Lb & Rb & E2).
  assert (Ta : fl_type (fileat s a) = FD_NONE) by (by apply Hs).
  assert (Tb : fl_type (fileat s1 b) = FD_NONE) by (by apply (proj1 (km_good _ _ _ _ _ _ _ _ H1))).
  assert (Fa : fileat s1 a = fileat s a <| fl_ref := 1 |>) by (rewrite E1, fileat_setfile; by rewrite decide_True).
  assert (Hab : b <> a) by (intros ->; by rewrite Fa in Rb).
  assert (Fa2 : fileat s2 a = fileat s1 a) by (rewrite E2, fileat_setfile, decide_False; [done|naive_solver]).
  assert (Fb2 : fileat s2 b = fileat s1 b <| fl_ref := 1 |>) by (rewrite E2, fileat_setfile; by rewrite decide_True).
  clear E1 E2. apply safe_bind. unfold onmem, onps. eapply safe_conseq; [apply onfs_safe, liftum_moved, liftmem_pv|]. cbn beta. intros pi s3 [H3 E3].
  apply moved_kmoved in H3; [|kgood|done]. destruct (pi =? 0).
  { eapply safe_conseq; [apply pipealloc_bad_kmoved; kgood|]. cbn beta. intros r s4 [H4 ->]. kdone. }
  assert (Fs3 : forall f, fileat s3 f = fileat s2 f) by (intros f; by rewrite E3). clear E3.
  apply safe_bind, safe_modify. set (s4 := s3 <| k_pipe := _ |>). pose proof (kpipe_same s3 (k_pipe s4) ltac:(kgood) : ksame s3 s4) as H4.
  assert (Fs4 : forall f, fileat s4 f = fileat s2 f) by exact Fs3. clearbody s4. apply safe_bind, safe_modify.
  match goal with |- context [setfile a ?g s4] => pose proof (setpipe_same s4 a g ltac:(kgood)) as H5; set (s5 := setfile a g s4) in * end.
  assert (Fb5 : fileat s5 b = fileat s4 b) by (subst s5; rewrite fileat_setfile, decide_False; [done|naive_solver]). clearbody s5.
  rewrite Fs4, Fa2, Fa in H5. specialize (H5 Ta ltac:(done) ltac:(done) ltac:(done)). apply safe_bind, safe_modify, safe_ret.
  match goal with |- context [setfile b ?g s5] => pose proof (setpipe_same s5 b g ltac:(kgood)) as H6; set (s6 := setfile b g s5) in * end.
  rewrite Fb5, Fs4, Fb2 in H6. specialize (H6 Tb ltac:(done) ltac:(done) ltac:(done)). clearbody s6. clear - H1 H2 H3 H4 H5 H6. unfold got2. kdone.
Qed.
End Files.

#[export] Hint Resolve filedup_kmoved fileclose_kmoved filealloc_kmoved pipealloc_kmoved : kmoved.
#[export] Hint Extern 1 (good_k _) => kgood : kmoved.

(** ** Descriptors and directories *)

Section Procs.
Context `{IM : Image} {X : Type} `{TB : TxBalance X}.
Implicit Types (s : kern X) (f ip i : nat).

(** Descriptor [k] of the running process, and its directory. *)
Definition ofd s (k : nat) : option nat := nth k (po_ofile (ownat (kv s) (snd (kv s)))) None.
Definition ocwd s : option nat := po_cwd (ownat (kv s) (snd (kv s))).

Lemma ofd_curproc s k : nth k (p_ofile (curproc s)) None = ofd s k.
Proof. unfold ofd, kv. by rewrite <-own_procat. Qed.
Lemma ocwd_curproc s : p_cwd (curproc s) = ocwd s.
Proof. unfold ocwd, kv. by rewrite <-own_procat. Qed.

Lemma ofd_same c s s' tf ti μ b o : kmoved c s s' tf ti μ b o -> c = true -> forall k, ofd s' k = ofd s k.
Proof. intros H Hc k. unfold ofd. by rewrite (km_kv _ _ _ _ _ _ _ _ H Hc). Qed.
Lemma ocwd_same c s s' tf ti μ b o : kmoved c s s' tf ti μ b o -> c = true -> ocwd s' = ocwd s.
Proof. intros H Hc. unfold ocwd. by rewrite (km_kv _ _ _ _ _ _ _ _ H Hc). Qed.

Lemma ocwd_range s ip : good_k s -> ocwd s = Some ip -> (ip < nino s)%nat.
Proof. intros [Hw _] H. by eapply (kw_own s Hw (snd (kv s))). Qed.

(** The process [i] owns [o] after an assignment to its entry. *)
Lemma setproc_kmoved i g s :
  good_k s -> po_dead (ownat (kv s) i) = false -> own_ok (nino s) (own (g (procat (kps s) i))) -> dead (g (procat (kps s) i)) = false ->
  returns (onps (modify (setproc i g))) (fun _ s' =>
    kmoved false s s' (fun f => holds_fd f (ownat (kv s) i) - holds_fd f (own (g (procat (kps s) i))))
      (fun ip => holds_cwd ip (ownat (kv s) i) - holds_cwd ip (own (g (procat (kps s) i)))) nolk 0 0 /\
    kv s' = putown i (own (g (procat (kps s) i))) (kv s) /\ k_file s' = k_file s) s.
Proof.
  intros Hs Hi Ho Hd. apply safe_zoom, safe_zoom, safe_modify. set (s' := s <| k_fs := _ |>).
  assert (Hv : kv s' = putown i (own (g (procat (kps s) i))) (kv s)) by (unfold kv, kps; simpl; apply pv_setproc).
  split; [|done]. apply setown_kmoved; try done. by apply ownat_range.
Qed.

Lemma holds_fd_insert f d (l : list (option nat)) c k x :
  (k < length l)%nat -> holds_fd f (Pown d (<[k := x]> l) c) = holds_fd f (Pown d l c) - fd1 f (nth k l None) + fd1 f x.
Proof.
  intros H. destruct (lookup_lt_is_Some_2 _ _ H) as [y Hy]. unfold holds_fd. simpl. rewrite (zsum_insert _ _ _ y) by done. by rewrite (nth_lookup_Some _ _ _ _ Hy).
Qed.

Definition setfd (k : nat) (x : option nat) (o : pown) : pown := Pown (po_dead o) (<[k := x]> (po_ofile o)) (po_cwd o).

(** Descriptor [k] of process [i] becomes [x]. *)
Lemma setfd_kmoved i k x s :
  good_k s -> po_dead (ownat (kv s) i) = false -> (k < 16)%nat ->
  returns (onps (modify (setproc i (fun p => p <| p_ofile := <[k := x]> (p_ofile p) |>)))) (fun _ s' =>
    kmoved false s s' (fun f => fd1 f (nth k (po_ofile (ownat (kv s) i)) None) - fd1 f x) none nolk 0 0 /\
    kv s' = putown i (setfd k x (ownat (kv s) i)) (kv s) /\ k_file s' = k_file s) s.
Proof.
  intros Hs Hi Hk. pose proof (kw_own s (proj1 Hs) i) as (Hl & Hc & Hd). unfold kv in Hi, Hl, Hc, Hd. rewrite <-own_procat in Hi, Hl, Hc, Hd.
  eapply safe_conseq; [apply setproc_kmoved; [done|unfold kv; by rewrite <-own_procat| |exact Hi]|].
  - split_and!; [simpl; by rewrite length_insert|done|]. intros E. assert (Ed : po_dead (own (procat (kps s) i)) = true) by exact E. congruence.
  - cbn beta. intros _ s' (H1 & H2 & H3). unfold kv in *. rewrite <-own_procat in *. split_and!; [|done|done].
    refine (kmoved_ext _ _ _ _ _ _ _ _ _ _ _ _ _ _ H1 _ _ _ _ _ _); try done; intros j; [|unfold holds_cwd, own; simpl; unfold none; lia].
    unfold own at 2. simpl. rewrite holds_fd_insert by (simpl in Hl; lia). simpl.
    change (holds_fd j {| po_dead := _; po_ofile := p_ofile (procat (kps s) i); po_cwd := _ |}) with (holds_fd j (own (procat (kps s) i))). lia.
Qed.

Definition setdir (x : option nat) (o : pown) : pown := Pown (po_dead o) (po_ofile o) x.

(** The directory of process [i] becomes [x]. *)
Lemma setdir_kmoved i x s :
  good_k s -> po_dead (ownat (kv s) i) = false -> (forall ip, x = Some ip -> (ip < nino s)%nat) ->
  returns (onps (modify (setproc i (fun p => p <| p_cwd := x |>)))) (fun _ s' =>
    kmoved false s s' none (fun ip => fd1 ip (po_cwd (ownat (kv s) i)) - fd1 ip x) nolk 0 0 /\ kv s' = putown i (setdir x (ownat (kv s) i)) (kv s)) s.
Proof.
  intros Hs Hi Hx. pose proof (kw_own s (proj1 Hs) i) as (Hl & _ & _). unfold kv in Hi, Hl. rewrite <-own_procat in Hi, Hl.
  eapply safe_conseq; [apply setproc_kmoved; [done|unfold kv; by rewrite <-own_procat| |exact Hi]|].
  - split_and!; [done|done|]. intros E. assert (Ed : po_dead (own (procat (kps s) i)) = true) by exact E. congruence.
  - cbn beta. intros _ s' (H1 & H2 & _). unfold kv in *. rewrite <-own_procat in *. split; [|done].
    refine (kmoved_ext _ _ _ _ _ _ _ _ _ _ _ _ _ _ H1 _ _ _ _ _ _); try done. intros j. unfold holds_fd, own, none. simpl. lia.
Qed.

(** The running process changes directory. *)
Lemma setcwd_kmoved x s :
  good_k s -> (forall ip, x = Some ip -> (ip < nino s)%nat) ->
  returns (onps (modify (setproc (snd (kv s)) (fun p => p <| p_cwd := x |>)))) (fun _ s' =>
    kmoved false s s' none (fun ip => fd1 ip (ocwd s) - fd1 ip x) nolk 0 0 /\ (forall k, ofd s' k = ofd s k) /\ ocwd s' = x) s.
Proof.
  intros Hs Hx. eapply safe_conseq; [apply setdir_kmoved; [done|apply Hs|done]|]. cbn beta. intros _ s1 (H1 & Ev).
  assert (Ho : ownat (kv s1) (snd (kv s1)) = setdir x (ownat (kv s) (snd (kv s)))).
  { rewrite (km_cur _ _ _ _ _ _ _ _ H1), Ev, ownat_putown by (apply ownat_range, Hs). by rewrite decide_True. }
  split_and!; [done|intros k; unfold ofd; by rewrite Ho|unfold ocwd; by rewrite Ho].
Qed.
End Procs.
