(* ===== verification/KProcs.v ===== *)
(** [fork] and [exit] keep the books of KBalance.v: the child gets its own references, and an exited process has given back all of its own. *)

From S2P Require Import CString Prelude Safe Bytes Params Disk Sleeplock Tx Fs Riscv Kalloc Vm Proc Pipe Console ProcCaller Balance ProcView File KBalance.

Section Procs.
Context `{IM : Image} {X : Type} `{TB : TxBalance X}.
Implicit Types (s : kern X) (f ip i np : nat).

(** Nothing was taken and nothing was lost. *)
Record balanced s s' : Prop := {
  bal_files f : fsurplus s' f = fsurplus s f;
  bal_inodes ip : isurplus s' ip = isurplus s ip;
  bal_locks ip : lk (k_fs s') ip = lk (k_fs s) ip;
  bal_tx : tx_moved (f_tx (k_fs s)) (f_tx (k_fs s')) 0 0 }.

Lemma kmoved_balanced c s s' : kmoved c s s' none none nolk 0 0 -> kwf s' /\ alive s' /\ balanced s s'.
Proof.
  intros H. destruct (km_good _ _ _ _ _ _ _ _ H). split_and!; [done|done|]. split; [intros f|intros ip|apply H|apply H].
  - rewrite (km_f _ _ _ _ _ _ _ _ H). unfold none. lia.
  - rewrite (km_i _ _ _ _ _ _ _ _ H). unfold none. lia.
Qed.

(** *** [fork] *)

(** The child [np] has copies of the first [k] descriptors, and no directory. *)
Definition child s0 s np (k : nat) : Prop :=
  ownat (kv s) (snd (kv s)) = ownat (kv s0) (snd (kv s0)) /\ snd (kv s) <> np /\
  po_dead (ownat (kv s) np) = false /\ po_cwd (ownat (kv s) np) = None /\ forall j, (k <= j)%nat -> nth j (po_ofile (ownat (kv s) np)) None = None.

Lemma fork_born s s1 np :
  good_k s -> born (kps s) (kps s1) np -> fsonly s s1 -> k_fs s1 = k_fs s <| f_um := kps s1 |> ->
  kmoved false s s1 none none nolk 0 0 /\ child s s1 np 0.
Proof.
  intros Hs (Hi & Hd & Hv) E1 E2. pose proof Hs as [Hw Ha].
  assert (Hown : ownat (kv s) np = pown0) by (apply Hw; unfold kv; by rewrite <-own_procat).
  assert (Ho : own (procat (kps s) np) = pown0) by (rewrite own_procat; exact Hown). unfold own in Ho. injection Ho as _ Ho1 Ho2.
  rewrite Ho1, Ho2 in Hv. change (pv (kps s1)) with (kv s1) in Hv. change (pv (kps s)) with (kv s) in Hv.
  assert (Hl : (np < length (fst (kv s)))%nat) by (simpl; by rewrite length_map).
  assert (Hne : snd (kv s) <> np) by (intros E; unfold alive in Ha; rewrite E, Hown in Ha; done). split.
  - assert (H1 : kmoved false s s1 (fun f => holds_fd f (ownat (kv s) np) - holds_fd f (Pown false (replicate 16 None) None))
      (fun ip => holds_cwd ip (ownat (kv s) np) - holds_cwd ip (Pown false (replicate 16 None) None)) nolk 0 0).
    { apply setown_kmoved; try done. by rewrite E1. }
    rewrite Hown in H1. by refine (kmoved_ext _ _ _ _ _ _ _ _ _ _ _ _ _ _ H1 _ _ _ _ _ _).
  - unfold child. rewrite Hv. cbn [snd putown]. change (snd (putown np _ (kv s))) with (snd (kv s)). rewrite !ownat_putown by done.
    rewrite decide_False by done. rewrite decide_True by done. split_and!; try done. intros j _. do 16 (destruct j as [|j]; [done|]). by destruct j.
Qed.

Lemma child_kv s0 s s' np k : child s0 s np k -> kv s' = kv s -> child s0 s' np k.
Proof. unfold child. intros H ->. done. Qed.

Lemma fork_files_kmoved s0 np s :
  kmoved false s0 s none none nolk 0 0 -> child s0 s np 0 ->
  returns (fork_files (snd (kv s0)) np) (fun _ s' => kmoved false s0 s' none none nolk 0 0 /\ child s0 s' np 16) s.
Proof.
  intros H0 Hc. unfold fork_files.
  apply (safe_each_n _ (fun k s' => kmoved false s0 s' none none nolk 0 0 /\ child s0 s' np (Z.to_nat k)) 0 (Z.to_nat NOFILE)); [done|].
  intros i s1 Hi [H1 C1]. change (0 + Z.of_nat (Z.to_nat NOFILE)) with 16 in Hi. apply safe_bind, safe_get. cbn beta.
  pose proof C1 as (Eo & Hne & Hd & Hcw & Hn).
  destruct (nth (Z.to_nat i) (p_ofile (procat (kps s1) (snd (kv s0)))) None) as [f|].
  - apply safe_bind. eapply safe_conseq; [apply filedup_kmoved; kgood|]. cbn beta. intros g s2 [H2 ->].
    assert (C2 : child s0 s2 np (Z.to_nat i)) by (eapply child_kv; [exact C1|by apply (km_kv _ _ _ _ _ _ _ _ H2)]).
    clear C1 Eo Hne Hd Hcw Hn. destruct C2 as (Eo & Hne & Hd & Hcw & Hn).
    eapply safe_conseq; [apply (setfd_kmoved np (Z.to_nat i) (Some f)); [kgood|done|lia]|]. cbn beta. intros _ s3 (H3 & Ev & _).
    rewrite Hn in H3 by lia. split; [clear - H1 H2 H3; kdone|].
    assert (Hl : (np < length (fst (kv s2)))%nat) by (by apply ownat_range). unfold child. rewrite Ev. change (snd (putown np _ (kv s2))) with (snd (kv s2)).
    rewrite !ownat_putown by done. rewrite decide_False by done. rewrite decide_True by done. split_and!; try done.
    intros j Hj. cbn [setfd po_ofile]. rewrite nth_lookup, list_lookup_insert_ne by lia. rewrite <-nth_lookup. apply Hn. lia.
  - apply safe_ret. split; [done|]. split_and!; try done. intros j Hj. apply Hn. lia.
Qed.

Lemma setown_same i g s : good_k s -> own (g (procat (kps s) i)) = own (procat (kps s) i) ->
  returns (onps (modify (setproc i g))) (fun _ s' => ksame s s') s.
Proof.
  intros Hs E. unfold onps. eapply safe_conseq; [apply onfs_safe, liftum_moved, safe_modify, setproc_pv, E|]. cbn beta. intros _ s' [H Hf]. by apply moved_kmoved.
Qed.

(** A change of the process table alone. *)
Lemma onps_safe {A} (m : M pstate A) Q s :
  returns m Q (kps s) -> returns (onps m) (fun a s' => Q a (kps s') /\ fsonly s s' /\ k_fs s' = k_fs s <| f_um := kps s' |>) s.
Proof. intros H. apply safe_zoom, safe_zoom. eapply safe_conseq; [exact H|]. done. Qed.

Lemma own_fields p g : p_state (g p) = p_state p -> p_ofile (g p) = p_ofile p -> p_cwd (g p) = p_cwd p -> own (g p) = own p.
Proof. unfold own, dead. by intros -> -> ->. Qed.

(** The directory of the child, kernel/proc.c:286. *)
Lemma fork_cwd_kmoved {A} (k : M (kern X) A) Q s0 np c s :
  kmoved false s0 s none none nolk 0 0 -> child s0 s np 16 -> (c < nino s0)%nat ->
  (forall s', kmoved false s0 s' none none nolk 0 0 -> po_dead (ownat (kv s') np) = false -> returns k Q s') ->
  returns (let* d := onfs (idup c) in onps (modify (setproc np (fun p => p <| p_cwd := Some d |>))) ;;; k) Q s.
Proof.
  intros H0 Hc Hr Hk. kstep. subst. eapply child_kv in Hc as (_ & _ & Hd & Hcw & _); [|by apply (km_kv _ _ _ _ _ _ _ _ Hm)].
  apply safe_bind. eapply safe_conseq; [apply (setdir_kmoved np (Some c)); [kgood|done|]|].
  - intros ip [= <-]. klen.
  - cbn beta. intros _ s2 (H2 & Ev). rewrite Hcw in H2. apply Hk; [clear - H0 Hm H2; kdone|]. rewrite Ev, ownat_putown by (by apply ownat_range). by rewrite decide_True.
Qed.

Lemma kfork_kmoved forkret s : good_k s -> returns (kfork forkret) (fun _ s' => kmoved false s s' none none nolk 0 0) s.
Proof.
  intros Hs. unfold kfork. apply safe_bind, safe_get. cbn beta zeta. change (ps_cur (kps s)) with (snd (kv s)). apply safe_bind.
  eapply safe_conseq; [apply onps_safe, fork_mem_pv|]. cbn beta. intros [np|] s1 (Hb & F1 & F2).
  2: { apply safe_ret. refine (kmoved_ext _ _ _ _ _ _ _ _ _ _ _ _ _ _ (parts_same s s1 _ _ _ Hb Hs) _ _ _ _ _ _); try done; [by rewrite F2..|by rewrite F1]. }
  destruct (fork_born s s1 np Hs Hb F1 F2) as [H1 C1]. clear Hb F1 F2.
  apply safe_bind. eapply safe_conseq; [by apply fork_files_kmoved|]. cbn beta. intros _ s2 [H2 C2]. apply safe_bind, safe_get. cbn beta.
  assert (Ecw : p_cwd (procat (kps s2) (snd (kv s))) = ocwd s).
  { destruct C2 as (E & _). pose proof (km_cur _ _ _ _ _ _ _ _ H2) as Ec. rewrite Ec in E. unfold ocwd. rewrite <-E. unfold kv. by rewrite <-own_procat. }
  rewrite Ecw. destruct (ocwd s) as [c|] eqn:Ec; [|done]. pose proof (ocwd_range s c Hs Ec) as Hc.
  apply (fork_cwd_kmoved _ _ s); [done..|]. intros s3 H3 Hd. apply safe_bind.
  eapply safe_conseq; [apply setown_same; [kgood|by apply own_fields]|]. cbn beta. intros _ s4 H4. apply safe_bind, safe_get. cbn beta zeta. apply safe_bind.
  eapply safe_conseq; [apply setown_same; [kgood|by apply own_fields]|]. cbn beta. intros _ s5 H5. apply safe_bind.
  assert (Hd5 : dead (procat (kps s5) np) = false).
  { change (po_dead (own (procat (kps s5) np)) = false). rewrite own_procat. change (pv (kps s5)) with (kv s5).
    rewrite (km_kv _ _ _ _ _ _ _ _ H5), (km_kv _ _ _ _ _ _ _ _ H4); done. }
  eapply safe_conseq; [apply setown_same; [kgood|]|].
  - unfold own. rewrite Hd5. done.
  - cbn beta. intros _ s6 H6. apply safe_ret. clear - H3 H4 H5 H6. kdone.
Qed.

(** *** [exit] *)

(** The first [k] descriptors of the running process are closed. *)
Definition closed s0 s (k : nat) : Prop := kmoved false s0 s none none nolk 0 0 /\ (forall j, (j < k)%nat -> ofd s j = None).

Lemma exit_files_kmoved s0 : good_k s0 -> returns (exit_files (snd (kv s0))) (fun _ s' => closed s0 s' 16) s0.
Proof.
  intros Hs. unfold exit_files. apply (safe_each_n _ (fun k s' => closed s0 s' (Z.to_nat k)) 0 (Z.to_nat NOFILE)).
  { split; [kdone|intros; lia]. }
  intros k s1 Hk [H1 C1]. change (0 + Z.of_nat (Z.to_nat NOFILE)) with 16 in Hk. apply safe_bind, safe_get. cbn beta.
  pose proof (km_cur _ _ _ _ _ _ _ _ H1) as Ec. rewrite <-Ec. change (procat (kps s1) (snd (kv s1))) with (curproc s1). rewrite ofd_curproc.
  destruct (ofd s1 (Z.to_nat k)) as [f|] eqn:Ef.
  - apply safe_bind. eapply safe_conseq; [apply fileclose_kmoved; kgood|]. cbn beta. intros _ s2 H2.
    pose proof (ofd_same _ _ _ _ _ _ _ _ H2 eq_refl) as E2. rewrite <-(km_cur _ _ _ _ _ _ _ _ H2).
    pose proof (km_good _ _ _ _ _ _ _ _ H2) as G2.
    eapply safe_conseq; [apply (setfd_kmoved (snd (kv s2)) (Z.to_nat k) None); [done|apply G2|lia]|]. cbn beta. intros _ s3 (H3 & Ev & _).
    change (nth (Z.to_nat k) (po_ofile (ownat (kv s2) (snd (kv s2)))) None) with (ofd s2 (Z.to_nat k)) in H3. rewrite E2, Ef in H3. split; [clear - H1 H2 H3; kdone|].
    intros j Hj. unfold ofd. rewrite Ev. change (snd (putown _ _ (kv s2))) with (snd (kv s2)). rewrite ownat_putown by (apply ownat_range, G2).
    rewrite decide_True by done. cbn [setfd po_ofile]. destruct (kw_own s2 (proj1 G2) (snd (kv s2))) as (Hl & _). destruct (decide (j = Z.to_nat k)) as [->|].
    + rewrite nth_lookup, list_lookup_insert_eq by lia. done.
    + rewrite nth_lookup, list_lookup_insert_ne by done. rewrite <-nth_lookup. change (ofd s2 j = None). rewrite E2. apply C1. lia.
  - apply safe_ret. split; [done|]. intros j Hj. destruct (decide (j = Z.to_nat k)) as [->|]; [done|]. apply C1. lia.
Qed.

Lemma all_closed (l : list (option nat)) : length l = 16%nat -> (forall j, (j < 16)%nat -> nth j l None = None) -> l = replicate 16 None.
Proof.
  intros Hl Hn. apply list_eq_same_length with 16%nat; [by rewrite length_replicate|done|]. intros j x y Hj Hx Hy.
  specialize (Hn j Hj). rewrite (nth_lookup_Some _ _ _ _ Hx) in Hn. apply lookup_replicate in Hy as [-> _]. done.
Qed.

Lemma exit_zombie_balanced status s :
  good_k s -> (forall j, (j < 16)%nat -> ofd s j = None) -> ocwd s = None -> returns (onps (exit_zombie status)) (fun _ s' => kwf s' /\ balanced s s') s.
Proof.
  intros Hs Hf Hc. pose proof Hs as [Hw Ha]. eapply safe_conseq; [apply onps_safe, exit_zombie_pv|]. cbn beta. intros _ s1 (Hv & F1 & F2).
  set (cur := snd (kv s)). assert (Hl : (cur < length (fst (kv s)))%nat) by (by apply ownat_range).
  assert (Eo : own (procat (kps s) cur) = ownat (kv s) cur) by apply own_procat.
  assert (Eall : ownat (kv s) cur = Pown false (replicate 16 None) None).
  { destruct (kw_own s Hw cur) as (H16 & _). pose proof (all_closed _ H16 Hf) as E. fold cur in E. change (po_cwd (ownat (kv s) cur) = None) in Hc.
    change (po_dead (ownat (kv s) cur) = false) in Ha. destruct (ownat (kv s) cur). simpl in *. congruence. }
  assert (Hv1 : kv s1 = putown cur pown0 (kv s)).
  { unfold kv at 1. rewrite Hv. change (ps_cur (kps s)) with cur. rewrite Eall in Eo. unfold own in Eo. injection Eo as _ -> ->. done. }
  assert (En : nino s1 = nino s) by (unfold nino; by rewrite F2). assert (Efl : k_file s1 = k_file s) by (by rewrite F1).
  destruct (lookup_lt_is_Some_2 _ _ Hl) as [x Hx]. assert (Ex : ownat (kv s) cur = x) by (by apply nth_lookup_Some). rewrite Eall in Ex. subst x.
  split; [split|split].
  - intros f. unfold fileat. rewrite En, Efl. apply Hw.
  - intros i. rewrite En, Hv1, ownat_putown by done. case_decide; [|apply Hw]. by split_and!.
  - intros f. unfold fsurplus, fileat. rewrite Efl, Hv1. simpl. rewrite (zsum_insert _ _ _ _ _ Hx). unfold holds_fd, pown0. simpl. unfold fd1. simpl. lia.
  - intros ip. unfold isurplus, rf, inoat. rewrite F2, Efl, Hv1. simpl. rewrite (zsum_insert _ _ _ _ _ Hx). unfold holds_cwd, pown0. simpl. lia.
  - intros ip. unfold lk, inoat. by rewrite F2.
  - rewrite F2. apply tx_same.
Qed.

Lemma balanced_trans c s s1 s2 : kmoved c s s1 none none nolk 0 0 -> balanced s1 s2 -> balanced s s2.
Proof.
  intros H1 [B1 B2 B3 B4]. destruct (kmoved_balanced _ _ _ H1) as (_ & _ & [A1 A2 A3 A4]). split; [congruence..|].
  intros Hf. destruct (A4 Hf) as (Hf1 & ? & ?). destruct (B4 Hf1) as (? & ? & ?). split_and!; [done|lia|lia].
Qed.

Lemma kexit_balanced status s : good_k s -> returns (kexit status) (fun _ s' => kwf s' /\ balanced s s') s.
Proof.
  intros Hs. unfold kexit. apply safe_bind, safe_get. cbn beta zeta. case_decide; [done|]. change (ps_cur (kps s)) with (snd (kv s)).
  apply safe_bind. eapply safe_conseq; [by apply exit_files_kmoved|]. cbn beta. intros _ s1 [H1 C1]. kstep. apply safe_bind, safe_get. cbn beta.
  pose proof (ofd_same _ _ _ _ _ _ _ _ Hm eq_refl) as E2. pose proof (km_cur _ _ _ _ _ _ _ _ H1) as K1. pose proof (km_cur _ _ _ _ _ _ _ _ Hm) as K2.
  rewrite <-K1, <-K2. change (procat (kps s') (snd (kv s'))) with (curproc s'). rewrite ocwd_curproc. destruct (ocwd s') as [ip|] eqn:Ec; [|done].
  pose proof (ocwd_range s' ip ltac:(kgood) Ec) as Hr. kstep. kstep.
  match goal with H : kmoved _ s' ?t _ _ _ _ _, H' : kmoved _ ?t s'1 _ _ _ _ _ |- _ =>
    pose proof (ofd_same _ _ _ _ _ _ _ _ H eq_refl) as E3; pose proof (ofd_same _ _ _ _ _ _ _ _ H' eq_refl) as E4;
    pose proof (ocwd_same _ _ _ _ _ _ _ _ H eq_refl) as O3; pose proof (ocwd_same _ _ _ _ _ _ _ _ H' eq_refl) as O4;
    rewrite <-(km_cur _ _ _ _ _ _ _ _ H), <-(km_cur _ _ _ _ _ _ _ _ H') end.
  apply safe_bind. eapply safe_conseq; [apply (setcwd_kmoved None); [kgood|done]|]. cbn beta. intros _ s5 (H5 & E5 & O5). rewrite O4, O3, Ec in H5.
  eapply safe_conseq; [apply exit_zombie_balanced; [kgood| |done]|].
  - intros j Hj. rewrite E5, E4, E3, E2. by apply C1.
  - cbn beta. intros _ s6 [Hw B]. split; [done|]. eapply (balanced_trans false); [|exact B]. clear - H1 Hm Hm0 Hm1 H5. kdone.
Qed.
End Procs.
