(* ===== verification/KCalls.v ===== *)
(** Every system call keeps the books of KBalance.v: whatever path it takes, when it returns it has given back every reference to a file or an
    inode, every inode lock, every buffer and every log operation that it took and that no table owns. *)

From S2P Require Import CString Prelude Safe Bytes Params Disk Sleeplock Tx Fs Riscv Kalloc Vm Proc Pipe Console ProcCaller Balance ProcView File KBalance KProcs Syscall Sysfile Sysproc.

Section Calls.
Context `{IM : Image} {X : Type} `{TB : TxBalance X}.
Implicit Types (s : kern X) (f ip dp : nat).

(** ** Arguments *)

Lemma setcur_safe g Q s : returns (onps (modify (setproc (snd (kv s)) g))) Q s -> returns (setcur g) Q s.
Proof. done. Qed.

Lemma argraw_quiet n : kquiet (argraw n).
Proof. intros s Hs. unfold argraw. ksteps. kdone. Qed.
#[local] Hint Extern 1 (safe _ (argraw _) _ _) => apply argraw_quiet : kmoved.
Lemma argint_quiet n : kquiet (argint n).
Proof. intros s Hs. unfold argint. ksteps. kdone. Qed.
#[local] Hint Extern 1 (safe _ (argint _) _ _) => apply argint_quiet : kmoved.
Lemma argaddr_quiet n : kquiet (argaddr n).
Proof. apply argraw_quiet. Qed.
#[local] Hint Extern 1 (safe _ (argaddr _) _ _) => apply argaddr_quiet : kmoved.
Lemma fetchaddr_quiet a : kquiet (fetchaddr a).
Proof. intros s Hs. unfold fetchaddr. ksteps; kdone. Qed.
#[local] Hint Extern 1 (safe _ (fetchaddr _) _ _) => apply fetchaddr_quiet : kmoved.
Lemma fetchstr_quiet a n : kquiet (fetchstr a n).
Proof. intros s Hs. unfold fetchstr. ksteps; kdone. Qed.
#[local] Hint Extern 1 (safe _ (fetchstr _ _) _ _) => apply fetchstr_quiet : kmoved.
Lemma argstr_quiet n k : kquiet (argstr n k).
Proof. intros s Hs. unfold argstr. ksteps. kdone. Qed.
#[local] Hint Extern 1 (safe _ (argstr _ _) _ _) => apply argstr_quiet : kmoved.

(** The directory of the running process exists. *)
Lemma cwd_kmoved s : good_k s -> returns cwd (fun c s' => ksame s s' /\ (c < nino s)%nat /\ ocwd s = Some c) s.
Proof.
  intros Hs. unfold cwd. kstep. rewrite ocwd_curproc. destruct (ocwd s) as [c|] eqn:E; [|done]. apply safe_ret. split_and!; [kdone|by apply (ocwd_range s)|done].
Qed.
#[local] Hint Resolve cwd_kmoved : kmoved.

Lemma namei_kmoved path s : good_k s -> returns (namei_ path) (fun r s' => kmoved true s s' none (got id r) nolk 0 0 /\ inrange id r (nino s)) s.
Proof. intros Hs. unfold namei_. kstep. kstep. split; [kdone|]. by destruct (a0); simpl in *; [klen|]. Qed.

Lemma nameiparent_kmoved path s :
  good_k s -> returns (nameiparent_ path) (fun r s' => kmoved true s s' none (got id (fst r)) nolk 0 0 /\ inrange id (fst r) (nino s)) s.
Proof.
  intros Hs. unfold nameiparent_, nameiparent. kstep. eapply safe_conseq; [apply onfs_safe, namex_moved; klen|]. cbn beta. intros r s2 [[Hm2 Hr2] F2].
  apply moved_kmoved in Hm2; [|kgood|done]. split; [kdone|]. by destruct (fst r); simpl in *; [klen|].
Qed.

(** ** Descriptors *)

Lemma argfd_kmoved n s :
  good_k s -> returns (argfd n) (fun r s' => ksame s s' /\ match r with Some (fd, f) => 0 <= fd < 16 /\ ofd s' (Z.to_nat fd) = Some f | None => True end) s.
Proof.
  intros Hs. unfold argfd. kstep. kstep; [kstep; split; [kdone|done]|]. kstep. rewrite ofd_curproc.
  destruct (ofd s' (Z.to_nat a)) as [f|] eqn:E; apply safe_ret; (split; [kdone|]); [|done]. split; [|done]. change NOFILE with 16 in *. lia.
Qed.

Lemma setofile_kmoved fd x s :
  good_k s -> 0 <= fd < 16 ->
  returns (setofile fd x) (fun _ s' => kmoved false s s' (fun f => fd1 f (ofd s (Z.to_nat fd)) - fd1 f x) none nolk 0 0 /\
    (forall k, ofd s' k = if decide (k = Z.to_nat fd) then x else ofd s k) /\ k_file s' = k_file s) s.
Proof.
  intros Hs Hf. unfold setofile. apply setcur_safe. eapply safe_conseq; [apply (setfd_kmoved _ (Z.to_nat fd) x); [done|apply Hs|lia]|].
  cbn beta. intros _ s1 (H1 & Ev & Ef). split_and!; [done| |done]. intros k. unfold ofd at 1. rewrite (km_cur _ _ _ _ _ _ _ _ H1), Ev, ownat_putown by (apply ownat_range, Hs).
  rewrite decide_True by done. cbn [setfd po_ofile]. destruct (kw_own s (proj1 Hs) (snd (kv s))) as (Hl & _). case_decide as E.
  - subst. rewrite nth_lookup, list_lookup_insert_eq by lia. done.
  - rewrite nth_lookup, list_lookup_insert_ne by done. by rewrite <-nth_lookup.
Qed.

(** The reference goes to the table of the process, if a descriptor is free. *)
Lemma fdalloc_kmoved f s :
  good_k s ->
  returns (fdalloc f) (fun fd s' => kmoved false s s' (fun j => if fd <? 0 then 0 else - one f j) none nolk 0 0 /\ k_file s' = k_file s /\
    (fd = -1 /\ s' = s \/ 0 <= fd < 16 /\ ofd s (Z.to_nat fd) = None /\ forall k, ofd s' k = if decide (k = Z.to_nat fd) then Some f else ofd s k)) s.
Proof.
  intros Hs. unfold fdalloc.
  apply (safe_seq _ _ _ (fun r s' => match r with
    | Some fd => kmoved false s s' (fun j => - one f j) none nolk 0 0 /\ k_file s' = k_file s /\
        0 <= fd < 16 /\ ofd s (Z.to_nat fd) = None /\ forall k, ofd s' k = if decide (k = Z.to_nat fd) then Some f else ofd s k
    | None => s' = s end)).
  - assert (Hl : forall n i, 0 <= i -> i + Z.of_nat n = 16 -> returns (floop (fun fd =>
      let* s := get in
      match nth (Z.to_nat fd) (p_ofile (curproc s)) None with
      | None => setofile fd (Some f) ;;; ret (Some fd)
      | Some _ => ret None
      end) i n) (fun r s' => match r with
    | Some fd => kmoved false s s' (fun j => - one f j) none nolk 0 0 /\ k_file s' = k_file s /\
        0 <= fd < 16 /\ ofd s (Z.to_nat fd) = None /\ forall k, ofd s' k = if decide (k = Z.to_nat fd) then Some f else ofd s k
    | None => s' = s end) s); [|by apply (Hl 16%nat 0)].
    induction n as [|n IH]; intros i Hi Hn; cbn [floop]; [done|]. apply safe_bind. apply safe_bind, safe_get. cbn beta. rewrite ofd_curproc.
    destruct (ofd s (Z.to_nat i)) as [g|] eqn:E; [apply safe_ret, IH; lia|]. apply safe_bind. eapply safe_conseq; [apply setofile_kmoved; [done|lia]|].
    cbn beta. intros _ s1 (H1 & H2 & H3). apply safe_ret, safe_ret. rewrite E in H1. split_and!; [kdone|done|lia|lia|done|done].
  - intros [fd|] s1 H1; apply safe_ret; [|subst; split_and!; [kdone|done|left; done]]. destruct H1 as (H1 & H2 & H3 & H4). split_and!; [|done|by right].
    destruct (Z.ltb_spec fd 0); [lia|]. done.
Qed.

#[local] Hint Resolve namei_kmoved nameiparent_kmoved argfd_kmoved fdalloc_kmoved : kmoved.
#[local] Hint Extern 1 (safe _ (fileread _ _ _) _ _) => apply fileread_quiet : kmoved.
#[local] Hint Extern 1 (safe _ (filewrite _ _ _) _ _) => apply filewrite_quiet : kmoved.
#[local] Hint Extern 1 (safe _ (filestat _ _) _ _) => apply filestat_quiet : kmoved.

(** ** kernel/sysfile.c *)

Abbreviation kbal m := (forall s, good_k s -> returns m (fun _ s' => kmoved false s s' none none nolk 0 0) s).

Lemma sys_read_kmoved : kbal sys_read.
Proof. intros s Hs. unfold sys_read. ksteps; kdone. Qed.
Lemma sys_write_kmoved : kbal sys_write.
Proof. intros s Hs. unfold sys_write. ksteps; kdone. Qed.
Lemma sys_fstat_kmoved : kbal sys_fstat.
Proof. intros s Hs. unfold sys_fstat. ksteps; kdone. Qed.

Lemma sys_dup_kmoved : kbal sys_dup.
Proof. intros s Hs. unfold sys_dup. ksteps; kdone. Qed.

Lemma sys_close_kmoved : kbal sys_close.
Proof.
  intros s Hs. unfold sys_close. ksteps; [|kdone]. destruct_and?. apply safe_bind. eapply safe_conseq; [apply setofile_kmoved; [kgood|lia]|].
  cbn beta. intros _ s2 (Hm & _). rewrite H2 in Hm. ksteps. kdone.
Qed.

Lemma link_bad_kmoved ip s :
  good_k s -> (ip < nino s)%nat -> returns (link_bad ip) (fun _ s' => kmoved true s s' none (fun j => - one ip j) nolk 0 (-1)) s.
Proof. intros Hs Hi. unfold link_bad, setino_. ksteps. kdone. Qed.

#[local] Hint Extern 1 (safe _ (link_bad _) _ _) => apply link_bad_kmoved; [kgood|klen] : kmoved.

Lemma link_entry_kmoved ip new s :
  good_k s -> (ip < nino s)%nat -> returns (link_entry ip new) (fun _ s' => kmoved true s s' none (fun j => - one ip j) nolk 0 (-1)) s.
Proof.
  intros Hs Hi. unfold link_entry, inode_. kstep. kstep. destruct o as [dp|]; cbn [got inrange] in *.
  - kstep. kstep. kstep. apply (safe_seq _ _ _ (fun _ s' => kmoved true s s' none (one dp) (lk1 dp true) 0 0)); [ksteps; kdone|].
    intros r s3 Hm3. ksteps; kdone.
  - ksteps. kdone.
Qed.
#[local] Hint Extern 1 (safe _ (link_entry _ _) _ _) => apply link_entry_kmoved; [kgood|klen] : kmoved.

Lemma sys_link_kmoved : kbal sys_link.
Proof. intros s Hs. unfold sys_link, inode_, setino_. ksteps; kdone. Qed.

Lemma isdirempty_loop_quiet fuel dp off : kquiet (isdirempty_loop fuel dp off).
Proof.
  revert off. induction fuel as [|fuel IH]; intros off s Hs; [done|]. cbn [isdirempty_loop]. unfold inode_. ksteps; try kdone.
  eapply safe_conseq; [apply IH; kgood|]. cbn beta. intros. kdone.
Qed.
#[local] Hint Extern 1 (safe _ (isdirempty_loop _ _ _) _ _) => apply isdirempty_loop_quiet : kmoved.

Lemma isdirempty_quiet dp : kquiet (isdirempty dp).
Proof. intros s Hs. unfold isdirempty, inode_. ksteps. kdone. Qed.
#[local] Hint Extern 1 (safe _ (isdirempty _) _ _) => apply isdirempty_quiet : kmoved.

Lemma unlink_bad_kmoved dp s :
  good_k s -> (dp < nino s)%nat -> returns (unlink_bad dp) (fun _ s' => kmoved true s s' none (fun j => - one dp j) (lk1 dp false) 0 (-1)) s.
Proof. intros Hs Hi. unfold unlink_bad. ksteps. kdone. Qed.
#[local] Hint Extern 1 (safe _ (unlink_bad _) _ _) => apply unlink_bad_kmoved; [kgood|klen] : kmoved.

Lemma unlink_entry_kmoved dp ip off s :
  good_k s -> (dp < nino s)%nat -> (ip < nino s)%nat -> lk (k_fs s) dp = true ->
  returns (unlink_entry dp ip off) (fun _ s' => kmoved true s s' none (fun j => - one dp j - one ip j) (lk1 dp false) 0 (-1)) s.
Proof.
  intros Hs Hd Hi Hk. unfold unlink_entry, inode_, setino_. kstep. kstep. kstep; [done|].
  apply (safe_seq _ _ _ (fun _ s' => kmoved true s s' none none (lk1 ip true) 0 0)); [ksteps; kdone|]. intros e s3 Hm3.
  kstep; [ksteps; kdone|]. kstep. kstep; [done|]. kstep.
  apply (safe_seq _ _ _ (fun _ s' => kmoved true s s' none none (lk1 ip true) 0 0)); [ksteps; kdone|]. intros _ s5 Hm5. ksteps. kdone.
Qed.

Lemma sys_unlink_kmoved : kbal sys_unlink.
Proof.
  intros s Hs. unfold sys_unlink. ksteps; try kdone. eapply safe_conseq; [apply unlink_entry_kmoved; [kgood|klen|klen|]|].
  - rewrite (km_lk _ _ _ _ _ _ _ _ Hm1), (km_lk _ _ _ _ _ _ _ _ Hm0). unfold lk1. by rewrite decide_True.
  - cbn beta. intros. kdone.
Qed.

(** What [create] and [open] pass on: the inode, locked. *)
Definition locked (r : option nat) : nat -> option bool := match r with Some ip => lk1 ip true | None => nolk end.
Definition held s (r : option nat) : Prop := match r with Some ip => lk (k_fs s) ip = false /\ (ip < nino s)%nat | None => True end.

Lemma create_fail_kmoved dp ip s :
  good_k s -> (dp < nino s)%nat -> (ip < nino s)%nat ->
  returns (create_fail dp ip) (fun r s' => kmoved true s s' none (fun j => - one dp j - one ip j) (fun j => match lk1 dp false j with Some x => Some x | None => lk1 ip false j end) 0 0 /\ r = None) s.
Proof. intros Hs Hd Hi. unfold create_fail, setino_. ksteps. split; [kdone|done]. Qed.

Lemma create_links_kmoved dp ip name type s :
  good_k s -> (dp < nino s)%nat -> (ip < nino s)%nat -> dp <> ip -> lk (k_fs s) ip = true ->
  returns (create_links dp ip name type)
    (fun r s' => kmoved true s s' none (fun j => - one dp j - match r with Some _ => 0 | None => one ip j end)
       (fun j => match lk1 dp false j with Some x => Some x | None => match r with Some _ => None | None => lk1 ip false j end end) 0 0 /\
       match r with Some i => i = ip | None => True end) s.
Proof.
  intros Hs Hd Hi Hne Hk. unfold create_links, inode_, setino_. kstep. kstep.
  apply (safe_seq _ _ _ (fun _ s' => ksame s s')); [ksteps; kdone|]. intros r s1 H1. kstep.
  { eapply safe_conseq; [apply create_fail_kmoved; [kgood|klen|klen]|]. cbn beta. intros ? ? [Hm ->]. split; [kdone|done]. }
  kstep. kstep.
  { eapply safe_conseq; [apply create_fail_kmoved; [kgood|klen|klen]|]. cbn beta. intros ? ? [Hm2 ->]. split; [kdone|done]. }
  apply (safe_seq _ _ _ (fun _ s' => ksame s s')); [ksteps; kdone|]. intros _ s3 H3. ksteps. split; [kdone|done].
Qed.

Ltac kheld := cbn [got locked held id] in *; destruct_and?; split_and?; first [done | kdone | klen | klk; ksolve].

Lemma create_kmoved path type major minor s :
  good_k s -> returns (create path type major minor) (fun r s' => kmoved true s s' none (got id r) (locked r) 0 0 /\ held s r) s.
Proof.
  intros Hs. unfold create, inode_, setino_. kstep. kstep. kstep; [|kstep; split; [kdone|done]]. kstep. kstep. destruct a0 as [[ip off]|]; cbn [got inrange fst] in *.
  - ksteps; kheld.
  - kstep. kstep. destruct a0 as [ip|]; cbn [got inrange fst] in *; [|ksteps; kheld]. kstep. kstep. kstep.
    assert (Hne : n <> ip) by (intros ->; klk; unfold lk1, nolk in *; rewrite decide_True in * by done; done).
    eapply safe_conseq; [apply create_links_kmoved; [kgood|klen|klen|done|]|].
    + repeat match goal with H : kmoved _ _ ?t _ _ _ _ _ |- context [lk (k_fs ?t) _] => rewrite (km_lk _ _ _ _ _ _ _ _ H) end. unfold lk1, nolk. cbn beta. repeat case_decide; done.
    + cbn beta. intros [r|] sz [Hmz Hr]; [subst r|]; kheld.
Qed.
#[local] Hint Resolve create_kmoved : kmoved.

(** ** [open] *)

(** A new file is given an inode, and owns the reference. *)
Lemma setinode_kmoved s f g ip :
  good_k s -> fl_type (fileat s f) = FD_NONE -> fl_ref (fileat s f) <> 0 -> (ip < nino s)%nat ->
  (forall x, fl_ref (g x) = fl_ref x /\ is_ino (fl_type (g x)) = true /\ fl_ip (g x) = Some ip) ->
  kmoved true s (setfile f g s) none (fun j => - one ip j) nolk 0 0.
Proof.
  intros Hs Ht Hz Hi Hg. destruct (Hg (fileat s f)) as (E1 & E2 & E3).
  refine (kmoved_ext _ _ _ _ _ _ _ _ _ _ _ _ _ _ (setfile_kmoved s f g Hs _ _) _ _ _ _ _ _); try done.
  - by apply fileat_range.
  - unfold file_ok. rewrite E1, E3. split; [done|]. by intros _ ? [= <-].
  - intros j. rewrite E1. unfold none. lia.
  - intros j. unfold holds_ino. rewrite Ht, E2, E3. unfold fd1, one. simpl. repeat case_decide; simplify_eq; lia.
Qed.

Lemma open_file_kmoved ip omode s :
  good_k s -> (ip < nino s)%nat -> returns (open_file ip omode) (fun _ s' => kmoved false s s' none (fun j => - one ip j) (lk1 ip false) 0 (-1)) s.
Proof.
  intros Hs Hi. unfold open_file, inode_. kstep. destruct a as [f|]; cbn [got inrange id] in *; [|ksteps; kdone]. rename s' into s1, H0 into Hm1.
  kstep. kstep; [ksteps; kdone|]. rename s' into s2, H0 into Hm2. kstep. apply safe_bind, safe_modify, safe_bind, safe_modify. rewrite setfile_setfile. cbn beta.
  destruct H1 as (Lf & Rf & Es). assert (Fs2 : fileat s2 f = fileat s f <| fl_ref := 1 |>).
  { unfold fileat at 1. rewrite H. change (fileat s1 f = fileat s f <| fl_ref := 1 |>). rewrite Es, fileat_setfile. by rewrite decide_True. }
  assert (Tf : fl_type (fileat s f) = FD_NONE) by (by apply Hs). clear Es.
  match goal with |- context [setfile f ?g s2] =>
    assert (Hm3 : kmoved true s2 (setfile f g s2) none (fun j => - one ip j) nolk 0 0); [|set (s3 := setfile f g s2) in *; clearbody s3] end.
  { apply setinode_kmoved; [kgood|by rewrite Fs2|by rewrite Fs2|klen|]. intros x. destruct (_ =? T_DEVICE); done. }
  clear Fs2 H H3. apply (safe_seq _ _ _ (fun _ s' => kmoved false s s' none (fun j => - one ip j) nolk 0 0)).
  - ksteps; kdone.
  - intros _ s4 Hm4. ksteps. kdone.
Qed.
#[local] Hint Extern 1 (safe _ (open_file _ _) _ _) => apply open_file_kmoved; [kgood|klen] : kmoved.

Lemma sys_open_kmoved : kbal sys_open.
Proof.
  intros s Hs. unfold sys_open, inode_. kstep. kstep. kstep; [|kstep; kdone]. kstep.
  apply (safe_seq _ _ _ (fun r s' => kmoved true s s' none (got id r) (locked r) 0 1 /\ held s r)).
  - kstep; [kstep; destruct a1; kheld|]. ksteps; kheld.
  - intros [ip|] s4 [Hm4 Hh]; cbn [got locked held id] in *; [destruct Hh|]; ksteps; kdone.
Qed.

Lemma created_kmoved s0 r s : kmoved true s0 s none (got id r) (locked r) 0 1 -> held s0 r -> returns (created r) (fun _ s' => kmoved false s0 s' none none nolk 0 0) s.
Proof. intros H Hh. unfold created. destruct r; cbn [got locked held id] in *; [destruct Hh|]; ksteps; kdone. Qed.

Lemma sys_mkdir_kmoved : kbal sys_mkdir.
Proof.
  intros s Hs. unfold sys_mkdir. kstep. kstep. apply (safe_seq _ _ _ (fun r s' => kmoved true s s' none (got id r) (locked r) 0 1 /\ held s r)); [|intros r sr [? ?]; by apply (created_kmoved s)].
  ksteps; [destruct a0|]; kheld.
Qed.

Lemma sys_mknod_kmoved : kbal sys_mknod.
Proof.
  intros s Hs. unfold sys_mknod. kstep. kstep. kstep. kstep.
  apply (safe_seq _ _ _ (fun r s' => kmoved true s s' none (got id r) (locked r) 0 1 /\ held s r)); [|intros r sr [? ?]; by apply (created_kmoved s)].
  ksteps; [destruct a2|]; kheld.
Qed.

Lemma sys_chdir_kmoved : kbal sys_chdir.
Proof.
  intros s Hs. unfold sys_chdir, inode_. kstep. kstep.
  apply (safe_seq _ _ _ (fun r s' => kmoved true s s' none (got id r) nolk 0 1 /\ inrange id r (nino s))); [ksteps; (split; [kdone|])|].
  { destruct a0; simpl in *; [klen|done]. }
  { done. }
  intros [ip|] s2 [Hm2 Hr]; cbn [got inrange id] in *; [|ksteps; kdone]. kstep. kstep. kstep; [ksteps; kdone|]. kstep. kstep. kstep. kstep. apply safe_bind, setcur_safe.
  assert (Hc : ocwd s'5 = Some a3) by (rewrite (ocwd_same _ _ _ _ _ _ _ _ Hm4), (ocwd_same _ _ _ _ _ _ _ _ Hm3), (ocwd_same _ _ _ _ _ _ _ _ H1); done).
  eapply safe_conseq; [apply (setcwd_kmoved (Some ip)); [kgood|intros ? [= <-]; klen]|]. cbn beta. intros _ s6 (Hm6 & _). rewrite Hc in Hm6. kstep. kdone.
Qed.

(** ** [pipe] *)

(** A descriptor is taken back. *)
Lemma unset_kmoved fd f s :
  good_k s -> 0 <= fd < 16 -> ofd s (Z.to_nat fd) = Some f ->
  returns (setofile fd None) (fun _ s' => kmoved false s s' (one f) none nolk 0 0 /\ forall k, k <> Z.to_nat fd -> ofd s' k = ofd s k) s.
Proof.
  intros Hs Hf Ho. eapply safe_conseq; [by apply setofile_kmoved|]. cbn beta. intros _ s1 (H1 & H2 & _). rewrite Ho in H1. split; [kdone|].
  intros k Hk. rewrite H2. by rewrite decide_False.
Qed.

(** The descriptors of a new pipe: none, the first one only, or both. *)
Inductive pipe_fds s s' (r w : nat) : Z -> Z -> Prop :=
  | Fds0 : kmoved false s s' (fun j => one r j + one w j) none nolk 0 0 -> pipe_fds s s' r w (-1) (-1)
  | Fds1 fd0 : 0 <= fd0 < 16 -> kmoved false s s' (one w) none nolk 0 0 -> ofd s' (Z.to_nat fd0) = Some r -> pipe_fds s s' r w fd0 (-1)
  | Fds2 fd0 fd1 : 0 <= fd0 < 16 -> 0 <= fd1 < 16 -> Z.to_nat fd1 <> Z.to_nat fd0 -> kmoved false s s' none none nolk 0 0 ->
      ofd s' (Z.to_nat fd0) = Some r -> ofd s' (Z.to_nat fd1) = Some w -> pipe_fds s s' r w fd0 fd1.

Lemma pipe_fds_alloc {A} (k : Z -> Z -> M (kern X) A) Q s s1 r w :
  kmoved true s s1 (fun j => one r j + one w j) none nolk 0 0 ->
  (forall fd0 fd1 s', pipe_fds s s' r w fd0 fd1 -> returns (k fd0 fd1) Q s') ->
  returns (let* fd0 := fdalloc r in let* fd1 := (if fd0 <? 0 then ret (-1) else fdalloc w) in k fd0 fd1) Q s1.
Proof.
  intros H1 Hk. apply safe_bind. eapply safe_conseq; [apply fdalloc_kmoved; kgood|]. cbn beta. intros fd0 s2 (H2 & _ & [[-> ->]|(F0 & N0 & O0)]).
  { apply safe_bind, safe_ret, Hk, Fds0. clear H2. kdone. }
  destruct (Z.ltb_spec fd0 0); [lia|]. apply safe_bind. eapply safe_conseq; [apply fdalloc_kmoved; kgood|]. cbn beta. intros fd1 s3 (H3 & _ & [[-> ->]|(F1 & N1 & O1)]); apply Hk.
  - clear H3. apply Fds1; [done|kdone|]. rewrite O0. by rewrite decide_True.
  - destruct (Z.ltb_spec fd1 0); [lia|]. assert (Hne : Z.to_nat fd1 <> Z.to_nat fd0) by (intros E; rewrite O0, E, decide_True in N1; done).
    apply Fds2; try done; [kdone| |]; rewrite O1; [rewrite decide_False by done; rewrite O0|]; by rewrite decide_True.
Qed.

Lemma pipe_close_kmoved s s1 r w :
  kmoved false s s1 (fun j => one r j + one w j) none nolk 0 0 ->
  returns (fileclose r ;;; fileclose w ;;; ret (-1)) (fun _ s' => kmoved false s s' none none nolk 0 0) s1.
Proof. intros H. ksteps. kdone. Qed.

Lemma sys_pipe_kmoved : kbal sys_pipe.
Proof.
  intros s Hs. unfold sys_pipe. kstep. kstep. destruct a0 as [[r w]|]; unfold got2 in *; cbn [fst snd] in *; [|kstep; kdone].
  apply (pipe_fds_alloc _ _ s); [kdone|]. clear. intros fd0 fd1 s1 [H1|fd0' F0 H1 O0|fd0' fd1' F0 F1 Hne H1 O0 O1].
  - cbn [Z.ltb Z.leb Z.compare]. apply safe_bind, safe_ret. by apply pipe_close_kmoved.
  - cbn [Z.ltb Z.compare]. destruct (Z.leb_spec 0 fd0'); [|lia]. apply safe_bind. eapply safe_conseq; [apply unset_kmoved; [kgood|done|done]|].
    cbn beta. intros _ s2 [H2 _]. apply pipe_close_kmoved. kdone.
  - destruct (Z.ltb_spec fd1' 0); [lia|]. kstep. apply (safe_seq _ _ _ (fun _ s' => ksame s1 s')); [ksteps; kdone|]. intros v s3 Hx3. clear Hm.
    pose proof (ofd_same _ _ _ _ _ _ _ _ Hx3 eq_refl) as E3. kstep; [|kstep; kdone]. apply safe_bind.
    eapply safe_conseq; [apply (unset_kmoved _ r); [kgood|done|by rewrite E3]|]. cbn beta. intros _ s4 [Hx4 O4]. apply safe_bind.
    eapply safe_conseq; [apply (unset_kmoved _ w); [kgood|done|by rewrite O4, E3]|]. cbn beta. intros _ s5 [Hx5 _]. apply pipe_close_kmoved. clear Heqb. kdone.
Qed.

(** ** kernel/exec.c *)

Lemma loadseg_quiet fuel pt va ip off sz i : kquiet (loadseg fuel pt va ip off sz i).
Proof.
  revert i. induction fuel as [|fuel IH]; intros i s Hs; [done|]. cbn [loadseg]. ksteps; try kdone.
  eapply safe_conseq; [apply IH; kgood|]. cbn beta. intros. kdone.
Qed.
#[local] Hint Extern 1 (safe _ (loadseg _ _ _ _ _ _ _) _ _) => apply loadseg_quiet : kmoved.

Lemma exec_load_quiet n pt ip off sz : kquiet (exec_load n pt ip off sz).
Proof.
  revert off sz. induction n as [|n IH]; intros off sz s Hs; cbn [exec_load]; [kstep; kdone|].
  assert (Hrec : forall a b s', ksame s s' -> returns (exec_load n pt ip a b) (fun _ s'' => ksame s s'') s').
  { intros a b s' H. eapply safe_conseq; [apply IH; kgood|]. cbn beta. intros. kdone. }
  ksteps; try kdone; apply Hrec; kdone.
Qed.
#[local] Hint Extern 1 (safe _ (exec_load _ _ _ _ _) _ _) => apply exec_load_quiet : kmoved.

Lemma exec_args_quiet pt base argv argc sp us : kquiet (exec_args pt base argv argc sp us).
Proof.
  revert argc sp us. induction argv as [|a argv IH]; intros argc sp us s Hs; cbn [exec_args]; [kstep; kdone|]. ksteps; try kdone.
  eapply safe_conseq; [apply IH; kgood|]. cbn beta. intros. kdone.
Qed.
#[local] Hint Extern 1 (safe _ (exec_args _ _ _ _ _ _) _ _) => apply exec_args_quiet : kmoved.

Lemma exec_bad_none pt sz : kquiet (exec_bad pt sz None).
Proof. intros s Hs. unfold exec_bad. apply (safe_seq _ _ _ (fun _ s' => ksame s s')); [ksteps; kdone|]. done. Qed.
#[local] Hint Extern 1 (safe _ (exec_bad _ _ None) _ _) => apply exec_bad_none : kmoved.

Lemma exec_bad_some pt sz ip s :
  good_k s -> (ip < nino s)%nat -> returns (exec_bad pt sz (Some ip)) (fun _ s' => kmoved true s s' none (fun j => - one ip j) (lk1 ip false) 0 (-1)) s.
Proof. intros Hs Hi. unfold exec_bad. apply (safe_seq _ _ _ (fun _ s' => ksame s s')); [ksteps; kdone|]. intros _ s1 H1. ksteps. kdone. Qed.
#[local] Hint Extern 1 (safe _ (exec_bad _ _ (Some _)) _ _) => apply exec_bad_some; [kgood|klen] : kmoved.

(** An assignment to the entry of the running process that leaves its files, its directory and its state. *)
Lemma setcur_quiet g : (forall p, own (g p) = own p) -> kquiet (setcur g).
Proof. intros Hg s Hs. apply setcur_safe. by apply setown_same. Qed.
#[local] Hint Extern 1 (safe _ (setcur _) _ _) => apply setcur_quiet; [by intros []|] : kmoved.

Lemma exec_commit_quiet path pt sz sp argc entry oldsz : kquiet (exec_commit path pt sz sp argc entry oldsz).
Proof. intros s Hs. unfold exec_commit. ksteps. kdone. Qed.
#[local] Hint Extern 1 (safe _ (exec_commit _ _ _ _ _ _ _) _ _) => apply exec_commit_quiet : kmoved.

Lemma exec_stack_quiet path argv pt sz entry : kquiet (exec_stack path argv pt sz entry).
Proof. intros s Hs. unfold exec_stack. ksteps; kdone. Qed.
#[local] Hint Extern 1 (safe _ (exec_stack _ _ _ _ _) _ _) => apply exec_stack_quiet : kmoved.

Lemma kexec_quiet path argv : kquiet (kexec path argv).
Proof. intros s Hs. unfold kexec. ksteps; kdone. Qed.
#[local] Hint Extern 1 (safe _ (kexec _ _) _ _) => apply kexec_quiet : kmoved.

Lemma exec_fetch_quiet n u i argv : kquiet (exec_fetch n u i argv).
Proof.
  revert i argv. induction n as [|n IH]; intros i argv s Hs; cbn [exec_fetch]; [kstep; kdone|]. ksteps; try kdone.
  eapply safe_conseq; [apply IH; kgood|]. cbn beta. intros. kdone.
Qed.
#[local] Hint Extern 1 (safe _ (exec_fetch _ _ _ _) _ _) => apply exec_fetch_quiet : kmoved.

Lemma exec_free_quiet argv : kquiet (exec_free argv).
Proof.
  induction argv as [|[pa a] argv IH]; intros s Hs; cbn [exec_free]; [kstep; kdone|]. kstep. eapply safe_conseq; [apply IH; kgood|]. cbn beta. intros. kdone.
Qed.
#[local] Hint Extern 1 (safe _ (exec_free _) _ _) => apply exec_free_quiet : kmoved.

Lemma sys_exec_kmoved : kbal sys_exec.
Proof. intros s Hs. unfold sys_exec. ksteps; kdone. Qed.

(** ** kernel/sysproc.c *)

Lemma sys_wait_kmoved : kbal sys_wait.
Proof. intros s Hs. unfold sys_wait. ksteps. kdone. Qed.
Lemma sys_kill_kmoved : kbal sys_kill.
Proof. intros s Hs. unfold sys_kill. ksteps. kdone. Qed.
Lemma sys_sbrk_kmoved : kbal sys_sbrk.
Proof. intros s Hs. unfold sys_sbrk. ksteps; kdone. Qed.
Lemma sys_pause_kmoved : kbal sys_pause.
Proof. intros s Hs. unfold sys_pause, pause_loop. ksteps; kdone. Qed.

Lemma val_kmoved m : kbal m -> kbal (val m).
Proof. intros H s Hs. unfold val. apply safe_bind. eapply safe_conseq; [by apply H|]. done. Qed.

Lemma gets_kmoved {A} (g : kern X -> A) : kbal (gets g).
Proof. intros s Hs. apply safe_gets. kdone. Qed.

(** A system call that does not end the process. *)
Lemma sys_call_kmoved forkret c : c <> SYS_exit -> kbal (sys_call forkret c).
Proof.
  intros Hc. destruct c; cbn [sys_call]; try done; try apply val_kmoved.
  - intros s Hs. by apply kfork_kmoved.
  - apply sys_wait_kmoved.
  - apply sys_pipe_kmoved.
  - apply sys_read_kmoved.
  - apply sys_kill_kmoved.
  - apply sys_exec_kmoved.
  - apply sys_fstat_kmoved.
  - apply sys_chdir_kmoved.
  - apply sys_dup_kmoved.
  - apply gets_kmoved.
  - apply sys_sbrk_kmoved.
  - intros s Hs. apply safe_bind. eapply safe_conseq; [by apply sys_pause_kmoved|]. done.
  - apply gets_kmoved.
  - apply sys_open_kmoved.
  - apply sys_write_kmoved.
  - apply sys_mknod_kmoved.
  - apply sys_unlink_kmoved.
  - apply sys_link_kmoved.
  - apply sys_mkdir_kmoved.
  - apply sys_close_kmoved.
Qed.

Lemma set_a0_quiet p v : kquiet (set_a0 p v).
Proof. intros s Hs. unfold set_a0. ksteps. kdone. Qed.
#[local] Hint Extern 1 (safe _ (set_a0 _ _) _ _) => apply set_a0_quiet : kmoved.

(** A call that does not end the process moves the books of that process. *)
Lemma syscall_moves forkret s :
  good_k s -> returns (syscall forkret) (fun r s' => kwf s' /\ balanced s s' /\ (r <> SExit -> kmoved false s s' none none nolk 0 0)) s.
Proof.
  intros Hs. unfold syscall. apply safe_bind, safe_get. cbn beta zeta.
  assert (Hend : forall r s', kmoved false s s' none none nolk 0 0 -> kwf s' /\ balanced s s' /\ (r <> SExit -> kmoved false s s' none none nolk 0 0)).
  { intros r s' H. destruct (kmoved_balanced _ _ _ H) as (? & ? & ?). done. }
  destruct (syscalls _) as [c|]; [|ksteps; apply Hend; kdone]. destruct (decide (c = SYS_exit)) as [->|Hc]; apply safe_bind.
  - cbn [sys_call]. unfold sys_exit. apply safe_bind. kstep. eapply safe_conseq; [apply kexit_balanced; kgood|].
    cbn beta. intros _ s2 [Hw2 B]. apply safe_ret, safe_ret. split_and!; [done|by eapply balanced_trans|done].
  - eapply safe_conseq; [by apply sys_call_kmoved|]. cbn beta. intros [v| |t] s1 H1; [ksteps|apply safe_ret..]; apply Hend; kdone.
Qed.

End Calls.
