(* ===== verification/KTrap.v ===== *)
(** The way back to the process: what holds whenever [usertrap] returns. *)

From S2P Require Import CString Prelude Safe Bytes Params Disk Virtio Sleeplock Tx Fs Riscv Kalloc Vm Proc Pipe Console ProcCaller Balance ProcView File KBalance KProcs Syscall Sysfile Sysproc KCalls Trap ProcMem.

Section Traps.
Context `{IM : Image} {X : Type} `{TB : TxBalance X}.
Context (forkret kernelvec usertrap_addr uservec_off : Z).
Implicit Types t : tstate X.

(** The same process, with the books moved by nothing. *)
Definition tsame t t' : Prop := kmoved false (t_k t) (t_k t') none none nolk 0 0.

Lemma tsame_refl t : good_k (t_k t) -> tsame t t.
Proof. intros H. unfold tsame. kdone. Qed.
Lemma tsame_trans t1 t2 t3 : tsame t1 t2 -> tsame t2 t3 -> tsame t1 t3.
Proof. unfold tsame. intros H1 H2. kdone. Qed.
Lemma tsame_cur t t' : tsame t t' -> ps_cur (kps (t_k t')) = ps_cur (kps (t_k t)).
Proof. intros H. exact (km_cur _ _ _ _ _ _ _ _ H). Qed.
Lemma tsame_good t t' : tsame t t' -> good_k (t_k t').
Proof. intros H. by eapply km_good. Qed.

Lemma onk_quiet {A} (m : M (kern X) A) t : kquiet m -> good_k (t_k t) -> returns (onk m) (fun _ t' => tsame t t' /\ t_csr t' = t_csr t) t.
Proof. intros Hm Hg. apply safe_zoom. eapply safe_conseq; [by apply Hm|]. cbn beta. intros _ k' H. split; [|done]. unfold tsame. simpl. kdone. Qed.

(** A store into a trapframe. *)
Lemma tf_set_spec p off v t :
  good_k (t_k t) -> returns (tf_set p off v) (fun _ t' => tsame t t' /\ t_csr t' = t_csr t /\ ps_proc (kps (t_k t')) = ps_proc (kps (t_k t))) t.
Proof.
  intros Hg. unfold tf_set. eapply safe_conseq; [apply safe_and; [apply onk_quiet; [|done]|]|].
  - intros s Hs. ksteps. kdone.
  - apply safe_zoom, safe_bind, safe_get. unfold onmem, onps, onfs, liftum, liftmem, st64. apply safe_zoom, safe_zoom, safe_zoom, safe_modify. instantiate (1 := fun _ t' => ps_proc (kps (t_k t')) = ps_proc (kps (t_k t))). done.
  - cbn beta. intros _ t' [[H1 H2] H3]. done.
Qed.

(** ** Interrupts *)

Lemma ticks_quiet : kquiet (modify (fun s : kern X => s <| k_ticks := u32 (k_ticks s + 1) |>)).
Proof. intros s Hs. apply safe_modify. by apply parts_same. Qed.
Lemma wakeup_quiet c : kquiet (onps (wakeup c)).
Proof. intros s Hs. ksteps. kdone. Qed.

Lemma setcsr_safe f t (Q : unit -> tstate X -> Prop) : Q tt (t <| t_csr := f (t_csr t) |>) -> returns (setcsr f) Q t.
Proof. done. Qed.

Definition interrupt (scause : Z) : Prop := scause = 0x8000000000000009 \/ scause = 0x8000000000000005.

Lemma devintr_spec t : good_k (t_k t) -> returns devintr (fun r t' => tsame t t' /\ (r <> 0 <-> interrupt (c_scause (t_csr t)))) t.
Proof.
  intros Hg. unfold devintr, interrupt. apply safe_bind, safe_gets. cbn beta. destruct (Z.eqb_spec (c_scause (t_csr t)) 0x8000000000000009) as [E|E].
  - assert (Hend : forall irq t1, tsame t t1 -> returns ((if negb (irq =? 0) then plic_complete irq else ret tt) ;;; ret 1)
      (fun r t' => tsame t t' /\ (r <> 0 <-> c_scause (t_csr t) = 0x8000000000000009 \/ c_scause (t_csr t) = 0x8000000000000005)) t1).
    { intros irq t1 H1. apply safe_bind. destruct (negb _); [apply setcsr_safe|apply safe_ret]; (apply safe_ret; split; [done|]); rewrite E; split; [tauto|done|tauto|done]. }
    apply safe_bind. unfold plic_claim. apply safe_gets. cbn beta. apply safe_bind. destruct (_ =? UART0_IRQ).
    + eapply safe_conseq; [apply onk_quiet; [apply oncs_quiet, uartintr_quiet|done]|]. cbn beta. intros _ t1 [H1 _]. by apply Hend.
    + destruct (_ =? VIRTIO0_IRQ); [|apply safe_ret, Hend; by apply tsame_refl]. unfold ondisk. apply safe_zoom. unfold safe. destruct (virtio_disk_intr _); try done. apply Hend. exact (tsame_refl t Hg).
  - destruct (Z.eqb_spec (c_scause (t_csr t)) 0x8000000000000005) as [E5|E5]; [|apply safe_ret; split; [by apply tsame_refl|tauto]].
    unfold clockintr. do 2 apply safe_bind. apply safe_gets. cbn beta. apply safe_bind.
    apply (safe_conseq _ (fun _ t1 => tsame t t1)).
    + destruct (_ =? 0); [|apply safe_ret; by apply tsame_refl]. apply safe_bind. eapply safe_conseq; [apply onk_quiet; [apply ticks_quiet|done]|]. cbn beta. intros _ t1 [H1 _].
      eapply safe_conseq; [apply onk_quiet; [apply wakeup_quiet|by eapply tsame_good]|]. cbn beta. intros _ t2 [H2 _]. by eapply tsame_trans.
    + intros _ t1 H1. apply setcsr_safe, safe_ret. split; [done|]. split; [by right|done].
Qed.

(** ** The return *)

(** The CPU will run process [p] in user mode, with interrupts on and traps coming to [uservec], at its saved program counter. *)
Record user_ready (p : nat) (satp : Z) t : Prop := {
  ur_cur : ps_cur (kps (t_k t)) = p;
  ur_alive : alive (t_k t);
  ur_killed : p_killed (procat (kps (t_k t)) p) = 0;
  ur_satp : satp = MAKE_SATP (p_pagetable (procat (kps (t_k t)) p));
  ur_spp : Z.testbit (c_sstatus (t_csr t)) 8 = false;
  ur_spie : Z.testbit (c_sstatus (t_csr t)) 5 = true;
  ur_sie : Z.testbit (c_sstatus (t_csr t)) 1 = false;
  ur_stvec : c_stvec (t_csr t) = TRAMPOLINE + uservec_off;
  ur_sepc : c_sepc (t_csr t) = ld64 (ps_mem (kps (t_k t))) (p_trapframe (procat (kps (t_k t)) p) + TF_EPC) }.

Lemma usertrap_end_spec p t :
  good_k (t_k t) -> ps_cur (kps (t_k t)) = p ->
  returns (usertrap_end usertrap_addr uservec_off p) (fun satp t' => tsame t t' /\ (p_killed (procat (kps (t_k t)) p) = 0 -> user_ready p satp t')) t.
Proof.
  intros Hg Hp. unfold usertrap_end, prepare_return. do 2 apply safe_bind. apply safe_get. cbn beta zeta. rewrite Hp. apply safe_bind, setcsr_safe, safe_bind, setcsr_safe, safe_bind, safe_gets. cbn beta.
  set (t1 := t <| t_csr := _ |> <| t_csr := _ |>). assert (H1 : tsame t t1) by exact (tsame_refl t Hg). assert (P1 : ps_proc (kps (t_k t1)) = ps_proc (kps (t_k t))) by done.
  assert (C1 : c_stvec (t_csr t1) = TRAMPOLINE + uservec_off /\ Z.testbit (c_sstatus (t_csr t1)) 1 = false) by (split; [done|]; change (c_sstatus (t_csr t1)) with (Z.ldiff (c_sstatus (t_csr t)) SSTATUS_SIE); rewrite Z.ldiff_spec; apply andb_false_r). clearbody t1.
  apply safe_bind. eapply safe_conseq; [apply tf_set_spec; by eapply tsame_good|]. cbn beta. intros _ t2 (H2 & E2 & P2). apply safe_bind. eapply safe_conseq; [apply tf_set_spec; by eapply tsame_good|]. cbn beta. intros _ t3 (H3 & E3 & P3).
  apply safe_bind. eapply safe_conseq; [apply tf_set_spec; by eapply tsame_good|]. cbn beta. intros _ t4 (H4 & E4 & P4). apply safe_bind, safe_gets. cbn beta.
  apply safe_bind. eapply safe_conseq; [apply tf_set_spec; by eapply tsame_good|]. cbn beta. intros _ t5 (H5 & E5 & P5). apply safe_bind, setcsr_safe, safe_bind. unfold tf_get. apply safe_zoom, safe_gets, setcsr_safe, safe_bind, safe_get, safe_ret.
  assert (Ht : tsame t t5) by (do 4 (eapply tsame_trans; [eassumption|]); done). assert (Ep : forall i, procat (kps (t_k t5)) i = procat (kps (t_k t)) i) by (intros i; unfold procat; congruence).
  assert (Ec : t_csr t5 = t_csr t1) by congruence. split; [exact Ht|]. intros Hk. destruct (tsame_good _ _ Ht) as [_ Ha]. set (t6 := _ <| t_csr := _ |>).
  assert (Es : c_sstatus (t_csr t6) = Z.lor (Z.ldiff (c_sstatus (t_csr t1)) SSTATUS_SPP) SSTATUS_SPIE) by (rewrite <-Ec; done). destruct C1 as [C1 C2]. split.
  - rewrite <-Hp. exact (tsame_cur _ _ Ht).
  - exact Ha.
  - change (p_killed (procat (kps (t_k t5)) p) = 0). by rewrite Ep.
  - done.
  - rewrite Es, Z.lor_spec, Z.ldiff_spec. change (Z.testbit SSTATUS_SPP 8) with true. change (Z.testbit SSTATUS_SPIE 8) with false. by rewrite andb_false_r.
  - rewrite Es, Z.lor_spec. apply orb_true_r.
  - by rewrite Es, Z.lor_spec, Z.ldiff_spec, C2.
  - change (c_stvec (t_csr t5) = TRAMPOLINE + uservec_off). by rewrite Ec.
  - done.
Qed.

Lemma killed_spec p t : good_k (t_k t) -> returns (onk (onps (killed p))) (fun k t' => tsame t t' /\ k = p_killed (procat (kps (t_k t')) p) /\ k = p_killed (procat (kps (t_k t)) p)) t.
Proof.
  intros Hg. eapply safe_conseq; [apply safe_and; [apply onk_quiet; [|done]|]|].
  - intros s Hs. ksteps. kdone.
  - unfold onps, onfs, liftum, killed. apply safe_zoom, safe_zoom, safe_zoom, safe_gets.
    instantiate (1 := fun k t' => k = p_killed (procat (kps (t_k t')) p) /\ k = p_killed (procat (kps (t_k t)) p)). done.
  - cbn beta. intros k t' [[H1 _] [H2 H3]]. done.
Qed.

(** What holds at the end of a trap that began in [t0]. *)
Definition trapped t0 (r : utrap) t' : Prop :=
  kwf (t_k t') /\ balanced (t_k t0) (t_k t') /\
  match r with
  | UReturn satp => user_ready (ps_cur (kps (t_k t0))) satp t'
  | UExit => True
  | UYield | UPause _ => alive (t_k t')
  end.

Lemma tsame_trapped t0 t r : tsame t0 t -> (forall a, r <> UReturn a) -> trapped t0 r t.
Proof. intros H Hr. destruct (kmoved_balanced _ _ _ H) as (? & ? & ?). split_and!; [done|done|]. destruct r; try done. by destruct (Hr satp). Qed.

Lemma exit_trapped t0 t : tsame t0 t -> returns (onk (kexit (-1)) ;;; ret UExit) (fun r t' => trapped t0 r t' /\ r = UExit) t.
Proof.
  intros H. apply safe_bind, safe_zoom. eapply safe_conseq; [apply kexit_balanced; by eapply tsame_good|]. cbn beta. intros _ k' [Hw B]. apply safe_ret. split; [|done]. split_and!; [done|by eapply balanced_trans|done].
Qed.

Lemma usertrap_out_spec t0 t p d :
  tsame t0 t -> ps_cur (kps (t_k t0)) = p ->
  returns (usertrap_out usertrap_addr uservec_off p d) (fun r t' => trapped t0 r t' /\ (p_killed (procat (kps (t_k t)) p) <> 0 -> r = UExit)) t.
Proof.
  intros H Hp. unfold usertrap_out. apply safe_bind. eapply safe_conseq; [apply killed_spec; by eapply tsame_good|]. cbn beta. intros k t1 (H1 & E1 & E2). assert (H01 : tsame t0 t1) by (by eapply tsame_trans).
  destruct (Z.eqb_spec k 0) as [->|Hk]; cbn [negb]; [|eapply safe_conseq; [by apply exit_trapped|]; cbn beta; tauto].
  destruct (d =? 2); [apply safe_ret; split; [by apply tsame_trapped|done]|]. apply safe_bind. eapply safe_conseq; [apply usertrap_end_spec; [by eapply tsame_good|rewrite <-Hp; by apply tsame_cur]|].
  cbn beta. intros satp t2 [H2 Hr]. specialize (Hr (eq_sym E1)). apply safe_ret. split; [|done]. destruct (kmoved_balanced _ _ _ (tsame_trans _ _ _ H01 H2)) as (? & ? & ?). split_and!; [done|done|]. by rewrite Hp.
Qed.

Lemma setkilled_spec p t :
  good_k (t_k t) -> ps_cur (kps (t_k t)) = p -> returns (onk (onps (setkilled p))) (fun _ t' => tsame t t' /\ p_killed (procat (kps (t_k t')) p) = 1) t.
Proof.
  intros Hg Hp. eapply safe_conseq; [apply safe_and; [apply onk_quiet; [|done]|]|].
  - intros s Hs. assert (Hq : pquiet (setkilled p)) by (intros u; apply safe_modify; by rewrite setproc_pv). ksteps. kdone.
  - unfold onps, onfs, liftum, setkilled. apply safe_zoom, safe_zoom, safe_zoom, safe_modify. instantiate (1 := fun _ t' => p_killed (procat (kps (t_k t')) p) = 1). cbn beta.
    change (p_killed (procat (setproc p (fun q => q <| p_killed := 1 |>) (kps (t_k t))) p) = 1). rewrite procat_setproc, decide_True; [done|done|]. rewrite <-Hp. pose proof (ownat_range _ _ (proj2 Hg)) as Hl. simpl in Hl. by rewrite length_map in Hl.
  - cbn beta. intros k t' [[H1 _] H2]. done.
Qed.

Lemma tf_get_spec p off t : good_k (t_k t) -> returns (tf_get p off) (fun _ t' => tsame t t') t.
Proof.
  intros Hg. eapply safe_conseq; [apply onk_quiet; [|done]|]; [|cbn beta; intros _ t' [H _]; exact H]. intros s Hs. apply safe_gets. kdone.
Qed.

Lemma fault_in_spec p v t : good_k (t_k t) -> returns (fault_in p v) (fun _ t' => tsame t t') t.
Proof.
  intros Hg. unfold fault_in. apply safe_bind, safe_get. cbn beta zeta. eapply safe_conseq; [apply onk_quiet; [|done]|]; [|cbn beta; intros _ t' [H _]; exact H]. intros s Hs. ksteps. kdone.
Qed.

(** The causes of a trap after which a process can go on: a system call, an interrupt or a page fault. *)
Definition benign (scause : Z) : Prop := scause = 8 \/ interrupt scause \/ scause = 13 \/ scause = 15.

Lemma usertrap_spec t :
  kwf (t_k t) -> alive (t_k t) ->
  returns (usertrap forkret kernelvec usertrap_addr uservec_off) (fun r t' => trapped t r t' /\ (~ benign (c_scause (t_csr t)) -> r = UExit)) t.
Proof.
  intros Hw Ha. assert (Hg : good_k (t_k t)) by done. unfold usertrap. apply safe_bind, safe_gets. cbn beta. destruct (negb _); [done|]. apply safe_bind, setcsr_safe, safe_bind, safe_get. cbn beta zeta.
  set (t1 := t <| t_csr := _ |>). assert (H1 : tsame t t1) by exact (tsame_refl t Hg). change (ps_cur (kps (t_k t1))) with (ps_cur (kps (t_k t))). set (p := ps_cur (kps (t_k t))).
  assert (C1 : c_scause (t_csr t1) = c_scause (t_csr t)) by done. clearbody t1. apply safe_bind, safe_gets, safe_bind. eapply safe_conseq; [apply tf_set_spec; by eapply tsame_good|]. cbn beta. intros _ t2 (H2 & E2 & _).
  assert (H02 : tsame t t2) by (by eapply tsame_trans). apply safe_bind, safe_gets. cbn beta. rewrite E2, C1. unfold benign. destruct (Z.eqb_spec (c_scause (t_csr t)) 8) as [E8|E8].
  - apply (safe_conseq _ (trapped t)); [|intros r t' ?; split; [done|tauto]]. apply safe_bind. eapply safe_conseq; [apply killed_spec; by eapply tsame_good|]. cbn beta. intros k t3 (H3 & _). assert (H03 : tsame t t3) by (by eapply tsame_trans).
    destruct (negb _); [eapply safe_conseq; [by apply exit_trapped|]; cbn beta; tauto|]. apply safe_bind. eapply safe_conseq; [apply tf_get_spec; by eapply tsame_good|]. cbn beta. intros epc t4 H4.
    apply safe_bind. eapply safe_conseq; [apply tf_set_spec; by eapply tsame_good|]. cbn beta. intros _ t5 (H5 & _ & _). apply safe_bind, setcsr_safe. set (t6 := t5 <| t_csr := _ |>).
    assert (H06 : tsame t t6) by (change (tsame t t5); do 2 (eapply tsame_trans; [eassumption|]); done). clearbody t6. apply safe_bind, safe_zoom. eapply safe_conseq; [apply syscall_moves; by eapply tsame_good|].
    cbn beta. intros r k' (Hw' & B & Hm). destruct r as [v| |n].
    + eapply safe_conseq; [apply (usertrap_out_spec t); [|done]|cbn beta; tauto]. eapply tsame_trans; [exact H06|]. by apply Hm.
    + apply safe_ret. split_and!; [done|by eapply balanced_trans|done].
    + apply safe_ret, tsame_trapped; [|done]. eapply tsame_trans; [exact H06|]. by apply Hm.
  - apply safe_bind. eapply safe_conseq; [apply devintr_spec; by eapply tsame_good|]. cbn beta. rewrite E2, C1. intros d t3 [H3 Hd]. assert (H03 : tsame t t3) by (by eapply tsame_trans). assert (Hp3 : ps_cur (kps (t_k t3)) = p) by (by apply tsame_cur).
    destruct (Z.eqb_spec d 0) as [->|Hd0]; cbn [negb]; [|eapply safe_conseq; [by apply (usertrap_out_spec t)|]; cbn beta; tauto]. assert (Hni : ~ interrupt (c_scause (t_csr t))) by (intros H; by apply Hd in H).
    assert (Hkill : forall t4, tsame t t4 -> returns (onk (onps (setkilled p)) ;;; usertrap_out usertrap_addr uservec_off p 0) (fun r t' => trapped t r t' /\ r = UExit) t4).
    { intros t4 H4. apply safe_bind. eapply safe_conseq; [apply setkilled_spec; [by eapply tsame_good|by apply tsame_cur]|]. cbn beta. intros _ t5 [H5 K5].
      eapply safe_conseq; [apply (usertrap_out_spec t); [by eapply tsame_trans|done]|]. cbn beta. intros r t' [Ht' Hr]. split; [done|]. apply Hr. lia. }
    apply safe_bind. destruct ((_ =? 15) || (_ =? 13)) eqn:Ef.
    + apply safe_bind, safe_gets. eapply safe_conseq; [apply fault_in_spec; by eapply tsame_good|]. cbn beta. intros mem t4 H4. assert (H04 : tsame t t4) by (by eapply tsame_trans).
      destruct (negb _); (eapply safe_conseq; [first [by apply (usertrap_out_spec t) | by apply Hkill]|]); cbn beta; (intros r t' [? ?]; split; [done|]; intros Hn; exfalso; apply Hn; lia).
    + apply safe_ret. cbn [negb Z.eqb]. eapply safe_conseq; [by apply Hkill|]. cbn beta. tauto.
Qed.


(** A fault beyond [MAXVA] that is within the size of the process, which a lazy [sbrk] can make as large as it likes, is a panic. *)
Lemma vmfault_beyond q pt va m : MAXVA <= va < vp_sz q -> vmfault q pt va m = Panic "walk".
Proof.
  intros [H1 H2]. unfold vmfault. rewrite (proj2 (Z.leb_gt (vp_sz q) va)) by lia. cbn zeta. unfold ismapped, walk, bind. rewrite (proj2 (Z.leb_le MAXVA (PGROUNDDOWN va))); [done|].
  rewrite PGROUNDDOWN_eq. change MAXVA with (2 ^ 38) in *. lia.
Qed.
End Traps.
