(* ===== verification/Boot.v ===== *)
(** The start of the kernel, kernel/main.c and [forkret] of kernel/proc.c, and what holds ever after.

    [kmain] brings the machine from power-on to the first process.  From there the machine makes the steps of [kstep]: user programs compute, traps
    are handled, processes are switched.  In every state it reaches, the kernel's books are in order ([books]). *)

From S2P Require Import CString Prelude Safe Bytes Params Disk Virtio Sleeplock Bio LogTx Log LogSpec Tx Fs FsBlocks FsInode FsFile FsDir FsName FsBoot Balance LogBal Riscv Kalloc Vm VmPt VmUser VmFree VmKernel Proc ProcMem ProcIso Pipe Console ProcCaller ProcView File KBalance KProcs Syscall Sysfile Sysproc KCalls Trap KTrap.

(** ["/init"] *)
Definition init_path : list Z := [47; 105; 110; 105; 116].

Section Defs.
Context `{IM : Image} {D : Type} `{BD : BlockDev D}.
Variables forkret_addr usertrap_addr uservec_off : Z.

(** kernel/main.c:13-32 on the first CPU.  The messages and the registers of the hart, the PLIC and the disk are left out, and of [fileinit] nothing is left; [kernel_pagetable] is the result. *)
Definition kmain : M (kern (lstate D)) Z :=
  oncs consoleinit ;;;
  onmem kinit ;;;
  let* kernel_pagetable := onmem kvmmake in
  onps procinit ;;;
  ontx (liftb binit) ;;;
  onfs iinit ;;;
  userinit forkret_addr ;;;
  ret kernel_pagetable.

(** kernel/proc.c:502-535: the value for [satp] with which the process starts; [first] is the static variable. *)
Definition forkret (first : bool) : M (tstate (lstate D)) Z :=
  let* t := get in
  let p := ps_cur (kps (t_k t)) in
  (if first then
     onk (onfs (fsinit ROOTDEV)) ;;;
     let* r := onk (kexec init_path [init_path]) in
     tf_set p TF_A0 r ;;;
     let* a0 := tf_get p TF_A0 in
     if a0 =? u64 (-1) then panic "exec" else ret tt
   else ret tt) ;;;
  usertrap_end usertrap_addr uservec_off p.

(** The machine when it is switched on: a disk, memory, whatever the console holds, and zeroes in the variables of the kernel. *)
Definition kpower (d : D) (pid : Z) (m : kmem) (c : cons) (u : uart) : kern (lstate D) :=
  Kern (power_on d pid (Pstate m (replicate 64 proc0) None 1 0%nat)) (replicate 100 file0) ∅ c u 0.
End Defs.

(** ** Starting *)

Section Start.
Context `{IM : Image} {IO : ImageOk} {D : Type} `{BS : BlockDevSpec D}.
Variable forkret_addr : Z.
Implicit Types s : kern (lstate D).

Lemma binit_linked (d : D) pid : wp binit (fun _ st => linked_up st /\ nlocked (bc_buf st) = 0) (bcache_bss d pid).
Proof.
  set (st := final binit (bcache_bss d pid)). assert (E : binit (bcache_bss d pid) = Ok tt st) by (vm_compute; reflexivity).
  apply (wp_run _ tt _ st _ E). assert (Eb : forallb (fun b => (b_next b <? 31)%nat && (b_prev b <? 31)%nat) (bc_buf st) = true) by (vm_compute; reflexivity).
  split; [split|]; [vm_compute; reflexivity| |vm_compute; reflexivity]. intros i. unfold bufat. rewrite nth_lookup.
  destruct (bc_buf st !! i) as [b|] eqn:Ei; [|simpl; lia]. simpl. rewrite forallb_forall in Eb. apply list_elem_of_lookup_2, list_elem_of_In, Eb in Ei. lia.
Qed.

(** [procinit] on a table of zeroes. *)
Lemma procinit_booted m l :
  free_list m l -> wp procinit (fun _ u => booted u /\ ps_mem u = m /\ ps_nextpid u = 1) (Pstate m (replicate 64 proc0) None 1 0%nat).
Proof.
  intros Hl. eapply wp_run; [vm_compute; reflexivity|]. split; [|done]. split; [vm_compute; reflexivity|done|]. by exists l.
Qed.

Lemma wp_onfs {A} (m : M (fsys (lstate D) pstate) A) Q s : wp m (fun a f => Q a (s <| k_fs := f |>)) (k_fs s) -> wp (onfs m) Q s.
Proof. intros H. by apply wp_zoom. Qed.
Lemma wp_onps {A} (m : M pstate A) Q s : wp m (fun a u => Q a (s <| k_fs := k_fs s <| f_um := u |> |>)) (kps s) -> wp (onps m) Q s.
Proof. intros H. by apply wp_zoom, wp_zoom. Qed.

Lemma booted_proc u i : booted u -> (i < 64)%nat -> procat u i = proc0 <| p_state := UNUSED |> <| p_kstack := KSTACK (Z.of_nat i) |>.
Proof. intros B Hi. unfold procat. rewrite (bt_procs _ B), nth_lookup, list_lookup_imap, lookup_replicate_2 by done. done. Qed.
Lemma booted_length u : booted u -> length (ps_proc u) = 64%nat.
Proof. intros B. by rewrite (bt_procs _ B), length_imap, length_replicate. Qed.

(** [x] is [u] with a new process in the first entry. *)
Definition first_new (u x : pstate) : Prop :=
  p_pid (procat x 0) = ps_nextpid u /\ p_state (procat x 0) = USED /\ length (ps_proc x) = 64%nat /\ forall j, j <> 0%nat -> procat x j = procat u j.

Lemma first_new_set u x f : first_new u x -> (forall p, p_pid (f p) = p_pid p) -> (forall p, p_state (f p) = p_state p) -> first_new u (setproc 0 f x).
Proof.
  intros (H1 & H2 & H3 & H4) E1 E2. split_and!; [rewrite procat_setproc by lia; rewrite decide_True by done; by rewrite ?E1, ?E2..|simpl; by rewrite length_insert|].
  intros j Hj. rewrite procat_setproc by lia. rewrite decide_False by done. by apply H4.
Qed.

(** The first [allocproc] finds the first entry, and the memory it needs. *)
Lemma allocproc_first u l :
  booted u -> free_list (ps_mem u) l -> (7 <= length l)%nat -> wp (allocproc forkret_addr) (fun r u' => r = Some 0%nat /\ first_new u u') u.
Proof.
  intros B Hl H7. unfold allocproc. wp_step. wp_step. assert (Ef : find_unused (ps_proc u) 0 = Some 0%nat) by (rewrite (bt_procs _ B); vm_compute; reflexivity).
  rewrite Ef. unfold allocpid. wp_steps. pose proof (booted_length u B) as Hlen.
  set (u1 := setproc 0 _ _). assert (P1 : first_new u u1 /\ ps_mem u1 = ps_mem u).
  { subst u1. split; [|done]. split_and!; [rewrite procat_setproc by (simpl; lia); by rewrite decide_True..|simpl; by rewrite length_insert|].
    intros j Hj. rewrite procat_setproc by (simpl; lia). by rewrite decide_False. }
  clearbody u1. destruct P1 as (P1 & Em). apply wp_liftmem. rewrite Em. eapply wp_conseq; [by apply kalloc_spec|]. intros tf m1 Hk.
  destruct l as [|c l]; [simpl in H7; lia|]. destruct Hk as (-> & Hf & _). pose proof (fl_phys _ _ Hl) as Hp. apply Forall_cons in Hp as [Hp _]. pose proof (phys_pos _ Hp).
  wp_steps. rewrite (proj2 (Z.eqb_neq c 0)) by lia. wp_step. apply wp_liftmem. eapply wp_conseq; [apply (proc_pagetable_spec _ l); [exact Hf|lia]|].
  intros pt m2 (l2 & _ & _ & [(_ & _ & Hbad)|(T & HA & _)]); [simpl in H7; lia|].
  pose proof (pt_phys _ _ _ _ (as_pt _ _ _ _ _ HA) _ _ (pt_root _ _ _ _ (as_pt _ _ _ _ _ HA))) as Hpt. apply phys_pos in Hpt.
  wp_steps. rewrite (proj2 (Z.eqb_neq pt 0)) by lia. wp_steps. split; [done|].
  apply first_new_set; [|done..]. apply first_new_set; [|done..]. apply (first_new_set u (u1 <| ps_mem := m1 |>)); done.
Qed.

(** *** The first process *)

(** All references are owned, and nothing is held. *)
Record books s : Prop := {
  bk_wf : kwf s;
  bk_file f : fl_ref (fileat s f) = zsum (holds_fd f) (fst (kv s));
  bk_inode ip : rf (k_fs s) ip = zsum (holds_ino ip) (k_file s) + zsum (holds_cwd ip) (fst (kv s));
  bk_lock ip : lk (k_fs s) ip = false;
  bk_fine : tx_fine (f_tx (k_fs s));
  bk_bufs : tx_bufs (f_tx (k_fs s)) = 0;
  bk_ops : tx_ops (f_tx (k_fs s)) = 0 }.

(** The first process is ready to run, in the root directory, and there is no other. *)
Record first_ready s : Prop := {
  fr_init : ps_initproc (kps s) = Some 0%nat;
  fr_state : p_state (procat (kps s) 0) = RUNNABLE;
  fr_pid : p_pid (procat (kps s) 0) = 1;
  fr_cwd : exists ip, p_cwd (procat (kps s) 0) = Some ip /\ i_dev (inoat (k_fs s) ip) = ROOTDEV /\ i_inum (inoat (k_fs s) ip) = ROOTINO;
  fr_other j : (0 < j < 64)%nat -> p_state (procat (kps s) j) = UNUSED;
  fr_cur : ps_cur (kps s) = 0%nat }.

Lemma namei_root t sb ino (u : pstate) :
  at_rest ino ->
  wp (namei 0 [SLASH]) (fun r f => exists ip i', r = Some ip /\ f = Fsys t sb (<[ip := i']> ino) u /\ (ip < length ino)%nat /\
    i_dev i' = ROOTDEV /\ i_inum i' = ROOTINO /\ i_ref i' = 1 /\ sl_locked (i_lock i') = false) (Fsys t sb ino u).
Proof.
  intros Hr. unfold namei, namex. change (hd 0 [SLASH] =? SLASH) with true. cbn match. wp_step. wp_step. eapply wp_conseq; [by apply rest_iget|].
  intros ip ? (i' & -> & Hl & E1 & E2 & E3 & _ & E4 & _).
  cbn [namex_loop]. change (skipelem [SLASH] _) with (@None (list Z * list Z)). wp_steps. exists ip, i'. by split_and!.
Qed.

(** The table of what the processes own, with the first process in directory [ip]. *)
Lemma first_view u u' ip :
  booted u -> born u u' 0 -> pv (setproc 0 (fun q => q <| p_state := RUNNABLE |>) (setproc 0 (fun q => q <| p_cwd := Some ip |>) u')) =
    (Pown false (replicate 16 None) (Some ip) :: replicate 63 pown0, 0%nat).
Proof.
  intros B (Hl & _ & Hv). assert (Eu : pv u = (replicate 64 pown0, 0%nat)) by (unfold pv; rewrite (bt_procs _ B), (bt_cur _ B); vm_compute; reflexivity).
  rewrite Eu, (booted_proc u 0 B) in Hv by lia. set (u1 := setproc 0 _ u').
  assert (E1 : pv u1 = putown 0 (Pown false (replicate 16 None) (Some ip)) (pv u')).
  { unfold u1. rewrite pv_setproc. f_equal. change (own _) with (Pown (po_dead (own (procat u' 0))) (po_ofile (own (procat u' 0))) (Some ip)). by rewrite own_procat, Hv. }
  rewrite pv_setproc. change (own _) with (Pown false (po_ofile (own (procat u1 0))) (po_cwd (own (procat u1 0)))). by rewrite own_procat, E1, Hv.
Qed.

Lemma first_books t sb ino u c ua ip i' :
  pv u = (Pown false (replicate 16 None) (Some ip) :: replicate 63 pown0, 0%nat) -> at_rest ino -> (ip < length ino)%nat ->
  i_ref i' = 1 -> sl_locked (i_lock i') = false -> linked_up (ls_cache t) -> nlocked (bc_buf (ls_cache t)) = 0 -> lg_outstanding (ls_log t) = 0 ->
  books (Kern (Fsys t sb (<[ip := i']> ino) u) (replicate 100 file0) ∅ c ua 0).
Proof.
  intros Hv Hr Hip E3 E4 T1 T2 T3. set (s := Kern _ _ _ _ _ _). assert (Ev : kv s = (Pown false (replicate 16 None) (Some ip) :: replicate 63 pown0, 0%nat)) by exact Hv.
  assert (Hn : forall j, nth j (<[ip := i']> ino) inode0 = if decide (j = ip) then i' else nth j ino inode0).
  { intros j. case_decide as E; [subst; by apply nth_list_insert_eq|by apply nth_list_insert_ne]. }
  split; [|intros f|intros j|intros j|done..].
  - apply kwf_intro; [apply Forall_replicate; by split|]. rewrite Ev. unfold nino. simpl. rewrite length_insert.
    constructor; [|by apply (Forall_replicate _ 63)]. split_and!; [done| |done]. by intros ? [= <-].
  - rewrite Ev. transitivity 0; [|vm_compute; reflexivity]. unfold fileat. change (k_file s) with (replicate 100 file0). rewrite nth_lookup.
    destruct (replicate 100 file0 !! f) eqn:E; [|done]. by apply lookup_replicate in E as [-> _].
  - rewrite Ev. unfold rf, inoat. change (f_ino (k_fs s)) with (<[ip := i']> ino). rewrite Hn. transitivity (fd1 j (Some ip)).
    + unfold fd1. case_decide as E; [subst j; by rewrite decide_True|]. rewrite decide_False by congruence. by apply rest_nth.
    + assert (Z1 : zsum (holds_ino j) (replicate 100 file0) = 0) by (vm_compute; reflexivity).
      assert (Z2 : zsum (holds_cwd j) (replicate 63 pown0) = 0) by (vm_compute; reflexivity).
      change (fd1 j (Some ip) = zsum (holds_ino j) (replicate 100 file0) + (fd1 j (Some ip) + zsum (holds_cwd j) (replicate 63 pown0))). lia.
  - unfold lk, inoat. change (f_ino (k_fs s)) with (<[ip := i']> ino). rewrite Hn. case_decide; [done|by apply rest_nth].
Qed.

Lemma userinit_spec t sb ino u l c ua :
  booted u -> ps_nextpid u = 1 -> free_list (ps_mem u) l -> (7 <= length l)%nat -> at_rest ino ->
  linked_up (ls_cache t) -> nlocked (bc_buf (ls_cache t)) = 0 -> lg_outstanding (ls_log t) = 0 ->
  wp (userinit forkret_addr) (fun _ s => books s /\ first_ready s) (Kern (Fsys t sb ino u) (replicate 100 file0) ∅ c ua 0).
Proof.
  intros B Hpid Hl H7 Hr T1 T2 T3. unfold userinit. wp_step. apply wp_onps. eapply wp_conseq; [apply (wp_meet (F := anyfault)); [by eapply allocproc_first|apply allocproc_pv]|].
  intros r u1 [[-> (P1 & P2 & P3 & P4)] Hb]. wp_step. apply wp_onps. wp_step. wp_step. apply wp_onfs. eapply wp_conseq; [by apply namei_root|].
  intros ? ? (ip & i' & -> & -> & Hip & E1 & E2 & E3 & E4). wp_step. apply wp_onps. wp_step. apply wp_onps. wp_step.
  change (books (Kern (Fsys t sb (<[ip := i']> ino) (setproc 0 (fun q => q <| p_state := RUNNABLE |>) (setproc 0 (fun q => q <| p_cwd := Some ip |>) (u1 <| ps_initproc := Some 0%nat |>)))) (replicate 100 file0) ∅ c ua 0) /\
    first_ready (Kern (Fsys t sb (<[ip := i']> ino) (setproc 0 (fun q => q <| p_state := RUNNABLE |>) (setproc 0 (fun q => q <| p_cwd := Some ip |>) (u1 <| ps_initproc := Some 0%nat |>)))) (replicate 100 file0) ∅ c ua 0)).
  set (u2 := u1 <| ps_initproc := Some 0%nat |>). assert (Hv := first_view u u2 ip B Hb).
  split; [by apply first_books|].
  set (u3 := setproc 0 _ u2) in *. set (u4 := setproc 0 _ u3) in *.
  assert (Q3 : procat u3 0 = procat u1 0 <| p_cwd := Some ip |>) by (unfold u3; rewrite procat_setproc by (simpl; lia); by rewrite decide_True).
  assert (Q4 : procat u4 0 = procat u1 0 <| p_cwd := Some ip |> <| p_state := RUNNABLE |>).
  { unfold u4. rewrite procat_setproc by (simpl; rewrite length_insert; simpl; lia). rewrite decide_True by done. by rewrite Q3. }
  split.
  - done.
  - change (p_state (procat u4 0) = RUNNABLE). by rewrite Q4.
  - change (p_pid (procat u4 0) = 1). rewrite Q4, <-Hpid. done.
  - exists ip. change (p_cwd (procat u4 0) = Some ip /\ i_dev (nth ip (<[ip := i']> ino) inode0) = ROOTDEV /\ i_inum (nth ip (<[ip := i']> ino) inode0) = ROOTINO).
    rewrite Q4, nth_list_insert_eq by done. done.
  - intros j Hj. change (p_state (procat u4 j) = UNUSED). unfold u4, u3. rewrite procat_setproc by (simpl; rewrite length_insert; simpl; lia). rewrite decide_False by lia.
    rewrite procat_setproc by (simpl; lia). rewrite decide_False by lia. change (procat u2 j) with (procat u1 j). rewrite P4 by lia. rewrite booted_proc by (done || lia). done.
  - change (snd (pv u4) = 0%nat). by rewrite Hv.
Qed.

Lemma wp_onmem {A} (m : M kmem A) Q s : wp m (fun a x => Q a (s <| k_fs := k_fs s <| f_um := kps s <| ps_mem := x |> |> |>)) (ps_mem (kps s)) -> wp (onmem m) Q s.
Proof. intros H. by apply wp_onps, wp_liftmem. Qed.

Lemma consoleinit_spec (x : cst pstate) : wp consoleinit (fun _ x' => exists ua, x' = Cst (cs_cons x) ua (cs_u x)) x.
Proof. destruct x. by eexists. Qed.

(** From power-on to the first process. *)
Lemma kmain_spec d pid m c ua :
  dev_ok d -> mem_boot m -> im_end + 174 * PGSIZE <= PHYSTOP -> wp (kmain forkret_addr) (fun _ s => books s /\ first_ready s) (kpower d pid m c ua).
Proof.
  intros Hd Hm Hroom. unfold kmain, kpower, power_on. wp_step. unfold oncs. apply wp_zoom. eapply wp_conseq; [apply consoleinit_spec|]. intros [] ? (ua' & ->).
  wp_step. apply wp_onmem. eapply wp_conseq; [by apply kinit_spec|]. intros [] m1 (l1 & Hl1 & Hq1).
  assert (H173 : (173 <= length l1)%nat) by (apply phys_length; [apply Hl1|intros q ?; by apply Hq1|unfold PGSIZE in *; lia]).
  wp_step. apply wp_onmem. eapply wp_conseq; [apply kvmmake_spec; [exact Hl1|lia]|]. intros root m2 (T & l & S & Hkv & HS).
  pose proof (kkeys_size T (kv_keys _ _ _ _ _ _ _ Hkv)) as Hsz. pose proof (kv_count _ _ _ _ _ _ _ Hkv) as Hcnt. unfold NPROC in HS.
  pose proof (pt_free _ _ _ _ (kv_pt _ _ _ _ _ _ _ Hkv)) as Hl. assert (H7 : (7 <= length l)%nat) by lia. clear Hkv Hcnt Hsz HS.
  wp_step. apply wp_onps. eapply wp_conseq; [exact (procinit_booted m2 l Hl)|]. intros [] u (Hb & Em & Hp).
  wp_step. unfold ontx. apply wp_onfs, wp_lifttx, wp_liftb. eapply wp_conseq; [exact (binit_linked d pid)|]. intros [] st [Hk Hn].
  wp_step. apply wp_onfs. eapply wp_conseq; [apply iinit_spec; split; [vm_compute; lia|by apply Forall_replicate]|]. intros [] ? (ino & -> & Hr).
  wp_step. eapply wp_conseq; [apply (userinit_spec _ _ _ _ l); [exact Hb|exact Hp|by rewrite Em|exact H7|exact Hr|exact Hk|exact Hn|done]|].
  intros [] s Hs. by wp_step.
Qed.
End Start.

(** ** Running *)

Section Run.
Context `{IM : Image} {IO : ImageOk} {D : Type} `{BS : BlockDevSpec D}.
Variables forkret_addr kernelvec usertrap_addr uservec_off : Z.
Implicit Types (t : tstate (lstate D)) (s : kern (lstate D)).

Lemma books_balanced s s' : books s -> kwf s' -> balanced s s' -> books s'.
Proof.
  intros [] Hw [B1 B2 B3 B4]. destruct (B4 bk_fine0) as (F & E1 & E2). unfold fsurplus, isurplus in *. split; try done.
  - intros f. specialize (B1 f). rewrite bk_file0 in B1. lia.
  - intros ip. specialize (B2 ip). rewrite bk_inode0 in B2. lia.
  - intros ip. by rewrite B3.
  - lia.
  - lia.
Qed.

(** A step of the machine.  A user program computes, and the devices go on: memory, the registers and the disk may change in any way, but not what the processes own.
    A running process has a trap that comes back without having slept, returns from [yield] to user space, wakes up in [pause], or starts in [forkret]; the kernel itself has a trap;
    the CPU is given to another process. *)
Inductive kstep : tstate (lstate D) -> tstate (lstate D) -> Prop :=
  | step_user t u vd c : alive (t_k t) -> pv u = pv (kps (t_k t)) -> kstep t (Tstate (t_k t <| k_fs := k_fs (t_k t) <| f_um := u |> |>) vd c)
  | step_trap t r t' : alive (t_k t) -> usertrap forkret_addr kernelvec usertrap_addr uservec_off t = Ok r t' -> kstep t t'
  | step_resume t r t' : alive (t_k t) -> usertrap_end usertrap_addr uservec_off (ps_cur (kps (t_k t))) t = Ok r t' -> kstep t t'
  | step_pause t n ticks0 r t' : alive (t_k t) -> onk (pause_loop n ticks0) t = Ok r t' -> kstep t t'
  | step_forkret t first r t' : alive (t_k t) -> forkret usertrap_addr uservec_off first t = Ok r t' -> kstep t t'
  | step_kerneltrap t b r t' : alive (t_k t) -> kerneltrap b t = Ok r t' -> kstep t t'
  | step_switch t i t' : pop_ok (kps (t_k t)) (PSwitch i) -> onk (onps (run_pop forkret_addr (PSwitch i))) t = Ok tt t' -> kstep t t'.

Lemma tsame_books t t' : tsame t t' -> books (t_k t) -> books (t_k t').
Proof. intros H Hb. destruct (kmoved_balanced _ _ _ H) as (? & _ & ?). by eapply books_balanced. Qed.

Lemma fsinit_kquiet dev : kquiet (onfs (fsinit dev) : M (kern (lstate D)) unit).
Proof.
  intros s Hs. eapply safe_conseq; [apply onfs_safe, fsinit_quiet|]. cbn beta. intros _ s' [H1 H2]. exact (moved_kmoved _ _ _ _ _ _ Hs H1 H2).
Qed.

Lemma forkret_same first t : good_k (t_k t) -> returns (forkret usertrap_addr uservec_off first) (fun _ t' => tsame t t') t.
Proof.
  intros Hg. unfold forkret. apply safe_bind, safe_get. cbn beta zeta. set (p := ps_cur (kps (t_k t))). apply safe_bind.
  apply (safe_conseq _ (fun _ t1 => tsame t t1)).
  - destruct first; [|apply safe_ret; by apply tsame_refl]. apply safe_bind. eapply safe_conseq; [apply onk_quiet; [apply fsinit_kquiet|done]|]. cbn beta. intros _ t1 [H1 _].
    apply safe_bind. eapply safe_conseq; [apply onk_quiet; [apply kexec_quiet|by eapply tsame_good]|]. cbn beta. intros r t2 [H2 _].
    apply safe_bind. eapply safe_conseq; [apply tf_set_spec; by eapply tsame_good|]. cbn beta. intros _ t3 (H3 & _ & _).
    apply safe_bind. eapply safe_conseq; [apply tf_get_spec; by eapply tsame_good|]. cbn beta. intros a0 t4 H4. destruct (_ =? _); [done|]. apply safe_ret.
    do 3 (eapply tsame_trans; [eassumption|]). done.
  - intros _ t1 H1. eapply safe_conseq; [apply usertrap_end_spec; [by eapply tsame_good|by apply tsame_cur]|]. cbn beta. intros satp t2 [H2 _]. by eapply tsame_trans.
Qed.

Lemma pause_quiet n ticks0 : kquiet (pause_loop n ticks0).
Proof. intros s Hs. unfold pause_loop. ksteps; kdone. Qed.

(** What the processes own does not depend on which of them runs. *)
Lemma switch_view u i u' : pop_ok u (PSwitch i) -> run_pop forkret_addr (PSwitch i) u = Ok tt u' -> fst (pv u') = fst (pv u).
Proof.
  intros [Hi Hr] E. injection E as <-. set (f := fun p => if decide (p_state p = RUNNING) then p <| p_state := RUNNABLE |> else p). set (u1 := setproc (ps_cur u) f u).
  assert (E1 : pv u1 = pv u) by (apply setproc_pv; unfold f; case_decide as E; [|done]; unfold own, dead; simpl; by rewrite E).
  change (fst (pv (setproc i (fun p => p <| p_state := RUNNING |>) u1)) = fst (pv u)). rewrite setproc_pv; [by rewrite E1|].
  assert (Ed : po_dead (own (procat u1 i)) = false) by (rewrite own_procat, E1, <-own_procat; unfold own, dead; simpl; by rewrite Hr).
  change (own (procat u1 i)) with (Pown (po_dead (own (procat u1 i))) (p_ofile (procat u1 i)) (p_cwd (procat u1 i))). by rewrite Ed.
Qed.

Lemma switch_books s u : fst (pv u) = fst (pv (kps s)) -> books s -> books (s <| k_fs := k_fs s <| f_um := u |> |>).
Proof.
  intros E []. set (s' := s <| k_fs := _ |>). assert (Ek : fst (kv s') = fst (kv s)) by exact E. split; try done.
  - destruct bk_wf0 as [W1 W2]. split; [done|]. intros i. specialize (W2 i). unfold ownat in *. by rewrite Ek.
  - intros f. rewrite Ek. apply bk_file0.
  - intros ip. rewrite Ek. apply bk_inode0.
Qed.

Lemma kerneltrap_same b t : good_k (t_k t) -> returns (kerneltrap b) (fun _ t' => tsame t t') t.
Proof.
  intros Hg. unfold kerneltrap. apply safe_bind, safe_gets, safe_bind, safe_gets. cbn beta. destruct (_ =? 0); [done|]. destruct (negb _); [done|].
  apply safe_bind. eapply safe_conseq; [by apply devintr_spec|]. cbn beta. intros r t' [H _]. destruct (r =? 0); [done|]. destruct (_ && _); [by apply safe_ret|].
  apply safe_bind. apply setcsr_safe, safe_ret. exact H.
Qed.

Lemma kstep_books t t' : kstep t t' -> books (t_k t) -> books (t_k t').
Proof.
  intros Hs Hb. pose proof (bk_wf _ Hb) as Hw. destruct Hs as [t u vd c Ha Hu|t r t' Ha E|t r t' Ha E|t n tk r t' Ha E|t first r t' Ha E|t b r t' Ha E|t i t' Hp E].
  - apply switch_books; [by rewrite Hu|done].
  - pose proof (safe_ok _ _ _ _ _ (usertrap_spec forkret_addr kernelvec usertrap_addr uservec_off t Hw Ha) E) as [(Hw' & B & _) _]. by eapply books_balanced.
  - apply (tsame_books t); [|done]. apply (safe_ok _ _ _ _ _ (usertrap_end_spec usertrap_addr uservec_off _ t (conj Hw Ha) eq_refl) E).
  - apply (tsame_books t); [|done]. apply (safe_ok _ _ _ _ _ (onk_quiet _ t (pause_quiet n tk) (conj Hw Ha)) E).
  - exact (tsame_books _ _ (safe_ok _ _ _ _ _ (forkret_same first t (conj Hw Ha)) E) Hb).
  - exact (tsame_books _ _ (safe_ok _ _ _ _ _ (kerneltrap_same b t (conj Hw Ha)) E) Hb).
  - unfold onk, onps, onfs, liftum, zoom in E. destruct (run_pop forkret_addr (PSwitch i) _) as [[] u| | | |] eqn:Er; try done. injection E as <-.
    apply switch_books; [|done]. by eapply switch_view.
Qed.

Lemma run_books t t' : rtc kstep t t' -> books (t_k t) -> books (t_k t').
Proof. induction 1 as [|t t1 t' Hs _ IH]; [done|]. intros Hb. by eapply IH, kstep_books. Qed.

(** C3. The kernel starts, and its books are in order ever after.  On a machine with a disk and at least 174 free pages, the kernel's
    start-up returns: the first process is ready to run in the root directory and is the only one.  In every state the machine then reaches, whatever
    user programs compute and the devices do, by handling traps (system calls, page faults, interrupts, exceptions), starting new processes and switching between
    them: the reference count of every open file is the number of descriptors that processes have for it, the reference count of every inode is the number of open files and
    working directories that refer to it, no inode is locked, no buffer is held and no log operation is open.  (A trap counts when it comes back; a call that sleeps in the kernel is not followed further.) *)
Theorem kernel_books d pid m c ua :
  dev_ok d -> mem_boot m -> im_end + 174 * PGSIZE <= PHYSTOP ->
  wp (kmain forkret_addr) (fun _ s => first_ready s /\ forall vd csr t, rtc kstep (Tstate s vd csr) t -> books (t_k t)) (kpower d pid m c ua).
Proof.
  intros Hd Hm Hroom. eapply wp_conseq; [by apply kmain_spec|]. intros root s [Hb Hf]. split; [done|]. intros vd csr t Hr. by apply (run_books _ _ Hr).
Qed.
End Run.
