(* ===== verification/KDemo.v ===== *)
(** The small machine makes a system call: a process with an empty table of descriptors asks for a pipe. *)

From S2P Require Import CString Prelude Safe Bytes Params Disk Sleeplock Bio LogTx Log LogSpec Tx LogCrash Fs FsDemo Balance LogBal Riscv Kalloc Vm VmDemo Proc ProcOps ProcIso ProcDemo Pipe Console ProcCaller ProcView File KBalance KProcs Syscall Sysfile Sysproc KCalls Virtio VirtioDev Trap KTrap Boot.

#[local] Existing Instance vimage.

(** The booted log, the root directory in use by process 0, and the registers for [pipe((int [])16)]. *)
Definition kd_log : lstate RamDisk.t := final (boot_log demo_sb) (Lstate (bcache_bss demo_disk 1) log_bss).
Definition kd_inodes : list inode := (inode0 <| i_dev := 1 |> <| i_inum := 1 |> <| i_ref := 1 |>) :: replicate 49 inode0.
Definition kd_regs (num a0 : Z) : M pstate unit :=
  modify (setproc 0 (fun p => p <| p_cwd := Some 0%nat |>)) ;;;
  let* u := get in
  let tf := p_trapframe (procat u 0) in
  liftmem (st64 (tf + TF_A7) num ;;; st64 (tf + TF_A0) a0).
Definition kd (num a0 : Z) : kern (lstate RamDisk.t) :=
  Kern (Fsys kd_log demo_sb kd_inodes (final (kd_regs num a0) d4)) (replicate 100 file0) ∅ (Cons (replicate 128 0) 0 0 0) (MkUart 0 [] [] true false) 0.

Definition kd_pipe : kern (lstate RamDisk.t) := kd 4 16.
Definition kd_piped : kern (lstate RamDisk.t) := final (syscall 0x80001000) kd_pipe.

Lemma kd_pipe_parts :
  k_file kd_pipe = replicate 100 file0 /\ nino kd_pipe = 50%nat /\
  fst (kv kd_pipe) = Pown false (replicate 16 None) (Some 0%nat) :: replicate 63 pown0 /\ alive kd_pipe.
Proof. vm_compute. repeat split; reflexivity. Qed.

Lemma kd_pipe_linked : linked_up (ls_cache kd_log).
Proof.
  assert (E : forallb (fun b => (b_next b <? 31)%nat && (b_prev b <? 31)%nat) (bc_buf (ls_cache kd_log)) = true) by (vm_compute; reflexivity).
  split; [vm_compute; reflexivity|]. intros i. unfold bufat. rewrite nth_lookup. destruct (bc_buf (ls_cache kd_log) !! i) as [b|] eqn:Eb.
  - rewrite forallb_forall in E. specialize (E b). simpl. apply list_elem_of_lookup_2, list_elem_of_In in Eb. apply E in Eb. lia.
  - simpl. lia.
Qed.

#[local] Opaque kd_log d4.

Lemma kd_pipe_wf : kwf kd_pipe.
Proof.
  destruct kd_pipe_parts as (E1 & E2 & E3 & _). apply kwf_intro; rewrite E2; [rewrite E1|rewrite E3].
  - apply Forall_replicate. split; [reflexivity|discriminate].
  - constructor; [|apply Forall_replicate]; (split; [reflexivity|split; [|reflexivity || discriminate]]); intros ip Hip; [injection Hip as <-; lia|discriminate Hip].
Qed.


(** The same call as a trap: cause 8, from user mode. *)
Definition td_pipe : tstate (lstate RamDisk.t) := Tstate kd_pipe vd0 (Csrs 0 0 0x100 8 0 0 0 0 0 0 []).
Definition td_trap : M (tstate (lstate RamDisk.t)) utrap := usertrap 0x80001000 0x80002000 0x80003000 0.
Definition td_piped : tstate (lstate RamDisk.t) := final td_trap td_pipe.


(** A transaction that fills the log cannot be committed: its blocks pin every buffer of the cache, and [commit] finds none for the log. *)
Definition full_transaction : M (lstate RamDisk.t) unit :=
  begin_op ;;;
  each (fun i =>
    let* b := liftb (bread 1 (100 + i)) in
    log_write b ;;;
    liftb (brelse b)) 0 (Z.to_nat LOGBLOCKS) ;;;
  end_op.

Lemma full_transaction_panics : full_transaction kd_log = Panic "bget: no buffers".
Proof. vm_compute. reflexivity. Qed.

(** ** The machine with the two-page kernel is switched on *)

Definition empty_disk : RamDisk.t := RamDisk.Mk ∅ [].

Lemma empty_disk_ok : dev_ok empty_disk.
Proof. intros b x Hx. change ((∅ : gmap Z block) !! b = Some x) in Hx. by rewrite lookup_empty in Hx. Qed.

Lemma kimage_room174 : @im_end kimage + 174 * PGSIZE <= PHYSTOP.
Proof. vm_compute. congruence. Qed.

Definition kb_cons : cons := Cons (replicate 128 0) 0 0 0.
Definition kb_uart : uart := MkUart 0 [] [] true false.

(** It starts, and its books are in order before the first step and after any trap of the first process. *)
Lemma kernel_books_witness :
  exists root s, @kmain kimage RamDisk.t _ 0x80001000 (kpower empty_disk 0 vm_boot kb_cons kb_uart) = Ok root s /\
    p_state (procat (kps s) 0) = RUNNABLE /\ books s /\ forall csr r t, usertrap (IM := kimage) 0x80001000 0x80002000 0x80003000 0 (Tstate s vd0 csr) = Ok r t -> books (t_k t).
Proof.
  refine (proj1 (wp_returns (@kmain kimage RamDisk.t _ 0x80001000) (fun root s =>
    p_state (procat (kps s) 0) = RUNNABLE /\ books s /\ forall csr r t, usertrap (IM := kimage) 0x80001000 0x80002000 0x80003000 0 (Tstate s vd0 csr) = Ok r t -> books (t_k t)) _) _).
  refine (wp_conseq _ _ _ _ (@kernel_books kimage kimage_ok RamDisk.t _ _ 0x80001000 0x80002000 0x80003000 0 empty_disk 0 vm_boot kb_cons kb_uart empty_disk_ok vm_boot_ok kimage_room174) _).
  intros root s [Hf Hr]. split; [exact (fr_state _ Hf)|split].
  - exact (Hr vd0 (Csrs 0 0 0 0 0 0 0 0 0 0 []) _ (rtc_refl _ _)).
  - intros csr r t E. refine (Hr vd0 csr t (rtc_once _ _ _)). apply (step_trap _ _ _ _ _ r t); [|exact E].
    change (po_dead (ownat (pv (kps s)) (ps_cur (kps s))) = false). rewrite <-own_procat, (fr_cur _ Hf). unfold own, dead. simpl. rewrite (fr_state _ Hf). reflexivity.
Defined.
